(* ===== verification/_CoqProject ===== *)
-Q . S2P
Prelude.v
Sha256.v
Netip.v
Allocation.v
Api.v
Conditions.v
Kube.v
Enrollment.v
Reference.v
ClassController.v
RouteController.v
GatewayController.v
Reservation.v
BindingController.v
Addressing.v
CniTypes.v
CniPlugin.v
CniTrace.v
Files.v
CniStore.v
ProtocolAuth.v
Nft.v
Dataplane.v
Kernel.v
Http.v
CniInstall.v
PortRuntime.v
PortManager.v
PortRules.v
PortTransport.v
PortDelivery.v
QbAdapter.v
QbClient.v
AdapterPath.v
PortAllocation.v
PortResolver.v
LeaseController.v
AdapterController.v
StatusContract.v
PortPath.v
Release.v
GatewayCore.v
GatewayService.v
Gluetun.v
DnsProbe.v
GatewayReady.v
GatewayPath.v
NodeAgent.v
AgentLoop.v
Scheduling.v
Relay.v
RelayPath.v
AgentProtocol.v
Node.v
NodeLoop.v
Transition.v
Installation.v
InstallPath.v
