(* ===== verification/Prelude.v ===== *)
(** * Waycloak

    A verification library for Waycloak, a Kubernetes system that sends the
    egress of enrolled Pods through a VPN gateway and denies it otherwise.  The
    Go source is under src/; this library models it in Rocq definition by
    definition and proves what the program promises.

    ** The program and how its parts work together

    Users enroll a Pod with one label that names a VPNEgressRoute; a route has a
    VPNGateway as parent, and gateways have a VPNGatewayClass.  Controllers
    resolve these references, publish conditions, and for every enrolled Pod
    write a VPNWorkloadBinding with a reserved overlay address.  On the node a
    chained CNI plugin (internal/cni) runs when a sandbox is created: it
    installs a deny-everything policy in the Pod's network namespace, records
    that durably, waits for the binding, asks the node agent
    (internal/nodeagent) over an authenticated local socket to program the
    protected path (internal/dataplane), and only then lets the Pod start.
    The node agent repairs drift, withdraws, and reports to a relay
    (internal/observationrelay), which writes what it was told into the status of
    the bindings; nodes whose agent reports are labelled for scheduling
    (internal/scheduling).

    The gateway Pod (internal/gatewaydataplane) forwards the overlay traffic of the bound
    workloads into the tunnel.  A PortForwardLease asks for a public port: its
    controller (internal/portforward) picks one endpoint of the lease's Service,
    reserves a provider port, and asks the runtime inside the gateway, over
    mutual TLS, to obtain the mapping, install the inbound rule and tell the
    application through a workload adapter, such as that of qBittorrent
    (internal/qbittorrentadapter).  Moving a lease to another Pod withdraws the
    old target first.

    An installation controller (internal/installation) takes the cluster from
    one exact release to the next in phases of a journal: the node agents hold a
    deny, the class is withdrawn, the target is staged under the hold, the
    gateways are replaced, and only then is the target activated
    (internal/waycloakctl).

    ** Files

    Foundations:
    - Prelude: errors, the state-and-error monad [IO], its weakest-precondition
      calculus ([wp], [wp_step], [wp_run]), time, strings, sorting.
    - Sha256: SHA-256 and hexadecimal text, checked against test vectors.
    - Netip: net/netip values and texts for IPv4 and IPv6.
    - Nft: nftables expressions, their evaluation on packets, transactions.
    - Http: paths and their escaping (net/url), requests, bounded bodies and
      strict decoding.
    - Files: a file system whose calls may fail, tear a file or kill the process.
    - Api, Kube: the v1beta1 kinds with the CRD rules on conditions; the
      Kubernetes client as classes, and a server that other clients change
      between any two requests.

    Controllers:
    - Allocation (internal/allocation), Conditions (internal/conditions),
      Enrollment (internal/enrollment), Reference (internal/reference),
      Reservation (internal/binding/allocation.go): one file each.
    - ClassController, RouteController, GatewayController, BindingController
      (internal/controller): one reconciler each, with its watches.
    - Addressing: the binding controllers with their pool against the server.
    - StatusContract: what the reconcilers share.
    - Scheduling (internal/scheduling): the labels of the nodes.
    - Relay (internal/observationrelay/relay.go): the requests to the relay, with
      the workers of a report as a state machine; RelayPath: overlapping reports
      and the binding controllers on one server.

    Node:
    - CniTypes, CniPlugin, CniStore (internal/cni/types.go, plugin.go, store.go);
      CniTrace runs the plugin in a world that records every call.
    - CniInstall (internal/cniinstall, internal/nodeagent/installation.go): the
      installation of the plugin and its validation.
    - ProtocolAuth (internal/cni/protocol_auth.go): message authentication.
    - AgentProtocol (internal/nodeagent/handler.go, internal/cni/agent_client.go):
      the messages between plugin and agent.
    - Dataplane (internal/dataplane/dataplane.go and the rules of
      backend_linux.go) and Kernel (the rest of backend_linux.go).
    - NodeAgent (internal/nodeagent/service.go); AgentLoop
      (internal/nodeagent/reporter.go, cmd/waycloak-node-agent): its start and the
      rounds of its loop.
    - Node (internal/cni/enforcer_linux.go): the whole node in one world, with
      every interface implemented by the modelled code; NodeLoop: the agent's
      loop there.

    Gateway:
    - GatewayCore, GatewayService (internal/gatewaydataplane): the gateway's rules, peers
      and its service loop; GatewayPath: the rules of the gateway and of the
      node on one packet.
    - Gluetun (internal/provider/gluetun), DnsProbe
      (internal/gatewaydataplane/dns_probe.go): what the service observes;
      GatewayReady: the service over both.

    Port forwarding (internal/portforward):
    - PortRuntime, PortManager: the runtime's messages and its manager;
      PortRules: the inbound nftables rules.
    - PortTransport: the runtime protocol, client and handler; PortDelivery: the
      application adapter protocol.
    - QbAdapter, QbClient (internal/qbittorrentadapter): the adapter with its
      state file, and the client of the application; AdapterPath: delivery
      manager, protocol and adapter together.
    - PortAllocation, PortResolver: provider port reservations and the choice
      of the endpoint.
    - LeaseController, AdapterController: the two reconcilers.
    - PortPath: lease controller, transport, manager and rules as one system.

    Installation:
    - Release (internal/waycloakctl/plan.go, lifecycle.go, install_layout.go):
      exact releases, what is observed of a deployed one, the checkpoints of a
      transition.
    - Transition (install_quiescence.go, install_gateway_rollout.go,
      native_install.go of the same package): the hold, the rollout of the
      gateways and the phases.
    - Installation (internal/installation/reconciler.go): the controller and its
      journal; InstallPath (backend.go): controller, backend and phases together.

    ** How code is modelled

    A Go function that can fail or touch the world is a computation
    [IO W A := W -> res A * W]; an [error] is a tree of sentinels, API statuses
    and wraps, so [errors.Is] and [apierrors.IsNotFound] are functions.  A Go
    interface is a class over the world, and a component is proved against the
    class; contracts between components are classes too ([DenyContract],
    [ProgrammerContract], [TimerLaws]) that Node discharges with the
    implementations.  Concrete worlds carry lists of failures: system calls may
    fail or tear a file, kernel calls, API requests and agent exchanges may
    fail, and other API clients may act between any two requests.  Where a
    theorem says that something was observed in the very pass, it asks for a
    world that has every property of the pass's first world that the calls keep.
    The workers of a relay report and overlapping reports interleave; otherwise
    the operations of a component run one after the other.  Dependencies that
    the source checks for nil are always present.

    ** What the theorems show

    - Fail closed, end to end (Node, NodeLoop, CniPlugin, Kernel, NodeAgent): ADD
      succeeds only with a policy table in the namespace, by whose links and for
      whose traffic alone packets leave it, or for a Pod that is exactly resolved
      as not enrolled; nothing on the node ever takes an installed policy away; a
      round of the agent without a valid installation or without the relay locks
      down; a node is ready only with the plugin in the runtime's path.
    - Order (CniTrace): deny first, the Ready record last, records released only
      for Pods that are gone.
    - Packets (Dataplane): the emitted nftables bytes accept exactly the traffic
      the policy means, and DNS is contained.
    - Durability (CniStore, CniInstall): saving is atomic under crashes, the
      directory implements a finite map, and a crash of the installer leaves a
      runtime configuration that runs the plugin.
    - Authentication (ProtocolAuth, AgentProtocol): injective framing, no replay,
      a bounded window, round trips, and exact reporting of absent Pods.
    - Allocation (Allocation, Reservation, Addressing): lowest free address;
      reservations are exclusive and terminating; an address is shared only with
      a Pod that is being deleted and was confirmed as withdrawn.
    - Reports (Relay, RelayPath, Scheduling): the relay writes only bindings of
      the caller's node, every schedule of its workers ends, a binding is ready
      only on reports of its own node, and a node is labelled only on a report
      of its own agent.
    - References and conditions (Reference, Enrollment, Conditions, the
      controllers, StatusContract): no existence oracle across namespaces, exact
      fan-out, sound readiness, and statuses that are not rejected for their
      conditions; a class, a route or a gateway whose observations stay the same
      is not written again.
    - Gateway (GatewayCore, GatewayService, GatewayReady, GatewayPath): only
      programmed peers pass, inbound traffic reaches exactly the leased endpoint,
      the service opens only on evidence for tunnel and DNS, and closes the path
      when it cannot verify it.
    - Port forwarding (PortManager, PortAllocation, PortTransport, LeaseController,
      AdapterController, PortPath): one target at a time, write-ahead of every
      generation, a granted provider port reserved for exactly its lease, a
      transparent transport, finalizers kept until the release is proved or its
      deadline passed, and, through all these parts, that a lease reported ready
      is forwarded and a lease that moved was drained.
    - Applications (QbAdapter, QbClient, AdapterPath): the adapter writes its
      intent before it acts, its leases only move on, and what the gateway
      reports as delivered is in use.
    - Installation (Release, Transition, Installation, InstallPath): a deployed
      release is at one checkpoint at most, the controller keeps to the protocol
      of its journal, and no step of an upgrade is taken before the deny it
      depends on was observed.

    ** Bounds and fuel

    [retry_fuel] is timeout/interval + 2, which [retryValue_bounded] shows to be
    enough; every wait of the program, wait.PollUntilContextTimeout included, is
    [bounded_wait] with that fuel.  [Reserve] takes its number of rounds as an
    argument, and [Reserve_terminates] gives a bound; [Next_scan] runs at most
    once per address of the prefix; the DNS probe makes at least one attempt per
    round, so its attempts are its fuel; text parsers recurse on their input.
    Machine integers wrap where the source converts or adds them at a width
    (Reservation, NodeAgent, Dataplane, Scheduling); times are nanoseconds in [Z]
    with [time_Sub] saturating.

    ** What is not modelled

    JSON and RFC 3339 texts, DNS messages and certificates are parameters, with
    their round trips as hypotheses where a theorem needs them; sockets and TLS
    are interfaces.  Of the CRD rules only those on conditions and on a route's
    parent are modelled.  Left out are the command line, locks and keys of the
    CNI plugin, the objects that the gateway controller provisions, the resolver
    of signed artifacts and Helm, the planning of a transition and the rest of the
    command-line tool, telemetry, generated code and the executables' wiring:
    they are input and output around the parts above. *)

From Stdlib Require Export ZArith Lia.
From Stdlib Require Import Ascii.
From stdpp Require Export base strings gmap list sorting fin_maps.

#[global] Open Scope Z_scope.

(** ** Errors

    Go errors are compared by identity of package-level variables
    ([errors.Is]), by the status reason of a Kubernetes API error
    ([apierrors.IsNotFound] and the like, which search the wrap tree), and
    otherwise only by being nil or not.  [ESentinel] is a package-level error
    variable, [EStatus] an API status error, [EWrap] both [fmt.Errorf] with
    [%w] verbs and [errors.Join]. *)

Inductive status_reason :=
| ReasonNotFound
| ReasonAlreadyExists
| ReasonConflict
| ReasonForbidden
| ReasonUnauthorized
| ReasonOther.

#[global] Instance status_reason_eq_dec : EqDecision status_reason.
Proof. solve_decision. Defined.

Inductive error :=
| ESentinel (name : string)
| ENew (msg : string)
| EStatus (reason : status_reason)
| EWrap (msg : string) (es : list error).

(** [errors.Is(e, target)] for a package-level [target]. *)
Fixpoint errors_is (e : error) (target : string) : bool :=
  match e with
  | ESentinel n => String.eqb n target
  | EWrap _ es => existsb (fun e' => errors_is e' target) es
  | _ => false
  end.

(** [apierrors.ReasonForError]: the first API status in the wrap tree, depth first. *)
Fixpoint reason_for_error (e : error) : option status_reason :=
  match e with
  | EStatus r => Some r
  | EWrap _ es =>
      (fix first (l : list error) : option status_reason :=
         match l with
         | [] => None
         | e' :: l' => match reason_for_error e' with Some r => Some r | None => first l' end
         end) es
  | _ => None
  end.

Definition has_reason (r : status_reason) (e : error) : bool :=
  bool_decide (reason_for_error e = Some r).
Definition IsNotFound (e : error) : bool := has_reason ReasonNotFound e.
Definition IsAlreadyExists (e : error) : bool := has_reason ReasonAlreadyExists e.
Definition IsForbidden (e : error) : bool := has_reason ReasonForbidden e.
Definition IsUnauthorized (e : error) : bool := has_reason ReasonUnauthorized e.

(** [fs.ErrNotExist] and [os.ErrNotExist] are one value, and so are their
    [ErrExist]. *)
Definition ErrNotExist : string := "file does not exist".
Definition ErrExist : string := "file already exists".

(** [fmt.Errorf("...: %w", err)]. *)
Definition Errorf (msg : string) (e : error) : error := EWrap msg [e].

(** [errors.Join]: nil operands are dropped and joining nothing is nil. *)
Definition errors_Join (es : list (option error)) : option error :=
  match omap id es with
  | [] => None
  | l => Some (EWrap "errors.Join" l)
  end.

(** ** Effects

    A Go function that touches the world is a state-and-error computation over
    an abstract world [W]; the concrete world is chosen by whoever implements
    the Go interfaces the function calls. *)

Inductive res (A : Type) :=
| Ok (a : A)
| Fail (e : error).
Arguments Ok {_} _.
Arguments Fail {_} _.

Definition res_ok {A} (r : res A) : bool := match r with Ok _ => true | Fail _ => false end.

(** A Go [error] result as a computation result. *)
Definition of_error (e : option error) : res unit :=
  match e with None => Ok tt | Some e => Fail e end.

Definition IO (W A : Type) : Type := W -> res A * W.

#[global] Instance io_ret W : MRet (IO W) := fun A a w => (Ok a, w).
#[global] Instance io_bind W : MBind (IO W) := fun A B k m w =>
  match m w with
  | (Ok a, w') => k a w'
  | (Fail e, w') => (Fail e, w')
  end.

Definition io_fail {W A} (e : error) : IO W A := fun w => (Fail e, w).
(** A run-time panic, which controller-runtime turns into a failed reconciliation. *)
Definition io_panic {W A} : IO W A := io_fail (ESentinel "panic").
Definition io_lift {W A} (r : res A) : IO W A := fun w => (r, w).

(** Inspect the error instead of propagating it. *)
Definition io_try {W A} (m : IO W A) : IO W (res A) := fun w =>
  match m w with (r, w') => (Ok r, w') end.

(** [if err := m(); err != nil { return fmt.Errorf(msg, err) }]. *)
Definition io_wrap {W A} (msg : string) (m : IO W A) : IO W A := fun w =>
  match m w with
  | (Ok a, w') => (Ok a, w')
  | (Fail e, w') => (Fail (Errorf msg e), w')
  end.

(** [_ = m()]: the error is discarded. *)
Definition io_ignore {W A} (m : IO W A) : IO W unit := fun w =>
  match m w with (_, w') => (Ok tt, w') end.

(** [for _, x := range xs { if err := f(x); err != nil { errs = append(errs, err) } }]. *)
Fixpoint io_collect {W A} (f : A -> IO W unit) (xs : list A) : IO W (list error) :=
  match xs with
  | [] => mret []
  | x :: xs' =>
      r ← io_try (f x);
      errs ← io_collect f xs';
      mret (match r with Ok _ => errs | Fail e => e :: errs end)
  end.

(** [for _, x := range xs { f(x) }] where the first error returns. *)
Fixpoint io_each {W A} (f : A -> IO W unit) (xs : list A) : IO W unit :=
  match xs with
  | [] => mret tt
  | x :: xs' => f x ;; io_each f xs'
  end.

(** A component with state [S] of its own: its methods run on the pair of that
    state and the world. *)
Definition on_world {S W A} (m : IO W A) : IO (S * W) A := fun sw => let '(r, w') := m sw.2 in (r, (sw.1, w')).
Definition get_state {S W} : IO (S * W) S := fun sw => (Ok sw.1, sw).
Definition put_state {S W} (s : S) : IO (S * W) unit := fun sw => (Ok tt, (s, sw.2)).

(** ** Time

    A [time.Time] is its number of nanoseconds since the Unix epoch, a
    [time.Duration] an int64 number of nanoseconds. *)

Notation time := Z (only parsing).
Notation duration := Z (only parsing).
Definition Nanosecond : duration := 1.
Definition Millisecond : duration := 1000000.
Definition Second : duration := 1000 * Millisecond.
Definition Minute : duration := 60 * Second.

(** The zero [time.Time]: January 1 of year 1, UTC. *)
Definition zero_time : time := - 62135596800 * Second.
Definition time_IsZero (t : time) : bool := t =? zero_time.
Definition time_After (t u : time) : bool := u <? t.
Definition time_Before (t u : time) : bool := t <? u.

Definition max_int64 : Z := 2 ^ 63 - 1.
Definition min_int64 : Z := - 2 ^ 63.

(** [t.Sub(u)] saturates at the ends of int64. *)
Definition time_Sub (t u : time) : duration := Z.max min_int64 (Z.min max_int64 (t - u)).

(** ** Go values *)

Definition str_empty (s : string) : bool := String.eqb s "".

(** [slices.Contains] and the hand-written loops that do the same. *)
Definition contains_string (l : list string) (s : string) : bool := existsb (String.eqb s) l.

(** Go compares strings bytewise. *)
Definition str_ltb (a b : string) : bool :=
  match String.compare a b with Lt => true | _ => false end.

(** [strings.HasPrefix]. *)
Definition HasPrefix (s p : string) : bool := String.prefix p s.

(** [strings.TrimSpace] removes the UTF-8 encodings of the Unicode White_Space
    runes at both ends.  No encoding is a proper suffix of a longer valid
    rune, so matching byte sequences is what decoding the runes does. *)
Definition byte_string (bs : list Z) : string :=
  String.string_of_list_ascii (map (fun b => Ascii.ascii_of_N (Z.to_N b)) bs).

Definition space_encodings : list string :=
  map byte_string
    ([[9]; [10]; [11]; [12]; [13]; [32]; [194; 133]; [194; 160]; [225; 154; 128]] ++
     map (fun b => [226; 128; b]) [128; 129; 130; 131; 132; 133; 134; 135; 136; 137; 138; 168; 169; 175] ++
     [[226; 129; 159]; [227; 128; 128]]).

Definition drop_string (n : nat) (s : string) : string :=
  String.substring n (String.length s - n) s.

Definition leading_space (encodings : list string) (s : string) : option nat :=
  String.length <$> List.find (fun e => String.prefix e s) encodings.

Fixpoint trim_left_with (encodings : list string) (fuel : nat) (s : string) : string :=
  match fuel with
  | O => s
  | S fuel' => match leading_space encodings s with
               | Some n => trim_left_with encodings fuel' (drop_string n s)
               | None => s
               end
  end.

Definition string_rev (s : string) : string :=
  String.string_of_list_ascii (rev (String.list_ascii_of_string s)).

(** Each round removes at least one byte, so the length is enough fuel. *)
Definition TrimSpace (s : string) : string :=
  let l := trim_left_with space_encodings (String.length s) s in
  string_rev (trim_left_with (map string_rev space_encodings) (String.length l) (string_rev l)).

(** ** Reasoning about computations

    [wp m Q w]: running [m] in [w] gives a result and a world that satisfy
    [Q].  Computations are total functions, so this is total correctness. *)

Definition wp {W A} (m : IO W A) (Q : res A -> W -> Prop) (w : W) : Prop := Q (m w).1 (m w).2.

Lemma wp_intro {W A} (m : IO W A) Q w r w' : m w = (r, w') -> Q r w' -> wp m Q w.
Proof. unfold wp. by intros ->. Qed.

Lemma wp_elim {W A} (m : IO W A) Q w r w' : wp m Q w -> m w = (r, w') -> Q r w'.
Proof. unfold wp. intros HQ E. by rewrite E in HQ. Qed.

Lemma wp_mono {W A} (m : IO W A) (P Q : res A -> W -> Prop) w :
  wp m P w -> (forall r w', P r w' -> Q r w') -> wp m Q w.
Proof. unfold wp. auto. Qed.

Lemma wp_and {W A} (m : IO W A) (P Q : res A -> W -> Prop) w :
  wp m P w -> wp m Q w -> wp m (fun r w' => P r w' /\ Q r w') w.
Proof. unfold wp. auto. Qed.

(** What the rest of a bind sees: the value and the world, or the error. *)
Definition after {W A} (K : A -> W -> Prop) (E : error -> W -> Prop) : res A -> W -> Prop :=
  fun r w => match r with Ok a => K a w | Fail e => E e w end.

Lemma wp_bind {W A B} (m : IO W A) (k : A -> IO W B) Q w :
  wp m (after (fun a => wp (k a) Q) (fun e => Q (Fail e))) w -> wp (m ≫= k) Q w.
Proof. unfold wp, mbind, io_bind. destruct (m w) as [[a|e] w']; auto. Qed.

Lemma wp_ret {W A} (a : A) (Q : res A -> W -> Prop) w : Q (Ok a) w -> wp (mret a) Q w.
Proof. auto. Qed.

Lemma wp_fail {W A} e (Q : res A -> W -> Prop) w : Q (Fail e) w -> wp (io_fail e) Q w.
Proof. auto. Qed.

Lemma wp_lift {W A} (r : res A) (Q : res A -> W -> Prop) w : Q r w -> wp (io_lift r) Q w.
Proof. auto. Qed.

Lemma wp_try {W A} (m : IO W A) Q w : wp m (fun r w' => Q (Ok r) w') w -> wp (io_try m) Q w.
Proof. unfold wp, io_try. destruct (m w); auto. Qed.

Lemma wp_wrap {W A} msg (m : IO W A) (Q : res A -> W -> Prop) w :
  wp m (after (fun a => Q (Ok a)) (fun e => Q (Fail (Errorf msg e)))) w -> wp (io_wrap msg m) Q w.
Proof. unfold wp, io_wrap. destruct (m w) as [[a|e] w']; auto. Qed.

Lemma wp_ignore {W A} (m : IO W A) Q w : wp m (fun _ w' => Q (Ok tt) w') w -> wp (io_ignore m) Q w.
Proof. unfold wp, io_ignore. destruct (m w); auto. Qed.

Lemma wp_on_world {S W A} (m : IO W A) (Q : res A -> S * W -> Prop) s w :
  wp m (fun r w' => Q r (s, w')) w -> wp (on_world m) Q (s, w).
Proof. unfold wp, on_world. cbn. by destruct (m w). Qed.

Lemma wp_get_state {S W} (Q : res S -> S * W -> Prop) s w : Q (Ok s) (s, w) -> wp get_state Q (s, w).
Proof. done. Qed.

Lemma wp_put_state {S W} (s' : S) (Q : res unit -> S * W -> Prop) s w : Q (Ok tt) (s', w) -> wp (put_state s') Q (s, w).
Proof. done. Qed.

(** A loop that collects errors never fails itself and keeps what each
    iteration keeps. *)
Lemma wp_collect {W A} (I : W -> Prop) (f : A -> IO W unit) xs w :
  (forall x w, x ∈ xs -> I w -> wp (f x) (fun _ w' => I w') w) -> I w ->
  wp (io_collect f xs) (fun r w' => I w' /\ exists errs, r = Ok errs) w.
Proof.
  revert w. induction xs as [|x xs IH]; intros w Hf HI; cbn [io_collect].
  { apply wp_ret. eauto. }
  apply wp_bind, wp_try. eapply wp_mono; [apply Hf; [set_solver|done]|]. intros r w1 HI1. cbn [after].
  apply wp_bind. eapply wp_mono; [apply IH; [|done]; intros; apply Hf; set_solver|].
  intros ? w2 [HI2 [errs ->]]. cbn [after]. apply wp_ret. eauto.
Qed.

(** When such a loop reports no error, every iteration has left what it
    establishes, if no iteration takes it away. *)
Lemma wp_collect_each {W A} (I : W -> Prop) (P : A -> W -> Prop) (f : A -> IO W unit) xs w :
  (forall x w, x ∈ xs -> I w ->
     wp (f x) (fun r w' => I w' /\ (r = Ok tt -> P x w') /\ forall y, P y w -> P y w') w) -> I w ->
  wp (io_collect f xs) (fun r w' => I w' /\ (forall y, P y w -> P y w') /\
    exists errs, r = Ok errs /\ (errs = [] -> forall x, x ∈ xs -> P x w')) w.
Proof.
  revert w. induction xs as [|x xs IH]; intros w Hf HI; cbn [io_collect].
  { apply wp_ret. split_and!; [done|done|]. exists []. split; [done|]. set_solver. }
  apply wp_bind, wp_try. eapply wp_mono; [apply Hf; [set_solver|done]|]. intros r w1 (HI1 & Hx & Hkeep). cbn [after].
  apply wp_bind. eapply wp_mono; [apply IH; [|done]; intros; apply Hf; set_solver|].
  intros ? w2 (HI2 & Hkeep2 & errs & -> & Hall). cbn [after]. apply wp_ret. split_and!; [done|auto|].
  destruct r as [[]|e]; [exists errs|by exists (e :: errs)]. split; [done|].
  intros He y [->|Hy]%elem_of_cons; auto.
Qed.

Lemma wp_each_all {W A} (I : W -> Prop) (P : A -> W -> Prop) (f : A -> IO W unit) xs w :
  (forall x w, x ∈ xs -> I w ->
     wp (f x) (fun r w' => I w' /\ (r = Ok tt -> P x w') /\ forall y, P y w -> P y w') w) -> I w ->
  wp (io_each f xs) (fun r w' => I w' /\ (forall y, P y w -> P y w') /\ (r = Ok tt -> forall x, x ∈ xs -> P x w')) w.
Proof.
  revert w. induction xs as [|x xs IH]; intros w Hf HI; cbn [io_each].
  { apply wp_ret. split_and!; [done|done|]. set_solver. }
  apply wp_bind. eapply wp_mono; [apply Hf; [set_solver|done]|]. intros [[]|e] w1 (HI1 & Hx & Hkeep); cbn [after].
  - eapply wp_mono; [apply IH; [|done]; intros; apply Hf; set_solver|].
    intros r w2 (HI2 & Hkeep2 & Hall). split_and!; [done|auto|]. intros Hr y [->|Hy]%elem_of_cons; auto.
  - split_and!; [done|done|done].
Qed.

Create HintDb wpdb.
#[export] Hint Resolve wp_ret wp_fail wp_lift : wpdb.

(** Take the next statement of the goal's computation apart. *)
Ltac wp_step :=
  lazymatch goal with
  | |- wp (mbind _ _) _ _ => apply wp_bind
  | |- wp (mret _) _ _ => apply wp_ret
  | |- wp (io_fail _) _ _ => apply wp_fail
  | |- wp io_panic _ _ => apply wp_fail
  | |- wp (io_lift _) _ _ => apply wp_lift
  | |- wp (io_try _) _ _ => apply wp_try
  | |- wp (io_wrap _ _) _ _ => apply wp_wrap
  | |- wp (io_ignore _) _ _ => apply wp_ignore
  | |- wp get_state _ (_, _) => apply wp_get_state
  | |- wp (put_state _) _ (_, _) => apply wp_put_state
  end; cbn [after].

(** Run an opaque operation: name its result and world. *)
Ltac wp_run r w' E :=
  lazymatch goal with
  | |- wp ?m _ ?w => destruct (m w) as [r w'] eqn:E; apply (wp_intro m _ w r w' E)
  end; cbn [after].

(** Use what is known of the goal's computation. *)
Ltac wp_with lem := eapply wp_mono; [apply lem|cbn beta].

(** *** What a computation keeps *)

(** Whatever the result, the world afterwards satisfies [P] if it did before. *)
Definition keeps {W A} (P : W -> Prop) (m : IO W A) : Prop := forall w, P w -> P (m w).2.

Section Keeps.
Context {W : Type} (P : W -> Prop).

Lemma keeps_ret {A} (a : A) : keeps P (mret a).
Proof. by intros w. Qed.
Lemma keeps_fail {A} e : keeps P (io_fail (A := A) e).
Proof. by intros w. Qed.
Lemma keeps_lift {A} (r : res A) : keeps P (io_lift r).
Proof. by intros w. Qed.
Lemma keeps_bind {A B} (m : IO W A) (k : A -> IO W B) : keeps P m -> (forall a, keeps P (k a)) -> keeps P (m ≫= k).
Proof.
  intros Hm Hk w Hw. specialize (Hm w Hw). unfold mbind, io_bind. destruct (m w) as [[a|e] w1]; [by apply Hk|done].
Qed.
Lemma keeps_try {A} (m : IO W A) : keeps P m -> keeps P (io_try m).
Proof. intros Hm w Hw. specialize (Hm w Hw). unfold io_try. by destruct (m w). Qed.
Lemma keeps_wrap {A} msg (m : IO W A) : keeps P m -> keeps P (io_wrap msg m).
Proof. intros Hm w Hw. specialize (Hm w Hw). unfold io_wrap. by destruct (m w) as [[]]. Qed.
Lemma keeps_ignore {A} (m : IO W A) : keeps P m -> keeps P (io_ignore m).
Proof. intros Hm w Hw. specialize (Hm w Hw). unfold io_ignore. by destruct (m w). Qed.
Lemma keeps_wp {A} (m : IO W A) : (forall w, P w -> wp m (fun _ => P) w) -> keeps P m.
Proof. done. Qed.
Lemma wp_keeps {A} (m : IO W A) w : keeps P m -> P w -> wp m (fun _ => P) w.
Proof. intros Hm Hw. by apply Hm. Qed.
End Keeps.

(** The operation gave this answer in a world that satisfies [P].  Where every
    operation of a run keeps [P], and the run started in it, such an answer is
    one that the run could get; with [P] saying what the run leaves alone, it is
    about the world at hand. *)
Definition answered {W A} (P : W -> Prop) (m : IO W A) (r : res A) : Prop := exists w w', P w /\ m w = (r, w').

Lemma answered_mono {W A} (P Q : W -> Prop) (m : IO W A) r : (forall w, P w -> Q w) -> answered P m r -> answered Q m r.
Proof. intros H (w & w' & Hw & E). exists w, w'. auto. Qed.

Lemma wp_asked {W A} (P : W -> Prop) (m : IO W A) (Q : res A -> W -> Prop) w :
  keeps P m -> P w -> (forall r w', P w' -> answered P m r -> Q r w') -> wp m Q w.
Proof.
  intros Hm Hw Hq. unfold wp. destruct (m w) as [r w'] eqn:E. apply Hq; [specialize (Hm w Hw); by rewrite E in Hm|by exists w, w'].
Qed.

(** A postcondition under a quantifier or a condition on what is already known. *)
Lemma wp_forall {W A B} (m : IO W A) (Q : B -> res A -> W -> Prop) w :
  (forall b, wp m (Q b) w) -> wp m (fun r w' => forall b, Q b r w') w.
Proof. unfold wp. destruct (m w) as [r w']. done. Qed.

Lemma wp_given {W A} (m : IO W A) (P : Prop) (Q : res A -> W -> Prop) w :
  (P -> wp m Q w) -> wp m (fun r w' => P -> Q r w') w.
Proof. unfold wp. destruct (m w) as [r w']. done. Qed.

(** The world's part of a component with state. *)
Section KeepsWorld.
Context {S W : Type} (P : W -> Prop).
Lemma keeps_on_world {A} (m : IO W A) : keeps P m -> keeps (fun sw : S * W => P sw.2) (on_world m).
Proof. intros Hm [s w] Hw. specialize (Hm w Hw). unfold on_world. cbn in *. by destruct (m w). Qed.
Lemma keeps_get_state : keeps (fun sw : S * W => P sw.2) get_state.
Proof. by intros [s w]. Qed.
Lemma keeps_put_state (s : S) : keeps (fun sw : S * W => P sw.2) (put_state s).
Proof. by intros [s0 w]. Qed.
End KeepsWorld.

(** Walk down to the calls of interfaces. *)
Ltac keeps_down :=
  repeat match goal with
  | |- forall _, _ => intro
  | |- keeps _ (mret _) => apply keeps_ret
  | |- keeps _ (io_fail _) => apply keeps_fail
  | |- keeps _ io_panic => apply keeps_fail
  | |- keeps _ (io_lift _) => apply keeps_lift
  | |- keeps _ (mbind _ _) => apply keeps_bind
  | |- keeps _ (io_try _) => apply keeps_try
  | |- keeps _ (io_wrap _ _) => apply keeps_wrap
  | |- keeps _ (io_ignore _) => apply keeps_ignore
  | |- keeps _ (on_world _) => apply (keeps_on_world _)
  | |- keeps _ get_state => apply (keeps_get_state _)
  | |- keeps _ (put_state _) => apply (keeps_put_state _)
  | |- keeps _ (let _ := _ in _) => cbv zeta
  | |- keeps _ (if ?b then _ else _) => destruct b
  | |- keeps _ (match ?x with _ => _ end) => destruct x
  | |- keeps _ _ => assumption
  end.

(** *** Inversion of completed runs *)

Lemma bind_inv {W A B} (m : IO W A) (k : A -> IO W B) w r w' :
  (m ≫= k) w = (r, w') ->
  (exists a w1, m w = (Ok a, w1) /\ k a w1 = (r, w')) \/
  (exists e, m w = (Fail e, w') /\ r = Fail e).
Proof.
  unfold mbind, io_bind. destruct (m w) as [[a|e] w1] eqn:E; intros H.
  - left. eauto.
  - right. injection H as <- <-. eauto.
Qed.

Lemma bind_ok {W A B} (m : IO W A) (k : A -> IO W B) w b w' :
  (m ≫= k) w = (Ok b, w') -> exists a w1, m w = (Ok a, w1) /\ k a w1 = (Ok b, w').
Proof. intros H. apply bind_inv in H as [H|(e & _ & He)]; [done|discriminate]. Qed.

(** Evaluate a bind whose first part is known to succeed. *)
Lemma bind_run {W A B} (m : IO W A) (k : A -> IO W B) w a w1 :
  m w = (Ok a, w1) -> (m ≫= k) w = k a w1.
Proof. unfold mbind, io_bind. by intros ->. Qed.

Lemma wrap_run {W A} msg (m : IO W A) w a w1 : m w = (Ok a, w1) -> io_wrap msg m w = (Ok a, w1).
Proof. unfold io_wrap. by intros ->. Qed.

Lemma try_run {W A} (m : IO W A) w r w1 : m w = (r, w1) -> io_try m w = (Ok r, w1).
Proof. unfold io_try. by intros ->. Qed.

Lemma wrap_ok {W A} msg (m : IO W A) w a w' : io_wrap msg m w = (Ok a, w') -> m w = (Ok a, w').
Proof. unfold io_wrap. destruct (m w) as [[b|e] w1]; congruence. Qed.

Lemma try_inv {W A} (m : IO W A) w r w' :
  io_try m w = (r, w') -> exists r0, m w = (r0, w') /\ r = Ok r0.
Proof. unfold io_try. destruct (m w) as [r0 w1]. intros [= <- <-]. eauto. Qed.

Lemma ret_inv {W A} (a : A) (w : W) r w' : mret (M := IO W) a w = (r, w') -> r = Ok a /\ w' = w.
Proof. by intros [= <- <-]. Qed.

Lemma fail_inv {W A} e (w : W) (r : res A) w' : io_fail e w = (r, w') -> r = Fail e /\ w' = w.
Proof. by intros [= <- <-]. Qed.

(** *** Lists *)

Lemma contains_string_spec l s : contains_string l s = true <-> s ∈ l.
Proof.
  unfold contains_string. rewrite existsb_exists. split.
  - intros (x & Hin & ->%String.eqb_eq). by apply list_elem_of_In.
  - intros Hin. exists s. split; [by apply list_elem_of_In | apply String.eqb_refl].
Qed.

Lemma str_empty_spec s : str_empty s = true <-> s = "".
Proof. apply String.eqb_eq. Qed.

Lemma prefix_app s t : String.prefix s (s +:+ t) = true.
Proof.
  induction s as [|c s IH]; [by destruct t|]. change (String c s +:+ t) with (String c (s +:+ t)). cbn.
  by destruct (ascii_dec c c).
Qed.

Lemma drop_string_app s t : drop_string (String.length s) (s +:+ t) = t.
Proof.
  unfold drop_string. induction s as [|c s IH].
  - cbn [String.length]. rewrite Nat.sub_0_r. change ("" +:+ t) with t. induction t as [|c t IHt]; [done|]. cbn. by rewrite IHt.
  - exact IH.
Qed.

(** *** Sorting by a string key

    [sort.Slice] and [sort.Strings] order by the bytewise key order.  The
    source only sorts where equal keys mean equal elements or where the order
    among equal keys does not matter, so one stable sort stands for both. *)
Definition key_le {A} (f : A -> string) : relation A := fun a b => String.le (f a) (f b).

#[global] Instance key_le_dec {A} (f : A -> string) : RelDecision (key_le f).
Proof. intros a b. unfold key_le. apply _. Defined.
#[global] Instance key_le_total {A} (f : A -> string) : Total (key_le f).
Proof. intros a b. unfold key_le. apply (total String.le). Qed.
#[global] Instance key_le_trans {A} (f : A -> string) : Transitive (key_le f).
Proof. intros a b c. unfold key_le. apply transitivity. Qed.

Definition sort_by {A} (f : A -> string) (l : list A) : list A := merge_sort (key_le f) l.

Lemma sort_by_perm {A} (f : A -> string) l : sort_by f l ≡ₚ l.
Proof. apply merge_sort_Permutation. Qed.

Lemma sort_by_sorted {A} (f : A -> string) l : StronglySorted (key_le f) (sort_by f l).
Proof. apply StronglySorted_merge_sort; apply _. Qed.
