(* ===== verification/Sha256.v ===== *)
(** * Hashing and text encodings of the Go standard library

    The source derives object names, probe orders and message authenticators
    from [crypto/sha256], [encoding/hex] and [encoding/base64].  They are
    given here as executable functions on byte strings, so that the names
    the program computes can be computed in the kernel. *)

From stdpp Require Import base strings list.
From Stdlib Require Import ZArith.
From S2P Require Import Prelude.

(** ** Bytes *)

Definition byte_of_ascii (c : Ascii.ascii) : Z := Z.of_N (Ascii.N_of_ascii c).
Definition ascii_of_byte (b : Z) : Ascii.ascii := Ascii.ascii_of_N (Z.to_N b).

(** [[]byte(s)] and [string(b)]. *)
Fixpoint bytes_of_string (s : string) : list Z :=
  match s with
  | EmptyString => []
  | String c s' => byte_of_ascii c :: bytes_of_string s'
  end.
Fixpoint string_of_bytes (l : list Z) : string :=
  match l with
  | [] => EmptyString
  | b :: l' => String (ascii_of_byte b) (string_of_bytes l')
  end.

(** Big-endian encoding on [n] bytes, [binary.BigEndian.PutUint64] for [n = 8]. *)
Fixpoint be_bytes (n : nat) (v : Z) : list Z :=
  match n with
  | O => []
  | S n' => Z.shiftr v (8 * Z.of_nat n') `mod` 256 :: be_bytes n' v
  end.
Definition be_value (l : list Z) : Z := fold_left (fun acc b => acc * 256 + b) l 0.

(** ** SHA-256 (FIPS 180-4) *)
Module Sha.

Definition word (x : Z) : Z := x `mod` 2 ^ 32.
Definition add (x y : Z) : Z := word (x + y).
Definition rotr (n x : Z) : Z := Z.lor (Z.shiftr x n) (word (Z.shiftl x (32 - n))).
Definition xor3 (x y z : Z) : Z := Z.lxor x (Z.lxor y z).

Definition big0 (x : Z) : Z := xor3 (rotr 2 x) (rotr 13 x) (rotr 22 x).
Definition big1 (x : Z) : Z := xor3 (rotr 6 x) (rotr 11 x) (rotr 25 x).
Definition small0 (x : Z) : Z := xor3 (rotr 7 x) (rotr 18 x) (Z.shiftr x 3).
Definition small1 (x : Z) : Z := xor3 (rotr 17 x) (rotr 19 x) (Z.shiftr x 10).
Definition choose (x y z : Z) : Z := Z.lxor (Z.land x y) (Z.land (2 ^ 32 - 1 - x) z).
Definition majority (x y z : Z) : Z := xor3 (Z.land x y) (Z.land x z) (Z.land y z).

(** The round constants are the fractional parts of cube roots of primes and
    the initial state those of square roots; both are computed. *)
Definition primes : list Z :=
  [2; 3; 5; 7; 11; 13; 17; 19; 23; 29; 31; 37; 41; 43; 47; 53; 59; 61; 67; 71; 73; 79; 83; 89;
   97; 101; 103; 107; 109; 113; 127; 131; 137; 139; 149; 151; 157; 163; 167; 173; 179; 181; 191;
   193; 197; 199; 211; 223; 227; 229; 233; 239; 241; 251; 257; 263; 269; 271; 277; 281; 283; 293;
   307; 311].
Fixpoint cube_root (bits : nat) (r n : Z) : Z :=
  match bits with
  | O => r
  | S b => let r' := r + 2 ^ Z.of_nat b in cube_root b (if r' ^ 3 <=? n then r' else r) n
  end.
Definition round_constants : list Z :=
  Eval vm_compute in map (fun p => word (cube_root 36 0 (p * 2 ^ 96))) primes.
Definition initial_state : list Z :=
  Eval vm_compute in map (fun p => word (Z.sqrt (p * 2 ^ 64))) (take 8 primes).

Definition pad (msg : list Z) : list Z :=
  let n := Z.of_nat (length msg) in
  msg ++ [128] ++ replicate (Z.to_nat ((55 - n) `mod` 64)) 0 ++ be_bytes 8 (8 * n).

(** The message schedule, most recent word first. *)
Fixpoint schedule (k : nat) (ws : list Z) : list Z :=
  match k with
  | O => ws
  | S k' =>
      match ws !! 1%nat, ws !! 6%nat, ws !! 14%nat, ws !! 15%nat with
      | Some w2, Some w7, Some w15, Some w16 =>
          schedule k' (add (add (small1 w2) w7) (add (small0 w15) w16) :: ws)
      | _, _, _, _ => ws
      end
  end.

Definition round (st : list Z) (kw : Z * Z) : list Z :=
  match st with
  | [a; b; c; d; e; f; g; h] =>
      let t1 := add (add (add h (big1 e)) (choose e f g)) (add kw.1 kw.2) in
      let t2 := add (big0 a) (majority a b c) in
      [add t1 t2; a; b; c; add d t1; e; f; g]
  | _ => st
  end.

Fixpoint words (l : list Z) : list Z :=
  match l with
  | a :: b :: c :: d :: l' => be_value [a; b; c; d] :: words l'
  | _ => []
  end.

Definition compress (st block : list Z) : list Z :=
  let ws := rev (schedule 48 (rev (words block))) in
  zip_with add st (fold_left round (zip round_constants ws) st).

Fixpoint blocks (fuel : nat) (l : list Z) (st : list Z) : list Z :=
  match fuel with
  | O => st
  | S n => match l with [] => st | _ => blocks n (drop 64 l) (compress st (take 64 l)) end
  end.

End Sha.

(** [sha256.Sum256]. *)
Definition Sum256 (msg : list Z) : list Z :=
  let p := Sha.pad msg in
  flat_map (be_bytes 4) (Sha.blocks (length p / 64)%nat p Sha.initial_state).

(** ** Hexadecimal and base64 *)

Definition hex_digit (n : Z) : Ascii.ascii :=
  ascii_of_byte (if n <? 10 then 48 + n else 87 + n).

(** [hex.EncodeToString], and [fmt.Sprintf] with the [%x] verb. *)
Fixpoint EncodeToString (l : list Z) : string :=
  match l with
  | [] => ""
  | b :: l' => String (hex_digit (b / 16)) (String (hex_digit (b `mod` 16)) (EncodeToString l'))
  end.

Example sha256_abc :
  EncodeToString (Sum256 (bytes_of_string "abc")) =
  "ba7816bf8f01cfea414140de5dae2223b00361a396177a9cb410ff61f20015ad".
Proof. vm_compute. reflexivity. Qed.

Example sha256_two_blocks :
  EncodeToString (Sum256 (bytes_of_string "abcdbcdecdefdefgefghfghighijhijkijkljklmklmnlmnomnopnopq")) =
  "248d6a61d20638b8e5c026930c3e6039a33ce45964ff2167f6ecedd419db06c1".
Proof. vm_compute. reflexivity. Qed.

(** ** Sizes and ranges *)

Definition is_byte (b : Z) : Prop := 0 <= b < 256.

Lemma be_bytes_length n v : length (be_bytes n v) = n.
Proof. induction n as [|n IH]; cbn; [done|by rewrite IH]. Qed.

Lemma be_bytes_range n v : Forall is_byte (be_bytes n v).
Proof.
  induction n as [|n IH]; cbn; constructor; [|done]. unfold is_byte. apply Z.mod_pos_bound. lia.
Qed.

(** The encoding determines the value up to its width. *)
Lemma be_bytes_mod n x y : be_bytes n x = be_bytes n y -> x `mod` 256 ^ Z.of_nat n = y `mod` 256 ^ Z.of_nat n.
Proof.
  induction n as [|n IH]; cbn [be_bytes]; [by rewrite !Z.mod_1_r|]. intros [= Hhead Htail].
  rewrite Nat2Z.inj_succ, Z.pow_succ_r, Z.mul_comm by lia.
  rewrite !Z.shiftr_div_pow2 in Hhead by lia.
  replace (2 ^ (8 * Z.of_nat n)) with (256 ^ Z.of_nat n) in Hhead.
  2: { rewrite Z.pow_mul_r by lia. done. }
  assert (0 < 256 ^ Z.of_nat n) by (apply Z.pow_pos_nonneg; lia).
  rewrite !Z.rem_mul_r by lia. by rewrite (IH Htail), Hhead.
Qed.

Lemma be_bytes_inj n x y :
  0 <= x < 256 ^ Z.of_nat n -> 0 <= y < 256 ^ Z.of_nat n -> be_bytes n x = be_bytes n y -> x = y.
Proof. intros Hx Hy Heq%be_bytes_mod. by rewrite !Z.mod_small in Heq by done. Qed.

Lemma bytes_of_string_length s : length (bytes_of_string s) = String.length s.
Proof. induction s as [|c s IH]; cbn; [done|by rewrite IH]. Qed.

Lemma byte_of_ascii_inj c c' : byte_of_ascii c = byte_of_ascii c' -> c = c'.
Proof.
  unfold byte_of_ascii. intros Heq%N2Z.inj.
  by rewrite <- (Ascii.ascii_N_embedding c), Heq, Ascii.ascii_N_embedding.
Qed.

Lemma byte_of_ascii_of_byte b : is_byte b -> byte_of_ascii (ascii_of_byte b) = b.
Proof.
  intros Hb. unfold byte_of_ascii, ascii_of_byte. rewrite Ascii.N_ascii_embedding.
  - unfold is_byte in Hb. lia.
  - unfold is_byte in Hb. lia.
Qed.

Lemma bytes_of_string_inj s s' : bytes_of_string s = bytes_of_string s' -> s = s'.
Proof.
  revert s'. induction s as [|c s IH]; intros [|c' s']; cbn; try done.
  intros [= Hc Hs]. by rewrite (byte_of_ascii_inj _ _ Hc), (IH _ Hs).
Qed.

Lemma sha_round_length st kw : length (Sha.round st kw) = length st.
Proof. unfold Sha.round. by destruct st as [|? [|? [|? [|? [|? [|? [|? [|? [|]]]]]]]]]. Qed.

Lemma sha_rounds_length l st : length (fold_left Sha.round l st) = length st.
Proof. revert st. induction l as [|kw l IH]; intros st; cbn; [done|]. by rewrite IH, sha_round_length. Qed.

Lemma sha_blocks_length n l st : length (Sha.blocks n l st) = length st.
Proof.
  revert l st. induction n as [|n IH]; intros l st; cbn; [done|]. destruct l as [|b l]; [done|].
  rewrite IH. unfold Sha.compress. rewrite length_zip_with, sha_rounds_length. lia.
Qed.

Lemma flat_map_be_bytes k l :
  length (flat_map (be_bytes k) l) = (length l * k)%nat /\ Forall is_byte (flat_map (be_bytes k) l).
Proof.
  induction l as [|x l [IH1 IH2]]; cbn; [by repeat constructor|].
  rewrite length_app, be_bytes_length, IH1. split; [done|]. apply Forall_app. split; [apply be_bytes_range|done].
Qed.

Lemma Sum256_length msg : length (Sum256 msg) = 32%nat.
Proof.
  unfold Sum256. destruct (flat_map_be_bytes 4 (Sha.blocks (length (Sha.pad msg) / 64) (Sha.pad msg) Sha.initial_state))
    as [-> _]. by rewrite sha_blocks_length.
Qed.

Lemma Sum256_bytes msg : Forall is_byte (Sum256 msg).
Proof. unfold Sum256. apply flat_map_be_bytes. Qed.
