(* ===== verification/Netip.v ===== *)
(** * IP addresses and prefixes

    The part of Go's [net/netip] and [strconv] that the source uses: address
    and prefix values, successor, masking, containment, and their textual
    forms.  A 32-bit address is kept as a [Z] in [0, 2^32) and a 128-bit one
    as a [Z] in [0, 2^128); an IPv6 address with a nonempty zone is a form of
    its own. *)

From stdpp Require Import base strings list pretty.
From Stdlib Require Import ZArith Ascii.
From S2P Require Import Prelude.

(** ** Text *)

(** [strings.Split(s, sep)] for a one-byte separator. *)
Fixpoint split_on (sep : Ascii.ascii) (s : string) : list string :=
  match s with
  | EmptyString => [""%string]
  | String c s' =>
      let rest := split_on sep s' in
      if Ascii.eqb c sep then ""%string :: rest
      else match rest with
           | [] => [String c ""]
           | h :: t => String c h :: t
           end
  end.

Definition is_digit (c : Ascii.ascii) : bool :=
  let n := Ascii.N_of_ascii c in (48 <=? n)%N && (n <=? 57)%N.
Definition digit_value (c : Ascii.ascii) : Z := Z.of_N (Ascii.N_of_ascii c) - 48.

(** A nonempty run of decimal digits. *)
Fixpoint decimal_acc (acc : Z) (s : string) : option Z :=
  match s with
  | EmptyString => Some acc
  | String c s' => if is_digit c then decimal_acc (acc * 10 + digit_value c) s' else None
  end.
Definition parse_decimal (s : string) : option Z :=
  match s with EmptyString => None | _ => decimal_acc 0 s end.

(** [strconv.ParseInt(s, 10, bits)]: an optional sign and digits, in range. *)
Definition ParseInt (bits : Z) (s : string) : option Z :=
  let digits c s' := if Ascii.eqb c "+"%char || Ascii.eqb c "-"%char then s' else String c s' in
  match s with
  | EmptyString => None
  | String c s' =>
      match parse_decimal (digits c s') with
      | None => None
      | Some n =>
          let v := if Ascii.eqb c "-"%char then - n else n in
          if (- 2 ^ (bits - 1) <=? v) && (v <? 2 ^ (bits - 1)) then Some v else None
      end
  end.
Definition ParseInt32 : string -> option Z := ParseInt 32.

(** [strconv.Itoa] on a non-negative number. *)
Definition itoa (n : Z) : string := pretty (Z.to_N n).

(** [%d] and [strconv.FormatInt] of an int64. *)
Definition format_int (n : Z) : string := if n <? 0 then "-" +:+ itoa (- n) else itoa n.

(** ** Addresses *)

Inductive Addr :=
| AddrZero
| Addr4 (v : Z)
| Addr6 (v : Z)
| Addr6Zone (v : Z) (zone : string).

#[global] Instance Addr_eq_dec : EqDecision Addr.
Proof. solve_decision. Defined.
#[global] Instance Addr_countable : Countable Addr.
Proof.
  refine (inj_countable'
    (fun a => match a with
              | AddrZero => (0, 0, ""%string) | Addr4 v => (1, v, ""%string) | Addr6 v => (2, v, ""%string)
              | Addr6Zone v z => (3, v, z)
              end)
    (fun p => match p with
              | (1, v, _) => Addr4 v | (2, v, _) => Addr6 v | (3, v, z) => Addr6Zone v z | _ => AddrZero
              end) _).
  by intros [].
Defined.

Definition Addr_IsValid (a : Addr) : bool := match a with AddrZero => false | _ => true end.
Definition Addr_Is4 (a : Addr) : bool := match a with Addr4 _ => true | _ => false end.
Definition Addr_Is6 (a : Addr) : bool := match a with Addr6 _ | Addr6Zone _ _ => true | _ => false end.
Definition Addr_BitLen (a : Addr) : Z :=
  match a with AddrZero => 0 | Addr4 _ => 32 | Addr6 _ | Addr6Zone _ _ => 128 end.
Definition Addr_value (a : Addr) : Z :=
  match a with AddrZero => 0 | Addr4 v | Addr6 v | Addr6Zone v _ => v end.
Definition withoutZone (a : Addr) : Addr := match a with Addr6Zone v _ => Addr6 v | _ => a end.

(** [ip.Next()]: the zero [Addr] after the last address of the family. *)
Definition Addr_Next (a : Addr) : Addr :=
  match a with
  | AddrZero => AddrZero
  | Addr4 v => if v + 1 =? 2 ^ 32 then AddrZero else Addr4 (v + 1)
  | Addr6 v => if v + 1 =? 2 ^ 128 then AddrZero else Addr6 (v + 1)
  | Addr6Zone v z => if v + 1 =? 2 ^ 128 then AddrZero else Addr6Zone (v + 1) z
  end.

(** [ip.Unmap()] removes the IPv4-in-IPv6 prefix, and then the zone. *)
Definition Addr_Unmap (a : Addr) : Addr :=
  match a with
  | Addr6 v | Addr6Zone v _ => if Z.shiftr v 32 =? 2 ^ 16 - 1 then Addr4 (v `mod` 2 ^ 32) else a
  | _ => a
  end.

(** Octet [i] of an IPv4 value, most significant first. *)
Definition octet (v : Z) (i : Z) : Z := Z.shiftr v (8 * (3 - i)) `mod` 256.

(** Loopback, multicast and link-local unicast; the IPv4-in-IPv6 form is
    classified as the IPv4 address it holds. *)
Definition special4 (v : Z) : bool :=
  (octet v 0 =? 127) || (Z.land (octet v 0) 240 =? 224) || ((octet v 0 =? 169) && (octet v 1 =? 254)).
Definition special6 (v : Z) : bool :=
  if Z.shiftr v 32 =? 2 ^ 16 - 1 then special4 (v `mod` 2 ^ 32)
  else (v =? 1) || (Z.shiftr v 120 =? 255) || (Z.land (Z.shiftr v 112) 65472 =? 65152).

(** [ip.IsGlobalUnicast()]: private addresses are global unicast for this
    predicate. *)
Definition Addr_IsGlobalUnicast (a : Addr) : bool :=
  match a with
  | AddrZero => false
  | Addr4 v => negb (v =? 0) && negb (v =? 2 ^ 32 - 1) && negb (special4 v)
  | Addr6 v => negb (v =? 0) && negb (special6 v)
  | Addr6Zone v _ => negb (special6 v)
  end.

(** [ip.IsLoopback()] and [ip.IsUnspecified()]. *)
Definition Addr_IsLoopback (a : Addr) : bool :=
  match a with
  | AddrZero => false
  | Addr4 v => octet v 0 =? 127
  | Addr6 v | Addr6Zone v _ => if Z.shiftr v 32 =? 2 ^ 16 - 1 then octet (v `mod` 2 ^ 32) 0 =? 127 else v =? 1
  end.
Definition Addr_IsUnspecified (a : Addr) : bool :=
  match a with Addr4 v | Addr6 v => v =? 0 | _ => false end.

(** ** Prefixes *)

Record Prefix := mkPrefix { Prefix_Addr : Addr; Prefix_Bits : Z }.

#[global] Instance Prefix_eq_dec : EqDecision Prefix.
Proof. solve_decision. Defined.

(** [netip.Prefix{}] has [Bits() == -1]. *)
Definition Prefix_zero : Prefix := mkPrefix AddrZero (-1).

(** [netip.PrefixFrom]: an out-of-range length gives an invalid prefix, and a
    zone is dropped. *)
Definition PrefixFrom (a : Addr) (bits : Z) : Prefix :=
  if (Addr_IsValid a && (0 <=? bits) && (bits <=? Addr_BitLen a))%bool
  then mkPrefix (withoutZone a) bits else mkPrefix (withoutZone a) (-1).

Definition Prefix_IsValid (p : Prefix) : bool := 0 <=? Prefix_Bits p.

Definition host_bits (p : Prefix) : Z := Addr_BitLen (Prefix_Addr p) - Prefix_Bits p.

(** Clear the host bits. *)
Definition mask_value (hbits v : Z) : Z := Z.shiftl (Z.shiftr v hbits) hbits.

(** [p.Masked()]. *)
Definition Prefix_Masked (p : Prefix) : Prefix :=
  if Prefix_IsValid p then
    match Prefix_Addr p with
    | Addr4 v => mkPrefix (Addr4 (mask_value (host_bits p) v)) (Prefix_Bits p)
    | Addr6 v | Addr6Zone v _ => mkPrefix (Addr6 (mask_value (host_bits p) v)) (Prefix_Bits p)
    | AddrZero => Prefix_zero
    end
  else Prefix_zero.

(** [p.Contains(ip)]: same family and no difference above the host bits. *)
Definition Prefix_Contains (p : Prefix) (a : Addr) : bool :=
  Prefix_IsValid p &&
  match Prefix_Addr p, a with
  | Addr4 v, Addr4 u | Addr6 v, Addr6 u => Z.shiftr (Z.lxor u v) (host_bits p) =? 0
  | _, _ => false
  end.

(** ** Textual forms *)

Definition parse_octet (s : string) : option Z :=
  match s with
  | String c (String _ _) =>
      if Ascii.eqb c "0"%char then None
      else match parse_decimal s with
           | Some n => if n <=? 255 then Some n else None
           | None => None
           end
  | _ => match parse_decimal s with
         | Some n => if n <=? 255 then Some n else None
         | None => None
         end
  end.

Definition ipv4_value (a b c d : Z) : Z := a * 2 ^ 24 + b * 2 ^ 16 + c * 2 ^ 8 + d.

(** The dotted form. *)
Definition parseIPv4 (s : string) : option Z :=
  match split_on "."%char s with
  | [fa; fb; fc; fd] =>
      a ← parse_octet fa; b ← parse_octet fb; c ← parse_octet fc; d ← parse_octet fd;
      Some (ipv4_value a b c d)
  | _ => None
  end.

Definition hex_value (c : Ascii.ascii) : option Z :=
  let n := Z.of_N (Ascii.N_of_ascii c) in
  if (48 <=? n) && (n <=? 57) then Some (n - 48)
  else if (97 <=? n) && (n <=? 102) then Some (n - 87)
  else if (65 <=? n) && (n <=? 70) then Some (n - 55)
  else None.

(** The hexadecimal digits at the head of the text, their number and value. *)
Fixpoint hex_run (off : nat) (acc : Z) (s : string) : nat * Z * string :=
  match s with
  | String c s' => match hex_value c with
                   | Some d => hex_run (S off) (acc * 16 + d) s'
                   | None => (off, acc, s)
                   end
  | EmptyString => (off, acc, s)
  end.

(** The groups of an IPv6 text.  [groups] are the 16-bit groups so far,
    [ellipsis] the number of groups before the [::].  Every round consumes at
    least one character, and there are at most eight. *)
Fixpoint ipv6_groups (fuel : nat) (groups : list Z) (ellipsis : option nat) (s : string) :
    option (list Z * option nat) :=
  match fuel with
  | O => match s with EmptyString => Some (groups, ellipsis) | _ => None end
  | S fuel' =>
      let '(off, acc, rest) := hex_run 0 0 s in
      if (off =? 0)%nat || (4 <? off)%nat then None
      else match rest with
           | EmptyString => Some (groups ++ [acc], ellipsis)
           | String c rest' =>
               if Ascii.eqb c "."%char then
                 if bool_decide (ellipsis = None) && negb (length groups =? 6)%nat then None
                 else if (6 <? length groups)%nat then None
                 else v ← parseIPv4 s; Some (groups ++ [Z.shiftr v 16; v `mod` 2 ^ 16], ellipsis)
               else if negb (Ascii.eqb c ":"%char) then None
               else match rest' with
                    | EmptyString => None
                    | String c' rest'' =>
                        if Ascii.eqb c' ":"%char then
                          match ellipsis with
                          | Some _ => None
                          | None =>
                              match rest'' with
                              | EmptyString => Some (groups ++ [acc], Some (S (length groups)))
                              | _ => ipv6_groups fuel' (groups ++ [acc]) (Some (S (length groups))) rest''
                              end
                          end
                        else ipv6_groups fuel' (groups ++ [acc]) ellipsis rest'
                    end
           end
  end.

Definition groups_value (groups : list Z) : Z := fold_left (fun acc g => acc * 2 ^ 16 + g) groups 0.

(** An IPv6 text without its zone. *)
Definition parseIPv6 (s : string) : option Z :=
  r ← (if String.eqb s "::" then Some ([], Some O)
       else if String.prefix "::" s then ipv6_groups 8 [] (Some O) (drop_string 2 s)
       else ipv6_groups 8 [] None s);
  let '(groups, ellipsis) := r in
  match ellipsis with
  | None => if (length groups =? 8)%nat then Some (groups_value groups) else None
  | Some k => if (length groups <? 8)%nat
              then Some (groups_value (take k groups ++ replicate (8 - length groups) 0 ++ drop k groups))
              else None
  end.

(** The first of the characters that decide the form. *)
Fixpoint first_mark (s : string) : option Ascii.ascii :=
  match s with
  | EmptyString => None
  | String c s' =>
      if Ascii.eqb c "."%char || Ascii.eqb c ":"%char || Ascii.eqb c "%"%char then Some c else first_mark s'
  end.

(** [netip.ParseAddr].  The zone is what follows the first percent sign. *)
Definition ParseAddr (s : string) : option Addr :=
  mark ← first_mark s;
  if Ascii.eqb mark "."%char then Addr4 <$> parseIPv4 s
  else if Ascii.eqb mark ":"%char then
    match split_on "%"%char s with
    | [fa] => Addr6 <$> parseIPv6 fa
    | fa :: zone => let z := String.concat "%" zone in
                    if str_empty z then None else (fun v => Addr6Zone v z) <$> parseIPv6 fa
    | [] => None
    end
  else None.

(** The length of a prefix: no sign, no leading zero. *)
Definition parse_bits (s : string) : option Z :=
  match s with
  | String c (String _ _) =>
      if Ascii.eqb c "0"%char then None else parse_decimal s
  | _ => parse_decimal s
  end.

(** [netip.ParsePrefix].  An address without a zone cannot hold a slash and a
    zone is refused, so splitting at every slash and splitting at the last one
    accept the same texts. *)
Definition ParsePrefix (s : string) : option Prefix :=
  match split_on "/"%char s with
  | [fa; fb] =>
      a ← ParseAddr fa; bits ← parse_bits fb;
      match a with
      | Addr6Zone _ _ => None
      | _ => if bits <=? Addr_BitLen a then Some (mkPrefix a bits) else None
      end
  | _ => None
  end.

Definition string4 (v : Z) : string :=
  itoa (octet v 0) +:+ "." +:+ itoa (octet v 1) +:+ "." +:+
  itoa (octet v 2) +:+ "." +:+ itoa (octet v 3).

Definition hex_char (n : Z) : Ascii.ascii := Ascii.ascii_of_N (Z.to_N (if n <? 10 then 48 + n else 87 + n)).

(** A 16-bit group in hexadecimal without leading zeros. *)
Definition hex_group (g : Z) : string :=
  let d i := String (hex_char (Z.shiftr g (4 * i) `mod` 16)) "" in
  (if 4096 <=? g then d 3 else "") +:+ (if 256 <=? g then d 2 else "") +:+
  (if 16 <=? g then d 1 else "") +:+ d 0.

Definition v6groups (v : Z) : list Z :=
  map (fun i => Z.shiftr v (16 * (7 - i)) `mod` 2 ^ 16) [0; 1; 2; 3; 4; 5; 6; 7].

Fixpoint zero_run (groups : list Z) : nat :=
  match groups with
  | g :: rest => if g =? 0 then S (zero_run rest) else O
  | [] => O
  end.

(** Start and length of the first longest run of at least two zero groups. *)
Definition longest_zeros (groups : list Z) : option (nat * nat) :=
  fold_left (fun best i =>
    let l := zero_run (drop i groups) in
    if (2 <=? l)%nat && (match best with Some (_, l') => l' <? l | None => true end)%nat
    then Some (i, l) else best) (seq 0 8) None.

Definition string6 (v : Z) : string :=
  let groups := v6groups v in
  let text l := String.concat ":" (map hex_group l) in
  match longest_zeros groups with
  | Some (i, l) => text (take i groups) +:+ "::" +:+ text (drop (i + l) groups)
  | None => text groups
  end.

Definition string16 (v : Z) : string :=
  if Z.shiftr v 32 =? 2 ^ 16 - 1 then "::ffff:" +:+ string4 (v `mod` 2 ^ 32) else string6 v.

(** [ip.String()] and [p.String()]; the invalid forms keep Go's texts. *)
Definition Addr_String (a : Addr) : string :=
  match a with
  | AddrZero => "invalid IP"
  | Addr4 v => string4 v
  | Addr6 v => string16 v
  | Addr6Zone v z => string16 v +:+ "%" +:+ z
  end.
Definition Prefix_String (p : Prefix) : string :=
  if Prefix_IsValid p then Addr_String (Prefix_Addr p) +:+ "/" +:+ itoa (Prefix_Bits p)
  else "invalid Prefix".

(** ** An address and a port *)

Record AddrPort := mkAddrPort { AddrPort_Addr : Addr; AddrPort_Port : Z }.

#[global] Instance AddrPort_eq_dec : EqDecision AddrPort.
Proof. solve_decision. Defined.

Definition AddrPort_IsValid (ap : AddrPort) : bool := Addr_IsValid (AddrPort_Addr ap).

(** The text before and after the last separator. *)
Definition split_last (sep : Ascii.ascii) (s : string) : option (string * string) :=
  match rev (split_on sep s) with
  | last :: prev :: front => Some (String.concat (String sep "") (rev (prev :: front)), last)
  | _ => None
  end.

(** [netip.ParseAddrPort]: IPv6 addresses and only they are in brackets; the
    port is a 16-bit decimal. *)
Definition ParseAddrPort (s : string) : option AddrPort :=
  fields ← split_last ":"%char s;
  let '(fa, fp) := fields in
  let n := String.length fa in
  let bracketed := String.prefix "[" fa in
  if bracketed && ((n <? 2)%nat || negb (String.eqb (drop_string (n - 1) fa) "]")) then None
  else
    p ← parse_decimal fp;
    if 65535 <? p then None
    else
      a ← ParseAddr (if bracketed then String.substring 1 (n - 2) fa else fa);
      if Bool.eqb bracketed (Addr_Is6 a) then Some (mkAddrPort a p) else None.

Definition AddrPort_String (ap : AddrPort) : string :=
  match AddrPort_Addr ap with
  | AddrZero => "invalid AddrPort"
  | Addr4 v => string4 v +:+ ":" +:+ itoa (AddrPort_Port ap)
  | a => "[" +:+ Addr_String a +:+ "]:" +:+ itoa (AddrPort_Port ap)
  end.

Example parse_print6 :
  map (fun s => Addr_String <$> ParseAddr s)
    ["::"; "::1"; "2001:DB8:0:0:1:0:0:1"; "fe80::1%eth0"; "::ffff:10.1.2.3"; "1:2:3:4:5:6:7::"; "64:ff9b::1.2.3.4";
     "1::2::3"; "1:2:3:4:5:6:7:8:9"; ":1"; "1:"; "12345::"; "fe80::1%"]%string =
  [Some "::"; Some "::1"; Some "2001:db8::1:0:0:1"; Some "fe80::1%eth0"; Some "::ffff:10.1.2.3"; Some "1:2:3:4:5:6:7:0";
   Some "64:ff9b::102:304"; None; None; None; None; None; None]%string.
Proof. vm_compute. reflexivity. Qed.
Example parse_addrport_ex :
  map (fun s => AddrPort_String <$> ParseAddrPort s)
    ["10.0.0.1:4789"; "[2001:db8::1]:80"; "2001:db8::1:80"; "[10.0.0.1]:80"; "10.0.0.1:65536"; "10.0.0.1:"]%string =
  [Some "10.0.0.1:4789"; Some "[2001:db8::1]:80"; None; None; None; None]%string.
Proof. vm_compute. reflexivity. Qed.
Example parse_prefix_ex : ParsePrefix "10.80.0.0/16" = Some (mkPrefix (Addr4 (10 * 2 ^ 24 + 80 * 2 ^ 16)) 16).
Proof. vm_compute. reflexivity. Qed.
Example print_prefix_ex : Prefix_String (mkPrefix (Addr4 (10 * 2 ^ 24 + 80 * 2 ^ 16 + 255)) 16) = "10.80.0.255/16".
Proof. vm_compute. reflexivity. Qed.
Example parse_leading_zero : ParseAddr "10.080.0.1" = None.
Proof. vm_compute. reflexivity. Qed.

(** ** Containment and masking as arithmetic *)

Lemma mask_value_spec h v : 0 <= h -> mask_value h v = v / 2 ^ h * 2 ^ h.
Proof. intros. unfold mask_value. by rewrite Z.shiftl_mul_pow2, Z.shiftr_div_pow2. Qed.

Lemma contains4_iff v bits u :
  0 <= bits <= 32 ->
  Prefix_Contains (mkPrefix (Addr4 v) bits) (Addr4 u) = true <->
  u / 2 ^ (32 - bits) = v / 2 ^ (32 - bits).
Proof.
  intros Hb. unfold Prefix_Contains, Prefix_IsValid, host_bits; cbn.
  rewrite (proj2 (Z.leb_le 0 bits)) by lia; cbn.
  rewrite Z.eqb_eq, Z.shiftr_lxor, Z.lxor_eq_0_iff, !Z.shiftr_div_pow2 by lia. done.
Qed.

(** A masked prefix contains exactly the block that starts at its address. *)
Lemma contains4_block v bits u :
  0 <= bits <= 32 ->
  Prefix_Contains (mkPrefix (Addr4 (mask_value (32 - bits) v)) bits) (Addr4 u) = true <->
  mask_value (32 - bits) v <= u < mask_value (32 - bits) v + 2 ^ (32 - bits).
Proof.
  intros Hb. rewrite contains4_iff by lia. rewrite mask_value_spec by lia.
  assert (0 < 2 ^ (32 - bits)) by (apply Z.pow_pos_nonneg; lia).
  rewrite Z.div_mul by lia. split.
  - intros <-. pose proof (Z.div_mod u (2 ^ (32 - bits)) ltac:(lia)).
    pose proof (Z.mod_pos_bound u (2 ^ (32 - bits)) ltac:(lia)). lia.
  - intros Hu. symmetry. apply (Z.div_unique _ _ _ (u - v / 2 ^ (32 - bits) * 2 ^ (32 - bits))); lia.
Qed.

Lemma contains4_family v bits a :
  Prefix_Contains (mkPrefix (Addr4 v) bits) a = true -> exists u, a = Addr4 u.
Proof.
  unfold Prefix_Contains; cbn. rewrite andb_true_iff. intros [_ H].
  destruct a; try discriminate; eauto.
Qed.

Lemma mask_value_le h v : 0 <= h -> mask_value h v <= v.
Proof.
  intros. rewrite mask_value_spec by done.
  assert (0 < 2 ^ h) by (apply Z.pow_pos_nonneg; lia).
  pose proof (Z.mul_div_le v (2 ^ h)). lia.
Qed.

(** The block of a prefix stays inside the 32-bit space. *)
Lemma mask_block_bound bits v :
  0 <= bits <= 32 -> 0 <= v < 2 ^ 32 ->
  0 <= mask_value (32 - bits) v /\ mask_value (32 - bits) v + 2 ^ (32 - bits) <= 2 ^ 32.
Proof.
  intros Hb Hv. rewrite mask_value_spec by lia.
  assert (0 < 2 ^ (32 - bits)) by (apply Z.pow_pos_nonneg; lia).
  assert (Hs : 2 ^ 32 = 2 ^ bits * 2 ^ (32 - bits)) by (rewrite <- Z.pow_add_r by lia; f_equal; lia).
  split; [apply Z.mul_nonneg_nonneg; [apply Z.div_pos|]; lia|].
  assert (v / 2 ^ (32 - bits) < 2 ^ bits) by (apply Z.div_lt_upper_bound; lia).
  rewrite Hs. nia.
Qed.

(** ** Text round trips *)

#[local] Arguments Ascii.eqb : simpl never.

Fixpoint no_sep (sep : Ascii.ascii) (s : string) : bool :=
  match s with
  | EmptyString => true
  | String c s' => negb (Ascii.eqb c sep) && no_sep sep s'
  end.

Lemma split_on_single sep s : no_sep sep s = true -> split_on sep s = [s].
Proof.
  induction s as [|c s IH]; cbn; [done|].
  rewrite andb_true_iff, negb_true_iff. intros [-> H]. by rewrite IH.
Qed.

Lemma split_on_app sep s t :
  no_sep sep s = true -> split_on sep (s +:+ String sep t) = s :: split_on sep t.
Proof.
  induction s as [|c s IH].
  - intros _. change (split_on sep (String sep t) = ""%string :: split_on sep t).
    unfold split_on at 1; fold split_on. by rewrite Ascii.eqb_refl.
  - change (String c s +:+ String sep t) with (String c (s +:+ String sep t)).
    cbn. rewrite andb_true_iff, negb_true_iff. intros [-> H]. by rewrite IH.
Qed.

Lemma sep_app c s : String c "" +:+ s = String c s.
Proof. done. Qed.

Lemma no_sep_app sep s t : no_sep sep (s +:+ t) = no_sep sep s && no_sep sep t.
Proof.
  induction s as [|c s IH]; [done|].
  change (String c s +:+ t) with (String c (s +:+ t)). cbn. by rewrite IH, andb_assoc.
Qed.

(** Facts about the decimal form of small numbers, by enumeration. *)
(** Printing a number: digits only, and different numbers differ. *)
Lemma no_sep_pretty sep n s :
  is_digit sep = false -> no_sep sep s = true -> no_sep sep (pretty.pretty_N_go n s) = true.
Proof.
  intros Hsep. revert s. induction (N.lt_wf_0 n) as [n _ IH]. intros s Hs.
  destruct (decide (0 < n)%N) as [Hn|Hn]; [|by replace n with 0%N by lia; rewrite pretty.pretty_N_go_0].
  rewrite pretty.pretty_N_go_step by done. apply IH; [by apply N.div_lt|]. cbn. rewrite Hs, andb_true_r.
  apply negb_true_iff. apply Ascii.eqb_neq. intros <-. revert Hsep. unfold pretty.pretty_N_char.
  repeat case_match; done.
Qed.

Lemma no_sep_itoa sep n : is_digit sep = false -> no_sep sep (itoa n) = true.
Proof.
  intros Hsep. unfold itoa, pretty, pretty.pretty_N. case_decide; [|by apply no_sep_pretty].
  cbn. rewrite andb_true_r. apply negb_true_iff, Ascii.eqb_neq. intros <-. done.
Qed.

Lemma itoa_inj m n : 0 <= m -> 0 <= n -> itoa m = itoa n -> m = n.
Proof. unfold itoa. intros Hm Hn E%(inj pretty). lia. Qed.

(** Printing and reading a number. *)
Lemma decimal_digit d : (d < 10)%N -> is_digit (pretty.pretty_N_char d) = true /\ digit_value (pretty.pretty_N_char d) = Z.of_N d.
Proof.
  intros Hd. assert (d ∈ ([0; 1; 2; 3; 4; 5; 6; 7; 8; 9]%N : list N)) as Hin.
  { rewrite !elem_of_cons. lia. }
  rewrite !elem_of_cons in Hin. destruct Hin as [->|[->|[->|[->|[->|[->|[->|[->|[->|[->|Hin]]]]]]]]]]; try done.
  by apply elem_of_nil in Hin.
Qed.

Lemma decimal_pretty n s : decimal_acc 0 (pretty.pretty_N_go n s) = decimal_acc (Z.of_N n) s.
Proof.
  revert s. induction (N.lt_wf_0 n) as [n _ IH]. intros s.
  destruct (decide (0 < n)%N) as [Hn|Hn]; [|by replace n with 0%N by lia; rewrite pretty.pretty_N_go_0].
  rewrite pretty.pretty_N_go_step by done. rewrite IH by (by apply N.div_lt). cbn [decimal_acc].
  destruct (decimal_digit (n `mod` 10)%N) as [-> ->]; [by apply N.mod_lt|]. f_equal.
  pose proof (N.div_mod n 10 ltac:(done)) as Hdm. lia.
Qed.

Lemma parse_itoa n : 0 <= n -> parse_decimal (itoa n) = Some n.
Proof.
  intros Hn. assert (decimal_acc 0 (itoa n) = Some n) as Hd.
  { unfold itoa, pretty, pretty.pretty_N. case_decide as Hz; [replace n with 0 by lia; done|].
    rewrite decimal_pretty. cbn. f_equal. lia. }
  unfold parse_decimal. destruct (itoa n) eqn:E; [|done]. exfalso. revert E. unfold itoa, pretty, pretty.pretty_N.
  case_decide; [done|]. intros E. pose proof (decimal_pretty (Z.to_N n) "") as Hp. rewrite E in Hp. cbn in Hp.
  injection Hp. lia.
Qed.

Lemma parse_sign c s n : parse_decimal (String c s) = Some n -> is_digit c = true.
Proof. unfold parse_decimal. cbn [decimal_acc]. by destruct (is_digit c). Qed.

(** What is printed is read back, within the width. *)
Lemma ParseInt_format bits n :
  - 2 ^ (bits - 1) <= n < 2 ^ (bits - 1) -> ParseInt bits (format_int n) = Some n.
Proof.
  intros Hn. assert ((- 2 ^ (bits - 1) <=? n) && (n <? 2 ^ (bits - 1)) = true) as Hin by lia.
  unfold format_int. destruct (n <? 0) eqn:Es.
  - change ("-" +:+ itoa (- n)) with (String "-" (itoa (- n))). unfold ParseInt.
    change (Ascii.eqb "-" "+" || Ascii.eqb "-" "-")%char with true. change (Ascii.eqb "-" "-")%char with true. cbn match.
    by rewrite parse_itoa, Z.opp_involutive, Hin by lia.
  - pose proof (parse_itoa n ltac:(lia)) as Hp. unfold ParseInt. destruct (itoa n) as [|c s]; [done|].
    pose proof (parse_sign _ _ _ Hp) as Hd.
    assert (Ascii.eqb c "+"%char = false /\ Ascii.eqb c "-"%char = false) as [Ep Em].
    { split; apply Ascii.eqb_neq; intros ->; discriminate Hd. }
    rewrite Ep, Em. cbn [orb]. by rewrite Hp, Hin.
Qed.

Definition small_number_ok (n : nat) : bool :=
  let z := Z.of_nat n in
  bool_decide (parse_octet (itoa z) = Some z) && no_sep "."%char (itoa z) &&
  no_sep "/"%char (itoa z) && no_sep ":"%char (itoa z) && no_sep "%"%char (itoa z) &&
  bool_decide (parse_bits (itoa z) = Some z).

Lemma small_numbers_ok : forallb small_number_ok (seq 0 256) = true.
Proof. vm_compute. reflexivity. Qed.

Lemma small_number_spec n :
  0 <= n <= 255 ->
  parse_octet (itoa n) = Some n /\ no_sep "."%char (itoa n) = true /\
  no_sep "/"%char (itoa n) = true /\ no_sep ":"%char (itoa n) = true /\ no_sep "%"%char (itoa n) = true /\
  parse_bits (itoa n) = Some n.
Proof.
  intros Hn. pose proof small_numbers_ok as H. rewrite forallb_forall in H.
  specialize (H (Z.to_nat n)). rewrite in_seq in H. specialize (H ltac:(lia)).
  unfold small_number_ok in H. rewrite Z2Nat.id in H by lia.
  rewrite !andb_true_iff, !bool_decide_eq_true in H. naive_solver.
Qed.

Lemma octet_range v i : 0 <= octet v i <= 255.
Proof. unfold octet. pose proof (Z.mod_pos_bound (Z.shiftr v (8 * (3 - i))) 256). lia. Qed.

Lemma ipv4_value_octets v :
  0 <= v < 2 ^ 32 -> ipv4_value (octet v 0) (octet v 1) (octet v 2) (octet v 3) = v.
Proof.
  intros Hv. unfold ipv4_value, octet. rewrite !Z.shiftr_div_pow2 by lia.
  change (8 * (3 - 0)) with 24. change (8 * (3 - 1)) with 16.
  change (8 * (3 - 2)) with 8. change (8 * (3 - 3)) with 0.
  change (2 ^ 24) with 16777216. change (2 ^ 16) with 65536. change (2 ^ 8) with 256.
  change (2 ^ 0) with 1. change (2 ^ 32) with 4294967296 in Hv.
  rewrite Z.div_1_r. Z.div_mod_to_equations. lia.
Qed.

Lemma ipv4_octets a b c d :
  0 <= a <= 255 -> 0 <= b <= 255 -> 0 <= c <= 255 -> 0 <= d <= 255 ->
  0 <= ipv4_value a b c d < 2 ^ 32.
Proof. unfold ipv4_value. lia. Qed.

Lemma first_mark_app s t :
  no_sep "."%char s = true -> no_sep ":"%char s = true -> no_sep "%"%char s = true ->
  first_mark (s +:+ String "."%char t) = Some "."%char.
Proof.
  induction s as [|c s IH]; [done|].
  change (String c s +:+ String "."%char t) with (String c (s +:+ String "."%char t)). cbn.
  rewrite !andb_true_iff, !negb_true_iff. intros [-> ?] [-> ?] [-> ?]. by apply IH.
Qed.

Lemma first_mark_string4 v : first_mark (string4 v) = Some "."%char.
Proof.
  unfold string4. rewrite sep_app.
  destruct (small_number_spec (octet v 0) (octet_range v 0)) as (_ & ? & _ & ? & ? & _). by apply first_mark_app.
Qed.

Lemma ParseAddr_String v :
  0 <= v < 2 ^ 32 -> ParseAddr (Addr_String (Addr4 v)) = Some (Addr4 v).
Proof.
  intros Hv. unfold ParseAddr, Addr_String. rewrite first_mark_string4. cbn [mbind option_bind].
  rewrite Ascii.eqb_refl. unfold parseIPv4, string4.
  destruct (small_number_spec (octet v 0) (octet_range v 0)) as (P0 & D0 & _).
  destruct (small_number_spec (octet v 1) (octet_range v 1)) as (P1 & D1 & _).
  destruct (small_number_spec (octet v 2) (octet_range v 2)) as (P2 & D2 & _).
  destruct (small_number_spec (octet v 3) (octet_range v 3)) as (P3 & D3 & _).
  rewrite !sep_app, !split_on_app, split_on_single by done.
  cbn. rewrite P0; cbn. rewrite P1; cbn. rewrite P2; cbn. rewrite P3; cbn.
  by rewrite ipv4_value_octets.
Qed.

Lemma no_sep_Addr_String sep v :
  (sep = "/"%char \/ sep = ":"%char) -> no_sep sep (Addr_String (Addr4 v)) = true.
Proof.
  intros Hsep. unfold Addr_String, string4. rewrite !no_sep_app.
  assert (forall i, no_sep sep (itoa (octet v i)) = true) as Hi.
  { intros i. destruct (small_number_spec (octet v i) (octet_range v i)) as (_ & _ & S & C & _ & _).
    by destruct Hsep as [-> | ->]. }
  rewrite !Hi. by destruct Hsep as [-> | ->].
Qed.

(** A valid IPv4 prefix survives printing and parsing. *)
Lemma ParsePrefix_String v bits :
  0 <= v < 2 ^ 32 -> 0 <= bits <= 32 ->
  ParsePrefix (Prefix_String (mkPrefix (Addr4 v) bits)) = Some (mkPrefix (Addr4 v) bits).
Proof.
  intros Hv Hb. unfold ParsePrefix, Prefix_String, Prefix_IsValid; cbn -[Addr_String].
  rewrite (proj2 (Z.leb_le 0 bits)) by lia.
  destruct (small_number_spec bits ltac:(lia)) as (_ & _ & Hs & _ & _ & Hp).
  rewrite sep_app, split_on_app, split_on_single by auto using no_sep_Addr_String.
  rewrite ParseAddr_String by done. cbn. rewrite Hp. cbn.
  by rewrite (proj2 (Z.leb_le bits 32)) by lia.
Qed.

Lemma decimal_acc_nonneg s acc n : 0 <= acc -> decimal_acc acc s = Some n -> 0 <= n.
Proof.
  revert acc. induction s as [|c s IH]; intros acc Hacc; cbn; [naive_solver|].
  destruct (is_digit c) eqn:Hd; [|done]. apply IH. unfold is_digit, digit_value in *.
  rewrite andb_true_iff, !N.leb_le in Hd. lia.
Qed.
Lemma parse_decimal_nonneg s n : parse_decimal s = Some n -> 0 <= n.
Proof. destruct s; [done|]. apply decimal_acc_nonneg. done. Qed.
Lemma parse_octet_range s n : parse_octet s = Some n -> 0 <= n <= 255.
Proof.
  unfold parse_octet. intros H.
  assert (exists m, parse_decimal s = Some m /\ n = m /\ m <= 255) as (m & Hm & -> & ?).
  { destruct s as [|c [|c' s]]; [done| |destruct (Ascii.eqb c "0"%char); [done|]];
      destruct (parse_decimal _) as [m|] eqn:E; try done;
      destruct (m <=? 255) eqn:El; try done; apply Z.leb_le in El; naive_solver. }
  apply parse_decimal_nonneg in Hm. lia.
Qed.
Lemma parse_bits_nonneg s n : parse_bits s = Some n -> 0 <= n.
Proof.
  unfold parse_bits. destruct s as [|c [|c' s]]; try apply parse_decimal_nonneg.
  destruct (Ascii.eqb c "0"%char); [done|]. apply parse_decimal_nonneg.
Qed.

(** What a parsed IPv4 address or prefix looks like. *)
Lemma ParseAddr_range s v : ParseAddr s = Some (Addr4 v) -> 0 <= v < 2 ^ 32.
Proof.
  unfold ParseAddr, parseIPv4. intros H. apply bind_Some in H as (mark & _ & H).
  destruct (Ascii.eqb mark "."%char).
  - apply fmap_Some in H as (x & H & [= ->]). repeat case_match; try done.
    repeat (apply bind_Some in H as (? & ?%parse_octet_range & H)). simplify_eq. by apply ipv4_octets.
  - destruct (Ascii.eqb mark ":"%char); [|done]. repeat case_match; try done; by apply fmap_Some in H as (? & ? & ?).
Qed.
Lemma ParsePrefix_range s v bits :
  ParsePrefix s = Some (mkPrefix (Addr4 v) bits) -> 0 <= v < 2 ^ 32 /\ 0 <= bits <= 32.
Proof.
  unfold ParsePrefix. intros H. repeat case_match; try done.
  apply bind_Some in H as (a & Ha & H). apply bind_Some in H as (b & Hb%parse_bits_nonneg & H).
  destruct a; try done; cbn in H; destruct (b <=? _) eqn:E; simplify_eq.
  apply ParseAddr_range in Ha. apply Z.leb_le in E. auto.
Qed.
