(* ===== verification/Allocation.v ===== *)
(** * Lowest-free overlay address (internal/allocation) *)

From S2P Require Import Prelude Netip.

Definition ErrExhausted : error := ESentinel "allocation.ErrExhausted".

(** The loop of [Next]: skip an address when it is used or when its successor
    leaves the prefix, which is the case of the IPv4 broadcast address. *)
Fixpoint Next_scan (fuel : nat) (prefix : Prefix) (addr : Addr) (used : gset Addr) : res Addr :=
  match fuel with
  | O => Fail ErrExhausted
  | S fuel' =>
      if Prefix_Contains prefix addr then
        if Addr_IsValid (Addr_Next addr) && Prefix_Contains prefix (Addr_Next addr) &&
           negb (bool_decide (addr ∈ used))
        then Ok addr
        else Next_scan fuel' prefix (Addr_Next addr) used
      else Fail ErrExhausted
  end.

(** [Next(cidr, used)].  The scan is bounded by the size of the prefix. *)
Definition Next (cidr : string) (used : gset Addr) : res Addr :=
  match ParsePrefix cidr with
  | None => Fail (ENew "invalid IPv4 overlay CIDR")
  | Some p =>
      if negb (Addr_Is4 (Prefix_Addr p)) then Fail (ENew "invalid IPv4 overlay CIDR")
      else
        let prefix := Prefix_Masked p in
        if 30 <? Prefix_Bits prefix then Fail (ENew "overlay CIDR has no client addresses")
        else Next_scan (Z.to_nat (2 ^ host_bits prefix)) prefix
               (Addr_Next (Addr_Next (Prefix_Addr prefix))) used
  end.

(** [GatewayAddress(cidr)]. *)
Definition GatewayAddress (cidr : string) : res Addr :=
  match ParsePrefix cidr with
  | None => Fail (ENew "invalid IPv4 overlay CIDR")
  | Some p =>
      if negb (Addr_Is4 (Prefix_Addr p)) then Fail (ENew "invalid IPv4 overlay CIDR")
      else Ok (Addr_Next (Prefix_Addr (Prefix_Masked p)))
  end.

(** The client addresses of a block: all but the network address, the gateway
    address after it and the broadcast address. *)
Definition client_range (base size u : Z) : Prop := base + 2 <= u <= base + size - 2.

Lemma Addr_Next4 v : v + 1 <> 2 ^ 32 -> Addr_Next (Addr4 v) = Addr4 (v + 1).
Proof. intros H. cbn [Addr_Next]. by rewrite (proj2 (Z.eqb_neq _ _) H). Qed.

Section Scan.
Context (bits v0 : Z) (used : gset Addr).
Context (Hbits : 0 <= bits <= 30) (Hv0 : 0 <= v0 < 2 ^ 32).
Let base := mask_value (32 - bits) v0.
Let size := 2 ^ (32 - bits).
Let prefix := mkPrefix (Addr4 base) bits.

Lemma scan_block u : Prefix_Contains prefix (Addr4 u) = true <-> (base <= u < base + size).
Proof. unfold prefix, base, size. apply contains4_block. lia. Qed.

(** What a scan that starts at [u] finds, with enough fuel. *)
Lemma Next_scan_spec fuel u :
  base <= u <= base + size - 1 -> (Z.to_nat (base + size - u) <= fuel)%nat ->
  match Next_scan fuel prefix (Addr4 u) used with
  | Ok a => exists v, a = Addr4 v /\ u <= v <= base + size - 2 /\ ~ (Addr4 v ∈ used) /\
            forall x, u <= x < v -> Addr4 x ∈ used
  | Fail e => e = ErrExhausted /\ forall x, u <= x <= base + size - 2 -> Addr4 x ∈ used
  end.
Proof using Hbits Hv0.
  pose proof (mask_block_bound bits v0 ltac:(lia) Hv0) as [Hlo Hhi]. fold base size in Hlo, Hhi.
  revert u. induction fuel as [|fuel IH]; intros u Hu Hfuel; [lia|]. cbn [Next_scan].
  rewrite (proj2 (scan_block u)) by lia.
  destruct (decide (u = base + size - 1)) as [->|Hne].
  - assert (Hstop : Prefix_Contains prefix (Addr_Next (Addr4 (base + size - 1))) = false).
    { cbn [Addr_Next]. destruct (_ =? _) eqn:E; [apply andb_false_r|].
      destruct (Prefix_Contains _ _) eqn:Hc; [apply scan_block in Hc; lia|done]. }
    rewrite Hstop, andb_false_r. cbn [andb].
    destruct fuel; cbn [Next_scan]; rewrite ?Hstop; (split; [done|lia]).
  - rewrite Addr_Next4 by lia. cbn [Addr_IsValid].
    rewrite (proj2 (scan_block (u + 1))) by lia. cbn [andb].
    case_bool_decide as Hin; cbn [negb].
    + specialize (IH (u + 1) ltac:(lia) ltac:(lia)). revert IH.
      destruct (Next_scan _ _ _ _).
      * intros (v & -> & ? & ? & Hall). exists v. split_and!; [done|lia|lia|done|].
        intros x Hx. destruct (decide (x = u)) as [->|]; [done|]. apply Hall. lia.
      * intros [-> Hall]. split; [done|]. intros x Hx.
        destruct (decide (x = u)) as [->|]; [done|]. apply Hall. lia.
    + exists u. split_and!; [done|lia|lia|done|lia].
Qed.

End Scan.

(** for every IPv4 CIDR with at most 30 prefix bits, [Next] is total and
    returns the lowest free client address: the result lies strictly between
    the gateway and the broadcast address, is not in use, and every smaller
    client address is in use; it fails, and then with [ErrExhausted], only
    when every client address of the block is in use. *)
Theorem Next_lowest_free (cidr : string) (used : gset Addr) (v bits : Z)
    (Hparse : ParsePrefix cidr = Some (mkPrefix (Addr4 v) bits)) (Hbits : bits <= 30) :
  let base := mask_value (32 - bits) v in
  let size := 2 ^ (32 - bits) in
  match Next cidr used with
  | Ok a => exists u, a = Addr4 u /\ client_range base size u /\ ~ (Addr4 u ∈ used) /\
            GatewayAddress cidr <> Ok a /\
            forall x, client_range base size x -> x < u -> Addr4 x ∈ used
  | Fail e => e = ErrExhausted /\ forall x, client_range base size x -> Addr4 x ∈ used
  end.
Proof.
  intros base size. pose proof (ParsePrefix_range _ _ _ Hparse) as [Hv Hb].
  pose proof (mask_block_bound bits v Hb Hv) as [Hlo Hhi]. fold base size in Hlo, Hhi.
  assert (Hsize : 4 <= size).
  { unfold size. change 4 with (2 ^ 2). apply Z.pow_le_mono_r; lia. }
  unfold Next, GatewayAddress. rewrite Hparse. cbn [Prefix_Addr Addr_Is4 negb].
  assert (Hm : Prefix_Masked (mkPrefix (Addr4 v) bits) = mkPrefix (Addr4 base) bits).
  { unfold Prefix_Masked, Prefix_IsValid, host_bits. cbn.
    by rewrite (proj2 (Z.leb_le 0 bits)) by lia. }
  rewrite Hm. cbn [Prefix_Bits Prefix_Addr host_bits Addr_BitLen].
  rewrite (proj2 (Z.ltb_ge 30 bits)) by lia.
  rewrite !Addr_Next4 by lia. replace (base + 1 + 1) with (base + 2) by lia.
  pose proof (Next_scan_spec bits v used ltac:(lia) Hv
    (Z.to_nat (2 ^ (32 - bits))) (base + 2)) as Hs. fold base size in Hs.
  specialize (Hs ltac:(lia) ltac:(lia)). revert Hs. fold size.
  destruct (Next_scan _ _ _ _) as [a|e].
  - intros (u & -> & ? & ? & Hall). exists u. unfold client_range.
    split_and!; [done|lia|lia|done|intros [=]; lia|]. intros x Hx Hlt. apply Hall. lia.
  - intros [-> Hall]. split; [done|]. intros x Hx. apply Hall. unfold client_range in Hx. lia.
Qed.

Lemma Next_lowest_free_witness :
  ParsePrefix "10.0.0.9/29" = Some (mkPrefix (Addr4 (10 * 2 ^ 24 + 9)) 29) /\
  Next "10.0.0.9/29" {[Addr4 (10 * 2 ^ 24 + 10)]} = Ok (Addr4 (10 * 2 ^ 24 + 11)) /\
  exists u, Addr4 (10 * 2 ^ 24 + 11) = Addr4 u /\
    client_range (10 * 2 ^ 24 + 8) 8 u /\ Addr4 u ∉ ({[Addr4 (10 * 2 ^ 24 + 10)]} : gset Addr).
Proof.
  pose proof (Next_lowest_free "10.0.0.9/29" {[Addr4 (10 * 2 ^ 24 + 10)]}
    (10 * 2 ^ 24 + 9) 29 eq_refl ltac:(lia)) as H.
  split; [reflexivity|]. split; [vm_compute; reflexivity|].
  assert (HN : Next "10.0.0.9/29" {[Addr4 (10 * 2 ^ 24 + 10)]} = Ok (Addr4 (10 * 2 ^ 24 + 11)))
    by (vm_compute; reflexivity).
  rewrite HN in H. destruct H as (u & Hu & Hr & Hn & _). exists u. split; [exact Hu|]. split; [exact Hr|exact Hn].
Defined.
