(* ===== verification/Api.v ===== *)
(** * The Kubernetes objects the program reads and writes (api/v1beta1)

    Object metadata and the Waycloak kinds, with the source's fields.  Go
    string types (names, UIDs, features, reasons) are [string]; optional
    pointers are [option]; a nil map and an empty map are the same [gmap],
    which is how the source reads them. *)

From S2P Require Import Prelude.

(** ** Metadata *)

Record OwnerReference := mkOwnerReference {
  or_APIVersion : string;
  or_Kind : string;
  or_Name : string;
  or_UID : string;
  or_Controller : option bool
}.

Record ObjectMeta := mkObjectMeta {
  Namespace : string;
  Name : string;
  UID : string;
  Generation : Z;
  DeletionTimestamp : option time;
  Labels : gmap string string;
  Annotations : gmap string string;
  Finalizers : list string;
  OwnerReferences : list OwnerReference
}.

(** [obj.Labels[key]]: the empty string when the key is absent. *)
Definition map_get (m : gmap string string) (k : string) : string := default "" (m !! k).

(** [obj.DeletionTimestamp.IsZero()]. *)
Definition not_deleting (m : ObjectMeta) : bool := bool_decide (DeletionTimestamp m = None).

(** ** Conditions *)

Inductive ConditionStatus := ConditionTrue | ConditionFalse | ConditionUnknown.

#[global] Instance ConditionStatus_eq_dec : EqDecision ConditionStatus.
Proof. solve_decision. Defined.

Record Condition := mkCondition {
  c_Type : string;
  c_Status : ConditionStatus;
  c_Reason : string;
  c_Message : string;
  c_ObservedGeneration : Z;
  c_LastTransitionTime : time
}.

#[global] Instance Condition_eq_dec : EqDecision Condition.
Proof. solve_decision. Defined.

Definition ConditionAccepted : string := "Accepted".
Definition ConditionResolvedRefs : string := "ResolvedRefs".
Definition ConditionProgrammed : string := "Programmed".
Definition ConditionReady : string := "Ready".
Definition ConditionTunnelReady : string := "TunnelReady".
Definition ConditionDNSReady : string := "DNSReady".
Definition ConditionMembershipApplied : string := "MembershipApplied".
Definition ConditionNodeReady : string := "NodeReady".
Definition ConditionGatewayRulesReady : string := "GatewayRulesReady".
Definition ConditionDelivered : string := "Delivered".
Definition ConditionAcknowledged : string := "Acknowledged".

Definition ReasonAccepted : string := "Accepted".
Definition ReasonInvalid : string := "Invalid".
Definition ReasonUnsupportedClass : string := "UnsupportedClass".
Definition ReasonUnsupportedFeature : string := "UnsupportedFeature".
Definition ReasonControllerNotFound : string := "ControllerNotFound".
Definition ReasonDeleting : string := "Deleting".
Definition ReasonResolvedRefs : string := "ResolvedRefs".
Definition ReasonInvalidRef : string := "InvalidRef".
Definition ReasonRefNotFound : string := "RefNotFound".
Definition ReasonRefNotPermitted : string := "RefNotPermitted".
Definition ReasonIncompatibleRef : string := "IncompatibleRef".
Definition ReasonProgrammed : string := "Programmed".
Definition ReasonPending : string := "Pending".
Definition ReasonApplyFailed : string := "ApplyFailed".
Definition ReasonStaleGeneration : string := "StaleGeneration".
Definition ReasonReady : string := "Ready".
Definition ReasonNotReady : string := "NotReady".
Definition ReasonObservationUnavailable : string := "ObservationUnavailable".
Definition ReasonTunnelReady : string := "TunnelReady".
Definition ReasonTunnelNotReady : string := "TunnelNotReady".
Definition ReasonDNSReady : string := "DNSReady".
Definition ReasonDNSNotReady : string := "DNSNotReady".
Definition ReasonMembershipApplied : string := "MembershipApplied".
Definition ReasonMembershipPending : string := "MembershipPending".
Definition ReasonNodeReady : string := "NodeReady".
Definition ReasonNodeNotReady : string := "NodeNotReady".
Definition ReasonGatewayRulesReady : string := "GatewayRulesReady".
Definition ReasonGatewayRulesPending : string := "GatewayRulesPending".
Definition ReasonDelivered : string := "Delivered".
Definition ReasonDeliveryPending : string := "DeliveryPending".
Definition ReasonAcknowledged : string := "Acknowledged".
Definition ReasonAcknowledgementPending : string := "AcknowledgementPending".

(** *** The status contract enforced by the CRD validation rules

    Each condition list type carries [XValidation] rules: which condition
    types may appear, which reasons each may carry, and that an Unknown
    condition uses [ObservationUnavailable].  [stable_reasons] is the reason
    table those rules spell out; a status that breaks a rule is rejected by
    the API server. *)
Definition stable_reasons (conditionType : string) : list string :=
  if String.eqb conditionType ConditionAccepted then
    [ReasonAccepted; ReasonInvalid; ReasonUnsupportedClass; ReasonUnsupportedFeature;
     ReasonControllerNotFound; ReasonDeleting; ReasonObservationUnavailable]
  else if String.eqb conditionType ConditionResolvedRefs then
    [ReasonResolvedRefs; ReasonInvalidRef; ReasonRefNotFound; ReasonRefNotPermitted;
     ReasonIncompatibleRef; ReasonObservationUnavailable]
  else if String.eqb conditionType ConditionProgrammed then
    [ReasonProgrammed; ReasonPending; ReasonApplyFailed; ReasonStaleGeneration;
     ReasonObservationUnavailable]
  else if String.eqb conditionType ConditionReady then
    [ReasonReady; ReasonNotReady; ReasonObservationUnavailable; ReasonDeleting]
  else if String.eqb conditionType ConditionTunnelReady then
    [ReasonTunnelReady; ReasonTunnelNotReady; ReasonObservationUnavailable]
  else if String.eqb conditionType ConditionDNSReady then
    [ReasonDNSReady; ReasonDNSNotReady; ReasonObservationUnavailable]
  else if String.eqb conditionType ConditionMembershipApplied then
    [ReasonMembershipApplied; ReasonMembershipPending; ReasonObservationUnavailable]
  else if String.eqb conditionType ConditionNodeReady then
    [ReasonNodeReady; ReasonNodeNotReady; ReasonObservationUnavailable]
  else if String.eqb conditionType ConditionGatewayRulesReady then
    [ReasonGatewayRulesReady; ReasonGatewayRulesPending; ReasonObservationUnavailable]
  else if String.eqb conditionType ConditionDelivered then
    [ReasonDelivered; ReasonDeliveryPending; ReasonObservationUnavailable]
  else if String.eqb conditionType ConditionAcknowledged then
    [ReasonAcknowledged; ReasonAcknowledgementPending; ReasonObservationUnavailable]
  else [].

Definition condition_admitted (types : list string) (c : Condition) : bool :=
  contains_string types (c_Type c) && contains_string (stable_reasons (c_Type c)) (c_Reason c) &&
  (negb (bool_decide (c_Status c = ConditionUnknown)) ||
   String.eqb (c_Reason c) ReasonObservationUnavailable).

(** The rules of one list type; [types] are the condition types it allows. *)
Definition conditions_admitted (types : list string) (cs : list Condition) : bool :=
  forallb (condition_admitted types) cs && (Z.of_nat (length cs) <=? 32) &&
  bool_decide (NoDup (map c_Type cs)).

Definition common_types : list string :=
  [ConditionAccepted; ConditionResolvedRefs; ConditionProgrammed; ConditionReady].
Definition gateway_types : list string :=
  common_types ++ [ConditionTunnelReady; ConditionDNSReady; ConditionMembershipApplied].
Definition binding_types : list string := common_types ++ [ConditionNodeReady].
Definition lease_types : list string :=
  common_types ++ [ConditionGatewayRulesReady; ConditionDelivered; ConditionAcknowledged].

Definition Conditions_valid : list Condition -> bool := conditions_admitted common_types.
Definition GatewayConditions_valid : list Condition -> bool := conditions_admitted gateway_types.
Definition BindingConditions_valid : list Condition -> bool := conditions_admitted binding_types.
Definition LeaseConditions_valid : list Condition -> bool := conditions_admitted lease_types.

(** ** Features *)

Definition FeatureFailClosedEgress : string := "networking.waycloak.io/FailClosedEgress".
Definition FeatureTCP : string := "networking.waycloak.io/TCP".
Definition FeatureUDP : string := "networking.waycloak.io/UDP".
Definition FeatureDNSContainment : string := "networking.waycloak.io/DNSContainment".
Definition FeatureGatewayReplacementRecovery : string := "networking.waycloak.io/GatewayReplacementRecovery".
Definition FeatureNodeRestartRecovery : string := "networking.waycloak.io/NodeRestartRecovery".
Definition FeaturePortForwardSingleActive : string := "networking.waycloak.io/PortForwardServiceSingleActive".
Definition FeatureWorkloadAdapter : string := "networking.waycloak.io/WorkloadAdapter".

Definition BaselineFeatures : list string :=
  [FeatureFailClosedEgress; FeatureTCP; FeatureUDP; FeatureDNSContainment;
   FeatureGatewayReplacementRecovery; FeatureNodeRestartRecovery].

(** ** References *)

Record ClusterObjectReference := mkClusterObjectReference {
  cor_Group : string;
  cor_Kind : string;
  cor_Name : string
}.
Record NamespacedObjectReference := mkNamespacedObjectReference {
  nor_Namespace : string;
  nor_Name : string
}.
Record NamespacedUIDReference := mkNamespacedUIDReference {
  nur_Namespace : string;
  nur_Name : string;
  nur_UID : string
}.
#[global] Instance NamespacedUIDReference_eq_dec : EqDecision NamespacedUIDReference.
Proof. solve_decision. Defined.

Record LocalUIDReference := mkLocalUIDReference {
  lur_Name : string;
  lur_UID : string
}.
Record RoleObjectReference := mkRoleObjectReference {
  ror_Role : string;
  ror_Name : string
}.
Record GatewayParentReference := mkGatewayParentReference {
  gpr_Group : string;
  gpr_Kind : string;
  gpr_Namespace : string;
  gpr_Name : string
}.

#[global] Instance GatewayParentReference_eq_dec : EqDecision GatewayParentReference.
Proof. solve_decision. Defined.

(** ** VPNGatewayClass *)

Record ReleaseIdentity := mkReleaseIdentity { ri_Version : string; ri_ManifestDigest : string }.

#[global] Instance ReleaseIdentity_eq_dec : EqDecision ReleaseIdentity.
Proof. solve_decision. Defined.

Record VPNGatewayClassSpec := mkVPNGatewayClassSpec {
  gc_ControllerName : string;
  gc_ParametersRef : option ClusterObjectReference;
  gc_ReleaseIdentity : ReleaseIdentity;
  gc_SupportedFeatures : list string;
  gc_ConformanceProfile : string
}.
Record VPNGatewayClassStatus := mkVPNGatewayClassStatus {
  gc_ObservedGeneration : Z;
  gc_Conditions : list Condition
}.
Record VPNGatewayClass := mkVPNGatewayClass {
  gc_Meta : ObjectMeta;
  gc_Spec : VPNGatewayClassSpec;
  gc_Status : VPNGatewayClassStatus
}.

#[global] Instance VPNGatewayClassStatus_eq_dec : EqDecision VPNGatewayClassStatus.
Proof. solve_decision. Defined.

(** ** VPNGateway *)

Definition GatewayAddressTypeOverlayCIDR : string := "networking.waycloak.io/OverlayCIDR".
Definition GatewayAddressTypeOverlayAddress : string := "networking.waycloak.io/OverlayAddress".
Definition GatewayAddressTypeUnderlayEndpoint : string := "networking.waycloak.io/UnderlayEndpoint".
Definition GatewayAddressTypeOverlayHealthPort : string := "networking.waycloak.io/OverlayHealthPort".
Definition GatewayAddressTypeVNI : string := "networking.waycloak.io/VNI".
Definition GatewayAddressTypeMTU : string := "networking.waycloak.io/MTU".

Definition RouteNamespaceSame : string := "Same".
Definition RouteNamespaceSelector : string := "Selector".
Definition RouteNamespaceAll : string := "All".

(** A label selector as [metav1.LabelSelector] has it. *)
Inductive SelectorOperator := OpIn | OpNotIn | OpExists | OpDoesNotExist | OpUnknown.
Record SelectorRequirement := mkSelectorRequirement {
  sr_Key : string;
  sr_Operator : SelectorOperator;
  sr_Values : list string
}.
Record LabelSelector := mkLabelSelector {
  ls_MatchLabels : gmap string string;
  ls_MatchExpressions : list SelectorRequirement
}.

Inductive ClusterTrafficMode := ClusterTrafficBypassCluster | ClusterTrafficTunnelAll.

#[global] Instance ClusterTrafficMode_eq_dec : EqDecision ClusterTrafficMode.
Proof. solve_decision. Defined.

Record ClusterTraffic := mkClusterTraffic {
  ct_Mode : ClusterTrafficMode;
  ct_BypassCIDRs : list string
}.

#[global] Instance ClusterTraffic_eq_dec : EqDecision ClusterTraffic.
Proof. solve_decision. Defined.

Record RouteNamespaces := mkRouteNamespaces {
  rn_From : string;
  rn_Selector : option LabelSelector
}.
Record AllowedRoutes := mkAllowedRoutes { ar_Namespaces : RouteNamespaces }.

Definition DNSModeGateway : string := "Gateway".

(** A core Toleration. *)
Record Toleration := mkToleration {
  tol_Key : string;
  tol_Operator : string;
  tol_Value : string;
  tol_Effect : string;
  tol_Seconds : option Z
}.
Record GatewayPlacement := mkGatewayPlacement {
  gp_NodeSelector : gmap string string;
  gp_Tolerations : list Toleration
}.
Record VPNGatewaySpec := mkVPNGatewaySpec {
  gw_GatewayClassName : string;
  gw_NativeConfigRefs : list RoleObjectReference;
  gw_CredentialRefs : list RoleObjectReference;
  gw_RequestedFeatures : list string;
  gw_AllowedRoutes : AllowedRoutes;
  gw_ClusterTraffic : ClusterTraffic;
  gw_DNSMode : string;
  gw_Placement : GatewayPlacement
}.
Record ObservedGatewayClass := mkObservedGatewayClass {
  ogc_ControllerName : string;
  ogc_ReleaseIdentity : ReleaseIdentity
}.
Record GatewayAddressEntry := mkGatewayAddressEntry { ga_Type : string; ga_Value : string }.
Record VPNGatewayStatus := mkVPNGatewayStatus {
  gw_ObservedGeneration : Z;
  gw_GatewayClass : option ObservedGatewayClass;
  gw_SupportedFeatures : list string;
  gw_Addresses : list GatewayAddressEntry;
  gw_Conditions : list Condition
}.
Record VPNGateway := mkVPNGateway {
  gw_Meta : ObjectMeta;
  gw_Spec : VPNGatewaySpec;
  gw_Status : VPNGatewayStatus
}.

#[global] Instance ObservedGatewayClass_eq_dec : EqDecision ObservedGatewayClass.
Proof. solve_decision. Defined.
#[global] Instance GatewayAddressEntry_eq_dec : EqDecision GatewayAddressEntry.
Proof. solve_decision. Defined.
#[global] Instance VPNGatewayStatus_eq_dec : EqDecision VPNGatewayStatus.
Proof. solve_decision. Defined.

(** [gateway.Spec.AllowedRoutes.Namespaces.From] and [.Selector]. *)
Definition gw_AllowedFrom (g : VPNGateway) : string :=
  rn_From (ar_Namespaces (gw_AllowedRoutes (gw_Spec g))).
Definition gw_AllowedSelector (g : VPNGateway) : option LabelSelector :=
  rn_Selector (ar_Namespaces (gw_AllowedRoutes (gw_Spec g))).

(** ** VPNEgressRoute *)

Record RouteParentStatus := mkRouteParentStatus {
  rps_ParentRef : GatewayParentReference;
  rps_ControllerName : string;
  rps_Conditions : list Condition
}.
Record VPNEgressRouteStatus := mkVPNEgressRouteStatus {
  rs_ObservedGeneration : Z;
  rs_Conditions : list Condition;
  rs_Parents : list RouteParentStatus
}.
Record VPNEgressRouteSpec := mkVPNEgressRouteSpec {
  rt_ParentRefs : list GatewayParentReference;
  rt_RequiredFeatures : list string
}.
Record VPNEgressRoute := mkVPNEgressRoute {
  rt_Meta : ObjectMeta;
  rt_Spec : VPNEgressRouteSpec;
  rt_Status : VPNEgressRouteStatus
}.

#[global] Instance RouteParentStatus_eq_dec : EqDecision RouteParentStatus.
Proof. solve_decision. Defined.
#[global] Instance VPNEgressRouteStatus_eq_dec : EqDecision VPNEgressRouteStatus.
Proof. solve_decision. Defined.

(** ** VPNWorkloadBinding *)

Record WorkloadAllocation := mkWorkloadAllocation { wa_Identity : string; wa_Address : string }.

Record WorkloadNetworkIntent := mkWorkloadNetworkIntent {
  wn_GatewayGeneration : Z;
  wn_OverlayCIDR : string;
  wn_GatewayAddress : string;
  wn_GatewayEndpoint : string;
  wn_GatewayHealthPort : Z;
  wn_VNI : Z;
  wn_MTU : Z;
  wn_ClusterTraffic : ClusterTraffic
}.

#[global] Instance WorkloadNetworkIntent_eq_dec : EqDecision WorkloadNetworkIntent.
Proof. solve_decision. Defined.

Record NodeAgentObservation := mkNodeAgentObservation {
  nao_NodeName : string;
  nao_NodeBootID : string;
  nao_InstanceID : string;
  nao_ObservedAt : time
}.
Record VPNWorkloadBindingSpec := mkVPNWorkloadBindingSpec {
  wb_PodRef : LocalUIDReference;
  wb_RouteRef : LocalUIDReference;
  wb_GatewayRef : NamespacedUIDReference;
  wb_NodeName : string;
  wb_Allocation : WorkloadAllocation;
  wb_Network : WorkloadNetworkIntent
}.
Record VPNWorkloadBindingStatus := mkVPNWorkloadBindingStatus {
  wbs_ObservedGeneration : Z;
  wbs_AppliedGeneration : Z;
  wbs_ObservedPodUID : string;
  wbs_ObservedGatewayUID : string;
  wbs_Agent : option NodeAgentObservation;
  wbs_Conditions : list Condition
}.
Record VPNWorkloadBinding := mkVPNWorkloadBinding {
  wb_Meta : ObjectMeta;
  wb_Spec : VPNWorkloadBindingSpec;
  wb_Status : VPNWorkloadBindingStatus
}.

#[global] Instance NodeAgentObservation_eq_dec : EqDecision NodeAgentObservation.
Proof. solve_decision. Defined.
#[global] Instance VPNWorkloadBindingStatus_eq_dec : EqDecision VPNWorkloadBindingStatus.
Proof. solve_decision. Defined.

(** ** PortForwardLease *)

Definition ProtocolTCP : string := "TCP".
Definition ProtocolUDP : string := "UDP".

Inductive IntOrString := IntVal (n : Z) | StrVal (s : string).

Record ServiceBackendReference := mkServiceBackendReference {
  sb_Group : string;
  sb_Kind : string;
  sb_Name : string;
  sb_Port : IntOrString
}.

Inductive EndpointHandoffPhase := EndpointPhaseSelecting | EndpointPhaseDraining | EndpointPhaseActive.

#[global] Instance EndpointHandoffPhase_eq_dec : EqDecision EndpointHandoffPhase.
Proof. solve_decision. Defined.

Record ActiveLeaseEndpoint := mkActiveLeaseEndpoint {
  ae_ServiceUID : string;
  ae_EndpointSliceUID : string;
  ae_PodUID : string;
  ae_Phase : EndpointHandoffPhase
}.
Record ProviderMappingStatus := mkProviderMappingStatus {
  pm_PublicAddress : string;
  pm_PublicPort : Z;
  pm_ExpiresAt : time
}.
Record PortForwardLeaseStatus := mkPortForwardLeaseStatus {
  pls_ObservedGeneration : Z;
  pls_ActiveEndpoint : option ActiveLeaseEndpoint;
  pls_Provider : option ProviderMappingStatus;
  pls_HandoffGeneration : Z;
  pls_Conditions : list Condition
}.
Record PortForwardLeaseSpec := mkPortForwardLeaseSpec {
  pl_GatewayRef : NamespacedObjectReference;
  pl_BackendRef : ServiceBackendReference;
  pl_Protocols : list string;
  pl_EndpointPolicy : string;
  pl_ApplicationAdapterRef : option string
}.
Record PortForwardLease := mkPortForwardLease {
  pl_Meta : ObjectMeta;
  pl_Spec : PortForwardLeaseSpec;
  pl_Status : PortForwardLeaseStatus
}.

Definition EndpointPolicySingleActive : string := "SingleActive".

#[global] Instance ActiveLeaseEndpoint_eq_dec : EqDecision ActiveLeaseEndpoint.
Proof. solve_decision. Defined.
#[global] Instance ProviderMappingStatus_eq_dec : EqDecision ProviderMappingStatus.
Proof. solve_decision. Defined.
#[global] Instance PortForwardLeaseStatus_eq_dec : EqDecision PortForwardLeaseStatus.
Proof. solve_decision. Defined.

(** ** WorkloadAdapter *)

Record WorkloadAdapterSpec := mkWorkloadAdapterSpec {
  ad_Image : string;
  ad_ProtocolVersion : string;
  ad_SupportedApplications : list string;
  ad_SupportedFeatures : list string
}.
Record WorkloadAdapterStatus := mkWorkloadAdapterStatus {
  ad_ObservedGeneration : Z;
  ad_Conditions : list Condition
}.
Record WorkloadAdapter := mkWorkloadAdapter {
  ad_Meta : ObjectMeta;
  ad_Spec : WorkloadAdapterSpec;
  ad_Status : WorkloadAdapterStatus
}.

#[global] Instance WorkloadAdapterStatus_eq_dec : EqDecision WorkloadAdapterStatus.
Proof. solve_decision. Defined.

(** ** Core objects, as far as the source reads them *)

Record Pod := mkPod {
  pod_Meta : ObjectMeta;
  pod_NodeName : string;
  pod_Phase : string;
  pod_IP : string
}.
