(* ===== verification/Conditions.v ===== *)
(** * The condition contract (internal/conditions)

    How every controller turns observations into status conditions, and how
    the other components read them back: [Build], [Current] and
    [CurrentTrue].  The lookup in a condition list is apimachinery's and comes
    in through [ApiMeta]. *)

From S2P Require Import Prelude Api.

(** ** apimachinery's condition lookup

    [meta.FindStatusCondition] finds the condition of a type in a list and is
    nil when there is none. *)
Class ApiMeta := {
  FindStatusCondition : list Condition -> string -> option Condition;
  find_condition_some cs t c :
    FindStatusCondition cs t = Some c -> c ∈ cs /\ c_Type c = t;
  find_condition_none cs t :
    FindStatusCondition cs t = None -> forall c, c ∈ cs -> c_Type c <> t
}.

(** ** Operations *)

Record State := mkState {
  st_Status : ConditionStatus;
  st_Reason : string;
  st_Message : string
}.

Definition True_ (reason message : string) : State := mkState ConditionTrue reason message.
Definition False_ (reason message : string) : State := mkState ConditionFalse reason message.
Definition Unknown (message : string) : State :=
  mkState ConditionUnknown ReasonObservationUnavailable message.

Definition SummaryOrder : list string :=
  [ConditionAccepted; ConditionResolvedRefs; ConditionProgrammed; ConditionReady].

Section Contract.
Context `{ApiMeta}.

(** [states[conditionType]], with the default for a missing observation. *)
Definition observed_state (states : gmap string State) (conditionType : string) : State :=
  default (Unknown "Condition observation is unavailable") (states !! conditionType).

Definition transition_time (previous : list Condition) (now : time) (conditionType : string)
    (status : ConditionStatus) : time :=
  match FindStatusCondition previous conditionType with
  | Some old => if decide (c_Status old = status) then c_LastTransitionTime old else now
  | None => now
  end.

Definition Build (previous : list Condition) (generation : Z) (now : time) (order : list string)
    (states : gmap string State) : list Condition :=
  map (fun conditionType =>
         let state := observed_state states conditionType in
         mkCondition conditionType (st_Status state) (st_Reason state) (st_Message state) generation
           (transition_time previous now conditionType (st_Status state))) order.

Definition Current (values : list Condition) (conditionType : string)
    (statusGeneration generation : Z) : option Condition :=
  if negb (statusGeneration =? generation) then None
  else match FindStatusCondition values conditionType with
       | None => None
       | Some condition =>
           if negb (c_ObservedGeneration condition =? generation) then None else Some condition
       end.

Definition CurrentTrue (values : list Condition) (conditionType : string)
    (statusGeneration generation : Z) : bool :=
  match Current values conditionType statusGeneration generation with
  | Some condition => bool_decide (c_Status condition = ConditionTrue)
  | None => false
  end.

(** ** What reading back gives *)

Lemma Build_types previous g now order states :
  map c_Type (Build previous g now order states) = order.
Proof. unfold Build. rewrite map_map. apply map_id. Qed.

Lemma Build_elem previous g now order states c :
  c ∈ Build previous g now order states ->
  c_Type c ∈ order /\ c_ObservedGeneration c = g /\
  c = mkCondition (c_Type c) (st_Status (observed_state states (c_Type c)))
        (st_Reason (observed_state states (c_Type c)))
        (st_Message (observed_state states (c_Type c))) g
        (transition_time previous now (c_Type c) (st_Status (observed_state states (c_Type c)))).
Proof.
  unfold Build. intros Hin. apply list_elem_of_fmap in Hin as (t & -> & Ht). auto.
Qed.

Lemma Build_find previous g now order states t :
  t ∈ order ->
  exists c, FindStatusCondition (Build previous g now order states) t = Some c /\
    c_Type c = t /\ c_ObservedGeneration c = g /\ c_Status c = st_Status (observed_state states t) /\
    c_Reason c = st_Reason (observed_state states t) /\
    c_LastTransitionTime c = transition_time previous now t (st_Status (observed_state states t)).
Proof.
  intros Ht. destruct (FindStatusCondition _ t) as [c|] eqn:E.
  - exists c. destruct (find_condition_some _ _ _ E) as [Hin Htype].
    destruct (Build_elem _ _ _ _ _ _ Hin) as (_ & Hg & Hc). rewrite Htype in Hc.
    split_and!; [done|done|done|by rewrite Hc..].
  - exfalso. rewrite <- (Build_types previous g now order states) in Ht.
    apply list_elem_of_fmap in Ht as (c & -> & Hin). by eapply find_condition_none.
Qed.

Lemma CurrentTrue_spec values t sg g :
  CurrentTrue values t sg g = true <->
  sg = g /\ exists c, FindStatusCondition values t = Some c /\ c_ObservedGeneration c = g /\
    c_Status c = ConditionTrue.
Proof.
  unfold CurrentTrue, Current. destruct (sg =? g) eqn:Eg; cbn [negb].
  2: { apply Z.eqb_neq in Eg. naive_solver. }
  apply Z.eqb_eq in Eg. destruct (FindStatusCondition values t) as [c|]; [|naive_solver].
  destruct (c_ObservedGeneration c =? g) eqn:Ec; cbn [negb].
  - apply Z.eqb_eq in Ec. rewrite bool_decide_eq_true. naive_solver.
  - apply Z.eqb_neq in Ec. naive_solver.
Qed.

(** The observation a condition of [Build] reports. *)
Lemma Build_current_true previous g now order states t sg generation :
  t ∈ order ->
  CurrentTrue (Build previous g now order states) t sg generation = true <->
  sg = generation /\ g = generation /\
  (exists state, states !! t = Some state /\ st_Status state = ConditionTrue).
Proof.
  intros Ht. rewrite CurrentTrue_spec.
  destruct (Build_find previous g now order states t Ht) as (c & -> & _ & Hg & Hs & _).
  unfold observed_state in Hs. split.
  - intros [-> (c' & [= <-] & <- & Htrue)]. split_and!; [done|done|].
    destruct (states !! t) as [state|]; cbn in Hs; [eexists; split; [done|congruence]|congruence].
  - intros (-> & -> & state & Hst & Htrue). rewrite Hst in Hs. cbn in Hs. split; [done|].
    exists c. split_and!; congruence.
Qed.

(** The states supply a True observation for a condition. *)
Definition state_true (states : gmap string State) (t : string) : bool :=
  match states !! t with Some state => bool_decide (st_Status state = ConditionTrue) | None => false end.

Lemma state_true_spec states t :
  state_true states t = true <-> exists state, states !! t = Some state /\ st_Status state = ConditionTrue.
Proof. unfold state_true. destruct (states !! t); rewrite ?bool_decide_eq_true; naive_solver. Qed.

(** A condition that [Build] writes reads back through [CurrentTrue] as
    true exactly when the component supplied a True observation for it, the
    reader's generation is the one it was built for, and the enclosing status
    was written for that generation: a stale or missing observation never
    reads as true. *)
Theorem Build_CurrentTrue previous g now order states t sg generation :
  t ∈ order ->
  CurrentTrue (Build previous g now order states) t sg generation = true <->
  sg = generation /\ g = generation /\
  (exists state, states !! t = Some state /\ st_Status state = ConditionTrue).
Proof. intros Ht. split; [intros Hc|intros Hs]; by apply (Build_current_true previous g now order states). Qed.

(** The observed states follow the reason table of the CRD rules. *)
Definition stable_state (t : string) (state : State) : bool :=
  contains_string (stable_reasons t) (st_Reason state) &&
  (negb (bool_decide (st_Status state = ConditionUnknown)) ||
   String.eqb (st_Reason state) ReasonObservationUnavailable).

Definition known_types : list string :=
  common_types ++ [ConditionTunnelReady; ConditionDNSReady; ConditionMembershipApplied;
    ConditionNodeReady; ConditionGatewayRulesReady; ConditionDelivered; ConditionAcknowledged].

Lemma stable_unknown t m : t ∈ known_types -> stable_state t (Unknown m) = true.
Proof.
  intros Ht.
  assert (forallb (fun t => contains_string (stable_reasons t) ReasonObservationUnavailable)
            known_types = true) as Hall by reflexivity.
  rewrite forallb_forall in Hall. apply list_elem_of_In, Hall in Ht.
  unfold stable_state. cbn. by rewrite Ht.
Qed.

(** A status whose observations use the stable reasons passes the API
    server's validation, whatever the previous status was. *)
Lemma Build_admitted types previous g now order states :
  order ⊆ known_types -> order ⊆ types -> NoDup order -> Z.of_nat (length order) <= 32 ->
  (forall t state, states !! t = Some state -> t ∈ order -> stable_state t state = true) ->
  conditions_admitted types (Build previous g now order states) = true.
Proof.
  intros Hknown Htypes Hdup Hlen Hstable. unfold conditions_admitted.
  rewrite Build_types, bool_decide_true by done.
  rewrite <- (length_map c_Type), Build_types, andb_true_r.
  apply andb_true_intro. split; [|by apply Z.leb_le].
  apply forallb_forall. intros c Hin%list_elem_of_In.
  destruct (Build_elem _ _ _ _ _ _ Hin) as (Ht & _ & Hc). unfold condition_admitted.
  rewrite (proj2 (contains_string_spec types _) (Htypes _ Ht)). cbn [andb].
  assert (stable_state (c_Type c) (observed_state states (c_Type c)) = true) as Hst.
  { unfold observed_state. destruct (states !! c_Type c) as [state|] eqn:E; cbn.
    - eauto.
    - apply stable_unknown. auto. }
  unfold stable_state in Hst. rewrite Hc. cbn. exact Hst.
Qed.

(** Observations that all use the stable reasons of their condition. *)
Definition stable_states (states : gmap string State) : Prop :=
  map_Forall (fun t state => stable_state t state = true) states.

Lemma stable_empty : stable_states ∅.
Proof. apply map_Forall_empty. Qed.

Lemma stable_insert t state states :
  stable_state t state = true -> stable_states states -> stable_states (<[t := state]> states).
Proof. intros. by apply map_Forall_insert_2. Qed.

Lemma Build_types_admitted types previous g now states :
  types ⊆ known_types -> NoDup types -> Z.of_nat (length types) <= 32 -> stable_states states ->
  conditions_admitted types (Build previous g now types states) = true.
Proof. intros ??? Hs. apply Build_admitted; [done|done|done|done|]. intros t state Ht _. exact (Hs t state Ht). Qed.

(** Once written, the conditions are recomputed unchanged at any later time:
    transition times only move when a status does. *)
Lemma Build_settles previous g now now' order states :
  Build (Build previous g now order states) g now' order states = Build previous g now order states.
Proof.
  unfold Build at 1 3. apply map_ext_in. intros t Ht%list_elem_of_In. f_equal.
  unfold transition_time at 1.
  destruct (Build_find previous g now order states t Ht) as (c & Hf & _ & _ & Hs & _ & Hl).
  rewrite Hf, Hs, decide_True by done. exact Hl.
Qed.

End Contract.

(** Observations written as nested insertions under the code's conditions. *)
Ltac solve_stable :=
  repeat first [apply stable_insert; [reflexivity|] | apply stable_empty | assumption | case_match].

(** ** A concrete lookup: the first condition of the type *)
#[refine] Instance first_condition : ApiMeta := {|
  FindStatusCondition := fun cs t => List.find (fun c => String.eqb (c_Type c) t) cs
|}.
Proof.
  - intros cs t c Hf. apply find_some in Hf as [Hin Ht].
    split; [by apply list_elem_of_In | by apply String.eqb_eq].
  - intros cs t Hf c Hin Ht. apply list_elem_of_In in Hin.
    pose proof (find_none _ _ Hf _ Hin) as Hn. cbn in Hn. by rewrite Ht, String.eqb_refl in Hn.
Defined.

Lemma Build_CurrentTrue_witness :
  CurrentTrue (Build [] 3 0 SummaryOrder {[ConditionReady := True_ ReasonReady "ok"]})
    ConditionReady 3 3 = true.
Proof.
  apply (Build_CurrentTrue [] 3 0 SummaryOrder {[ConditionReady := True_ ReasonReady "ok"]}
           ConditionReady 3 3).
  - set_solver.
  - split_and!; [done|done|]. exists (True_ ReasonReady "ok"). done.
Defined.
