(* ===== verification/Kube.v ===== *)
(** * The Kubernetes client

    controller-runtime's client is not part of the program; its operations are
    class methods over the world, one instance per kind.  What a component
    relies on is stated next to the theorem that relies on it. *)

From S2P Require Import Prelude Api.

(** [client.ObjectKey] / [types.NamespacedName]. *)
Record ObjectKey := mkObjectKey { key_Namespace : string; key_Name : string }.

#[global] Instance ObjectKey_eq_dec : EqDecision ObjectKey.
Proof. solve_decision. Defined.
#[global] Instance ObjectKey_countable : Countable ObjectKey.
Proof.
  apply (inj_countable' (fun k => (key_Namespace k, key_Name k))
           (fun p => mkObjectKey p.1 p.2)). by intros [].
Defined.

(** [types.NamespacedName.String()]. *)
Definition ObjectKey_String (k : ObjectKey) : string := key_Namespace k +:+ "/" +:+ key_Name k.

(** [client.ObjectKeyFromObject]. *)
Definition key_of (m : ObjectMeta) : ObjectKey := mkObjectKey (Namespace m) (Name m).

(** [reader.Get(ctx, key, &obj)]. *)
Class Getter (W T : Type) := k8s_Get : ObjectKey -> IO W T.

(** [client.List] with the options the source uses: every object, those of a
    namespace, those of a namespace with given labels, or those with a value of
    a registered field index, of all namespaces or of one. *)
Inductive ListOption :=
| ListAll
| InNamespace (ns : string)
| MatchingLabels (ns : string) (labels : gmap string string)
| MatchingFields (index value : string)
| NamespaceMatchingFields (namespace index value : string).
Class Lister (W T : Type) := k8s_List : ListOption -> IO W (list T).

(** Reading [T] leaves the world alone: it is a request to the API server. *)
Class ReadOnlyGetter (W T : Type) `{Getter W T} :=
  get_read_only : forall key w, (k8s_Get key w).2 = w.

(** [client.Create], which returns the object as stored; [client.Patch] of the
    difference between two versions of an object; [client.Delete]. *)
Class Creator (W T : Type) := k8s_Create : T -> IO W T.
Class Patcher (W T : Type) := k8s_Patch : T -> T -> IO W unit.
Class Deleter (W T : Type) := k8s_Delete : T -> IO W unit.

(** [client.SubResource("status").Patch] with a server-side apply patch: the
    status of the named object, under a field owner.  The kind is that of the
    status type [S]. *)
Class StatusApplier (W S : Type) := k8s_ApplyStatus : ObjectKey -> S -> string -> IO W unit.

(** [client.Status().Update] of an object as it was read with a new status: an
    optimistic-concurrency write, refused when the object has changed since. *)
Class StatusUpdater (W T S : Type) := k8s_UpdateStatus : T -> S -> IO W unit.

(** The injectable [Now func() time.Time]. *)
Class Clock (W : Type) := clock_now : W -> time.
Definition read_clock {W} `{Clock W} : IO W time := fun w => (Ok (clock_now w), w).

Lemma wp_clock {W} `{Clock W} Q (w : W) : Q (Ok (clock_now w)) w -> wp read_clock Q w.
Proof. done. Qed.

(** Take the next statement apart where it reads the clock. *)
Ltac wp_now := wp_step; apply wp_clock; cbn [after].

(** [ctrl.Result]: when to reconcile again, 0 for not at all. *)
Record Result := mkResult { RequeueAfter : duration }.
Definition NoRequeue : Result := mkResult 0.

(** [client.IgnoreNotFound]. *)
Definition IgnoreNotFound {W} (m : IO W unit) : IO W unit := fun w =>
  match m w with
  | (Fail e, w') => if IsNotFound e then (Ok tt, w') else (Fail e, w')
  | r => r
  end.

Lemma wp_ignore_not_found {W} (m : IO W unit) Q w :
  wp m (fun r w' => forall r', r' = r \/ r' = Ok tt -> Q r' w') w -> wp (IgnoreNotFound m) Q w.
Proof.
  unfold wp, IgnoreNotFound. destruct (m w) as [[[]|e] w1]; cbn; [auto|]. intros HQ. destruct (IsNotFound e); auto.
Qed.

Lemma keeps_IgnoreNotFound {W} (P : W -> Prop) (m : IO W unit) : keeps P m -> keeps P (IgnoreNotFound m).
Proof. intros Hm w Hw. specialize (Hm w Hw). unfold IgnoreNotFound. destruct (m w) as [[[]|e] w1]; [done|]. by destruct (IsNotFound e). Qed.

Lemma keeps_clock {W} `{Clock W} (P : W -> Prop) : keeps P read_clock.
Proof. by intros w. Qed.

(** Reading the object of a request: [k8s_Get], where a missing object ends the
    reconciliation quietly. *)
Definition reconcile_object {W T} `{Getter W T} (request : ObjectKey) (body : T -> IO W Result) : IO W Result :=
  got ← io_try (k8s_Get request);
  match got with
  | Ok object => body object
  | Fail err => if IsNotFound err then mret NoRequeue else io_fail err
  end.

(** ** An API server that validates statuses

    The server rejects a status its CRD rules do not admit.  A client that only
    writes admitted statuses behaves in the same way with and without the
    validation; this is how the controllers' theorems state that no status they
    write is ever rejected. *)
Definition validating {W S} (admitted : S -> bool) (A : StatusApplier W S) : StatusApplier W S :=
  fun key status owner =>
    if admitted status then A key status owner else io_fail (EStatus ReasonOther).

Lemma validating_admitted {W S} (admitted : S -> bool) (A : StatusApplier W S) key status owner :
  admitted status = true ->
  k8s_ApplyStatus (StatusApplier := validating admitted A) key status owner = A key status owner.
Proof. unfold k8s_ApplyStatus, validating. by intros ->. Qed.

(** The same for a status that is written with the object. *)
Definition validating_update {W T S} (admitted : S -> bool) (A : StatusUpdater W T S) : StatusUpdater W T S :=
  fun object status => if admitted status then A object status else io_fail (EStatus ReasonOther).

(** ** An API server shared with other clients

    Before each request other clients may have changed the objects, and the
    request may fail: [api_env] holds one change and one optional failure per
    request to come.  A request whose effect happened and whose reply was lost
    is a change that has the effect followed by a failure. *)
Section ApiServer.
Context {T : Type} (meta : T -> ObjectMeta).

Record api := mkApi {
  api_objs : gmap ObjectKey T;
  api_env : list ((gmap ObjectKey T -> gmap ObjectKey T) * option error);
  api_clock : time
}.

Definition set_objs (m : gmap ObjectKey T) (w : api) : api := mkApi m (api_env w) (api_clock w).

(** The server as the next request finds it. *)
Definition api_enter (w : api) : api * option error :=
  match api_env w with
  | [] => (w, None)
  | (change, failure) :: rest => (mkApi (change (api_objs w)) rest (api_clock w), failure)
  end.

Definition api_call {A} (act : IO api A) : IO api A := fun w =>
  match api_enter w with
  | (w1, Some e) => (Fail e, w1)
  | (w1, None) => act w1
  end.

Definition api_get (key : ObjectKey) : IO api T :=
  api_call (fun w => (match api_objs w !! key with Some o => Ok o | None => Fail (EStatus ReasonNotFound) end, w)).

Definition list_selects (opt : ListOption) (o : T) : bool :=
  match opt with
  | ListAll => true
  | InNamespace ns => String.eqb (Namespace (meta o)) ns
  | MatchingLabels ns labels =>
      String.eqb (Namespace (meta o)) ns &&
      bool_decide (map_Forall (fun k v => Labels (meta o) !! k = Some v) labels)
  | MatchingFields _ _ | NamespaceMatchingFields _ _ _ => false
  end.

Definition api_list (opt : ListOption) : IO api (list T) :=
  api_call (fun w => (Ok (List.filter (list_selects opt) (map snd (map_to_list (api_objs w)))), w)).

Definition api_create (o : T) : IO api T :=
  api_call (fun w => match api_objs w !! key_of (meta o) with
                     | Some _ => (Fail (EStatus ReasonAlreadyExists), w)
                     | None => (Ok o, set_objs (<[key_of (meta o) := o]> (api_objs w)) w)
                     end).

Definition api_delete (o : T) : IO api unit :=
  api_call (fun w => match api_objs w !! key_of (meta o) with
                     | Some _ => (Ok tt, set_objs (delete (key_of (meta o)) (api_objs w)) w)
                     | None => (Fail (EStatus ReasonNotFound), w)
                     end).

End ApiServer.
Arguments api : clear implicits.

Lemma wp_api_call {T A} (act : IO (api T) A) Q w :
  (forall w1, api_enter w = (w1, None) -> wp act Q w1) ->
  (forall w1 e, api_enter w = (w1, Some e) -> Q (Fail e) w1) -> wp (api_call act) Q w.
Proof.
  intros Hact Hfail. unfold wp, api_call. destruct (api_enter w) as [w1 [e|]] eqn:E; [by apply Hfail|by apply Hact].
Qed.

(** What holds of the objects and what every other client keeps. *)
Definition api_inv {T} (I : gmap ObjectKey T -> Prop) (w : api T) : Prop :=
  I (api_objs w) /\ Forall (fun c => forall m, I m -> I (c.1 m)) (api_env w).

Lemma api_inv_enter {T} (I : gmap ObjectKey T -> Prop) w w1 e : api_inv I w -> api_enter w = (w1, e) -> api_inv I w1.
Proof.
  intros [Hm Henv]. unfold api_enter. destruct (api_env w) as [|[change failure] rest] eqn:E; intros [= <- <-].
  - split; [done|by rewrite E].
  - apply Forall_cons in Henv as [Hc Hrest]. split; [by apply Hc|done].
Qed.

Lemma api_inv_set {T} (I : gmap ObjectKey T -> Prop) w m : api_inv I w -> I m -> api_inv I (set_objs m w).
Proof. by intros [_ Henv] Hm. Qed.

(** A request under an invariant: it fails, or acts on the objects as it finds
    them. *)
Lemma wp_api_inv {T A} (I : gmap ObjectKey T -> Prop) (act : IO (api T) A) Q w :
  api_inv I w -> (forall w1, api_inv I w1 -> api_clock w1 = api_clock w -> wp act Q w1) ->
  (forall w1 e, api_inv I w1 -> api_clock w1 = api_clock w -> Q (Fail e) w1) -> wp (api_call act) Q w.
Proof.
  intros Hinv Hact Hfail.
  assert (forall w1 e, api_enter w = (w1, e) -> api_clock w1 = api_clock w) as Hclock.
  { intros w1 e. unfold api_enter. destruct (api_env w) as [|[? ?] ?]; by intros [= <- <-]. }
  apply wp_api_call; intros; [apply Hact|apply Hfail]; eauto using api_inv_enter.
Qed.

#[global] Instance api_Clock T : Clock (api T) := api_clock.
