(* ===== verification/Enrollment.v ===== *)
(** * Pod enrollment (internal/enrollment)

    [Resolver.Resolve] turns the Pod's single enrollment label into the exact
    Pod and route UIDs.  The theorems say that enrollment depends on the label
    alone and never on the route being ready, and that a ready resolution is
    backed by four current True conditions. *)

From S2P Require Import Prelude Api Conditions Kube.

Definition RouteLabel : string := "networking.waycloak.io/egress-route".

Definition ReasonUnenrolled : string := "Unenrolled".
Definition ReasonInvalidEnrollment : string := "Invalid".
Definition ReasonRouteNotFound : string := "RefNotFound".
Definition ReasonRouteNotReady : string := "NotReady".

Definition ErrPodUIDMismatch : string := "pod UID does not match the exact CNI identity".

Record Resolution := mkResolution {
  PodUID : string;
  RouteName : string;
  RouteUID : string;
  Enrolled : bool;
  Ready : bool;
  Reason : string
}.

Definition Resolution_zero : Resolution := mkResolution "" "" "" false false "".

(** The loop over the four summary conditions: the reason that stops it. *)
Fixpoint summary_blocker `{ApiMeta} (conditions : list Condition) (generation : Z)
    (types : list string) : option string :=
  match types with
  | [] => None
  | conditionType :: types' =>
      match FindStatusCondition conditions conditionType with
      | None => Some ReasonObservationUnavailable
      | Some condition =>
          if negb (c_ObservedGeneration condition =? generation)
          then Some ReasonObservationUnavailable
          else if negb (bool_decide (c_Status condition = ConditionTrue))
          then Some (if str_empty (TrimSpace (c_Reason condition)) then ReasonRouteNotReady
                     else c_Reason condition)
          else summary_blocker conditions generation types'
      end
  end.

Section Resolver.
Context {W : Type} `{ApiMeta} `{Getter W Pod} `{Getter W VPNEgressRoute}.

(** apimachinery's [validation.IsDNS1123Label] reporting no problem. *)
Variable IsDNS1123Label : string -> bool.

(** Go returns the resolution together with the error, so both are results. *)
Definition Resolve (namespace name uid : string) : IO W (Resolution * option error) :=
  podResult ← io_try (k8s_Get (T := Pod) (mkObjectKey namespace name));
  match podResult with
  | Fail err => mret (Resolution_zero, Some (Errorf "read exact Pod identity" err))
  | Ok pod =>
      if negb (String.eqb (UID (pod_Meta pod)) uid)
      then mret (Resolution_zero, Some (Errorf "observed, expected" (ESentinel ErrPodUIDMismatch)))
      else
        let podUID := UID (pod_Meta pod) in
        match Labels (pod_Meta pod) !! RouteLabel with
        | None => mret (mkResolution podUID "" "" false false ReasonUnenrolled, None)
        | Some routeName =>
            if negb (IsDNS1123Label routeName)
            then mret (mkResolution podUID routeName "" true false ReasonInvalidEnrollment, None)
            else
              routeResult ← io_try (k8s_Get (T := VPNEgressRoute) (mkObjectKey namespace routeName));
              match routeResult with
              | Fail err =>
                  if IsNotFound err
                  then mret (mkResolution podUID routeName "" true false ReasonRouteNotFound, None)
                  else mret (mkResolution podUID routeName "" true false ReasonObservationUnavailable,
                             Some (Errorf "read enrolled route" err))
              | Ok route =>
                  let routeUID := UID (rt_Meta route) in
                  let generation := Generation (rt_Meta route) in
                  if negb (rs_ObservedGeneration (rt_Status route) =? generation)
                  then mret (mkResolution podUID routeName routeUID true false
                               ReasonObservationUnavailable, None)
                  else
                    match summary_blocker (rs_Conditions (rt_Status route)) generation SummaryOrder with
                    | Some reason => mret (mkResolution podUID routeName routeUID true false reason, None)
                    | None => mret (mkResolution podUID routeName routeUID true true ReasonReady, None)
                    end
              end
        end
  end.

Lemma summary_blocker_none conditions generation types :
  summary_blocker conditions generation types = None <->
  Forall (fun t => CurrentTrue conditions t generation generation = true) types.
Proof.
  induction types as [|t types IH]; cbn; [by split|].
  rewrite Forall_cons, CurrentTrue_spec, <- IH.
  destruct (FindStatusCondition conditions t) as [c|]; [|naive_solver].
  destruct (c_ObservedGeneration c =? generation) eqn:Eg; cbn [negb].
  - apply Z.eqb_eq in Eg. case_bool_decide; cbn [negb]; naive_solver.
  - apply Z.eqb_neq in Eg. naive_solver.
Qed.

(** The whole behaviour of [Resolve] in one statement: an unreadable or
    replaced Pod is an error with a zero resolution; otherwise the result
    carries the requested UID, [Enrolled] is the presence of the label, and
    [Ready] implies a readable route of the label's name all of whose summary
    conditions are current and true. *)
Lemma Resolve_spec namespace name uid w :
  wp (Resolve namespace name uid)
    (fun r _ => exists res err, r = Ok (res, err) /\
       match (k8s_Get (T := Pod) (mkObjectKey namespace name) w) with
       | (Fail _, _) => res = Resolution_zero /\ err <> None
       | (Ok pod, w1) =>
           if decide (UID (pod_Meta pod) = uid) then
             PodUID res = uid /\
             Enrolled res = bool_decide (is_Some (Labels (pod_Meta pod) !! RouteLabel)) /\
             (Ready res = true -> err = None /\ exists routeName route,
                Labels (pod_Meta pod) !! RouteLabel = Some routeName /\
                RouteName res = routeName /\ RouteUID res = UID (rt_Meta route) /\
                (k8s_Get (T := VPNEgressRoute) (mkObjectKey namespace routeName) w1).1 = Ok route /\
                Forall (fun t => CurrentTrue (rs_Conditions (rt_Status route)) t
                          (rs_ObservedGeneration (rt_Status route)) (Generation (rt_Meta route)) = true)
                  SummaryOrder)
           else res = Resolution_zero /\ exists e, err = Some e /\ errors_is e ErrPodUIDMismatch = true
       end) w.
Proof.
  unfold Resolve. do 2 wp_step. wp_run r w1 Epod. destruct r as [pod|e]; cbn beta iota.
  2: { wp_step. naive_solver. }
  destruct (String.eqb_spec (UID (pod_Meta pod)) uid) as [Huid|Huid]; cbn [negb].
  2: { wp_step. do 2 eexists. split; [done|]. rewrite decide_False by done. split; [done|].
       eexists. split; [done|]. reflexivity. }
  destruct (decide (UID (pod_Meta pod) = uid)) as [_|]; [|done].
  destruct (Labels (pod_Meta pod) !! RouteLabel) as [routeName|] eqn:Elabel.
  2: { wp_step. do 2 eexists. split; [done|]. cbn. naive_solver. }
  destruct (IsDNS1123Label routeName); cbn [negb].
  2: { wp_step. do 2 eexists. split; [done|]. cbn. naive_solver. }
  do 2 wp_step. wp_run r w2 Eroute. destruct r as [route|e]; cbn beta iota.
  2: { destruct (IsNotFound e); wp_step; do 2 eexists; (split; [done|]); cbn; naive_solver. }
  destruct (rs_ObservedGeneration (rt_Status route) =? Generation (rt_Meta route)) eqn:Eg; cbn [negb].
  2: { wp_step. do 2 eexists. split; [done|]. cbn. naive_solver. }
  apply Z.eqb_eq in Eg.
  destruct (summary_blocker _ _ _) as [reason|] eqn:Eb.
  - wp_step. do 2 eexists. split; [done|]. cbn. naive_solver.
  - wp_step. do 2 eexists. split; [done|]. cbn. split_and!; [done|done|]. intros _. split; [done|].
    exists routeName, route. rewrite Eroute, Eg. split_and!; try done. by apply summary_blocker_none.
Qed.

(** Enrollment is decided by the Pod's label alone.  Whenever the Pod
    is readable under its exact UID, the resolution says Enrolled exactly when
    the enrollment label is present, whatever happens while its route is read:
    a missing, unreadable, stale or unready route never makes an enrolled Pod
    look unenrolled. *)
Theorem Resolve_enrolled_by_label namespace name uid w w1 pod :
  k8s_Get (T := Pod) (mkObjectKey namespace name) w = (Ok pod, w1) ->
  UID (pod_Meta pod) = uid ->
  wp (Resolve namespace name uid)
    (fun r _ => exists res err, r = Ok (res, err) /\ PodUID res = uid /\
       Enrolled res = bool_decide (is_Some (Labels (pod_Meta pod) !! RouteLabel))) w.
Proof.
  intros Epod Huid. eapply wp_mono; [apply Resolve_spec|].
  intros r w' (res & err & -> & Hres). rewrite Epod, decide_True in Hres by done. naive_solver.
Qed.

(** A resolution that says Ready carries the UID of a route whose four
    summary conditions are all True for the route's current generation, and
    no error. *)
Theorem Resolve_ready_sound namespace name uid w :
  wp (Resolve namespace name uid)
    (fun r _ => forall res err, r = Ok (res, err) -> Ready res = true ->
       err = None /\ Enrolled res = true /\ PodUID res = uid /\
       exists route, RouteUID res = UID (rt_Meta route) /\
         Forall (fun t => CurrentTrue (rs_Conditions (rt_Status route)) t
                   (rs_ObservedGeneration (rt_Status route)) (Generation (rt_Meta route)) = true)
           SummaryOrder) w.
Proof.
  eapply wp_mono; [apply Resolve_spec|].
  intros r w' (res & err & -> & Hres) res' err' [= <- <-] Hready.
  destruct (k8s_Get _ w) as [[pod|e] w1]; [|naive_solver].
  destruct (decide _) as [Huid|]; [|naive_solver].
  destruct Hres as (Hp & Hen & Hr). destruct (Hr Hready) as (-> & rn & route & Hl & _ & Hu & _ & HF).
  split_and!; [done| |done|].
  - rewrite Hen. by apply bool_decide_eq_true.
  - by exists route.
Qed.

End Resolver.

(** [HasAlphaAnnotation]: some annotation key is in the alpha name space. *)
Definition HasAlphaAnnotation (annotations : gmap string string) : bool :=
  existsb (fun key => HasPrefix key "networking.waycloak.io/" ||
                      HasPrefix key "internal.networking.waycloak.io/")
    (map fst (map_to_list annotations)).

(** ** A concrete API server for the witness *)

Definition sample_meta (labels : gmap string string) : ObjectMeta :=
  mkObjectMeta "media" "client" "pod-1" 1 None labels ∅ [] [].

#[local] Instance sample_pods : Getter unit Pod := fun _ w =>
  (Ok (mkPod (sample_meta {[RouteLabel := "private"]}) "node-a" "Running" ""), w).
#[local] Instance sample_routes : Getter unit VPNEgressRoute := fun _ w =>
  (Fail (EStatus ReasonNotFound), w).

Lemma Resolve_enrolled_by_label_witness :
  wp (Resolve (fun _ => true) "media" "client" "pod-1")
    (fun r _ => exists res err, r = Ok (res, err) /\ PodUID res = "pod-1" /\ Enrolled res = true) tt.
Proof.
  eapply wp_mono.
  - apply (Resolve_enrolled_by_label (fun _ => true) "media" "client" "pod-1" tt tt
      (mkPod (sample_meta {[RouteLabel := "private"]}) "node-a" "Running" "")); reflexivity.
  - intros r w (res & err & -> & Hp & He). exists res, err. split_and!; [done|done|].
    rewrite He. by vm_compute.
Defined.
