(* ===== verification/Reference.v ===== *)
(** * Cross-namespace references (internal/reference)

    [GatewayAuthorizer] decides whether a route or lease may use a gateway of
    another namespace; [DependencyMapper] fans changes of gateways, classes
    and namespaces out to the objects that depend on them. *)

From Stdlib Require Import Ascii.
From S2P Require Import Prelude Api Kube.

(** A core Namespace, as far as consent reads it. *)
Record CoreNamespace := mkCoreNamespace { ns_Meta : ObjectMeta }.

Record GatewayResolution := mkGatewayResolution {
  Permitted : bool;
  Gateway : option VPNGateway
}.

Definition refused : GatewayResolution := mkGatewayResolution false None.

Definition errReferenceRequired : error := ENew "source namespace and gateway reference are required".

Section Authorizer.
Context {W : Type} `{Getter W VPNGateway} `{Getter W CoreNamespace}.

(** apimachinery's [LabelSelectorAsSelector] and the selector's [Matches]. *)
Variable LabelSelectorAsSelector : LabelSelector -> res (gmap string string -> bool).

Definition ResolveGateway (sourceNamespace : string) (ref : NamespacedObjectReference) :
    IO W GatewayResolution :=
  if str_empty sourceNamespace || str_empty (nor_Namespace ref) || str_empty (nor_Name ref)
  then io_fail errReferenceRequired
  else
    gatewayResult ← io_try (k8s_Get (T := VPNGateway) (mkObjectKey (nor_Namespace ref) (nor_Name ref)));
    if String.eqb sourceNamespace (nor_Namespace ref) then
      match gatewayResult with
      | Fail err => if IsNotFound err then mret (mkGatewayResolution true None)
                    else io_fail (Errorf "observe local gateway reference" err)
      | Ok gateway => mret (mkGatewayResolution true (Some gateway))
      end
    else
      match gatewayResult with
      | Fail err => if IsNotFound err then mret refused
                    else io_fail (Errorf "observe remote gateway consent" err)
      | Ok gateway =>
          let from := gw_AllowedFrom gateway in
          if String.eqb from "" || String.eqb from RouteNamespaceSame then mret refused
          else if String.eqb from RouteNamespaceAll
          then mret (mkGatewayResolution true (Some gateway))
          else if String.eqb from RouteNamespaceSelector then
            match gw_AllowedSelector gateway with
            | None => mret refused
            | Some labelSelector =>
                match LabelSelectorAsSelector labelSelector with
                | Fail _ => mret refused
                | Ok matches =>
                    namespace ← io_wrap "observe source namespace policy labels"
                      (k8s_Get (T := CoreNamespace) (mkObjectKey "" sourceNamespace));
                    if negb (matches (Labels (ns_Meta namespace))) then mret refused
                    else mret (mkGatewayResolution true (Some gateway))
                end
            end
          else mret refused
      end.

(** ** Consent, without the reading *)

(** The gateway owner's consent, given the labels of the asking namespace. *)
Definition consents (gateway : VPNGateway) (labels : gmap string string) : bool :=
  String.eqb (gw_AllowedFrom gateway) RouteNamespaceAll ||
  (String.eqb (gw_AllowedFrom gateway) RouteNamespaceSelector &&
   match gw_AllowedSelector gateway with
   | Some labelSelector =>
       match LabelSelectorAsSelector labelSelector with Ok matches => matches labels | Fail _ => false end
   | None => false
   end).

Definition well_formed_reference (sourceNamespace : string) (ref : NamespacedObjectReference) : Prop :=
  sourceNamespace <> "" /\ nor_Namespace ref <> "" /\ nor_Name ref <> "".

Lemma reference_guard sourceNamespace ref :
  well_formed_reference sourceNamespace ref ->
  str_empty sourceNamespace || str_empty (nor_Namespace ref) || str_empty (nor_Name ref) = false.
Proof.
  intros (H1 & H2 & H3). unfold str_empty.
  by repeat match goal with Hn : ?s <> "" |- _ => apply String.eqb_neq in Hn; rewrite Hn; clear Hn end.
Qed.

(** The API server answers reads of the gateway and of the asking namespace. *)
Definition observed (sourceNamespace : string) (ref : NamespacedObjectReference) (w : W)
    (gateway : option VPNGateway) (labels : gmap string string) : Prop :=
  exists w1, match gateway with
             | Some g => k8s_Get (T := VPNGateway) (mkObjectKey (nor_Namespace ref) (nor_Name ref)) w = (Ok g, w1)
             | None => exists err, IsNotFound err = true /\
                 k8s_Get (T := VPNGateway) (mkObjectKey (nor_Namespace ref) (nor_Name ref)) w = (Fail err, w1)
             end /\
    exists meta w2, Labels meta = labels /\
      k8s_Get (T := CoreNamespace) (mkObjectKey "" sourceNamespace) w1 = (Ok (mkCoreNamespace meta), w2).

(** With the gateway and the asking namespace readable, the result is the
    owner's consent and the gateway snapshot it was decided on. *)
Lemma ResolveGateway_result sourceNamespace ref w gateway labels :
  well_formed_reference sourceNamespace ref ->
  observed sourceNamespace ref w gateway labels ->
  (ResolveGateway sourceNamespace ref w).1 =
    Ok (if String.eqb sourceNamespace (nor_Namespace ref) then mkGatewayResolution true gateway
        else match gateway with
             | Some g => if consents g labels then mkGatewayResolution true (Some g) else refused
             | None => refused
             end).
Proof.
  intros Hwf (w1 & Hg & meta & w2 & <- & Hns). unfold ResolveGateway.
  rewrite reference_guard by done. unfold mbind, io_bind, io_try.
  destruct gateway as [g|].
  2: { destruct Hg as (err & Hnf & ->). rewrite Hnf. by destruct (String.eqb _ _). }
  rewrite Hg. destruct (String.eqb sourceNamespace _); [done|]. unfold consents.
  destruct (String.eqb_spec (gw_AllowedFrom g) "") as [->|_]; [done|].
  destruct (String.eqb_spec (gw_AllowedFrom g) RouteNamespaceSame) as [->|_]; [done|].
  destruct (String.eqb (gw_AllowedFrom g) RouteNamespaceAll); [done|].
  destruct (String.eqb (gw_AllowedFrom g) RouteNamespaceSelector); [|done]. cbn [orb andb].
  destruct (gw_AllowedSelector g) as [sel|]; [|done].
  destruct (LabelSelectorAsSelector sel) as [matches|]; [|done].
  unfold io_wrap. rewrite Hns. cbn. by destruct (matches _).
Qed.

(** A gateway of another namespace that is missing and one that exists but does
    not consent give the same result. *)
Lemma ResolveGateway_no_oracle sourceNamespace ref w_missing w_present g labels labels' :
  well_formed_reference sourceNamespace ref ->
  sourceNamespace <> nor_Namespace ref ->
  observed sourceNamespace ref w_missing None labels ->
  observed sourceNamespace ref w_present (Some g) labels' ->
  consents g labels' = false ->
  (ResolveGateway sourceNamespace ref w_missing).1 = (ResolveGateway sourceNamespace ref w_present).1.
Proof.
  intros Hwf Hne%String.eqb_neq Hmissing Hpresent Hc.
  rewrite (ResolveGateway_result _ _ _ _ _ Hwf Hmissing), (ResolveGateway_result _ _ _ _ _ Hwf Hpresent).
  by rewrite Hne, Hc.
Qed.

(** The owner admits every namespace, or the labels that were read for the asking
    namespace right after the gateway. *)
Definition consent_read (sourceNamespace : string) (ref : NamespacedObjectReference) (gateway : VPNGateway) (w : W) : Prop :=
  gw_AllowedFrom gateway = RouteNamespaceAll \/
  exists namespace,
    let w1 := (k8s_Get (T := VPNGateway) (mkObjectKey (nor_Namespace ref) (nor_Name ref)) w).2 in
    (k8s_Get (T := CoreNamespace) (mkObjectKey "" sourceNamespace) w1).1 = Ok namespace /\
    consents gateway (Labels (ns_Meta namespace)) = true.

(** Whatever the API server answers, a gateway is handed out only inside its own
    namespace or when that very snapshot consents to labels read for the asking
    namespace. *)
Lemma ResolveGateway_sound sourceNamespace ref w :
  wp (ResolveGateway sourceNamespace ref)
    (fun r _ => forall resolution gateway, r = Ok resolution -> Permitted resolution = true ->
       Gateway resolution = Some gateway ->
       (k8s_Get (T := VPNGateway) (mkObjectKey (nor_Namespace ref) (nor_Name ref)) w).1 = Ok gateway /\
       (sourceNamespace = nor_Namespace ref \/ consent_read sourceNamespace ref gateway w)) w.
Proof.
  unfold ResolveGateway. destruct (_ || _); [by wp_step|].
  do 2 wp_step. wp_run g w1 Eg. destruct (String.eqb_spec sourceNamespace (nor_Namespace ref)) as [->|].
  { destruct g as [g|err]; [|destruct (IsNotFound err)]; wp_step; intros ? ? [= <-] _; cbn; [|done|done..].
    intros [= <-]. auto. }
  destruct g as [g|err]; [|destruct (IsNotFound err); by wp_step; intros ? ? [= <-]].
  assert (forall (Q : GatewayResolution -> VPNGateway -> Prop) (w' : W), wp (mret refused)
    (fun r _ => forall resolution gateway, r = Ok resolution -> Permitted resolution = true ->
       Gateway resolution = Some gateway -> Q resolution gateway) w')
    as Hrefused
    by (intros Q w'; wp_step; by intros ? ? [= <-]).
  cbn beta iota zeta. destruct (String.eqb _ "" || _); [apply Hrefused|].
  destruct (String.eqb (gw_AllowedFrom g) RouteNamespaceAll) eqn:Eall.
  { wp_step. intros ? ? [= <-] _ [= <-]. split; [done|]. right. left. by apply String.eqb_eq. }
  destruct (String.eqb (gw_AllowedFrom g) RouteNamespaceSelector) eqn:Esel; [|apply Hrefused].
  destruct (gw_AllowedSelector g) as [sel|] eqn:Eas; [|apply Hrefused].
  destruct (LabelSelectorAsSelector sel) as [matches|] eqn:Em; [|apply Hrefused].
  do 2 wp_step. wp_run read w2 Ens. destruct read as [ns|]; cbn [after]; [|done].
  destruct (matches (Labels (ns_Meta ns))) eqn:Ematch; cbn [negb]; [|apply Hrefused].
  wp_step. intros ? ? [= <-] _ [= <-]. split; [done|]. right. right. exists ns. rewrite Eg. cbn. rewrite Ens. split; [done|].
  unfold consents. by rewrite Esel, Eas, Em, Ematch, orb_true_r.
Qed.

End Authorizer.

(** ** Dependency fan-out *)

Definition RouteParentIndex : string := "networking.waycloak.io/route-parent".
Definition GatewayClassIndex : string := "networking.waycloak.io/gateway-class".
Definition LeaseGatewayIndex : string := "networking.waycloak.io/lease-gateway".

Definition namespacedKey (namespace name : string) : string := namespace +:+ "/" +:+ name.

Definition RouteParentIndexValues (route : VPNEgressRoute) : list string :=
  match rt_ParentRefs (rt_Spec route) with
  | [parent] => [namespacedKey (gpr_Namespace parent) (gpr_Name parent)]
  | _ => []
  end.

Definition GatewayClassIndexValues (gateway : VPNGateway) : list string := [gw_GatewayClassName (gw_Spec gateway)].

Definition LeaseGatewayIndexValues (lease : PortForwardLease) : list string :=
  [namespacedKey (nor_Namespace (pl_GatewayRef (pl_Spec lease))) (nor_Name (pl_GatewayRef (pl_Spec lease)))].

(** A [reconcile.Request] is the key of the object to reconcile. *)
Definition requestFor (m : ObjectMeta) : ObjectKey := key_of m.

(** The loop that keeps the first of each run of equal keys. *)
Fixpoint drop_repeats (last : ObjectKey) (requests : list ObjectKey) : list ObjectKey :=
  match requests with
  | [] => []
  | request :: rest =>
      if decide (request <> last) then request :: drop_repeats request rest else drop_repeats last rest
  end.

Definition SortedUniqueRequests (requests : list ObjectKey) : list ObjectKey :=
  match sort_by ObjectKey_String requests with
  | [] => []
  | first :: rest => first :: drop_repeats first rest
  end.

(** A failed list is an empty fan-out. *)
Definition listed {W A} (m : IO W (list A)) : IO W (list A) :=
  r ← io_try m; mret (match r with Ok l => l | Fail _ => [] end).

(** [for i := range items { requests = append(requests, f(items[i])...) }]. *)
Fixpoint io_flat_map {W A B} (f : A -> IO W (list B)) (xs : list A) : IO W (list B) :=
  match xs with
  | [] => mret []
  | x :: xs' => l ← f x; rest ← io_flat_map f xs'; mret (l ++ rest)
  end.

Section Mapper.
Context {W : Type} `{Lister W VPNEgressRoute} `{Lister W VPNGateway} `{Lister W PortForwardLease}.

Definition RoutesForGateway (gateway : ObjectMeta) : IO W (list ObjectKey) :=
  routes ← listed (k8s_List (T := VPNEgressRoute)
    (MatchingFields RouteParentIndex (namespacedKey (Namespace gateway) (Name gateway))));
  mret (SortedUniqueRequests (map (fun route => requestFor (rt_Meta route)) routes)).

Definition LeasesForGateway (gateway : ObjectMeta) : IO W (list ObjectKey) :=
  leases ← listed (k8s_List (T := PortForwardLease)
    (MatchingFields LeaseGatewayIndex (namespacedKey (Namespace gateway) (Name gateway))));
  mret (SortedUniqueRequests (map (fun lease => requestFor (pl_Meta lease)) leases)).

Definition RoutesForGatewayClass (gatewayClass : ObjectMeta) : IO W (list ObjectKey) :=
  gateways ← listed (k8s_List (T := VPNGateway) (MatchingFields GatewayClassIndex (Name gatewayClass)));
  requests ← io_flat_map (fun gateway => RoutesForGateway (gw_Meta gateway)) gateways;
  mret (SortedUniqueRequests requests).

Definition LeasesForGatewayClass (gatewayClass : ObjectMeta) : IO W (list ObjectKey) :=
  gateways ← listed (k8s_List (T := VPNGateway) (MatchingFields GatewayClassIndex (Name gatewayClass)));
  requests ← io_flat_map (fun gateway => LeasesForGateway (gw_Meta gateway)) gateways;
  mret (SortedUniqueRequests requests).

Definition RoutesForNamespace (namespace : ObjectMeta) : IO W (list ObjectKey) :=
  routes ← listed (k8s_List (T := VPNEgressRoute) (InNamespace (Name namespace)));
  mret (SortedUniqueRequests (map (fun route => requestFor (rt_Meta route)) routes)).

Definition LeasesForNamespace (namespace : ObjectMeta) : IO W (list ObjectKey) :=
  leases ← listed (k8s_List (T := PortForwardLease) (InNamespace (Name namespace)));
  mret (SortedUniqueRequests (map (fun lease => requestFor (pl_Meta lease)) leases)).

End Mapper.

(** ** Requests are sorted and unique *)

Lemma drop_repeats_elem last requests k :
  k ∈ last :: drop_repeats last requests <-> k ∈ last :: requests.
Proof.
  revert last. induction requests as [|r requests IH]; intros last; cbn; [done|].
  destruct (decide (r <> last)) as [Hne|Heq].
  - specialize (IH r). set_solver.
  - rewrite IH. apply dec_stable in Heq as ->. set_solver.
Qed.

Lemma SortedUniqueRequests_elem requests k : k ∈ SortedUniqueRequests requests <-> k ∈ requests.
Proof.
  unfold SortedUniqueRequests. pose proof (sort_by_perm ObjectKey_String requests) as Hp.
  destruct (sort_by ObjectKey_String requests) as [|k' l]; rewrite <- Hp; [done|].
  apply drop_repeats_elem.
Qed.

(** Two requests with the same printed key are the same request. *)
Definition printable (requests : list ObjectKey) : Prop :=
  forall k k', k ∈ requests -> k' ∈ requests -> ObjectKey_String k = ObjectKey_String k' -> k = k'.

Lemma drop_repeats_nodup last requests :
  StronglySorted (key_le ObjectKey_String) (last :: requests) -> printable (last :: requests) ->
  NoDup (last :: drop_repeats last requests).
Proof.
  revert last. induction requests as [|r requests IH]; intros last Hs Hinj; cbn.
  { apply NoDup_singleton. }
  apply StronglySorted_inv in Hs as [Hs Hle].
  destruct (decide (r <> last)) as [Hne|Heq].
  - assert (NoDup (r :: drop_repeats r requests)) as IHr.
    { apply IH; [done|]. intros k k' Hk Hk'. apply Hinj; by apply list_elem_of_further. }
    apply NoDup_cons. split; [|done].
    intros Hlast. apply (proj1 (drop_repeats_elem _ _ _)) in Hlast. apply Hne. apply Hinj; [set_solver..|].
    apply (anti_symm String.le).
    + apply StronglySorted_inv in Hs as [_ Hr]. apply elem_of_cons in Hlast as [->|Hin]; [done|].
      rewrite Forall_forall in Hr. exact (Hr _ Hin).
    + rewrite Forall_forall in Hle. apply Hle. set_solver.
  - apply IH.
    + constructor; [by apply StronglySorted_inv in Hs as [? _]|]. by apply Forall_cons in Hle as [_ ?].
    + intros k k' Hk Hk'. apply Hinj; set_solver.
Qed.

Lemma SortedUniqueRequests_nodup requests : printable requests -> NoDup (SortedUniqueRequests requests).
Proof.
  intros Hinj. unfold SortedUniqueRequests.
  pose proof (sort_by_sorted ObjectKey_String requests) as Hs.
  pose proof (sort_by_perm ObjectKey_String requests) as Hp.
  destruct (sort_by ObjectKey_String requests) as [|k l]; [by apply NoDup_nil|].
  apply drop_repeats_nodup; [done|]. intros k1 k2. rewrite Hp. apply Hinj.
Qed.

(** Namespaces are DNS labels and hold no slash, so printed keys are exact. *)
Fixpoint no_slash (s : string) : bool :=
  match s with
  | EmptyString => true
  | String c s' => negb (Ascii.eqb c "/"%char) && no_slash s'
  end.

Lemma namespacedKey_inj ns n ns' n' :
  no_slash ns = true -> no_slash ns' = true -> namespacedKey ns n = namespacedKey ns' n' ->
  ns = ns' /\ n = n'.
Proof.
  unfold namespacedKey. revert ns'. induction ns as [|c ns IH]; intros [|c' ns'] H1 H2 Heq.
  - split; [done|]. by injection Heq.
  - injection Heq as Hc _. cbn in H2. by rewrite <- Hc in H2.
  - injection Heq as Hc _. cbn in H1. by rewrite Hc in H1.
  - cbn in H1, H2. apply andb_prop in H1 as [_ H1]. apply andb_prop in H2 as [_ H2].
    injection Heq as -> Heq. destruct (IH ns' H1 H2) as [-> ->]; [|done]. done.
Qed.

(** ** The client's documented listing

    A list returns exactly the stored objects its option selects: those of
    the namespace, or those whose registered index has the value. *)
Definition selected {T} (meta : T -> ObjectMeta) (index : string) (values : T -> list string)
    (opt : ListOption) (o : T) : Prop :=
  match opt with
  | ListAll => True
  | InNamespace ns => Namespace (meta o) = ns
  | MatchingLabels ns labels =>
      Namespace (meta o) = ns /\ map_Forall (fun k v => Labels (meta o) !! k = Some v) labels
  | MatchingFields i v => i = index /\ v ∈ values o
  | NamespaceMatchingFields ns i v => Namespace (meta o) = ns /\ i = index /\ v ∈ values o
  end.

Class ListLaw (W T : Type) `{Lister W T} (meta : T -> ObjectMeta) (index : string)
    (values : T -> list string) (stored : list T) :=
  list_law : forall opt (w : W), exists l, k8s_List opt w = (Ok l, w) /\
    forall o, o ∈ l <-> o ∈ stored /\ selected meta index values opt o.

Section FanOut.
Context {W : Type} `{Lister W VPNEgressRoute} `{Lister W VPNGateway}.
Context (routes : list VPNEgressRoute) (gateways : list VPNGateway).
Context `{!ListLaw W VPNEgressRoute rt_Meta RouteParentIndex RouteParentIndexValues routes}.
Context `{!ListLaw W VPNGateway gw_Meta GatewayClassIndex GatewayClassIndexValues gateways}.

(** The route names the gateway as its only parent. *)
Definition parented (gateway : ObjectMeta) (route : VPNEgressRoute) : Prop :=
  exists parent, rt_ParentRefs (rt_Spec route) = [parent] /\
    namespacedKey (gpr_Namespace parent) (gpr_Name parent) = namespacedKey (Namespace gateway) (Name gateway).

Lemma parent_index gateway route :
  namespacedKey (Namespace gateway) (Name gateway) ∈ RouteParentIndexValues route <-> parented gateway route.
Proof.
  unfold RouteParentIndexValues, parented. split.
  - destruct (rt_ParentRefs (rt_Spec route)) as [|parent [|]]; [set_solver| |set_solver].
    intros Heq%list_elem_of_singleton. eauto.
  - intros (parent & -> & ->). set_solver.
Qed.

Lemma RoutesForGateway_run gateway (w : W) :
  exists keys, RoutesForGateway gateway w = (Ok keys, w) /\
    forall k, k ∈ keys <-> exists route, route ∈ routes /\ k = requestFor (rt_Meta route) /\ parented gateway route.
Proof.
  destruct (list_law (T := VPNEgressRoute) (MatchingFields RouteParentIndex
    (namespacedKey (Namespace gateway) (Name gateway))) w) as (l & El & Hl).
  unfold RoutesForGateway, listed, mbind, io_bind, io_try. rewrite El. eexists. split; [done|].
  intros k. rewrite SortedUniqueRequests_elem, list_elem_of_fmap. cbn in Hl.
  setoid_rewrite Hl. setoid_rewrite parent_index. naive_solver.
Qed.

Lemma io_flat_map_run {A B} (f : A -> IO W (list B)) (P : A -> B -> Prop) (w : W) xs :
  (forall x, x ∈ xs -> exists l, f x w = (Ok l, w) /\ forall b, b ∈ l <-> P x b) ->
  exists l, io_flat_map f xs w = (Ok l, w) /\ forall b, b ∈ l <-> exists x, x ∈ xs /\ P x b.
Proof.
  induction xs as [|x xs IH]; intros Hf; cbn.
  { exists []. split; [done|]. set_solver. }
  destruct (Hf x) as (l & El & Hl); [set_solver|].
  destruct IH as (l' & El' & Hl'); [intros; apply Hf; set_solver|].
  exists (l ++ l'). unfold mbind, io_bind. rewrite El, El'. split; [done|].
  intros b. rewrite elem_of_app, Hl, Hl'. set_solver.
Qed.

(** Dependency fan-out is exact.  When a gateway class changes, the
    routes that are reconciled are precisely the stored routes whose single
    parent is a stored gateway of that class, each of them exactly once. *)
Theorem RoutesForGatewayClass_exact gatewayClass (w : W) :
  Forall (fun route => no_slash (Namespace (rt_Meta route)) = true) routes ->
  exists keys, RoutesForGatewayClass gatewayClass w = (Ok keys, w) /\ NoDup keys /\
    forall k, k ∈ keys <-> exists route gateway, route ∈ routes /\ gateway ∈ gateways /\
      k = key_of (rt_Meta route) /\ gw_GatewayClassName (gw_Spec gateway) = Name gatewayClass /\
      parented (gw_Meta gateway) route.
Proof.
  intros Hns.
  destruct (list_law (T := VPNGateway) (MatchingFields GatewayClassIndex (Name gatewayClass)) w)
    as (gs & Eg & Hg). cbn in Hg.
  destruct (io_flat_map_run (fun gateway => RoutesForGateway (gw_Meta gateway))
    (fun gateway k => exists route, route ∈ routes /\ k = requestFor (rt_Meta route) /\
                      parented (gw_Meta gateway) route) w gs) as (l & El & Hl).
  { intros g _. apply RoutesForGateway_run. }
  unfold RoutesForGatewayClass, listed, mbind, io_bind, io_try. rewrite Eg. cbn -[io_flat_map].
  rewrite El. eexists. split; [done|]. split.
  - apply SortedUniqueRequests_nodup. intros k k'. rewrite !Hl.
    intros (g & _ & route & Hr & -> & _) (g' & _ & route' & Hr' & -> & _) Heq.
    rewrite Forall_forall in Hns. unfold requestFor, key_of in *.
    apply namespacedKey_inj in Heq as [E1 E2]; [|by apply Hns..]. cbn in E1, E2. by rewrite E1, E2.
  - intros k. rewrite SortedUniqueRequests_elem, Hl. setoid_rewrite Hg.
    unfold GatewayClassIndexValues. setoid_rewrite list_elem_of_singleton. unfold requestFor. split.
    + intros (g & (Hin & _ & Hc) & route & Hr & -> & Hp). exists route, g. auto.
    + intros (route & g & Hr & Hin & -> & Hc & Hp). exists g. split; [auto|]. exists route. auto.
Qed.

End FanOut.

(** ** Witnesses: an API server holding two gateways and two routes *)

Module Sample.

Definition meta (ns name : string) : ObjectMeta := mkObjectMeta ns name "uid" 1 None ∅ ∅ [] [].

Definition gateway (from class : string) : VPNGateway :=
  mkVPNGateway (meta "vpn" "gw")
    (mkVPNGatewaySpec class [] [] [] (mkAllowedRoutes (mkRouteNamespaces from None))
       (mkClusterTraffic ClusterTrafficTunnelAll []) DNSModeGateway (mkGatewayPlacement ∅ []))
    (mkVPNGatewayStatus 0 None [] [] []).

Definition route (ns name : string) : VPNEgressRoute :=
  mkVPNEgressRoute (meta ns name)
    (mkVPNEgressRouteSpec [mkGatewayParentReference "networking.waycloak.io" "VPNGateway" "vpn" "gw"] [])
    (mkVPNEgressRouteStatus 0 [] []).

(** The world says whether the gateway exists. *)
#[local] Instance gateway_getter : Getter bool VPNGateway := fun _ w =>
  (if w then Ok (gateway RouteNamespaceSame "c") else Fail (EStatus ReasonNotFound), w).
#[local] Instance namespace_getter : Getter bool CoreNamespace := fun key w =>
  (Ok (mkCoreNamespace (meta "" (key_Name key))), w).

Definition selector_all (s : LabelSelector) : res (gmap string string -> bool) := Ok (fun _ => true).

Definition remote_ref : NamespacedObjectReference := mkNamespacedObjectReference "vpn" "gw".

Definition stored_routes : list VPNEgressRoute := [route "media" "a"; route "media" "b"].
Definition stored_gateways : list VPNGateway := [gateway RouteNamespaceAll "c"].

(** Listing filters the stored objects, as the API server does. *)
Definition selects {T} (m : T -> ObjectMeta) (index : string) (values : T -> list string)
    (opt : ListOption) (o : T) : bool :=
  match opt with
  | ListAll => true
  | InNamespace ns => String.eqb (Namespace (m o)) ns
  | MatchingLabels ns labels =>
      String.eqb (Namespace (m o)) ns && bool_decide (map_Forall (fun k v => Labels (m o) !! k = Some v) labels)
  | MatchingFields i v => String.eqb i index && contains_string (values o) v
  | NamespaceMatchingFields ns i v => String.eqb (Namespace (m o)) ns && String.eqb i index && contains_string (values o) v
  end.

#[local] Instance route_lister : Lister unit VPNEgressRoute := fun opt w =>
  (Ok (List.filter (selects rt_Meta RouteParentIndex RouteParentIndexValues opt) stored_routes), w).
#[local] Instance gateway_lister : Lister unit VPNGateway := fun opt w =>
  (Ok (List.filter (selects gw_Meta GatewayClassIndex GatewayClassIndexValues opt) stored_gateways), w).

Lemma selects_spec {T} (m : T -> ObjectMeta) index values opt o :
  selects m index values opt o = true <-> selected m index values opt o.
Proof.
  destruct opt as [|ns|ns labels|i v|ns i v]; cbn; [by split|apply String.eqb_eq| | |].
  - by rewrite andb_true_iff, String.eqb_eq, bool_decide_eq_true.
  - by rewrite andb_true_iff, String.eqb_eq, contains_string_spec.
  - rewrite !andb_true_iff, !String.eqb_eq, contains_string_spec. tauto.
Qed.

#[local] Instance route_list_law :
  ListLaw unit VPNEgressRoute rt_Meta RouteParentIndex RouteParentIndexValues stored_routes.
Proof.
  intros opt w. eexists. split; [reflexivity|]. intros o.
  by rewrite !list_elem_of_In, filter_In, selects_spec.
Qed.
#[local] Instance gateway_list_law :
  ListLaw unit VPNGateway gw_Meta GatewayClassIndex GatewayClassIndexValues stored_gateways.
Proof.
  intros opt w. eexists. split; [reflexivity|]. intros o.
  by rewrite !list_elem_of_In, filter_In, selects_spec.
Qed.

Lemma RoutesForGatewayClass_exact_witness :
  exists keys, RoutesForGatewayClass (meta "" "c") tt = (Ok keys, tt) /\ NoDup keys /\
    mkObjectKey "media" "b" ∈ keys.
Proof.
  destruct (RoutesForGatewayClass_exact stored_routes stored_gateways (meta "" "c") tt)
    as (keys & Hrun & Hnd & Hkeys).
  - by repeat constructor.
  - exists keys. split_and!; [done|done|]. apply Hkeys.
    exists (route "media" "b"), (gateway RouteNamespaceAll "c"). split_and!; [set_solver..|done|done|].
    eexists. split; reflexivity.
Defined.

End Sample.
