(* ===== verification/ClassController.v ===== *)
(** * The gateway class controller (internal/controller/vpngatewayclass_controller.go)

    The reconciler compares a VPNGatewayClass with the release it was built
    for and publishes the four summary conditions. *)

From S2P Require Import Prelude Api Conditions Kube.

Definition DefaultGatewayControllerName : string := "gluetun.waycloak.io/controller".

(** The pattern [^sha256:[a-f0-9]{64}$]. *)
Definition is_lower_hex (c : Ascii.ascii) : bool :=
  let n := Ascii.nat_of_ascii c in
  ((48 <=? n) && (n <=? 57) || (97 <=? n) && (n <=? 102))%nat.

Definition releaseDigestPattern (s : string) : bool :=
  HasPrefix s "sha256:" &&
  (String.length s =? 71)%nat &&
  forallb is_lower_hex (String.list_ascii_of_string (drop_string 7 s)).

Definition ValidReleaseIdentity (identity : ReleaseIdentity) : bool :=
  (0 <? String.length (ri_Version identity))%nat && (String.length (ri_Version identity) <=? 128)%nat &&
  releaseDigestPattern (ri_ManifestDigest identity).

Definition sameFeatures (left right : list string) : bool :=
  (length left =? length right)%nat && bool_decide (sort_by id left = sort_by id right).

Record VPNGatewayClassReconciler := mkVPNGatewayClassReconciler {
  cr_ControllerName : string;
  cr_ReleaseIdentity : ReleaseIdentity;
  cr_ConformanceProfile : string;
  cr_SupportedFeatures : list string
}.

(** The class names exactly the release this controller implements. *)
Definition class_matches_release (identity : ReleaseIdentity) (profile : string) (class : VPNGatewayClass) : bool :=
  bool_decide (gc_ReleaseIdentity (gc_Spec class) = identity) &&
  String.eqb (gc_ConformanceProfile (gc_Spec class)) profile.

Definition FieldManagerClassController : string := "waycloak-class-controller".

Section ClassController.
Context `{ApiMeta}.
Context (r : VPNGatewayClassReconciler).

(** The four stages of [desiredStatus], in the order in which they overwrite
    the condition states. *)
Definition class_available : gmap string State :=
  <[ConditionAccepted := True_ ReasonAccepted "Gateway class is accepted"]>
  (<[ConditionResolvedRefs := True_ ReasonResolvedRefs "Gateway class references are resolved"]>
  (<[ConditionProgrammed := True_ ReasonProgrammed "Gateway class is available to the controller"]>
  (<[ConditionReady := True_ ReasonReady "Gateway class release and profile are available"]> ∅))).

Definition class_release_states (class : VPNGatewayClass) (states : gmap string State) : gmap string State :=
  if negb (class_matches_release (cr_ReleaseIdentity r) (cr_ConformanceProfile r) class) then
    <[ConditionReady := False_ ReasonNotReady "Gateway class is unavailable"]>
    (<[ConditionProgrammed := False_ ReasonPending "Unsupported gateway class is not registered"]>
    (<[ConditionAccepted := False_ ReasonUnsupportedClass "Gateway class release or conformance identity is unsupported"]> states))
  else if negb (sameFeatures (gc_SupportedFeatures (gc_Spec class)) (cr_SupportedFeatures r)) then
    <[ConditionReady := False_ ReasonNotReady "Gateway class is unavailable"]>
    (<[ConditionProgrammed := False_ ReasonPending "Unsupported gateway class is not registered"]>
    (<[ConditionAccepted := False_ ReasonUnsupportedFeature "Gateway class feature set does not match the release"]> states))
  else states.

Definition class_parameter_states (class : VPNGatewayClass) (states : gmap string State) : gmap string State :=
  match gc_ParametersRef (gc_Spec class) with
  | Some _ =>
      <[ConditionReady := False_ ReasonNotReady "Gateway class is unavailable"]>
      (<[ConditionProgrammed := False_ ReasonPending "Gateway class parameters are not registered"]>
      (<[ConditionResolvedRefs := False_ ReasonIncompatibleRef "Gateway class parameters are incompatible"]>
      (<[ConditionAccepted := False_ ReasonUnsupportedClass "Gateway class parameters are not supported by this release"]> states)))
  | None => states
  end.

Definition class_deletion_states (class : VPNGatewayClass) (states : gmap string State) : gmap string State :=
  if negb (not_deleting (gc_Meta class)) then
    <[ConditionReady := False_ ReasonNotReady "Gateway class is unavailable"]>
    (<[ConditionProgrammed := False_ ReasonPending "Deleting gateway class is not available"]>
    (<[ConditionAccepted := False_ ReasonDeleting "Gateway class is deleting"]> states))
  else states.

Definition class_states (class : VPNGatewayClass) : gmap string State :=
  class_deletion_states class (class_parameter_states class (class_release_states class class_available)).

Definition class_desiredStatus (class : VPNGatewayClass) (now : time) : VPNGatewayClassStatus :=
  mkVPNGatewayClassStatus (Generation (gc_Meta class))
    (Build (gc_Conditions (gc_Status class)) (Generation (gc_Meta class)) now SummaryOrder (class_states class)).

Context {W : Type} `{Getter W VPNGatewayClass} `{StatusApplier W VPNGatewayClassStatus} `{Clock W}.

Definition class_Reconcile (request : ObjectKey) : IO W Result :=
  reconcile_object request (fun class =>
    if negb (String.eqb (gc_ControllerName (gc_Spec class)) (cr_ControllerName r)) then mret NoRequeue
    else
      now ← read_clock;
      let desired := class_desiredStatus class now in
      if decide (gc_Status class = desired) then mret NoRequeue
      else
        io_wrap "apply VPNGatewayClass status"
          (k8s_ApplyStatus (mkObjectKey "" (Name (gc_Meta class))) desired FieldManagerClassController) ;;
        mret NoRequeue).

(** ** What the controller publishes *)

Lemma class_states_stable class : stable_states (class_states class).
Proof.
  unfold class_states, class_deletion_states, class_parameter_states, class_release_states, class_available.
  solve_stable.
Qed.

Lemma class_status_admitted class now :
  Conditions_valid (gc_Conditions (class_desiredStatus class now)) = true.
Proof.
  apply Build_types_admitted; [by apply (bool_decide_unpack _)|by apply (bool_decide_unpack _)|done|].
  apply class_states_stable.
Qed.

(** The class is what this release implements and is not going away. *)
Definition class_supported (class : VPNGatewayClass) : Prop :=
  class_matches_release (cr_ReleaseIdentity r) (cr_ConformanceProfile r) class = true /\
  sameFeatures (gc_SupportedFeatures (gc_Spec class)) (cr_SupportedFeatures r) = true /\
  gc_ParametersRef (gc_Spec class) = None /\ DeletionTimestamp (gc_Meta class) = None.

(** The state of a summary condition other than ResolvedRefs. *)
Lemma class_state_exact class t :
  t ∈ [ConditionAccepted; ConditionProgrammed; ConditionReady] ->
  (exists state, class_states class !! t = Some state /\ st_Status state = ConditionTrue) <-> class_supported class.
Proof.
  intros Ht. rewrite <- state_true_spec. unfold class_supported.
  assert (DeletionTimestamp (gc_Meta class) = None <-> not_deleting (gc_Meta class) = true) as ->
    by (unfold not_deleting; by rewrite bool_decide_eq_true).
  assert (state_true (class_states class) t =
    class_matches_release (cr_ReleaseIdentity r) (cr_ConformanceProfile r) class &&
    sameFeatures (gc_SupportedFeatures (gc_Spec class)) (cr_SupportedFeatures r) &&
    bool_decide (gc_ParametersRef (gc_Spec class) = None) && not_deleting (gc_Meta class)) as ->.
  { unfold class_states, class_deletion_states, class_parameter_states, class_release_states.
    rewrite !elem_of_cons in Ht; destruct Ht as [->|[->|[->|[]%elem_of_nil]]];
      destruct (class_matches_release _ _ class), (sameFeatures _ _), (gc_ParametersRef (gc_Spec class)),
        (not_deleting (gc_Meta class)); vm_compute; reflexivity. }
  rewrite !andb_true_iff, bool_decide_eq_true. tauto.
Qed.

Lemma class_ready_exact class now t :
  t ∈ [ConditionAccepted; ConditionProgrammed; ConditionReady] ->
  let status := class_desiredStatus class now in
  CurrentTrue (gc_Conditions status) t (gc_ObservedGeneration status) (Generation (gc_Meta class)) = true <->
  class_supported class.
Proof.
  intros Ht status. rewrite <- (class_state_exact class t) by done. unfold status, class_desiredStatus.
  cbn [gc_Conditions gc_ObservedGeneration]. rewrite Build_current_true by set_solver. naive_solver.
Qed.

(** A second reconciliation finds the status it would write, so writing stops. *)
Lemma class_settles class now now' :
  class_desiredStatus (mkVPNGatewayClass (gc_Meta class) (gc_Spec class) (class_desiredStatus class now)) now' =
  class_desiredStatus class now.
Proof. unfold class_desiredStatus. cbn [gc_Meta gc_Status gc_Conditions]. f_equal. apply (Build_settles _ _ _ _ _ (class_states class)). Qed.

End ClassController.

(** No status the controller writes is rejected by the CRD rules. *)
Lemma class_never_rejected {W} `{ApiMeta, !Getter W VPNGatewayClass, A : !StatusApplier W VPNGatewayClassStatus, !Clock W}
    r request w :
  @class_Reconcile _ r W _ (validating (fun s => Conditions_valid (gc_Conditions s)) A) _ request w =
  class_Reconcile r request w.
Proof.
  unfold class_Reconcile, reconcile_object, mbind, io_bind, io_try, io_wrap.
  destruct (k8s_Get request w) as [[class|e] w1]; [|done].
  destruct (negb _); [done|]. cbn. case_decide; [done|].
  by rewrite validating_admitted by apply class_status_admitted.
Qed.
