(* ===== verification/RouteController.v ===== *)
(** * The egress route controller (internal/controller/vpnegressroute_controller.go)

    The reconciler resolves the route's parent gateway through the consent
    check of Reference, derives the four summary conditions from the gateway's
    own conditions, and publishes them on the route and on its parent entry. *)

From S2P Require Import Prelude Api Conditions Kube Reference.

Definition RouteControllerName : string := "networking.waycloak.io/route-controller".
Definition FieldManagerRoutePrefix : string := "waycloak-route-".
Definition routeFieldManager : string := FieldManagerRoutePrefix +:+ "core".

(** [conditionState] has the three fields of [State]. *)
Record routeConditionSet := mkRouteConditionSet {
  rc_accepted : State;
  rc_resolved : State;
  rc_programmed : State;
  rc_ready : State
}.

Definition unavailable (message : string) : State := Unknown message.

Section Conditions.
Context `{ApiMeta}.

Definition routeConditionSet_states (s : routeConditionSet) : gmap string State :=
  <[ConditionAccepted := rc_accepted s]>
  (<[ConditionResolvedRefs := rc_resolved s]>
  (<[ConditionProgrammed := rc_programmed s]>
  (<[ConditionReady := rc_ready s]> ∅))).

Definition routeConditionSet_conditions (s : routeConditionSet) (previous : list Condition) (generation : Z)
    (now : time) : list Condition :=
  Build previous generation now SummaryOrder (routeConditionSet_states s).

Definition currentCondition (gateway : VPNGateway) (conditionType : string) : option Condition :=
  Current (gw_Conditions (gw_Status gateway)) conditionType (gw_ObservedGeneration (gw_Status gateway))
    (Generation (gw_Meta gateway)).

(** A condition that is missing or Unknown. *)
Definition condition_unknown (c : option Condition) : bool :=
  match c with Some c => bool_decide (c_Status c = ConditionUnknown) | None => true end.
Definition condition_true (c : option Condition) : bool :=
  match c with Some c => bool_decide (c_Status c = ConditionTrue) | None => false end.
Definition condition_reason (c : option Condition) : string :=
  match c with Some c => c_Reason c | None => "" end.

Definition parent_unavailable (resolved : State) : routeConditionSet :=
  mkRouteConditionSet (unavailable "Parent acceptance observation is unavailable") resolved
    (unavailable "Parent programming observation is unavailable")
    (unavailable "Parent readiness observation is unavailable").

Definition evaluateGateway (route : VPNEgressRoute) (gateway : VPNGateway) (statuses : routeConditionSet) :
    routeConditionSet :=
  let resolved := True_ ReasonResolvedRefs "Parent reference is resolved" in
  if negb (not_deleting (gw_Meta gateway)) then
    mkRouteConditionSet (False_ ReasonDeleting "Parent gateway is deleting") resolved
      (False_ ReasonPending "Route programming is withdrawn") (False_ ReasonDeleting "Parent gateway is deleting")
  else if negb (gw_ObservedGeneration (gw_Status gateway) =? Generation (gw_Meta gateway)) then
    parent_unavailable resolved
  else
    let gatewayAccepted := currentCondition gateway ConditionAccepted in
    if condition_unknown gatewayAccepted then parent_unavailable resolved
    else if negb (condition_true gatewayAccepted) then
      mkRouteConditionSet (False_ ReasonUnsupportedClass "Parent gateway is not accepted") resolved
        (rc_programmed statuses) (rc_ready statuses)
    else if negb (forallb (contains_string (gw_SupportedFeatures (gw_Status gateway)))
                    (rt_RequiredFeatures (rt_Spec route))) then
      mkRouteConditionSet (False_ ReasonUnsupportedFeature "A required route feature is unavailable") resolved
        (rc_programmed statuses) (rc_ready statuses)
    else
      let gatewayProgrammed := currentCondition gateway ConditionProgrammed in
      if condition_unknown gatewayProgrammed then
        mkRouteConditionSet (rc_accepted statuses) resolved
          (unavailable "Parent programming observation is unavailable")
          (unavailable "Parent readiness observation is unavailable")
      else if negb (condition_true gatewayProgrammed) then
        let reason := condition_reason gatewayProgrammed in
        let reason := if negb (String.eqb reason ReasonApplyFailed) && negb (String.eqb reason ReasonStaleGeneration)
                      then ReasonPending else reason in
        mkRouteConditionSet (rc_accepted statuses) resolved
          (False_ reason "Parent gateway is not programmed") (rc_ready statuses)
      else
        let programmed := True_ ReasonProgrammed "Parent gateway is programmed" in
        let gatewayReady := currentCondition gateway ConditionReady in
        let ready :=
          if condition_unknown gatewayReady then unavailable "Parent readiness observation is unavailable"
          else if negb (condition_true gatewayReady) then False_ ReasonNotReady "Parent gateway is not ready"
          else True_ ReasonReady "Protected route is ready" in
        mkRouteConditionSet (rc_accepted statuses) resolved programmed ready.

Definition route_initial : routeConditionSet :=
  mkRouteConditionSet (True_ ReasonAccepted "Route intent is accepted")
    (False_ ReasonRefNotFound "Parent reference is unresolved")
    (False_ ReasonPending "Route programming is pending")
    (False_ ReasonNotReady "Protected route is not ready").

(** The [switch] on the authorizer's answer. *)
Definition route_statuses (route : VPNEgressRoute) (resolution : res GatewayResolution) : routeConditionSet :=
  let statuses := route_initial in
  match resolution with
  | Fail _ =>
      mkRouteConditionSet (rc_accepted statuses) (unavailable "Reference authorization is unavailable")
        (unavailable "Route programming observation is unavailable")
        (unavailable "Protected route observation is unavailable")
  | Ok resolution =>
      if negb (Permitted resolution) then
        mkRouteConditionSet (rc_accepted statuses) (False_ ReasonRefNotPermitted "Parent reference is not permitted")
          (rc_programmed statuses) (rc_ready statuses)
      else match Gateway resolution with
           | None =>
               mkRouteConditionSet (rc_accepted statuses) (False_ ReasonRefNotFound "Parent reference was not found")
                 (rc_programmed statuses) (rc_ready statuses)
           | Some gateway => evaluateGateway route gateway statuses
           end
  end.

Definition route_status (route : VPNEgressRoute) (parent : GatewayParentReference)
    (resolution : res GatewayResolution) (now : time) : VPNEgressRouteStatus :=
  let conditions := routeConditionSet_conditions (route_statuses route resolution)
                      (rs_Conditions (rt_Status route)) (Generation (rt_Meta route)) now in
  mkVPNEgressRouteStatus (Generation (rt_Meta route)) conditions
    [mkRouteParentStatus parent RouteControllerName conditions].

(** ** The reconciler; the resolver is the [Authorizer] of the reconciler. *)
Context {W : Type} `{Getter W VPNEgressRoute} `{StatusApplier W VPNEgressRouteStatus} `{Clock W}.
Context (authorizer : string -> NamespacedObjectReference -> IO W GatewayResolution).

Definition route_desiredStatus (route : VPNEgressRoute) : IO W VPNEgressRouteStatus :=
  match rt_ParentRefs (rt_Spec route) with
  | [] => io_panic
  | parent :: _ =>
      resolution ← io_try (authorizer (Namespace (rt_Meta route))
        (mkNamespacedObjectReference (gpr_Namespace parent) (gpr_Name parent)));
      now ← read_clock;
      mret (route_status route parent resolution now)
  end.

Definition route_Reconcile (request : ObjectKey) : IO W Result :=
  reconcile_object request (fun route =>
    if negb (not_deleting (rt_Meta route)) then mret NoRequeue
    else
      desired ← route_desiredStatus route;
      if decide (rt_Status route = desired) then mret NoRequeue
      else
        io_wrap "apply VPNEgressRoute status"
          (k8s_ApplyStatus (key_of (rt_Meta route)) desired routeFieldManager) ;;
        mret NoRequeue).

(** ** Readiness *)

(** The gateway supports the route: nothing about it is stale, missing,
    Unknown or False, and every required feature is there. *)
Definition gateway_supports (route : VPNEgressRoute) (gateway : VPNGateway) : bool :=
  let current t := CurrentTrue (gw_Conditions (gw_Status gateway)) t (gw_ObservedGeneration (gw_Status gateway))
                     (Generation (gw_Meta gateway)) in
  not_deleting (gw_Meta gateway) && current ConditionAccepted && current ConditionProgrammed &&
  current ConditionReady &&
  forallb (contains_string (gw_SupportedFeatures (gw_Status gateway))) (rt_RequiredFeatures (rt_Spec route)).

Lemma current_generation gateway c t :
  currentCondition gateway t = Some c -> gw_ObservedGeneration (gw_Status gateway) = Generation (gw_Meta gateway).
Proof.
  unfold currentCondition, Current. destruct (_ =? _) eqn:E; [|done]. intros _. by apply Z.eqb_eq.
Qed.

Lemma condition_true_known c : condition_true c = true -> condition_unknown c = false.
Proof. destruct c as [[? [] ? ? ? ?]|]; done. Qed.

Lemma evaluateGateway_ready route gateway :
  bool_decide (st_Status (rc_ready (evaluateGateway route gateway route_initial)) = ConditionTrue) =
  gateway_supports route gateway.
Proof.
  unfold gateway_supports, CurrentTrue. fold (currentCondition gateway ConditionAccepted).
  fold (currentCondition gateway ConditionProgrammed) (currentCondition gateway ConditionReady).
  fold (condition_true (currentCondition gateway ConditionAccepted))
    (condition_true (currentCondition gateway ConditionProgrammed))
    (condition_true (currentCondition gateway ConditionReady)).
  unfold evaluateGateway. destruct (not_deleting _); [|done].
  destruct (_ =? _) eqn:Eg; cbn [negb andb].
  2: { unfold currentCondition, Current. by rewrite Eg. }
  destruct (condition_unknown (currentCondition gateway ConditionAccepted)) eqn:Eu.
  { destruct (condition_true (currentCondition gateway ConditionAccepted)) eqn:Et; [|done].
    apply condition_true_known in Et. congruence. }
  destruct (condition_true (currentCondition gateway ConditionAccepted)); [|done]. cbn [negb andb].
  destruct (forallb _ _); cbn [negb]; [|by rewrite andb_false_r].
  destruct (condition_unknown (currentCondition gateway ConditionProgrammed)) eqn:Eup.
  { destruct (condition_true (currentCondition gateway ConditionProgrammed)) eqn:Et; [|done].
    apply condition_true_known in Et. congruence. }
  destruct (condition_true (currentCondition gateway ConditionProgrammed)); [|done]. cbn.
  destruct (condition_unknown (currentCondition gateway ConditionReady)) eqn:Eur.
  { destruct (condition_true (currentCondition gateway ConditionReady)) eqn:Et; [|done].
    apply condition_true_known in Et. congruence. }
  by destruct (condition_true (currentCondition gateway ConditionReady)).
Qed.

Lemma route_ready_state route resolution :
  state_true (routeConditionSet_states (route_statuses route resolution)) ConditionReady =
  match resolution with
  | Ok (mkGatewayResolution true (Some gateway)) => gateway_supports route gateway
  | _ => false
  end.
Proof.
  unfold state_true, routeConditionSet_states.
  rewrite !lookup_insert_ne, lookup_insert by (by vm_compute).
  rewrite decide_True by done.
  destruct resolution as [[[] [gateway|]]|e]; cbn [route_statuses negb Permitted Gateway]; try done.
  apply evaluateGateway_ready.
Qed.

(** ** The status contract *)

Lemma route_states_stable route resolution :
  stable_states (routeConditionSet_states (route_statuses route resolution)).
Proof.
  assert (forall s, stable_state ConditionAccepted (rc_accepted s) && stable_state ConditionResolvedRefs (rc_resolved s) &&
    stable_state ConditionProgrammed (rc_programmed s) && stable_state ConditionReady (rc_ready s) = true ->
    stable_states (routeConditionSet_states s)) as Hset.
  { intros s. rewrite !andb_true_iff. intros [[[Ha Hr] Hp] Hy]. unfold routeConditionSet_states.
    by repeat apply stable_insert; try done; apply stable_empty. }
  apply Hset. destruct resolution as [[[] [gateway|]]|e]; cbn [route_statuses negb Permitted Gateway]; try done.
  unfold evaluateGateway.
  destruct (negb (String.eqb (condition_reason (currentCondition gateway ConditionProgrammed)) ReasonApplyFailed)) eqn:E1;
    [destruct (negb (String.eqb (condition_reason (currentCondition gateway ConditionProgrammed)) ReasonStaleGeneration)) eqn:E2|];
    cbn [andb].
  2: apply negb_false_iff, String.eqb_eq in E2; rewrite E2.
  3: apply negb_false_iff, String.eqb_eq in E1; rewrite E1.
  all: repeat case_match; reflexivity.
Qed.

(** The CRD rules for a route status: the common condition rules, at most one
    parent, and the transition rule on the parent's controller name. *)
Definition route_status_admitted (old status : VPNEgressRouteStatus) : bool :=
  Conditions_valid (rs_Conditions status) &&
  forallb (fun p => Conditions_valid (rps_Conditions p)) (rs_Parents status) &&
  (length (rs_Parents status) <=? 1)%nat &&
  match rs_Parents old with
  | [] => true
  | old_parent :: _ =>
      match rs_Parents status with
      | [parent] => negb (bool_decide (rps_ParentRef parent = rps_ParentRef old_parent)) ||
                    String.eqb (rps_ControllerName parent) (rps_ControllerName old_parent)
      | _ => false
      end
  end.

(** A status that only this controller has written. *)
Definition route_status_ours (status : VPNEgressRouteStatus) : bool :=
  forallb (fun p => String.eqb (rps_ControllerName p) RouteControllerName) (rs_Parents status).

Lemma route_status_valid stored route parent resolution now :
  route_status_ours stored = true ->
  route_status_admitted stored (route_status route parent resolution now) = true /\
  route_status_ours (route_status route parent resolution now) = true.
Proof.
  intros Hours. split; [|done].
  assert (Conditions_valid (rs_Conditions (route_status route parent resolution now)) = true) as Hv.
  { apply Build_types_admitted; [by apply (bool_decide_unpack _)|by apply (bool_decide_unpack _)|done|].
    apply route_states_stable. }
  unfold route_status_admitted. rewrite Hv. cbn [route_status rs_Parents forallb rps_Conditions length].
  change (Conditions_valid _) with (Conditions_valid (rs_Conditions (route_status route parent resolution now))).
  rewrite Hv. cbn [andb Nat.leb]. unfold route_status_ours in Hours.
  destruct (rs_Parents stored) as [|p ps]; [done|]. cbn [forallb] in Hours.
  apply andb_true_iff in Hours as [Hp%String.eqb_eq _]. cbn [rps_ControllerName rps_ParentRef].
  by rewrite Hp, String.eqb_refl, orb_true_r.
Qed.

Lemma route_settles route parent resolution now now' :
  let stored := mkVPNEgressRoute (rt_Meta route) (rt_Spec route) (route_status route parent resolution now) in
  route_status stored parent resolution now' = route_status route parent resolution now.
Proof.
  intros stored.
  pose proof (Build_settles (rs_Conditions (rt_Status route)) (Generation (rt_Meta route)) now now' SummaryOrder
                (routeConditionSet_states (route_statuses route resolution))) as Hs.
  unfold route_status at 1. cbn zeta.
  assert (routeConditionSet_conditions (route_statuses stored resolution) (rs_Conditions (rt_Status stored))
            (Generation (rt_Meta stored)) now' = rs_Conditions (route_status route parent resolution now)) as -> by exact Hs.
  done.
Qed.

End Conditions.

(** Where only this controller has written the stored status, no status it writes
    is rejected by the CRD rules of the kind, the transition rule included. *)
Lemma route_never_rejected {W} `{ApiMeta, !Getter W VPNEgressRoute, A : !StatusApplier W VPNEgressRouteStatus, !Clock W}
    authorizer stored request (w : W) :
  route_status_ours stored = true ->
  @route_Reconcile _ W _ (validating (route_status_admitted stored) A) _ authorizer request w =
  route_Reconcile authorizer request w.
Proof.
  intros Hours. unfold route_Reconcile, reconcile_object, route_desiredStatus, mbind, io_bind, io_try, io_wrap, read_clock.
  destruct (k8s_Get request w) as [[route|e] w1]; [|done]. destruct (negb _); [done|].
  destruct (rt_ParentRefs (rt_Spec route)) as [|parent rest]; [done|].
  destruct (authorizer _ _ w1) as [resolution w2]. cbn. case_decide; [done|].
  rewrite validating_admitted; [done|]. by apply route_status_valid.
Qed.

Section EndToEnd.
Context `{ApiMeta} {W : Type} `{Getter W VPNGateway} `{Getter W CoreNamespace} `{Clock W}.
Context (selector : LabelSelector -> res (gmap string string -> bool)).

(** The parent reference as the authorizer takes it. *)
Definition parent_reference (parent : GatewayParentReference) : NamespacedObjectReference :=
  mkNamespacedObjectReference (gpr_Namespace parent) (gpr_Name parent).

Definition parent_key (parent : GatewayParentReference) : ObjectKey :=
  mkObjectKey (gpr_Namespace parent) (gpr_Name parent).

(** Ready means permitted and live.  Whatever the API server answers, a
    route's status carries a current Ready only if the route's parent gateway
    was read, the gateway is in the route's namespace, admits every namespace or
    consents to the labels read for the route's namespace, it is not deleting, its own Accepted, Programmed and
    Ready conditions are current and True, and it supports every feature the
    route requires. *)
Theorem route_ready_sound route w :
  wp (route_desiredStatus (ResolveGateway selector) route)
    (fun r _ => forall status, r = Ok status ->
       CurrentTrue (rs_Conditions status) ConditionReady (rs_ObservedGeneration status) (Generation (rt_Meta route)) = true ->
       exists parent gateway, head (rt_ParentRefs (rt_Spec route)) = Some parent /\
         (k8s_Get (T := VPNGateway) (parent_key parent) w).1 = Ok gateway /\
         (Namespace (rt_Meta route) = gpr_Namespace parent \/
          consent_read selector (Namespace (rt_Meta route)) (parent_reference parent) gateway w) /\
         gateway_supports route gateway = true) w.
Proof.
  unfold route_desiredStatus. destruct (rt_ParentRefs _) as [|parent rest]; [by wp_step|].
  do 2 wp_step. wp_with (ResolveGateway_sound selector). intros resolution w1 Hs. cbn [after].
  wp_now. wp_step.
  intros status [= <-]. cbn [route_status rs_Conditions rs_ObservedGeneration].
  intros (_ & _ & Hr)%Build_current_true; [|set_solver].
  apply state_true_spec in Hr. rewrite route_ready_state in Hr.
  destruct resolution as [[[] [gateway|]]|]; try done.
  destruct (Hs _ gateway eq_refl eq_refl eq_refl) as [Hget Hconsent]. exists parent, gateway. auto.
Qed.

(** No existence oracle.  For a parent in another namespace, the status
    published while the gateway is missing and the status published while it
    exists but does not consent are the same, so a route owner cannot learn
    from it whether the gateway exists. *)
Theorem route_status_no_oracle route parent rest w_missing w_present g labels labels' :
  rt_ParentRefs (rt_Spec route) = parent :: rest ->
  well_formed_reference (Namespace (rt_Meta route)) (parent_reference parent) ->
  Namespace (rt_Meta route) <> gpr_Namespace parent ->
  observed (Namespace (rt_Meta route)) (parent_reference parent) w_missing None labels ->
  observed (Namespace (rt_Meta route)) (parent_reference parent) w_present (Some g) labels' ->
  consents selector g labels' = false ->
  (forall w w' : W, clock_now w = clock_now w') ->
  (route_desiredStatus (ResolveGateway selector) route w_missing).1 =
  (route_desiredStatus (ResolveGateway selector) route w_present).1.
Proof.
  intros Hp Hwf Hne Hm Hpr Hc Hclock.
  pose proof (ResolveGateway_no_oracle selector _ _ _ _ _ _ _ Hwf Hne Hm Hpr Hc) as Heq.
  unfold route_desiredStatus. rewrite Hp. unfold mbind, io_bind, io_try, read_clock. unfold parent_reference in Heq.
  destruct (ResolveGateway selector _ _ w_missing) as [r1 w1], (ResolveGateway selector _ _ w_present) as [r2 w2].
  cbn in Heq |- *. by rewrite Heq, (Hclock w1 w2).
Qed.

End EndToEnd.

(** ** Witnesses: a gateway in another namespace that is missing, or present *)

Module RouteSample.

Definition meta (ns name : string) : ObjectMeta := mkObjectMeta ns name "uid" 1 None ∅ ∅ [] [].

Definition gateway (from : string) : VPNGateway :=
  mkVPNGateway (meta "vpn" "gw")
    (mkVPNGatewaySpec "class" [] [] [] (mkAllowedRoutes (mkRouteNamespaces from None))
       (mkClusterTraffic ClusterTrafficTunnelAll []) DNSModeGateway (mkGatewayPlacement ∅ []))
    (mkVPNGatewayStatus 1 None [FeatureTCP] []
       (map (fun t => mkCondition t ConditionTrue t "" 1 0) SummaryOrder)).

Definition parent : GatewayParentReference :=
  mkGatewayParentReference "networking.waycloak.io" "VPNGateway" "vpn" "gw".

Definition route : VPNEgressRoute :=
  mkVPNEgressRoute (meta "media" "private") (mkVPNEgressRouteSpec [parent] [FeatureTCP])
    (mkVPNEgressRouteStatus 0 [] []).

(** The world is the gateway the server holds. *)
#[local] Instance gateway_getter : Getter (option VPNGateway) VPNGateway := fun _ w =>
  (match w with Some g => Ok g | None => Fail (EStatus ReasonNotFound) end, w).
#[local] Instance namespace_getter : Getter (option VPNGateway) CoreNamespace := fun key w =>
  (Ok (mkCoreNamespace (meta "" (key_Name key))), w).
#[local] Instance sample_clock : Clock (option VPNGateway) := fun _ => 7.

Definition selector_all (s : LabelSelector) : res (gmap string string -> bool) := Ok (fun _ => true).

Definition world : option VPNGateway := Some (gateway RouteNamespaceAll).

Lemma route_ready_sound_witness :
  exists p g, head [parent] = Some p /\ (k8s_Get (T := VPNGateway) (parent_key p) world).1 = Ok g /\
    ("media" = gpr_Namespace p \/ consent_read selector_all "media" (parent_reference p) g world) /\
    gateway_supports route g = true.
Proof.
  destruct (route_desiredStatus (ResolveGateway selector_all) route world) as [[status|e] w'] eqn:E;
    [|vm_compute in E; discriminate E].
  apply (wp_elim _ _ _ _ _ (route_ready_sound selector_all route world) E status eq_refl).
  vm_compute in E. injection E as <- _. vm_compute. reflexivity.
Defined.

Lemma route_status_no_oracle_witness :
  (route_desiredStatus (ResolveGateway selector_all) route None).1 =
  (route_desiredStatus (ResolveGateway selector_all) route (Some (gateway RouteNamespaceSame))).1.
Proof.
  apply (route_status_no_oracle selector_all route parent [] None (Some (gateway RouteNamespaceSame))
           (gateway RouteNamespaceSame) ∅ ∅).
  - reflexivity.
  - done.
  - done.
  - exists None. split; [exists (EStatus ReasonNotFound); by split|]. by exists (meta "" "media"), None.
  - exists (Some (gateway RouteNamespaceSame)). split; [done|].
    by exists (meta "" "media"), (Some (gateway RouteNamespaceSame)).
  - reflexivity.
  - done.
Defined.

End RouteSample.
