(* ===== verification/GatewayController.v ===== *)
(** * The gateway controller (internal/controller/replacement_vpngateway_controller.go)

    The reconciler checks a gateway's class, features and references, runs the
    runtime provisioner, and publishes seven conditions.  The provisioner is an
    interface of the controller and comes in as an argument. *)

From S2P Require Import Prelude Api Conditions Kube ClassController.

Definition GluetunEnvironmentRole : string := "networking.waycloak.io/GluetunEnvironment".
Definition OpenVPNCredentialsRole : string := "networking.waycloak.io/OpenVPNCredentials".
Definition GatewayRuntimeTLSRole : string := "networking.waycloak.io/GatewayRuntimeTLS".
Definition FieldManagerGatewayController : string := "waycloak-gateway-controller".

(** A core ConfigMap, and a Secret as partial metadata: the controller never
    reads a Secret's data. *)
Record ConfigMap := mkConfigMap { cm_Meta : ObjectMeta; cm_Data : gmap string string }.
Record SecretMetadata := mkSecretMetadata { sm_Meta : ObjectMeta }.

Record ReplacementVPNGatewayReconciler := mkReplacementVPNGatewayReconciler {
  gr_ControllerName : string;
  gr_ReleaseIdentity : ReleaseIdentity;
  gr_ConformanceProfile : string;
  gr_SupportedFeatures : list string;
  gr_NativeConfigRoles : list string;
  gr_CredentialRoles : list string;
  gr_ReferenceCheckInterval : duration
}.

Record GatewayRuntimeObservation := mkGatewayRuntimeObservation {
  ro_Programmed : bool;
  ro_Ready : bool;
  ro_TunnelReady : bool;
  ro_DNSReady : bool;
  ro_MembershipApplied : bool;
  ro_Addresses : list GatewayAddressEntry
}.

Definition hasRole (values : list string) (expected : string) : bool := existsb (fun v => String.eqb v expected) values.
Definition hasFeature (values : list string) (expected : string) : bool := existsb (fun v => String.eqb v expected) values.

Fixpoint firstUnsupported (requested supported : list string) : string :=
  match requested with
  | [] => ""
  | feature :: requested' => if negb (hasFeature supported feature) then feature else firstUnsupported requested' supported
  end.

Definition sortedFeatures (values : list string) : list string := sort_by id values.

Definition gatewayPendingStates : gmap string State :=
  <[ConditionAccepted := False_ ReasonUnsupportedClass "Gateway is not accepted"]>
  (<[ConditionResolvedRefs := False_ ReasonRefNotFound "Gateway references are unresolved"]>
  (<[ConditionProgrammed := False_ ReasonPending "Gateway data-plane programming has not started"]>
  (<[ConditionReady := False_ ReasonNotReady "Gateway data plane is not ready"]>
  (<[ConditionTunnelReady := False_ ReasonTunnelNotReady "Gateway tunnel is not ready"]>
  (<[ConditionDNSReady := False_ ReasonDNSNotReady "Gateway DNS path is not ready"]>
  (<[ConditionMembershipApplied := False_ ReasonMembershipPending "Gateway membership is not applied"]> ∅)))))).

Definition gatewayOrder : list string :=
  [ConditionAccepted; ConditionResolvedRefs; ConditionProgrammed; ConditionReady;
   ConditionTunnelReady; ConditionDNSReady; ConditionMembershipApplied].

Definition unresolvedReference (err : error) (message : string) : State :=
  if IsNotFound err then False_ ReasonRefNotFound message
  else if IsForbidden err || IsUnauthorized err then False_ ReasonRefNotPermitted message
  else Unknown "Gateway reference observation is unavailable".

(** The pair of Accepted and ResolvedRefs states most branches end with. *)
Definition set_acceptance (accepted resolved : State) (states : gmap string State) : gmap string State :=
  <[ConditionResolvedRefs := resolved]> (<[ConditionAccepted := accepted]> states).

(** The checks on a class that was read, in the order of the code: the states
    of the first that fails. *)
Definition class_rejection `{ApiMeta} (r : ReplacementVPNGatewayReconciler) (class : VPNGatewayClass) : option (State * State) :=
  let current t := CurrentTrue (gc_Conditions (gc_Status class)) t (gc_ObservedGeneration (gc_Status class))
                     (Generation (gc_Meta class)) in
  if negb (not_deleting (gc_Meta class)) then
    Some (False_ ReasonUnsupportedClass "Gateway class is deleting",
          False_ ReasonIncompatibleRef "Gateway class is not currently available")
  else if negb (String.eqb (gc_ControllerName (gc_Spec class)) (gr_ControllerName r)) then
    Some (False_ ReasonControllerNotFound "Gateway class belongs to another controller",
          False_ ReasonIncompatibleRef "Gateway class controller is incompatible")
  else if negb (class_matches_release (gr_ReleaseIdentity r) (gr_ConformanceProfile r) class) then
    Some (False_ ReasonUnsupportedClass "Gateway class release or conformance identity is unsupported",
          False_ ReasonIncompatibleRef "Gateway class release identity is incompatible")
  else if negb (sameFeatures (gc_SupportedFeatures (gc_Spec class)) (gr_SupportedFeatures r)) then
    Some (False_ ReasonUnsupportedFeature "Gateway class feature set does not match the release",
          False_ ReasonIncompatibleRef "Gateway class feature set is incompatible")
  else if negb (current ConditionAccepted) || negb (current ConditionReady) then
    Some (False_ ReasonControllerNotFound "Gateway class controller is not currently available",
          False_ ReasonIncompatibleRef "Gateway class is not currently available")
  else None.

(** The checks on the requested features. *)
Definition feature_rejection (requested supported : list string) : option (State * State) :=
  let resolved := True_ ReasonResolvedRefs "Gateway class reference is resolved" in
  if negb (str_empty (firstUnsupported requested supported)) then
    Some (False_ ReasonUnsupportedFeature "Gateway requests a feature unsupported by its class", resolved)
  else if hasFeature requested FeatureWorkloadAdapter && negb (hasFeature requested FeaturePortForwardSingleActive) then
    Some (False_ ReasonUnsupportedFeature "WorkloadAdapter requires SingleActive port forwarding", resolved)
  else None.

(** The states a runtime observation sets. *)
Definition observation_states (o : GatewayRuntimeObservation) (states : gmap string State) : gmap string State :=
  let states := if ro_Programmed o then <[ConditionProgrammed := True_ ReasonProgrammed "Gateway runtime is programmed"]> states else states in
  let states := if ro_TunnelReady o then <[ConditionTunnelReady := True_ ReasonTunnelReady "Gateway tunnel is ready"]> states else states in
  let states := if ro_DNSReady o then <[ConditionDNSReady := True_ ReasonDNSReady "Gateway DNS path is ready"]> states else states in
  let states := if ro_MembershipApplied o then <[ConditionMembershipApplied := True_ ReasonMembershipApplied "Gateway membership data plane is applied"]> states else states in
  if ro_Ready o && ro_Programmed o && ro_TunnelReady o && ro_DNSReady o && ro_MembershipApplied o
  then <[ConditionReady := True_ ReasonReady "Gateway live data plane is ready"]> states else states.

Definition runtime_failed_states (states : gmap string State) : gmap string State :=
  <[ConditionReady := False_ ReasonNotReady "Gateway data plane is not ready"]>
  (<[ConditionProgrammed := False_ ReasonPending "Gateway runtime reconciliation is pending"]> states).

Section GatewayController.
Context `{ApiMeta} {W : Type}.
Context `{Getter W VPNGateway} `{Getter W VPNGatewayClass} `{Getter W ConfigMap} `{Getter W SecretMetadata}.
Context `{Lister W VPNGateway} `{StatusApplier W VPNGatewayStatus} `{Clock W}.
Context (r : ReplacementVPNGatewayReconciler).
Context (Runtime : option (VPNGateway -> IO W GatewayRuntimeObservation)).

(** The two loops of [resolveInputs]: [Some] is the state of an early return. *)
Fixpoint resolve_native (namespace : string) (refs : list RoleObjectReference) : IO W (option State) :=
  match refs with
  | [] => mret None
  | ref :: refs' =>
      if negb (hasRole (gr_NativeConfigRoles r) (ror_Role ref)) then
        mret (Some (False_ ReasonIncompatibleRef "Gateway native configuration role is unsupported"))
      else
        got ← io_try (k8s_Get (T := ConfigMap) (mkObjectKey namespace (ror_Name ref)));
        match got with
        | Fail err => mret (Some (unresolvedReference err "Gateway native configuration reference is unavailable"))
        | Ok _ => resolve_native namespace refs'
        end
  end.

Fixpoint resolve_credentials (namespace : string) (refs : list RoleObjectReference) (runtimeTLSRef : bool) :
    IO W (State + bool) :=
  match refs with
  | [] => mret (inr runtimeTLSRef)
  | ref :: refs' =>
      if negb (hasRole (gr_CredentialRoles r) (ror_Role ref)) then
        mret (inl (False_ ReasonIncompatibleRef "Gateway credential role is unsupported"))
      else
        got ← io_try (k8s_Get (T := SecretMetadata) (mkObjectKey namespace (ror_Name ref)));
        match got with
        | Fail err => mret (inl (unresolvedReference err "Gateway credential reference is unavailable"))
        | Ok _ => resolve_credentials namespace refs' (runtimeTLSRef || String.eqb (ror_Role ref) GatewayRuntimeTLSRole)
        end
  end.

Definition resolveInputs (gateway : VPNGateway) : IO W (option State) :=
  let runtimeRequested := hasFeature (gw_RequestedFeatures (gw_Spec gateway)) FeaturePortForwardSingleActive in
  native ← resolve_native (Namespace (gw_Meta gateway)) (gw_NativeConfigRefs (gw_Spec gateway));
  match native with
  | Some state => mret (Some state)
  | None =>
      credentials ← resolve_credentials (Namespace (gw_Meta gateway)) (gw_CredentialRefs (gw_Spec gateway)) false;
      match credentials with
      | inl state => mret (Some state)
      | inr runtimeTLSRef =>
          if runtimeRequested && negb runtimeTLSRef then
            mret (Some (False_ ReasonRefNotFound "Gateway runtime TLS reference is required"))
          else if negb runtimeRequested && runtimeTLSRef then
            mret (Some (False_ ReasonIncompatibleRef "Gateway runtime TLS reference requires SingleActive port forwarding"))
          else mret None
      end
  end.

Definition gateway_status (gateway : VPNGateway) (class : option ObservedGatewayClass) (features : list string)
    (addresses : list GatewayAddressEntry) (states : gmap string State) (now : time) : VPNGatewayStatus :=
  mkVPNGatewayStatus (Generation (gw_Meta gateway)) class features addresses
    (Build (gw_Conditions (gw_Status gateway)) (Generation (gw_Meta gateway)) now gatewayOrder states).

Definition finishStatus (gateway : VPNGateway) (class : option ObservedGatewayClass) (features : list string)
    (addresses : list GatewayAddressEntry) (states : gmap string State) : IO W VPNGatewayStatus :=
  now ← read_clock;
  mret (gateway_status gateway class features addresses states now).

(** From the point where the gateway's intent is accepted. *)
Definition accepted_status (gateway : VPNGateway) (class : option ObservedGatewayClass) (features : list string) :
    IO W VPNGatewayStatus :=
  let states := <[ConditionAccepted := True_ ReasonAccepted "Gateway intent is accepted"]> gatewayPendingStates in
  unresolved ← resolveInputs gateway;
  match unresolved with
  | Some state => finishStatus gateway class features [] (<[ConditionResolvedRefs := state]> states)
  | None =>
      let states := <[ConditionResolvedRefs := True_ ReasonResolvedRefs "Gateway references are resolved"]> states in
      match Runtime with
      | None => finishStatus gateway class features [] states
      | Some reconcile =>
          observed ← io_try (reconcile gateway);
          match observed with
          | Fail _ => finishStatus gateway class features [] (runtime_failed_states states)
          | Ok observation =>
              finishStatus gateway class features (ro_Addresses observation) (observation_states observation states)
          end
      end
  end.

Definition gateway_desiredStatus (gateway : VPNGateway) : IO W VPNGatewayStatus :=
  got ← io_try (k8s_Get (T := VPNGatewayClass) (mkObjectKey "" (gw_GatewayClassName (gw_Spec gateway))));
  match got with
  | Fail _ =>
      finishStatus gateway None [] [] (set_acceptance (False_ ReasonUnsupportedClass "Gateway class is unavailable")
        (False_ ReasonRefNotFound "Gateway class reference is unresolved") gatewayPendingStates)
  | Ok class =>
      let observed := Some (mkObservedGatewayClass (gc_ControllerName (gc_Spec class)) (gc_ReleaseIdentity (gc_Spec class))) in
      match class_rejection r class with
      | Some (accepted, resolved) =>
          finishStatus gateway observed [] [] (set_acceptance accepted resolved gatewayPendingStates)
      | None =>
          let features := sortedFeatures (gr_SupportedFeatures r) in
          match feature_rejection (gw_RequestedFeatures (gw_Spec gateway)) features with
          | Some (accepted, resolved) =>
              finishStatus gateway observed features [] (set_acceptance accepted resolved gatewayPendingStates)
          | None => accepted_status gateway observed features
          end
      end
  end.

Definition referenceCheckInterval : duration :=
  if 0 <? gr_ReferenceCheckInterval r then gr_ReferenceCheckInterval r else 10 * Second.

Definition gateway_Reconcile (request : ObjectKey) : IO W Result :=
  reconcile_object request (fun gateway =>
    desired ← gateway_desiredStatus gateway;
    (if decide (gw_Status gateway = desired) then mret tt
     else io_wrap "apply VPNGateway status"
            (k8s_ApplyStatus (key_of (gw_Meta gateway)) desired FieldManagerGatewayController)) ;;
    mret (mkResult referenceCheckInterval)).

(** *** Watches *)

Definition matchingGateways (match_ : VPNGateway -> bool) : IO W (list ObjectKey) :=
  listed ← io_try (k8s_List (T := VPNGateway) ListAll);
  match listed with
  | Fail _ => mret []
  | Ok items => mret (map (fun g => key_of (gw_Meta g)) (List.filter match_ items))
  end.

Definition gatewaysForClass (class : VPNGatewayClass) : IO W (list ObjectKey) :=
  matchingGateways (fun gateway => String.eqb (gw_GatewayClassName (gw_Spec gateway)) (Name (gc_Meta class))).

Definition gatewaysForConfigMap (object : ObjectMeta) : IO W (list ObjectKey) :=
  matchingGateways (fun gateway =>
    if negb (String.eqb (Namespace (gw_Meta gateway)) (Namespace object)) then false
    else existsb (fun ref => String.eqb (ror_Name ref) (Name object)) (gw_NativeConfigRefs (gw_Spec gateway))).

(** ** Readiness *)

Lemma hasRole_spec values x : hasRole values x = true <-> x ∈ values.
Proof.
  unfold hasRole. rewrite existsb_exists. setoid_rewrite <- list_elem_of_In. split.
  - intros (v & Hv & ->%String.eqb_eq). done.
  - intros Hx. exists x. by rewrite String.eqb_refl.
Qed.

Lemma firstUnsupported_none requested supported :
  "" ∉ requested -> firstUnsupported requested supported = "" -> requested ⊆ supported.
Proof.
  induction requested as [|g requested IH]; cbn [firstUnsupported]; [set_solver|].
  rewrite not_elem_of_cons. intros [Hg Hne] Hf. destruct (hasFeature supported g) eqn:Eg; [|done].
  cbn [negb] in Hf. apply hasRole_spec in Eg. specialize (IH Hne Hf). set_solver.
Qed.

(** What the controller's reads keep of the world. *)
Record gateway_keeps (I : W -> Prop) : Prop := {
  gk_class key : keeps I (k8s_Get (T := VPNGatewayClass) key);
  gk_config key : keeps I (k8s_Get (T := ConfigMap) key);
  gk_secret key : keeps I (k8s_Get (T := SecretMetadata) key)
}.

(** A reference that was allowed and read. *)
Definition ref_resolved (I : W -> Prop) (T : Type) `{Getter W T} (roles : list string) (namespace : string)
    (ref : RoleObjectReference) : Prop :=
  ror_Role ref ∈ roles /\ exists object, answered I (k8s_Get (T := T) (mkObjectKey namespace (ror_Name ref))) (Ok object).

Lemma resolve_native_sound I namespace refs w :
  gateway_keeps I -> I w ->
  wp (resolve_native namespace refs)
    (fun res w' => I w' /\ (res = Ok None -> Forall (ref_resolved I ConfigMap (gr_NativeConfigRoles r) namespace) refs)) w.
Proof.
  intros Hk. revert w. induction refs as [|ref refs IH]; intros w Hw; cbn [resolve_native]; [by wp_step|].
  destruct (hasRole _ _) eqn:Er; cbn [negb]; [|by wp_step]. apply hasRole_spec in Er.
  do 2 wp_step. apply (wp_asked I); [apply Hk|done|]. intros got w1 Hw1 Hgot. destruct got as [object|e]; [|by wp_step].
  wp_with IH; [done|]. intros res w2 [Hw2 Hall]. split; [done|]. intros Hres. constructor; [|auto]. split; [done|]. by exists object.
Qed.

Lemma resolve_credentials_sound I namespace refs tls w :
  gateway_keeps I -> I w ->
  wp (resolve_credentials namespace refs tls)
    (fun res w' => I w' /\ forall tls', res = Ok (inr tls') ->
       Forall (ref_resolved I SecretMetadata (gr_CredentialRoles r) namespace) refs /\
       tls' = tls || existsb (fun ref => String.eqb (ror_Role ref) GatewayRuntimeTLSRole) refs) w.
Proof.
  intros Hk. revert tls w. induction refs as [|ref refs IH]; intros tls w Hw; cbn [resolve_credentials].
  { wp_step. split; [done|]. intros ? [= ->]. by rewrite orb_false_r. }
  destruct (hasRole _ _) eqn:Er; cbn [negb]; [|by wp_step]. apply hasRole_spec in Er.
  do 2 wp_step. apply (wp_asked I); [apply Hk|done|]. intros got w1 Hw1 Hgot. destruct got as [object|e]; [|by wp_step].
  wp_with IH; [done|]. intros res w2 [Hw2 Hall]. split; [done|]. intros tls' Hres. destruct (Hall tls' Hres) as [Hf ->].
  split; [|cbn; by rewrite orb_assoc]. constructor; [|done]. split; [done|]. by exists object.
Qed.

(** Every reference of the gateway resolved, and the runtime TLS credential is
    there exactly when port forwarding is requested. *)
Definition inputs_resolved (I : W -> Prop) (gateway : VPNGateway) : Prop :=
  Forall (ref_resolved I ConfigMap (gr_NativeConfigRoles r) (Namespace (gw_Meta gateway)))
    (gw_NativeConfigRefs (gw_Spec gateway)) /\
  Forall (ref_resolved I SecretMetadata (gr_CredentialRoles r) (Namespace (gw_Meta gateway)))
    (gw_CredentialRefs (gw_Spec gateway)) /\
  existsb (fun ref => String.eqb (ror_Role ref) GatewayRuntimeTLSRole) (gw_CredentialRefs (gw_Spec gateway)) =
    hasFeature (gw_RequestedFeatures (gw_Spec gateway)) FeaturePortForwardSingleActive.

Lemma resolveInputs_sound I gateway w :
  gateway_keeps I -> I w -> wp (resolveInputs gateway) (fun res w' => I w' /\ (res = Ok None -> inputs_resolved I gateway)) w.
Proof.
  intros Hk Hw. unfold resolveInputs. wp_step. wp_with (resolve_native_sound I); [done..|]. intros native w1 [Hw1 Hn].
  destruct native as [[state|]|e]; cbn [after]; [by wp_step| |done].
  wp_step. wp_with (resolve_credentials_sound I); [done..|]. intros credentials w2 [Hw2 Hc].
  destruct credentials as [[state|tls]|e]; cbn [after]; [by wp_step| |done].
  destruct (Hc tls eq_refl) as [Hf Htls]. cbn [orb] in Htls. specialize (Hn eq_refl).
  destruct (hasFeature _ _) eqn:Ef, tls; cbn [negb andb]; wp_step; (split; [done|]); try done; intros _; split_and!; congruence.
Qed.

Definition current_ready (gateway : VPNGateway) (status : VPNGatewayStatus) : bool :=
  CurrentTrue (gw_Conditions status) ConditionReady (gw_ObservedGeneration status) (Generation (gw_Meta gateway)).

Lemma finish_run gateway class features addresses states w status w' :
  finishStatus gateway class features addresses states w = (Ok status, w') ->
  status = gateway_status gateway class features addresses states (clock_now w) /\ w' = w.
Proof. unfold finishStatus, mbind, io_bind, read_clock, mret, io_ret. split; congruence. Qed.

Lemma finish_ready gateway class features addresses states w status w' :
  finishStatus gateway class features addresses states w = (Ok status, w') ->
  current_ready gateway status = state_true states ConditionReady.
Proof.
  intros [-> _]%finish_run. unfold current_ready. cbn [gw_Conditions gw_ObservedGeneration gateway_status].
  apply eq_true_iff_eq. rewrite Build_current_true, state_true_spec by set_solver. naive_solver.
Qed.

(** [finishStatus] without a Ready observation. *)
Lemma wp_finish_not_ready gateway class features addresses states (Q : VPNGatewayStatus -> Prop) w :
  state_true states ConditionReady = false ->
  wp (finishStatus gateway class features addresses states)
    (fun res _ => forall status, res = Ok status -> current_ready gateway status = true -> Q status) w.
Proof.
  intros Hs. wp_run outcome w1 E. intros status -> Hr. apply finish_ready in E. congruence.
Qed.

Lemma pending_not_ready accepted resolved :
  state_true (set_acceptance accepted resolved gatewayPendingStates) ConditionReady = false.
Proof. unfold state_true, set_acceptance. by rewrite !lookup_insert_ne. Qed.

Lemma observation_ready o states :
  state_true states ConditionReady = false ->
  state_true (observation_states o states) ConditionReady = true ->
  ro_Programmed o && ro_TunnelReady o && ro_DNSReady o && ro_MembershipApplied o && ro_Ready o = true.
Proof.
  unfold observation_states, state_true. intros Hf.
  destruct (ro_Programmed o), (ro_TunnelReady o), (ro_DNSReady o), (ro_MembershipApplied o), (ro_Ready o);
    cbn [andb]; rewrite ?lookup_insert_ne by done; try done; by rewrite Hf.
Qed.

(** ** The status contract *)

Lemma class_rejection_stable class a b :
  class_rejection r class = Some (a, b) ->
  stable_state ConditionAccepted a = true /\ stable_state ConditionResolvedRefs b = true.
Proof. unfold class_rejection. repeat (case_match; try done); by intros [= <- <-]. Qed.

Lemma feature_rejection_stable requested supported a b :
  feature_rejection requested supported = Some (a, b) ->
  stable_state ConditionAccepted a = true /\ stable_state ConditionResolvedRefs b = true.
Proof. unfold feature_rejection. repeat (case_match; try done); by intros [= <- <-]. Qed.

Lemma unresolved_stable err message : stable_state ConditionResolvedRefs (unresolvedReference err message) = true.
Proof. unfold unresolvedReference. by repeat case_match. Qed.

Lemma pending_stable : stable_states gatewayPendingStates.
Proof. unfold gatewayPendingStates. solve_stable. Qed.

Lemma acceptance_stable a b states :
  stable_states states -> stable_state ConditionAccepted a = true /\ stable_state ConditionResolvedRefs b = true ->
  stable_states (set_acceptance a b states).
Proof. intros Hs [Ha Hb]. unfold set_acceptance. by apply stable_insert, stable_insert. Qed.

Lemma observation_stable o states : stable_states states -> stable_states (observation_states o states).
Proof. intros Hs. unfold observation_states. solve_stable. Qed.

Lemma resolveInputs_stable gateway w :
  wp (resolveInputs gateway)
    (fun res _ => forall state, res = Ok (Some state) -> stable_state ConditionResolvedRefs state = true) w.
Proof.
  assert (forall ns refs w, wp (resolve_native ns refs)
    (fun res _ => forall state, res = Ok (Some state) -> stable_state ConditionResolvedRefs state = true) w) as Hn.
  { intros ns refs. induction refs as [|ref refs IH]; intros w0; cbn [resolve_native]; [by wp_step|].
    destruct (negb _); [wp_step; by intros ? [= <-]|]. do 2 wp_step. wp_run got w1 E.
    destruct got; [apply IH|wp_step; intros ? [= <-]; apply unresolved_stable]. }
  assert (forall ns refs tls w, wp (resolve_credentials ns refs tls)
    (fun res _ => forall state, res = Ok (inl state) -> stable_state ConditionResolvedRefs state = true) w) as Hc.
  { intros ns refs. induction refs as [|ref refs IH]; intros tls w0; cbn [resolve_credentials]; [by wp_step|].
    destruct (negb _); [wp_step; by intros ? [= <-]|]. do 2 wp_step. wp_run got w1 E.
    destruct got; [apply IH|wp_step; intros ? [= <-]; apply unresolved_stable]. }
  unfold resolveInputs. wp_step. wp_with Hn. intros native w1 Hs. destruct native as [[state|]|]; cbn [after]; [|clear Hs|done].
  { wp_step. intros ? [= <-]. by apply Hs. }
  wp_step. wp_with Hc. intros credentials w2 Hs. destruct credentials as [[state|tls]|]; cbn [after]; [| |done].
  { wp_step. intros ? [= <-]. by apply Hs. }
  repeat case_match; wp_step; by intros ? [= <-].
Qed.

(** The CRD rules on the conditions of a gateway. *)
Definition gateway_conditions_admitted (status : VPNGatewayStatus) : bool := GatewayConditions_valid (gw_Conditions status).

Lemma wp_finish_admitted gateway class features addresses states w :
  stable_states states ->
  wp (finishStatus gateway class features addresses states)
    (fun res _ => forall status, res = Ok status -> gateway_conditions_admitted status = true) w.
Proof.
  intros Hs. wp_run outcome w1 E. intros status ->. apply finish_run in E as [-> _].
  by apply Build_types_admitted; [apply (bool_decide_unpack _)|apply (bool_decide_unpack _)|..].
Qed.

Lemma gateway_desired_admitted gateway w :
  wp (gateway_desiredStatus gateway)
    (fun res _ => forall status, res = Ok status -> gateway_conditions_admitted status = true) w.
Proof.
  unfold gateway_desiredStatus. do 2 wp_step. wp_run got w0 Eg.
  destruct got as [class|e]; [|apply wp_finish_admitted, acceptance_stable; [apply pending_stable|done]].
  destruct (class_rejection r class) as [[a b]|] eqn:Ec.
  { apply wp_finish_admitted, acceptance_stable; [apply pending_stable|by eapply class_rejection_stable]. }
  destruct (feature_rejection _ _) as [[a b]|] eqn:Ef.
  { apply wp_finish_admitted, acceptance_stable; [apply pending_stable|by eapply feature_rejection_stable]. }
  unfold accepted_status. wp_step. wp_with resolveInputs_stable. intros inputs w1 Hi.
  destruct inputs as [[state|]|e]; cbn [after]; [| |done].
  { apply wp_finish_admitted, stable_insert; [by apply Hi|]. apply stable_insert; [done|apply pending_stable]. }
  set (states := <[ConditionResolvedRefs := _]> _).
  assert (stable_states states) as Hst by (do 2 (apply stable_insert; [done|]); apply pending_stable).
  clearbody states. destruct Runtime as [reconcile|]; [|by apply wp_finish_admitted].
  do 2 wp_step. wp_run observed w2 Eo.
  destruct observed as [o|e]; apply wp_finish_admitted; [by apply observation_stable|].
  unfold runtime_failed_states. solve_stable.
Qed.

(** What stands behind a ready gateway. *)
Definition gateway_backed (I : W -> Prop) (gateway : VPNGateway) (status : VPNGatewayStatus) (w w' : W) : Prop :=
  exists class reconcile observation w1,
    (k8s_Get (T := VPNGatewayClass) (mkObjectKey "" (gw_GatewayClassName (gw_Spec gateway))) w).1 = Ok class /\
    class_rejection r class = None /\ inputs_resolved I gateway /\
    Runtime = Some reconcile /\ I w1 /\ reconcile gateway w1 = (Ok observation, w') /\
    ro_Programmed observation && ro_TunnelReady observation && ro_DNSReady observation &&
      ro_MembershipApplied observation && ro_Ready observation = true /\
    gw_Addresses status = ro_Addresses observation.

(** C39: A gateway is published as ready only on live evidence, gathered in this
    very pass: in worlds that have every property [I] of the pass's first world
    that the reads keep.  Whatever the API server and the runtime answer, a status with a current Ready was
    computed from a class that was read and passed every class check, with
    every requested feature among the release's, every configuration and
    credential reference read in an allowed role, and a runtime observation in
    which the program, tunnel, DNS and membership are all reported up; the
    addresses are the ones observed with it. *)
Theorem gateway_ready_sound gateway w :
  "" ∉ gw_RequestedFeatures (gw_Spec gateway) ->
  wp (gateway_desiredStatus gateway)
    (fun res w' => forall I, gateway_keeps I -> I w -> forall status, res = Ok status -> current_ready gateway status = true ->
       gw_RequestedFeatures (gw_Spec gateway) ⊆ gr_SupportedFeatures r /\ gateway_backed I gateway status w w') w.
Proof.
  intros Hne. apply wp_forall. intros I. apply wp_given. intros Hk. apply wp_given. intros Hw.
  unfold gateway_desiredStatus. do 2 wp_step. wp_run got w0 Eg.
  pose proof (gk_class _ Hk (mkObjectKey "" (gw_GatewayClassName (gw_Spec gateway))) w Hw) as Hw0. rewrite Eg in Hw0. cbn [snd] in Hw0.
  destruct got as [class|e]; [|by apply wp_finish_not_ready, pending_not_ready].
  destruct (class_rejection r class) as [[a b]|] eqn:Ec; [by apply wp_finish_not_ready, pending_not_ready|].
  destruct (feature_rejection _ _) as [[a b]|] eqn:Ef; [by apply wp_finish_not_ready, pending_not_ready|].
  unfold accepted_status. wp_step. wp_with (resolveInputs_sound I); [done..|]. intros inputs w1 [Hw1 Hi].
  destruct inputs as [[state|]|e]; cbn [after]; [|specialize (Hi eq_refl)|done].
  { by apply wp_finish_not_ready. }
  destruct Runtime as [reconcile|] eqn:ER; [|by apply wp_finish_not_ready].
  do 2 wp_step. wp_run observed w2 Eo. destruct observed as [o|e]; [|by apply wp_finish_not_ready].
  wp_run outcome w3 Es. intros status -> Hr. pose proof (finish_ready _ _ _ _ _ _ _ _ Es) as Hready.
  apply finish_run in Es as [-> ->]. rewrite Hr in Hready. symmetry in Hready.
  apply observation_ready in Hready; [|reflexivity].
  split; [|exists class, reconcile, o, w1; rewrite Eg; auto 10].
  unfold feature_rejection in Ef. destruct (str_empty _) eqn:Ee; [|done]. apply str_empty_spec in Ee.
  apply firstUnsupported_none in Ee; [|done]. unfold sortedFeatures in Ee.
  intros f Hf%Ee. by rewrite sort_by_perm in Hf.
Qed.

End GatewayController.

(** No status the controller writes is rejected for its conditions. *)
Section GatewayStatus.
Context `{ApiMeta} {W : Type}.
Context `{!Getter W VPNGateway, !Getter W VPNGatewayClass, !Getter W ConfigMap, !Getter W SecretMetadata}.
Context (r : ReplacementVPNGatewayReconciler) (Runtime : option (VPNGateway -> IO W GatewayRuntimeObservation)).

Lemma gateway_never_rejected {A : StatusApplier W VPNGatewayStatus} `{!Clock W} request w :
  gateway_Reconcile (H5 := validating gateway_conditions_admitted A) r Runtime request w =
  gateway_Reconcile r Runtime request w.
Proof.
  unfold gateway_Reconcile, reconcile_object, mbind, io_bind, io_try, io_wrap.
  destruct (k8s_Get request w) as [[gateway|e] w1]; [|done].
  destruct (gateway_desiredStatus r Runtime gateway w1) as [[desired|e] w2] eqn:E; [|done].
  case_decide; [done|].
  rewrite validating_admitted; [done|]. by apply (wp_elim _ _ _ _ _ (gateway_desired_admitted r Runtime gateway w1) E).
Qed.

(** The gateway with a status stored. *)
Definition with_status (gateway : VPNGateway) (status : VPNGatewayStatus) : VPNGateway :=
  mkVPNGateway (gw_Meta gateway) (gw_Spec gateway) status.

Lemma finish_settles {clock clock' : Clock W} gateway class features addresses states w status w' :
  @finishStatus _ W clock gateway class features addresses states w = (Ok status, w') ->
  @finishStatus _ W clock' (with_status gateway status) class features addresses states w = (Ok status, w').
Proof.
  intros [-> ->]%finish_run. unfold finishStatus, mbind, io_bind, read_clock, mret, io_ret. f_equal. f_equal.
  unfold gateway_status. cbn [with_status gw_Meta gw_Status gw_Conditions]. f_equal.
  apply (Build_settles (gw_Conditions (gw_Status gateway)) (Generation (gw_Meta gateway))
           (clock_now (Clock := clock) w) (clock_now (Clock := clock') w) gatewayOrder states).
Qed.

(** With the same answers at any other time, a stored status is recomputed
    unchanged, so the controller stops writing. *)
Lemma gateway_settles {clock clock' : Clock W} gateway status w w' :
  (forall reconcile, Runtime = Some reconcile -> reconcile (with_status gateway status) = reconcile gateway) ->
  gateway_desiredStatus (H6 := clock) r Runtime gateway w = (Ok status, w') ->
  gateway_desiredStatus (H6 := clock') r Runtime (with_status gateway status) w = (Ok status, w').
Proof.
  intros Hrt. unfold gateway_desiredStatus, mbind, io_bind, io_try. cbn [with_status gw_Spec].
  destruct (k8s_Get _ w) as [[class|e] w1]; [|apply finish_settles].
  destruct (class_rejection r class) as [[a b]|]; [apply finish_settles|].
  destruct (feature_rejection _ _) as [[a b]|]; [apply finish_settles|].
  unfold accepted_status, mbind, io_bind, io_try.
  change (resolveInputs r (with_status gateway status) w1) with (resolveInputs r gateway w1).
  destruct (resolveInputs r gateway w1) as [[[state|]|e] w2]; [apply finish_settles| |done].
  destruct Runtime as [reconcile|]; [|apply finish_settles]. rewrite (Hrt reconcile) by done.
  destruct (reconcile gateway w2) as [[o|e] w3]; apply finish_settles.
Qed.

End GatewayStatus.

(** ** Witness: a class of this release and a runtime that reports up *)

Module GatewaySample.

Definition meta (ns name : string) : ObjectMeta := mkObjectMeta ns name "uid" 1 None ∅ ∅ [] [].
Definition identity : ReleaseIdentity := mkReleaseIdentity "1.0.0" "sha256:0".

Definition class : VPNGatewayClass :=
  mkVPNGatewayClass (meta "" "class")
    (mkVPNGatewayClassSpec DefaultGatewayControllerName None identity BaselineFeatures "profile")
    (mkVPNGatewayClassStatus 1 (map (fun t => mkCondition t ConditionTrue t "" 1 0) SummaryOrder)).

Definition reconciler : ReplacementVPNGatewayReconciler :=
  mkReplacementVPNGatewayReconciler DefaultGatewayControllerName identity "profile" BaselineFeatures
    [GluetunEnvironmentRole] [OpenVPNCredentialsRole] 0.

Definition gateway : VPNGateway :=
  mkVPNGateway (meta "vpn" "gw")
    (mkVPNGatewaySpec "class" [mkRoleObjectReference GluetunEnvironmentRole "env"]
       [mkRoleObjectReference OpenVPNCredentialsRole "credentials"] [FeatureTCP]
       (mkAllowedRoutes (mkRouteNamespaces RouteNamespaceSame None))
       (mkClusterTraffic ClusterTrafficTunnelAll []) DNSModeGateway (mkGatewayPlacement ∅ []))
    (mkVPNGatewayStatus 0 None [] [] []).

#[local] Instance class_getter : Getter unit VPNGatewayClass := fun _ w => (Ok class, w).
#[local] Instance config_getter : Getter unit ConfigMap := fun key w => (Ok (mkConfigMap (meta "vpn" (key_Name key)) ∅), w).
#[local] Instance secret_getter : Getter unit SecretMetadata := fun key w => (Ok (mkSecretMetadata (meta "vpn" (key_Name key))), w).
#[local] Instance sample_clock : Clock unit := fun _ => 0.

Definition runtime (g : VPNGateway) : IO unit GatewayRuntimeObservation :=
  mret (mkGatewayRuntimeObservation true true true true true []).

Lemma gateway_ready_sound_witness :
  [FeatureTCP] ⊆ BaselineFeatures /\
  exists status, (gateway_desiredStatus reconciler (Some runtime) gateway tt).1 = Ok status /\
    gateway_backed reconciler (Some runtime) (fun _ => True) gateway status tt tt.
Proof.
  destruct (gateway_desiredStatus reconciler (Some runtime) gateway tt) as [[status|e] w'] eqn:E;
    [|vm_compute in E; discriminate E].
  assert (current_ready gateway status = true) as Hr.
  { vm_compute in E. injection E as <- _. vm_compute. reflexivity. }
  destruct (wp_elim _ _ _ _ _ (gateway_ready_sound reconciler (Some runtime) gateway tt
    ltac:(cbn; set_solver)) E (fun _ => True) ltac:(done) Logic.I status eq_refl Hr) as [Hf Hb]. destruct w'.
  split; [exact Hf|]. exists status. split; [reflexivity|exact Hb].
Defined.

End GatewaySample.
