(* ===== verification/Reservation.v ===== *)
(** * Durable address reservations (internal/binding/allocation.go)

    An allocation is a Kubernetes Lease whose name is derived from the gateway
    and the address: creating it is the claim.  The operations run against any
    API client; the theorems run them against a server that other clients
    change between any two requests and that may fail any request. *)

From S2P Require Import Prelude Sha256 Netip Allocation Api Kube.

Definition ReservationManagedByLabel : string := "networking.waycloak.io/managed-by".
Definition ReservationGatewayLabel : string := "networking.waycloak.io/gateway-identity".
Definition ReservationManagedByValue : string := "binding-controller".
Definition ReservationGatewayUIDAnnotation : string := "networking.waycloak.io/gateway-uid".
Definition ReservationPodUIDAnnotation : string := "networking.waycloak.io/pod-uid".
Definition ReservationAddressAnnotation : string := "networking.waycloak.io/address".
Definition ReservationStateAnnotation : string := "networking.waycloak.io/reservation-state".
Definition ReservationStateActive : string := "Active".
Definition ReservationStateQuarantined : string := "Quarantined".

Definition ErrPoolExhausted : error := ESentinel "gateway workload address pool is exhausted".
Definition ErrUnsafePool : error := ESentinel "gateway workload address pool is not safely allocatable".
Definition ErrReservationConflict : error := ESentinel "address reservation belongs to another allocation".
Definition ErrReservationDeleting : error := ESentinel "address reservation deletion is still in progress".
Definition ErrIdentityQuarantined : error := ESentinel "allocation identity has a quarantined address".

(** [coordinationv1.Lease], as far as the source writes and reads it. *)
Record Lease := mkLease {
  lease_Meta : ObjectMeta;
  lease_HolderIdentity : option string;
  lease_AcquireTime : option time
}.

Record Reservation := mkReservation {
  rv_Lease : Lease;
  rv_Identity : string;
  rv_Address : Prefix;
  rv_Recovered : bool
}.

(** ** Names *)

Definition nul : string := String Ascii.zero "".

Definition shortHash (value : string) : string :=
  EncodeToString (take 10 (Sum256 (bytes_of_string value))).

Definition BindingName (podUID : string) : string := "pod-" +:+ shortHash podUID.

Definition reservationName (gatewayUID : string) (address : Prefix) : string :=
  "waycloak-address-" +:+ shortHash (gatewayUID +:+ nul +:+ Prefix_String address).

Definition allocationIdentity (gatewayUID podUID : string) : string :=
  "alloc-" +:+ EncodeToString (take 16 (Sum256 (bytes_of_string
    ("waycloak-allocation-v1" +:+ nul +:+ gatewayUID +:+ nul +:+ podUID)))).

Definition reservation_state (lease : Lease) : string :=
  map_get (Annotations (lease_Meta lease)) ReservationStateAnnotation.

(** The conditions [reservationMatches] and [quarantineMatches] share. *)
Definition lease_matches (state : string) (lease : Lease) (gatewayUID podUID identity : string) (address : Prefix) : bool :=
  let annotations := Annotations (lease_Meta lease) in
  bool_decide (lease_HolderIdentity lease = Some identity) &&
  String.eqb (map_get annotations ReservationGatewayUIDAnnotation) gatewayUID &&
  String.eqb (map_get annotations ReservationPodUIDAnnotation) podUID &&
  String.eqb (map_get annotations ReservationAddressAnnotation) (Prefix_String address) &&
  String.eqb (map_get annotations ReservationStateAnnotation) state.

Definition reservationMatches : Lease -> string -> string -> string -> Prefix -> bool :=
  lease_matches ReservationStateActive.
Definition quarantineMatches : Lease -> string -> string -> string -> Prefix -> bool :=
  lease_matches ReservationStateQuarantined.

(** The lease for an allocation; of the gateway only the metadata is read. *)
Definition desiredLease (now : time) (gateway : ObjectMeta) (podUID identity : string) (address : Prefix) : Lease :=
  mkLease
    (mkObjectMeta (Namespace gateway) (reservationName (UID gateway) address) "" 0 None
       (<[ReservationManagedByLabel := ReservationManagedByValue]>
          {[ReservationGatewayLabel := shortHash (UID gateway)]})
       (<[ReservationGatewayUIDAnnotation := UID gateway]>
        (<[ReservationPodUIDAnnotation := podUID]>
         (<[ReservationAddressAnnotation := Prefix_String address]>
            {[ReservationStateAnnotation := ReservationStateActive]})))
       []
       [mkOwnerReference "networking.waycloak.io/v1beta1" "VPNGateway" (Name gateway) (UID gateway) None])
    (Some identity) (Some now).

(** [annotations[state] = Quarantined] on a copy. *)
Definition quarantined (lease : Lease) : Lease :=
  let m := lease_Meta lease in
  mkLease
    (mkObjectMeta (Namespace m) (Name m) (UID m) (Generation m) (DeletionTimestamp m) (Labels m)
       (<[ReservationStateAnnotation := ReservationStateQuarantined]> (Annotations m)) (Finalizers m) (OwnerReferences m))
    (lease_HolderIdentity lease) (lease_AcquireTime lease).

(** ** The probe sequence *)

Definition u32 (x : Z) : Z := x `mod` 2 ^ 32.

Definition probe_hosts (pool : Prefix) : Z := u32 (Z.shiftl 1 (32 - Prefix_Bits pool)).
Definition probe_usable (pool : Prefix) : Z := u32 (probe_hosts pool - 3).

Definition probe_start (podUID : string) (usable : Z) : Z :=
  let seed := Sum256 (bytes_of_string podUID) in
  Z.lor (Z.lor (Z.lor (u32 (Z.shiftl (nth 0 seed 0) 24)) (Z.shiftl (nth 1 seed 0) 16)) (Z.shiftl (nth 2 seed 0) 8))
    (nth 3 seed 0) `mod` usable.

(** The address of one attempt in a pool that starts at [baseValue]. *)
Definition probe_value (baseValue usable start attempt : Z) : Z :=
  let offset := u32 (2 + u32 (start + attempt) `mod` usable) in
  u32 (baseValue + offset).

Definition probe_address (baseValue usable start attempt : Z) : Prefix :=
  PrefixFrom (Addr4 (probe_value baseValue usable start attempt)) 32.

(** A pool that [Reserve] accepts: IPv4, /16 to /29. *)
Definition safe_pool (pool : Prefix) : bool :=
  Prefix_IsValid pool && Addr_Is4 (Prefix_Addr pool) && (16 <=? Prefix_Bits pool) && (Prefix_Bits pool <=? 29).

(** The model's own error for a probe loop that runs out of fuel. *)
Definition ErrFuel : error := ESentinel "probe loop out of fuel".

Section Allocator.
Context {W : Type} `{Getter W Lease} `{Lister W Lease} `{Creator W Lease} `{Patcher W Lease} `{Deleter W Lease}.
Context `{Clock W}.

Definition claims_quarantined (gatewayUID podUID identity : string) (lease : Lease) : bool :=
  let annotations := Annotations (lease_Meta lease) in
  String.eqb (map_get annotations ReservationGatewayUIDAnnotation) gatewayUID &&
  String.eqb (map_get annotations ReservationPodUIDAnnotation) podUID &&
  bool_decide (lease_HolderIdentity lease = Some identity) &&
  String.eqb (map_get annotations ReservationStateAnnotation) ReservationStateQuarantined.

(** Look at who has the address of an attempt.  [again] is the loop from a
    given attempt on. *)
Definition Reserve_conflict (gateway : ObjectMeta) (podUID identity : string) (prefix : Prefix) (attempt : Z)
    (key : ObjectKey) (again : Z -> IO W Reservation) : IO W Reservation :=
  got ← io_try (k8s_Get key);
  match got with
  | Fail err =>
      if IsNotFound err then
        let attempt := if 0 <? attempt then attempt - 1 else attempt in
        again (u32 (attempt + 1))
      else io_fail (Errorf "read conflicting address reservation" err)
  | Ok existing =>
      if reservationMatches existing (UID gateway) podUID identity prefix
      then mret (mkReservation existing identity prefix true)
      else again (u32 (attempt + 1))
  end.

(** One attempt: claim the address, or look at who has it. *)
Definition Reserve_attempt (gateway : ObjectMeta) (podUID identity : string) (prefix : Prefix) (attempt : Z)
    (again : Z -> IO W Reservation) : IO W Reservation :=
  now ← read_clock;
  let lease := desiredLease now gateway podUID identity prefix in
  created ← io_try (k8s_Create lease);
  match created with
  | Ok stored => mret (mkReservation stored identity prefix false)
  | Fail err =>
      if negb (IsAlreadyExists err) then io_fail (Errorf "create durable address reservation" err)
      else Reserve_conflict gateway podUID identity prefix attempt (key_of (lease_Meta lease)) again
  end.

(** The loop over attempts.  A reservation that vanished between the create
    and the read is tried again without a bound of its own, so the fuel counts
    rounds and not attempts. *)
Fixpoint Reserve_probe (fuel : nat) (gateway : ObjectMeta) (podUID identity : string)
    (baseValue usable start attempt : Z) : IO W Reservation :=
  match fuel with
  | O => io_fail ErrFuel
  | S fuel' =>
      if negb (attempt <? usable) then io_fail ErrPoolExhausted
      else Reserve_attempt gateway podUID identity (probe_address baseValue usable start attempt) attempt
             (fun a => Reserve_probe fuel' gateway podUID identity baseValue usable start a)
  end.

Definition Reserve (fuel : nat) (gateway : ObjectMeta) (podUID : string) (pool : Prefix) : IO W Reservation :=
  if str_empty (UID gateway) || str_empty podUID
  then io_fail (ENew "client and exact gateway and Pod UIDs are required")
  else
    let pool := Prefix_Masked pool in
    if negb (safe_pool pool) then io_fail (EWrap "require an IPv4 /16 through /29 pool" [ErrUnsafePool])
    else
      let identity := allocationIdentity (UID gateway) podUID in
      reservations ← io_wrap "inspect durable address reservations"
        (k8s_List (MatchingLabels (Namespace gateway)
           (<[ReservationManagedByLabel := ReservationManagedByValue]>
              {[ReservationGatewayLabel := shortHash (UID gateway)]})));
      if existsb (claims_quarantined (UID gateway) podUID identity) reservations
      then io_fail ErrIdentityQuarantined
      else
        let usable := probe_usable pool in
        Reserve_probe fuel gateway podUID identity (Addr_value (Prefix_Addr pool)) usable
          (probe_start podUID usable) 0.

(** The gateway metadata a binding names. *)
Definition binding_gateway (binding : VPNWorkloadBinding) : ObjectMeta :=
  let ref := wb_GatewayRef (wb_Spec binding) in
  mkObjectMeta (nur_Namespace ref) (nur_Name ref) (nur_UID ref) 0 None ∅ ∅ [] [].

Definition binding_podUID (binding : VPNWorkloadBinding) : string := lur_UID (wb_PodRef (wb_Spec binding)).
Definition binding_identity (binding : VPNWorkloadBinding) : string := wa_Identity (wb_Allocation (wb_Spec binding)).

(** [netip.ParsePrefix(binding.Spec.Allocation.Address)] with its error. *)
Definition binding_address (msg : string) (binding : VPNWorkloadBinding) : res Prefix :=
  match ParsePrefix (wa_Address (wb_Allocation (wb_Spec binding))) with
  | Some p => Ok p
  | None => Fail (Errorf msg (ENew "netip.ParsePrefix"))
  end.

Definition Quarantine (binding : VPNWorkloadBinding) : IO W unit :=
  address ← io_lift (binding_address "parse binding address for quarantine" binding);
  let gateway := binding_gateway binding in
  let podUID := binding_podUID binding in
  let identity := binding_identity binding in
  now ← read_clock;
  let desired := quarantined (desiredLease now gateway podUID identity address) in
  created ← io_try (k8s_Create desired);
  match created with
  | Ok _ => mret tt
  | Fail err =>
      if negb (IsAlreadyExists err) then io_fail (Errorf "create durable quarantine" err)
      else
        current ← io_wrap "read address reservation for quarantine" (k8s_Get (key_of (lease_Meta desired)));
        if negb (not_deleting (lease_Meta current)) then io_fail ErrReservationDeleting
        else if String.eqb (reservation_state current) ReservationStateQuarantined then
          if quarantineMatches current (UID gateway) podUID identity address then mret tt
          else io_fail ErrReservationConflict
        else if negb (reservationMatches current (UID gateway) podUID identity address)
        then io_fail ErrReservationConflict
        else k8s_Patch current (quarantined current)
  end.

Definition ReservationForBinding (binding : VPNWorkloadBinding) : res ObjectKey :=
  match binding_address "parse binding allocation address" binding with
  | Ok address =>
      let ref := wb_GatewayRef (wb_Spec binding) in
      Ok (mkObjectKey (nur_Namespace ref) (reservationName (nur_UID ref) address))
  | Fail e => Fail e
  end.

Definition Release (binding : VPNWorkloadBinding) : IO W unit :=
  key ← io_lift (ReservationForBinding binding);
  got ← io_try (k8s_Get (T := Lease) key);
  match got with
  | Fail err => if IsNotFound err then mret tt else io_fail err
  | Ok current =>
      address ← io_lift (binding_address "" binding);
      if negb (reservationMatches current (nur_UID (wb_GatewayRef (wb_Spec binding))) (binding_podUID binding)
                 (binding_identity binding) address)
      then io_fail ErrReservationConflict
      else IgnoreNotFound (k8s_Delete current)
  end.

Definition Ensure (gateway : ObjectMeta) (binding : VPNWorkloadBinding) : IO W Lease :=
  address ← io_lift (binding_address "parse binding address" binding);
  let podUID := binding_podUID binding in
  let identity := binding_identity binding in
  now ← read_clock;
  let lease := desiredLease now gateway podUID identity address in
  created ← io_try (k8s_Create lease);
  match created with
  | Ok stored => mret stored
  | Fail err =>
      if negb (IsAlreadyExists err) then io_fail (Errorf "restore durable address reservation" err)
      else
        existing ← io_wrap "read durable address reservation" (k8s_Get (key_of (lease_Meta lease)));
        if negb (reservationMatches existing (UID gateway) podUID identity address)
        then io_fail ErrReservationConflict
        else mret existing
  end.

End Allocator.

Definition ParseOverlayCIDR (gateway : VPNGateway) : res Prefix :=
  match List.find (fun a => String.eqb (ga_Type a) GatewayAddressTypeOverlayCIDR) (gw_Addresses (gw_Status gateway)) with
  | None => Fail (ENew "gateway has no observed overlay CIDR")
  | Some address =>
      match ParsePrefix (ga_Value address) with
      | None => Fail (Errorf "parse observed gateway overlay CIDR" (ENew "netip.ParsePrefix"))
      | Some prefix => Ok (Prefix_Masked prefix)
      end
  end.

(** ** Against a shared API server *)

Notation server := (api Lease).

#[global] Instance server_Getter : Getter server Lease := api_get.
#[global] Instance server_Lister : Lister server Lease := api_list lease_Meta.
#[global] Instance server_Creator : Creator server Lease := api_create lease_Meta.
#[global] Instance server_Deleter : Deleter server Lease := api_delete lease_Meta.

(** A merge patch sets the annotations that differ and leaves the rest of the
    stored object alone. *)
Definition merge_annotations (base modified : Lease) (current : Lease) : Lease :=
  let m := lease_Meta current in
  let changed := filter (fun kv => Annotations (lease_Meta base) !! kv.1 <> Some kv.2) (Annotations (lease_Meta modified)) in
  mkLease (mkObjectMeta (Namespace m) (Name m) (UID m) (Generation m) (DeletionTimestamp m) (Labels m)
             (changed ∪ Annotations m) (Finalizers m) (OwnerReferences m))
    (lease_HolderIdentity current) (lease_AcquireTime current).

#[global] Instance server_Patcher : Patcher server Lease := fun base modified =>
  api_call (fun w => let key := key_of (lease_Meta modified) in
                     match api_objs w !! key with
                     | Some current => (Ok tt, set_objs (<[key := merge_annotations base modified current]> (api_objs w)) w)
                     | None => (Fail (EStatus ReasonNotFound), w)
                     end).

Definition reservation_key (gateway : ObjectMeta) (address : Prefix) : ObjectKey :=
  mkObjectKey (Namespace gateway) (reservationName (UID gateway) address).

Lemma desired_key now gateway podUID identity address :
  key_of (lease_Meta (desiredLease now gateway podUID identity address)) = reservation_key gateway address.
Proof. done. Qed.

Lemma desired_matches now gateway podUID identity address :
  reservationMatches (desiredLease now gateway podUID identity address) (UID gateway) podUID identity address = true.
Proof.
  unfold reservationMatches, lease_matches, desiredLease. cbn [lease_Meta lease_HolderIdentity Annotations].
  unfold map_get. repeat first [rewrite lookup_insert_eq | rewrite lookup_insert_ne by done].
  rewrite lookup_singleton_eq. cbn [default]. by rewrite bool_decide_true, !String.eqb_refl.
Qed.

Lemma matches_spec lease gatewayUID podUID identity address :
  reservationMatches lease gatewayUID podUID identity address = true ->
  map_get (Annotations (lease_Meta lease)) ReservationPodUIDAnnotation = podUID /\
  reservation_state lease = ReservationStateActive.
Proof.
  unfold reservationMatches, lease_matches. rewrite !andb_true_iff, !String.eqb_eq. by intros [[[[_ _] ->] _] <-].
Qed.

Opaque desiredLease reservationMatches reservationName.

(** *** What a reservation means *)

(** The server holds an active lease for exactly this allocation. *)
Definition reserved (gateway : ObjectMeta) (podUID identity : string) (v : Reservation) (w : server) : Prop :=
  rv_Identity v = identity /\
  api_objs w !! reservation_key gateway (rv_Address v) = Some (rv_Lease v) /\
  reservationMatches (rv_Lease v) (UID gateway) podUID identity (rv_Address v) = true.

(** The server after some requests of ours that changed nothing. *)
Inductive later (w : server) : server -> Prop :=
| later_refl : later w w
| later_enter w1 : later w w1 -> later w (api_enter w1).1.

Lemma later_env w w' : later w w' -> (length (api_env w') <= length (api_env w))%nat.
Proof.
  induction 1 as [|w1 _ IH]; [done|]. unfold api_enter. destruct (api_env w1) as [|[f e] rest] eqn:E; cbn in *; [by rewrite E|lia].
Qed.

Lemma later_quiet w w' : api_env w = [] -> later w w' -> w' = w.
Proof. intros Hq. induction 1 as [|w1 _ IH]; [done|]. subst w1. unfold api_enter. by rewrite Hq. Qed.

Lemma enter_shorter (w w1 : server) e : api_enter w = (w1, Some e) -> (length (api_env w1) < length (api_env w))%nat.
Proof. unfold api_enter. destruct (api_env w) as [|[f f'] rest]; [done|]. intros [= <- _]. cbn. lia. Qed.

Lemma enter_quiet_or_shorter (w w1 : server) :
  api_enter w = (w1, None) -> (w1 = w /\ api_env w = []) \/ (length (api_env w1) < length (api_env w))%nat.
Proof.
  unfold api_enter. destruct (api_env w) as [|[f f'] rest]; intros [= <-]; [by left|]. right. cbn. lia.
Qed.

Section Attempt.
Context (gateway : ObjectMeta) (podUID identity : string) (prefix : Prefix) (attempt : Z).
Context (again : Z -> IO server Reservation) (Q : res Reservation -> server -> Prop) (w : server).
Let key := reservation_key gateway prefix.

(** What every attempt may rely on: the address is recovered, the read fails,
    somebody else has it, or it vanished while another client was active. *)
Context (Hmine : forall w1 lease, later w w1 -> api_objs w1 !! key = Some lease ->
  reservationMatches lease (UID gateway) podUID identity prefix = true ->
  Q (Ok (mkReservation lease identity prefix true)) w1).
Context (Herr : forall w1 msg e, later w w1 -> (length (api_env w1) < length (api_env w))%nat ->
  Q (Fail (Errorf msg e)) w1).
Context (Htaken : forall w1 lease, later w w1 -> api_objs w1 !! key = Some lease ->
  reservationMatches lease (UID gateway) podUID identity prefix = false -> wp (again (u32 (attempt + 1))) Q w1).
Context (Hgone : forall w1, later w w1 -> (length (api_env w1) < length (api_env w))%nat ->
  wp (again (u32 ((if 0 <? attempt then attempt - 1 else attempt) + 1))) Q w1).

Lemma later_step (w1 w2 : server) e : later w w1 -> api_enter w1 = (w2, e) -> later w w2.
Proof. intros L E. apply later_enter in L. by rewrite E in L. Qed.

Lemma wp_conflict w1 :
  later w w1 -> api_objs w1 !! key <> None \/ (length (api_env w1) < length (api_env w))%nat ->
  wp (Reserve_conflict gateway podUID identity prefix attempt key again) Q w1.
Proof using Hmine Herr Htaken Hgone.
  intros L1 Hfound. unfold Reserve_conflict. wp_step. wp_step. pose proof (later_env _ _ L1) as Hlen. apply wp_api_call.
  - intros w2 E2. pose proof (later_step _ _ _ L1 E2) as L2. unfold wp at 1. cbn [fst snd].
    destruct (api_objs w2 !! key) as [existing|] eqn:Ee.
    + destruct (reservationMatches existing _ _ _ _) eqn:Em; [wp_step; by apply Hmine|by eapply Htaken].
    + change (IsNotFound (EStatus ReasonNotFound)) with true. cbn iota. apply Hgone; [done|].
      destruct (enter_quiet_or_shorter _ _ E2) as [[-> _]|]; [|lia]. by destruct Hfound.
  - intros w2 e E2. pose proof (later_step _ _ _ L1 E2) as L2. pose proof (enter_shorter _ _ _ E2).
    destruct (IsNotFound e); [apply Hgone; [done|lia]|wp_step; apply Herr; [done|lia]].
Qed.

Lemma wp_attempt :
  (forall w1 lease, later w w1 -> api_objs w1 !! key = None ->
     reservationMatches lease (UID gateway) podUID identity prefix = true ->
     Q (Ok (mkReservation lease identity prefix false)) (set_objs (<[key := lease]> (api_objs w1)) w1)) ->
  wp (Reserve_attempt gateway podUID identity prefix attempt again) Q w.
Proof using Hmine Herr Htaken Hgone.
  intros Hnew. unfold Reserve_attempt.
  wp_step. unfold wp at 1. cbn [read_clock fst snd after]. cbv zeta. wp_step. wp_step.
  set (lease := desiredLease (clock_now w) gateway podUID identity prefix).
  change (key_of (lease_Meta lease)) with key. apply wp_api_call.
  - intros w1 E1. pose proof (later_step _ _ _ (later_refl w) E1) as L1.
    unfold wp at 1. change (key_of (lease_Meta lease)) with key.
    destruct (api_objs w1 !! key) as [o|] eqn:Eo; cbn [fst snd].
    + change (IsAlreadyExists (EStatus ReasonAlreadyExists)) with true. cbn [negb].
      apply wp_conflict; [done|]. left. congruence.
    + wp_step. apply Hnew; [done|done|apply desired_matches].
  - intros w1 e E1. pose proof (later_step _ _ _ (later_refl w) E1) as L1.
    pose proof (enter_shorter _ _ _ E1).
    destruct (IsAlreadyExists e); cbn [negb]; [|wp_step; by apply Herr].
    apply wp_conflict; [done|]. by right.
Qed.
End Attempt.

(** *** The probe sequence covers the pool *)

Section Geometry.
Context (bits base : Z) (Hbits : 16 <= bits <= 29).
Let size := 2 ^ (32 - bits).
Context (Hbase : 0 <= base) (Hfit : base + size <= 2 ^ 32).

Lemma pool_size : 8 <= size <= 65536.
Proof using Hbits.
  unfold size. change 8 with (2 ^ 3). change 65536 with (2 ^ 16). split; apply Z.pow_le_mono_r; lia.
Qed.

Lemma u32_id x : 0 <= x < 2 ^ 32 -> u32 x = x.
Proof. apply Z.mod_small. Qed.

Lemma probe_usable_eq a : probe_usable (mkPrefix a bits) = size - 3.
Proof using Hbits.
  unfold probe_usable, probe_hosts. cbn [Prefix_Bits]. rewrite Z.shiftl_mul_pow2, Z.mul_1_l by lia. fold size.
  pose proof pool_size. rewrite (u32_id size), u32_id by lia. done.
Qed.

Lemma probe_value_eq start k :
  0 <= start < size - 3 -> 0 <= k < size - 3 ->
  probe_value base (size - 3) start k = base + 2 + (start + k) `mod` (size - 3).
Proof using Hbits Hbase Hfit.
  intros Hs Hk. pose proof pool_size. unfold probe_value. rewrite (u32_id (start + k)) by lia.
  pose proof (Z.mod_pos_bound (start + k) (size - 3) ltac:(lia)). rewrite (u32_id (2 + _)) by lia.
  rewrite u32_id by lia. lia.
Qed.

Lemma probe_range start k :
  0 <= start < size - 3 -> 0 <= k < size - 3 -> client_range base size (probe_value base (size - 3) start k).
Proof using Hbits Hbase Hfit.
  intros Hs Hk. pose proof pool_size. rewrite probe_value_eq by done. unfold client_range.
  pose proof (Z.mod_pos_bound (start + k) (size - 3) ltac:(lia)). lia.
Qed.

Lemma probe_covers start u :
  0 <= start < size - 3 -> client_range base size u ->
  exists k, 0 <= k < size - 3 /\ probe_value base (size - 3) start k = u.
Proof using Hbits Hbase Hfit.
  intros Hs Hu. pose proof pool_size. unfold client_range in Hu. exists ((u - base - 2 - start) `mod` (size - 3)).
  pose proof (Z.mod_pos_bound (u - base - 2 - start) (size - 3) ltac:(lia)). split; [done|].
  rewrite probe_value_eq by done. rewrite Z.add_mod_idemp_r by lia.
  replace (start + (u - base - 2 - start)) with (u - base - 2) by lia. rewrite Z.mod_small by lia. lia.
Qed.

Lemma probe_address_eq start k :
  0 <= start < size - 3 -> 0 <= k < size - 3 ->
  probe_address base (size - 3) start k = mkPrefix (Addr4 (probe_value base (size - 3) start k)) 32.
Proof. done. Qed.
End Geometry.

Lemma probe_start_range podUID usable : 0 < usable -> 0 <= probe_start podUID usable < usable.
Proof. intros H. by apply Z.mod_pos_bound. Qed.

Opaque probe_start probe_address allocationIdentity shortHash.

(** *** The three properties of the loop *)

Lemma Reserve_probe_quiet fuel gateway podUID identity base usable start attempt w :
  api_env w = [] -> 0 <= attempt <= usable -> usable < 2 ^ 32 -> usable - attempt < Z.of_nat fuel ->
  wp (Reserve_probe fuel gateway podUID identity base usable start attempt)
    (fun r w' => match r with
     | Ok v => reserved gateway podUID identity v w' /\
         (exists k, 0 <= k < usable /\ rv_Address v = probe_address base usable start k) /\
         (w' = w \/ api_objs w !! reservation_key gateway (rv_Address v) = None /\
            w' = set_objs (<[reservation_key gateway (rv_Address v) := rv_Lease v]> (api_objs w)) w)
     | Fail e => e = ErrPoolExhausted /\ w' = w /\ forall k, attempt <= k < usable ->
         exists lease, api_objs w !! reservation_key gateway (probe_address base usable start k) = Some lease /\
           reservationMatches lease (UID gateway) podUID identity (probe_address base usable start k) = false
     end) w.
Proof.
  intros Hq. revert attempt. induction fuel as [|fuel IH]; intros attempt Ha Hu Hf; [lia|]. cbn [Reserve_probe].
  destruct (Z.ltb_spec attempt usable); cbn [negb]; [|wp_step; split_and!; [done|done|lia]].
  apply wp_attempt.
  - intros w1 lease ->%(later_quiet _ _ Hq) Hl Hm. split; [by split|]. split; [exists attempt; split; [lia|done]|by left].
  - intros w1 msg e ->%(later_quiet _ _ Hq) Hlen. lia.
  - intros w1 lease ->%(later_quiet _ _ Hq) Hl Hm. rewrite u32_id by lia.
    eapply wp_mono; [apply IH; lia|]. intros [v|e] w'; [done|]. intros (-> & -> & Hall).
    split_and!; [done|done|]. intros k Hk. destruct (decide (k = attempt)) as [->|]; [by exists lease|]. apply Hall. lia.
  - intros w1 ->%(later_quiet _ _ Hq) Hlen. lia.
  - intros w1 lease ->%(later_quiet _ _ Hq) Hl Hm. cbn [rv_Address rv_Lease].
    split; [|split; [exists attempt; split; [lia|done]|by right]]. split; [done|]. cbn. by rewrite lookup_insert_eq.
Qed.

Lemma Reserve_probe_terminates fuel gateway podUID identity base usable start attempt w :
  0 <= attempt <= usable -> usable < 2 ^ 32 ->
  usable - attempt + Z.of_nat (length (api_env w)) < Z.of_nat fuel ->
  wp (Reserve_probe fuel gateway podUID identity base usable start attempt) (fun r _ => r <> Fail ErrFuel) w.
Proof.
  revert attempt w. induction fuel as [|fuel IH]; intros attempt w Ha Hu Hf; [lia|]. cbn [Reserve_probe].
  destruct (Z.ltb_spec attempt usable); cbn [negb]; [|by wp_step].
  apply wp_attempt; try done.
  - intros w1 lease L Hl Hm. pose proof (later_env _ _ L). rewrite u32_id by lia. apply IH; lia.
  - intros w1 L Hlen. destruct (Z.ltb_spec 0 attempt); rewrite u32_id by lia; apply IH; lia.
Qed.

(** A lease that stays where it is whatever the other clients do. *)
Definition held (key : ObjectKey) (lease : Lease) (w : server) : Prop :=
  api_objs w !! key = Some lease /\
  Forall (fun c => forall m, m !! key = Some lease -> c.1 m !! key = Some lease) (api_env w).

Lemma held_later key lease w w' : held key lease w -> later w w' -> held key lease w'.
Proof.
  intros Hh. induction 1 as [|w1 _ [Hk Hall]]; [done|]. unfold api_enter.
  destruct (api_env w1) as [|[f e] rest] eqn:E; [split; [done|cbn; by rewrite E]|].
  apply Forall_cons in Hall as [Hf Hrest]. split; [|done]. by apply Hf.
Qed.

Lemma Reserve_probe_exclusive fuel gateway podUID identity base usable start attempt address lease w :
  held (reservation_key gateway address) lease w ->
  reservationMatches lease (UID gateway) podUID identity address = false ->
  wp (Reserve_probe fuel gateway podUID identity base usable start attempt)
    (fun r w' => held (reservation_key gateway address) lease w' /\ forall v, r = Ok v -> rv_Address v <> address) w.
Proof.
  intros Hh Hm. revert attempt w Hh. induction fuel as [|fuel IH]; intros attempt w Hh; cbn [Reserve_probe]; [by wp_step|].
  destruct (attempt <? usable); cbn [negb]; [|by wp_step].
  apply wp_attempt.
  - intros w1 l L Hl Hm'. pose proof (held_later _ _ _ _ Hh L) as Hh1. split; [done|]. intros v [= <-] <-.
    destruct Hh1 as [Hk _]. cbn in Hk, Hm. congruence.
  - intros w1 msg e L _. split; [by eapply held_later|done].
  - intros w1 l L _ _. apply IH. by eapply held_later.
  - intros w1 L _. apply IH. by eapply held_later.
  - intros w1 l L Hnone Hm'. destruct (held_later _ _ _ _ Hh L) as [Hk Hall]. split.
    + split; [|done]. cbn. rewrite lookup_insert_ne; [done|]. congruence.
    + intros v [= <-] <-. cbn in *. congruence.
Qed.

(** ** Reserve *)

Lemma safe_masked v bits :
  16 <= bits <= 29 ->
  Prefix_Masked (mkPrefix (Addr4 v) bits) = mkPrefix (Addr4 (mask_value (32 - bits) v)) bits /\
  safe_pool (mkPrefix (Addr4 (mask_value (32 - bits) v)) bits) = true.
Proof.
  intros Hb. unfold Prefix_Masked, safe_pool, Prefix_IsValid, host_bits. cbn [Prefix_Addr Prefix_Bits Addr_BitLen Addr_Is4].
  rewrite (proj2 (Z.leb_le 0 bits)), (proj2 (Z.leb_le 16 bits)), (proj2 (Z.leb_le bits 29)) by lia. done.
Qed.

(** A computation over every outcome of the checks before the loop. *)
Lemma wp_Reserve fuel gateway podUID pool (Q : res Reservation -> server -> Prop) w :
  (forall w1 e, later w w1 -> e <> ErrFuel -> Q (Fail e) w1) ->
  (forall w1, later w w1 -> safe_pool (Prefix_Masked pool) = true ->
     let usable := probe_usable (Prefix_Masked pool) in
     wp (Reserve_probe fuel gateway podUID (allocationIdentity (UID gateway) podUID)
           (Addr_value (Prefix_Addr (Prefix_Masked pool))) usable (probe_start podUID usable) 0) Q w1) ->
  wp (Reserve fuel gateway podUID pool) Q w.
Proof.
  intros Hfail Hloop. unfold Reserve. destruct (_ || _); [wp_step; by apply Hfail; [constructor|]|].
  destruct (safe_pool _); cbn [negb]; [|wp_step; by apply Hfail; [constructor|]]. wp_step. wp_step.
  apply wp_api_call.
  - intros w1 E. pose proof (later_step w _ _ _ (later_refl w) E) as L. unfold wp at 1. cbn [fst snd after].
    destruct (existsb _ _); [wp_step; by apply Hfail|by apply Hloop].
  - intros w1 e E. pose proof (later_step w _ _ _ (later_refl w) E) as L. by apply Hfail.
Qed.

Lemma safe_pool_small pool : safe_pool pool = true -> 0 <= probe_usable pool < 2 ^ 32.
Proof. intros _. apply Z.mod_pos_bound. lia. Qed.

(** An address that is taken is not handed out.  As long as a lease for an
    address that belongs to another Pod, or that is quarantined, stays on the
    server, [Reserve] for this Pod never returns that address and never
    touches that lease, whatever other controllers do to every other lease
    between its requests and whichever requests fail. *)
Theorem Reserve_exclusive fuel gateway podUID pool address lease w :
  held (reservation_key gateway address) lease w ->
  map_get (Annotations (lease_Meta lease)) ReservationPodUIDAnnotation <> podUID \/
    reservation_state lease <> ReservationStateActive ->
  wp (Reserve fuel gateway podUID pool)
    (fun r w' => held (reservation_key gateway address) lease w' /\ forall v, r = Ok v -> rv_Address v <> address) w.
Proof.
  intros Hh Hother. apply wp_Reserve.
  - intros w1 e L _. split; [by eapply held_later|done].
  - intros w1 L Hs usable. apply Reserve_probe_exclusive; [by eapply held_later|].
    apply not_true_is_false. intros Hm%matches_spec. naive_solver.
Qed.

(** [Reserve] ends.  Its loop has no bound of its own, because a
    conflicting lease that vanishes is tried again; it ends within one round
    per usable address and one per request that another client's activity or
    a failure disturbs. *)
Theorem Reserve_terminates fuel gateway podUID pool w :
  probe_usable (Prefix_Masked pool) + Z.of_nat (length (api_env w)) < Z.of_nat fuel ->
  wp (Reserve fuel gateway podUID pool) (fun r _ => r <> Fail ErrFuel) w.
Proof.
  intros Hf. apply wp_Reserve; [by intros w1 e _ Hne [= ->]|]. intros w1 L Hs usable.
  pose proof (safe_pool_small _ Hs) as Hr. pose proof (later_env _ _ L). fold usable in Hf, Hr.
  apply Reserve_probe_terminates; lia.
Qed.

(** What [Reserve] answers.  With no other client active it returns a
    client address of the pool, never the network, gateway or broadcast
    address, and the server then holds an active lease for exactly this
    gateway, Pod and address, created by this call or found as it was; it
    reports a quarantined identity only when such a lease exists; and it
    reports exhaustion only when every client address of the pool has a lease
    that is not this Pod's. *)
Theorem Reserve_complete fuel gateway podUID v bits w :
  UID gateway <> "" -> podUID <> "" -> 16 <= bits <= 29 -> 0 <= v < 2 ^ 32 -> api_env w = [] ->
  2 ^ (32 - bits) <= Z.of_nat fuel ->
  let base := mask_value (32 - bits) v in
  let size := 2 ^ (32 - bits) in
  let identity := allocationIdentity (UID gateway) podUID in
  let host u := mkPrefix (Addr4 u) 32 in
  wp (Reserve fuel gateway podUID (mkPrefix (Addr4 v) bits))
    (fun r w' => match r with
     | Ok rv => (exists u, rv_Address rv = host u /\ client_range base size u) /\
         reserved gateway podUID identity rv w' /\
         (w' = w \/ api_objs w !! reservation_key gateway (rv_Address rv) = None /\
            w' = set_objs (<[reservation_key gateway (rv_Address rv) := rv_Lease rv]> (api_objs w)) w)
     | Fail e =>
         (e = ErrIdentityQuarantined /\ exists key lease, api_objs w !! key = Some lease /\
            claims_quarantined (UID gateway) podUID identity lease = true) \/
         (e = ErrPoolExhausted /\ forall u, client_range base size u -> exists lease,
            api_objs w !! reservation_key gateway (host u) = Some lease /\
            reservationMatches lease (UID gateway) podUID identity (host u) = false)
     end) w.
Proof.
  intros Hg Hp Hb Hv Hq Hf base size identity host. destruct (safe_masked v bits Hb) as [Hmask Hsafe].
  pose proof (pool_size bits Hb) as Hsize. pose proof (mask_block_bound bits v ltac:(lia) Hv) as [Hlo Hhi]. fold base in Hlo, Hhi. fold size in Hsize, Hhi, Hf.
  unfold Reserve. destruct (str_empty (UID gateway)) eqn:Eg; [by apply str_empty_spec in Eg|].
  destruct (str_empty podUID) eqn:Ep; [by apply str_empty_spec in Ep|]. cbn [orb]. rewrite Hmask, Hsafe. cbn [negb].
  wp_step. wp_step. apply wp_api_call; [|intros w1 e; unfold api_enter; by rewrite Hq].
  intros w1 E. assert (w1 = w) as -> by (unfold api_enter in E; rewrite Hq in E; by injection E).
  unfold wp at 1. cbn [fst snd after]. rewrite (probe_usable_eq bits Hb). fold size. cbn [Prefix_Addr Addr_value].
  pose proof (probe_start_range podUID (size - 3) ltac:(lia)) as Hstart. destruct (existsb _ _) eqn:Eq.
  - wp_step. left. split; [done|]. apply existsb_exists in Eq as (lease & Hin%filter_In & Hc).
    destruct Hin as [Hin _]. apply in_map_iff in Hin as ([key l] & <- & Hin%list_elem_of_In).
    apply elem_of_map_to_list in Hin. by exists key, l.
  - eapply wp_mono; [apply Reserve_probe_quiet; [done|lia|lia|lia]|]. intros [rv|e] w' H.
    + destruct H as (Hres & (k & Hk & Ha) & Hw). split; [|done].
      exists (probe_value base (size - 3) (probe_start podUID (size - 3)) k). split; [done|by apply probe_range].
    + destruct H as (-> & -> & Hall). right. split; [done|]. intros u Hu.
      destruct (probe_covers bits base Hb Hlo Hhi _ u Hstart Hu) as (k & Hk & Hpv). fold size in Hk, Hpv.
      destruct (Hall k Hk) as (lease & Hl & Hm). rewrite (probe_address_eq bits) in Hl, Hm by done. fold base size in Hl, Hm.
      rewrite Hpv in Hl, Hm. by exists lease.
Qed.

(** ** A gateway with a /29 pool *)

Module PoolSample.

Definition gateway : ObjectMeta := mkObjectMeta "vpn" "gateway" "gw-uid" 1 None ∅ ∅ [] [].
Definition pool : Prefix := mkPrefix (Addr4 (10 * 2 ^ 24 + 8)) 29.
Definition base : Z := 10 * 2 ^ 24 + 8.

Definition lease_for (podUID : string) (address : Prefix) : Lease :=
  desiredLease 0 gateway podUID (allocationIdentity "gw-uid" podUID) address.

(** The [k]-th address [Reserve] tries for [pod-a]. *)
Definition probe (k : Z) : Prefix := probe_address base 5 (probe_start "pod-a" 5) k.

(** Leases of another Pod for the given attempts. *)
Definition occupied (ks : list Z) : gmap ObjectKey Lease :=
  list_to_map (map (fun k => (reservation_key gateway (probe k), lease_for "pod-b" (probe k))) ks).

Lemma Reserve_exclusive_witness :
  wp (Reserve 9 gateway "pod-a" pool)
    (fun r w' => held (reservation_key gateway (probe 0)) (lease_for "pod-b" (probe 0)) w' /\
       forall v, r = Ok v -> rv_Address v <> probe 0) (mkApi (occupied [0]) [] 0).
Proof.
  apply (Reserve_exclusive 9 gateway "pod-a" pool (probe 0)).
  - split; [vm_compute; reflexivity|constructor].
  - left. vm_compute. discriminate.
Defined.

Lemma Reserve_terminates_witness :
  wp (Reserve 9 gateway "pod-a" pool) (fun r _ => r <> Fail ErrFuel)
    (mkApi (occupied [0; 1; 2; 3; 4]) [(id, None); (id, None); (delete (reservation_key gateway (probe 0)), None)] 0).
Proof. apply Reserve_terminates. vm_compute. reflexivity. Defined.

Lemma Reserve_complete_witness :
  let w := mkApi (occupied [0]) [] 0 in
  wp (Reserve 9 gateway "pod-a" pool)
    (fun r w' => match r with
     | Ok rv => reserved gateway "pod-a" (allocationIdentity "gw-uid" "pod-a") rv w'
     | Fail e => e = ErrIdentityQuarantined \/ e = ErrPoolExhausted
     end) w.
Proof.
  intros w. eapply wp_mono.
  - apply (Reserve_complete 9 gateway "pod-a" (10 * 2 ^ 24 + 8) 29 w); vm_compute; try done; intuition discriminate.
  - intros [rv|e] w' H; [apply H|]. destruct H as [[-> _]|[-> _]]; auto.
Defined.

(** The server holds an active lease of [pod-a] for the address. *)
Definition holds_lease (w : server) (address : Prefix) : bool :=
  match api_objs w !! reservation_key gateway address with
  | Some lease => reservationMatches lease "gw-uid" "pod-a" (allocationIdentity "gw-uid" "pod-a") address
  | None => false
  end.

Definition free_first (w : server) : server := set_objs (delete (reservation_key gateway (probe 0)) (api_objs w)) w.

Definition moves (w : server) : bool :=
  match Reserve 9 gateway "pod-a" pool w with
  | (Ok rv1, w1) =>
      match Reserve 9 gateway "pod-a" pool (free_first w1) with
      | (Ok rv2, w2) =>
          negb (bool_decide (rv_Address rv1 = rv_Address rv2)) && negb (rv_Recovered rv2) &&
          holds_lease w2 (rv_Address rv1) && holds_lease w2 (rv_Address rv2)
      | _ => false
      end
  | _ => false
  end.

Lemma moves_occupied : moves (mkApi (occupied [0]) [] 0) = true.
Proof. vm_compute. reflexivity. Qed.

(** A repeated reservation can move.  An allocation claimed for a Pod is
    not found again by a later [Reserve] for the same Pod when an address
    earlier in its probe order has become free in between: the call claims
    the earlier address as well, reports it as not recovered, and the server
    then holds two active leases for one identity. *)
Theorem Reserve_recovery_moves :
  exists w rv1 w1 rv2 w2, api_env w = [] /\
    Reserve 9 gateway "pod-a" pool w = (Ok rv1, w1) /\
    Reserve 9 gateway "pod-a" pool (free_first w1) = (Ok rv2, w2) /\
    rv_Address rv1 <> rv_Address rv2 /\ rv_Recovered rv2 = false /\
    holds_lease w2 (rv_Address rv1) = true /\ holds_lease w2 (rv_Address rv2) = true.
Proof.
  pose proof moves_occupied as H. unfold moves in H.
  destruct (Reserve 9 gateway "pod-a" pool _) as [[rv1|] w1] eqn:E1 in H; [|done].
  destruct (Reserve 9 gateway "pod-a" pool _) as [[rv2|] w2] eqn:E2 in H; [|done].
  rewrite !andb_true_iff, !negb_true_iff, bool_decide_eq_false in H. destruct H as [[[Hne Hr] H1] H2].
  exists (mkApi (occupied [0]) [] 0), rv1, w1, rv2, w2. exact (conj eq_refl (conj E1 (conj E2 (conj Hne (conj Hr (conj H1 H2)))))).
Qed.

(** All five addresses are taken, and the first one is released between the
    first create and the read that follows it. *)
Definition vanishing : server :=
  mkApi (occupied [0; 1; 2; 3; 4]) [(id, None); (id, None); (delete (reservation_key gateway (probe 0)), None)] 0.

Definition skips (w : server) : Prop :=
  let '(r, w') := Reserve 9 gateway "pod-a" pool w in
  r = Fail ErrPoolExhausted /\ api_objs w' !! reservation_key gateway (probe 0) = None.

Lemma skips_vanished : skips vanishing.
Proof. vm_compute. split; reflexivity. Qed.

(** The first attempt is not repeated.  When the lease of the first
    address vanishes between the create that found it and the read, the loop
    goes on with the second attempt and can report an exhausted pool although
    that address is free; every later attempt is repeated in this case. *)
Theorem Reserve_skips_vanished_first :
  exists w w', Reserve 9 gateway "pod-a" pool w = (Fail ErrPoolExhausted, w') /\
    api_objs w' !! reservation_key gateway (probe 0) = None.
Proof.
  pose proof skips_vanished as H. unfold skips in H. destruct (Reserve 9 gateway "pod-a" pool _) as [r w'] eqn:E in H.
  destruct H as [Hr H]. rewrite Hr in E. exact (ex_intro _ vanishing (ex_intro _ w' (conj E H))).
Qed.

End PoolSample.
