(* ===== verification/BindingController.v ===== *)
(** * The workload binding controllers (internal/controller/vpnworkloadbinding_controller.go)

    [PodBindingReconciler] reserves an address for an enrolled Pod and writes
    its VPNWorkloadBinding; [VPNWorkloadBindingReconciler] publishes the
    binding's conditions and cleans up after it.  The readiness theorem is
    here; that no two Pods share an address is in Addressing. *)

From S2P Require Import Prelude Netip Api Conditions Kube Enrollment RouteController Reservation.

Definition DataplaneCleanupFinalizer : string := "networking.waycloak.io/dataplane-cleanup".
Definition podRouteIndex : string := "networking.waycloak.io/pod-route".
Definition routeGatewayIndex : string := "networking.waycloak.io/route-gateway".
Definition bindingGatewayIndex : string := "networking.waycloak.io/binding-gateway".
Definition defaultCleanupTimeout : duration := 10 * Minute.
Definition defaultObservationTTL : duration := 30 * Second.
Definition GroupName : string := "networking.waycloak.io".
Definition FieldManagerBindingController : string := "waycloak-binding-controller".

(** ** Eligibility *)

Definition routeEligible `{ApiMeta} (route : VPNEgressRoute) : bool :=
  let status := rt_Status route in
  let generation := Generation (rt_Meta route) in
  negb (str_empty (UID (rt_Meta route))) && not_deleting (rt_Meta route) &&
  match rt_ParentRefs (rt_Spec route), rs_Parents status with
  | [parentRef], [parent] =>
      String.eqb (rps_ControllerName parent) RouteControllerName &&
      bool_decide (rps_ParentRef parent = parentRef) &&
      CurrentTrue (rs_Conditions status) ConditionReady (rs_ObservedGeneration status) generation &&
      CurrentTrue (rps_Conditions parent) ConditionReady (rs_ObservedGeneration status) generation
  | _, _ => false
  end.

Definition gatewayEligible `{ApiMeta} (gateway : VPNGateway) : bool :=
  negb (str_empty (UID (gw_Meta gateway))) && not_deleting (gw_Meta gateway) &&
  CurrentTrue (gw_Conditions (gw_Status gateway)) ConditionReady (gw_ObservedGeneration (gw_Status gateway))
    (Generation (gw_Meta gateway)).

Definition bindingMatches (binding : VPNWorkloadBinding) (pod : Pod) (route : VPNEgressRoute) (gateway : VPNGateway) : bool :=
  let spec := wb_Spec binding in
  String.eqb (lur_Name (wb_PodRef spec)) (Name (pod_Meta pod)) &&
  String.eqb (lur_UID (wb_PodRef spec)) (UID (pod_Meta pod)) &&
  String.eqb (lur_Name (wb_RouteRef spec)) (Name (rt_Meta route)) &&
  String.eqb (lur_UID (wb_RouteRef spec)) (UID (rt_Meta route)) &&
  String.eqb (nur_Namespace (wb_GatewayRef spec)) (Namespace (gw_Meta gateway)) &&
  String.eqb (nur_Name (wb_GatewayRef spec)) (Name (gw_Meta gateway)) &&
  String.eqb (nur_UID (wb_GatewayRef spec)) (UID (gw_Meta gateway)) &&
  String.eqb (wb_NodeName spec) (pod_NodeName pod) &&
  not_deleting (wb_Meta binding).

(** ** The network intent *)

(** [values[addressType]]: the last address of the type, the empty string when
    there is none. *)
Definition address_values (addresses : list GatewayAddressEntry) : gmap string string :=
  fold_left (fun values a => <[ga_Type a := ga_Value a]> values) addresses ∅.

Definition required_addresses : list string :=
  [GatewayAddressTypeOverlayCIDR; GatewayAddressTypeOverlayAddress; GatewayAddressTypeUnderlayEndpoint;
   GatewayAddressTypeOverlayHealthPort; GatewayAddressTypeVNI; GatewayAddressTypeMTU].

(** A parsed number between two bounds. *)
Definition bounded_int (low high : Z) (text : string) : option Z :=
  match ParseInt32 text with
  | Some n => if (n <? low) || (high <? n) then None else Some n
  | None => None
  end.

Definition workloadNetworkIntent (gateway : VPNGateway) : res WorkloadNetworkIntent :=
  let values := address_values (gw_Addresses (gw_Status gateway)) in
  let value t := map_get values t in
  if existsb (fun t => str_empty (value t)) required_addresses
  then Fail (ENew "gateway status address is unavailable")
  else
    match ParsePrefix (value GatewayAddressTypeOverlayCIDR) with
    | None => Fail (Errorf "parse gateway overlay CIDR" (ENew "netip.ParsePrefix"))
    | Some overlay =>
        match ParseAddr (value GatewayAddressTypeOverlayAddress) with
        | None => Fail (ENew "gateway overlay address is invalid")
        | Some gatewayAddress =>
            if negb (Prefix_Contains overlay gatewayAddress) then Fail (ENew "gateway overlay address is invalid")
            else
              match ParseAddrPort (value GatewayAddressTypeUnderlayEndpoint) with
              | None => Fail (ENew "gateway underlay endpoint is invalid")
              | Some endpoint =>
                  if AddrPort_Port endpoint =? 0 then Fail (ENew "gateway underlay endpoint is invalid")
                  else
                    match bounded_int 1 65535 (value GatewayAddressTypeOverlayHealthPort) with
                    | None => Fail (ENew "gateway overlay health port is invalid")
                    | Some healthPort =>
                        match bounded_int 1 16777215 (value GatewayAddressTypeVNI) with
                        | None => Fail (ENew "gateway VNI is invalid")
                        | Some vni =>
                            match bounded_int 576 9000 (value GatewayAddressTypeMTU) with
                            | None => Fail (ENew "gateway MTU is invalid")
                            | Some mtu =>
                                Ok (mkWorkloadNetworkIntent (Generation (gw_Meta gateway))
                                      (Prefix_String (Prefix_Masked overlay)) (Addr_String gatewayAddress)
                                      (AddrPort_String endpoint) healthPort vni mtu
                                      (gw_ClusterTraffic (gw_Spec gateway)))
                            end
                        end
                    end
              end
        end
    end.

(** ** The Pod reconciler *)

(** [errors.Is] against a package-level error. *)
Definition errors_Is (err target : error) : bool :=
  match target with ESentinel name => errors_is err name | _ => false end.

Definition retry_soon : Result := mkResult Second.

(** The binding written for a Pod and its reservation. *)
Definition new_binding (pod : Pod) (route : VPNEgressRoute) (gateway : VPNGateway) (reservation : Reservation)
    (network : WorkloadNetworkIntent) : VPNWorkloadBinding :=
  mkVPNWorkloadBinding
    (mkObjectMeta (Namespace (pod_Meta pod)) (BindingName (UID (pod_Meta pod))) "" 0 None ∅ ∅
       [DataplaneCleanupFinalizer]
       [mkOwnerReference "v1" "Pod" (Name (pod_Meta pod)) (UID (pod_Meta pod)) (Some true)])
    (mkVPNWorkloadBindingSpec (mkLocalUIDReference (Name (pod_Meta pod)) (UID (pod_Meta pod)))
       (mkLocalUIDReference (Name (rt_Meta route)) (UID (rt_Meta route)))
       (mkNamespacedUIDReference (Namespace (gw_Meta gateway)) (Name (gw_Meta gateway)) (UID (gw_Meta gateway)))
       (pod_NodeName pod)
       (mkWorkloadAllocation (rv_Identity reservation) (Prefix_String (rv_Address reservation))) network)
    (mkVPNWorkloadBindingStatus 0 0 "" "" None []).

Definition with_network (network : WorkloadNetworkIntent) (binding : VPNWorkloadBinding) : VPNWorkloadBinding :=
  let spec := wb_Spec binding in
  mkVPNWorkloadBinding (wb_Meta binding)
    (mkVPNWorkloadBindingSpec (wb_PodRef spec) (wb_RouteRef spec) (wb_GatewayRef spec) (wb_NodeName spec)
       (wb_Allocation spec) network)
    (wb_Status binding).

Section PodBinding.
Context `{ApiMeta} {W : Type} `{Clock W}.
Context `{Getter W Pod} `{Getter W VPNEgressRoute} `{Getter W VPNGateway} `{Getter W VPNWorkloadBinding}.
Context `{Creator W VPNWorkloadBinding} `{Patcher W VPNWorkloadBinding} `{Deleter W VPNWorkloadBinding}.
Context `{Getter W Lease} `{Lister W Lease} `{Creator W Lease}.

(** The Pod has a binding already. *)
Definition pod_existing (pod : Pod) (route : VPNEgressRoute) (gateway : VPNGateway) (network : WorkloadNetworkIntent)
    (existing : VPNWorkloadBinding) : IO W Result :=
  if negb (String.eqb (binding_podUID existing) (UID (pod_Meta pod)))
  then io_fail (ENew "UID-derived binding name collision")
  else if negb (bindingMatches existing pod route gateway) then
    (if not_deleting (wb_Meta existing)
     then io_wrap "withdraw obsolete workload binding" (k8s_Delete existing) else mret tt) ;;
    mret retry_soon
  else if negb (bool_decide (wb_Network (wb_Spec existing) = network)) then
    io_wrap "update credential-free binding network intent" (k8s_Patch existing (with_network network existing)) ;;
    mret NoRequeue
  else
    ensured ← io_try (Ensure (gw_Meta gateway) existing);
    match ensured with
    | Ok _ => mret NoRequeue
    | Fail err =>
        (if errors_Is err ErrReservationConflict && not_deleting (wb_Meta existing)
         then io_ignore (k8s_Delete existing) else mret tt) ;;
        io_fail (Errorf "validate binding reservation" err)
    end.

(** The Pod has no binding yet. *)
Definition pod_create (fuel : nat) (pod : Pod) (route : VPNEgressRoute) (gateway : VPNGateway)
    (network : WorkloadNetworkIntent) (pool : Prefix) : IO W Result :=
  reserved ← io_try (Reserve fuel (gw_Meta gateway) (UID (pod_Meta pod)) pool);
  match reserved with
  | Fail err => if errors_Is err ErrPoolExhausted then mret retry_soon else io_fail err
  | Ok reservation =>
      created ← io_try (k8s_Create (new_binding pod route gateway reservation network));
      match created with
      | Fail err => if IsAlreadyExists err then mret NoRequeue
                    else io_fail (Errorf "persist UID-bound workload binding" err)
      | Ok _ => mret NoRequeue
      end
  end.

(** From the point where the route is eligible. *)
Definition pod_with_route (fuel : nat) (pod : Pod) (route : VPNEgressRoute) : IO W Result :=
  match rt_ParentRefs (rt_Spec route) with
  | [] => io_panic
  | parent :: _ =>
      got ← io_try (k8s_Get (T := VPNGateway) (mkObjectKey (gpr_Namespace parent) (gpr_Name parent)));
      match got with
      | Fail err => if IsNotFound err then mret retry_soon else io_fail (Errorf "resolve binding gateway" err)
      | Ok gateway =>
          if str_empty (UID (gw_Meta gateway)) || negb (gatewayEligible gateway) then mret retry_soon
          else
            match ParseOverlayCIDR gateway, workloadNetworkIntent gateway with
            | Ok pool, Ok network =>
                got ← io_try (k8s_Get (T := VPNWorkloadBinding)
                  (mkObjectKey (Namespace (pod_Meta pod)) (BindingName (UID (pod_Meta pod)))));
                match got with
                | Ok existing => pod_existing pod route gateway network existing
                | Fail err =>
                    if negb (IsNotFound err) then io_fail (Errorf "read UID-bound workload binding" err)
                    else pod_create fuel pod route gateway network pool
                end
            | _, _ => mret retry_soon
            end
      end
  end.

Definition pod_Reconcile (fuel : nat) (request : ObjectKey) : IO W Result :=
  reconcile_object request (fun pod =>
    let routeName := map_get (Labels (pod_Meta pod)) RouteLabel in
    if str_empty routeName || str_empty (UID (pod_Meta pod)) || str_empty (pod_NodeName pod) ||
       negb (not_deleting (pod_Meta pod)) then mret NoRequeue
    else
      got ← io_try (k8s_Get (T := VPNEgressRoute) (mkObjectKey (Namespace (pod_Meta pod)) routeName));
      match got with
      | Fail err => if IsNotFound err then mret retry_soon else io_fail (Errorf "resolve enrolled route" err)
      | Ok route => if negb (routeEligible route) then mret retry_soon else pod_with_route fuel pod route
      end).

End PodBinding.

(** ** Watches *)

Definition gatewayReferenceKey (namespace name : string) : string := namespace +:+ "/" +:+ name.

(** The field indexes the reconcilers register. *)
Definition podRouteIndexValues (pod : Pod) : list string :=
  let value := map_get (Labels (pod_Meta pod)) RouteLabel in
  if str_empty value then [] else [value].

Definition routeGatewayIndexValues (route : VPNEgressRoute) : list string :=
  map (fun parent => gatewayReferenceKey (gpr_Namespace parent) (gpr_Name parent))
    (List.filter (fun parent => String.eqb (gpr_Group parent) GroupName && String.eqb (gpr_Kind parent) "VPNGateway" &&
                                negb (str_empty (gpr_Namespace parent)) && negb (str_empty (gpr_Name parent)))
       (rt_ParentRefs (rt_Spec route))).

Definition bindingGatewayIndexValues (binding : VPNWorkloadBinding) : list string :=
  let ref := wb_GatewayRef (wb_Spec binding) in
  if str_empty (nur_Namespace ref) || str_empty (nur_Name ref) then []
  else [gatewayReferenceKey (nur_Namespace ref) (nur_Name ref)].

Section Watches.
Context {W : Type} `{Lister W VPNEgressRoute} `{Lister W VPNWorkloadBinding}.

(** Pods are listed by namespace and index at once. *)
Context (list_pods : string -> string -> string -> IO W (list Pod)).

Definition podsForRoute (object : ObjectMeta) : IO W (list ObjectKey) :=
  listed ← io_try (list_pods (Namespace object) podRouteIndex (Name object));
  match listed with
  | Fail _ => mret []
  | Ok pods => mret (map (fun pod => key_of (pod_Meta pod)) pods)
  end.

(** Append the requests that were not seen. *)
Fixpoint add_unseen (requests : list ObjectKey) (found : list ObjectKey) : list ObjectKey :=
  match found with
  | [] => requests
  | request :: found' =>
      if bool_decide (request ∈ requests) then add_unseen requests found' else add_unseen (requests ++ [request]) found'
  end.

Fixpoint podsForRoutes (routes : list VPNEgressRoute) (requests : list ObjectKey) : IO W (list ObjectKey) :=
  match routes with
  | [] => mret requests
  | route :: routes' =>
      found ← podsForRoute (rt_Meta route);
      podsForRoutes routes' (add_unseen requests found)
  end.

Definition podsForGateway (object : ObjectMeta) : IO W (list ObjectKey) :=
  listed ← io_try (k8s_List (T := VPNEgressRoute)
    (MatchingFields routeGatewayIndex (gatewayReferenceKey (Namespace object) (Name object))));
  match listed with
  | Fail _ => mret []
  | Ok routes => podsForRoutes routes []
  end.

Definition bindingsForGateway (object : ObjectMeta) : IO W (list ObjectKey) :=
  listed ← io_try (k8s_List (T := VPNWorkloadBinding)
    (MatchingFields bindingGatewayIndex (gatewayReferenceKey (Namespace object) (Name object))));
  match listed with
  | Fail _ => mret []
  | Ok bindings => mret (map (fun b => key_of (wb_Meta b)) bindings)
  end.

End Watches.

(** ** The binding reconciler *)

Record VPNWorkloadBindingReconciler := mkVPNWorkloadBindingReconciler {
  br_CleanupTimeout : duration;
  br_ObservationTTL : duration
}.

(** Reference resolution and live readiness of the gateway, apart. *)
Record bindingGatewayObservation := mkBindingGatewayObservation {
  bg_resolved : State;
  bg_ready : State
}.

Definition removeString (values : list string) (unwanted : string) : list string :=
  List.filter (fun value => negb (String.eqb value unwanted)) values.

Definition with_finalizers (finalizers : list string) (binding : VPNWorkloadBinding) : VPNWorkloadBinding :=
  let m := wb_Meta binding in
  mkVPNWorkloadBinding
    (mkObjectMeta (Namespace m) (Name m) (UID m) (Generation m) (DeletionTimestamp m) (Labels m) (Annotations m)
       finalizers (OwnerReferences m))
    (wb_Spec binding) (wb_Status binding).

Definition bindingOrder : list string :=
  [ConditionAccepted; ConditionResolvedRefs; ConditionProgrammed; ConditionReady; ConditionNodeReady].

(** The node agent's report names this Pod, this gateway and this node. *)
Definition exact_report (binding : VPNWorkloadBinding) : option NodeAgentObservation :=
  let status := wb_Status binding in
  let spec := wb_Spec binding in
  match wbs_Agent status with
  | Some agent =>
      if String.eqb (wbs_ObservedPodUID status) (lur_UID (wb_PodRef spec)) &&
         String.eqb (wbs_ObservedGatewayUID status) (nur_UID (wb_GatewayRef spec)) &&
         String.eqb (nao_NodeName agent) (wb_NodeName spec)
      then Some agent else None
  | None => None
  end.

(** [status] with the controller's two fields written. *)
Definition with_conditions (binding : VPNWorkloadBinding) (conditions : list Condition) : VPNWorkloadBindingStatus :=
  let status := wb_Status binding in
  mkVPNWorkloadBindingStatus (Generation (wb_Meta binding)) (wbs_AppliedGeneration status)
    (wbs_ObservedPodUID status) (wbs_ObservedGatewayUID status) (wbs_Agent status) conditions.

Section BindingReconciler.
Context `{ApiMeta}.
Context (r : VPNWorkloadBindingReconciler).

Definition cleanupTimeout : duration :=
  if 0 <? br_CleanupTimeout r then br_CleanupTimeout r else defaultCleanupTimeout.
Definition observationTTL : duration :=
  if 0 <? br_ObservationTTL r then br_ObservationTTL r else defaultObservationTTL.

(** The states before and after the gateway's own readiness is applied. *)
Definition binding_node_states (binding : VPNWorkloadBinding) (observation : bindingGatewayObservation) (now : time) :
    gmap string State * duration :=
  let status := wb_Status binding in
  let generation := Generation (wb_Meta binding) in
  let states :=
    <[ConditionAccepted := True_ ReasonAccepted "Binding intent is accepted"]>
    (<[ConditionResolvedRefs := bg_resolved observation]>
    (<[ConditionProgrammed := False_ ReasonPending "Binding programming is pending"]>
    (<[ConditionReady := Unknown "Live protected-path observation is unavailable"]>
    (<[ConditionNodeReady := Unknown "Node-agent observation is unavailable"]> ∅)))) in
  if (0 <? wbs_AppliedGeneration status) && negb (wbs_AppliedGeneration status =? generation) then
    (<[ConditionProgrammed := False_ ReasonStaleGeneration "Node applied generation is stale"]> states, 0)
  else if wbs_AppliedGeneration status =? generation then
    match exact_report binding with
    | Some agent =>
        let states := <[ConditionProgrammed := True_ ReasonProgrammed "Current binding generation is applied"]> states in
        let age := time_Sub now (nao_ObservedAt agent) in
        let age := if age <? 0 then 0 else age in
        if age <? observationTTL then
          (<[ConditionReady := True_ ReasonReady "Exact Pod protected path is live"]>
           (<[ConditionNodeReady := True_ ReasonNodeReady "Current node data plane is observed"]> states),
           observationTTL - age)
        else
          (<[ConditionReady := False_ ReasonNotReady "Protected-path observation is stale"]>
           (<[ConditionNodeReady := False_ ReasonNodeNotReady "Node-agent observation is stale"]> states), 0)
    | None =>
        (<[ConditionReady := False_ ReasonNotReady "Protected-path identity does not match binding"]>
         (<[ConditionNodeReady := False_ ReasonNodeNotReady "Node-agent identity does not match binding"]>
         (<[ConditionProgrammed := False_ ReasonApplyFailed "Applied binding identity does not match desired state"]> states)), 0)
    end
  else (states, 0).

Definition binding_states (binding : VPNWorkloadBinding) (observation : bindingGatewayObservation) (now : time) :
    gmap string State :=
  let states := (binding_node_states binding observation now).1 in
  if bool_decide (st_Status (bg_ready observation) = ConditionTrue) then states
  else <[ConditionReady := bg_ready observation]> states.

Definition binding_desiredStatus (binding : VPNWorkloadBinding) (observation : bindingGatewayObservation) (now : time) :
    VPNWorkloadBindingStatus * duration :=
  (with_conditions binding
     (Build (wbs_Conditions (wb_Status binding)) (Generation (wb_Meta binding)) now bindingOrder
        (binding_states binding observation now)),
   (binding_node_states binding observation now).2).

Definition deletingStates : gmap string State :=
  <[ConditionAccepted := False_ ReasonDeleting "Binding is deleting"]>
  (<[ConditionResolvedRefs := True_ ReasonResolvedRefs "UID-bound references remain resolved for cleanup"]>
  (<[ConditionProgrammed := False_ ReasonPending "Binding programming is withdrawn"]>
  (<[ConditionReady := False_ ReasonDeleting "Protected path is withdrawing"]>
  (<[ConditionNodeReady := False_ ReasonNodeNotReady "Node cleanup is pending"]> ∅)))).

Definition deletingStatus (binding : VPNWorkloadBinding) (now : time) : VPNWorkloadBindingStatus :=
  with_conditions binding
    (Build (wbs_Conditions (wb_Status binding)) (Generation (wb_Meta binding)) now bindingOrder deletingStates).

Definition withdrawalConfirmed (binding : VPNWorkloadBinding) (now : time) : bool :=
  (wbs_AppliedGeneration (wb_Status binding) =? 0) &&
  match exact_report binding with
  | Some agent => let age := time_Sub now (nao_ObservedAt agent) in (0 <=? age) && (age <? observationTTL)
  | None => false
  end.

Context {W : Type} `{Clock W} `{Getter W VPNWorkloadBinding} `{Getter W VPNGateway}.
Context `{StatusApplier W VPNWorkloadBindingStatus} `{Patcher W VPNWorkloadBinding}.
Context `{Getter W Lease} `{Creator W Lease} `{Patcher W Lease} `{Deleter W Lease}.

Definition observeGateway (binding : VPNWorkloadBinding) : IO W bindingGatewayObservation :=
  let ref := wb_GatewayRef (wb_Spec binding) in
  got ← io_try (k8s_Get (T := VPNGateway) (mkObjectKey (nur_Namespace ref) (nur_Name ref)));
  match got with
  | Fail err =>
      if IsNotFound err then
        mret (mkBindingGatewayObservation (False_ ReasonRefNotFound "Exact gateway reference is unavailable")
                (False_ ReasonNotReady "Referenced gateway data plane is unavailable"))
      else
        mret (mkBindingGatewayObservation (Unknown "Exact gateway reference observation is unavailable")
                (Unknown "Referenced gateway readiness observation is unavailable"))
  | Ok gateway =>
      if str_empty (UID (gw_Meta gateway)) || negb (String.eqb (UID (gw_Meta gateway)) (nur_UID ref)) ||
         negb (not_deleting (gw_Meta gateway)) then
        mret (mkBindingGatewayObservation (False_ ReasonIncompatibleRef "Exact gateway reference no longer matches")
                (False_ ReasonNotReady "Referenced gateway data plane is unavailable"))
      else
        let resolved := True_ ReasonResolvedRefs "UID-bound references are resolved" in
        if negb (wn_GatewayGeneration (wb_Network (wb_Spec binding)) =? Generation (gw_Meta gateway)) then
          mret (mkBindingGatewayObservation resolved
                  (False_ ReasonNotReady "Binding network intent does not match the current gateway generation"))
        else if negb (gatewayEligible gateway) then
          mret (mkBindingGatewayObservation resolved
                  (False_ ReasonNotReady "Referenced gateway data plane is not ready"))
        else
          mret (mkBindingGatewayObservation resolved
                  (True_ ReasonReady "Referenced gateway live data plane is ready"))
  end.

Definition binding_applyStatus (binding : VPNWorkloadBinding) (status : VPNWorkloadBindingStatus) : IO W unit :=
  io_wrap "apply VPNWorkloadBinding status"
    (k8s_ApplyStatus (key_of (wb_Meta binding)) status FieldManagerBindingController).

Definition removeFinalizer (binding : VPNWorkloadBinding) : IO W unit :=
  io_wrap "release bounded data-plane cleanup finalizer"
    (k8s_Patch binding
       (with_finalizers (removeString (Finalizers (wb_Meta binding)) DataplaneCleanupFinalizer) binding)).

(** A deleting binding; [deletionTimestamp] is its deletion time. *)
Definition reconcileDeletion (binding : VPNWorkloadBinding) (deletionTimestamp : time) : IO W Result :=
  if negb (contains_string (Finalizers (wb_Meta binding)) DataplaneCleanupFinalizer) then mret NoRequeue
  else
    now ← read_clock;
    let desired := deletingStatus binding now in
    if negb (bool_decide (wb_Status binding = desired)) then
      binding_applyStatus binding desired ;; mret (mkResult Nanosecond)
    else
      now ← read_clock;
      if withdrawalConfirmed binding now then
        io_wrap "release withdrawn address reservation" (Release binding) ;;
        removeFinalizer binding ;; mret NoRequeue
      else
        now ← read_clock;
        let deadline := deletionTimestamp + cleanupTimeout in
        if time_Before now deadline then
          now ← read_clock; mret (mkResult (time_Sub deadline now))
        else
          io_wrap "quarantine unconfirmed address withdrawal" (Quarantine binding) ;;
          removeFinalizer binding ;; mret NoRequeue.

Definition binding_Reconcile (request : ObjectKey) : IO W Result :=
  reconcile_object request (fun binding =>
    match DeletionTimestamp (wb_Meta binding) with
    | Some deletionTimestamp => reconcileDeletion binding deletionTimestamp
    | None =>
        observation ← observeGateway binding;
        now ← read_clock;
        let '(desired, requeue) := binding_desiredStatus binding observation now in
        if decide (wb_Status binding = desired) then mret (mkResult requeue)
        else binding_applyStatus binding desired ;; mret (mkResult requeue)
    end).

End BindingReconciler.

(** ** Readiness *)

Section BindingReady.
Context `{ApiMeta} (r : VPNWorkloadBindingReconciler).

(** A report for this binding's Pod, gateway, node and generation that is
    younger than the observation lifetime. *)
Definition fresh_report (binding : VPNWorkloadBinding) (now : time) : Prop :=
  wbs_AppliedGeneration (wb_Status binding) = Generation (wb_Meta binding) /\
  exists agent, exact_report binding = Some agent /\
    Z.max 0 (time_Sub now (nao_ObservedAt agent)) < observationTTL r.

Lemma node_states_ready binding observation now :
  state_true (binding_node_states r binding observation now).1 ConditionReady = true -> fresh_report binding now.
Proof.
  unfold binding_node_states, fresh_report.
  destruct (wbs_AppliedGeneration (wb_Status binding) =? Generation (wb_Meta binding)) eqn:Eg;
    [|destruct (0 <? wbs_AppliedGeneration (wb_Status binding)); discriminate].
  rewrite andb_false_r. apply Z.eqb_eq in Eg. destruct (exact_report binding) as [agent|] eqn:Ea; [|discriminate].
  intros Hs. split; [done|]. exists agent. split; [done|].
  destruct (time_Sub now (nao_ObservedAt agent) <? 0) eqn:Ez; cbn [andb] in Hs;
    destruct (_ <? observationTTL r) eqn:Et; try discriminate Hs;
    apply Z.ltb_lt in Et; [apply Z.ltb_lt in Ez|apply Z.ltb_ge in Ez]; lia.
Qed.

Lemma binding_states_ready binding observation now :
  state_true (binding_states r binding observation now) ConditionReady = true ->
  st_Status (bg_ready observation) = ConditionTrue /\ fresh_report binding now.
Proof.
  unfold binding_states. case_bool_decide as Hr.
  - intros Hs%node_states_ready. done.
  - unfold state_true. rewrite lookup_insert, decide_True, bool_decide_eq_true by done. done.
Qed.

Context {W : Type} `{Getter W VPNGateway}.

(** The binding's gateway, read as it is now: the exact object, not deleting,
    at the generation the binding was computed for, with a current Ready. *)
Definition live_gateway (binding : VPNWorkloadBinding) (gateway : VPNGateway) : Prop :=
  UID (gw_Meta gateway) <> "" /\ UID (gw_Meta gateway) = nur_UID (wb_GatewayRef (wb_Spec binding)) /\
  wn_GatewayGeneration (wb_Network (wb_Spec binding)) = Generation (gw_Meta gateway) /\
  gatewayEligible gateway = true.

(** The outcome of [observeGateway]: stable reasons, and True only for a live
    gateway. *)
Lemma observeGateway_spec binding w :
  wp (observeGateway binding)
    (fun res _ => exists observation, res = Ok observation /\
       stable_state ConditionResolvedRefs (bg_resolved observation) = true /\
       stable_state ConditionReady (bg_ready observation) = true /\
       (st_Status (bg_ready observation) = ConditionTrue ->
        exists gateway,
          (k8s_Get (T := VPNGateway) (mkObjectKey (nur_Namespace (wb_GatewayRef (wb_Spec binding)))
             (nur_Name (wb_GatewayRef (wb_Spec binding)))) w).1 = Ok gateway /\ live_gateway binding gateway)) w.
Proof.
  unfold observeGateway. do 2 wp_step. wp_run got w1 E. destruct got as [gateway|e].
  2: { destruct (IsNotFound e); wp_step; eexists; (split; [reflexivity|]); done. }
  destruct (_ || negb (String.eqb _ _) || _) eqn:Ei; [wp_step; eexists; (split; [reflexivity|]); done|].
  apply orb_false_iff in Ei as [[Eu En]%orb_false_iff _].
  destruct (_ =? _) eqn:Eg; cbn [negb]; [|wp_step; eexists; (split; [reflexivity|]); done].
  destruct (gatewayEligible gateway) eqn:Ee; cbn [negb]; wp_step; eexists; (split; [reflexivity|]); [|done].
  split; [done|]. split; [done|]. intros _. exists gateway. split; [done|].
  apply negb_false_iff, String.eqb_eq in En. apply Z.eqb_eq in Eg.
  unfold live_gateway. split_and!; [|done|done|done]. intros Hu. by rewrite Hu in Eu.
Qed.

(** A binding reads as ready only on exact, fresh evidence.  Whatever the
    API server answers, the status computed for a binding carries a current
    Ready only if the node agent's report is for this binding's generation,
    Pod UID, gateway UID and node and is younger than the observation
    lifetime, and the gateway object the binding names was read with the
    binding's UID and gateway generation, is not deleting, and is itself
    currently Ready. *)
Theorem binding_ready_sound binding w :
  wp (observeGateway binding)
    (fun res _ => forall observation now, res = Ok observation ->
       let status := (binding_desiredStatus r binding observation now).1 in
       CurrentTrue (wbs_Conditions status) ConditionReady (wbs_ObservedGeneration status) (Generation (wb_Meta binding)) = true ->
       fresh_report binding now /\
       exists gateway,
         (k8s_Get (T := VPNGateway) (mkObjectKey (nur_Namespace (wb_GatewayRef (wb_Spec binding)))
            (nur_Name (wb_GatewayRef (wb_Spec binding)))) w).1 = Ok gateway /\ live_gateway binding gateway) w.
Proof.
  wp_with observeGateway_spec. intros res w1 (observation & -> & _ & _ & Hlive) ? now [= <-].
  cbn [binding_desiredStatus fst with_conditions wbs_Conditions wbs_ObservedGeneration].
  intros (_ & _ & Hr)%Build_current_true; [|set_solver]. apply state_true_spec in Hr.
  apply binding_states_ready in Hr as [Hg Hf]. auto.
Qed.

(** ** The status contract *)

(** The CRD rules on the conditions of a binding. *)
Definition binding_conditions_admitted (status : VPNWorkloadBindingStatus) : bool :=
  BindingConditions_valid (wbs_Conditions status).

Lemma deleting_admitted binding now : binding_conditions_admitted (deletingStatus binding now) = true.
Proof.
  apply Build_types_admitted; [by apply (bool_decide_unpack _)|by apply (bool_decide_unpack _)|done|].
  unfold deletingStates. solve_stable.
Qed.

Lemma desired_admitted binding observation now :
  stable_state ConditionResolvedRefs (bg_resolved observation) = true ->
  stable_state ConditionReady (bg_ready observation) = true ->
  binding_conditions_admitted (binding_desiredStatus r binding observation now).1 = true.
Proof.
  intros Hres Hready.
  apply Build_types_admitted; [by apply (bool_decide_unpack _)|by apply (bool_decide_unpack _)|done|].
  assert (stable_states (binding_node_states r binding observation now).1) as Hn.
  { unfold binding_node_states. repeat case_match; cbn [fst];
      repeat first [apply stable_insert; [solve [reflexivity|exact Hres]|]|apply stable_empty]. }
  unfold binding_states. case_bool_decide; [done|]. by apply stable_insert.
Qed.

End BindingReady.

(** No status the controller writes is rejected for its conditions. *)
Lemma binding_never_rejected `{ApiMeta} r {W} `{!Clock W, !Getter W VPNWorkloadBinding, !Getter W VPNGateway,
    A : !StatusApplier W VPNWorkloadBindingStatus, !Patcher W VPNWorkloadBinding, !Getter W Lease, !Creator W Lease,
    !Patcher W Lease, !Deleter W Lease} request (w : W) :
  binding_Reconcile (H3 := validating binding_conditions_admitted A) r request w = binding_Reconcile r request w.
Proof.
  unfold binding_Reconcile, reconcile_object, mbind, io_bind, io_try.
  destruct (k8s_Get request w) as [[binding|e] w1]; [|done].
  destruct (DeletionTimestamp (wb_Meta binding)) as [t|].
  - unfold reconcileDeletion. destruct (negb (contains_string _ _)); [done|].
    unfold mbind, io_bind, read_clock. destruct (negb (bool_decide _)); [|done].
    unfold binding_applyStatus, io_wrap. by rewrite validating_admitted by apply deleting_admitted.
  - destruct (observeGateway binding w1) as [[observation|e] w2] eqn:Eo; [|done].
    destruct (wp_elim _ _ _ _ _ (observeGateway_spec binding w1) Eo) as (? & [= <-] & Hres & Hready & _).
    unfold read_clock. destruct (binding_desiredStatus r binding observation _) as [desired requeue] eqn:Ed.
    case_decide; [done|]. unfold binding_applyStatus, io_wrap.
    rewrite validating_admitted; [done|].
    pose proof (desired_admitted r binding observation (clock_now w2) Hres Hready) as Ha. by rewrite Ed in Ha.
Qed.

(** ** Witness: a binding with a fresh report and its gateway *)

Module BindingSample.

Definition meta (ns name uid : string) : ObjectMeta := mkObjectMeta ns name uid 1 None ∅ ∅ [] [].

Definition gateway : VPNGateway :=
  mkVPNGateway (meta "vpn" "gw" "gw-uid")
    (mkVPNGatewaySpec "class" [] [] [] (mkAllowedRoutes (mkRouteNamespaces RouteNamespaceAll None))
       (mkClusterTraffic ClusterTrafficTunnelAll []) DNSModeGateway (mkGatewayPlacement ∅ []))
    (mkVPNGatewayStatus 1 None [] [] (map (fun t => mkCondition t ConditionTrue t "" 1 0) SummaryOrder)).

Definition binding : VPNWorkloadBinding :=
  mkVPNWorkloadBinding (meta "media" "pod-x" "binding-uid")
    (mkVPNWorkloadBindingSpec (mkLocalUIDReference "client" "pod-uid") (mkLocalUIDReference "private" "route-uid")
       (mkNamespacedUIDReference "vpn" "gw" "gw-uid") "node-a" (mkWorkloadAllocation "alloc" "10.0.0.10/32")
       (mkWorkloadNetworkIntent 1 "10.0.0.8/29" "10.0.0.9" "192.0.2.1:4789" 9808 7 1320
          (mkClusterTraffic ClusterTrafficTunnelAll [])))
    (mkVPNWorkloadBindingStatus 1 1 "pod-uid" "gw-uid" (Some (mkNodeAgentObservation "node-a" "boot" "agent" 5)) []).

#[local] Instance gateway_getter : Getter unit VPNGateway := fun _ w => (Ok gateway, w).

Lemma binding_ready_sound_witness :
  fresh_report (mkVPNWorkloadBindingReconciler 0 0) binding 7 /\
  exists g, (k8s_Get (W := unit) (T := VPNGateway) (mkObjectKey "vpn" "gw") tt).1 = Ok g /\ live_gateway binding g.
Proof.
  destruct (observeGateway (W := unit) binding tt) as [[observation|e] w'] eqn:E; [|vm_compute in E; discriminate E].
  apply (wp_elim _ _ _ _ _ (binding_ready_sound (mkVPNWorkloadBindingReconciler 0 0) binding tt) E observation 7 eq_refl).
  vm_compute in E. injection E as <- _. vm_compute. reflexivity.
Defined.

End BindingSample.
