(* ===== verification/Addressing.v ===== *)
(** * Addresses of the whole cluster

    The two binding reconcilers of BindingController run against one API
    server that holds Pods, routes, gateways, bindings and reservations.  Any
    request may fail, before or after it took effect; between reconciliations
    users, the node agents' relay and the garbage collector act.  The theorem
    is that two Pods hold the same address of a gateway only if one of them is
    being deleted and was, at some time since, confirmed as withdrawn. *)

From S2P Require Import Prelude Netip Api Conditions Kube Reservation BindingController.

(** ** The API server *)

(** A request is lost, or its reply is. *)
Inductive fault := FailBefore (e : error) | FailAfter (e : error).

Record Cluster := mkCluster {
  cl_pods : gmap ObjectKey Pod;
  cl_routes : gmap ObjectKey VPNEgressRoute;
  cl_gateways : gmap ObjectKey VPNGateway;
  cl_bindings : gmap ObjectKey VPNWorkloadBinding;
  cl_leases : gmap ObjectKey Lease;
  cl_faults : list (option fault);
  cl_clock : time
}.

Definition set_faults (faults : list (option fault)) (w : Cluster) : Cluster :=
  mkCluster (cl_pods w) (cl_routes w) (cl_gateways w) (cl_bindings w) (cl_leases w) faults (cl_clock w).
Definition set_bindings (bindings : gmap ObjectKey VPNWorkloadBinding) (w : Cluster) : Cluster :=
  mkCluster (cl_pods w) (cl_routes w) (cl_gateways w) bindings (cl_leases w) (cl_faults w) (cl_clock w).
Definition set_leases (leases : gmap ObjectKey Lease) (w : Cluster) : Cluster :=
  mkCluster (cl_pods w) (cl_routes w) (cl_gateways w) (cl_bindings w) leases (cl_faults w) (cl_clock w).

Definition api_request {A} (act : IO Cluster A) : IO Cluster A := fun w =>
  match cl_faults w with
  | [] => act w
  | None :: rest => act (set_faults rest w)
  | Some (FailBefore e) :: rest => (Fail e, set_faults rest w)
  | Some (FailAfter e) :: rest => (Fail e, (act (set_faults rest w)).2)
  end.

Definition found {T} (o : option T) : res T :=
  match o with Some x => Ok x | None => Fail (EStatus ReasonNotFound) end.

#[global] Instance cluster_clock : Clock Cluster := cl_clock.
#[global] Instance get_pod : Getter Cluster Pod := fun key => api_request (fun w => (found (cl_pods w !! key), w)).
#[global] Instance get_route : Getter Cluster VPNEgressRoute := fun key => api_request (fun w => (found (cl_routes w !! key), w)).
#[global] Instance get_gateway : Getter Cluster VPNGateway := fun key => api_request (fun w => (found (cl_gateways w !! key), w)).
#[global] Instance get_binding : Getter Cluster VPNWorkloadBinding := fun key => api_request (fun w => (found (cl_bindings w !! key), w)).
#[global] Instance get_lease : Getter Cluster Lease := fun key => api_request (fun w => (found (cl_leases w !! key), w)).
#[global] Instance list_leases : Lister Cluster Lease := fun opt =>
  api_request (fun w => (Ok (List.filter (list_selects lease_Meta opt) (map snd (map_to_list (cl_leases w)))), w)).

#[global] Instance create_lease : Creator Cluster Lease := fun lease =>
  api_request (fun w => let key := key_of (lease_Meta lease) in
    match cl_leases w !! key with
    | Some _ => (Fail (EStatus ReasonAlreadyExists), w)
    | None => (Ok lease, set_leases (<[key := lease]> (cl_leases w)) w)
    end).
#[global] Instance delete_lease : Deleter Cluster Lease := fun lease =>
  api_request (fun w => let key := key_of (lease_Meta lease) in
    match cl_leases w !! key with
    | Some _ => (Ok tt, set_leases (delete key (cl_leases w)) w)
    | None => (Fail (EStatus ReasonNotFound), w)
    end).
#[global] Instance patch_lease : Patcher Cluster Lease := fun base modified =>
  api_request (fun w => let key := key_of (lease_Meta modified) in
    match cl_leases w !! key with
    | Some current => (Ok tt, set_leases (<[key := merge_annotations base modified current]> (cl_leases w)) w)
    | None => (Fail (EStatus ReasonNotFound), w)
    end).

(** The server starts a new object at generation 1. *)
Definition at_first_generation (binding : VPNWorkloadBinding) : VPNWorkloadBinding :=
  let m := wb_Meta binding in
  mkVPNWorkloadBinding
    (mkObjectMeta (Namespace m) (Name m) (UID m) 1 (DeletionTimestamp m) (Labels m) (Annotations m) (Finalizers m)
       (OwnerReferences m)) (wb_Spec binding) (wb_Status binding).

#[global] Instance create_binding : Creator Cluster VPNWorkloadBinding := fun binding =>
  api_request (fun w => let key := key_of (wb_Meta binding) in
    match cl_bindings w !! key with
    | Some _ => (Fail (EStatus ReasonAlreadyExists), w)
    | None => let stored := at_first_generation binding in
              (Ok stored, set_bindings (<[key := stored]> (cl_bindings w)) w)
    end).

(** Deleting an object with finalizers marks it. *)
Definition mark_deleted (now : time) (binding : VPNWorkloadBinding) : VPNWorkloadBinding :=
  let m := wb_Meta binding in
  mkVPNWorkloadBinding
    (mkObjectMeta (Namespace m) (Name m) (UID m) (Generation m)
       (Some (default now (DeletionTimestamp m))) (Labels m) (Annotations m) (Finalizers m) (OwnerReferences m))
    (wb_Spec binding) (wb_Status binding).

#[global] Instance delete_binding : Deleter Cluster VPNWorkloadBinding := fun binding =>
  api_request (fun w => let key := key_of (wb_Meta binding) in
    match cl_bindings w !! key with
    | Some current =>
        (Ok tt, set_bindings (match Finalizers (wb_Meta current) with
                              | [] => delete key (cl_bindings w)
                              | _ => <[key := mark_deleted (cl_clock w) current]> (cl_bindings w)
                              end) w)
    | None => (Fail (EStatus ReasonNotFound), w)
    end).

(** A merge patch sets the fields in which the two versions differ. *)
Definition pick {T} `{EqDecision T} (base modified current : T) : T :=
  if decide (base = modified) then current else modified.

Definition merge_network (base modified current : WorkloadNetworkIntent) : WorkloadNetworkIntent :=
  let p {T} `{EqDecision T} (f : WorkloadNetworkIntent -> T) := pick (f base) (f modified) (f current) in
  mkWorkloadNetworkIntent (p wn_GatewayGeneration) (p wn_OverlayCIDR) (p wn_GatewayAddress) (p wn_GatewayEndpoint)
    (p wn_GatewayHealthPort) (p wn_VNI) (p wn_MTU)
    (mkClusterTraffic (p (fun n => ct_Mode (wn_ClusterTraffic n))) (p (fun n => ct_BypassCIDRs (wn_ClusterTraffic n)))).

Definition merge_binding (base modified current : VPNWorkloadBinding) : VPNWorkloadBinding :=
  with_finalizers (pick (Finalizers (wb_Meta base)) (Finalizers (wb_Meta modified)) (Finalizers (wb_Meta current)))
    (with_network (merge_network (wb_Network (wb_Spec base)) (wb_Network (wb_Spec modified)) (wb_Network (wb_Spec current)))
       current).

(** An object that is deleting and has no finalizers left goes away. *)
#[global] Instance patch_binding : Patcher Cluster VPNWorkloadBinding := fun base modified =>
  api_request (fun w => let key := key_of (wb_Meta modified) in
    match cl_bindings w !! key with
    | Some current =>
        let merged := merge_binding base modified current in
        (Ok tt, set_bindings (if negb (not_deleting (wb_Meta merged)) && bool_decide (Finalizers (wb_Meta merged) = [])
                              then delete key (cl_bindings w) else <[key := merged]> (cl_bindings w)) w)
    | None => (Fail (EStatus ReasonNotFound), w)
    end).

Definition with_binding_status (status : VPNWorkloadBindingStatus) (binding : VPNWorkloadBinding) : VPNWorkloadBinding :=
  mkVPNWorkloadBinding (wb_Meta binding) (wb_Spec binding) status.

#[global] Instance apply_binding_status : StatusApplier Cluster VPNWorkloadBindingStatus := fun key status _ =>
  api_request (fun w =>
    match cl_bindings w !! key with
    | Some current => (Ok tt, set_bindings (<[key := with_binding_status status current]> (cl_bindings w)) w)
    | None => (Fail (EStatus ReasonNotFound), w)
    end).

(** ** Requests *)

Lemma wp_api_request {A} (act : IO Cluster A) Q w :
  (forall f, Q (act (set_faults f w)).1 (act (set_faults f w)).2) ->
  (forall f e, Q (Fail e) (set_faults f w)) ->
  (forall f e, Q (Fail e) (act (set_faults f w)).2) -> wp (api_request act) Q w.
Proof.
  intros Hdone Hlost Hreply. unfold wp, api_request. destruct (cl_faults w) as [|[[e|e]|] rest] eqn:E; [|apply Hlost|apply Hreply|apply Hdone].
  specialize (Hdone []). assert (set_faults [] w = w) as Hw by (rewrite <- E; by destruct w).
  by rewrite Hw in Hdone.
Qed.

(** Reading changes nothing but the faults to come. *)
Lemma wp_read {T A} (look : Cluster -> option T) (answer : option T -> res A) Q w :
  (forall f w', look (set_faults f w') = look w') ->
  (forall f, Q (answer (look w)) (set_faults f w)) -> (forall f e, Q (Fail e) (set_faults f w)) ->
  wp (api_request (fun w => (answer (look w), w))) Q w.
Proof. intros Hl Hok Hfail. apply wp_api_request; intros f; cbn; rewrite ?Hl; auto. Qed.

(** Reservations are stored under their own keys. *)
Definition leases_ok (leases : gmap ObjectKey Lease) : Prop :=
  map_Forall (fun key lease => key_of (lease_Meta lease) = key) leases.

(** More reservations, and nothing else but faults changed. *)
Definition grew (w w' : Cluster) : Prop :=
  exists leases faults, w' = set_faults faults (set_leases leases w) /\ cl_leases w ⊆ leases /\
    (leases_ok (cl_leases w) -> leases_ok leases).

Lemma grew_faults f w : grew w (set_faults f w).
Proof. by exists (cl_leases w), f. Qed.

Lemma grew_refl w : grew w w.
Proof. exists (cl_leases w), (cl_faults w). split_and!; [by destruct w|done|done]. Qed.

Lemma grew_trans w1 w2 w3 : grew w1 w2 -> grew w2 w3 -> grew w1 w3.
Proof.
  intros (l1 & f1 & -> & H1 & K1) (l2 & f2 & -> & H2 & K2). exists l2, f2. cbn in H2, K2.
  split_and!; [done|by transitivity l1|auto].
Qed.

Lemma grew_insert w f lease :
  let key := key_of (lease_Meta lease) in
  cl_leases w !! key = None -> grew w (set_faults f (set_leases (<[key := lease]> (cl_leases w)) w)).
Proof.
  intros key Hn. eexists _, f. split; [reflexivity|]. split; [by apply insert_subseteq|].
  intros Hok. by apply map_Forall_insert_2.
Qed.

(** Creating a reservation: it is there afterwards, unless the request failed. *)
Lemma wp_create_lease lease Q w :
  (forall w', grew w w' -> cl_leases w' !! key_of (lease_Meta lease) = Some lease -> Q (Ok lease) w') ->
  (forall w' e, grew w w' -> Q (Fail e) w') -> wp (k8s_Create lease) Q w.
Proof.
  intros Hok Hfail.
  assert (forall f, let w1 := set_faults f w in cl_leases w !! key_of (lease_Meta lease) = None ->
    grew w (set_leases (<[key_of (lease_Meta lease) := lease]> (cl_leases w1)) w1)) as Hg.
  { intros f w1 Hn. exact (grew_insert w f _ Hn). }
  apply wp_api_request; intros f; cbn zeta beta; change (cl_leases (set_faults f w)) with (cl_leases w);
    destruct (cl_leases w !! key_of (lease_Meta lease)) eqn:E; cbn [fst snd]; auto using grew_faults.
  - apply Hok; [by apply Hg|]. cbn. by rewrite lookup_insert, decide_True.
  - intros e. apply Hfail. by apply Hg.
Qed.

Lemma wp_get_lease key Q w :
  (forall f, Q (found (cl_leases w !! key)) (set_faults f w)) -> (forall f e, Q (Fail e) (set_faults f w)) ->
  wp (k8s_Get (T := Lease) key) Q w.
Proof. by apply (wp_read (fun w => cl_leases w !! key) found). Qed.

(** ** Reserving in the cluster *)

(** The reservation is stored for the gateway and the Pod, and its address
    survives being written as text. *)
Definition holds (gateway : ObjectMeta) (podUID identity : string) (v : Reservation) (w : Cluster) : Prop :=
  rv_Identity v = identity /\
  ParsePrefix (Prefix_String (rv_Address v)) = Some (rv_Address v) /\
  exists lease, cl_leases w !! reservation_key gateway (rv_Address v) = Some lease /\
    reservationMatches lease (UID gateway) podUID identity (rv_Address v) = true.

Lemma probe_address_text base usable start attempt :
  ParsePrefix (Prefix_String (probe_address base usable start attempt)) = Some (probe_address base usable start attempt).
Proof.
  assert (exists v, 0 <= v < 2 ^ 32 /\ probe_address base usable start attempt = mkPrefix (Addr4 v) 32) as (v & Hv & ->).
  { exists (probe_value base usable start attempt). split; [apply Z.mod_pos_bound; done|reflexivity]. }
  by apply ParsePrefix_String.
Qed.

Lemma Reserve_probe_spec fuel gateway podUID identity base usable start attempt w :
  wp (Reserve_probe fuel gateway podUID identity base usable start attempt)
    (fun res w' => grew w w' /\ forall v, res = Ok v -> holds gateway podUID identity v w') w.
Proof.
  revert attempt w. induction fuel as [|fuel IH]; intros attempt w; cbn [Reserve_probe].
  { wp_step. split; [apply grew_refl|done]. }
  destruct (negb _); [wp_step; split; [apply grew_refl|done]|].
  set (prefix := probe_address _ _ _ _).
  assert (forall w1 a, grew w w1 -> wp (Reserve_probe fuel gateway podUID identity base usable start a)
    (fun res w' => grew w w' /\ forall v, res = Ok v -> holds gateway podUID identity v w') w1) as Hagain.
  { intros w1 a Hg. wp_with IH. intros res w2 [Hg2 Hv]. split; [by eapply grew_trans|done]. }
  assert (forall w1 lease rec, grew w w1 -> cl_leases w1 !! reservation_key gateway prefix = Some lease ->
    reservationMatches lease (UID gateway) podUID identity prefix = true ->
    forall v, Ok (mkReservation lease identity prefix rec) = Ok v -> holds gateway podUID identity v w1) as Hmine.
  { intros w1 lease rec Hg Hl Hm v [= <-]. split; [done|]. split; [apply probe_address_text|]. by exists lease. }
  unfold Reserve_attempt. wp_now. do 2 wp_step. apply wp_create_lease.
  - intros w1 Hg Hl. wp_step. split; [done|]. apply Hmine; [done|done|apply desired_matches].
  - intros w1 e Hg. destruct (negb _); [wp_step; by split|]. unfold Reserve_conflict. do 2 wp_step.
    apply wp_get_lease; intros f.
    + assert (grew w (set_faults f w1)) as Hg1 by (eapply grew_trans; [done|apply grew_faults]).
      rewrite desired_key. destruct (cl_leases w1 !! reservation_key gateway prefix) as [existing|] eqn:El; cbn [found].
      * destruct (reservationMatches _ _ _ _ _) eqn:Em; [|by apply Hagain]. wp_step. split; [done|]. by apply Hmine.
      * by apply Hagain.
    + intros e'. assert (grew w (set_faults f w1)) as Hg1 by (eapply grew_trans; [done|apply grew_faults]).
      destruct (IsNotFound e'); [by apply Hagain|]. wp_step. by split.
Qed.

Lemma Reserve_spec fuel gateway podUID pool w :
  wp (Reserve fuel gateway podUID pool)
    (fun res w' => grew w w' /\
       forall v, res = Ok v -> holds gateway podUID (allocationIdentity (UID gateway) podUID) v w') w.
Proof.
  unfold Reserve. destruct (_ || _); [wp_step; split; [apply grew_refl|done]|].
  destruct (negb _); [wp_step; split; [apply grew_refl|done]|]. wp_step. wp_step.
  apply (wp_read (fun w => Some (cl_leases w)) (fun o => match o with Some leases => Ok (List.filter (list_selects lease_Meta _)
    (map snd (map_to_list leases))) | None => Ok [] end)); [done|intros f; cbn [after]|intros f e; split; [apply grew_faults|done]].
  destruct (existsb _ _); [wp_step; split; [apply grew_faults|done]|].
  wp_with Reserve_probe_spec. intros res w1 [Hg Hv]. split; [|done]. eapply grew_trans; [apply grew_faults|done].
Qed.

Lemma Ensure_grew gateway binding w : wp (Ensure gateway binding) (fun _ w' => grew w w') w.
Proof.
  unfold Ensure. do 2 wp_step. destruct (binding_address _ _) as [address|e]; cbn [after]; [|apply grew_refl].
  wp_now. do 2 wp_step. apply wp_create_lease; [intros; by wp_step|]. intros w1 e Hg.
  destruct (negb _); [by wp_step|]. do 2 wp_step.
  apply wp_get_lease; intros f; [|intros e'; eapply grew_trans; [done|apply grew_faults]].
  destruct (cl_leases w1 !! _) as [existing|]; cbn [found after];
    [|eapply grew_trans; [done|apply grew_faults]].
  destruct (negb _); wp_step; (eapply grew_trans; [done|apply grew_faults]).
Qed.

(** ** The system *)

Opaque BindingName reservationName.

Definition deleting (binding : VPNWorkloadBinding) : Prop := DeletionTimestamp (wb_Meta binding) <> None.

(** The node agent reported, for exactly this binding, that nothing is applied. *)
Definition withdrawn (binding : VPNWorkloadBinding) : Prop :=
  wbs_AppliedGeneration (wb_Status binding) = 0 /\ exact_report binding <> None.

(** What others may do to a binding: users and the garbage collector delete it,
    the relay writes its status, in any way, also with a late patch over a newer
    report.  Nobody else changes what it binds or takes its finalizer. *)
Definition env_binding (old new : VPNWorkloadBinding) : Prop :=
  wb_Spec new = wb_Spec old /\ key_of (wb_Meta new) = key_of (wb_Meta old) /\
  Finalizers (wb_Meta new) = Finalizers (wb_Meta old) /\ (deleting old -> deleting new).

(** Two versions bind the same Pod to the same address of the same gateway. *)
Definition same_allocation (b b' : VPNWorkloadBinding) : Prop :=
  wb_PodRef (wb_Spec b') = wb_PodRef (wb_Spec b) /\ wb_GatewayRef (wb_Spec b') = wb_GatewayRef (wb_Spec b) /\
  wb_Allocation (wb_Spec b') = wb_Allocation (wb_Spec b).

(** In the latest states, latest first, the binding has been deleting with this
    allocation, back to a state in which its agent had reported it withdrawn. *)
Fixpoint confirmed (past : list Cluster) (key : ObjectKey) (b : VPNWorkloadBinding) : Prop :=
  match past with
  | [] => False
  | w :: past' => exists b', cl_bindings w !! key = Some b' /\ same_allocation b b' /\ deleting b' /\
                    (withdrawn b' \/ confirmed past' key b)
  end.

Section System.
Context `{ApiMeta} (r : VPNWorkloadBindingReconciler).
(** A Pod's UID determines its namespace: UIDs are never reused. *)
Context (pod_namespace : string -> string).

Definition pods_ok (w : Cluster) : Prop :=
  map_Forall (fun _ pod => Namespace (pod_Meta pod) = pod_namespace (UID (pod_Meta pod))) (cl_pods w).

(** A reconciliation of either controller, or anything the others may do. *)
Inductive cluster_step : Cluster -> Cluster -> Prop :=
| step_pod fuel request w : cluster_step w (pod_Reconcile fuel request w).2
| step_binding request w : cluster_step w (binding_Reconcile r request w).2
| step_env w w' :
    cl_leases w' = cl_leases w -> pods_ok w' ->
    (forall key, option_Forall2 env_binding (cl_bindings w !! key) (cl_bindings w' !! key)) ->
    cluster_step w w'.

(** Before the first reconciliation there are no bindings. *)
Definition cluster_initial (w : Cluster) : Prop := pods_ok w /\ leases_ok (cl_leases w) /\ cl_bindings w = ∅.

(** The states of a run, latest first. *)
Inductive cluster_run : list Cluster -> Prop :=
| run_initial w : cluster_initial w -> cluster_run [w]
| run_step w w' past : cluster_run (w :: past) -> cluster_step w w' -> cluster_run (w' :: w :: past).

(** ** The invariant *)

Definition lease_key (binding : VPNWorkloadBinding) (address : Prefix) : ObjectKey :=
  reservation_key (binding_gateway binding) address.

Definition lease_held (state : string) (leases : gmap ObjectKey Lease) (binding : VPNWorkloadBinding) (address : Prefix) : Prop :=
  exists lease, leases !! lease_key binding address = Some lease /\
    lease_matches state lease (nur_UID (wb_GatewayRef (wb_Spec binding))) (binding_podUID binding)
      (binding_identity binding) address = true.

Section Invariant.
(** The bindings whose withdrawal was confirmed. *)
Context (given : ObjectKey -> VPNWorkloadBinding -> Prop).
Context (given_same : forall key b b', same_allocation b b' -> given key b -> given key b').

(** A binding has its reservation, unless it is deleting and either its
    withdrawal was confirmed or it is quarantined. *)
Definition secured (leases : gmap ObjectKey Lease) (key : ObjectKey) (binding : VPNWorkloadBinding) (address : Prefix) : Prop :=
  lease_held ReservationStateActive leases binding address \/
  (deleting binding /\
   (given key binding \/ lease_held ReservationStateQuarantined leases binding address)).

Record sound_binding (leases : gmap ObjectKey Lease) (key : ObjectKey) (binding : VPNWorkloadBinding) : Prop := {
  sb_key : key = mkObjectKey (pod_namespace (binding_podUID binding)) (BindingName (binding_podUID binding));
  sb_stored : key_of (wb_Meta binding) = key;
  sb_finalizers : Finalizers (wb_Meta binding) = [DataplaneCleanupFinalizer];
  sb_secured : exists address, ParsePrefix (wa_Address (wb_Allocation (wb_Spec binding))) = Some address /\
    secured leases key binding address
}.

Definition cluster_inv (w : Cluster) : Prop :=
  (pods_ok w /\ leases_ok (cl_leases w)) /\ map_Forall (sound_binding (cl_leases w)) (cl_bindings w).

Lemma secured_grows leases leases' key binding address :
  leases ⊆ leases' -> secured leases key binding address -> secured leases' key binding address.
Proof.
  intros Hsub. unfold secured, lease_held.
  intros [(l & Hl & Hm)|(Hd & [Hw|(l & Hl & Hm)])]; [left|by right; auto|right; split; [done|right]];
    (exists l; split; [by eapply lookup_weaken|done]).
Qed.

Lemma sound_grows leases leases' key binding :
  leases ⊆ leases' -> sound_binding leases key binding -> sound_binding leases' key binding.
Proof.
  intros Hsub [? ? ? (address & Ha & Hs)]. split; [done..|]. exists address. split; [done|]. by eapply secured_grows.
Qed.

Lemma inv_grew w w' : cluster_inv w -> grew w w' -> cluster_inv w'.
Proof.
  intros [[Hp Hl] Hb] (leases & faults & -> & Hsub & Hok). split; [auto|]. intros key binding Hk.
  eapply sound_grows; [done|]. by apply Hb.
Qed.

Lemma inv_insert w key binding :
  cluster_inv w -> sound_binding (cl_leases w) key binding ->
  cluster_inv (set_bindings (<[key := binding]> (cl_bindings w)) w).
Proof. intros [Hp Hb] Hs. split; [done|]. by apply map_Forall_insert_2. Qed.

Lemma inv_delete w key : cluster_inv w -> cluster_inv (set_bindings (delete key (cl_bindings w)) w).
Proof. intros [Hp Hb]. split; [done|]. by apply map_Forall_delete. Qed.

(** A version of a sound binding with the same spec, key and finalizers that is
    deleting if the old one was. *)
Lemma sound_update leases key binding binding' :
  sound_binding leases key binding -> wb_Spec binding' = wb_Spec binding \/
    (exists network, wb_Spec binding' = wb_Spec (with_network network binding)) ->
  key_of (wb_Meta binding') = key_of (wb_Meta binding) -> Finalizers (wb_Meta binding') = Finalizers (wb_Meta binding) ->
  (deleting binding -> deleting binding') -> sound_binding leases key binding'.
Proof using given_same.
  intros [Hk Hst Hf (address & Ha & Hs)] Hspec Hkey Hfin Hdel.
  assert (wb_PodRef (wb_Spec binding') = wb_PodRef (wb_Spec binding) /\
          wb_GatewayRef (wb_Spec binding') = wb_GatewayRef (wb_Spec binding) /\
          wb_Allocation (wb_Spec binding') = wb_Allocation (wb_Spec binding)) as (Ep & Eg & Ea)
    by (destruct Hspec as [->|[n ->]]; done).
  assert (forall state a, lease_held state leases binding a -> lease_held state leases binding' a) as Hheld.
  { unfold lease_held, lease_key, binding_gateway, binding_podUID, binding_identity. by rewrite Ep, Eg, Ea. }
  split; unfold binding_podUID in *; rewrite ?Ep, ?Ea; [done|congruence|congruence|].
  exists address. split; [done|]. unfold secured in *. destruct Hs as [Hs|(Hd & [Hw|Hq])]; [auto| |auto].
  right. split; [auto|]. left. by apply (given_same key binding).
Qed.

(** ** The Pod reconciler keeps it *)

Notation keeps_inv m w := (wp m (fun _ w' => cluster_inv w') w).

Lemma inv_faults f w : cluster_inv w -> cluster_inv (set_faults f w).
Proof. done. Qed.

Lemma delete_binding_inv binding w : cluster_inv w -> keeps_inv (k8s_Delete binding) w.
Proof.
  intros Hinv.
  assert (forall f, cluster_inv (match cl_bindings w !! key_of (wb_Meta binding) with
    | Some current => set_bindings (match Finalizers (wb_Meta current) with
                              | [] => delete (key_of (wb_Meta binding)) (cl_bindings w)
                              | _ => <[key_of (wb_Meta binding) := mark_deleted (cl_clock w) current]> (cl_bindings w)
                              end) (set_faults f w)
    | None => set_faults f w end)) as Hact.
  { intros f. destruct (cl_bindings w !! _) as [current|] eqn:E; [|done].
    pose proof (proj2 Hinv _ _ E) as Hs. cbn beta in Hs. rewrite (sb_finalizers _ _ _ Hs).
    apply (inv_insert (set_faults f w)); [done|]. eapply sound_update; [exact Hs|by left|done|done|done]. }
  apply wp_api_request; intros f; [|done|intros e]; cbn [fst snd]; specialize (Hact f);
    change (cl_bindings (set_faults f w)) with (cl_bindings w); by destruct (cl_bindings w !! _).
Qed.

Lemma patch_network_inv existing network w :
  cluster_inv w -> keeps_inv (k8s_Patch existing (with_network network existing)) w.
Proof.
  intros Hinv.
  assert (forall f current, cl_bindings w !! key_of (wb_Meta existing) = Some current ->
    let merged := merge_binding existing (with_network network existing) current in
    cluster_inv (set_bindings (if negb (not_deleting (wb_Meta merged)) && bool_decide (Finalizers (wb_Meta merged) = [])
      then delete (key_of (wb_Meta existing)) (cl_bindings w) else <[key_of (wb_Meta existing) := merged]> (cl_bindings w))
      (set_faults f w))) as Hact.
  { intros f current E merged. destruct (_ && _); [by apply (inv_delete (set_faults f w))|].
    apply (inv_insert (set_faults f w)); [done|]. eapply sound_update; [exact (proj2 Hinv _ _ E)|..].
    - right. eexists. reflexivity.
    - done.
    - unfold merged, merge_binding, pick. cbn. by rewrite decide_True.
    - done. }
  apply wp_api_request; intros f; [|done|intros e]; cbn [fst snd];
    change (cl_bindings (set_faults f w)) with (cl_bindings w);
    change (key_of (wb_Meta (with_network network existing))) with (key_of (wb_Meta existing));
    (destruct (cl_bindings w !! _) as [current|] eqn:E; [by apply (Hact f)|done]).
Qed.

Lemma create_binding_inv binding w :
  cluster_inv w ->
  sound_binding (cl_leases w) (key_of (wb_Meta binding)) (at_first_generation binding) ->
  keeps_inv (k8s_Create binding) w.
Proof.
  intros Hinv Hs.
  apply wp_api_request; intros f; [|done|intros e]; cbn [fst snd];
    change (cl_bindings (set_faults f w)) with (cl_bindings w);
    (destruct (cl_bindings w !! _) as [current|] eqn:E; [done|by apply (inv_insert (set_faults f w))]).
Qed.

Lemma new_binding_sound pod route gateway v network w :
  cluster_inv w -> Namespace (pod_Meta pod) = pod_namespace (UID (pod_Meta pod)) ->
  holds (gw_Meta gateway) (UID (pod_Meta pod)) (allocationIdentity (UID (gw_Meta gateway)) (UID (pod_Meta pod))) v w ->
  sound_binding (cl_leases w) (key_of (wb_Meta (new_binding pod route gateway v network)))
    (at_first_generation (new_binding pod route gateway v network)).
Proof.
  intros Hinv Hns (Hid & Htext & lease & Hl & Hm). split; [|done|done|].
  - unfold key_of, binding_podUID. cbn. by rewrite Hns.
  - exists (rv_Address v). split; [done|]. left. exists lease. split; [done|].
    unfold binding_identity. cbn. by rewrite Hid.
Qed.

Lemma pod_existing_inv pod route gateway network existing w :
  cluster_inv w -> keeps_inv (pod_existing pod route gateway network existing) w.
Proof.
  intros Hinv. unfold pod_existing. destruct (negb (String.eqb _ _)); [by wp_step|].
  destruct (negb (bindingMatches _ _ _ _)).
  { wp_step. destruct (not_deleting _); [|by do 2 wp_step]. wp_step. wp_with delete_binding_inv; [done|].
    intros res w1 H1. destruct res; cbn [after]; by try wp_step. }
  destruct (negb _).
  { do 2 wp_step. wp_with patch_network_inv; [done|]. intros res w1 H1. destruct res; cbn [after]; by try wp_step. }
  do 2 wp_step. wp_with Ensure_grew. intros res w1 Hg. assert (cluster_inv w1) as H1 by by eapply inv_grew.
  destruct res as [lease|err]; [by wp_step|]. wp_step. destruct (_ && _); [|by do 2 wp_step].
  wp_step. wp_with delete_binding_inv; [done|]. intros res w2 H2. by wp_step.
Qed.

Lemma pod_create_inv fuel pod route gateway network pool w :
  cluster_inv w -> Namespace (pod_Meta pod) = pod_namespace (UID (pod_Meta pod)) ->
  keeps_inv (pod_create fuel pod route gateway network pool) w.
Proof.
  intros Hinv Hns. unfold pod_create. do 2 wp_step. wp_with Reserve_spec. intros res w1 [Hg Hv].
  assert (cluster_inv w1) as H1 by by eapply inv_grew.
  destruct res as [v|err]; [|destruct (errors_Is _ _); by wp_step].
  do 2 wp_step. wp_with create_binding_inv; [done|by apply new_binding_sound; [..|apply Hv]|].
  intros res w2 H2. destruct res as [stored|err]; [by wp_step|]. destruct (IsAlreadyExists err); by wp_step.
Qed.

(** A read, for a computation that keeps the invariant. *)
Lemma read_inv {T} (look : Cluster -> option T) (k : res T -> IO Cluster Result) w :
  (forall f w', look (set_faults f w') = look w') -> cluster_inv w ->
  (forall w' x, cluster_inv w' -> (forall y, x = Ok y -> look w' = Some y) -> keeps_inv (k x) w') ->
  keeps_inv (io_try (api_request (fun w => (found (look w), w))) ≫= k) w.
Proof.
  intros Hl Hinv Hk. do 2 wp_step. apply (wp_read look found); [done|..]; intros f; cbn [after].
  - apply Hk; [done|]. intros y Hy. rewrite Hl. destruct (look w); [by injection Hy as ->|done].
  - intros e. by apply Hk.
Qed.

Lemma pod_Reconcile_inv fuel request w : cluster_inv w -> keeps_inv (pod_Reconcile fuel request) w.
Proof.
  intros Hinv. unfold pod_Reconcile, reconcile_object.
  apply (read_inv (fun w => cl_pods w !! request)); [done|done|]. intros w1 [pod|err] H1 Hpod;
    [|destruct (IsNotFound err); by wp_step].
  assert (Namespace (pod_Meta pod) = pod_namespace (UID (pod_Meta pod))) as Hns
    by exact (proj1 (proj1 H1) _ _ (Hpod pod eq_refl)).
  destruct (_ || _); [by wp_step|].
  apply (read_inv (fun w => cl_routes w !! _)); [done|done|]. intros w2 [route|err] H2 _;
    [|destruct (IsNotFound err); by wp_step].
  destruct (negb _); [by wp_step|]. unfold pod_with_route.
  destruct (rt_ParentRefs _) as [|parent rest]; [by wp_step|].
  apply (read_inv (fun w => cl_gateways w !! _)); [done|done|]. intros w3 [gateway|err] H3 _;
    [|destruct (IsNotFound err); by wp_step].
  destruct (_ || _); [by wp_step|].
  destruct (ParseOverlayCIDR gateway) as [pool|]; [|by wp_step].
  destruct (workloadNetworkIntent gateway) as [network|]; [|by wp_step].
  apply (read_inv (fun w => cl_bindings w !! _)); [done|done|]. intros w4 [existing|err] H4 _.
  - by apply pod_existing_inv.
  - destruct (negb _); [by wp_step|]. by apply pod_create_inv.
Qed.

(** ** The binding reconciler keeps it *)

Lemma held_same_pod state state' lease gatewayUID gatewayUID' podUID podUID' identity identity' address address' :
  lease_matches state lease gatewayUID podUID identity address = true ->
  lease_matches state' lease gatewayUID' podUID' identity' address' = true ->
  podUID = podUID' /\ state = state'.
Proof.
  unfold lease_matches. rewrite !andb_true_iff, !String.eqb_eq. naive_solver.
Qed.

(** Changing the reservation of one binding does not touch the others'. *)
Lemma inv_lease_change w key binding address lease leases' :
  cluster_inv w -> cl_bindings w !! key = Some binding ->
  ParsePrefix (wa_Address (wb_Allocation (wb_Spec binding))) = Some address ->
  cl_leases w !! lease_key binding address = Some lease ->
  reservationMatches lease (nur_UID (wb_GatewayRef (wb_Spec binding))) (binding_podUID binding)
    (binding_identity binding) address = true ->
  (forall k, k <> lease_key binding address -> leases' !! k = cl_leases w !! k) ->
  leases_ok leases' -> secured leases' key binding address ->
  cluster_inv (set_leases leases' w).
Proof.
  intros [[Hp Hok] Hb] Hk Ha Hl Hm Hother Hok' Hsec. split; [done|]. intros key' binding' Hk'.
  change (cl_bindings w !! key' = Some binding') in Hk'.
  pose proof (Hb _ _ Hk) as [Ekey _ _ _]. pose proof (Hb _ _ Hk') as [Ekey' Hst Hf (address' & Ha' & Hs)].
  split; [done..|]. exists address'. split; [done|].
  destruct (decide (key' = key)) as [->|Hne].
  { assert (binding' = binding) as -> by congruence. assert (address' = address) as -> by congruence. done. }
  assert (forall state, lease_held state (cl_leases w) binding' address' -> lease_held state leases' binding' address') as Hheld.
  { intros state (l & Hl' & Hm'). exists l. split; [|done]. rewrite Hother; [done|]. intros Heq.
    rewrite Heq, Hl in Hl'. injection Hl' as <-.
    destruct (held_same_pod _ _ _ _ _ _ _ _ _ _ _ Hm Hm') as [Hpod _]. congruence. }
  unfold secured in *. destruct Hs as [Hs|(Hd & [Hw|Hq])]; auto.
Qed.

(** The cluster with other reservations and faults. *)
Definition bindings_kept (w w' : Cluster) : Prop := cl_bindings w' = cl_bindings w.

Lemma Release_inv key binding w :
  cluster_inv w -> cl_bindings w !! key = Some binding -> deleting binding -> given key binding ->
  wp (Release binding) (fun _ w' => cluster_inv w' /\ bindings_kept w w') w.
Proof.
  intros Hinv Hk Hd Hw. unfold Release, ReservationForBinding, binding_address.
  destruct (sb_secured _ _ _ (proj2 Hinv _ _ Hk)) as (address & Hparse & _). rewrite Hparse. do 2 wp_step.
  do 2 wp_step. apply wp_get_lease; intros f; [|intros e; destruct (IsNotFound e); by wp_step].
  change (mkObjectKey _ _) with (lease_key binding address).
  destruct (cl_leases w !! lease_key binding address) as [current|] eqn:El; cbn [found];
    [|by destruct (IsNotFound _); wp_step]. do 2 wp_step.
  destruct (reservationMatches _ _ _ _ _) eqn:Em; cbn [negb]; [|by wp_step].
  apply wp_ignore_not_found.
  assert (key_of (lease_Meta current) = lease_key binding address) as Hkey by exact (proj2 (proj1 Hinv) _ _ El).
  assert (forall f', cluster_inv (set_leases (delete (lease_key binding address) (cl_leases w)) (set_faults f' w))) as Hact.
  { intros f'. apply (inv_lease_change (set_faults f' w) key binding address current); try done.
    - intros k Hne. by rewrite lookup_delete_ne.
    - apply map_Forall_delete. exact (proj2 (proj1 Hinv)).
    - right. auto. }
  apply wp_api_request; intros f'; [|by intros|intros e];
    cbn beta zeta; change (cl_leases (set_faults f' (set_faults f w))) with (cl_leases w);
    rewrite Hkey, El; cbn [fst snd]; intros; (split; [apply Hact|done]).
Qed.

Lemma quarantined_matches lease gatewayUID podUID identity address :
  reservationMatches lease gatewayUID podUID identity address = true ->
  quarantineMatches (merge_annotations lease (quarantined lease) lease) gatewayUID podUID identity address = true.
Proof.
  unfold reservationMatches, quarantineMatches, lease_matches. cbn zeta. rewrite !andb_true_iff, !String.eqb_eq.
  intros [[[[Hh Hg] Hp] Ha] Hs].
  set (base := Annotations (lease_Meta lease)) in *.
  assert (forall k, map_get (Annotations (lease_Meta (merge_annotations lease (quarantined lease) lease))) k =
    if decide (k = ReservationStateAnnotation) then ReservationStateQuarantined else map_get base k) as Hget.
  { intros k. unfold merge_annotations, quarantined, map_get. cbn [lease_Meta Annotations]. fold base.
    set (changed := filter _ _).
    assert (changed = {[ReservationStateAnnotation := ReservationStateQuarantined]}) as ->.
    { apply map_eq. intros k'. apply option_eq. intros v. unfold changed.
      rewrite map_lookup_filter_Some, lookup_insert_Some, lookup_singleton_Some. cbn.
      unfold map_get in Hs. fold base in Hs. split.
      - intros [[[<- <-]|[Hne Hv]] Hch]; [done|congruence].
      - intros [<- <-]. split; [by left|]. intros Hq. by rewrite Hq in Hs. }
    destruct (decide (k = ReservationStateAnnotation)) as [->|Hk].
    - by rewrite (lookup_union_Some_l _ _ _ ReservationStateQuarantined) by by rewrite lookup_singleton, decide_True.
    - by rewrite lookup_union_r by by rewrite lookup_singleton_ne. }
  rewrite !Hget, !decide_False by done. rewrite decide_True by done. done.
Qed.

Lemma Quarantine_inv key binding w :
  cluster_inv w -> cl_bindings w !! key = Some binding -> deleting binding ->
  wp (Quarantine binding) (fun _ w' => cluster_inv w' /\ bindings_kept w w') w.
Proof.
  intros Hinv Hk Hd. unfold Quarantine, binding_address.
  destruct (sb_secured _ _ _ (proj2 Hinv _ _ Hk)) as (address & Hparse & _). rewrite Hparse. do 2 wp_step. wp_now.
  assert (forall w1, grew w w1 -> cluster_inv w1 /\ bindings_kept w w1) as Hgrew.
  { intros w1 Hg. split; [by eapply inv_grew|]. by destruct Hg as (l & f & -> & _). }
  do 2 wp_step. apply wp_create_lease; [intros w1 Hg _; wp_step; auto|]. intros w1 e Hg.
  destruct (negb _); [wp_step; auto|]. do 2 wp_step.
  assert (forall f, cluster_inv (set_faults f w1) /\ bindings_kept w (set_faults f w1)) as Hf
    by (intros f; apply Hgrew; eapply grew_trans; [done|apply grew_faults]).
  apply wp_get_lease; intros f; [|by intros e'; apply Hf].
  change (key_of _) with (lease_key binding address).
  destruct (cl_leases w1 !! lease_key binding address) as [current|] eqn:El; cbn [found after]; [|apply Hf].
  destruct (negb (not_deleting _)); [wp_step; apply Hf|].
  destruct (String.eqb _ _); [destruct (quarantineMatches _ _ _ _ _); wp_step; apply Hf|].
  destruct (reservationMatches _ _ _ _ _) eqn:Em; cbn [negb]; [|wp_step; apply Hf].
  destruct (Hf f) as [Hinv1 Hkept].
  assert (key_of (lease_Meta current) = lease_key binding address) as Hkey by exact (proj2 (proj1 Hinv1) _ _ El).
  assert (forall f', cluster_inv (set_leases (<[lease_key binding address :=
    merge_annotations current (quarantined current) current]> (cl_leases w1)) (set_faults f' w1))) as Hact.
  { intros f'. apply (inv_lease_change (set_faults f' w1) key binding address current); try done.
    - rewrite <- Hk. exact (f_equal (fun m => m !! key) Hkept).
    - intros k Hne. by rewrite lookup_insert_ne.
    - apply map_Forall_insert_2; [done|]. exact (proj2 (proj1 Hinv1)).
    - right. split; [done|]. right. eexists. rewrite lookup_insert, decide_True by done. split; [done|].
      by apply quarantined_matches. }
  apply wp_api_request; intros f'; [|by intros; apply Hf|intros e'];
    cbn beta zeta; change (key_of (lease_Meta (quarantined current))) with (key_of (lease_Meta current));
    change (cl_leases (set_faults f' (set_faults f w1))) with (cl_leases w1); rewrite Hkey, El; cbn [fst snd];
    (split; [apply Hact|done]).
Qed.

Lemma removeFinalizer_inv key binding w :
  cluster_inv w -> cl_bindings w !! key = Some binding -> deleting binding ->
  wp (removeFinalizer binding) (fun _ w' => cluster_inv w') w.
Proof.
  intros Hinv Hk Hd. pose proof (proj2 Hinv _ _ Hk) as Hs. cbn beta in Hs.
  pose proof (sb_finalizers _ _ _ Hs) as Hf. pose proof (sb_stored _ _ _ Hs) as Hkey.
  unfold removeFinalizer. wp_step.
  assert (forall f, cluster_inv (set_bindings (delete key (cl_bindings w)) (set_faults f w))) as Hact
    by (intros f; by apply (inv_delete (set_faults f w))).
  rewrite Hf. change (removeString [DataplaneCleanupFinalizer] DataplaneCleanupFinalizer) with (@nil string).
  apply wp_api_request; intros f; [|done|intros e]; cbn beta zeta;
    change (key_of (wb_Meta (with_finalizers [] binding))) with (key_of (wb_Meta binding));
    change (cl_bindings (set_faults f w)) with (cl_bindings w); rewrite Hkey, Hk; cbn [fst snd];
    unfold merge_binding, pick; cbn [Finalizers wb_Meta with_finalizers]; rewrite Hf; cbn [decide];
    (rewrite decide_False by done); unfold not_deleting; cbn [DeletionTimestamp wb_Meta with_finalizers with_network];
    (rewrite bool_decide_false by done); apply Hact.
Qed.

Lemma apply_status_inv key binding status w :
  cluster_inv w -> cl_bindings w !! key = Some binding ->
  (exists conditions, status = with_conditions binding conditions) ->
  keeps_inv (binding_applyStatus binding status) w.
Proof.
  intros Hinv Hk [conditions ->]. pose proof (proj2 Hinv _ _ Hk) as Hs. cbn beta in Hs.
  pose proof (sb_stored _ _ _ Hs) as Hkey. unfold binding_applyStatus. wp_step.
  assert (forall f, cluster_inv (set_bindings (<[key := with_binding_status (with_conditions binding conditions) binding]>
    (cl_bindings w)) (set_faults f w))) as Hact.
  { intros f. apply (inv_insert (set_faults f w)); [done|].
    eapply sound_update; [exact Hs|by left|done|done|done]. }
  apply wp_api_request; intros f; [|done|intros e]; cbn beta zeta;
    change (cl_bindings (set_faults f w)) with (cl_bindings w); rewrite Hkey, Hk; apply Hact.
Qed.

Lemma withdrawalConfirmed_withdrawn binding now : withdrawalConfirmed r binding now = true -> withdrawn binding.
Proof.
  unfold withdrawalConfirmed, withdrawn. rewrite andb_true_iff, Z.eqb_eq. intros [Ha Hr]. split; [done|].
  by destruct (exact_report binding).
Qed.

Lemma reconcileDeletion_inv key binding t w :
  cluster_inv w -> cl_bindings w !! key = Some binding -> DeletionTimestamp (wb_Meta binding) = Some t ->
  (withdrawn binding -> given key binding) ->
  keeps_inv (reconcileDeletion r binding t) w.
Proof using given_same.
  intros Hinv Hk Ht Hgiven. assert (deleting binding) as Hd by (unfold deleting; congruence).
  assert (forall w1, cluster_inv w1 /\ bindings_kept w w1 -> wp (removeFinalizer binding ;; mret NoRequeue)
    (fun _ w' => cluster_inv w') w1) as Hrm.
  { intros w1 [H1 Hkept]. wp_step. wp_with (removeFinalizer_inv key); [done|by rewrite Hkept|done|].
    intros res w2 H2. destruct res; cbn [after]; by try wp_step. }
  unfold reconcileDeletion. destruct (negb (contains_string _ _)); [by wp_step|]. wp_now.
  destruct (negb _).
  { wp_step. wp_with (apply_status_inv key); [done|done|by eexists|]. intros res w1 H1.
    destruct res; cbn [after]; by try wp_step. }
  wp_now. destruct (withdrawalConfirmed r binding _) eqn:Ew.
  { apply withdrawalConfirmed_withdrawn, Hgiven in Ew. do 2 wp_step. wp_with (Release_inv key); [done..|].
    intros res w1 H1. destruct res; cbn [after]; [by apply Hrm|by apply H1]. }
  wp_now. destruct (time_Before _ _); [wp_now; by wp_step|]. do 2 wp_step. wp_with (Quarantine_inv key); [done..|].
  intros res w1 H1. destruct res; cbn [after]; [by apply Hrm|by apply H1].
Qed.

Lemma observeGateway_reads binding w :
  wp (observeGateway binding) (fun _ w' => exists f, w' = set_faults f w) w.
Proof.
  unfold observeGateway. do 2 wp_step.
  apply (wp_read (fun w => cl_gateways w !! _) found); [done|intros f|intros f e].
  - destruct (cl_gateways w !! _) as [gateway|]; cbn [found]; repeat case_match; wp_step; by exists f.
  - destruct (IsNotFound e); wp_step; by exists f.
Qed.

Lemma binding_Reconcile_inv request w :
  cluster_inv w -> (forall b, cl_bindings w !! request = Some b -> deleting b -> withdrawn b -> given request b) ->
  keeps_inv (binding_Reconcile r request) w.
Proof using given_same.
  intros Hinv Hgiven. unfold binding_Reconcile, reconcile_object. do 2 wp_step.
  apply (wp_read (fun w => cl_bindings w !! request) found); [done|intros f|intros f e; destruct (IsNotFound e); by wp_step].
  destruct (cl_bindings w !! request) as [binding|] eqn:Hb; cbn [found]; [|destruct (IsNotFound _); by wp_step].
  assert (cluster_inv (set_faults f w)) as H1 by done.
  assert (cl_bindings (set_faults f w) !! request = Some binding) as Hb1 by done. revert H1 Hb1. generalize (set_faults f w). intros w1 H1 Hb1.
  destruct (DeletionTimestamp _) as [t|] eqn:Et.
  { eapply reconcileDeletion_inv; [done|done|done|]. apply Hgiven; [done|]. unfold deleting. congruence. }
  wp_step. wp_with observeGateway_reads. intros res w2 [f' ->]. destruct res as [observation|e]; cbn [after]; [|done].
  wp_now. unfold binding_desiredStatus. case_decide; [by wp_step|]. wp_step.
  wp_with (apply_status_inv request); [done|done|by eexists|]. intros res w2 H2. destruct res; cbn [after]; by try wp_step.
Qed.

Lemma step_inv w w' : cluster_step w w' -> (forall key b, cl_bindings w !! key = Some b -> deleting b -> withdrawn b -> given key b) ->
  cluster_inv w -> cluster_inv w'.
Proof using given_same.
  intros Hstep Hgiven Hinv. destruct Hstep as [fuel request w|request w|w w' Hl Hp Hb].
  - by apply pod_Reconcile_inv.
  - apply binding_Reconcile_inv; [done|apply Hgiven].
  - destruct Hinv as [[_ Hok] Hall]. split; [split; [done|by rewrite Hl]|]. intros key binding' Hk'.
    specialize (Hb key). rewrite Hk' in Hb. inversion Hb as [binding ? (Hspec & Hkey & Hfin & Hdel) Hk Heq|]; subst.
    rewrite Hl. eapply sound_update; [exact (Hall key binding (eq_sym Hk))|auto..].
Qed.

End Invariant.

Lemma confirmed_same past key b b' : same_allocation b b' -> confirmed past key b -> confirmed past key b'.
Proof.
  intros (Hp & Hg & Ha). induction past as [|w past IH]; [done|]. intros (b0 & Hb0 & (P0 & G0 & A0) & Hd & Hor).
  exists b0. split_and!; [done| |done|naive_solver]. unfold same_allocation. split_and!; congruence.
Qed.

(** What was confirmed before a step is confirmed after it, where the binding is
    still there and deleting. *)
Lemma inv_extends w past given : cluster_inv given w -> (forall key b, given key b -> confirmed past key b) -> cluster_inv (confirmed (w :: past)) w.
Proof.
  intros [Hok Hall] Hsub. split; [done|]. intros key b Hb. destruct (Hall key b Hb) as [Hk Hst Hf (address & Ha & Hs)].
  split; [done..|]. exists address. split; [done|]. destruct Hs as [Hs|(Hd & [Hg|Hq])]; [by left| |right; by auto].
  right. split; [done|]. left. exists b. split_and!; [done|done|done|]. right. by apply Hsub.
Qed.

Lemma run_inv w past : cluster_run (w :: past) -> cluster_inv (confirmed (w :: past)) w.
Proof.
  intros Hrun. remember (w :: past) as ws eqn:E. revert w past E. induction Hrun as [w (Hp & Hok & Hempty)|w w' past Hrun IH Hstep]; intros ? ? [= <- <-].
  - split; [done|]. rewrite Hempty. apply map_Forall_empty.
  - apply (inv_extends w' (w :: past) (confirmed (w :: past))); [|done].
    apply (step_inv (confirmed (w :: past))) with w; [exact (confirmed_same (w :: past))|done| |exact (IH _ _ eq_refl)].
    intros key b Hb Hd Hw. exists b. split_and!; [done|done|done|by left].
Qed.

(** C10: No address is given away before its withdrawal was confirmed.  Start with
    no bindings and let the two binding controllers reconcile any keys in any
    order, one pass at a time, with any request failing before or after it took
    effect; between the passes others create, change and delete Pods, routes and
    gateways, delete bindings and write the status of bindings in any way.  If
    the bindings of two different Pods name the same address of the same gateway,
    then one of the two is deleting, and in an earlier state of this run, since
    which it has been deleting, its node agent's report for exactly this binding
    said that nothing is applied.  So a live address is never given away, and an
    address whose withdrawal was never confirmed stays quarantined. *)
Theorem addresses_exclusive w past key1 key2 binding1 binding2 :
  cluster_run (w :: past) ->
  cl_bindings w !! key1 = Some binding1 -> cl_bindings w !! key2 = Some binding2 -> key1 <> key2 ->
  wb_GatewayRef (wb_Spec binding1) = wb_GatewayRef (wb_Spec binding2) ->
  wa_Address (wb_Allocation (wb_Spec binding1)) = wa_Address (wb_Allocation (wb_Spec binding2)) ->
  (deleting binding1 /\ confirmed (w :: past) key1 binding1) \/ (deleting binding2 /\ confirmed (w :: past) key2 binding2).
Proof.
  intros Hrun Hk1 Hk2 Hne Hgw Haddr. destruct (run_inv w past Hrun) as [_ Hall].
  destruct (Hall _ _ Hk1) as [E1 _ _ (address & Ha1 & Hs1)], (Hall _ _ Hk2) as [E2 _ _ (address2 & Ha2 & Hs2)].
  assert (address2 = address) as -> by congruence.
  assert (forall s1 s2, lease_held s1 (cl_leases w) binding1 address -> lease_held s2 (cl_leases w) binding2 address -> False)
    as Hclash.
  { intros s1 s2 (l1 & Hl1 & Hm1) (l2 & Hl2 & Hm2). unfold lease_key, binding_gateway in Hl1, Hl2.
    rewrite <- Hgw, Hl1 in Hl2. injection Hl2 as <-.
    destruct (held_same_pod _ _ _ _ _ _ _ _ _ _ _ Hm1 Hm2) as [Hpod _]. congruence. }
  unfold secured in *. naive_solver.
Qed.

End System.

(** ** Witness: a withdrawn address is given to another Pod *)

Module AddressSample.

Definition meta (ns name uid : string) (generation : Z) (labels : gmap string string) : ObjectMeta :=
  mkObjectMeta ns name uid generation None labels ∅ [] [].

Definition ready_conditions : list Condition :=
  map (fun t => mkCondition t ConditionTrue t "" 1 0) SummaryOrder.

Definition gateway : VPNGateway :=
  mkVPNGateway (meta "vpn" "gw" "gw-uid" 1 ∅)
    (mkVPNGatewaySpec "class" [] [] [] (mkAllowedRoutes (mkRouteNamespaces RouteNamespaceAll None))
       (mkClusterTraffic ClusterTrafficTunnelAll []) DNSModeGateway (mkGatewayPlacement ∅ []))
    (mkVPNGatewayStatus 1 None []
       [mkGatewayAddressEntry GatewayAddressTypeOverlayCIDR "10.0.0.8/29";
        mkGatewayAddressEntry GatewayAddressTypeOverlayAddress "10.0.0.9";
        mkGatewayAddressEntry GatewayAddressTypeUnderlayEndpoint "192.0.2.1:4789";
        mkGatewayAddressEntry GatewayAddressTypeOverlayHealthPort "9808";
        mkGatewayAddressEntry GatewayAddressTypeVNI "7";
        mkGatewayAddressEntry GatewayAddressTypeMTU "1320"] ready_conditions).

Definition parent : GatewayParentReference := mkGatewayParentReference GroupName "VPNGateway" "vpn" "gw".

Definition route : VPNEgressRoute :=
  mkVPNEgressRoute (meta "media" "private" "route-uid" 1 ∅) (mkVPNEgressRouteSpec [parent] [])
    (mkVPNEgressRouteStatus 1 ready_conditions
       [mkRouteParentStatus parent RouteController.RouteControllerName ready_conditions]).

(** Two Pods whose probe sequences start at the same address. *)
Definition pod (name uid : string) : Pod :=
  mkPod (meta "media" name uid 1 {[Enrollment.RouteLabel := "private"]}) "node-a" "Pending" "".

Definition reconciler : VPNWorkloadBindingReconciler := mkVPNWorkloadBindingReconciler 0 0.
Definition pod_namespace (uid : string) : string := "media".
Definition key_a : ObjectKey := mkObjectKey "media" "a".
Definition key_b : ObjectKey := mkObjectKey "media" "b".
Definition binding_a : ObjectKey := mkObjectKey "media" (BindingName "uid-2").
Definition binding_b : ObjectKey := mkObjectKey "media" (BindingName "uid-6").

(** The user deletes the binding and the node agent reports it withdrawn. *)
Definition delete_and_report (b : VPNWorkloadBinding) : VPNWorkloadBinding :=
  with_binding_status
    (mkVPNWorkloadBindingStatus 0 0 (lur_UID (wb_PodRef (wb_Spec b))) (nur_UID (wb_GatewayRef (wb_Spec b)))
       (Some (mkNodeAgentObservation (wb_NodeName (wb_Spec b)) "boot" "instance" 0)) [])
    (mark_deleted 0 b).

Definition w0 : Cluster :=
  mkCluster (<[key_a := pod "a" "uid-2"]> {[key_b := pod "b" "uid-6"]})
    {[mkObjectKey "media" "private" := route]} {[mkObjectKey "vpn" "gw" := gateway]} ∅ ∅ [] 0.
Definition w1 : Cluster := (pod_Reconcile 9 key_a w0).2.
Definition w2 : Cluster := set_bindings (alter delete_and_report binding_a (cl_bindings w1)) w1.
Definition w3 : Cluster := (binding_Reconcile reconciler binding_a w2).2.
(** The request that removes the finalizer is lost. *)
Definition w4 : Cluster := set_faults [None; None; None; Some (FailBefore (EStatus ReasonOther))] w3.
Definition w5 : Cluster := (binding_Reconcile reconciler binding_a w4).2.
Definition w6 : Cluster := (pod_Reconcile 9 key_b w5).2.

Lemma env_refl b : env_binding b b.
Proof. done. Qed.

Lemma delete_and_report_env b : env_binding b (delete_and_report b).
Proof. done. Qed.

Lemma shared_address :
  match cl_bindings w6 !! binding_a, cl_bindings w6 !! binding_b with
  | Some b1, Some b2 =>
      bool_decide (wb_GatewayRef (wb_Spec b1) = wb_GatewayRef (wb_Spec b2)) &&
      String.eqb (wa_Address (wb_Allocation (wb_Spec b1))) (wa_Address (wb_Allocation (wb_Spec b2)))
  | _, _ => false
  end = true.
Proof. vm_compute. reflexivity. Qed.

(** A change of the bindings by others, and a change of the faults to come. *)
Lemma env_alter f key w :
  (forall b, env_binding b (f b)) -> pods_ok pod_namespace w ->
  cluster_step reconciler pod_namespace w (set_bindings (alter f key (cl_bindings w)) w).
Proof.
  intros Hf Hp. apply step_env; [done|done|]. intros key'. cbn [cl_bindings set_bindings].
  destruct (decide (key' = key)) as [->|Hne].
  - rewrite lookup_alter, decide_True by done. destruct (cl_bindings w !! key); constructor. apply Hf.
  - rewrite lookup_alter_ne by done. destruct (cl_bindings w !! key'); constructor. apply env_refl.
Qed.

Lemma env_faults faults w :
  pods_ok pod_namespace w -> cluster_step reconciler pod_namespace w (set_faults faults w).
Proof.
  intros Hp. apply step_env; [done|done|]. intros key. cbn [cl_bindings set_faults].
  destruct (cl_bindings w !! key); constructor. apply env_refl.
Qed.

Lemma initial : cluster_initial pod_namespace w0.
Proof.
  split; [|split; [apply map_Forall_empty|reflexivity]].
  apply map_Forall_insert_2; [reflexivity|]. by apply map_Forall_singleton.
Qed.

(** The Pods of a state, whatever was confirmed. *)
Notation weak_inv := (cluster_inv pod_namespace (fun _ _ => True)).
Lemma weak_step w w' : cluster_step reconciler pod_namespace w w' -> weak_inv w -> weak_inv w'.
Proof. intros Hs. by apply (step_inv reconciler pod_namespace (fun _ _ => True)). Qed.
Lemma weak_pods w : weak_inv w -> pods_ok pod_namespace w.
Proof. intros [[Hp _] _]. exact Hp. Qed.

Notation states := [w6; w5; w4; w3; w2; w1; w0].

Lemma run : cluster_run reconciler pod_namespace states.
Proof.
  assert (weak_inv w0) as I0 by (split; [split; apply initial|apply map_Forall_empty]).
  pose proof (step_pod reconciler pod_namespace 9 key_a w0 : cluster_step _ _ w0 w1) as S1.
  pose proof (weak_step _ _ S1 I0) as I1.
  pose proof (env_alter _ binding_a w1 delete_and_report_env (weak_pods _ I1) : cluster_step _ _ w1 w2) as S2.
  pose proof (step_binding reconciler pod_namespace binding_a w2 : cluster_step _ _ w2 w3) as S3.
  pose proof (weak_step _ _ S3 (weak_step _ _ S2 I1)) as I3.
  pose proof (env_faults [None; None; None; Some (FailBefore (EStatus ReasonOther))] w3 (weak_pods _ I3) : cluster_step _ _ w3 w4) as S4.
  pose proof (step_binding reconciler pod_namespace binding_a w4 : cluster_step _ _ w4 w5) as S5.
  pose proof (step_pod reconciler pod_namespace 9 key_b w5 : cluster_step _ _ w5 w6) as S6.
  exact (run_step _ _ _ _ _ (run_step _ _ _ _ _ (run_step _ _ _ _ _ (run_step _ _ _ _ _ (run_step _ _ _ _ _ (run_step _ _ _ _ _
    (run_initial _ _ _ initial) S1) S2) S3) S4) S5) S6).
Qed.

Lemma addresses_exclusive_witness :
  exists b1 b2, cl_bindings w6 !! binding_a = Some b1 /\ cl_bindings w6 !! binding_b = Some b2 /\
    wa_Address (wb_Allocation (wb_Spec b1)) = wa_Address (wb_Allocation (wb_Spec b2)) /\
    ((deleting b1 /\ confirmed states binding_a b1) \/ (deleting b2 /\ confirmed states binding_b b2)).
Proof.
  pose proof shared_address as H.
  destruct (cl_bindings w6 !! binding_a) as [b1|] eqn:E1 in H; [|done].
  destruct (cl_bindings w6 !! binding_b) as [b2|] eqn:E2 in H; [|done].
  apply andb_true_iff in H as [Hg%bool_decide_eq_true Ha%String.eqb_eq].
  exists b1, b2. refine (conj E1 (conj E2 (conj Ha _))).
  apply (addresses_exclusive reconciler pod_namespace w6 [w5; w4; w3; w2; w1; w0] binding_a binding_b b1 b2); [exact run|exact E1|exact E2| |exact Hg|exact Ha].
  intros Heq. assert (bool_decide (binding_a = binding_b) = false) as Hd by (vm_compute; reflexivity).
  rewrite bool_decide_eq_false in Hd. exact (Hd Heq).
Defined.

End AddressSample.
