(* ===== verification/CniTypes.v ===== *)
(** * CNI data and interfaces (internal/cni/types.go)

    The exact identities a CNI attachment is bound to, their validation, and
    the three interfaces the plugin runs against: the local agent, the
    namespace enforcer and the attachment store. *)

From S2P Require Import Prelude.

Definition AgentAPIVersion : string := "networking.waycloak.io/cni-node/v1".

Definition ErrBindingNotReady : string := "workload binding is not ready".
Definition ErrPodNotFound : string := "exact Kubernetes Pod is absent".

Record PodIdentity := mkPodIdentity {
  pi_Namespace : string;
  pi_Name : string;
  pi_UID : string;
  pi_ContainerID : string;
  pi_IfName : string;
  pi_NetNS : string
}.

#[global] Instance PodIdentity_eq_dec : EqDecision PodIdentity.
Proof. solve_decision. Defined.

Definition PodIdentity_Validate (p : PodIdentity) : option error :=
  if str_empty (pi_Namespace p) || str_empty (pi_Name p) || str_empty (pi_UID p)
  then Some (ENew "exact Pod namespace, name, and UID are required")
  else if str_empty (pi_ContainerID p) || str_empty (pi_IfName p) || str_empty (pi_NetNS p)
  then Some (ENew "exact sandbox container, interface, and network namespace identities are required")
  else None.

Record Resolution := mkResolution {
  res_PodUID : string;
  res_Enrolled : bool;
  res_Terminating : bool
}.

Record Binding := mkBinding {
  b_UID : string;
  b_Generation : Z;
  b_PodUID : string;
  b_GatewayUID : string
}.

#[global] Instance Binding_eq_dec : EqDecision Binding.
Proof. solve_decision. Defined.

Definition Binding_Validate (b : Binding) (expectedPodUID : string) : option error :=
  if str_empty (b_UID b) || (b_Generation b <? 1) || str_empty (b_PodUID b) || str_empty (b_GatewayUID b)
  then Some (ENew "binding UID, generation, Pod UID, and gateway UID are required")
  else if negb (String.eqb (b_PodUID b) expectedPodUID)
  then Some (ENew "binding Pod UID does not match exact CNI Pod UID")
  else None.

(** A [Phase] is a string; a decoded record can hold any. *)
Definition Phase := string.
Definition PhaseLockedDown : Phase := "LockedDown".
Definition PhaseReady : Phase := "Ready".

Record Attachment := mkAttachment {
  a_Network : string;
  a_Pod : PodIdentity;
  a_NamespaceIdentity : string;
  a_Phase : Phase;
  a_BindingUID : string;
  a_BindingGeneration : Z;
  a_GatewayUID : string;
  a_UpdatedAt : time
}.

#[global] Instance Attachment_eq_dec : EqDecision Attachment.
Proof. solve_decision. Defined.

Record Key := mkKey {
  k_Network : string;
  k_ContainerID : string;
  k_IfName : string
}.

#[global] Instance Key_eq_dec : EqDecision Key.
Proof. solve_decision. Defined.
#[global] Instance Key_countable : Countable Key.
Proof.
  apply (inj_countable' (fun k => (k_Network k, k_ContainerID k, k_IfName k))
           (fun p => mkKey p.1.1 p.1.2 p.2)). by intros [].
Defined.

Definition Attachment_Key (a : Attachment) : Key :=
  mkKey (a_Network a) (pi_ContainerID (a_Pod a)) (pi_IfName (a_Pod a)).

Definition Attachment_Validate (a : Attachment) : option error :=
  if str_empty (a_Network a) then Some (ENew "CNI network name is required")
  else match PodIdentity_Validate (a_Pod a) with
       | Some err => Some err
       | None =>
           if str_empty (a_NamespaceIdentity a) then Some (ENew "network namespace identity is required")
           else if String.eqb (a_Phase a) PhaseLockedDown then None
           else if String.eqb (a_Phase a) PhaseReady then
             if str_empty (a_BindingUID a) || (a_BindingGeneration a <? 1) || str_empty (a_GatewayUID a)
             then Some (ENew "ready attachment requires exact current binding identity")
             else None
           else Some (ENew "unknown attachment phase")
       end.

Definition Key_Validate (k : Key) : option error :=
  if str_empty (k_Network k) || str_empty (k_ContainerID k) || str_empty (k_IfName k)
  then Some (ENew "network, container ID, and interface name are required")
  else None.

Record Request := mkRequest { rq_Network : string; rq_Pod : PodIdentity }.

Definition Request_Key (r : Request) : Key :=
  mkKey (rq_Network r) (pi_ContainerID (rq_Pod r)) (pi_IfName (rq_Pod r)).

Definition Request_Validate (r : Request) : option error :=
  if str_empty (rq_Network r) then Some (ENew "CNI network name is required")
  else PodIdentity_Validate (rq_Pod r).

(** ** The interfaces *)

Class Agent (W : Type) := {
  agent_Resolve : PodIdentity -> IO W Resolution;
  agent_Binding : PodIdentity -> IO W Binding;
  agent_Prepare : PodIdentity -> Binding -> IO W unit;
  agent_Check : PodIdentity -> Binding -> IO W unit;
  agent_Withdraw : PodIdentity -> IO W unit;
  agent_Status : IO W unit
}.

Class Enforcer (W : Type) := {
  enf_Identity : string -> IO W string;
  enf_InstallLockdown : string -> string -> IO W unit;
  enf_Cleanup : string -> string -> IO W unit
}.

Class Store (W : Type) := {
  store_Load : Key -> IO W Attachment;
  store_Save : Attachment -> IO W unit;
  store_Delete : Key -> IO W unit;
  store_List : string -> IO W (list Attachment)
}.

(** ** Time

    [Now] reads the clock.  [Select deadline timer] is the select between a
    context's deadline and a timer: [true] when the context is done. *)
Class Timer (W : Type) := {
  Now : W -> time;
  Select : time -> time -> IO W bool
}.

(** ** Facts about identities *)

Lemma Request_valid_attachment r ident t :
  Request_Validate r = None -> str_empty ident = false ->
  Attachment_Validate (mkAttachment (rq_Network r) (rq_Pod r) ident PhaseLockedDown "" 0 "" t) = None.
Proof.
  unfold Request_Validate, Attachment_Validate. cbn [a_Network a_Pod a_NamespaceIdentity a_Phase].
  destruct (str_empty (rq_Network r)); [done|]. intros -> ->. done.
Qed.

Lemma Binding_Validate_none b uid :
  Binding_Validate b uid = None ->
  b_UID b <> "" /\ 1 <= b_Generation b /\ b_PodUID b = uid /\ b_GatewayUID b <> "".
Proof.
  unfold Binding_Validate, str_empty.
  destruct (String.eqb_spec (b_UID b) ""); [done|]. destruct (Z.ltb_spec (b_Generation b) 1); [done|].
  destruct (String.eqb_spec (b_PodUID b) ""); [done|]. destruct (String.eqb_spec (b_GatewayUID b) ""); [done|].
  cbn. destruct (String.eqb_spec (b_PodUID b) uid); [|done]. auto.
Qed.
