(* ===== verification/CniPlugin.v ===== *)
(** * The chained CNI plugin (internal/cni/plugin.go)

    [Add], [Check], [Delete], [GC] and the bounded wait [retryValue], over any
    implementation of the agent, enforcer and store interfaces.

    The theorems are of three kinds: what the sequence of effects of a command
    looks like (over a world that records every call), what a command
    guarantees about the deny policy (against [DenyContract]), and that the
    bounded wait ends. *)

From S2P Require Import Prelude CniTypes.

Record Plugin := mkPlugin {
  p_ResolveTimeout : duration;
  p_BindingTimeout : duration;
  p_RetryInterval : duration
}.

Definition resolveTimeout (p : Plugin) : duration :=
  if 0 <? p_ResolveTimeout p then p_ResolveTimeout p else 2 * Second.
Definition bindingTimeout (p : Plugin) : duration :=
  if 0 <? p_BindingTimeout p then p_BindingTimeout p else 10 * Second.
Definition retryInterval (p : Plugin) : duration :=
  if 0 <? p_RetryInterval p then p_RetryInterval p else 100 * Millisecond.

Definition errorWithContext (message : string) (err : option error) : option error :=
  match err with None => None | Some e => Some (Errorf message e) end.

Definition sameAttachment (attachment : Attachment) (request : Request) (namespaceIdentity : string) :
    option error :=
  if negb (String.eqb (a_Network attachment) (rq_Network request)) ||
     negb (bool_decide (a_Pod attachment = rq_Pod request))
  then Some (ENew "stored attachment does not match exact CNI attachment identity")
  else if negb (String.eqb (a_NamespaceIdentity attachment) namespaceIdentity)
  then Some (ENew "network namespace identity changed for the same CNI attachment")
  else None.

(** The binding identity an attachment record holds. *)
Definition recorded_binding (attachment : Attachment) (podUID : string) : Binding :=
  mkBinding (a_BindingUID attachment) (a_BindingGeneration attachment) podUID (a_GatewayUID attachment).

(** ** The bounded wait *)

Section Retry.
Context {W : Type} `{Timer W} {T : Type} (expired : string).

(** One iteration of the loop per unit of fuel; [None] is fuel running out,
    which [retry_enough] excludes.  [expired] is the text that wraps the last
    error. *)
Fixpoint retry_loop (fuel : nat) (deadline : time) (interval : duration) (operation : IO W T) (w : W) :
    option (res T * W) :=
  match fuel with
  | O => None
  | S fuel' =>
      match operation w with
      | (Ok value, w1) => Some (Ok value, w1)
      | (Fail err, w1) =>
          match Select deadline (Now w1 + interval) w1 with
          | (Ok true, w2) => Some (Fail (Errorf expired err), w2)
          | (Ok false, w2) => retry_loop fuel' deadline interval operation w2
          | (Fail e, w2) => Some (Fail e, w2)
          end
      end
  end.

(** Every iteration but the last two advances the clock by the interval. *)
Definition retry_fuel (timeout interval : duration) : nat := Z.to_nat (timeout / interval) + 2.

Definition bounded_wait (timeout interval : duration) (operation : IO W T) : IO W T := fun w =>
  match retry_loop (retry_fuel timeout interval) (Now w + timeout) interval operation w with
  | Some result => result
  | None => (Fail (ENew "unreachable: the wait is bounded"), w)
  end.

End Retry.

Definition retryValue {W} `{Timer W} {T} : duration -> duration -> IO W T -> IO W T := bounded_wait "bounded wait expired".

(** ** The commands *)

Section Commands.
Context {W : Type} `{Agent W} `{Enforcer W} `{Store W} `{Timer W}.
Variable p : Plugin.

Definition check_error (err : option error) : IO W unit := io_lift (of_error err).

Definition now_io : IO W time := fun w => (Ok (Now w), w).

Fixpoint prior_enrollment (attachments : list Attachment) (request : Request) : bool :=
  match attachments with
  | [] => false
  | attachment :: rest =>
      if String.eqb (pi_Namespace (a_Pod attachment)) (pi_Namespace (rq_Pod request)) &&
         String.eqb (pi_Name (a_Pod attachment)) (pi_Name (rq_Pod request)) &&
         String.eqb (pi_UID (a_Pod attachment)) (pi_UID (rq_Pod request))
      then true
      else prior_enrollment rest request
  end.

Definition hasPriorEnrollment (request : Request) : IO W bool :=
  attachments ← store_List (rq_Network request);
  mret (prior_enrollment attachments request).

(** The part of ADD that decides whether there is anything to protect:
    [true] goes on to the deny policy, [false] is a successful return. *)
Definition Add_decide (request : Request) (namespaceIdentity : string) : IO W bool :=
  loaded ← io_try (store_Load (Request_Key request));
  match loaded with
  | Ok existing =>
      check_error (sameAttachment existing request namespaceIdentity) ;;
      if String.eqb (a_Phase existing) PhaseReady then
        checked ← io_try (agent_Check (rq_Pod request)
                            (recorded_binding existing (pi_UID (rq_Pod request))));
        mret (match checked with Ok _ => false | Fail _ => true end)
      else mret true
  | Fail loadErr =>
      if negb (errors_is loadErr ErrNotExist) then io_fail (Errorf "load prior attachment state" loadErr)
      else
        sticky ← io_wrap "find prior UID-bound enrollment" (hasPriorEnrollment request);
        if negb sticky then
          resolution ← io_wrap "resolve exact Pod enrollment through local agent"
            (retryValue (resolveTimeout p) (retryInterval p) (agent_Resolve (rq_Pod request)));
          if negb (String.eqb (res_PodUID resolution) (pi_UID (rq_Pod request)))
          then io_fail (ENew "local agent resolved Pod UID, expected")
          else mret (res_Enrolled resolution)
        else mret true
  end.

(** The part of ADD after the decision: deny first, then the record, then the
    protected path, then the ready record. *)
Definition Add_protect (request : Request) (namespaceIdentity : string) : IO W unit :=
  let pod := rq_Pod request in
  io_wrap "install deny-first policy" (enf_InstallLockdown (pi_NetNS pod) (pi_UID pod)) ;;
  t0 ← now_io;
  let attachment := mkAttachment (rq_Network request) pod namespaceIdentity PhaseLockedDown "" 0 "" t0 in
  saved ← io_try (store_Save attachment);
  match saved with
  | Fail err =>
      rollback ← io_try (enf_Cleanup (pi_NetNS pod) (pi_UID pod));
      check_error (errors_Join
        [Some (Errorf "record deny-first attachment state" err);
         errorWithContext "roll back unrecorded deny-first state"
           (match rollback with Ok _ => None | Fail e => Some e end)])
  | Ok _ =>
      binding ← io_wrap "wait for UID-bound allocation with deny retained"
        (retryValue (bindingTimeout p) (retryInterval p) (agent_Binding pod));
      io_wrap "validate UID-bound protected-path configuration with deny retained"
        (check_error (Binding_Validate binding (pi_UID pod))) ;;
      t1 ← now_io;
      let allocated := mkAttachment (rq_Network request) pod namespaceIdentity PhaseLockedDown
        (b_UID binding) (b_Generation binding) (b_GatewayUID binding) t1 in
      io_wrap "record allocated attachment state" (store_Save allocated) ;;
      io_wrap "ask local agent to program and verify protected path after deny"
        (agent_Prepare pod binding) ;;
      t2 ← now_io;
      io_wrap "record ready attachment state"
        (store_Save (mkAttachment (rq_Network request) pod namespaceIdentity PhaseReady
           (b_UID binding) (b_Generation binding) (b_GatewayUID binding) t2))
  end.

Definition Add (request : Request) : IO W unit :=
  check_error (Request_Validate request) ;;
  namespaceIdentity ← io_wrap "resolve exact network namespace identity"
    (enf_Identity (pi_NetNS (rq_Pod request)));
  protect ← Add_decide request namespaceIdentity;
  if (protect : bool) then Add_protect request namespaceIdentity else mret tt.

Definition Check (request : Request) : IO W unit :=
  check_error (Request_Validate request) ;;
  attachment ← io_wrap "load attachment state for CHECK" (store_Load (Request_Key request));
  namespaceIdentity ← io_wrap "resolve network namespace identity for CHECK"
    (enf_Identity (pi_NetNS (rq_Pod request)));
  check_error (sameAttachment attachment request namespaceIdentity) ;;
  if negb (String.eqb (a_Phase attachment) PhaseReady)
  then io_fail (ENew "attachment has not completed deny-first protected-path setup")
  else io_wrap "local agent cannot confirm live attachment"
         (agent_Check (rq_Pod request) (recorded_binding attachment (pi_UID (rq_Pod request)))).

(** DEL after the Pod's absence or termination is established. *)
Definition Delete_detach (key : Key) (netns : string) (attachment : Attachment) : IO W unit :=
  let path := if str_empty netns then pi_NetNS (a_Pod attachment) else netns in
  identity ← io_try (enf_Identity path);
  match identity with
  | Fail identityErr =>
      if negb (errors_is identityErr ErrNotExist)
      then io_fail (Errorf "observe exact network namespace for DEL" identityErr)
      else
        io_wrap "confirm exact attachment withdrawal" (agent_Withdraw (a_Pod attachment)) ;;
        io_wrap "delete attachment state" (store_Delete key)
  | Ok observed =>
      io_wrap "confirm exact attachment withdrawal" (agent_Withdraw (a_Pod attachment)) ;;
      (if String.eqb observed (a_NamespaceIdentity attachment)
       then io_wrap "remove exact Waycloak network state" (enf_Cleanup path (pi_UID (a_Pod attachment)))
       else mret tt) ;;
      io_wrap "delete attachment state" (store_Delete key)
  end.

Definition Delete (key : Key) (netns : string) : IO W unit :=
  loaded ← io_try (store_Load key);
  match loaded with
  | Fail err => if errors_is err ErrNotExist then mret tt
                else io_fail (Errorf "load attachment state for DEL" err)
  | Ok attachment =>
      resolved ← io_try (agent_Resolve (a_Pod attachment));
      match resolved with
      | Fail resolveErr =>
          if errors_is resolveErr ErrPodNotFound then Delete_detach key netns attachment
          else io_fail (Errorf "resolve exact Pod for DEL with durable state retained" resolveErr)
      | Ok resolution =>
          if negb (String.eqb (res_PodUID resolution) (pi_UID (a_Pod attachment))) ||
             negb (res_Terminating resolution)
          then mret tt
          else Delete_detach key netns attachment
      end
  end.

(** One attachment of GC that is not in the runtime's valid set. *)
Definition GC_one (attachment : Attachment) : IO W unit :=
  identity ← io_try (enf_Identity (pi_NetNS (a_Pod attachment)));
  (match identity with
   | Ok observed => if String.eqb observed (a_NamespaceIdentity attachment)
                    then enf_Cleanup (pi_NetNS (a_Pod attachment)) (pi_UID (a_Pod attachment))
                    else mret tt
   | Fail _ => mret tt
   end) ;;
  store_Delete (Attachment_Key attachment).

Definition GC (network : string) (valid : gset Key) : IO W unit :=
  attachments ← store_List network;
  errs ← io_collect (fun attachment =>
           if decide (Attachment_Key attachment ∈ valid) then mret tt else GC_one attachment) attachments;
  check_error (errors_Join (map Some errs)).

Definition Status : IO W unit := agent_Status.

End Commands.

Lemma wp_now {W : Type} `{Timer W} (Q : res time -> W -> Prop) w : Q (Ok (Now w)) w -> wp now_io Q w.
Proof. done. Qed.

Lemma wp_check {W : Type} (e : option error) (Q : res unit -> W -> Prop) w :
  Q (of_error e) w -> wp (check_error e) Q w.
Proof. done. Qed.

(** ** The bounded wait ends *)

(** How a select between a deadline and a timer behaves: it returns when one
    of the two is due, and a deadline that is already over wins against a
    timer that is not. *)
Class TimerLaws (W : Type) `{Timer W} := {
  select_returns d t (w : W) : exists b w', Select d t w = (Ok b, w') /\ Now w <= Now w' /\
    (if b then d <= Now w' else t <= Now w');
  select_expired d t (w : W) : d <= Now w -> Now w < t -> (Select d t w).1 = Ok true
}.

Section RetryFacts.
Context {W : Type} `{TimerLaws W} {T : Type}.
Context (expired : string) (operation : IO W T) (interval : duration).
Context (op_monotone : forall w, Now w <= Now (operation w).2) (interval_pos : 0 < interval).

(** What a finished wait reports. *)
Definition retry_result (deadline : time) (r : res T) (w' : W) : Prop :=
  match r with
  | Ok value => exists w1, operation w1 = (Ok value, w')
  | Fail e => deadline <= Now w' /\
      exists err w1 w2, operation w1 = (Fail err, w2) /\ Select deadline (Now w2 + interval) w2 = (Ok true, w') /\
        e = Errorf expired err
  end.

Lemma retry_enough m deadline w :
  deadline <= Now w + Z.of_nat m * interval ->
  exists r w', retry_loop expired (S m) deadline interval operation w = Some (r, w') /\ retry_result deadline r w'.
Proof.
  revert w. induction m as [|m IH]; intros w Hdl; cbn [retry_loop].
  all: pose proof (op_monotone w) as Hmono; destruct (operation w) as [[v|err] w1] eqn:Eop;
    [exists (Ok v), w1; split; [done|by exists w]|].
  all: destruct (select_returns deadline (Now w1 + interval) w1) as (b & w2 & Es & Hm & Hb);
    cbn in Hmono; rewrite Es.
  - assert (b = true) as ->.
    { pose proof (select_expired deadline (Now w1 + interval) w1) as Hex. rewrite Es in Hex.
      cbn in Hex. assert (Ok b = Ok true) as Hb'; [apply Hex; lia|by injection Hb']. }
    eexists _, w2. split; [done|]. split; [done|]. by exists err, w, w1.
  - destruct b.
    + eexists _, w2. split; [done|]. split; [done|]. by exists err, w, w1.
    + apply IH. lia.
Qed.

(** C33: The bounded wait is bounded.  With an interval greater than zero and a
    clock that does not run backwards, [bounded_wait], and with it [retryValue],
    returns after at most
    timeout/interval + 2 attempts: either with the value of an attempt that
    succeeded, or, once the deadline has passed, with the last attempt's
    error wrapped. *)
Theorem retryValue_bounded timeout w :
  0 <= timeout ->
  exists r w', retry_loop expired (retry_fuel timeout interval) (Now w + timeout) interval operation w = Some (r, w') /\
    bounded_wait expired timeout interval operation w = (r, w') /\ retry_result (Now w + timeout) r w'.
Proof.
  intros Ht. destruct (retry_enough (S (Z.to_nat (timeout / interval))) (Now w + timeout) w)
    as (r & w' & Hrun & Hr).
  { pose proof (Z.div_mod timeout interval). pose proof (Z.mod_pos_bound timeout interval).
    pose proof (Z.div_pos timeout interval). nia. }
  exists r, w'. unfold bounded_wait, retry_fuel. rewrite <- !plus_n_Sm, Nat.add_0_r in *.
  rewrite Hrun. auto.
Qed.

End RetryFacts.

(** What every attempt and every pause preserves, the wait preserves; what
    every successful attempt establishes, a successful wait has. *)
Lemma wp_retry {W : Type} `{Timer W} {T : Type} (I : W -> Prop) (Q : T -> W -> Prop)
    expired timeout interval (operation : IO W T) w :
  (forall w, I w -> wp operation (fun r w' => I w' /\ forall v, r = Ok v -> Q v w') w) ->
  (forall d t w, I w -> I (Select d t w).2) ->
  I w ->
  wp (bounded_wait expired timeout interval operation) (fun r w' => I w' /\ forall v, r = Ok v -> Q v w') w.
Proof.
  intros Hop Hsel HI. unfold wp, bounded_wait.
  assert (forall fuel deadline w, I w -> forall result,
    retry_loop expired fuel deadline interval operation w = Some result ->
    I result.2 /\ forall v, result.1 = Ok v -> Q v result.2) as Hloop.
  { clear w HI. induction fuel as [|fuel IH]; intros deadline w HI result; cbn; [done|].
    specialize (Hop w HI). unfold wp in Hop. destruct (operation w) as [[v|err] w1]; cbn in Hop.
    - intros [= <-]. done.
    - destruct Hop as [HI1 _]. specialize (Hsel deadline (Now w1 + interval) w1 HI1).
      destruct (Select _ _ w1) as [[[|]|e] w2]; cbn in Hsel.
      + intros [= <-]. by split.
      + by apply IH.
      + intros [= <-]. by split. }
  destruct (retry_loop _ _ _ _ _ _) as [result|] eqn:E; [exact (Hloop _ _ _ HI _ E)|]. by split.
Qed.

(** ** What the commands rely on from the enforcer and the agent *)

(** A computation that keeps the invariant and never opens a denied namespace. *)
Definition keeps_denied {W A} (good : W -> Prop) (denied : string -> W -> Prop) (m : IO W A) : Prop :=
  forall w, good w -> wp m (fun _ w' => good w' /\ forall n, denied n w -> denied n w') w.

(** [denied netns w]: traffic of the network namespace at [netns] is confined
    by the deny policy in [w].  Installing the lockdown establishes it, a
    successful agent check has verified it, and no operation of the three
    interfaces takes it away: the enforcer's cleanup and the agent's
    withdrawal remove the protected path and keep the deny policy.  [good] is
    the invariant of the world the implementations rely on. *)
Class DenyContract (W : Type) `{Agent W} `{Enforcer W} `{Store W} `{Timer W} := {
  good : W -> Prop;
  denied : string -> W -> Prop;
  lockdown_denies netns uid w : good w ->
    wp (enf_InstallLockdown netns uid) (fun r w' => r = Ok tt -> denied netns w') w;
  check_verifies pod b w : good w ->
    wp (agent_Check pod b) (fun r w' => r = Ok tt -> denied (pi_NetNS pod) w') w;
  identity_keeps path : keeps_denied good denied (enf_Identity path);
  lockdown_keeps netns uid : keeps_denied good denied (enf_InstallLockdown netns uid);
  cleanup_keeps netns uid : keeps_denied good denied (enf_Cleanup netns uid);
  resolve_keeps pod : keeps_denied good denied (agent_Resolve pod);
  binding_keeps pod : keeps_denied good denied (agent_Binding pod);
  prepare_keeps pod b : keeps_denied good denied (agent_Prepare pod b);
  check_keeps pod b : keeps_denied good denied (agent_Check pod b);
  withdraw_keeps pod : keeps_denied good denied (agent_Withdraw pod);
  load_keeps key : keeps_denied good denied (store_Load key);
  save_keeps a : keeps_denied good denied (store_Save a);
  delete_keeps key : keeps_denied good denied (store_Delete key);
  list_keeps network : keeps_denied good denied (store_List network);
  select_keeps d t : keeps_denied good denied (Select d t)
}.

(** *** Computations that keep the deny policy compose *)

Section Keeps.
Context {W : Type} (good0 : W -> Prop) (denied0 : string -> W -> Prop).
Notation keep m := (keeps_denied good0 denied0 m).

Lemma denied_bind {A B} (m : IO W A) (k : A -> IO W B) : keep m -> (forall a, keep (k a)) -> keep (m ≫= k).
Proof.
  intros Hm Hk w Hg. wp_step. eapply wp_mono; [by apply Hm|]. intros [a|e] w' [Hg' Hd]; cbn [after]; [|by split].
  eapply wp_mono; [by apply Hk|]. intros r w'' [Hg'' Hd']. split; auto.
Qed.
Lemma keeps_pure {A} (m : IO W A) : (forall w, (m w).2 = w) -> keep m.
Proof. intros Hm w Hg. unfold wp. rewrite Hm. auto. Qed.
Lemma denied_ret {A} (a : A) : keep (mret a).
Proof. by apply keeps_pure. Qed.
Lemma denied_fail {A} e : keep (io_fail (A := A) e).
Proof. by apply keeps_pure. Qed.
Lemma denied_lift {A} (r : res A) : keep (io_lift r).
Proof. by apply keeps_pure. Qed.
Lemma keeps_check e : keep (check_error e).
Proof. by apply keeps_pure. Qed.
Lemma keeps_now `{Timer W} : keep now_io.
Proof. by apply keeps_pure. Qed.
Lemma denied_try {A} (m : IO W A) : keep m -> keep (io_try m).
Proof. intros Hm w Hg. wp_step. by apply Hm. Qed.
Lemma denied_ignore {A} (m : IO W A) : keep m -> keep (io_ignore m).
Proof. intros Hm w Hg. wp_step. by apply Hm. Qed.
Lemma denied_wrap {A} msg (m : IO W A) : keep m -> keep (io_wrap msg m).
Proof. intros Hm w Hg. wp_step. eapply wp_mono; [by apply Hm|]. by intros [|]. Qed.
Lemma keeps_retry {A} `{Timer W} timeout interval (m : IO W A) :
  (forall d t, keep (Select d t)) -> keep m -> keep (retryValue timeout interval m).
Proof.
  intros Hsel Hm w Hg.
  eapply wp_mono; [apply (wp_retry (fun w' => good0 w' /\ forall n, denied0 n w -> denied0 n w') (fun _ _ => True))|].
  - intros w1 [Hg1 Hd1]. eapply wp_mono; [by apply Hm|]. cbn beta. intros r w2 [Hg2 Hd2]. split; [split|]; auto.
  - intros d t w1 [Hg1 Hd1]. destruct (Hsel d t w1 Hg1) as [Hg2 Hd2]. split; auto.
  - by split.
  - by intros r w' [? _].
Qed.
Lemma keeps_collect {A} (f : A -> IO W unit) xs : (forall x, keep (f x)) -> keep (io_collect f xs).
Proof.
  intros Hf. induction xs as [|x xs IH]; cbn; [apply denied_ret|].
  apply denied_bind; [by apply denied_try|]. intros r. apply denied_bind; [done|]. intros errs. apply denied_ret.
Qed.
Lemma keeps_each {A} (f : A -> IO W unit) xs : (forall x, keep (f x)) -> keep (io_each f xs).
Proof. intros Hf. induction xs as [|x xs IH]; cbn; [apply denied_ret|]. by apply denied_bind. Qed.
End Keeps.

(** Follow the computation: binds, tests and matches, down to the operations,
    which [ops] discharges. *)
Ltac keeps_walk ops :=
  repeat match goal with
  | |- forall _, _ => intro
  | |- keeps_denied _ _ (let _ := _ in _) => cbv zeta
  | |- keeps_denied _ _ (mbind _ _) => apply denied_bind
  | |- keeps_denied _ _ (io_try _) => apply denied_try
  | |- keeps_denied _ _ (io_ignore _) => apply denied_ignore
  | |- keeps_denied _ _ (io_wrap _ _) => apply denied_wrap
  | |- keeps_denied _ _ (retryValue _ _ _) => apply keeps_retry
  | |- keeps_denied _ _ (io_collect _ _) => apply keeps_collect
  | |- keeps_denied _ _ (io_each _ _) => apply keeps_each
  | |- keeps_denied _ _ (if ?b then _ else _) => destruct b
  | |- keeps_denied _ _ (match ?r with _ => _ end) => destruct r
  | |- keeps_denied _ _ _ => first [apply denied_ret | apply denied_fail | apply denied_lift | apply keeps_check
                                   | apply keeps_now | assumption | progress ops]
  end.

Section Contract.
Context {W : Type} `{DenyContract W}.
Variable p : Plugin.

Notation ckeeps := (keeps_denied good denied).

Create HintDb denydb.
#[local] Hint Resolve identity_keeps lockdown_keeps cleanup_keeps resolve_keeps binding_keeps prepare_keeps
  check_keeps withdraw_keeps load_keeps save_keeps delete_keeps list_keeps select_keeps : denydb.
Ltac contract_walk := keeps_walk ltac:(eauto with denydb).

Lemma Add_protect_keeps request ident : ckeeps (Add_protect p request ident).
Proof. unfold Add_protect. contract_walk. Qed.

Lemma Add_decide_keeps request ident : ckeeps (Add_decide p request ident).
Proof. unfold Add_decide, hasPriorEnrollment. contract_walk. Qed.

Lemma Delete_detach_keeps key netns attachment : ckeeps (Delete_detach key netns attachment).
Proof. unfold Delete_detach. contract_walk. Qed.

(** No CNI command ever opens a namespace.  Whatever its outcome, ADD,
    CHECK, DEL and GC leave every namespace denied that was denied before,
    with cleanup, rollback and withdrawal included. *)
Lemma commands_keep_deny :
  (forall request, ckeeps (Add p request)) /\ (forall request, ckeeps (Check request)) /\
  (forall key netns, ckeeps (Delete key netns)) /\ (forall network valid, ckeeps (GC network valid)).
Proof.
  split_and!.
  - intros request. unfold Add. contract_walk; [apply Add_decide_keeps|apply Add_protect_keeps].
  - intros request. unfold Check. contract_walk.
  - intros key netns. unfold Delete. contract_walk; apply Delete_detach_keeps.
  - intros network valid. unfold GC, GC_one. contract_walk.
Qed.

(** What the reads of ADD keep of the world. *)
Record reads_keep (I : W -> Prop) : Prop := {
  rk_identity path : keeps I (enf_Identity path);
  rk_load key : keeps I (store_Load key);
  rk_list network : keeps I (store_List network);
  rk_resolve pod : keeps I (agent_Resolve pod);
  rk_select d t : keeps I (Select d t)
}.

(** The agent answered for this exact Pod that it is not enrolled, and the
    store held neither a record of the attachment nor one of the Pod's UID. *)
Definition unenrolled (I : W -> Prop) (request : Request) : Prop :=
  (exists err, answered I (store_Load (Request_Key request)) (Fail err) /\ errors_is err ErrNotExist = true) /\
  (exists l, answered I (store_List (rq_Network request)) (Ok l) /\ prior_enrollment l request = false) /\
  (exists resolution, answered I (agent_Resolve (rq_Pod request)) (Ok resolution) /\
     res_PodUID resolution = pi_UID (rq_Pod request) /\ res_Enrolled resolution = false).

Lemma Add_decide_false I request ident w :
  reads_keep I -> good w -> I w ->
  wp (Add_decide p request ident)
    (fun r w' => r = Ok false -> denied (pi_NetNS (rq_Pod request)) w' \/ unenrolled I request) w.
Proof.
  intros Hk Hg Hw. unfold Add_decide. do 2 wp_step. wp_run loaded w1 Eload.
  destruct (wp_elim _ _ _ _ _ (load_keeps _ w Hg) Eload) as [Hg1 _]. destruct loaded as [existing|loadErr]; cbn beta iota.
  - wp_step. unfold check_error. wp_step. destruct (of_error _); cbn [after]; [|done].
    destruct (String.eqb _ PhaseReady); [|by wp_step]. do 2 wp_step.
    eapply wp_mono; [by apply check_verifies|]. intros [[]|e] w2 Hv; wp_step; [|done].
    intros _. left. by apply Hv.
  - destruct (errors_is loadErr ErrNotExist) eqn:Ene; cbn [negb]; [|by wp_step].
    pose proof (rk_load _ Hk (Request_Key request) w Hw) as Hw1. rewrite Eload in Hw1. cbn [snd] in Hw1.
    do 2 wp_step. unfold hasPriorEnrollment. wp_step. apply (wp_asked I); [apply (rk_list _ Hk)|done|]. intros l w2 Hw2 Hl.
    destruct l as [l|e]; cbn [after]; [|done]. wp_step.
    destruct (prior_enrollment l request) eqn:Ep; cbn [negb]; [by wp_step|]. do 2 wp_step.
    eapply wp_mono; [apply (wp_retry I (fun v _ => answered I (agent_Resolve (rq_Pod request)) (Ok v)))|].
    + intros wa Ha. apply (wp_asked I); [apply (rk_resolve _ Hk)|done|]. intros r wb Hb Hr. split; [done|]. by intros v ->.
    + intros d t wa Ha. exact (rk_select _ Hk d t wa Ha).
    + done.
    + intros [resolution|e] w3 [_ Hres]; cbn [after]; [|done]. specialize (Hres resolution eq_refl).
      destruct (String.eqb_spec (res_PodUID resolution) (pi_UID (rq_Pod request))) as [Hu|]; cbn [negb];
        [|by wp_step].
      wp_step. intros [= Hen]. right. split_and!; [|by exists l|by exists resolution].
      exists loadErr. split; [by exists w, w1|done].
Qed.

Lemma Add_protect_denies request ident w :
  good w ->
  wp (Add_protect p request ident)
    (fun r w' => denied (pi_NetNS (rq_Pod request)) w' \/ exists err w1,
       enf_InstallLockdown (pi_NetNS (rq_Pod request)) (pi_UID (rq_Pod request)) w = (Fail err, w1) /\
       r = Fail (Errorf "install deny-first policy" err)) w.
Proof.
  intros Hg. unfold Add_protect. do 2 wp_step. wp_run r w1 El.
  destruct (wp_elim _ _ _ _ _ (lockdown_keeps _ _ w Hg) El) as [Hg1 _].
  pose proof (wp_elim _ _ _ _ _ (lockdown_denies _ _ w Hg) El) as Hd.
  destruct r as [[]|e]; cbn [after]; [|right; by exists e, w1].
  match goal with |- wp ?m _ _ => assert (ckeeps m) as Hk by contract_walk end.
  eapply wp_mono; [by apply Hk|]. intros r w' [_ Hkeep]. left. by apply Hkeep, Hd.
Qed.

Lemma Add_outcome I request w :
  reads_keep I -> good w -> I w ->
  wp (Add p request)
    (fun r w' => good w' /\ (r = Ok tt -> denied (pi_NetNS (rq_Pod request)) w' \/ unenrolled I request)) w.
Proof.
  intros Hk Hg Hw. unfold Add. wp_step. unfold check_error. wp_step. destruct (of_error _); cbn [after]; [|done].
  do 2 wp_step. wp_run r w1 Ei. destruct (wp_elim _ _ _ _ _ (identity_keeps _ w Hg) Ei) as [Hg1 _].
  pose proof (rk_identity _ Hk (pi_NetNS (rq_Pod request)) w Hw) as Hw1. rewrite Ei in Hw1. cbn [snd] in Hw1.
  destruct r as [ident|e]; cbn [after]; [|done].
  wp_step. eapply wp_mono; [apply wp_and; [by apply (Add_decide_false I)|by apply (Add_decide_keeps request ident)]|].
  intros [[|]|e] w2 [Hdec [Hg2 _]]; cbn [after]; [|wp_step; auto|done].
  eapply wp_mono; [apply wp_and; [by apply Add_protect_denies|by apply (Add_protect_keeps request ident)]|].
  intros r w3 [[Hd|(err & wx & _ & ->)] [Hg3 _]]; [auto|done].
Qed.

End Contract.

(** ** A clock to wait on *)

Module RetrySample.

(** The world is the time; waiting moves it. *)
#[local] Instance clock : Timer Z := {
  Now w := w;
  Select d t := fun w => (Ok (d <=? t), Z.max w (Z.min d t))
}.

#[local] Instance clock_laws : TimerLaws Z.
Proof.
  split.
  - intros d t w. exists (d <=? t), (Z.max w (Z.min d t)). cbn. destruct (Z.leb_spec d t); (split; [done|lia]).
  - intros d t w. cbn. destruct (Z.leb_spec d t); [done|lia].
Qed.

(** An operation that succeeds from time 250 on. *)
Definition late : IO Z Z := fun w => (if 250 <=? w then Ok w else Fail (ENew "not yet"), w).

Lemma retryValue_bounded_witness :
  exists r w', retry_loop "bounded wait expired" (retry_fuel 1000 100) (0 + 1000) 100 late 0 = Some (r, w') /\
    retryValue 1000 100 late 0 = (r, w') /\ retry_result "bounded wait expired" late 100 (0 + 1000) r w'.
Proof.
  exact (retryValue_bounded "bounded wait expired" late 100 (fun w => Z.le_refl w) (eq_refl : 0 < 100) 1000 0 ltac:(discriminate)).
Defined.

End RetrySample.
