(* ===== verification/CniTrace.v ===== *)
(** * The order of a CNI command's effects

    Any implementation of the plugin's interfaces can be run in a world that
    also records every call with its result.  The deny-first protocol of ADD
    is an automaton over those events; [Add_follows_protocol] shows that ADD's
    calls are a run of it, and the other theorems read ordering facts off
    recorded runs. *)

From S2P Require Import Prelude CniTypes CniPlugin.

(** ** Recorded calls *)

Inductive event :=
| EvIdentity (netns : string) (r : res string)
| EvLockdown (netns uid : string) (r : res unit)
| EvCleanup (netns uid : string) (r : res unit)
| EvResolve (pod : PodIdentity) (r : res Resolution)
| EvBinding (pod : PodIdentity) (r : res Binding)
| EvPrepare (pod : PodIdentity) (b : Binding) (r : res unit)
| EvCheck (pod : PodIdentity) (b : Binding) (r : res unit)
| EvWithdraw (pod : PodIdentity) (r : res unit)
| EvStatus (r : res unit)
| EvLoad (key : Key) (r : res Attachment)
| EvSave (a : Attachment) (r : res unit)
| EvDelete (key : Key) (r : res unit)
| EvList (network : string) (r : res (list Attachment)).

Definition traced {W A} (ev : res A -> event) (m : IO W A) : IO (W * list event) A := fun wt =>
  match m wt.1 with (r, w') => (r, (w', wt.2 ++ [ev r])) end.

Section Traced.
Context {W : Type} `{Agent W} `{Enforcer W} `{Store W} `{Timer W}.

#[global] Instance traced_agent : Agent (W * list event) := {|
  agent_Resolve pod := traced (EvResolve pod) (agent_Resolve pod);
  agent_Binding pod := traced (EvBinding pod) (agent_Binding pod);
  agent_Prepare pod b := traced (EvPrepare pod b) (agent_Prepare pod b);
  agent_Check pod b := traced (EvCheck pod b) (agent_Check pod b);
  agent_Withdraw pod := traced (EvWithdraw pod) (agent_Withdraw pod);
  agent_Status := traced EvStatus agent_Status
|}.
#[global] Instance traced_enforcer : Enforcer (W * list event) := {|
  enf_Identity netns := traced (EvIdentity netns) (enf_Identity netns);
  enf_InstallLockdown netns uid := traced (EvLockdown netns uid) (enf_InstallLockdown netns uid);
  enf_Cleanup netns uid := traced (EvCleanup netns uid) (enf_Cleanup netns uid)
|}.
#[global] Instance traced_store : Store (W * list event) := {|
  store_Load key := traced (EvLoad key) (store_Load key);
  store_Save a := traced (EvSave a) (store_Save a);
  store_Delete key := traced (EvDelete key) (store_Delete key);
  store_List network := traced (EvList network) (store_List network)
|}.
#[global] Instance traced_timer : Timer (W * list event) := {|
  Now wt := Now wt.1;
  Select d t wt := match Select d t wt.1 with (r, w') => (r, (w', wt.2)) end
|}.

End Traced.

(** Rule for a recorded call: its event is appended, whatever it returned. *)
Lemma wp_traced {W A} (ev : res A -> event) (m : IO W A) (Q : res A -> W * list event -> Prop) w tr :
  (forall r w', m w = (r, w') -> Q r (w', tr ++ [ev r])) -> wp (traced ev m) Q (w, tr).
Proof. intros HQ. unfold wp, traced. cbn. destruct (m w) as [r w'] eqn:E. cbn. by apply HQ. Qed.

(** ** The deny-first protocol *)

Inductive pstate :=
| Observing                    (** only reads so far *)
| Denied                       (** the deny policy is installed *)
| RollingBack                  (** the deny policy could not be recorded *)
| Recorded                     (** the locked-down record is durable *)
| Allocated (b : Binding)      (** the agent gave a valid binding for the Pod *)
| Announced (b : Binding)      (** the allocation is recorded, still locked down *)
| Programmed (b : Binding)     (** the agent programmed and verified the path *)
| Finished (b : Binding)       (** the ready record is durable *)
| Stopped.                     (** a step failed; the command reports it *)

(** The record ADD writes in a phase for a binding. *)
Definition records (request : Request) (phase : Phase) (b : option Binding) (a : Attachment) : bool :=
  String.eqb (a_Network a) (rq_Network request) && bool_decide (a_Pod a = rq_Pod request) &&
  String.eqb (a_Phase a) phase &&
  match b with
  | None => String.eqb (a_BindingUID a) "" && String.eqb (a_GatewayUID a) ""
  | Some b => String.eqb (a_BindingUID a) (b_UID b) && (a_BindingGeneration a =? b_Generation b) &&
              String.eqb (a_GatewayUID a) (b_GatewayUID b)
  end.

Definition protocol_step (request : Request) (s : pstate) (e : event) : option pstate :=
  let pod := rq_Pod request in
  match s, e with
  | Observing, (EvIdentity _ _ | EvLoad _ _ | EvList _ _ | EvResolve _ _ | EvCheck _ _ _) => Some Observing
  | Observing, EvLockdown netns uid r =>
      if String.eqb netns (pi_NetNS pod) && String.eqb uid (pi_UID pod)
      then Some (if res_ok r then Denied else Stopped) else None
  | Denied, EvSave a r =>
      if records request PhaseLockedDown None a then Some (if res_ok r then Recorded else RollingBack) else None
  | RollingBack, EvCleanup netns uid r =>
      if String.eqb netns (pi_NetNS pod) && String.eqb uid (pi_UID pod) then Some Stopped else None
  | Recorded, EvBinding pod' (Fail _) => if decide (pod' = pod) then Some Recorded else None
  | Recorded, EvBinding pod' (Ok b) =>
      if decide (pod' = pod) then
        Some (match Binding_Validate b (pi_UID pod) with None => Allocated b | Some _ => Stopped end)
      else None
  | Allocated b, EvSave a r =>
      if records request PhaseLockedDown (Some b) a then Some (if res_ok r then Announced b else Stopped) else None
  | Announced b, EvPrepare pod' b' r =>
      if decide (pod' = pod) then if decide (b' = b) then Some (if res_ok r then Programmed b else Stopped)
      else None else None
  | Programmed b, EvSave a r =>
      if records request PhaseReady (Some b) a then Some (if res_ok r then Finished b else Stopped) else None
  | _, _ => None
  end.

Fixpoint protocol_run (request : Request) (s : pstate) (tr : list event) : option pstate :=
  match tr with
  | [] => Some s
  | e :: tr' => match protocol_step request s e with Some s' => protocol_run request s' tr' | None => None end
  end.

Lemma protocol_run_app request s tr tr' :
  protocol_run request s (tr ++ tr') =
  match protocol_run request s tr with Some s' => protocol_run request s' tr' | None => None end.
Proof. revert s. induction tr as [|e tr IH]; intros s; cbn; [done|]. by destruct (protocol_step _ _ _). Qed.

Section Protocol.
Context {W : Type} `{Agent W} `{Enforcer W} `{Store W} `{Timer W}.
Variable p : Plugin.
Variable request : Request.

(** The recorded calls are a protocol run that has reached [s]. *)
Definition reached (s : pstate) (wt : W * list event) : Prop :=
  protocol_run request Observing wt.2 = Some s.

(** A recorded call moves the run by its event. *)
Lemma wp_event {A} (ev : res A -> event) (m : IO W A) (Q : res A -> W * list event -> Prop) s wt :
  reached s wt ->
  (forall r w', (exists s', protocol_step request s (ev r) = Some s' /\
                  (reached s' (w', wt.2 ++ [ev r]) -> Q r (w', wt.2 ++ [ev r])))) ->
  wp (traced ev m) Q wt.
Proof.
  destruct wt as [w tr]. intros Hs HQ. apply wp_traced. intros r w' _.
  destruct (HQ r w') as (s' & Hstep & Hcont). apply Hcont. unfold reached in *. cbn in *.
  rewrite protocol_run_app, Hs. cbn. by rewrite Hstep.
Qed.

Lemma wp_retry_event {A} timeout interval (ev : res A -> event) (m : IO W A) s (next : A -> pstate) wt :
  (forall r, protocol_step request s (ev r) = Some (match r with Ok v => next v | Fail _ => s end)) ->
  reached s wt ->
  wp (retryValue timeout interval (traced ev m))
    (fun r wt' => match r with Ok v => reached (next v) wt' | Fail _ => reached s wt' end) wt.
Proof.
  intros Hstep Hs. unfold wp, retryValue, bounded_wait.
  assert (forall fuel deadline wt, reached s wt -> forall result,
    retry_loop "bounded wait expired" fuel deadline interval (traced ev m) wt = Some result ->
    match result.1 with Ok v => reached (next v) result.2 | Fail _ => reached s result.2 end) as Hloop.
  { clear wt Hs. induction fuel as [|fuel IH]; intros deadline [w tr] Hs result; cbn [retry_loop]; [done|].
    assert (forall r w', reached (match r with Ok v => next v | Fail _ => s end) (w', tr ++ [ev r])) as Hext.
    { intros r w'. unfold reached in *. cbn in *. rewrite protocol_run_app, Hs. cbn. by rewrite Hstep. }
    unfold traced at 1. cbn [fst snd]. destruct (m w) as [[v|err] w1].
    - intros [= <-]. apply (Hext (Ok v)).
    - cbn [Select traced_timer fst snd]. specialize (Hext (Fail err)).
      destruct (Select _ _ w1) as [[[|]|e] w2].
      + intros [= <-]. apply Hext.
      + apply IH. apply Hext.
      + intros [= <-]. apply Hext. }
  destruct (retry_loop _ _ _ _ _ _) as [result|] eqn:E; [exact (Hloop _ _ _ Hs _ E)|done].
Qed.

(** *** ADD runs the protocol *)

(** Close the side condition of a recorded call. *)
Ltac step_event s' r :=
  let w' := fresh "w" in let Hr := fresh "Hreached" in
  eapply wp_event; [eassumption|]; intros r w'; exists s'; split; [|intros Hr; cbn beta].

Lemma Add_decide_reads ident wt :
  reached Observing wt -> wp (Add_decide p request ident) (fun _ wt' => reached Observing wt') wt.
Proof.
  intros Hs. unfold Add_decide. do 2 wp_step. step_event Observing r; [done|].
  destruct r as [existing|loadErr]; cbn beta iota.
  - wp_step. unfold check_error. wp_step. destruct (of_error _); cbn [after]; [|done].
    destruct (String.eqb _ PhaseReady); [|by wp_step]. do 2 wp_step. step_event Observing r; [done|]. by wp_step.
  - destruct (errors_is _ _); cbn [negb]; [|by wp_step].
    do 2 wp_step. unfold hasPriorEnrollment. wp_step. step_event Observing r; [done|].
    destruct r as [l|e]; cbn [after]; [|done]. wp_step.
    destruct (prior_enrollment l request); cbn [negb]; [by wp_step|]. do 2 wp_step.
    eapply wp_mono; [apply (wp_retry_event _ _ _ _ Observing (fun _ => Observing)); [by intros []|done]|].
    intros [resolution|e] wt' Hr; cbn [after]; [|done]. destruct (String.eqb _ _); cbn [negb]; by wp_step.
Qed.

(** How the command's result relates to where its protocol run ended. *)
Definition protocol_outcome (r : res unit) (wt : W * list event) : Prop :=
  exists s, reached s wt /\ match r with Ok _ => exists b, s = Finished b | Fail _ => forall b, s <> Finished b end.

Lemma outcome_fail s wt e : reached s wt -> (forall b, s <> Finished b) -> protocol_outcome (Fail e) wt.
Proof. intros Hs Hb. by exists s. Qed.

Lemma records_intro phase b ident bu bg gu t :
  match b with
  | None => bu = "" /\ gu = ""
  | Some b => bu = b_UID b /\ bg = b_Generation b /\ gu = b_GatewayUID b
  end ->
  records request phase b (mkAttachment (rq_Network request) (rq_Pod request) ident phase bu bg gu t) = true.
Proof.
  unfold records. cbn. rewrite !String.eqb_refl, bool_decide_true by done. cbn.
  destruct b as [b|]; [intros (-> & -> & ->)|intros [-> ->]]; [|done].
  by rewrite !String.eqb_refl, Z.eqb_refl.
Qed.

Lemma Add_protect_protocol ident wt :
  reached Observing wt -> wp (Add_protect p request ident) protocol_outcome wt.
Proof.
  intros Hs. unfold Add_protect. do 2 wp_step.
  eapply wp_event; [eassumption|]. intros r w1. eexists. split; [cbn; by rewrite !String.eqb_refl|].
  intros Hs1. destruct r as [[]|e]; cbn [after res_ok] in *; [|by apply (outcome_fail Stopped)].
  wp_step. apply wp_now. cbn [after]. do 2 wp_step.
  eapply wp_event; [eassumption|]. intros r w2. eexists. split; [cbn -[records]; by rewrite records_intro|].
  intros Hs2. destruct r as [[]|e]; cbn [res_ok] in *; cbn beta iota.
  2: { do 2 wp_step. eapply wp_event; [eassumption|]. intros r w3. eexists.
       split; [cbn; by rewrite !String.eqb_refl|]. intros Hs3.
       unfold check_error. wp_step. by apply (outcome_fail Stopped). }
  do 2 wp_step. eapply wp_mono.
  { apply (wp_retry_event _ _ _ _ Recorded (fun b => match Binding_Validate b (pi_UID (rq_Pod request)) with
      None => Allocated b | Some _ => Stopped end)); [|exact Hs2].
    intros []; cbn; by rewrite decide_True by done. }
  intros [b|e] [w3 tr3] Hs3; cbn [after]; [|by apply (outcome_fail Recorded)].
  do 2 wp_step. unfold check_error. wp_step.
  destruct (Binding_Validate b _) eqn:Ev; cbn [of_error after]; [by apply (outcome_fail Stopped)|].
  wp_step. apply wp_now. cbn [after]. do 2 wp_step.
  eapply wp_event; [exact Hs3|]. intros r w4. eexists. split; [cbn -[records]; by rewrite records_intro|].
  intros Hs4. destruct r as [[]|e]; cbn [res_ok after] in *; [|by apply (outcome_fail Stopped)].
  do 2 wp_step. eapply wp_event; [exact Hs4|]. intros r w5. eexists.
  split; [cbn; by rewrite !decide_True by done|].
  intros Hs5. destruct r as [[]|e]; cbn [res_ok after] in *; [|by apply (outcome_fail Stopped)].
  wp_step. apply wp_now. cbn [after]. wp_step.
  eapply wp_event; [exact Hs5|]. intros r w6. eexists. split; [cbn -[records]; by rewrite records_intro|].
  intros Hs6. destruct r as [[]|e]; cbn [res_ok after] in *; [|by apply (outcome_fail Stopped)].
  exists (Finished b). split; [done|]. by exists b.
Qed.

Lemma Add_protocol w :
  wp (Add p request) (fun r wt' => protocol_outcome r wt' \/ reached Observing wt') (w, []).
Proof.
  assert (reached Observing (w, [])) as Hs by done. unfold Add. wp_step. unfold check_error. wp_step.
  destruct (of_error _); cbn [after]; [|by right].
  do 2 wp_step. step_event Observing r; [done|]. destruct r as [ident|e]; cbn [after]; [|by right].
  wp_step. eapply wp_mono; [by apply Add_decide_reads|].
  intros [[|]|e] wt Hr; cbn [after]; [|by right|by right].
  eapply wp_mono; [by apply Add_protect_protocol|]. auto.
Qed.

End Protocol.

(** ** What a protocol run contains *)

Definition is_read (e : event) : Prop :=
  match e with
  | EvIdentity _ _ | EvLoad _ _ | EvList _ _ | EvResolve _ _ | EvCheck _ _ _ => True
  | _ => False
  end.

Definition is_failed_binding (e : event) : Prop :=
  match e with EvBinding _ (Fail _) => True | _ => False end.

(** Split a run at its last event. *)
Lemma protocol_run_last request tr s :
  protocol_run request Observing tr = Some s ->
  (tr = [] /\ s = Observing) \/
  exists tr' e s', tr = tr' ++ [e] /\ protocol_run request Observing tr' = Some s' /\
    protocol_step request s' e = Some s.
Proof.
  destruct tr as [|e tr' _] using rev_ind; [intros [= <-]; by left|].
  rewrite protocol_run_app. destruct (protocol_run _ _ tr') as [s'|] eqn:E; [|done]. cbn.
  destruct (protocol_step request s' e) as [s''|] eqn:Es; [|done]. intros [= ->].
  right. by exists tr', e, s'.
Qed.

(** Take a step with a known target apart. *)
Ltac step_cases H :=
  match type of H with protocol_step _ ?s ?e = Some _ => destruct s; try (is_var e; destruct e) end; cbn -[records Binding_Validate] in H;
  repeat match type of H with
         | context [if ?b then _ else _] => destruct b eqn:?
         | context [match ?r with Ok _ => _ | Fail _ => _ end] => destruct r eqn:?
         | context [match Binding_Validate ?b ?u with None => _ | Some _ => _ end] =>
             destruct (Binding_Validate b u) eqn:?
         end; try discriminate H; simplify_eq.

Lemma run_observing request tr :
  protocol_run request Observing tr = Some Observing -> Forall is_read tr.
Proof.
  induction tr as [|e tr IH] using rev_ind; [by constructor|]. intros Hrun.
  apply protocol_run_last in Hrun as [[Hnil _]|(tr' & e' & s' & Heq & Hrun & Hstep)].
  { by destruct tr. }
  apply app_inj_tail in Heq as [<- <-]. apply Forall_app.
  step_cases Hstep; (split; [by apply IH|by repeat constructor]).
Qed.

Lemma res_ok_unit (r : res unit) : res_ok r = true -> r = Ok tt.
Proof. by destruct r as [[]|]. Qed.

Lemma run_denied request tr :
  protocol_run request Observing tr = Some Denied ->
  exists reads, Forall is_read reads /\
    tr = reads ++ [EvLockdown (pi_NetNS (rq_Pod request)) (pi_UID (rq_Pod request)) (Ok tt)].
Proof.
  intros Hrun. apply protocol_run_last in Hrun as [[_ [=]]|(reads & e & s & -> & Hrun & Hstep)].
  step_cases Hstep. exists reads. split; [by eapply run_observing|].
  repeat match goal with Hb : (_ && _) = true |- _ => apply andb_prop in Hb as [?%String.eqb_eq ?%String.eqb_eq] end.
  match goal with Hr : res_ok ?r = true |- _ => apply res_ok_unit in Hr as -> end. by subst.
Qed.

Lemma run_recorded request tr :
  protocol_run request Observing tr = Some Recorded ->
  exists reads locked waits, Forall is_read reads /\ Forall is_failed_binding waits /\
    records request PhaseLockedDown None locked = true /\
    tr = reads ++ [EvLockdown (pi_NetNS (rq_Pod request)) (pi_UID (rq_Pod request)) (Ok tt);
                   EvSave locked (Ok tt)] ++ waits.
Proof.
  induction tr as [|e tr IH] using rev_ind; [done|]. intros Hrun.
  apply protocol_run_last in Hrun as [[_ [=]]|(tr' & e' & s' & Heq & Hrun & Hstep)].
  apply app_inj_tail in Heq as [<- <-]. step_cases Hstep.
  - match goal with Hr : res_ok ?r = true |- _ => apply res_ok_unit in Hr as -> end.
    apply run_denied in Hrun as (reads & Hreads & ->). exists reads, a, [].
    split_and!; [done|by constructor|done|]. by rewrite <- app_assoc.
  - destruct (IH Hrun) as (reads & locked & waits & Hr & Hw & Hl & ->).
    eexists reads, locked, (waits ++ [_]). split_and!; [done| |done|].
    2: { rewrite <- !app_assoc. cbn. by rewrite <- ?app_assoc. }
    apply Forall_app. split; [done|by repeat constructor].
Qed.

Lemma run_allocated request tr b :
  protocol_run request Observing tr = Some (Allocated b) ->
  Binding_Validate b (pi_UID (rq_Pod request)) = None /\
  exists tr', protocol_run request Observing tr' = Some Recorded /\
    tr = tr' ++ [EvBinding (rq_Pod request) (Ok b)].
Proof.
  intros Hrun. apply protocol_run_last in Hrun as [[_ [=]]|(tr' & e & s & -> & Hrun & Hstep)].
  step_cases Hstep. split; [done|]. by exists tr'.
Qed.

(** The calls that lead to asking the agent for the protected path. *)
Definition deny_first_prefix (request : Request) (b : Binding) (before : list event) : Prop :=
  exists reads locked waits announced,
    Forall is_read reads /\ Forall is_failed_binding waits /\
    records request PhaseLockedDown None locked = true /\
    records request PhaseLockedDown (Some b) announced = true /\
    before = reads ++ [EvLockdown (pi_NetNS (rq_Pod request)) (pi_UID (rq_Pod request)) (Ok tt);
                       EvSave locked (Ok tt)] ++ waits ++
             [EvBinding (rq_Pod request) (Ok b); EvSave announced (Ok tt)].

Lemma run_announced request tr b :
  protocol_run request Observing tr = Some (Announced b) ->
  Binding_Validate b (pi_UID (rq_Pod request)) = None /\ deny_first_prefix request b tr.
Proof.
  intros Hrun. apply protocol_run_last in Hrun as [[_ [=]]|(tr' & e & s & -> & Hrun & Hstep)].
  step_cases Hstep. apply run_allocated in Hrun as (Hv & tr'' & Hrec & ->). split; [done|].
  match goal with Hr : res_ok ?r = true |- _ => apply res_ok_unit in Hr as -> end.
  apply run_recorded in Hrec as (reads & locked & waits & Hr & Hw & Hl & ->).
  exists reads, locked, waits, a. split_and!; [done..|]. rewrite <- !app_assoc. cbn. by rewrite <- ?app_assoc.
Qed.

(** A run of [tr ++ e :: tr'] takes the step of [e] from where [tr] ended. *)
Lemma protocol_run_mid request tr e tr' s :
  protocol_run request Observing (tr ++ e :: tr') = Some s ->
  exists s1 s2, protocol_run request Observing tr = Some s1 /\ protocol_step request s1 e = Some s2 /\
    protocol_run request s2 tr' = Some s.
Proof.
  rewrite protocol_run_app. destruct (protocol_run request Observing tr) as [s1|]; [|done]. cbn.
  destruct (protocol_step request s1 e) as [s2|] eqn:E; [|done]. intros Hrun. by exists s1, s2.
Qed.

Lemma records_binding request phase b a :
  records request phase (Some b) a = true ->
  a_BindingUID a = b_UID b /\ a_BindingGeneration a = b_Generation b /\ a_GatewayUID a = b_GatewayUID b.
Proof.
  unfold records. rewrite !andb_true_iff. intros (_ & (?%String.eqb_eq & ?%Z.eqb_eq) & ?%String.eqb_eq). auto.
Qed.

Section AddOrder.
Context {W : Type} `{Agent W} `{Enforcer W} `{Store W} `{Timer W}.
Variable p : Plugin.

Lemma Add_trace request w r w' tr :
  Add p request (w, []) = (r, (w', tr)) ->
  exists s, protocol_run request Observing tr = Some s /\
    (s = Observing \/ match r with Ok _ => exists b, s = Finished b | Fail _ => forall b, s <> Finished b end).
Proof.
  intros Hadd. pose proof (Add_protocol p request w) as Hp. apply (wp_elim _ _ _ _ _ Hp) in Hadd.
  destruct Hadd as [(s & Hs & Hr)|Hs]; [exists s; auto|exists Observing; auto].
Qed.

(** C32: Deny first.  Whenever ADD asks the local agent to program the
    protected path, the calls before it are, in this order: reads only, the
    successful installation of the deny policy for exactly this namespace and
    Pod UID, the durable locked-down record, the wait for the allocation, and
    the durable record of that allocation, still locked down.  The binding
    handed to the agent was validated for the Pod's UID, and nothing before it
    removed the policy. *)
Theorem Add_deny_first request w r w' before pod b outcome after_prepare :
  Add p request (w, []) = (r, (w', before ++ EvPrepare pod b outcome :: after_prepare)) ->
  pod = rq_Pod request /\ Binding_Validate b (pi_UID pod) = None /\ deny_first_prefix request b before.
Proof.
  intros Hadd%Add_trace. destruct Hadd as (s & Hrun & _).
  apply protocol_run_mid in Hrun as (s1 & s2 & Hrun1 & Hstep & _).
  step_cases Hstep; apply run_announced in Hrun1 as [Hv Hp]; auto.
Qed.

(** The ready record comes last.  Whenever ADD writes a record in phase
    Ready, the call just before it is the agent's successful programming and
    verification of the protected path for the same binding, and ADD makes no
    call after it. *)
Lemma Add_ready_last request w r w' before a outcome rest :
  Add p request (w, []) = (r, (w', before ++ EvSave a outcome :: rest)) ->
  a_Phase a = PhaseReady ->
  rest = [] /\ exists before' b,
    before = before' ++ [EvPrepare (rq_Pod request) b (Ok tt)] /\ deny_first_prefix request b before' /\
    a_BindingUID a = b_UID b /\ a_BindingGeneration a = b_Generation b /\ a_GatewayUID a = b_GatewayUID b.
Proof.
  intros Hadd%Add_trace Hready. destruct Hadd as (s & Hrun & _).
  apply protocol_run_mid in Hrun as (s1 & s2 & Hrun1 & Hstep & Hrest).
  assert (forall b, records request PhaseLockedDown b a = false) as Hnot.
  { intros b. unfold records. rewrite Hready.
    change (String.eqb PhaseReady PhaseLockedDown) with false. by rewrite andb_false_r. }
  step_cases Hstep; rewrite ?Hnot in *; try discriminate.
  all: apply protocol_run_last in Hrun1 as [[_ [=]]|(before' & e & s3 & -> & Hrun1 & Hstep)].
  all: step_cases Hstep; match goal with Hr : res_ok ?r = true |- context [EvPrepare _ _ ?r] =>
      apply res_ok_unit in Hr as -> end.
  all: apply run_announced in Hrun1 as [_ Hprefix]; split; [by destruct rest as [|[]]|].
  all: eexists _, _; split; [done|]; split; [done|].
  all: match goal with Hr : records _ PhaseReady (Some _) _ = true |- _ => by apply records_binding in Hr end.
Qed.

End AddOrder.

(** ** DEL and GC *)

Section RemoveOrder.
Context {W : Type} `{Agent W} `{Enforcer W} `{Store W} `{Timer W}.

(** The local agent confirmed that the Pod is gone or on its way out. *)
Definition pod_gone (a : Attachment) (r : res Resolution) : Prop :=
  match r with
  | Fail e => errors_is e ErrPodNotFound = true
  | Ok resolution => res_PodUID resolution = pi_UID (a_Pod a) /\ res_Terminating resolution = true
  end.

(** The calls that lead DEL to drop a record. *)
Definition release_prefix (key : Key) (netns : string) (before : list event) : Prop :=
  let path a := if str_empty netns then pi_NetNS (a_Pod a) else netns in
  exists a rr ri, pod_gone a rr /\
    (before = [EvLoad key (Ok a); EvResolve (a_Pod a) rr; EvIdentity (path a) ri;
               EvWithdraw (a_Pod a) (Ok tt)] /\ ri <> Ok (a_NamespaceIdentity a) \/
     before = [EvLoad key (Ok a); EvResolve (a_Pod a) rr; EvIdentity (path a) ri;
               EvWithdraw (a_Pod a) (Ok tt); EvCleanup (path a) (pi_UID (a_Pod a)) (Ok tt)] /\
       ri = Ok (a_NamespaceIdentity a)).

Definition releases_safely (key : Key) (netns : string) (tr : list event) : Prop :=
  forall before key' outcome rest, tr = before ++ EvDelete key' outcome :: rest ->
    key' = key /\ rest = [] /\ release_prefix key netns before.

(** A trace whose last event may be a removal and whose others are not. *)
Definition no_delete (e : event) : Prop := match e with EvDelete _ _ => False | _ => True end.

Lemma releases_none key netns tr : Forall no_delete tr -> releases_safely key netns tr.
Proof.
  intros Hno before key' outcome rest ->. apply Forall_app in Hno as [_ Hno].
  by apply Forall_cons in Hno as [[] _].
Qed.

Lemma releases_last key netns tr outcome :
  Forall no_delete tr -> release_prefix key netns tr ->
  releases_safely key netns (tr ++ [EvDelete key outcome]).
Proof.
  intros Hno Hpre before key' outcome' rest Heq.
  destruct rest as [|e rest _] using rev_ind.
  - apply app_inj_tail in Heq as [-> [= -> ->]]. auto.
  - rewrite app_comm_cons, app_assoc in Heq. apply app_inj_tail in Heq as [-> _].
    apply Forall_app in Hno as [_ Hno]. by apply Forall_cons in Hno as [[] _].
Qed.

Lemma Delete_detach_releases key netns a rr w :
  pod_gone a rr ->
  wp (Delete_detach key netns a) (fun _ wt => releases_safely key netns wt.2)
    (w, [EvLoad key (Ok a); EvResolve (a_Pod a) rr]).
Proof.
  intros Hgone. unfold Delete_detach. do 2 wp_step. apply wp_traced. intros ri w1 _.
  destruct ri as [observed|err]; cbn beta iota.
  - do 2 wp_step. apply wp_traced. intros rw w2 _.
    destruct rw as [[]|e]; cbn [after]; [|by apply releases_none; repeat constructor].
    destruct (String.eqb_spec observed (a_NamespaceIdentity a)) as [->|Hne].
    + do 2 wp_step. apply wp_traced. intros rc w3 _.
      destruct rc as [[]|e]; cbn [after]; [|by apply releases_none; repeat constructor].
      wp_step. apply wp_traced. intros rd w4 _. destruct rd; cbn [after].
      all: apply releases_last; [by repeat constructor|]; eexists a, rr, _; (split; [done|]); right; by split.
    + do 2 wp_step. wp_step. apply wp_traced. intros rd w4 _. destruct rd; cbn [after].
      all: apply releases_last; [by repeat constructor|]; eexists a, rr, _; (split; [done|]); left; split; [done|].
      all: congruence.
  - destruct (errors_is err ErrNotExist); cbn [negb]; [|by wp_step; apply releases_none; repeat constructor].
    do 2 wp_step. apply wp_traced. intros rw w2 _.
    destruct rw as [[]|e]; cbn [after]; [|by apply releases_none; repeat constructor].
    wp_step. apply wp_traced. intros rd w3 _. destruct rd; cbn [after].
    all: apply releases_last; [by repeat constructor|]; eexists a, rr, _; (split; [done|]); left; by split.
Qed.

(** DEL keeps the record while the Pod lives.  If DEL removes an
    attachment record, it is the record of the key it was called with, the
    agent had confirmed that the exact Pod is absent or terminating, the agent
    had confirmed the withdrawal of the exact attachment, and the namespace's
    state was cleaned up exactly when the namespace still has the recorded
    identity.  The removal is the last call. *)
Theorem Delete_retains_enrollment key netns w r w' tr :
  Delete key netns (w, []) = (r, (w', tr)) -> releases_safely key netns tr.
Proof.
  intros Hdel. cut (wp (Delete key netns) (fun _ wt => releases_safely key netns wt.2) (w, [])).
  { intros Hwp. exact (wp_elim _ _ _ _ _ Hwp Hdel). }
  clear. unfold Delete. do 2 wp_step. apply wp_traced. intros loaded w1 _.
  destruct loaded as [a|err]; cbn beta iota.
  2: { destruct (errors_is err ErrNotExist); wp_step; apply releases_none; by repeat constructor. }
  do 2 wp_step. apply wp_traced. intros rr w2 _. destruct rr as [resolution|err]; cbn beta iota.
  - destruct (String.eqb_spec (res_PodUID resolution) (pi_UID (a_Pod a))) as [Huid|]; cbn [negb orb].
    2: { wp_step. apply releases_none. by repeat constructor. }
    destruct (res_Terminating resolution) eqn:Et; cbn [negb].
    + by apply Delete_detach_releases.
    + wp_step. apply releases_none. by repeat constructor.
  - destruct (errors_is err ErrPodNotFound) eqn:Enf.
    + by apply Delete_detach_releases.
    + wp_step. apply releases_none. by repeat constructor.
Qed.

(** What GC may do, given the records it listed and the runtime's valid set. *)
Definition gc_allowed (listed : list Attachment) (valid : gset Key) (e : event) : Prop :=
  match e with
  | EvCleanup netns uid _ => exists a, a ∈ listed /\ ~ (Attachment_Key a ∈ valid) /\
      netns = pi_NetNS (a_Pod a) /\ uid = pi_UID (a_Pod a)
  | EvDelete key _ => ~ (key ∈ valid) /\ exists a, a ∈ listed /\ key = Attachment_Key a
  | EvIdentity _ _ | EvList _ _ => True
  | _ => False
  end.

Definition gc_trace (network : string) (l : list Attachment) (valid : gset Key) (wt : W * list event) : Prop :=
  exists rest, wt.2 = EvList network (Ok l) :: rest /\ Forall (gc_allowed l valid) rest.

Lemma gc_trace_ext network l valid w tr w' e :
  gc_trace network l valid (w, tr) -> gc_allowed l valid e -> gc_trace network l valid (w', tr ++ [e]).
Proof.
  intros (rest & Heq & Hrest) He. cbn in Heq. subst tr. exists (rest ++ [e]). split; [done|]. apply Forall_app. by repeat constructor.
Qed.

Lemma GC_one_allowed network l valid a wt :
  a ∈ l -> ~ (Attachment_Key a ∈ valid) -> gc_trace network l valid wt ->
  wp (GC_one a) (fun _ wt' => gc_trace network l valid wt') wt.
Proof.
  intros Hin Hv Htr. destruct wt as [w tr]. unfold GC_one. do 2 wp_step. apply wp_traced. intros ri w1 _.
  assert (gc_trace network l valid (w1, tr ++ [EvIdentity (pi_NetNS (a_Pod a)) ri])) as Htr1
    by by eapply gc_trace_ext.
  assert (forall wt, gc_trace network l valid wt ->
    wp (store_Delete (Attachment_Key a)) (fun _ wt' => gc_trace network l valid wt') wt) as Hdelete.
  { intros [w2 tr2] Htr2. apply wp_traced. intros rd w3 _. eapply gc_trace_ext; [done|]. cbn. eauto. }
  wp_step. destruct ri as [observed|err]; [destruct (String.eqb _ _)|]; cbn [after].
  - apply wp_traced. intros rc w2 _.
    assert (gc_trace network l valid (w2, (tr ++ [EvIdentity (pi_NetNS (a_Pod a)) (Ok observed)]) ++
      [EvCleanup (pi_NetNS (a_Pod a)) (pi_UID (a_Pod a)) rc])) as Htr2.
    { eapply gc_trace_ext; [done|]. cbn. eauto. }
    destruct rc; cbn [after]; [by apply Hdelete|done].
  - wp_step. by apply Hdelete.
  - wp_step. by apply Hdelete.
Qed.

(** GC is confined to stale attachments.  Every cleanup and every removal
    GC performs is for a record it listed whose key the runtime did not name
    as valid; it never touches a valid attachment and makes no other kind of
    change. *)
Theorem GC_spares_valid network valid w r w' tr :
  GC network valid (w, []) = (r, (w', tr)) ->
  exists listed rest, tr = EvList network listed :: rest /\
    Forall (gc_allowed (match listed with Ok l => l | Fail _ => [] end) valid) rest.
Proof.
  intros Hgc. cut (wp (GC network valid) (fun _ wt => exists listed rest, wt.2 = EvList network listed :: rest /\
    Forall (gc_allowed (match listed with Ok l => l | Fail _ => [] end) valid) rest) (w, [])).
  { intros Hwp. exact (wp_elim _ _ _ _ _ Hwp Hgc). }
  clear. unfold GC. wp_step. apply wp_traced. intros [l|e] w1 _; cbn [after].
  2: { by exists (Fail e), []. }
  wp_step. eapply wp_mono.
  { apply (wp_collect (gc_trace network l valid)); [|by exists []].
    intros a wt Hin Htr. destruct (decide _); [by wp_step|by apply GC_one_allowed]. }
  intros ? [w2 tr] [(rest & Htr & Hrest) [errs ->]]. cbn [after]. apply wp_check.
  exists (Ok l), rest. by split.
Qed.

End RemoveOrder.

(** ** Recorded runs *)

Module TraceSample.

(** The world is the list of durable records; the agent and the enforcer
    always succeed. *)
Definition pod : PodIdentity := mkPodIdentity "media" "client" "uid-1" "container-1" "eth0" "/run/netns/a".
Definition binding : Binding := mkBinding "binding-1" 3 "uid-1" "gateway-1".
Definition request : Request := mkRequest "podnet" pod.
Definition plugin : Plugin := mkPlugin 0 0 0.

#[local] Instance agent : Agent (list Attachment) := {
  agent_Resolve := fun _ => mret (mkResolution "uid-1" true true);
  agent_Binding := fun _ => mret binding;
  agent_Prepare := fun _ _ => mret tt;
  agent_Check := fun _ _ => mret tt;
  agent_Withdraw := fun _ => mret tt;
  agent_Status := mret tt
}.
#[local] Instance enforcer : Enforcer (list Attachment) := {
  enf_Identity := fun _ => mret "4:1";
  enf_InstallLockdown := fun _ _ => mret tt;
  enf_Cleanup := fun _ _ => mret tt
}.
#[local] Instance store : Store (list Attachment) := {
  store_Load key := fun w =>
    (match List.find (fun a => bool_decide (Attachment_Key a = key)) w with
     | Some a => Ok a | None => Fail (ESentinel ErrNotExist) end, w);
  store_Save a := fun w => (Ok tt, a :: List.filter (fun x => negb (bool_decide (Attachment_Key x = Attachment_Key a))) w);
  store_Delete key := fun w => (Ok tt, List.filter (fun x => negb (bool_decide (Attachment_Key x = key))) w);
  store_List network := fun w => (Ok (List.filter (fun a => String.eqb (a_Network a) network) w), w)
}.
#[local] Instance timer : Timer (list Attachment) := { Now _ := 1000; Select _ _ := mret true }.

Definition record (phase : Phase) (b : option Binding) : Attachment :=
  match b with
  | Some b => mkAttachment "podnet" pod "4:1" phase (b_UID b) (b_Generation b) (b_GatewayUID b) 1000
  | None => mkAttachment "podnet" pod "4:1" phase "" 0 "" 1000
  end.

Definition before_prepare : list event :=
  [EvIdentity "/run/netns/a" (Ok "4:1"); EvLoad (Request_Key request) (Fail (ESentinel ErrNotExist));
   EvList "podnet" (Ok []); EvResolve pod (Ok (mkResolution "uid-1" true true));
   EvLockdown "/run/netns/a" "uid-1" (Ok tt); EvSave (record PhaseLockedDown None) (Ok tt);
   EvBinding pod (Ok binding); EvSave (record PhaseLockedDown (Some binding)) (Ok tt)].

Lemma Add_deny_first_witness :
  pod = rq_Pod request /\ Binding_Validate binding "uid-1" = None /\ deny_first_prefix request binding before_prepare.
Proof.
  apply (Add_deny_first plugin request [] (Ok tt) [record PhaseReady (Some binding)] before_prepare pod binding (Ok tt)
    [EvSave (record PhaseReady (Some binding)) (Ok tt)]).
  vm_compute. reflexivity.
Defined.

Lemma Add_ready_last_witness :
  exists before' b, before_prepare ++ [EvPrepare pod binding (Ok tt)] = before' ++ [EvPrepare pod b (Ok tt)] /\
    deny_first_prefix request b before' /\ "binding-1" = b_UID b /\ 3 = b_Generation b /\ "gateway-1" = b_GatewayUID b.
Proof.
  apply (Add_ready_last plugin request [] (Ok tt) [record PhaseReady (Some binding)]
    (before_prepare ++ [EvPrepare pod binding (Ok tt)]) (record PhaseReady (Some binding)) (Ok tt) []).
  - vm_compute. reflexivity.
  - reflexivity.
Defined.

Lemma Delete_retains_enrollment_witness :
  releases_safely (Request_Key request) "/run/netns/a"
    [EvLoad (Request_Key request) (Ok (record PhaseReady (Some binding)));
     EvResolve pod (Ok (mkResolution "uid-1" true true)); EvIdentity "/run/netns/a" (Ok "4:1");
     EvWithdraw pod (Ok tt); EvCleanup "/run/netns/a" "uid-1" (Ok tt); EvDelete (Request_Key request) (Ok tt)].
Proof.
  apply (Delete_retains_enrollment (Request_Key request) "/run/netns/a" [record PhaseReady (Some binding)] (Ok tt) []).
  vm_compute. reflexivity.
Defined.

Lemma GC_spares_valid_witness :
  exists listed rest,
    [EvList "podnet" (Ok [record PhaseLockedDown None]); EvIdentity "/run/netns/a" (Ok "4:1");
     EvCleanup "/run/netns/a" "uid-1" (Ok tt); EvDelete (Request_Key request) (Ok tt)] = EvList "podnet" listed :: rest /\
    Forall (gc_allowed (match listed with Ok l => l | Fail _ => [] end) ∅) rest.
Proof.
  apply (GC_spares_valid "podnet" ∅ [record PhaseLockedDown None] (Ok tt) []). vm_compute. reflexivity.
Defined.

End TraceSample.
