(* ===== verification/Files.v ===== *)
(** * The file system of a node

    What the attachment store, the installer and the node agent use of [os]: a
    disk whose calls can fail, whose writes can be cut short, and whose process
    can die in any call.  Paths are pairs of a directory and a file name, which
    is what [filepath.Join] of a directory and a base name denotes.  Regular
    files have contents and permission bits; other entries of a directory are
    directories or, like symbolic links, neither; links are not followed.  What
    a call has changed is durable. *)

From Stdlib Require Import Ascii.
From S2P Require Import Prelude.

(** ** The disk *)

Inductive fault :=
| NoFault
| IOError (written : nat)   (** the call fails; a write has stored this many bytes *)
| Crash (written : nat).    (** the process dies in the call *)

Notation path := (string * string)%type (only parsing).

Inductive entry_kind := OtherDirectory | OtherEntry.

#[global] Instance entry_kind_eq_dec : EqDecision entry_kind.
Proof. solve_decision. Defined.

Record FS := mkFS {
  files : gmap path string;
  modes : gmap path Z;
  others : gmap path entry_kind;
  directories : gset string;
  temp_next : nat;
  faults : list fault;
  crashed : bool
}.

Definition set_files (f : gmap path string) (w : FS) : FS :=
  mkFS f (modes w) (others w) (directories w) (temp_next w) (faults w) (crashed w).
Definition set_modes (m : gmap path Z) (w : FS) : FS :=
  mkFS (files w) m (others w) (directories w) (temp_next w) (faults w) (crashed w).
Definition set_others (o : gmap path entry_kind) (w : FS) : FS :=
  mkFS (files w) (modes w) o (directories w) (temp_next w) (faults w) (crashed w).
Definition set_faults (l : list fault) (w : FS) : FS :=
  mkFS (files w) (modes w) (others w) (directories w) (temp_next w) l (crashed w).
Definition set_crashed (w : FS) : FS :=
  mkFS (files w) (modes w) (others w) (directories w) (temp_next w) [] true.

(** The node comes back: the files are what the dead process left. *)
Definition restart (w : FS) : FS :=
  mkFS (files w) (modes w) (others w) (directories w) (temp_next w) [] false.

Definition healthy (w : FS) : Prop := faults w = [] /\ crashed w = false.

Definition io_error : error := ENew "input/output error".
Definition not_exist : error := EWrap "path error" [ESentinel ErrNotExist].
Definition file_exists : error := EWrap "path error" [ESentinel ErrExist].

(** One system call: consume a fault, or act. *)
Definition syscall {A} (partial : nat -> FS -> FS) (act : IO FS A) : IO FS A := fun w =>
  if crashed w then (Fail io_error, w)
  else match faults w with
       | [] => act w
       | NoFault :: rest => act (set_faults rest w)
       | IOError n :: rest => (Fail io_error, partial n (set_faults rest w))
       | Crash n :: _ => (Fail io_error, set_crashed (partial n w))
       end.
Definition untouched (_ : nat) (w : FS) : FS := w.

(** ** The calls *)

Definition os_ReadFile (f : path) : IO FS string :=
  syscall untouched (fun w =>
    match files w !! f, others w !! f with
    | Some d, _ => (Ok d, w)
    | None, Some _ => (Fail (ENew "not a regular file"), w)
    | None, None => (Fail not_exist, w)
    end).

(** [os.Lstat]: the permission bits of a regular file, or none for what is not
    one. *)
Definition os_Lstat (f : path) : IO FS (option Z) :=
  syscall untouched (fun w =>
    match files w !! f, others w !! f with
    | Some _, _ => (Ok (Some (default 0 (modes w !! f))), w)
    | None, Some _ => (Ok None, w)
    | None, None => (Fail not_exist, w)
    end).

Definition os_MkdirAll (dir : string) : IO FS unit :=
  syscall untouched (fun w =>
    (Ok tt, mkFS (files w) (modes w) (others w) ({[dir]} ∪ directories w) (temp_next w) (faults w) (crashed w))).

(** [os.CreateTemp] appends a fresh decimal number to the pattern's prefix;
    distinct numbers are written with distinctly many digits. *)
Fixpoint zeros (n : nat) : string := match n with O => "" | S n' => String "0"%char (zeros n') end.
Definition temp_name (prefix : string) (n : nat) : string := prefix +:+ zeros (S n).

(** A new, empty file. *)
Definition create (f : path) (mode : Z) (w : FS) : FS :=
  set_modes (<[f := mode]> (modes w)) (set_files (<[f := ""]> (files w)) w).

Definition taken (f : path) (w : FS) : bool := bool_decide (is_Some (files w !! f) \/ is_Some (others w !! f)).

Definition os_CreateTemp (dir prefix : string) : IO FS path :=
  syscall untouched (fun w =>
    let f := (dir, temp_name prefix (temp_next w)) in
    let w' := mkFS (files w) (modes w) (others w) (directories w) (S (temp_next w)) (faults w) (crashed w) in
    if decide (dir ∉ directories w) then (Fail not_exist, w)
    else if taken f w then (Fail (ENew "file exists"), w')
    else (Ok f, create f 384 w')).

(** [os.OpenFile] with [O_WRONLY|O_CREATE|O_EXCL]. *)
Definition os_CreateExclusive (f : path) (mode : Z) : IO FS unit :=
  syscall untouched (fun w =>
    if decide (f.1 ∉ directories w) then (Fail not_exist, w)
    else if taken f w then (Fail file_exists, w)
    else (Ok tt, create f mode w)).

Definition file_Chmod (f : path) (mode : Z) : IO FS unit :=
  syscall untouched (fun w => (Ok tt, set_modes (<[f := mode]> (modes w)) w)).
Definition file_Sync (f : path) : IO FS unit := syscall untouched (fun w => (Ok tt, w)).
Definition file_Close (f : path) : IO FS unit := syscall untouched (fun w => (Ok tt, w)).

Definition store_prefix (f : path) (data : string) (n : nat) (w : FS) : FS :=
  set_files (<[f := default "" (files w !! f) +:+ String.substring 0 n data]> (files w)) w.

Definition file_Write (f : path) (data : string) : IO FS unit :=
  syscall (store_prefix f data)
    (fun w => (Ok tt, set_files (<[f := default "" (files w !! f) +:+ data]> (files w)) w)).

(** A rename replaces what is at the target unless that is a directory. *)
Definition os_Rename (from to : path) : IO FS unit :=
  syscall untouched (fun w =>
    match files w !! from with
    | Some d =>
        if decide (others w !! to = Some OtherDirectory) then (Fail (ENew "is a directory"), w)
        else (Ok tt, set_files (<[to := d]> (delete from (files w)))
                      (set_modes (<[to := default 0 (modes w !! from)]> (delete from (modes w)))
                        (set_others (delete to (others w)) w)))
    | None => (Fail not_exist, w)
    end).

(** A directory is taken not to be empty. *)
Definition os_Remove (f : path) : IO FS unit :=
  syscall untouched (fun w =>
    match files w !! f, others w !! f with
    | Some _, _ => (Ok tt, set_modes (delete f (modes w)) (set_files (delete f (files w)) w))
    | None, Some OtherEntry => (Ok tt, set_others (delete f (others w)) w)
    | None, Some OtherDirectory => (Fail (ENew "directory not empty"), w)
    | None, None => (Fail not_exist, w)
    end).

(** [os.ReadDir]: the entries sorted by name, each with whether it is a
    directory. *)
Definition names_in {A} (dir : string) (m : gmap path A) : list (string * A) :=
  map (fun e => (e.1.2, e.2)) (List.filter (fun e => String.eqb e.1.1 dir) (map_to_list m)).

Definition entries_in (dir : string) (w : FS) : list (string * bool) :=
  map (fun e => (e.1, false)) (names_in dir (files w)) ++
  map (fun e => (e.1, match e.2 with OtherDirectory => true | OtherEntry => false end)) (names_in dir (others w)).

Definition os_ReadDir (dir : string) : IO FS (list (string * bool)) :=
  syscall untouched (fun w =>
    if decide (dir ∈ directories w) then (Ok (sort_by fst (entries_in dir w)), w) else (Fail not_exist, w)).

(** [strings.HasSuffix]. *)
Definition HasSuffix (s suffix : string) : bool := String.prefix (string_rev suffix) (string_rev s).

(** [filepath.Ext] of a base name: what its last dot begins, if it has one. *)
Fixpoint rev_ext (l : list ascii) : option (list ascii) :=
  match l with
  | [] => None
  | c :: rest => if Ascii.eqb c "."%char then Some [c] else (fun e => c :: e) <$> rev_ext rest
  end.
Definition Ext (name : string) : string :=
  match rev_ext (rev (String.list_ascii_of_string name)) with
  | Some e => String.string_of_list_ascii (rev e)
  | None => ""
  end.

(** ** Replacing a file as a whole

    A new file with the contents is made next to it, and renamed. *)

(** On failure the temporary file is closed first. *)
Definition or_close (temporary : path) (m : IO FS unit) : IO FS unit :=
  result ← io_try m;
  match result with
  | Ok _ => mret tt
  | Fail err => io_ignore (file_Close temporary) ;; io_fail err
  end.

Definition publish_file (temporary f : path) (mode : Z) (write : path -> IO FS unit) : IO FS unit :=
  or_close temporary (file_Chmod temporary mode) ;;
  or_close temporary (write temporary) ;;
  or_close temporary (file_Sync temporary) ;;
  file_Close temporary ;;
  os_Rename temporary f.

Definition replace_file (prefix : string) (f : path) (mode : Z) (write : path -> IO FS unit) : IO FS unit :=
  temporary ← os_CreateTemp f.1 prefix;
  result ← io_try (publish_file temporary f mode write);
  io_ignore (os_Remove temporary) ;;
  io_lift result.

(** The disk with something around it. *)
Definition on_file {A X} (m : IO FS X) : IO (FS * A) X := fun w => let '(r, d) := m w.1 in (r, (d, w.2)).

(** ** Rules for the calls *)

Definition same_disk (w w' : FS) : Prop :=
  files w' = files w /\ modes w' = modes w /\ others w' = others w /\ directories w' = directories w /\ temp_next w' = temp_next w.

(** What is visible: everything but permission bits and the health of the
    disk. *)
Definition same_names (w w' : FS) : Prop := files w' = files w /\ others w' = others w.

Lemma same_names_refl w : same_names w w.
Proof. done. Qed.
Lemma same_names_trans w1 w2 w3 : same_names w1 w2 -> same_names w2 w3 -> same_names w1 w3.
Proof. intros [E1 E2] [E3 E4]. split; congruence. Qed.

Lemma wp_syscall {A} partial (act : IO FS A) Q w :
  (forall w0, same_disk w w0 -> wp act Q w0) ->
  (forall w1, same_names w w1 \/ (exists n w0, same_disk w w0 /\ same_names (partial n w0) w1) ->
     Q (Fail io_error) w1) ->
  wp (syscall partial act) Q w.
Proof.
  intros Hact Hfail. unfold wp, syscall. destruct (crashed w); cbn; [by apply Hfail; left|].
  destruct (faults w) as [|[|n|n] rest]; cbn.
  - by apply Hact.
  - by apply Hact.
  - apply Hfail. right. by exists n, (set_faults rest w).
  - apply Hfail. right. by exists n, w.
Qed.

(** A call that stores nothing when it fails. *)
Lemma wp_untouched {A} (act : IO FS A) Q w :
  (forall w0, same_disk w w0 -> wp act Q w0) ->
  (forall w1, same_names w w1 -> Q (Fail io_error) w1) ->
  wp (syscall untouched act) Q w.
Proof.
  intros Hact Hfail. apply wp_syscall; [done|].
  intros w1 [Hw|(n & w0 & (Hf & _ & Ho & _) & [Hf' Ho'])]; apply Hfail; [done|]. split; [by rewrite Hf', <- Hf|by rewrite Ho', <- Ho].
Qed.

Lemma wp_noop Q w :
  (forall w1, same_names w w1 -> Q (Ok tt) w1) ->
  (forall w1, same_names w w1 -> Q (Fail io_error) w1) ->
  wp (syscall untouched (fun w => (Ok tt, w))) Q w.
Proof. intros Hok Hfail. apply wp_untouched; [|done]. intros w0 (Hf & _ & Ho & _). by apply Hok. Qed.

Lemma wp_Chmod f mode Q w :
  (forall w1, same_names w w1 -> Q (Ok tt) w1) ->
  (forall w1, same_names w w1 -> Q (Fail io_error) w1) ->
  wp (file_Chmod f mode) Q w.
Proof. intros Hok Hfail. apply wp_untouched; [|done]. intros w0 (Hf & _ & Ho & _). by apply Hok. Qed.

Lemma wp_MkdirAll dir Q w :
  (forall w1, same_names w w1 -> Q (Ok tt) w1) ->
  (forall w1, same_names w w1 -> Q (Fail io_error) w1) ->
  wp (os_MkdirAll dir) Q w.
Proof. intros Hok Hfail. apply wp_untouched; [|done]. intros w0 (Hf & _ & Ho & _). by apply Hok. Qed.

(** Reading changes nothing. *)
Lemma wp_ReadFile f Q w :
  (forall d w1, files w !! f = Some d -> same_names w w1 -> Q (Ok d) w1) ->
  (forall e w1, same_names w w1 -> (errors_is e ErrNotExist = true -> files w !! f = None) -> Q (Fail e) w1) ->
  wp (os_ReadFile f) Q w.
Proof.
  intros Hok Hfail. apply wp_untouched; [|intros; by apply Hfail]. intros w0 (Hf & _ & Ho & _). unfold wp. rewrite Hf, Ho.
  destruct (files w !! f) eqn:E; cbn; [by apply Hok|]. destruct (others w !! f); by apply Hfail.
Qed.

Lemma wp_Lstat f Q w :
  (forall mode w1, same_names w w1 -> Q (Ok mode) w1) ->
  (forall e w1, same_names w w1 -> (errors_is e ErrNotExist = true -> files w !! f = None) -> Q (Fail e) w1) ->
  wp (os_Lstat f) Q w.
Proof.
  intros Hok Hfail. apply wp_untouched; [|intros; by apply Hfail]. intros w0 (Hf & _ & Ho & _). unfold wp. rewrite Hf, Ho.
  destruct (files w !! f) eqn:E; cbn; [by apply Hok|]. destruct (others w !! f); cbn; [by apply Hok|by apply Hfail].
Qed.

Lemma wp_ReadDir dir Q w :
  (forall w1, same_names w w1 -> Q (Ok (sort_by fst (entries_in dir w))) w1) ->
  (forall e w1, same_names w w1 -> (errors_is e ErrNotExist = true -> dir ∉ directories w) -> Q (Fail e) w1) ->
  wp (os_ReadDir dir) Q w.
Proof.
  intros Hok Hfail. apply wp_untouched; [|intros; by apply Hfail]. intros w0 (Hf & _ & Ho & Hd & _). unfold wp, entries_in.
  rewrite Hf, Ho, Hd. destruct (decide _); cbn; [by apply Hok|by apply Hfail].
Qed.

(** A call that only reads keeps what is on the disk. *)
Lemma keeps_read {A} (act : IO FS A) d : (forall w, (act w).2 = w) -> keeps (same_disk d) (syscall untouched act).
Proof.
  intros Hact w Hw. unfold syscall. destruct (crashed w); [done|].
  destruct (faults w) as [|[|n|n] rest]; cbn; rewrite ?Hact; done.
Qed.

Lemma keeps_ReadFile f d : keeps (same_disk d) (os_ReadFile f).
Proof. apply keeps_read. intros w. by repeat case_match. Qed.
Lemma keeps_Lstat f d : keeps (same_disk d) (os_Lstat f).
Proof. apply keeps_read. intros w. by repeat case_match. Qed.
Lemma keeps_ReadDir dir d : keeps (same_disk d) (os_ReadDir dir).
Proof. apply keeps_read. intros w. by case_decide. Qed.

Lemma wp_Write f data Q w :
  (forall w1, files w1 = <[f := default "" (files w !! f) +:+ data]> (files w) -> others w1 = others w -> Q (Ok tt) w1) ->
  (forall w1, files w1 = files w \/ (exists part, files w1 = <[f := part]> (files w)) -> others w1 = others w ->
     Q (Fail io_error) w1) ->
  wp (file_Write f data) Q w.
Proof.
  intros Hok Hfail. apply wp_syscall.
  - intros w0 (Hf & _ & Ho & _). apply Hok; cbn; [by rewrite Hf|done].
  - intros w1 [[Hf Ho]|(n & w0 & (Hf0 & _ & Ho0 & _) & [Hf Ho])]; apply Hfail; [by left|done| |by rewrite Ho].
    right. eexists. rewrite Hf. cbn. by rewrite Hf0.
Qed.

Lemma wp_Rename from to d Q w :
  files w !! from = Some d ->
  (forall w1, files w1 = <[to := d]> (delete from (files w)) -> others w1 = delete to (others w) -> Q (Ok tt) w1) ->
  (forall e w1, same_names w w1 -> Q (Fail e) w1) ->
  wp (os_Rename from to) Q w.
Proof.
  intros Hd Hok Hfail. apply wp_untouched; [|intros; by apply Hfail]. intros w0 (Hf & _ & Ho & _). unfold wp. cbn beta zeta.
  rewrite Hf, Hd, Ho. destruct (decide _); cbn; [by apply Hfail|by apply Hok].
Qed.

Lemma wp_Remove f Q w :
  (forall w1, files w1 = delete f (files w) -> others w1 = others w -> Q (Ok tt) w1) ->
  (files w !! f = None -> forall w1, files w1 = files w -> others w1 = delete f (others w) -> Q (Ok tt) w1) ->
  (forall e w1, same_names w w1 -> Q (Fail e) w1) ->
  wp (os_Remove f) Q w.
Proof.
  intros Hok Hother Hfail. apply wp_untouched; [|intros; by apply Hfail]. intros w0 (Hf & _ & Ho & _). unfold wp. cbn beta zeta.
  rewrite Hf, Ho. destruct (files w !! f) eqn:E; cbn; [by apply Hok|].
  destruct (others w !! f) as [[]|]; cbn; [by apply Hfail|by apply Hother|by apply Hfail].
Qed.

Lemma taken_false f w : taken f w = false <-> files w !! f = None /\ others w !! f = None.
Proof.
  unfold taken. rewrite bool_decide_eq_false, !eq_None_not_Some. tauto.
Qed.

Lemma wp_CreateTemp dir prefix Q w :
  (forall w1 t, files w !! (dir, temp_name prefix t) = None -> others w !! (dir, temp_name prefix t) = None ->
     files w1 = <[(dir, temp_name prefix t) := ""]> (files w) -> others w1 = others w ->
     Q (Ok (dir, temp_name prefix t)) w1) ->
  (forall e w1, same_names w w1 -> Q (Fail e) w1) ->
  wp (os_CreateTemp dir prefix) Q w.
Proof.
  intros Hok Hfail. apply wp_untouched; [|intros; by apply Hfail]. intros w0 (Hf & _ & Ho & _). unfold wp. cbn beta zeta.
  destruct (decide (dir ∉ directories w0)); cbn [fst snd]; [by apply Hfail|].
  destruct (taken _ w0) eqn:E; cbn [fst snd]; [by apply Hfail|]. apply taken_false in E as [E1 E2]. rewrite Hf in E1. rewrite Ho in E2.
  apply Hok; [done|done|cbn; by rewrite Hf|done].
Qed.

Lemma wp_CreateExclusive f mode Q w :
  (forall w1, files w !! f = None -> others w !! f = None -> files w1 = <[f := ""]> (files w) -> others w1 = others w -> Q (Ok tt) w1) ->
  (forall e w1, same_names w w1 -> Q (Fail e) w1) ->
  wp (os_CreateExclusive f mode) Q w.
Proof.
  intros Hok Hfail. apply wp_untouched; [|intros; by apply Hfail]. intros w0 (Hf & _ & Ho & _). unfold wp. cbn beta zeta.
  destruct (decide (f.1 ∉ directories w0)); cbn [fst snd]; [by apply Hfail|].
  destruct (taken _ w0) eqn:E; cbn [fst snd]; [by apply Hfail|]. apply taken_false in E as [E1 E2]. rewrite Hf in E1. rewrite Ho in E2.
  apply Hok; [done|done|cbn; by rewrite Hf|done].
Qed.

Lemma syscall_healthy {A} partial (act : IO FS A) w : healthy w -> syscall partial act w = act w.
Proof. intros (Hf & Hc). unfold syscall. by rewrite Hc, Hf. Qed.

(** *** Replacing a file as a whole

    What [replace_file] does to it and to others. *)

Lemma wp_on_file {A X} (m : IO FS X) Q (w : FS * A) : wp m (fun r d => Q r (d, w.2)) w.1 -> wp (on_file m) Q w.
Proof. unfold wp, on_file. by destruct (m w.1). Qed.

(** One file, whatever else is on the disk. *)
Definition same_file (f : path) (d d' : FS) : Prop := files d' !! f = files d !! f /\ others d' !! f = others d !! f.

Lemma same_file_names f d d1 d2 : same_file f d d1 -> same_names d1 d2 -> same_file f d d2.
Proof. intros [Hf Ho] [Hf' Ho']. unfold same_file. by rewrite Hf', Ho', Hf, Ho. Qed.
Lemma same_file_trans f d d1 d2 : same_file f d d1 -> same_file f d1 d2 -> same_file f d d2.
Proof. intros [Hf Ho] [Hf' Ho']. unfold same_file. by rewrite Hf', Ho', Hf, Ho. Qed.
Lemma names_same_file f d d' : same_names d d' -> same_file f d d'.
Proof. by apply same_file_names. Qed.
Lemma other_file f t d d' v : t <> f -> files d' = <[t := v]> (files d) -> others d' = others d -> same_file f d d'.
Proof. intros Ht Hf Ho. split; [|by rewrite Ho]. rewrite Hf. by apply lookup_insert_ne. Qed.

Lemma wp_or_close f t (m : IO FS unit) (Q : res unit -> FS -> Prop) d d0 :
  wp m (fun r d' => match r with Ok _ => Q (Ok tt) d' | Fail _ => same_file f d0 d' end) d ->
  (forall e d', same_file f d0 d' -> Q (Fail e) d') ->
  wp (or_close t m) Q d.
Proof.
  intros Hm Hfail. unfold or_close. do 2 wp_step. eapply wp_mono; [exact Hm|]. intros [u|e] d1 Hd1; cbn; [done|].
  do 2 wp_step. apply wp_noop; intros d2 Hs; cbn [after]; wp_step; apply Hfail; by eapply same_file_names.
Qed.

Lemma wp_Write_at f t data d :
  t <> f -> wp (file_Write t data) (fun r d' => match r with
    | Ok _ => same_file f d d' /\ files d' !! t = Some (default "" (files d !! t) +:+ data)
    | Fail _ => same_file f d d'
    end) d.
Proof.
  intros Ht. apply wp_Write; intros d' Hf Ho.
  - split; [by eapply other_file|]. rewrite Hf. apply lookup_insert_eq.
  - destruct Hf as [Hf|[part Hf]]; [by apply names_same_file|by eapply other_file].
Qed.

(** What a replacement does to a file [g]: the file itself has the contents that
    are written, all of them, or is untouched; any other that is not a temporary
    one is untouched. *)
Section Replace.
Variables (prefix : string) (f : path) (mode : Z) (write : path -> IO FS unit) (contents : string -> Prop).
Hypothesis write_data : forall t d g, t <> g -> files d !! t = Some "" ->
  wp (write t) (fun r d' => match r with Ok _ => same_file g d d' /\ exists data, files d' !! t = Some data /\ contents data | Fail _ => same_file g d d' end) d.

Definition replaced (g : path) (d : FS) (r : res unit) (d' : FS) : Prop :=
  if decide (g = f) then match r with Ok _ => exists data, files d' !! f = Some data /\ contents data | Fail _ => same_file f d d' end
  else same_file g d d'.

Lemma publish_file_spec t g d :
  t <> g -> t <> f -> files d !! t = Some "" -> wp (publish_file t f mode write) (replaced g d) d.
Proof.
  intros Hg Ht Hd. unfold publish_file.
  assert (forall e d', same_file g d d' -> replaced g d (Fail e) d') as Hfail by (intros; unfold replaced; case_decide; by subst).
  wp_step. apply (wp_or_close g _ _ _ _ d); [|done]. apply wp_Chmod; intros d1 Hs1; [cbn [after]|by apply names_same_file].
  assert (files d1 !! t = Some "") as Hd1 by (destruct Hs1 as [Hf1 _]; by rewrite Hf1). apply (names_same_file g) in Hs1.
  wp_step. apply (wp_or_close g _ _ _ _ d); [|done]. eapply wp_mono; [by apply (write_data t d1 g)|].
  intros [u|e] d2 Hd2; [|by eapply same_file_trans]. destruct Hd2 as (Hs2 & data & Hd2 & Hdata). cbn [after].
  assert (same_file g d d2) as Hs2' by by eapply same_file_trans.
  wp_step. apply (wp_or_close g _ _ _ _ d); [|done]. apply wp_noop; intros d3 Hs3; [cbn [after]|by eapply same_file_names].
  assert (files d3 !! t = Some data) as Hd3 by (destruct Hs3 as [Hf3 _]; by rewrite Hf3). pose proof (same_file_names g _ _ _ Hs2' Hs3) as Hs3'.
  wp_step. apply wp_noop; intros d4 Hs4; cbn [after]; [|by apply Hfail; eapply same_file_names].
  pose proof (same_file_names g _ _ _ Hs3' Hs4) as Hs4'. apply (wp_Rename t f data).
  - destruct Hs4 as [Hf4 _]. by rewrite Hf4.
  - intros d5 Hf5 Ho5. unfold replaced. case_decide as Hgf; [exists data; by rewrite Hf5, lookup_insert_eq|].
    eapply same_file_trans; [exact Hs4'|]. split; [rewrite Hf5, lookup_insert_ne, lookup_delete_ne by congruence; done|].
    rewrite Ho5. apply lookup_delete_ne. congruence.
  - intros e d5 Hs5. apply Hfail. by eapply same_file_names.
Qed.

Lemma replace_file_spec g d :
  HasPrefix f.2 prefix = false -> HasPrefix g.2 prefix = false -> wp (replace_file prefix f mode write) (replaced g d) d.
Proof.
  intros Hf Hg. unfold replace_file. wp_step.
  apply wp_CreateTemp; [intros d1 n Hfr Hfo Hf1 Ho1|intros e d1 Hs]; cbn [after].
  2: { unfold replaced. case_decide; by apply names_same_file. }
  assert (forall x : path, HasPrefix x.2 prefix = false -> (f.1, temp_name prefix n) <> x) as Ht.
  { intros x Hx <-. unfold temp_name, HasPrefix in Hx. cbn [snd] in Hx. by rewrite prefix_app in Hx. }
  assert (same_file g d d1) as Hs1 by (eapply other_file; eauto).
  do 2 wp_step. eapply wp_mono; [apply (publish_file_spec (f.1, temp_name prefix n) g); [auto|auto|by rewrite Hf1, lookup_insert_eq]|].
  intros r d2 Hr. assert (replaced g d r d2) as Hr'.
  { revert Hr. unfold replaced. case_decide as E; [|by apply same_file_trans]. destruct r; [done|]. rewrite <- E. by apply same_file_trans. }
  do 2 wp_step. assert (forall d3, same_file g d2 d3 -> wp (io_lift r) (replaced g d) d3) as Hend.
  { intros d3 Hs3. wp_step. revert Hr'. unfold replaced. case_decide as E; [|intros Hx; by eapply same_file_trans].
    subst g. destruct r; [destruct Hs3 as [-> _]; done|intros Hx; by eapply same_file_trans]. }
  specialize (Ht g Hg).
  apply wp_Remove; [intros d3 Hf3 Ho3|intros _ d3 Hf3 Ho3|intros e d3 [Hf3 Ho3]]; cbn [after]; apply Hend;
    unfold same_file; rewrite Hf3, Ho3; split; (done || by apply lookup_delete_ne).
Qed.

End Replace.

(** *** Directory listings *)

Lemma elem_of_names_in {A} (dir : string) (m : gmap path A) (name : string) x : (name, x) ∈ names_in dir m <-> m !! (dir, name) = Some x.
Proof.
  unfold names_in. rewrite list_elem_of_In, in_map_iff. split.
  - intros ([[dir' name'] x'] & [= <- <-] & Hin). apply filter_In in Hin as [Hin Hdir]. cbn in Hdir. apply String.eqb_eq in Hdir as ->.
    by apply elem_of_map_to_list, list_elem_of_In.
  - intros Hm. exists ((dir, name), x). split; [done|]. apply filter_In. split; [|apply String.eqb_refl].
    by apply list_elem_of_In, elem_of_map_to_list.
Qed.

Lemma elem_of_entries dir w name isdir :
  (name, isdir) ∈ entries_in dir w <->
  (isdir = false /\ is_Some (files w !! (dir, name))) \/
  (exists k, others w !! (dir, name) = Some k /\ isdir = match k with OtherDirectory => true | OtherEntry => false end).
Proof.
  unfold entries_in. rewrite elem_of_app, !list_elem_of_fmap. split.
  - intros [([n x] & [= -> ->] & Hin)|([n x] & [= -> ->] & Hin)]; apply elem_of_names_in in Hin; [left|right]; cbn; eauto.
  - intros [[-> [x Hx]]|(k & Hk & ->)]; [left; exists (name, x)|right; exists (name, k)]; by rewrite elem_of_names_in.
Qed.

(** *** Suffixes and temporary names *)

Lemma list_ascii_app s t :
  String.list_ascii_of_string (s +:+ t) = String.list_ascii_of_string s ++ String.list_ascii_of_string t.
Proof.
  induction s as [|c s IH]; [done|].
  change (String.list_ascii_of_string (String c s +:+ t)) with (c :: String.list_ascii_of_string (s +:+ t)).
  by rewrite IH.
Qed.

Lemma string_of_list_app l l' :
  String.string_of_list_ascii (l ++ l') = String.string_of_list_ascii l +:+ String.string_of_list_ascii l'.
Proof.
  induction l as [|c l IH]; [done|].
  change (String.string_of_list_ascii ((c :: l) ++ l')) with (String c (String.string_of_list_ascii (l ++ l'))).
  by rewrite IH.
Qed.

Lemma string_rev_app s t : string_rev (s +:+ t) = string_rev t +:+ string_rev s.
Proof. unfold string_rev. by rewrite list_ascii_app, rev_app_distr, string_of_list_app. Qed.

Lemma HasSuffix_app s t : HasSuffix (s +:+ t) t = true.
Proof. unfold HasSuffix. rewrite string_rev_app. apply prefix_app. Qed.

Lemma rev_ext_prefix l e : rev_ext l = Some e -> exists rest, l = e ++ rest.
Proof.
  revert e. induction l as [|c l IH]; intros e; cbn; [done|]. destruct (Ascii.eqb c "."%char).
  - intros [= <-]. by exists l.
  - intros (e' & He & ->)%fmap_Some. destruct (IH _ He) as [rest ->]. by exists rest.
Qed.

Lemma Ext_suffix name : HasSuffix name (Ext name) = true.
Proof.
  unfold Ext. destruct (rev_ext _) as [e|] eqn:E; [|by unfold HasSuffix; destruct (string_rev name)].
  apply rev_ext_prefix in E as [rest E].
  assert (name = String.string_of_list_ascii (rev rest) +:+ String.string_of_list_ascii (rev e)) as ->; [|apply HasSuffix_app].
  rewrite <- string_of_list_app, <- rev_app_distr, <- E, rev_involutive. by rewrite String.string_of_list_ascii_of_string.
Qed.

Lemma list_ascii_zeros n : String.list_ascii_of_string (zeros n) = repeat "0"%char n.
Proof. induction n as [|n IH]; cbn; [done|by rewrite IH]. Qed.

Lemma rev_repeat {A} (x : A) n : rev (repeat x n) = repeat x n.
Proof. induction n as [|n IH]; cbn; [done|]. rewrite IH. symmetry. apply repeat_cons. Qed.

(** A temporary name ends in a digit. *)
Lemma temp_name_suffix prefix n suffix c :
  c <> "0"%char -> HasSuffix (temp_name prefix n) (suffix +:+ String c "") = false.
Proof.
  intros Hc. unfold HasSuffix, temp_name. rewrite !string_rev_app.
  assert (string_rev (zeros (S n)) = String "0"%char (zeros n)) as ->.
  { unfold string_rev. rewrite list_ascii_zeros, rev_repeat, <- list_ascii_zeros. apply String.string_of_list_ascii_of_string. }
  change (String.prefix (String c (string_rev suffix)) (String "0"%char (zeros n +:+ string_rev prefix)) = false).
  cbn [String.prefix]. by destruct (ascii_dec c "0"%char).
Qed.

Lemma zeros_inj n n' : zeros n = zeros n' -> n = n'.
Proof. revert n'. induction n as [|n IH]; intros [|n']; try done. intros [= Heq]. by rewrite (IH n'). Qed.

Lemma temp_name_inj prefix n n' : temp_name prefix n = temp_name prefix n' -> n = n'.
Proof.
  unfold temp_name. intros Heq. apply eq_add_S, zeros_inj. apply (f_equal String.list_ascii_of_string) in Heq.
  rewrite !list_ascii_app in Heq. apply app_inv_head in Heq.
  apply (f_equal String.string_of_list_ascii) in Heq. by rewrite !String.string_of_list_ascii_of_string in Heq.
Qed.
