(* ===== verification/CniStore.v ===== *)
(** * The durable attachment store (internal/cni/store.go)

    [FileStore] keeps one JSON file per attachment under a digest of its key
    and replaces it by writing a temporary file and renaming it, on the disk of
    Files.v.

    [encoding/json] enters through [Marshal] and [Unmarshal]; that decoding
    inverts encoding is the only fact used of it, and only for attachments
    that encode. *)

From Stdlib Require Import Ascii.
From S2P Require Import Prelude Sha256 CniTypes Files.

(** ** The store *)

Definition temp_prefix : string := ".waycloak-attachment-".
Definition nul : string := byte_string [0].

Definition record_preimage (key : Key) : string :=
  k_Network key +:+ nul +:+ k_ContainerID key +:+ nul +:+ k_IfName key.

Definition record_name (key : Key) : string :=
  EncodeToString (Sum256 (bytes_of_string (record_preimage key))) +:+ ".json".

Section FileStore.
Variable Marshal : Attachment -> res string.
Variable Unmarshal : string -> res Attachment.
Variable Directory : string.

Definition record_path (key : Key) : path := (Directory, record_name key).

Definition FileStore_Load (key : Key) : IO FS Attachment :=
  io_lift (of_error (Key_Validate key)) ;;
  data ← os_ReadFile (record_path key);
  attachment ← io_wrap "decode attachment state" (io_lift (Unmarshal data));
  io_wrap "validate attachment state" (io_lift (of_error (Attachment_Validate attachment))) ;;
  if negb (bool_decide (Attachment_Key attachment = key))
  then io_fail (ENew "attachment state key does not match its filename")
  else mret attachment.

(** Everything between creating the temporary file and its deferred removal. *)
Definition Save_publish (temporary : path) (data : string) (key : Key) : IO FS unit :=
  chmod ← io_try (file_Chmod temporary 384);
  match chmod with
  | Fail err => io_ignore (file_Close temporary) ;; io_fail err
  | Ok _ =>
      written ← io_try (file_Write temporary data);
      match written with
      | Fail err => io_ignore (file_Close temporary) ;; io_fail err
      | Ok _ =>
          synced ← io_try (file_Sync temporary);
          match synced with
          | Fail err => io_ignore (file_Close temporary) ;; io_fail err
          | Ok _ =>
              file_Close temporary ;;
              io_wrap "publish attachment state" (os_Rename temporary (record_path key))
          end
      end
  end.

Definition FileStore_Save (attachment : Attachment) : IO FS unit :=
  io_lift (of_error (Attachment_Validate attachment)) ;;
  io_wrap "create CNI state directory" (os_MkdirAll Directory) ;;
  data ← io_wrap "encode attachment state" (io_lift (Marshal attachment));
  temporary ← io_wrap "create temporary attachment state" (os_CreateTemp Directory temp_prefix);
  result ← io_try (Save_publish temporary data (Attachment_Key attachment));
  io_ignore (os_Remove temporary) ;;
  io_lift result.

Definition FileStore_Delete (key : Key) : IO FS unit :=
  io_lift (of_error (Key_Validate key)) ;;
  removed ← io_try (os_Remove (record_path key));
  match removed with
  | Fail err => if errors_is err ErrNotExist then mret tt else io_fail err
  | Ok _ => mret tt
  end.

(** The loop over directory entries; [keep] is List's test on the network. *)
Fixpoint read_records (keep : Attachment -> bool) (entries : list (string * bool)) : IO FS (list Attachment) :=
  match entries with
  | [] => mret []
  | (entry, isDir) :: rest =>
      if isDir || negb (HasSuffix entry ".json") then read_records keep rest
      else
        data ← os_ReadFile (Directory, entry);
        attachment ← io_wrap "decode attachment state" (io_lift (Unmarshal data));
        io_wrap "validate attachment state" (io_lift (of_error (Attachment_Validate attachment))) ;;
        others ← read_records keep rest;
        mret (if keep attachment then attachment :: others else others)
  end.

Definition list_records (keep : Attachment -> bool) : IO FS (list Attachment) :=
  entries ← io_try (os_ReadDir Directory);
  match entries with
  | Fail err => if errors_is err ErrNotExist then mret [] else io_fail err
  | Ok names => read_records keep names
  end.

Definition FileStore_List (network : string) : IO FS (list Attachment) :=
  if str_empty network then io_fail (ENew "CNI network name is required")
  else list_records (fun attachment => String.eqb (a_Network attachment) network).

Definition FileStore_ListAll : IO FS (list Attachment) := list_records (fun _ => true).

End FileStore.

(** *** Reading the store *)

Section Reading.
Variable Unmarshal : string -> res Attachment.
Variable Directory : string.

Lemma Load_reads key d : keeps (same_disk d) (FileStore_Load Unmarshal Directory key).
Proof. unfold FileStore_Load. keeps_down; apply keeps_ReadFile. Qed.

Lemma read_records_reads keep entries d : keeps (same_disk d) (read_records Unmarshal Directory keep entries).
Proof.
  induction entries as [|[entry isDir] rest IH]; cbn [read_records]; keeps_down; first [exact IH|apply keeps_ReadFile].
Qed.

Lemma List_reads network d : keeps (same_disk d) (FileStore_List Unmarshal Directory network).
Proof. unfold FileStore_List, list_records. keeps_down; first [apply keeps_ReadDir|apply read_records_reads]. Qed.

Lemma ListAll_reads d : keeps (same_disk d) (FileStore_ListAll Unmarshal Directory).
Proof. unfold FileStore_ListAll, list_records. keeps_down; first [apply keeps_ReadDir|apply read_records_reads]. Qed.

(** A record of the disk that decodes. *)
Definition on_record (w : FS) (a : Attachment) : Prop :=
  exists name data, Directory ∈ directories w /\ HasSuffix name ".json" = true /\
    files w !! (Directory, name) = Some data /\ Unmarshal data = Ok a.

(** A listing that succeeds is complete, and all it lists is valid. *)
Lemma read_records_complete keep entries w :
  wp (read_records Unmarshal Directory keep entries)
    (fun r w' => forall l, r = Ok l -> forall name data a, (name, false) ∈ entries -> HasSuffix name ".json" = true ->
       files w !! (Directory, name) = Some data -> Unmarshal data = Ok a -> Attachment_Validate a = None /\ (keep a = true -> a ∈ l)) w.
Proof.
  revert w. induction entries as [|[entry isDir] rest IH]; intros w; cbn [read_records].
  { wp_step. intros l _ name data a Hin. by apply not_elem_of_nil in Hin. }
  destruct (isDir || negb (HasSuffix entry ".json")) eqn:Eskip.
  { wp_with IH. intros r w' Hr l -> name data a Hin Hs. apply (Hr l eq_refl name data a); [|done].
    apply elem_of_cons in Hin as [[= <- <-]|]; [|done]. by rewrite Hs in Eskip. }
  wp_step. apply wp_ReadFile; intros; cbn [after]; [|done]. match goal with Hn : same_names w _ |- _ => destruct Hn as [Hf _] end.
  destruct (Unmarshal d) as [read|] eqn:Eu; [|done]. do 3 wp_step. cbn [after].
  destruct (Attachment_Validate read) eqn:Ev; [done|]. do 3 wp_step. cbn [after of_error]. wp_step. wp_with IH.
  intros [others|] w' Hr; cbn [after]; [|done]. wp_step. intros l [= <-] name data a Hin Hs Hdata Hu.
  apply elem_of_cons in Hin as [[= <- <-]|Hin].
  - assert (d = data) as -> by congruence. assert (read = a) as -> by congruence. split; [done|]. intros ->. by left.
  - rewrite <- Hf in Hdata. destruct (Hr others eq_refl name data a Hin Hs Hdata Hu) as [Hv Hk]. split; [done|].
    intros Hkeep. destruct (keep read); [right|]; by apply Hk.
Qed.

Lemma list_records_complete keep w :
  wp (list_records Unmarshal Directory keep)
    (fun r w' => forall l, r = Ok l -> forall a, on_record w a -> Attachment_Validate a = None /\ (keep a = true -> a ∈ l)) w.
Proof.
  unfold list_records. do 2 wp_step. apply wp_ReadDir.
  - intros w1 [Hf _]. wp_with read_records_complete. intros r w2 Hr l -> a (name & data & _ & Hs & Hdata & Hu).
    apply (Hr l eq_refl name data); [|done|by rewrite Hf|done]. rewrite sort_by_perm. apply elem_of_entries. left. by rewrite Hdata.
  - intros e w1 _ He. destruct (errors_is e ErrNotExist); wp_step; [|done]. intros l [= <-] a (name & data & Hd & _). by destruct (He eq_refl).
Qed.

(** No record: the file is not there. *)
Lemma Load_absent key w :
  (forall data e, Unmarshal data = Fail e -> errors_is e ErrNotExist = false) ->
  wp (FileStore_Load Unmarshal Directory key)
    (fun r w' => forall e, r = Fail e -> errors_is e ErrNotExist = true -> files w !! record_path Directory key = None) w.
Proof.
  intros Hjson. unfold FileStore_Load, Key_Validate. destruct (_ || _); [by intros e [= <-]|]. wp_step. wp_step. cbn [after of_error].
  wp_step. apply wp_ReadFile; intros; cbn [after]; [|match goal with He : errors_is _ _ = true -> _ |- _ => by intros ? [= <-] ?; apply He end].
  destruct (Unmarshal d) as [a|e] eqn:Eu; [|intros ? [= <-]; cbn; by rewrite (Hjson _ _ Eu)]. do 3 wp_step. cbn [after].
  unfold Attachment_Validate, PodIdentity_Validate.
  repeat (match goal with |- context [if ?b then _ else _] => destruct b end; try by intros ? [= <-]).
Qed.

End Reading.

(** *** Temporary names never collide with record names *)

Lemma record_name_suffix key : HasSuffix (record_name key) ".json" = true.
Proof. apply HasSuffix_app. Qed.

Lemma temp_not_json n : HasSuffix (temp_name temp_prefix n) ".json" = false.
Proof. by apply (temp_name_suffix temp_prefix n ".jso"). Qed.

Lemma temp_not_record n key : temp_name temp_prefix n <> record_name key.
Proof. intros Heq. pose proof (temp_not_json n) as Ht. by rewrite Heq, record_name_suffix in Ht. Qed.

Section FileStoreFacts.
Variable Marshal : Attachment -> res string.
Variable Unmarshal : string -> res Attachment.
Variable Directory : string.

Notation record_path := (record_path Directory).
Notation Load := (FileStore_Load Unmarshal Directory).
Notation Save := (FileStore_Save Marshal Directory).
Notation Delete := (FileStore_Delete Directory).

(** What the store's files are under its record names. *)
Definition content (w : FS) (key : Key) : option string := files w !! record_path key.

(** The disk during [Save]: the files of before plus the temporary file. *)
Definition with_temp (before : gmap path string) (t : nat) (data : string) (w : FS) : Prop :=
  files w = <[(Directory, temp_name temp_prefix t) := data]> before.

Lemma with_temp_content before t data w key :
  with_temp before t data w -> content w key = before !! record_path key.
Proof.
  unfold with_temp, content. intros ->. rewrite lookup_insert_ne; [done|].
  intros [= Heq]. by apply temp_not_record in Heq.
Qed.

(** The disk at the end of the publishing steps. *)
Definition published (before : gmap path string) (t : nat) (data : string) (key : Key) (r : res unit) (w : FS) : Prop :=
  match r with
  | Ok _ => files w = <[record_path key := data]> (delete (Directory, temp_name temp_prefix t) before)
  | Fail _ => exists partial, with_temp before t partial w
  end.

Lemma close_keeps before t data w e :
  with_temp before t data w ->
  wp (io_ignore (file_Close (Directory, temp_name temp_prefix t)) ;; io_fail (A := unit) e)
    (fun r w' => r = Fail e /\ with_temp before t data w') w.
Proof.
  intros Hw. do 2 wp_step.
  apply wp_noop; intros w1 [Hf _]; cbn [after]; wp_step; (split; [done|]); unfold with_temp in *; by rewrite Hf.
Qed.

Lemma Save_publish_spec before t data key w :
  with_temp before t "" w ->
  wp (Save_publish Directory (Directory, temp_name temp_prefix t) data key) (published before t data key) w.
Proof.
  unfold Save_publish, with_temp. intros Hw. do 2 wp_step. apply wp_Chmod; intros w1 [Hf1 _]; cbn beta iota.
  2: { eapply wp_mono; [apply (close_keeps before t ""); unfold with_temp; congruence|]. intros ? w' [-> Ht]. by eexists. }
  do 2 wp_step. apply wp_Write; intros w2 Hf2 _; cbn beta iota.
  2: { assert (exists part, with_temp before t part w2) as [part Hp].
       { unfold with_temp. destruct Hf2 as [Hf2|[part Hf2]]; [exists ""; congruence|].
         exists part. by rewrite Hf2, Hf1, Hw, insert_insert_eq. }
       eapply wp_mono; [by apply (close_keeps before t part)|]. intros ? w' [-> Ht]. by eexists. }
  rewrite Hf1, Hw, lookup_insert_eq, insert_insert_eq in Hf2.
  change (default "" (Some "") +:+ data) with data in Hf2.
  do 2 wp_step. apply wp_noop; intros w3 [Hf3 _]; cbn beta iota.
  2: { eapply wp_mono; [apply (close_keeps before t data); unfold with_temp; by rewrite Hf3|]. intros ? w' [-> Ht]. by eexists. }
  wp_step. apply wp_noop; intros w4 [Hf4 _]; cbn [after]; [|exists data; unfold with_temp; by rewrite Hf4, Hf3].
  wp_step. apply wp_Rename with data; [rewrite Hf4, Hf3, Hf2; apply lookup_insert_eq|intros w5 Hf5 _|intros e w5 [Hf5 _]]; cbn [after].
  - unfold published. by rewrite Hf5, Hf4, Hf3, Hf2, delete_insert_eq.
  - exists data. unfold with_temp. by rewrite Hf5, Hf4, Hf3.
Qed.

(** What [Save] does to the disk, whatever fails. *)
Definition saved (before : gmap path string) (key : Key) (data : res string) (r : res unit) (w : FS) : Prop :=
  match r with
  | Ok _ => exists d, data = Ok d /\ files w !! record_path key = Some d
  | Fail _ => True
  end /\
  forall name, HasSuffix name ".json" = true ->
    files w !! (Directory, name) = before !! (Directory, name) \/
    (name = record_name key /\ exists d, data = Ok d /\ files w !! (Directory, name) = Some d).

Lemma json_not_temp name t : HasSuffix name ".json" = true -> (Directory, temp_name temp_prefix t) <> (Directory, name).
Proof. intros Hs [= Heq]. by rewrite <- Heq, temp_not_json in Hs. Qed.

Lemma published_saved before t d key r w w' :
  before !! (Directory, temp_name temp_prefix t) = None ->
  published before t d key r w ->
  files w' = files w \/ files w' = delete (Directory, temp_name temp_prefix t) (files w) ->
  saved before key (Ok d) r w'.
Proof.
  intros Hfresh Hpub Hw'. assert (forall name, HasSuffix name ".json" = true ->
    files w' !! (Directory, name) = files w !! (Directory, name)) as Heq.
  { intros name Hs. destruct Hw' as [->| ->]; [done|]. by rewrite lookup_delete_ne by by apply json_not_temp. }
  assert (forall name, HasSuffix name ".json" = true -> forall m : gmap path string,
    delete (Directory, temp_name temp_prefix t) m !! (Directory, name) = m !! (Directory, name)) as Hdel.
  { intros name Hs m. by rewrite lookup_delete_ne by by apply json_not_temp. }
  unfold saved. destruct r as [u|e]; cbn in Hpub.
  - split.
    + exists d. split; [done|]. change (record_path key) with (Directory, record_name key).
      rewrite Heq by apply record_name_suffix. rewrite Hpub. apply lookup_insert_eq.
    + intros name Hs. rewrite Heq, Hpub by done.
      destruct (decide (record_name key = name)) as [<-|Hne].
      * right. split; [done|]. exists d. split; [done|]. apply lookup_insert_eq.
      * left. rewrite lookup_insert_ne by (intros [= ?]; done). by apply Hdel.
  - split; [done|]. intros name Hs. left. destruct Hpub as [part Hpub]. unfold with_temp in Hpub.
    rewrite Heq, Hpub by done. by rewrite lookup_insert_ne by by apply json_not_temp.
Qed.

Lemma saved_unchanged before key data e w : files w = before -> saved before key data (Fail e) w.
Proof. intros <-. split; [done|]. intros name _. by left. Qed.

Lemma Save_saved attachment w :
  wp (Save attachment) (saved (files w) (Attachment_Key attachment) (Marshal attachment)) w.
Proof.
  unfold FileStore_Save. do 2 wp_step. destruct (of_error _); cbn [after]; [|by apply saved_unchanged].
  do 2 wp_step. apply wp_MkdirAll; intros w0 [Hf0 _]; cbn [after]; [|by apply saved_unchanged].
  do 3 wp_step. destruct (Marshal attachment) as [d|e]; cbn [after]; [|by apply saved_unchanged].
  do 2 wp_step. apply wp_CreateTemp; [|intros e w1 [Hf _]; apply saved_unchanged; congruence].
  intros w1 t Hfresh _ Hf1 _. rewrite Hf0 in Hfresh, Hf1. cbn [after]. do 2 wp_step.
  eapply wp_mono; [by apply (Save_publish_spec (files w) t d)|].
  intros r w2 Hpub. do 2 wp_step.
  apply wp_Remove; [intros w3 Hf3 _|intros _ w3 Hf3 _|intros e3 w3 [Hf3 _]]; cbn [after]; wp_step; eapply published_saved; eauto.
Qed.

(** C36: Saving is atomic and crash safe.  Whatever system call of [Save]
    fails or kills the process, every record file holds either exactly what it
    held before or, for the saved attachment's own key, the complete new
    record; after a reported success it holds the new record.  Records of
    other keys and files being written are never visible as records. *)
Theorem Save_crash_safe attachment w :
  wp (Save attachment)
    (fun r w' =>
       (r = Ok tt -> exists d, Marshal attachment = Ok d /\ content (restart w') (Attachment_Key attachment) = Some d) /\
       forall name, HasSuffix name ".json" = true ->
         files (restart w') !! (Directory, name) = files w !! (Directory, name) \/
         (name = record_name (Attachment_Key attachment) /\
          exists d, Marshal attachment = Ok d /\ files (restart w') !! (Directory, name) = Some d)) w.
Proof. eapply wp_mono; [apply Save_saved|]. intros r w' [Hok Hall]. split; [by intros ->|done]. Qed.

End FileStoreFacts.

(** ** The store refines a finite map

    Against a healthy disk the four operations behave as operations of a
    finite map from keys to attachments, for any set of keys whose digests do
    not collide. *)

Section Refinement.
Variable Marshal : Attachment -> res string.
Variable Unmarshal : string -> res Attachment.
Variable Directory : string.
Hypothesis unmarshal_marshal : forall a d, Marshal a = Ok d -> Unmarshal d = Ok a.

Definition collision_free (keys : gset Key) : Prop :=
  forall k k', k ∈ keys -> k' ∈ keys -> record_name k = record_name k' -> k = k'.

(** The disk works, the names of coming temporary files are free, and nothing
    but regular files is in the directory. *)
Definition writable (w : FS) : Prop :=
  healthy w /\ (forall name, others w !! (Directory, name) = None) /\
  forall n, (temp_next w <= n)%nat -> files w !! (Directory, temp_name temp_prefix n) = None.

(** The attachment is stored, complete and valid, under its key. *)
Definition stored_as (w : FS) (k : Key) (a : Attachment) : Prop :=
  Attachment_Key a = k /\ Attachment_Validate a = None /\
  exists d, Marshal a = Ok d /\ files w !! record_path Directory k = Some d.

Record represents (w : FS) (m : gmap Key Attachment) : Prop := {
  rep_writable : writable w;
  rep_directory : ~ (Directory ∈ directories w) -> m = ∅;
  rep_stored k a : m !! k = Some a -> stored_as w k a;
  rep_complete name d : HasSuffix name ".json" = true -> files w !! (Directory, name) = Some d ->
    exists k a, m !! k = Some a /\ name = record_name k
}.

Lemma rep_lookup w m keys k :
  represents w m -> dom m ⊆ keys -> collision_free keys -> k ∈ keys ->
  match m !! k with
  | Some a => stored_as w k a
  | None => files w !! record_path Directory k = None
  end.
Proof.
  intros Hrep Hdom Hcf Hk. destruct (m !! k) as [a|] eqn:E; [by apply (rep_stored _ _ Hrep)|].
  destruct (files w !! record_path Directory k) as [d|] eqn:Ef; [exfalso|done].
  destruct (rep_complete _ _ Hrep (record_name k) d (record_name_suffix k) Ef) as (k' & a & Hk' & Hn).
  assert (k = k') as ->; [|congruence]. apply Hcf; [done| |done]. apply Hdom. by apply elem_of_dom_2 in Hk'.
Qed.

Lemma Load_run w m keys k :
  represents w m -> dom m ⊆ keys -> collision_free keys -> k ∈ keys -> Key_Validate k = None ->
  FileStore_Load Unmarshal Directory k w =
    (match m !! k with Some a => Ok a | None => Fail not_exist end, w).
Proof.
  intros Hrep Hdom Hcf Hk Hv. pose proof (rep_lookup _ _ _ _ Hrep Hdom Hcf Hk) as Hl.
  unfold FileStore_Load, mbind, io_bind, io_lift, io_wrap, os_ReadFile. rewrite Hv. cbn [of_error].
  rewrite syscall_healthy by apply (rep_writable _ _ Hrep).
  pose proof (proj1 (proj2 (rep_writable _ _ Hrep)) (record_name k)) as Ho. fold (record_path Directory k) in Ho.
  destruct (m !! k) as [a|]; [|by rewrite Hl, Ho].
  destruct Hl as (Hka & Hva & d & Hd & ->). rewrite (unmarshal_marshal _ _ Hd), Hva. cbn [of_error].
  by rewrite bool_decide_true by done.
Qed.

Lemma Delete_run w m keys k :
  represents w m -> dom m ⊆ keys -> collision_free keys -> k ∈ keys -> Key_Validate k = None ->
  exists w', FileStore_Delete Directory k w = (Ok tt, w') /\ represents w' (delete k m).
Proof.
  intros Hrep Hdom Hcf Hk Hv. pose proof (rep_lookup _ _ _ _ Hrep Hdom Hcf Hk) as Hl.
  unfold FileStore_Delete, mbind, io_bind, io_lift, io_try, os_Remove. rewrite Hv. cbn [of_error].
  rewrite syscall_healthy by apply (rep_writable _ _ Hrep).
  pose proof (proj1 (proj2 (rep_writable _ _ Hrep)) (record_name k)) as Ho. fold (record_path Directory k) in Ho.
  destruct (m !! k) as [a|] eqn:E.
  2: { rewrite Hl, Ho. exists w. split; [done|]. by rewrite delete_id by done. }
  destruct Hl as (Hka & Hva & d & Hd & Hfile). rewrite Hfile. eexists. split; [reflexivity|].
  destruct Hrep as [(Hh & Hot & Hfresh) Hdir Hst Hcomp]. split; cbn.
  - split_and!; [done|done|]. intros n Hn. cbn. rewrite lookup_delete_None. right. auto.
  - intros Hnd. rewrite (Hdir Hnd). apply delete_empty.
  - intros k' a' Hk'. apply lookup_delete_Some in Hk' as [Hne Hk'].
    destruct (Hst k' a' Hk') as (H1 & H2 & d' & H3 & H4). split_and!; [done|done|]. exists d'. split; [done|].
    cbn. rewrite lookup_delete_ne; [done|]. intros [= Heq]. apply Hne.
    apply Hcf; [done| |done]. apply Hdom. by apply elem_of_dom_2 in Hk'.
  - intros name d' Hs Hname. apply lookup_delete_Some in Hname as [Hne Hname].
    destruct (Hcomp _ _ Hs Hname) as (k' & a' & Hk' & ->). exists k', a'. split; [|done].
    apply lookup_delete_Some. split; [|done]. intros ->. by apply Hne.
Qed.

(** A save against a healthy disk: the record appears, the temporary file is
    gone. *)
Lemma Save_healthy w a d :
  writable w -> Attachment_Validate a = None -> Marshal a = Ok d ->
  FileStore_Save Marshal Directory a w =
    (Ok tt, mkFS (<[record_path Directory (Attachment_Key a) := d]> (files w))
              (<[record_path Directory (Attachment_Key a) := 384]> (delete (Directory, temp_name temp_prefix (temp_next w)) (modes w)))
              (others w) ({[Directory]} ∪ directories w) (S (temp_next w)) [] false).
Proof.
  intros ((Hf & Hc) & Hot & Hfresh) Hv Hm. destruct w as [fl md ot dr tn flt cr]. cbn in *. subst flt cr.
  specialize (Hfresh tn (le_n tn)). pose proof (Hot (temp_name temp_prefix tn)) as Hott. pose proof (Hot (record_name (Attachment_Key a))) as Hotr.
  fold (record_path Directory (Attachment_Key a)) in Hotr. set (t := (Directory, temp_name temp_prefix tn)) in *.
  assert (t <> record_path Directory (Attachment_Key a)) as Hne.
  { intros [= Heq]. by apply temp_not_record in Heq. }
  set (w1 := mkFS fl md ot ({[Directory]} ∪ dr) tn [] false).
  assert (os_CreateTemp Directory temp_prefix w1 =
    (Ok t, mkFS (<[t := ""]> fl) (<[t := 384]> md) ot ({[Directory]} ∪ dr) (S tn) [] false)) as Htemp.
  { unfold os_CreateTemp, syscall, w1. cbn [crashed faults directories temp_next]. destruct (decide _) as [Hd|_]; [set_solver|].
    assert (taken t w1 = false) as Ht by by apply taken_false.
    unfold w1 in Ht. change (Directory, temp_name temp_prefix tn) with t. by rewrite Ht. }
  unfold FileStore_Save. rewrite Hv. erewrite bind_run by reflexivity.
  erewrite bind_run by (apply wrap_run; reflexivity). rewrite Hm. erewrite bind_run by reflexivity.
  erewrite bind_run by (apply wrap_run; exact Htemp).
  assert (Save_publish Directory t d (Attachment_Key a) (mkFS (<[t := ""]> fl) (<[t := 384]> md) ot ({[Directory]} ∪ dr) (S tn) [] false) =
    (Ok tt, mkFS (<[record_path Directory (Attachment_Key a) := d]> fl) (<[record_path Directory (Attachment_Key a) := 384]> (delete t md))
              ot ({[Directory]} ∪ dr) (S tn) [] false)) as Hpub.
  { unfold Save_publish. erewrite bind_run by (apply try_run; reflexivity). cbn beta iota.
    erewrite bind_run by (apply try_run; reflexivity). cbn beta iota.
    erewrite bind_run by (apply try_run; reflexivity). cbn beta iota. erewrite bind_run by reflexivity.
    apply wrap_run. unfold os_Rename, syscall. cbn [crashed faults set_files set_modes files modes others directories temp_next].
    rewrite !lookup_insert_eq, Hotr. destruct (decide _) as [Hd|_]; [done|].
    unfold set_files, set_modes, set_others. cbn [crashed faults files modes others directories temp_next default from_option id].
    by rewrite !insert_insert_eq, !delete_insert_eq, (delete_id fl t), (delete_id ot). }
  erewrite bind_run by (apply try_run; exact Hpub). cbn beta iota.
  erewrite bind_run; [reflexivity|]. unfold io_ignore, os_Remove, syscall. cbn [crashed faults files others].
  by rewrite (lookup_insert_ne _ _ t), Hfresh, Hott by done.
Qed.

Lemma Save_run w m keys a d :
  represents w m -> dom m ⊆ keys -> collision_free keys -> Attachment_Key a ∈ keys ->
  Attachment_Validate a = None -> Marshal a = Ok d ->
  exists w', FileStore_Save Marshal Directory a w = (Ok tt, w') /\
    represents w' (<[Attachment_Key a := a]> m).
Proof.
  intros Hrep Hdom Hcf Hk Hv Hm. destruct Hrep as [Hh Hdir Hst Hcomp].
  eexists. split; [by apply Save_healthy|]. destruct Hh as (Hh & Hot & Hfresh). split; cbn.
  - split_and!; [done|done|]. cbn. intros n Hn. rewrite lookup_insert_ne; [apply Hfresh; lia|].
    intros [= Heq]. by apply eq_sym, temp_not_record in Heq.
  - set_solver.
  - intros k a' Hk'. apply lookup_insert_Some in Hk' as [[<- <-]|[Hne Hk']].
    + split_and!; [done|done|]. exists d. split; [done|]. apply lookup_insert_eq.
    + destruct (Hst k a' Hk') as (H1 & H2 & d' & H3 & H4). split_and!; [done|done|]. exists d'. split; [done|].
      cbn. rewrite lookup_insert_ne; [done|]. intros [= Heq]. apply Hne.
      apply Hcf; [done| |done]. apply Hdom. by apply elem_of_dom_2 in Hk'.
  - intros name d' Hs Hname. apply lookup_insert_Some in Hname as [[[= <-] <-]|[Hne Hname]].
    + exists (Attachment_Key a), a. split; [apply lookup_insert_eq|done].
    + destruct (Hcomp _ _ Hs Hname) as (k' & a' & Hk' & ->).
      destruct (decide (Attachment_Key a = k')) as [<-|Hnk]; [by destruct Hne|].
      exists k', a'. split; [by rewrite lookup_insert_ne|done].
Qed.

Lemma read_records_run keep w m names :
  represents w m ->
  (forall name isDir, (name, isDir) ∈ names -> isDir = false /\ is_Some (files w !! (Directory, name))) ->
  exists l, read_records Unmarshal Directory keep names w = (Ok l, w) /\
    forall a, a ∈ l <-> exists k, m !! k = Some a /\ (record_name k, false) ∈ names /\ keep a = true.
Proof.
  intros Hrep. induction names as [|[name isDir] names IH]; intros Hnames; cbn [read_records].
  { exists []. split; [done|]. set_solver. }
  destruct IH as (l & El & Hl); [intros; apply Hnames; set_solver|].
  destruct (Hnames name isDir) as [-> [d Hd]]; [set_solver|]. cbn [orb].
  destruct (HasSuffix name ".json") eqn:Hs; cbn [negb].
  2: { exists l. split; [done|]. intros a. rewrite Hl. split; intros (k & H1 & H2 & H3); exists k.
       - split_and!; [done|set_solver|done].
       - split_and!; [done| |done]. apply elem_of_cons in H2 as [[= <-]|H2]; [|done].
         by rewrite record_name_suffix in Hs. }
  destruct (rep_complete _ _ Hrep _ _ Hs Hd) as (k & a & Hk & ->).
  destruct (rep_stored _ _ Hrep _ _ Hk) as (Hka & Hva & d' & Hm & Hd').
  assert (Some d = Some d') as [= <-] by exact (eq_trans (eq_sym Hd) Hd').
  unfold mbind, io_bind, os_ReadFile. rewrite syscall_healthy by apply (rep_writable _ _ Hrep).
  rewrite Hd. unfold io_wrap, io_lift. rewrite (unmarshal_marshal _ _ Hm), Hva. cbn [of_error]. rewrite El.
  eexists. split; [reflexivity|]. intros a'.
  assert (forall k' a', m !! k' = Some a' -> record_name k' = record_name k -> a' = a) as Huniq.
  { intros k' a'' Hk' Hn. destruct (rep_stored _ _ Hrep _ _ Hk') as (_ & _ & d1 & Hm' & Hd1).
    unfold record_path in Hd1. rewrite Hn, Hd in Hd1. injection Hd1 as <-.
    apply unmarshal_marshal in Hm, Hm'. congruence. }
  destruct (keep a) eqn:Ek; rewrite ?elem_of_cons, Hl; split.
  - intros [->|(k' & H1 & H2 & H3)]; [exists k|exists k']; split_and!; try done; set_solver.
  - intros (k' & H1 & H2 & H3). apply elem_of_cons in H2 as [[= H2]|H2]; [left; by eapply Huniq|right; eauto].
  - intros (k' & H1 & H2 & H3). exists k'. split_and!; try done. set_solver.
  - intros (k' & H1 & H2 & H3). apply elem_of_cons in H2 as [[= H2]|H2]; [|eauto].
    assert (a' = a) as -> by by eapply Huniq. congruence.
Qed.

Lemma List_run w m network :
  represents w m -> network <> "" ->
  exists l, FileStore_List Unmarshal Directory network w = (Ok l, w) /\
    forall a, a ∈ l <-> exists k, m !! k = Some a /\ a_Network a = network.
Proof.
  intros Hrep Hn. unfold FileStore_List, list_records. apply String.eqb_neq in Hn. unfold str_empty. rewrite Hn.
  unfold mbind, io_bind, io_try, os_ReadDir. rewrite syscall_healthy by apply (rep_writable _ _ Hrep).
  destruct (decide (Directory ∈ directories w)) as [Hd|Hd].
  2: { exists []. split; [done|]. rewrite (rep_directory _ _ Hrep Hd). set_solver. }
  assert (forall name isDir, (name, isDir) ∈ sort_by fst (entries_in Directory w) <->
    isDir = false /\ is_Some (files w !! (Directory, name))) as Hnames.
  { intros name isDir. rewrite (sort_by_perm fst), elem_of_entries.
    pose proof (proj1 (proj2 (rep_writable _ _ Hrep)) name) as Ho. rewrite Ho. naive_solver. }
  destruct (read_records_run (fun a => String.eqb (a_Network a) network) w m _ Hrep (fun name isDir => proj1 (Hnames name isDir))) as (l & El & Hl).
  exists l. split; [exact El|]. intros a. rewrite Hl. setoid_rewrite String.eqb_eq. split.
  - intros (k & H1 & _ & H3). eauto.
  - intros (k & H1 & H3). exists k. split_and!; [done| |done]. apply Hnames. split; [done|].
    destruct (rep_stored _ _ Hrep _ _ H1) as (_ & _ & d & _ & Hd'). by exists d.
Qed.

(** C37: The file store implements a finite map.  On a healthy disk, for keys
    whose digests do not collide, loading is lookup, saving is insertion,
    deleting is removal and listing a network is selecting its entries: each
    operation succeeds and keeps the disk a representation of the resulting
    map. *)
Theorem FileStore_refines_map w m keys :
  represents w m -> dom m ⊆ keys -> collision_free keys ->
  (forall k, k ∈ keys -> Key_Validate k = None ->
     FileStore_Load Unmarshal Directory k w = (match m !! k with Some a => Ok a | None => Fail not_exist end, w)) /\
  (forall a d, Attachment_Key a ∈ keys -> Attachment_Validate a = None -> Marshal a = Ok d ->
     exists w', FileStore_Save Marshal Directory a w = (Ok tt, w') /\ represents w' (<[Attachment_Key a := a]> m)) /\
  (forall k, k ∈ keys -> Key_Validate k = None ->
     exists w', FileStore_Delete Directory k w = (Ok tt, w') /\ represents w' (delete k m)) /\
  (forall network, network <> "" -> exists l, FileStore_List Unmarshal Directory network w = (Ok l, w) /\
     forall a, a ∈ l <-> exists k, m !! k = Some a /\ a_Network a = network).
Proof.
  intros Hrep Hdom Hcf. split_and!; intros.
  - by eapply Load_run.
  - by eapply Save_run.
  - by eapply Delete_run.
  - by apply List_run.
Qed.

End Refinement.

(** ** A concrete disk *)

Module StoreSample.

Definition pod : PodIdentity := mkPodIdentity "media" "client" "uid-1" "container-1" "eth0" "/run/netns/a".
Definition attachment : Attachment :=
  mkAttachment "podnet" pod "4:4026532" PhaseLockedDown "" 0 "" 1000.
Definition other_key : Key := mkKey "podnet" "container-2" "eth0".

(** A codec that knows one attachment. *)
Definition marshal (a : Attachment) : res string :=
  if decide (a = attachment) then Ok "record" else Fail (ENew "cannot encode").
Definition unmarshal (d : string) : res Attachment :=
  if String.eqb d "record" then Ok attachment else Fail (ENew "cannot decode").

Definition empty_disk : FS := mkFS ∅ ∅ ∅ ∅ 0 [] false.

Lemma FileStore_refines_map_witness :
  exists w', FileStore_Save marshal "/state" attachment empty_disk = (Ok tt, w') /\
    represents marshal "/state" w' {[Attachment_Key attachment := attachment]}.
Proof.
  destruct (FileStore_refines_map marshal unmarshal "/state"
    ltac:(unfold marshal, unmarshal; intros a d; destruct (decide (a = attachment)) as [->|]; [by intros [= <-]|done])
    empty_disk ∅ {[Attachment_Key attachment; other_key]}) as (_ & Hsave & _).
  - split; [|done|done|].
    + split_and!; [done|done|]. intros n _. apply lookup_empty.
    + intros name d _ Hd. cbn in Hd. by rewrite lookup_empty in Hd.
  - set_solver.
  - assert (record_name (Attachment_Key attachment) <> record_name other_key) as Hne
      by (vm_compute; discriminate).
    intros k k' Hk Hk' Heq. apply elem_of_union in Hk as [->%elem_of_singleton| ->%elem_of_singleton];
      apply elem_of_union in Hk' as [->%elem_of_singleton| ->%elem_of_singleton];
      [reflexivity|destruct (Hne Heq)|destruct (Hne (eq_sym Heq))|reflexivity].
  - destruct (Hsave attachment "record") as (w' & Hrun & Hrep); [set_solver|done|reflexivity|].
    exists w'. split; [done|]. by rewrite insert_empty in Hrep.
Defined.

End StoreSample.
