(* ===== verification/ProtocolAuth.v ===== *)
(** * The authenticated local protocol (internal/cni/protocol_auth.go)

    Requests and responses between the CNI plugin and the node agent carry an
    HMAC over length-prefixed fields; the agent accepts a request only once
    and only inside a freshness window.  HMAC-SHA256 and raw URL base64 are
    executable here; RFC 3339 timestamps enter as a pair of functions. *)

From Stdlib Require Import Ascii.
From S2P Require Import Prelude Sha256 Netip CniTypes.

(** ** base64.RawURLEncoding *)

Definition base64_char (i : Z) : ascii :=
  ascii_of_byte (if i <? 26 then 65 + i else if i <? 52 then 71 + i
                 else if i <? 62 then i - 4 else if i =? 62 then 45 else 95).

Definition base64_index (c : ascii) : option Z :=
  let b := byte_of_ascii c in
  if (65 <=? b) && (b <=? 90) then Some (b - 65)
  else if (97 <=? b) && (b <=? 122) then Some (b - 71)
  else if (48 <=? b) && (b <=? 57) then Some (b + 4)
  else if b =? 45 then Some 62 else if b =? 95 then Some 63 else None.

(** The sextets of a byte string: four for three bytes, three for two, two
    for one. *)
Fixpoint sextets (l : list Z) : list Z :=
  match l with
  | a :: b :: c :: rest =>
      a / 4 :: (a `mod` 4) * 16 + b / 16 :: (b `mod` 16) * 4 + c / 64 :: c `mod` 64 :: sextets rest
  | [a; b] => [a / 4; (a `mod` 4) * 16 + b / 16; (b `mod` 16) * 4]
  | [a] => [a / 4; (a `mod` 4) * 16]
  | [] => []
  end.

(** Decoding ignores the spare low bits of the last sextet, as the non-strict
    decoder does. *)
Fixpoint unsextets (l : list Z) : option (list Z) :=
  match l with
  | a :: b :: c :: d :: rest =>
      rest' ← unsextets rest;
      Some (a * 4 + b / 16 :: (b `mod` 16) * 16 + c / 4 :: (c `mod` 4) * 64 + d :: rest')
  | [a; b; c] => Some [a * 4 + b / 16; (b `mod` 16) * 16 + c / 4]
  | [a; b] => Some [a * 4 + b / 16]
  | [_] => None
  | [] => Some []
  end.

Definition base64_Encode (l : list Z) : string := String.string_of_list_ascii (map base64_char (sextets l)).

(** Carriage returns and line feeds are skipped. *)
Definition not_newline (c : ascii) : bool := negb ((byte_of_ascii c =? 10) || (byte_of_ascii c =? 13)).

Fixpoint base64_indices (cs : list ascii) : option (list Z) :=
  match cs with
  | [] => Some []
  | c :: cs' => i ← base64_index c; rest ← base64_indices cs'; Some (i :: rest)
  end.

Definition base64_Decode (s : string) : option (list Z) :=
  indices ← base64_indices (List.filter not_newline (String.list_ascii_of_string s)); unsextets indices.

(** ** crypto/hmac with SHA-256 *)

Definition block_key (key : list Z) : list Z :=
  let k := if (64 <? Z.of_nat (length key)) then Sum256 key else key in
  k ++ repeat 0 (64 - length k)%nat.

Definition hmac_sha256 (key msg : list Z) : list Z :=
  let k := block_key key in
  Sum256 (map (Z.lxor 92) k ++ Sum256 (map (Z.lxor 54) k ++ msg)).

(** ** The authenticator *)

Definition ProtocolKeySize : Z := 32.
Definition ProtocolMaxMessage : Z := 2 ^ 20.
Definition ProtocolMaxClockSkew : duration := 30 * Second.
Definition ProtocolMaxReplayIDs : Z := 4096.
Definition protocolHeaderVersion : string := "X-Waycloak-Protocol".
Definition protocolHeaderID : string := "X-Waycloak-Request-Id".
Definition protocolHeaderTime : string := "X-Waycloak-Issued-At".
Definition protocolHeaderAuth : string := "X-Waycloak-Authentication".

(** [http.Header]: canonical names to their values. *)
Notation Header := (gmap string (list string)) (only parsing).
Definition header_Values (h : Header) (name : string) : list string := default [] (h !! name).
Definition header_Set (name value : string) (h : Header) : Header := <[name := [value]]> h.

Record ProtocolAuthenticator := mkProtocolAuthenticator {
  key : list Z;
  maxSkew : duration;
  maxReplay : Z;
  seen : gmap string time
}.

Definition set_seen (m : gmap string time) (a : ProtocolAuthenticator) : ProtocolAuthenticator :=
  mkProtocolAuthenticator (key a) (maxSkew a) (maxReplay a) m.

Definition NewProtocolAuthenticator (k : list Z) : res ProtocolAuthenticator :=
  if negb (Z.of_nat (length k) =? ProtocolKeySize) then Fail (ENew "local protocol key must be exactly 32 bytes")
  else Ok (mkProtocolAuthenticator k ProtocolMaxClockSkew ProtocolMaxReplayIDs ∅).

(** The bytes the MAC covers: every field behind its 8-byte length. *)
Fixpoint frame (fields : list string) : list Z :=
  match fields with
  | [] => []
  | field :: rest => be_bytes 8 (Z.of_nat (String.length field)) ++ bytes_of_string field ++ frame rest
  end.

Definition mac (a : ProtocolAuthenticator) (fields : list string) : list Z := hmac_sha256 (key a) (frame fields).

Definition digest (body : list Z) : string := base64_Encode (Sum256 body).

Definition request_fields (identifier issuedAt method requestPath : string) (body : list Z) : list string :=
  ["request"; AgentAPIVersion; identifier; issuedAt; method; requestPath; digest body].
Definition requestMAC (a : ProtocolAuthenticator) (identifier issuedAt method requestPath : string)
    (body : list Z) : list Z :=
  mac a (request_fields identifier issuedAt method requestPath body).

Definition response_fields (identifier : string) (status : Z) (body : list Z) : list string :=
  ["response"; AgentAPIVersion; identifier; itoa status; digest body].
Definition responseMAC (a : ProtocolAuthenticator) (identifier : string) (status : Z) (body : list Z) : list Z :=
  mac a (response_fields identifier status body).

Definition encodeMAC (value : list Z) : string := base64_Encode value.

Definition oneHeader (h : Header) (name : string) : res string :=
  match header_Values h name with
  | [value] => if str_empty value then Fail (ENew "header must appear exactly once") else Ok value
  | _ => Fail (ENew "header must appear exactly once")
  end.

Definition decodeMACHeader (h : Header) : res (list Z) :=
  match oneHeader h protocolHeaderAuth with
  | Fail err => Fail err
  | Ok value =>
      match base64_Decode value with
      | Some decoded => if Z.of_nat (length decoded) =? 32 then Ok decoded
                        else Fail (ENew "invalid local protocol authenticator")
      | None => Fail (ENew "invalid local protocol authenticator")
      end
  end.

(** [hmac.Equal]. *)
Definition mac_equal (x y : list Z) : bool := bool_decide (x = y).

(** The replay window: drop what is too old to be fresh again, then refuse a
    known identifier or a full window. *)
Definition prune (a : ProtocolAuthenticator) (now : time) : gmap string time :=
  filter (fun kt => time_Before kt.2 (now - maxSkew a) = false) (seen a).

Definition consumeRequestID (identifier : string) (issuedAt now : time) (a : ProtocolAuthenticator) :
    res unit * ProtocolAuthenticator :=
  let kept := prune a now in
  match kept !! identifier with
  | Some _ => (Fail (ENew "local protocol request was replayed"), set_seen kept a)
  | None =>
      if maxReplay a <=? Z.of_nat (size kept)
      then (Fail (ENew "local protocol replay window is full"), set_seen kept a)
      else (Ok tt, set_seen (<[identifier := issuedAt]> kept) a)
  end.

Section Messages.
(** [time.Parse] and [Format] with [time.RFC3339Nano]. *)
Variable time_Parse : string -> res time.
Variable time_Format : time -> string.

Definition SignRequest (a : ProtocolAuthenticator) (now : time) (identifierBytes : list Z)
    (method requestPath : string) (body : list Z) : Header :=
  let identifier := base64_Encode identifierBytes in
  let issuedAt := time_Format now in
  header_Set protocolHeaderAuth (encodeMAC (requestMAC a identifier issuedAt method requestPath body))
    (header_Set protocolHeaderTime issuedAt
      (header_Set protocolHeaderID identifier
        (header_Set protocolHeaderVersion AgentAPIVersion ∅))).

Definition VerifyRequest (now : time) (method requestPath : string) (h : Header) (body : list Z)
    (a : ProtocolAuthenticator) : res string * ProtocolAuthenticator :=
  match oneHeader h protocolHeaderVersion with
  | Fail _ => (Fail (ENew "invalid local protocol version"), a)
  | Ok version =>
  if negb (String.eqb version AgentAPIVersion) then (Fail (ENew "invalid local protocol version"), a)
  else match oneHeader h protocolHeaderID with
  | Fail _ => (Fail (ENew "invalid local protocol request identity"), a)
  | Ok identifier =>
  match base64_Decode identifier with
  | None => (Fail (ENew "invalid local protocol request identity"), a)
  | Some decodedIdentifier =>
  if negb (Z.of_nat (length decodedIdentifier) =? 16)
  then (Fail (ENew "invalid local protocol request identity"), a)
  else match oneHeader h protocolHeaderTime with
  | Fail _ => (Fail (ENew "invalid local protocol timestamp"), a)
  | Ok issuedAtText =>
  match time_Parse issuedAtText with
  | Fail _ => (Fail (ENew "invalid local protocol timestamp"), a)
  | Ok issuedAt =>
  match decodeMACHeader h with
  | Fail _ => (Fail (ENew "local protocol request authentication failed"), a)
  | Ok provided =>
  if negb (mac_equal provided (requestMAC a identifier issuedAtText method requestPath body))
  then (Fail (ENew "local protocol request authentication failed"), a)
  else if time_Before issuedAt (now - maxSkew a) || time_After issuedAt (now + maxSkew a)
  then (Fail (ENew "local protocol request is outside the freshness window"), a)
  else match consumeRequestID identifier issuedAt now a with
       | (Fail err, a') => (Fail err, a')
       | (Ok _, a') => (Ok identifier, a')
       end
  end end end end end end.

Definition SignResponse (a : ProtocolAuthenticator) (requestID : string) (status : Z) (body : list Z) : Header :=
  header_Set protocolHeaderAuth (encodeMAC (responseMAC a requestID status body))
    (header_Set protocolHeaderID requestID (header_Set protocolHeaderVersion AgentAPIVersion ∅)).

Definition VerifyResponse (a : ProtocolAuthenticator) (requestID : string) (status : Z) (h : Header)
    (body : list Z) : option error :=
  match oneHeader h protocolHeaderVersion with
  | Fail _ => Some (ENew "invalid local protocol response version")
  | Ok version =>
  if negb (String.eqb version AgentAPIVersion) then Some (ENew "invalid local protocol response version")
  else match oneHeader h protocolHeaderID with
  | Fail _ => Some (ENew "local protocol response identity mismatch")
  | Ok responseID =>
  if negb (String.eqb responseID requestID) then Some (ENew "local protocol response identity mismatch")
  else match decodeMACHeader h with
  | Fail _ => Some (ENew "local protocol response authentication failed")
  | Ok provided =>
  if negb (mac_equal provided (responseMAC a requestID status body))
  then Some (ENew "local protocol response authentication failed")
  else None
  end end end.

(** ** The authenticated handler *)

Record HttpRequest := mkHttpRequest {
  rq_Method : string;
  rq_Path : string;
  rq_Header : Header;
  rq_Body : list Z
}.
Record HttpResponse := mkHttpResponse {
  rs_Status : Z;
  rs_Header : Header;
  rs_Body : list Z
}.

(** What a handler does to its response writer. *)
Inductive write_action :=
| SetHeader (name value : string)
| WriteHeader (status : Z)
| Write (value : list Z).

(** [authenticatedResponse]: the buffer the inner handler writes to. *)
Record authenticatedResponse := mkAuthenticatedResponse {
  ar_header : Header;
  ar_status : Z;
  ar_body : list Z;
  ar_large : bool
}.

Definition apply_write (w : authenticatedResponse) (act : write_action) : authenticatedResponse :=
  match act with
  | SetHeader name value =>
      mkAuthenticatedResponse (header_Set name value (ar_header w)) (ar_status w) (ar_body w) (ar_large w)
  | WriteHeader status =>
      if ar_status w =? 0 then mkAuthenticatedResponse (ar_header w) status (ar_body w) (ar_large w) else w
  | Write value =>
      let status := if ar_status w =? 0 then 200 else ar_status w in
      if ProtocolMaxMessage <? Z.of_nat (length (ar_body w)) + Z.of_nat (length value)
      then mkAuthenticatedResponse (ar_header w) status (ar_body w) true
      else mkAuthenticatedResponse (ar_header w) status (ar_body w ++ value) (ar_large w)
  end.

Definition reserved_header (name : string) : bool :=
  contains_string [protocolHeaderVersion; protocolHeaderID; protocolHeaderTime; protocolHeaderAuth; "Content-Length"] name.

(** [http.Error]. *)
Definition http_Error (message : string) (code : Z) : HttpResponse :=
  mkHttpResponse code ∅ (bytes_of_string message ++ [10]).

Definition AuthenticatedAgentHandler {W : Type} (now : time)
    (next : HttpRequest -> W -> list write_action * W) (request : HttpRequest)
    (a : ProtocolAuthenticator) (w : W) : HttpResponse * ProtocolAuthenticator * W :=
  if ProtocolMaxMessage <? Z.of_nat (length (rq_Body request))
  then (http_Error "local protocol request rejected" 413, a, w)
  else match VerifyRequest now (rq_Method request) (rq_Path request) (rq_Header request) (rq_Body request) a with
  | (Fail _, a') => (http_Error "local protocol request rejected" 401, a', w)
  | (Ok requestID, a') =>
      let '(actions, w') := next request w in
      let buffered := fold_left apply_write actions (mkAuthenticatedResponse ∅ 0 [] false) in
      let status := if ar_large buffered then 500 else if ar_status buffered =? 0 then 200 else ar_status buffered in
      let body := if ar_large buffered then bytes_of_string "local protocol response rejected" ++ [10]
                  else ar_body buffered in
      let header := filter (fun nv => reserved_header nv.1 = false) (ar_header buffered) in
      (mkHttpResponse status (SignResponse a' requestID status body ∪ header) body, a', w')
  end.

End Messages.

(** ** base64 round trip *)

Lemma list3_ind {A} (P : list A -> Prop) :
  P [] -> (forall a, P [a]) -> (forall a b, P [a; b]) -> (forall a b c l, P l -> P (a :: b :: c :: l)) ->
  forall l, P l.
Proof.
  intros H0 H1 H2 H3. fix IH 1. intros [|a [|b [|c l]]]; [done|apply H1|apply H2|]. apply H3, IH.
Qed.

Definition is_sextet (i : Z) : Prop := 0 <= i < 64.

Lemma base64_char_spec i :
  is_sextet i -> base64_index (base64_char i) = Some i /\ not_newline (base64_char i) = true.
Proof.
  intros Hi.
  assert (forallb (fun i => bool_decide (base64_index (base64_char i) = Some i) && not_newline (base64_char i))
            (seqZ 0 64) = true) as Hall by (vm_compute; reflexivity).
  rewrite forallb_forall in Hall. specialize (Hall i). rewrite <- list_elem_of_In, elem_of_seqZ in Hall.
  apply andb_prop in Hall as [H1 H2]; [|unfold is_sextet in Hi; lia]. by apply bool_decide_eq_true in H1.
Qed.

Lemma sextets_range l : Forall is_byte l -> Forall is_sextet (sextets l).
Proof.
  unfold is_byte, is_sextet. induction l as [|a|a b|a b c l IH] using list3_ind; cbn [sextets]; intros Hl;
    rewrite ?Forall_cons in Hl; destruct_and? Hl; repeat constructor; auto;
    Z.to_euclidean_division_equations; lia.
Qed.

Lemma unsextets_sextets l : Forall is_byte l -> unsextets (sextets l) = Some l.
Proof.
  unfold is_byte. induction l as [|a|a b|a b c l IH] using list3_ind; cbn [sextets unsextets]; intros Hl;
    rewrite ?Forall_cons in Hl; destruct_and? Hl.
  - done.
  - do 2 f_equal. Z.to_euclidean_division_equations; lia.
  - do 2 f_equal; [|f_equal]; Z.to_euclidean_division_equations; lia.
  - rewrite IH by done. cbn. do 2 f_equal; [|f_equal; [|f_equal]]; Z.to_euclidean_division_equations; lia.
Qed.

Lemma base64_indices_map l :
  Forall is_sextet l -> base64_indices (List.filter not_newline (map base64_char l)) = Some l.
Proof.
  induction l as [|i l IH]; cbn; [done|]. intros [Hi Hl]%Forall_cons.
  destruct (base64_char_spec i Hi) as [Hidx Hnl]. rewrite Hnl. cbn. rewrite Hidx. cbn. by rewrite IH.
Qed.

Lemma base64_round_trip l : Forall is_byte l -> base64_Decode (base64_Encode l) = Some l.
Proof.
  intros Hl. unfold base64_Decode, base64_Encode.
  rewrite String.list_ascii_of_string_of_list_ascii, base64_indices_map by by apply sextets_range.
  cbn. by apply unsextets_sextets.
Qed.

Lemma base64_nonempty l : l <> [] -> str_empty (base64_Encode l) = false.
Proof. by destruct l as [|a [|b [|c l]]]. Qed.

(** ** The MAC input determines the fields *)

(** The MAC covers its fields unambiguously.  Two field lists that give the
    same MAC input are equal: a request cannot be reinterpreted with its
    method, path, identity or body shifted, and no response is a request. *)
Theorem frame_injective fields fields' :
  Forall (fun f => Z.of_nat (String.length f) < 2 ^ 64) fields ->
  Forall (fun f => Z.of_nat (String.length f) < 2 ^ 64) fields' ->
  frame fields = frame fields' -> fields = fields'.
Proof.
  revert fields'. induction fields as [|f fields IH]; intros [|f' fields'] Hl Hl' Heq; cbn [frame] in Heq.
  - done.
  - apply (f_equal length) in Heq. rewrite length_app, be_bytes_length in Heq. cbn in Heq. lia.
  - apply (f_equal length) in Heq. rewrite length_app, be_bytes_length in Heq. cbn in Heq. lia.
  - apply Forall_cons in Hl as [Hf Hl]. apply Forall_cons in Hl' as [Hf' Hl'].
    apply app_inj_1 in Heq as [Hlen Heq]; [|by rewrite !be_bytes_length].
    apply be_bytes_inj in Hlen; [|lia..]. apply Nat2Z.inj in Hlen.
    apply app_inj_1 in Heq as [Hbytes Heq]; [|by rewrite !bytes_of_string_length].
    by rewrite (bytes_of_string_inj _ _ Hbytes), (IH _ Hl Hl' Heq).
Qed.

Lemma frame_injective_witness : frame ["request"; "a"] = frame ["request"; "a"] /\ ["request"; "a"] = ["request"; "a"].
Proof.
  split; [reflexivity|]. apply (frame_injective ["request"; "a"] ["request"; "a"]); [..|reflexivity];
    repeat constructor; vm_compute; reflexivity.
Defined.

(** ** Replay protection *)

Section Replay.
Variable time_Parse : string -> res time.
Notation VerifyRequest := (VerifyRequest time_Parse).

(** What acceptance means: the header's own identity and timestamp, a MAC over
    exactly this request, a timestamp inside the window and an identifier that
    was not in it. *)
Lemma VerifyRequest_accepts now method requestPath h body a identifier a' :
  VerifyRequest now method requestPath h body a = (Ok identifier, a') ->
  exists issuedAtText issuedAt,
    oneHeader h protocolHeaderID = Ok identifier /\
    oneHeader h protocolHeaderTime = Ok issuedAtText /\ time_Parse issuedAtText = Ok issuedAt /\
    decodeMACHeader h = Ok (requestMAC a identifier issuedAtText method requestPath body) /\
    now - maxSkew a <= issuedAt <= now + maxSkew a /\
    prune a now !! identifier = None /\ Z.of_nat (size (prune a now)) < maxReplay a /\
    a' = set_seen (<[identifier := issuedAt]> (prune a now)) a.
Proof.
  unfold ProtocolAuth.VerifyRequest.
  destruct (oneHeader h protocolHeaderVersion) as [version|]; [|done].
  destruct (negb _); [done|]. destruct (oneHeader h protocolHeaderID) as [id|]; [|done].
  destruct (base64_Decode id) as [decoded|]; [|done]. destruct (negb _); [done|].
  destruct (oneHeader h protocolHeaderTime) as [text|]; [|done].
  destruct (time_Parse text) as [issuedAt|] eqn:Ep; [|done].
  destruct (decodeMACHeader h) as [provided|]; [|done].
  destruct (mac_equal _ _) eqn:Em; cbn [negb]; [|done]. apply bool_decide_eq_true in Em as ->.
  unfold time_Before, time_After.
  destruct (Z.ltb_spec issuedAt (now - maxSkew a)); [done|].
  destruct (Z.ltb_spec (now + maxSkew a) issuedAt); [done|]. cbn [orb].
  unfold consumeRequestID. destruct (prune a now !! id) eqn:Ek; [done|].
  destruct (Z.leb_spec (maxReplay a) (Z.of_nat (size (prune a now)))); [done|].
  intros [= <- <-]. exists text, issuedAt. split_and!; done.
Qed.

(** Every outcome leaves the key and the limits, and the window pruned or not. *)
Lemma VerifyRequest_seen now method requestPath h body a :
  exists window, (VerifyRequest now method requestPath h body a).2 = set_seen window a /\
    (window = seen a \/ window = prune a now \/
     exists identifier issuedAt, window = <[identifier := issuedAt]> (prune a now) /\
       prune a now !! identifier = None /\ Z.of_nat (size (prune a now)) < maxReplay a).
Proof.
  assert (forall e : error, exists window, (Fail (A := string) e, a).2 = set_seen window a /\
    (window = seen a \/ window = prune a now \/
     exists identifier issuedAt, window = <[identifier := issuedAt]> (prune a now) /\
       prune a now !! identifier = None /\ Z.of_nat (size (prune a now)) < maxReplay a)) as Hsame.
  { intros e. exists (seen a). split; [by destruct a|]. by left. }
  unfold ProtocolAuth.VerifyRequest.
  destruct (oneHeader h protocolHeaderVersion) as [version|]; [|apply Hsame].
  destruct (negb _); [apply Hsame|]. destruct (oneHeader h protocolHeaderID) as [id|]; [|apply Hsame].
  destruct (base64_Decode id) as [decoded|]; [|apply Hsame]. destruct (negb _); [apply Hsame|].
  destruct (oneHeader h protocolHeaderTime) as [text|]; [|apply Hsame].
  destruct (time_Parse text) as [issuedAt|]; [|apply Hsame].
  destruct (decodeMACHeader h) as [provided|]; [|apply Hsame].
  destruct (negb _); [apply Hsame|]. destruct (_ || _); [apply Hsame|].
  unfold consumeRequestID. destruct (prune a now !! id) eqn:Ek; [eauto|].
  destruct (Z.leb_spec (maxReplay a) (Z.of_nat (size (prune a now)))); [eauto|].
  eexists. split; [reflexivity|]. right. right. eauto.
Qed.

(** The agent's life: requests arrive under a clock that does not run back. *)
Inductive serves : ProtocolAuthenticator -> time -> ProtocolAuthenticator -> time -> Prop :=
| serves_refl a now : serves a now a now
| serves_step a t a1 t1 now method requestPath h body :
    serves a t a1 t1 -> t1 <= now ->
    serves a t (VerifyRequest now method requestPath h body a1).2 now.

(** The message with this identity and timestamp can no longer be accepted. *)
Definition spent (identifier : string) (issuedAt : time) (a : ProtocolAuthenticator) (now : time) : Prop :=
  seen a !! identifier = Some issuedAt \/ issuedAt < now - maxSkew a.

Lemma prune_lookup a now identifier issuedAt :
  seen a !! identifier = Some issuedAt ->
  prune a now !! identifier = Some issuedAt \/ issuedAt < now - maxSkew a.
Proof.
  intros Hs. destruct (Z.ltb_spec issuedAt (now - maxSkew a)) as [Hlt|Hge]; [by right|]. left.
  apply map_lookup_filter_Some. split; [done|]. cbn. unfold time_Before. apply Z.ltb_ge. lia.
Qed.

Lemma spent_step identifier issuedAt a t now method requestPath h body :
  spent identifier issuedAt a t -> t <= now ->
  spent identifier issuedAt (VerifyRequest now method requestPath h body a).2 now.
Proof.
  intros Hspent Hle. destruct (VerifyRequest_seen now method requestPath h body a) as (window & -> & Hw).
  unfold spent in *. cbn. destruct Hspent as [Hs|Hs]; [|right; lia].
  destruct (prune_lookup a now _ _ Hs) as [Hp|Hp]; [|by right].
  left. destruct Hw as [->|[->|(id & t' & -> & Hnone & _)]]; [done|done|].
  rewrite lookup_insert_ne; [done|]. intros ->. by rewrite Hnone in Hp.
Qed.

Lemma spent_serves identifier issuedAt a t a' t' :
  serves a t a' t' -> spent identifier issuedAt a t -> spent identifier issuedAt a' t'.
Proof. induction 1; [done|]. intros Hs. eapply spent_step; [by auto|done]. Qed.

Lemma spent_rejected identifier issuedAt a t now method requestPath h body r text :
  spent identifier issuedAt a t -> t <= now ->
  oneHeader h protocolHeaderID = Ok identifier -> oneHeader h protocolHeaderTime = Ok text ->
  time_Parse text = Ok issuedAt ->
  (VerifyRequest now method requestPath h body a).1 = r -> res_ok r = false.
Proof.
  intros Hspent Hle Hid Htext Hparse Hr. destruct r as [id|]; [|done]. exfalso.
  destruct (VerifyRequest now method requestPath h body a) as [r' a'] eqn:E. cbn in Hr. subst r'.
  apply VerifyRequest_accepts in E as (text' & issued' & Hid' & Htext' & Hp' & _ & Hwin & Hnone & _).
  assert (id = identifier) as -> by congruence. assert (text' = text) as -> by congruence.
  assert (issued' = issuedAt) as -> by congruence. destruct Hspent as [Hs|Hs]; [|lia].
  destruct (prune_lookup a now _ _ Hs) as [Hp|Hp]; [by rewrite Hnone in Hp|lia].
Qed.

(** C38: No replay.  After the agent accepts a request, no later request with
    the same authenticated identity and timestamp headers is accepted,
    whatever requests arrive in between and whatever its method, path and
    body, as long as the agent's clock does not run backwards. *)
Theorem VerifyRequest_no_replay now0 method0 path0 h body0 a0 identifier a1 t1 a2 now1 method1 path1 body1 :
  VerifyRequest now0 method0 path0 h body0 a0 = (Ok identifier, a1) ->
  serves a1 now0 a2 t1 -> t1 <= now1 ->
  res_ok (VerifyRequest now1 method1 path1 h body1 a2).1 = false.
Proof.
  intros Hacc Hserves Hle.
  apply VerifyRequest_accepts in Hacc as (text & issuedAt & Hid & Htext & Hp & _ & _ & _ & _ & ->).
  eapply spent_rejected; [|exact Hle|exact Hid|exact Htext|exact Hp|reflexivity].
  eapply spent_serves; [done|]. left. cbn. apply lookup_insert_eq.
Qed.

(** The replay window is bounded.  However many requests arrive, the
    window never holds more than its configured number of identifiers. *)
Theorem seen_bounded a t a' t' :
  serves a t a' t' -> Z.of_nat (size (seen a)) <= maxReplay a ->
  Z.of_nat (size (seen a')) <= maxReplay a'.
Proof.
  induction 1 as [|a t a1 t1 now method requestPath h body Hs IH Hle]; [done|]. intros Ha. specialize (IH Ha).
  destruct (VerifyRequest_seen now method requestPath h body a1) as (window & -> & Hw). cbn.
  assert (size (prune a1 now) <= size (seen a1))%nat as Hprune.
  { apply map_subseteq_size, map_filter_subseteq. }
  destruct Hw as [->|[->|(id & t' & -> & Hnone & Hsize)]]; [lia|lia|].
  rewrite map_size_insert_None by done. lia.
Qed.

End Replay.

(** ** Signed messages verify *)

Lemma oneHeader_set name value h : value <> "" -> oneHeader (header_Set name value h) name = Ok value.
Proof.
  intros Hv. unfold oneHeader, header_Values, header_Set. rewrite lookup_insert_eq. cbn.
  apply String.eqb_neq in Hv. unfold str_empty. by rewrite Hv.
Qed.

Lemma oneHeader_set_ne name name' value h :
  name <> name' -> oneHeader (header_Set name' value h) name = oneHeader h name.
Proof. intros Hne. unfold oneHeader, header_Values, header_Set. by rewrite lookup_insert_ne. Qed.

Lemma oneHeader_union h h' name v : oneHeader h name = Ok v -> oneHeader (h ∪ h') name = Ok v.
Proof.
  unfold oneHeader, header_Values. destruct (h !! name) as [vs|] eqn:E; cbn; [|done].
  by rewrite (lookup_union_Some_l _ _ _ _ E).
Qed.

Lemma mac_shape a fields : length (mac a fields) = 32%nat /\ Forall is_byte (mac a fields).
Proof. split; [apply Sum256_length|apply Sum256_bytes]. Qed.

Lemma base64_nonempty_ne l : l <> [] -> base64_Encode l <> "".
Proof. intros Hl. apply String.eqb_neq. by apply base64_nonempty. Qed.

Lemma mac_nonempty a fields : mac a fields <> [].
Proof. intros Heq. destruct (mac_shape a fields) as [Hl _]. by rewrite Heq in Hl. Qed.

Lemma decodeMACHeader_encode h a fields :
  oneHeader h protocolHeaderAuth = Ok (encodeMAC (mac a fields)) -> decodeMACHeader h = Ok (mac a fields).
Proof.
  intros Hh. unfold decodeMACHeader. rewrite Hh. destruct (mac_shape a fields) as [Hl Hb].
  unfold encodeMAC. rewrite base64_round_trip by done. by rewrite Hl.
Qed.

Section RoundTrip.
Variable time_Parse : string -> res time.
Variable time_Format : time -> string.

(** A fresh signed request is accepted.  A request signed with the agent's
    key and a 16-byte identity is accepted by the agent under that identity,
    provided its timestamp survives the text form, lies within the allowed
    clock skew, its identity is not in the window and the window has room. *)
Theorem Sign_Verify_request a b now now' idBytes method requestPath body :
  key b = key a -> length idBytes = 16%nat -> Forall is_byte idBytes ->
  time_Parse (time_Format now) = Ok now -> time_Format now <> "" ->
  now' - maxSkew a <= now <= now' + maxSkew a ->
  prune a now' !! base64_Encode idBytes = None -> Z.of_nat (size (prune a now')) < maxReplay a ->
  VerifyRequest time_Parse now' method requestPath
    (SignRequest time_Format b now idBytes method requestPath body) body a =
  (Ok (base64_Encode idBytes), set_seen (<[base64_Encode idBytes := now]> (prune a now')) a).
Proof.
  intros Hkey Hlen Hbytes Hparse Hne Hwin Hfresh Hroom. set (h := SignRequest _ _ _ _ _ _ _).
  assert (idBytes <> []) as Hid by (intros ->; done).
  assert (oneHeader h protocolHeaderVersion = Ok AgentAPIVersion) as H1.
  { unfold h, SignRequest. rewrite !oneHeader_set_ne by done. by apply oneHeader_set. }
  assert (oneHeader h protocolHeaderID = Ok (base64_Encode idBytes)) as H2.
  { unfold h, SignRequest. do 2 rewrite oneHeader_set_ne by done. by apply oneHeader_set, base64_nonempty_ne. }
  assert (oneHeader h protocolHeaderTime = Ok (time_Format now)) as H3.
  { unfold h, SignRequest. rewrite oneHeader_set_ne by done. by apply oneHeader_set. }
  assert (decodeMACHeader h = Ok (requestMAC b (base64_Encode idBytes) (time_Format now) method requestPath body)) as H4.
  { apply decodeMACHeader_encode, oneHeader_set, base64_nonempty_ne, mac_nonempty. }
  unfold VerifyRequest. rewrite H1, H2, H3, H4, Hparse, String.eqb_refl. cbn [negb].
  rewrite base64_round_trip, Hlen by done. change (Z.of_nat 16 =? 16) with true. cbn [negb].
  unfold requestMAC, mac_equal, mac. rewrite Hkey, bool_decide_true by done. cbn [negb].
  unfold time_Before, time_After. destruct (Z.ltb_spec now (now' - maxSkew a)); [lia|].
  destruct (Z.ltb_spec (now' + maxSkew a) now); [lia|]. cbn [orb].
  unfold consumeRequestID. rewrite Hfresh. destruct (Z.leb_spec (maxReplay a) (Z.of_nat (size (prune a now')))); [lia|].
  done.
Qed.

(** No dispatch without authentication, and every answer is authentic.
    The inner handler runs only on a request the agent verified; every other
    request leaves the served state alone and gets a rejection.  Every answer
    to a verified request passes the client's verification for that request,
    whatever headers and statuses the inner handler writes. *)
Theorem AuthenticatedAgentHandler_gate {W : Type} now (next : HttpRequest -> W -> list write_action * W) request a w :
  match AuthenticatedAgentHandler time_Parse now next request a w with
  | (response, a', w') =>
      match VerifyRequest time_Parse now (rq_Method request) (rq_Path request) (rq_Header request) (rq_Body request) a with
      | (Ok requestID, averified) =>
          Z.of_nat (length (rq_Body request)) <= ProtocolMaxMessage ->
          a' = averified /\ w' = (next request w).2 /\
          VerifyResponse a requestID (rs_Status response) (rs_Header response) (rs_Body response) = None
      | (Fail _, _) => w' = w /\ (rs_Status response = 401 \/ rs_Status response = 413)
      end
  end.
Proof.
  unfold AuthenticatedAgentHandler.
  destruct (Z.ltb_spec ProtocolMaxMessage (Z.of_nat (length (rq_Body request)))) as [Hbig|Hsmall].
  { destruct (VerifyRequest _ _ _ _ _ _ _) as [[id|e] a1]; [lia|]. auto. }
  destruct (VerifyRequest _ _ _ _ _ _ _) as [[id|e] a1] eqn:E; [|auto].
  pose proof (VerifyRequest_accepts _ _ _ _ _ _ _ _ _ E) as (text & issued & Hid & _ & _ & _ & _ & _ & _ & Ha1).
  destruct (next request w) as [actions w1]. cbn zeta beta iota. intros _. split; [done|]. split; [done|].
  set (status := if ar_large _ then 500 else _). set (body := if ar_large _ then bytes_of_string _ ++ _ else _).
  set (rest := filter _ _). cbn [rs_Status rs_Header rs_Body].
  assert (id <> "") as Hne.
  { intros ->. unfold oneHeader in Hid. destruct (header_Values _ _) as [|v [|]]; [done| |done].
    destruct (str_empty v) eqn:Ev; [done|]. injection Hid as ->. done. }
  assert (forall name v, oneHeader (SignResponse a1 id status body) name = Ok v ->
    oneHeader (SignResponse a1 id status body ∪ rest) name = Ok v) as Hu by (intros; by apply oneHeader_union).
  unfold VerifyResponse. rewrite (Hu protocolHeaderVersion AgentAPIVersion).
  2: { unfold SignResponse. rewrite !oneHeader_set_ne by done. by apply oneHeader_set. }
  rewrite String.eqb_refl. cbn [negb]. rewrite (Hu protocolHeaderID id).
  2: { unfold SignResponse. rewrite oneHeader_set_ne by done. by apply oneHeader_set. }
  rewrite String.eqb_refl. cbn [negb].
  rewrite (decodeMACHeader_encode _ a1 (response_fields id status body)).
  2: { apply Hu. apply oneHeader_set. apply base64_nonempty_ne, mac_nonempty. }
  subst a1. unfold mac_equal, responseMAC, mac. cbn [key set_seen]. by rewrite bool_decide_true by done.
Qed.

End RoundTrip.

(** ** A concrete exchange *)

Module AuthSample.

Definition agent : ProtocolAuthenticator :=
  mkProtocolAuthenticator (repeat 7 32) ProtocolMaxClockSkew ProtocolMaxReplayIDs ∅.
(** Whole seconds as decimal text. *)
Definition format (t : time) : string := itoa t.
Definition parse (s : string) : res time :=
  match parse_decimal s with Some v => Ok v | None => Fail (ENew "bad time") end.
Definition identity : list Z := repeat 3 16.
Definition message : Header := SignRequest format agent 100 identity "POST" "/cni-node/v1/resolve" [1; 2; 3].

Lemma Sign_Verify_request_witness :
  (VerifyRequest parse 120 "POST" "/cni-node/v1/resolve" message [1; 2; 3] agent).1 = Ok (base64_Encode identity).
Proof.
  unfold message. rewrite (Sign_Verify_request parse format agent agent 100 120 identity).
  - reflexivity.
  - reflexivity.
  - reflexivity.
  - by repeat (constructor; [unfold is_byte; lia|]).
  - reflexivity.
  - discriminate.
  - vm_compute. split; discriminate.
  - reflexivity.
  - reflexivity.
Defined.

Lemma VerifyRequest_no_replay_witness :
  res_ok (VerifyRequest parse 130 "POST" "/cni-node/v1/withdraw" message [1; 2; 3]
            (VerifyRequest parse 120 "POST" "/cni-node/v1/resolve" message [1; 2; 3] agent).2).1 = false.
Proof.
  apply (VerifyRequest_no_replay parse 120 "POST" "/cni-node/v1/resolve" message [1; 2; 3] agent
           (base64_Encode identity)
           (VerifyRequest parse 120 "POST" "/cni-node/v1/resolve" message [1; 2; 3] agent).2 120).
  - vm_compute. reflexivity.
  - constructor.
  - lia.
Defined.

Lemma seen_bounded_witness :
  Z.of_nat (size (seen (VerifyRequest parse 120 "POST" "/x" message [1] agent).2)) <=
  maxReplay (VerifyRequest parse 120 "POST" "/x" message [1] agent).2.
Proof.
  apply (seen_bounded parse agent 100 (VerifyRequest parse 120 "POST" "/x" message [1] agent).2 120).
  - apply serves_step with 100; [constructor|lia].
  - vm_compute. discriminate.
Defined.

End AuthSample.
