(* ===== verification/Nft.v ===== *)
(** * nftables

    The language the data plane programs the kernel with: rule expressions
    with their registers, chains, tables, transactions, and what a rule set
    does to a packet.  The expressions are those of the netlink interface the
    source emits, down to header offsets and byte strings, so a wrong offset
    or a missing match in the source would be a wrong rule here.  The meaning
    given to them is the documented one of nft(8): rules in order, the first
    verdict decides, the chain's policy otherwise, and a packet passes a hook
    only if every base chain there accepts it. *)

From S2P Require Import Prelude Sha256 Netip.

(** ** Packets *)

Record packet := mkPacket {
  pk_iif : string;            (** input interface, empty for a local packet *)
  pk_oif : string;            (** output interface *)
  pk_nfproto : Z;             (** NFPROTO_IPV4 or NFPROTO_IPV6 *)
  pk_l4proto : Z;             (** IP protocol number *)
  pk_network : list Z;        (** bytes of the network header *)
  pk_transport : list Z;      (** bytes of the transport header *)
  pk_mark : list Z;           (** packet mark, 4 bytes *)
  pk_ctstate : Z              (** connection tracking state bits *)
}.

Definition NFPROTO_IPV4 : Z := 2.
Definition NFPROTO_IPV6 : Z := 10.
Definition IPPROTO_TCP : Z := 6.
Definition IPPROTO_UDP : Z := 17.

(** [binaryutil.NativeEndian] on the little-endian platforms the images are
    built for. *)
Definition native32 (v : Z) : list Z := rev (be_bytes 4 v).

(** The established and related bits of the connection tracking state. *)
Definition CtStateTracked : Z := 6.

(** ** Expressions *)

Inductive meta_key := MetaKeyIIFNAME | MetaKeyOIFNAME | MetaKeyNFPROTO | MetaKeyL4PROTO | MetaKeyMARK.
Inductive payload_base := PayloadBaseNetworkHeader | PayloadBaseTransportHeader.
Inductive verdict := VerdictAccept | VerdictDrop.

#[global] Instance verdict_eq_dec : EqDecision verdict.
Proof. solve_decision. Defined.

Inductive nexpr :=
| Meta (key : meta_key) (register : Z)
| MetaSetMark (register : Z)
| CtState (register : Z)
| CmpEq (register : Z) (data : list Z)
| CmpNeq (register : Z) (data : list Z)
| Payload (register : Z) (base : payload_base) (offset len : Z)
| Bitwise (source dest : Z) (mask xor : list Z)
| Immediate (register : Z) (data : list Z)
| DestNAT (family regAddr regProto : Z)
| Masq (regProto : option Z)
| Verdict (kind : verdict).

#[global] Instance meta_key_eq_dec : EqDecision meta_key.
Proof. solve_decision. Defined.
#[global] Instance payload_base_eq_dec : EqDecision payload_base.
Proof. solve_decision. Defined.
#[global] Instance nexpr_eq_dec : EqDecision nexpr.
Proof. solve_decision. Defined.

Record nrule := mkRule { ru_userdata : string; ru_exprs : list nexpr }.

#[global] Instance nrule_eq_dec : EqDecision nrule.
Proof. solve_decision. Defined.

Inductive chain_type := ChainTypeFilter | ChainTypeNAT.
Inductive chain_hook :=
| ChainHookPrerouting | ChainHookInput | ChainHookForward | ChainHookOutput | ChainHookPostrouting.

#[global] Instance chain_type_eq_dec : EqDecision chain_type.
Proof. solve_decision. Defined.
#[global] Instance chain_hook_eq_dec : EqDecision chain_hook.
Proof. solve_decision. Defined.

Record nchain := mkChain {
  ch_name : string;
  ch_type : chain_type;
  ch_hook : chain_hook;
  ch_priority : Z;
  ch_policy : option verdict;   (** accept when absent *)
  ch_rules : list nrule
}.

(** The chains of a table, in creation order. *)
Notation ntable := (list nchain) (only parsing).

Definition ChainPriorityRaw : Z := -300.
Definition ChainPriorityNATDest : Z := -100.
Definition ChainPriorityFilter : Z := 0.
Definition ChainPriorityNATSource : Z := 100.

(** An interface name as the kernel compares it: 16 bytes, zero padded. *)
Definition interfaceName (value : string) : list Z :=
  take 16 (bytes_of_string value ++ repeat 0 16).

(** ** Evaluation *)

Definition bytes_eqb (a b : list Z) : bool := bool_decide (a = b).

Definition regs := Z -> list Z.
Definition set_reg (r : Z) (v : list Z) (rs : regs) : regs := fun r' => if r' =? r then v else rs r'.

Inductive outcome :=
| Decided (v : verdict)
| Rewritten (address port : list Z)
| Masqueraded (port : option (list Z)).

Definition meta_value (p : packet) (k : meta_key) : list Z :=
  match k with
  | MetaKeyIIFNAME => interfaceName (pk_iif p)
  | MetaKeyOIFNAME => interfaceName (pk_oif p)
  | MetaKeyNFPROTO => [pk_nfproto p]
  | MetaKeyL4PROTO => [pk_l4proto p]
  | MetaKeyMARK => pk_mark p
  end.

Definition set_mark (mark : list Z) (p : packet) : packet :=
  mkPacket (pk_iif p) (pk_oif p) (pk_nfproto p) (pk_l4proto p) (pk_network p) (pk_transport p) mark (pk_ctstate p).

Definition header (p : packet) (b : payload_base) : list Z :=
  match b with PayloadBaseNetworkHeader => pk_network p | PayloadBaseTransportHeader => pk_transport p end.

(** [None]: the rule does not match and the chain goes on. *)
Fixpoint eval_exprs (es : list nexpr) (rs : regs) (p : packet) : option outcome :=
  match es with
  | [] => None
  | Meta k r :: es' => eval_exprs es' (set_reg r (meta_value p k) rs) p
  | MetaSetMark r :: es' => eval_exprs es' rs (set_mark (rs r) p)
  | CtState r :: es' => eval_exprs es' (set_reg r (native32 (pk_ctstate p)) rs) p
  | CmpNeq r data :: es' =>
      if bytes_eqb (take (length data) (rs r)) data then None else eval_exprs es' rs p
  | CmpEq r data :: es' =>
      if bytes_eqb (take (length data) (rs r)) data then eval_exprs es' rs p else None
  | Payload r b offset len :: es' =>
      let slice := take (Z.to_nat len) (drop (Z.to_nat offset) (header p b)) in
      if Z.of_nat (length slice) =? len then eval_exprs es' (set_reg r slice rs) p else None
  | Bitwise s d mask xor :: es' =>
      eval_exprs es' (set_reg d (zip_with Z.lxor (zip_with Z.land (rs s) mask) xor) rs) p
  | Immediate r data :: es' => eval_exprs es' (set_reg r data rs) p
  | DestNAT _ ra rp :: _ => Some (Rewritten (rs ra) (rs rp))
  | Masq rp :: _ => Some (Masqueraded (rs <$> rp))
  | Verdict v :: _ => Some (Decided v)
  end.

Definition no_regs : regs := fun _ => [].

Definition eval_rule (r : nrule) (p : packet) : option outcome := eval_exprs (ru_exprs r) no_regs p.

Fixpoint eval_rules (rs : list nrule) (p : packet) : option outcome :=
  match rs with
  | [] => None
  | r :: rs' => match eval_rule r p with Some o => Some o | None => eval_rules rs' p end
  end.

(** The packet after the expressions ran: a mark that was set stays, also when a
    later expression does not match. *)
Fixpoint mark_exprs (es : list nexpr) (rs : regs) (p : packet) : packet :=
  match es with
  | [] => p
  | Meta k r :: es' => mark_exprs es' (set_reg r (meta_value p k) rs) p
  | MetaSetMark r :: es' => mark_exprs es' rs (set_mark (rs r) p)
  | CtState r :: es' => mark_exprs es' (set_reg r (native32 (pk_ctstate p)) rs) p
  | CmpNeq r data :: es' => if bytes_eqb (take (length data) (rs r)) data then p else mark_exprs es' rs p
  | CmpEq r data :: es' => if bytes_eqb (take (length data) (rs r)) data then mark_exprs es' rs p else p
  | Payload r b offset len :: es' =>
      let slice := take (Z.to_nat len) (drop (Z.to_nat offset) (header p b)) in
      if Z.of_nat (length slice) =? len then mark_exprs es' (set_reg r slice rs) p else p
  | Bitwise s d mask xor :: es' =>
      mark_exprs es' (set_reg d (zip_with Z.lxor (zip_with Z.land (rs s) mask) xor) rs) p
  | Immediate r data :: es' => mark_exprs es' (set_reg r data rs) p
  | DestNAT _ _ _ :: _ | Masq _ :: _ | Verdict _ :: _ => p
  end.

(** A packet with its destination address and port rewritten; checksums are not
    looked at by any rule and stay as they are. *)
Definition splice (offset : nat) (data l : list Z) : list Z := take offset l ++ data ++ drop (offset + length data) l.
Definition rewrite_destination (address port : list Z) (p : packet) : packet :=
  mkPacket (pk_iif p) (pk_oif p) (pk_nfproto p) (pk_l4proto p) (splice 16 address (pk_network p))
    (splice 2 port (pk_transport p)) (pk_mark p) (pk_ctstate p).

(** What a chain of translations makes of a packet: the first rule that
    rewrites ends it. *)
Fixpoint translate (rs : list nrule) (p : packet) : packet :=
  match rs with
  | [] => p
  | r :: rs' =>
      let p' := mark_exprs (ru_exprs r) no_regs p in
      match eval_rule r p with
      | Some (Rewritten address port) => rewrite_destination address port p'
      | Some _ => p'
      | None => translate rs' p'
      end
  end.

(** A filter chain accepts the packet. *)
Definition chain_accepts (c : nchain) (p : packet) : bool :=
  match eval_rules (ch_rules c) p with
  | Some (Decided VerdictAccept) => true
  | Some (Decided VerdictDrop) => false
  | _ => negb (bool_decide (ch_policy c = Some VerdictDrop))
  end.

Definition hook_filter (hook : chain_hook) (c : nchain) : bool :=
  bool_decide (ch_type c = ChainTypeFilter) && bool_decide (ch_hook c = hook).
Definition output_filter : nchain -> bool := hook_filter ChainHookOutput.

(** The packet passes every filter chain of the table at a hook. *)
Definition table_passes_at (hook : chain_hook) (t : ntable) (p : packet) : bool :=
  forallb (fun c => negb (hook_filter hook c) || chain_accepts c p) t.
Definition table_passes : ntable -> packet -> bool := table_passes_at ChainHookOutput.

(** The packet leaves the namespace: every table of the rule set lets it. *)
Definition passes (tables : gmap string ntable) (p : packet) : bool :=
  forallb (fun nt => table_passes nt.2 p) (map_to_list tables).

Lemma passes_table tables name t p :
  tables !! name = Some t -> passes tables p = true -> table_passes t p = true.
Proof.
  intros Ht Hp. unfold passes in Hp. rewrite forallb_forall in Hp.
  apply (Hp (name, t)). by apply list_elem_of_In, elem_of_map_to_list.
Qed.

(** *** Matching, apart from what follows it *)

Definition is_match (e : nexpr) : bool :=
  match e with Meta _ _ | CtState _ | CmpEq _ _ | CmpNeq _ _ | Payload _ _ _ _ | Bitwise _ _ _ _ => true | _ => false end.

(** The registers after expressions that all matched. *)
Fixpoint match_exprs (es : list nexpr) (rs : regs) (p : packet) : option regs :=
  match es with
  | [] => Some rs
  | Meta k r :: es' => match_exprs es' (set_reg r (meta_value p k) rs) p
  | CtState r :: es' => match_exprs es' (set_reg r (native32 (pk_ctstate p)) rs) p
  | CmpNeq r data :: es' => if bytes_eqb (take (length data) (rs r)) data then None else match_exprs es' rs p
  | CmpEq r data :: es' => if bytes_eqb (take (length data) (rs r)) data then match_exprs es' rs p else None
  | Payload r b offset len :: es' =>
      let slice := take (Z.to_nat len) (drop (Z.to_nat offset) (header p b)) in
      if Z.of_nat (length slice) =? len then match_exprs es' (set_reg r slice rs) p else None
  | Bitwise s d mask xor :: es' =>
      match_exprs es' (set_reg d (zip_with Z.lxor (zip_with Z.land (rs s) mask) xor) rs) p
  | _ :: _ => None
  end.

Lemma eval_after_match es rest rs p :
  forallb is_match es = true ->
  eval_exprs (es ++ rest) rs p = match match_exprs es rs p with Some rs' => eval_exprs rest rs' p | None => None end.
Proof.
  revert rs. induction es as [|e es IH]; intros rs; [done|]. cbn [forallb app].
  destruct e; cbn [is_match andb eval_exprs match_exprs]; intros Hes; try done; try (by apply IH).
  all: match goal with |- context [if ?c then _ else _] => destruct c end; try done; by apply IH.
Qed.

Lemma mark_after_match es rest rs p :
  forallb is_match es = true ->
  mark_exprs (es ++ rest) rs p = match match_exprs es rs p with Some rs' => mark_exprs rest rs' p | None => p end.
Proof.
  revert rs. induction es as [|e es IH]; intros rs; [done|]. cbn [forallb app].
  destruct e; cbn [is_match andb mark_exprs match_exprs]; intros Hes; try done; try (by apply IH).
  all: match goal with |- context [if ?c then _ else _] => destruct c end; try done; by apply IH.
Qed.

(** What the match decides, from what a rule that accepts after it does. *)
Lemma match_decides es rs p (c : bool) :
  forallb is_match es = true ->
  eval_exprs (es ++ [Verdict VerdictAccept]) rs p = (if c then Some (Decided VerdictAccept) else None) ->
  match match_exprs es rs p with Some _ => c = true | None => c = false end.
Proof. intros Hes. rewrite eval_after_match by done. by destruct (match_exprs es rs p), c. Qed.

(** ** Transactions *)

Inductive nftop :=
| OpDelTable (name : string)
| OpAddTable (name : string)
| OpAddChain (table : string) (chain : nchain)
| OpAddRule (table chain : string) (rule : nrule)
| OpDelRule (table chain : string) (rule : nrule).

Fixpoint append_rule (chain : string) (rule : nrule) (t : ntable) : option ntable :=
  match t with
  | [] => None
  | c :: t' =>
      if String.eqb (ch_name c) chain
      then Some (mkChain (ch_name c) (ch_type c) (ch_hook c) (ch_priority c) (ch_policy c)
                   (ch_rules c ++ [rule]) :: t')
      else t'' ← append_rule chain rule t'; Some (c :: t'')
  end.

(** Rules are deleted by handle; rules with the same contents are
    interchangeable, so the first of them stands for the handle's. *)
Fixpoint remove_rule (rule : nrule) (rules : list nrule) : option (list nrule) :=
  match rules with
  | [] => None
  | r :: rules' => if decide (r = rule) then Some rules' else rs ← remove_rule rule rules'; Some (r :: rs)
  end.

Fixpoint delete_rule (chain : string) (rule : nrule) (t : ntable) : option ntable :=
  match t with
  | [] => None
  | c :: t' =>
      if String.eqb (ch_name c) chain
      then rules ← remove_rule rule (ch_rules c);
           Some (mkChain (ch_name c) (ch_type c) (ch_hook c) (ch_priority c) (ch_policy c) rules :: t')
      else t'' ← delete_rule chain rule t'; Some (c :: t'')
  end.

(** Adding an existing table or chain changes nothing; the other operations
    need their table and chain. *)
Definition apply_op (tables : gmap string ntable) (op : nftop) : option (gmap string ntable) :=
  match op with
  | OpDelTable name => if decide (is_Some (tables !! name)) then Some (delete name tables) else None
  | OpAddTable name => Some (match tables !! name with Some _ => tables | None => <[name := []]> tables end)
  | OpAddChain name c =>
      t ← tables !! name;
      Some (if existsb (fun c' => String.eqb (ch_name c') (ch_name c)) t then tables
            else <[name := t ++ [c]]> tables)
  | OpAddRule name chain rule =>
      t ← tables !! name; t' ← append_rule chain rule t; Some (<[name := t']> tables)
  | OpDelRule name chain rule =>
      t ← tables !! name; t' ← delete_rule chain rule t; Some (<[name := t']> tables)
  end.

(** [conn.Flush()]: all of the batch or none of it. *)
Fixpoint apply_batch (ops : list nftop) (tables : gmap string ntable) : option (gmap string ntable) :=
  match ops with
  | [] => Some tables
  | op :: ops' => tables' ← apply_op tables op; apply_batch ops' tables'
  end.

(** A chain and its rules, as the source adds them. *)
Definition chain_ops (table : string) (c : nchain) (rules : list nrule) : list nftop :=
  OpAddChain table c :: map (OpAddRule table (ch_name c)) rules.

Definition with_rules (c : nchain) (rules : list nrule) : nchain :=
  mkChain (ch_name c) (ch_type c) (ch_hook c) (ch_priority c) (ch_policy c) rules.

Lemma apply_batch_app ops ops' tables :
  apply_batch (ops ++ ops') tables = tables' ← apply_batch ops tables; apply_batch ops' tables'.
Proof.
  revert tables. induction ops as [|op ops IH]; intros tables; cbn; [done|].
  destruct (apply_op tables op); cbn; [apply IH|done].
Qed.

Lemma append_rule_last name rule t c :
  existsb (fun c' => String.eqb (ch_name c') (ch_name c)) t = false -> name = ch_name c ->
  append_rule name rule (t ++ [c]) = Some (t ++ [with_rules c (ch_rules c ++ [rule])]).
Proof.
  intros Hfresh ->. induction t as [|c' t IH]; cbn in *.
  - by rewrite String.eqb_refl.
  - apply orb_false_iff in Hfresh as [Hne Hfresh]. rewrite Hne, (IH Hfresh). done.
Qed.

Lemma apply_rules name rules tables t c :
  tables !! name = Some (t ++ [c]) ->
  existsb (fun c' => String.eqb (ch_name c') (ch_name c)) t = false ->
  apply_batch (map (OpAddRule name (ch_name c)) rules) tables =
    Some (<[name := t ++ [with_rules c (ch_rules c ++ rules)]]> tables).
Proof.
  revert tables c. induction rules as [|r rules IH]; intros tables c Ht Hfresh.
  - cbn. rewrite app_nil_r. rewrite insert_id; [done|]. rewrite Ht. by destruct c.
  - cbn [map apply_batch apply_op]. rewrite Ht. cbn [mbind option_bind].
    rewrite (append_rule_last _ r t c) by done. cbn [mbind option_bind].
    rewrite (IH _ (with_rules c (ch_rules c ++ [r]))); [|by rewrite lookup_insert_eq|done].
    rewrite insert_insert_eq. cbn. unfold with_rules. cbn. by rewrite <- app_assoc.
Qed.

(** Adding a chain with rules to a table that lacks it appends it. *)
Lemma apply_chain_ops name c rules tables t :
  tables !! name = Some t -> ch_rules c = [] ->
  existsb (fun c' => String.eqb (ch_name c') (ch_name c)) t = false ->
  apply_batch (chain_ops name c rules) tables = Some (<[name := t ++ [with_rules c rules]]> tables).
Proof.
  intros Ht Hc Hfresh. unfold chain_ops. cbn [apply_batch apply_op]. rewrite Ht. cbn [mbind option_bind].
  rewrite Hfresh. rewrite (apply_rules name rules _ t c); [|by rewrite lookup_insert_eq|done].
  by rewrite insert_insert_eq, Hc.
Qed.
