(* ===== verification/Dataplane.v ===== *)
(** * The workload data plane's policy (internal/dataplane)

    The protected-path configuration and its validation, the nftables rules
    the Linux backend emits for it, and what those rules let through.  The
    kernel state they act on is in Kernel.v. *)

From Stdlib Require Import Btauto.
From S2P Require Import Prelude Sha256 Netip Nft.

(** ** Configuration *)

Definition ClusterTrafficPreserve : string := "Preserve".
Definition ClusterTrafficGateway : string := "Gateway".
Definition ClusterTrafficDeny : string := "Deny".

Record ApplicationPortRedirect := mkApplicationPortRedirect {
  apr_Identity : string;
  apr_TargetPort : Z;
  apr_ApplicationPort : Z;
  apr_Protocols : list string
}.

#[global] Instance ApplicationPortRedirect_eq_dec : EqDecision ApplicationPortRedirect.
Proof. solve_decision. Defined.

Record Config := mkConfig {
  cfg_PodUID : string;
  cfg_AllocationGeneration : Z;
  cfg_GatewayGeneration : Z;
  cfg_Address : Prefix;
  cfg_OverlayCIDR : Prefix;
  cfg_GatewayAddress : Addr;
  cfg_GatewayEndpoint : AddrPort;
  cfg_GatewayHealthPort : Z;
  cfg_VNI : Z;
  cfg_MTU : Z;
  cfg_ClusterTrafficMode : string;
  cfg_ClusterCIDRs : list Prefix;
  cfg_UnderlayInterface : string;
  cfg_OverlayInterfaceName : string;
  cfg_ApplicationPortRedirects : list ApplicationPortRedirect
}.

#[global] Instance Config_eq_dec : EqDecision Config.
Proof. solve_decision. Defined.

(** The inner loop over a redirect's protocols: the matches seen so far, or
    the error. *)
Fixpoint redirect_protocols (target : Z) (protocols : list string) (matches : gset string) :
    res (gset string) :=
  match protocols with
  | [] => Ok matches
  | protocol :: rest =>
      if negb (String.eqb protocol "TCP") && negb (String.eqb protocol "UDP")
      then Fail (ENew "application port redirect protocol is invalid")
      else
        let m := itoa target +:+ "/" +:+ protocol in
        if decide (m ∈ matches) then Fail (ENew "application port redirect target is duplicated")
        else redirect_protocols target rest ({[m]} ∪ matches)
  end.

Fixpoint validate_redirects (redirects : list ApplicationPortRedirect) (identities matches : gset string) :
    option error :=
  match redirects with
  | [] => None
  | r :: rest =>
      if str_empty (apr_Identity r) || (apr_TargetPort r =? 0) || (apr_ApplicationPort r =? 0) ||
         (apr_TargetPort r =? apr_ApplicationPort r) || bool_decide (apr_Protocols r = [])
      then Some (ENew "application port redirect is invalid")
      else if decide (apr_Identity r ∈ identities)
      then Some (ENew "application port redirect identity is duplicated")
      else match redirect_protocols (apr_TargetPort r) (apr_Protocols r) matches with
           | Fail err => Some err
           | Ok matches' => validate_redirects rest ({[apr_Identity r]} ∪ identities) matches'
           end
  end.

Definition Config_Validate (c : Config) : option error :=
  if str_empty (cfg_PodUID c) then Some (ENew "pod UID is required")
  else if negb (Prefix_IsValid (cfg_Address c)) || negb (Prefix_IsValid (cfg_OverlayCIDR c)) ||
          negb (Prefix_Bits (cfg_Address c) =? Prefix_Bits (cfg_OverlayCIDR c)) ||
          negb (Prefix_Contains (cfg_OverlayCIDR c) (Prefix_Addr (cfg_Address c)))
  then Some (ENew "allocated address must belong to the overlay CIDR")
  else if negb (Addr_IsValid (cfg_GatewayAddress c)) ||
          negb (Prefix_Contains (cfg_OverlayCIDR c) (cfg_GatewayAddress c)) ||
          bool_decide (cfg_GatewayAddress c = Prefix_Addr (cfg_Address c))
  then Some (ENew "gateway address must be a different address in the overlay CIDR")
  else if negb (AddrPort_IsValid (cfg_GatewayEndpoint c)) || (AddrPort_Port (cfg_GatewayEndpoint c) =? 0)
  then Some (ENew "gateway underlay endpoint is required")
  else if cfg_GatewayHealthPort c =? 0 then Some (ENew "observed gateway overlay health port is required")
  else if (cfg_VNI c =? 0) || (16777215 <? cfg_VNI c) then Some (ENew "VNI must be between 1 and 16777215")
  else if cfg_MTU c <? 576 then Some (ENew "MTU must be at least 576")
  else if negb (contains_string [ClusterTrafficPreserve; ClusterTrafficGateway; ClusterTrafficDeny]
                  (cfg_ClusterTrafficMode c))
  then Some (ENew "unknown cluster traffic mode")
  else if negb (forallb Prefix_IsValid (cfg_ClusterCIDRs c)) then Some (ENew "cluster CIDRs must be valid")
  else validate_redirects (cfg_ApplicationPortRedirects c) ∅ ∅.

(** ** Names *)

(** [fmt.Sprintf("wc%x", sum[:6])], unless the name is configured. *)
Definition overlayName (c : Config) : string :=
  if negb (str_empty (cfg_OverlayInterfaceName c)) then cfg_OverlayInterfaceName c
  else "wc" +:+ EncodeToString (take 6 (Sum256 (bytes_of_string (cfg_PodUID c)))).

Definition policyTableName (podUID : string) : string :=
  "waycloak_" +:+ EncodeToString (take 8 (Sum256 (bytes_of_string podUID))).

Definition outputChainName : string := "output".
Definition gatewayDNSPort : Z := 1053.

(** ** Rules *)

(** [addr.AsSlice()]. *)
Definition AsSlice (a : Addr) : list Z :=
  match a with Addr4 v => be_bytes 4 v | Addr6 v | Addr6Zone v _ => be_bytes 16 v | AddrZero => [] end.

(** [net.CIDRMask(ones, bits)]: nil when the length is out of range. *)
Definition CIDRMask (ones bits : Z) : list Z :=
  if (0 <=? ones) && (ones <=? bits) then be_bytes (Z.to_nat (bits / 8)) (2 ^ bits - 2 ^ (bits - ones)) else [].

(** Offset of the destination address in the network header, and nfproto. *)
Definition dest_offset (a : Addr) : Z := if Addr_Is6 a then 24 else 16.
Definition nfproto_of (a : Addr) : Z := if Addr_Is6 a then NFPROTO_IPV6 else NFPROTO_IPV4.

Definition addInterfaceVerdict (name : string) (v : verdict) (marker : string) : nrule :=
  mkRule marker [Meta MetaKeyOIFNAME 1; CmpEq 1 (interfaceName name); Verdict v].

Definition addEndpointVerdict (underlay : string) (endpoint : AddrPort) (marker : string) : nrule :=
  let addr := Addr_Unmap (AddrPort_Addr endpoint) in
  mkRule marker
    [Meta MetaKeyOIFNAME 1; CmpEq 1 (interfaceName underlay);
     Meta MetaKeyNFPROTO 1; CmpEq 1 [nfproto_of addr];
     Payload 1 PayloadBaseNetworkHeader (dest_offset addr) (Z.of_nat (length (AsSlice addr)));
     CmpEq 1 (AsSlice addr);
     Meta MetaKeyL4PROTO 1; CmpEq 1 [IPPROTO_UDP];
     Payload 1 PayloadBaseTransportHeader 2 2; CmpEq 1 (be_bytes 2 (AddrPort_Port endpoint));
     Verdict VerdictAccept].

Definition addPrefixVerdict (prefix : Prefix) (v : verdict) (marker : string) : nrule :=
  let prefix := Prefix_Masked prefix in
  let addr := Addr_Unmap (Prefix_Addr prefix) in
  let mask := CIDRMask (Prefix_Bits prefix) (if Addr_Is6 addr then 128 else 32) in
  mkRule marker
    [Meta MetaKeyNFPROTO 1; CmpEq 1 [nfproto_of addr];
     Payload 1 PayloadBaseNetworkHeader (dest_offset addr) (Z.of_nat (length (AsSlice addr)));
     Bitwise 1 1 mask (repeat 0 (length mask));
     CmpEq 1 (AsSlice addr);
     Verdict v].

Definition dns_rule (gateway : Addr) (marker : string) (transport : Z) : nrule :=
  mkRule marker
    [Meta MetaKeyNFPROTO 1; CmpEq 1 [nfproto_of gateway];
     Meta MetaKeyL4PROTO 1; CmpEq 1 [transport];
     Payload 1 PayloadBaseTransportHeader 2 2; CmpEq 1 (be_bytes 2 53);
     Immediate 1 (AsSlice gateway); Immediate 2 (be_bytes 2 gatewayDNSPort);
     DestNAT (nfproto_of gateway) 1 2].

Definition dns_chain : nchain :=
  mkChain "dns-output" ChainTypeNAT ChainHookOutput ChainPriorityNATDest None [].

Definition addDNSRedirect (table : string) (gateway : Addr) (marker : string) : list nftop :=
  let gateway := Addr_Unmap gateway in
  chain_ops table dns_chain (map (dns_rule gateway marker) [IPPROTO_UDP; IPPROTO_TCP]).

Definition application_rule (address : Addr) (marker : string) (r : ApplicationPortRedirect) (protocol : string) : nrule :=
  mkRule (marker +:+ ":" +:+ apr_Identity r)
    [Meta MetaKeyNFPROTO 1; CmpEq 1 [nfproto_of address];
     Payload 1 PayloadBaseNetworkHeader (dest_offset address) (Z.of_nat (length (AsSlice address)));
     CmpEq 1 (AsSlice address);
     Meta MetaKeyL4PROTO 1; CmpEq 1 [if String.eqb protocol "UDP" then IPPROTO_UDP else IPPROTO_TCP];
     Payload 1 PayloadBaseTransportHeader 2 2; CmpEq 1 (be_bytes 2 (apr_TargetPort r));
     Immediate 1 (AsSlice address); Immediate 2 (be_bytes 2 (apr_ApplicationPort r));
     DestNAT (nfproto_of address) 1 2].

Definition application_chain : nchain :=
  mkChain "application-port-prerouting" ChainTypeNAT ChainHookPrerouting ChainPriorityNATDest None [].

Definition application_rules (address : Addr) (redirects : list ApplicationPortRedirect) (marker : string) : list nrule :=
  flat_map (fun r => map (application_rule address marker r) (apr_Protocols r)) redirects.

Definition addApplicationPortRedirects (table : string) (address : Addr) (redirects : list ApplicationPortRedirect)
    (marker : string) : list nftop :=
  chain_ops table application_chain (application_rules (Addr_Unmap address) redirects marker).

(** What [replacePolicy] is called with. *)
Record Policy := mkPolicy {
  po_UnderlayName : string;
  po_Endpoint : AddrPort;
  po_OverlayName : string;
  po_DNSGateway : Addr;
  po_ApplicationAddress : Addr;
  po_Mode : string;
  po_ClusterCIDRs : list Prefix;
  po_Redirects : list ApplicationPortRedirect
}.

Definition output_chain : nchain :=
  mkChain outputChainName ChainTypeFilter ChainHookOutput ChainPriorityRaw (Some VerdictDrop) [].

Definition output_rules (marker : string) (po : Policy) : list nrule :=
  [addInterfaceVerdict "lo" VerdictAccept marker] ++
  (if String.eqb (po_Mode po) ClusterTrafficDeny
   then map (fun prefix => addPrefixVerdict prefix VerdictDrop marker) (po_ClusterCIDRs po) else []) ++
  (if negb (str_empty (po_OverlayName po))
   then [addInterfaceVerdict (po_OverlayName po) VerdictAccept marker] else []) ++
  (if negb (str_empty (po_UnderlayName po)) && AddrPort_IsValid (po_Endpoint po)
   then [addEndpointVerdict (po_UnderlayName po) (po_Endpoint po) marker] else []) ++
  (if String.eqb (po_Mode po) ClusterTrafficPreserve
   then map (fun prefix => addPrefixVerdict prefix VerdictAccept marker) (po_ClusterCIDRs po) else []).

(** The batch [replacePolicy] flushes, given the tables it listed. *)
Definition policy_batch (existing : list string) (podUID : string) (po : Policy) : list nftop :=
  let tableName := policyTableName podUID in
  let marker := "waycloak:" +:+ podUID in
  map OpDelTable (List.filter (String.eqb tableName) existing) ++
  [OpAddTable tableName] ++
  chain_ops tableName output_chain (output_rules marker po) ++
  (if Addr_IsValid (po_DNSGateway po) then addDNSRedirect tableName (po_DNSGateway po) marker else []) ++
  (if (0 <? Z.of_nat (length (po_Redirects po)))
   then addApplicationPortRedirects tableName (po_ApplicationAddress po) (po_Redirects po) marker else []).

Definition lockdown_policy : Policy :=
  mkPolicy "" (mkAddrPort AddrZero 0) "" AddrZero AddrZero ClusterTrafficGateway [] [].

Definition configured_policy (underlay : string) (c : Config) : Policy :=
  mkPolicy underlay (cfg_GatewayEndpoint c) (overlayName c) (cfg_GatewayAddress c)
    (Prefix_Addr (cfg_Address c)) (cfg_ClusterTrafficMode c) (cfg_ClusterCIDRs c)
    (cfg_ApplicationPortRedirects c).

(** The table the batch leaves behind. *)
Definition policy_table (podUID : string) (po : Policy) : list nchain :=
  let marker := "waycloak:" +:+ podUID in
  [with_rules output_chain (output_rules marker po)] ++
  (if Addr_IsValid (po_DNSGateway po)
   then [with_rules dns_chain (map (dns_rule (Addr_Unmap (po_DNSGateway po)) marker) [IPPROTO_UDP; IPPROTO_TCP])]
   else []) ++
  (if (0 <? Z.of_nat (length (po_Redirects po)))
   then [with_rules application_chain
           (application_rules (Addr_Unmap (po_ApplicationAddress po)) (po_Redirects po) marker)]
   else []).

(** ** The transaction replaces the table *)

Lemma filter_eqb_name name l : NoDup l ->
  List.filter (String.eqb name) l = if decide (name ∈ l) then [name] else [].
Proof.
  induction 1 as [|x l Hx Hnd IH]; cbn; [done|].
  destruct (String.eqb_spec name x) as [<-|Hne].
  - rewrite IH, decide_False by done. by rewrite decide_True by set_solver.
  - rewrite IH. by destruct (decide (name ∈ l)); destruct (decide (name ∈ x :: l)); set_solver.
Qed.

Lemma NoDup_table_names (tables : gmap string (list nchain)) : NoDup (map fst (map_to_list tables)).
Proof. apply NoDup_fst_map_to_list. Qed.

Lemma apply_delete_add name (tables : gmap string (list nchain)) :
  apply_batch (map OpDelTable (List.filter (String.eqb name) (map fst (map_to_list tables))) ++ [OpAddTable name])
    tables = Some (<[name := []]> tables).
Proof.
  rewrite filter_eqb_name by apply NoDup_table_names.
  assert (name ∈ map fst (map_to_list tables) <-> is_Some (tables !! name)) as Hin.
  { rewrite list_elem_of_fmap. split.
    - intros ([n t] & -> & Hin%elem_of_map_to_list). by exists t.
    - intros [t Ht%elem_of_map_to_list]. by exists (name, t). }
  destruct (decide (name ∈ map fst (map_to_list tables))) as [Hd|Hd]; cbn.
  - apply Hin in Hd. rewrite decide_True by done. cbn. rewrite lookup_delete_eq. cbn. by rewrite insert_delete_eq.
  - destruct (tables !! name) eqn:E; [|done]. destruct Hd. apply Hin. by exists l.
Qed.

(** Whatever the kernel's tables are, a flushed policy batch leaves exactly
    the policy's table under the Pod's name and every other table as it was. *)
Lemma policy_batch_applies tables podUID po :
  apply_batch (policy_batch (map fst (map_to_list tables)) podUID po) tables =
    Some (<[policyTableName podUID := policy_table podUID po]> tables).
Proof.
  unfold policy_batch, policy_table. set (name := policyTableName podUID). set (marker := "waycloak:" +:+ podUID).
  rewrite app_assoc, apply_batch_app, apply_delete_add. cbn [mbind option_bind].
  rewrite apply_batch_app, (apply_chain_ops name output_chain _ _ []) by (by rewrite ?lookup_insert_eq).
  cbn [mbind option_bind app]. rewrite insert_insert_eq. rewrite apply_batch_app.
  destruct (Addr_IsValid (po_DNSGateway po)).
  - unfold addDNSRedirect.
    erewrite (apply_chain_ops name dns_chain) by (by rewrite ?lookup_insert_eq). cbn [mbind option_bind].
    rewrite insert_insert_eq. destruct (0 <? _); [|done]. unfold addApplicationPortRedirects.
    erewrite (apply_chain_ops name application_chain) by (by rewrite ?lookup_insert_eq).
    by rewrite insert_insert_eq, <- app_assoc.
  - cbn [apply_batch mbind option_bind app]. destruct (0 <? _); [|done]. unfold addApplicationPortRedirects.
    erewrite (apply_chain_ops name application_chain) by (by rewrite ?lookup_insert_eq).
    by rewrite insert_insert_eq.
Qed.

(** ** What the rules match *)

(** The packet leaves through this interface. *)
Definition leaves_by (p : packet) (name : string) : bool := bool_decide (interfaceName (pk_oif p) = interfaceName name).

(** The destination address in the packet's network header. *)
Definition destination (p : packet) : option Addr :=
  if pk_nfproto p =? NFPROTO_IPV4 then
    let b := take 4 (drop 16 (pk_network p)) in
    if (length b =? 4)%nat then Some (Addr4 (be_value b)) else None
  else if pk_nfproto p =? NFPROTO_IPV6 then
    let b := take 16 (drop 24 (pk_network p)) in
    if (length b =? 16)%nat then Some (Addr6 (be_value b)) else None
  else None.

Definition destination_port (p : packet) : option Z :=
  let b := take 2 (drop 2 (pk_transport p)) in
  if (length b =? 2)%nat then Some (be_value b) else None.

(** Header bytes are bytes. *)
Definition well_formed (p : packet) : Prop := Forall is_byte (pk_network p) /\ Forall is_byte (pk_transport p).

(** *** Byte strings and values *)

Lemma be_value_acc l acc :
  fold_left (fun acc b => acc * 256 + b) l acc = acc * 256 ^ Z.of_nat (length l) + be_value l.
Proof.
  unfold be_value. revert acc. induction l as [|b l IH]; intros acc; cbn [fold_left length].
  { rewrite Z.pow_0_r. lia. }
  rewrite IH, (IH (0 * 256 + b)), Nat2Z.inj_succ, Z.pow_succ_r by lia. lia.
Qed.

Lemma be_value_cons b l : be_value (b :: l) = b * 256 ^ Z.of_nat (length l) + be_value l.
Proof. unfold be_value at 1. cbn [fold_left]. rewrite be_value_acc. lia. Qed.

Lemma be_value_range l : Forall is_byte l -> 0 <= be_value l < 256 ^ Z.of_nat (length l).
Proof.
  induction 1 as [|b l Hb Hl IH]; [done|]. rewrite be_value_cons. cbn [length].
  rewrite Nat2Z.inj_succ, Z.pow_succ_r by lia. unfold is_byte in Hb. nia.
Qed.

(** A byte string is the encoding of its value. *)
Lemma be_bytes_value l : Forall is_byte l -> be_bytes (length l) (be_value l) = l.
Proof.
  induction 1 as [|b l Hb Hl IH]; [done|]. cbn [length be_bytes]. rewrite be_value_cons.
  pose proof (be_value_range l Hl) as Hr. unfold is_byte in Hb.
  assert (0 < 256 ^ Z.of_nat (length l)) as Hpos by (apply Z.pow_pos_nonneg; lia).
  assert (forall n x y, (n <= length l)%nat -> be_bytes n (x * 256 ^ Z.of_nat (length l) + y) = be_bytes n y) as Hlow.
  { clear IH. induction n as [|n IHn]; intros x y Hn; cbn [be_bytes]; [done|]. rewrite IHn by lia. f_equal.
    rewrite !Z.shiftr_div_pow2 by lia.
    replace (2 ^ (8 * Z.of_nat n)) with (256 ^ Z.of_nat n) by (rewrite Z.pow_mul_r by lia; done).
    assert (0 < 256 ^ Z.of_nat n) by (apply Z.pow_pos_nonneg; lia).
    replace (256 ^ Z.of_nat (length l)) with (256 ^ Z.of_nat n * (256 * 256 ^ (Z.of_nat (length l) - Z.of_nat n - 1))).
    2: { rewrite <- Z.pow_succ_r, <- Z.pow_add_r by lia. f_equal. lia. }
    replace (x * (256 ^ Z.of_nat n * (256 * 256 ^ (Z.of_nat (length l) - Z.of_nat n - 1))) + y)
      with (y + (x * 256 ^ (Z.of_nat (length l) - Z.of_nat n - 1) * 256) * 256 ^ Z.of_nat n) by lia.
    rewrite Z.div_add, Z.mod_add by lia. done. }
  rewrite Hlow by lia. rewrite IH. f_equal.
  rewrite Z.shiftr_div_pow2 by lia.
  replace (2 ^ (8 * Z.of_nat (length l))) with (256 ^ Z.of_nat (length l)) by (rewrite Z.pow_mul_r by lia; done).
  rewrite Z.div_add_l, (Z.div_small (be_value l)), Z.add_0_r by lia. apply Z.mod_small. lia.
Qed.

Lemma be_bytes_eq n l v :
  Forall is_byte l -> length l = n -> 0 <= v < 256 ^ Z.of_nat n -> l = be_bytes n v <-> be_value l = v.
Proof.
  intros Hl Hlen Hv. rewrite <- (be_bytes_value l Hl) at 1. rewrite Hlen. split.
  - intros Heq. apply (be_bytes_inj n); [|done|done]. rewrite <- Hlen. by apply be_value_range.
  - by intros ->.
Qed.

(** *** Masks *)

Lemma be_bytes_land n x y : zip_with Z.land (be_bytes n x) (be_bytes n y) = be_bytes n (Z.land x y).
Proof.
  induction n as [|n IH]; cbn [be_bytes zip_with]; [done|]. f_equal; [|done].
  change 256 with (2 ^ 8). rewrite <- !Z.land_ones by lia. rewrite Z.shiftr_land.
  apply Z.bits_inj'. intros i Hi. rewrite !Z.land_spec. btauto.
Qed.

Lemma zip_lxor_zeros l : zip_with Z.lxor l (repeat 0 (length l)) = l.
Proof. induction l as [|x l IH]; cbn; [done|]. by rewrite Z.lxor_0_r, IH. Qed.

Lemma land_mask w h v :
  0 <= h <= w -> 0 <= v < 2 ^ w -> Z.land v (2 ^ w - 2 ^ h) = mask_value h v.
Proof.
  intros Hh Hv. unfold mask_value.
  replace (2 ^ w - 2 ^ h) with (Z.shiftl (Z.ones (w - h)) h).
  2: { rewrite Z.shiftl_mul_pow2, Z.ones_equiv, Z.mul_pred_l, <- Z.pow_add_r by lia. do 2 f_equal. lia. }
  apply Z.bits_inj'. intros i Hi. rewrite Z.land_spec, !Z.shiftl_spec by lia.
  destruct (Z.ltb_spec i h) as [Hlt|Hge].
  - rewrite !(Z.testbit_neg_r _ (i - h)) by lia. apply andb_false_r.
  - rewrite Z.shiftr_spec by lia. rewrite Z.sub_add.
    destruct (Z.ltb_spec i w) as [Hw|Hw].
    + rewrite Z.ones_spec_low by lia. apply andb_true_r.
    + rewrite Z.ones_spec_high by lia. rewrite andb_false_r.
      symmetry. apply Z.testbit_false; [lia|]. rewrite Z.div_small; [done|].
      split; [lia|]. eapply Z.lt_le_trans; [apply Hv|]. apply Z.pow_le_mono_r; lia.
Qed.

Lemma mask_value_eq h u v : 0 <= h -> mask_value h u = mask_value h v <-> Z.shiftr u h = Z.shiftr v h.
Proof.
  intros Hh. unfold mask_value. rewrite !Z.shiftl_mul_pow2 by done. split; [|by intros ->].
  assert (0 < 2 ^ h) by (apply Z.pow_pos_nonneg; lia). nia.
Qed.

Lemma lxor_shiftr h u v : Z.shiftr (Z.lxor u v) h =? 0 = true <-> Z.shiftr u h = Z.shiftr v h.
Proof. rewrite Z.eqb_eq, Z.shiftr_lxor. apply Z.lxor_eq_0_iff. Qed.

(** A prefix the rules can express: a valid length, an address of its width,
    and not an IPv4 range written in IPv6 form. *)
Definition plain_prefix (x : Prefix) : Prop :=
  match Prefix_Addr x with
  | Addr4 v => 0 <= Prefix_Bits x <= 32 /\ 0 <= v < 2 ^ 32
  | Addr6 v => 0 <= Prefix_Bits x <= 128 /\ 0 <= v < 2 ^ 128 /\
      Addr_Unmap (Addr6 (mask_value (128 - Prefix_Bits x) v)) = Addr6 (mask_value (128 - Prefix_Bits x) v)
  | AddrZero | Addr6Zone _ _ => False
  end.

(** The mask step of a prefix rule, for either family. *)
Lemma masked_match n bits v l :
  0 <= bits <= 8 * Z.of_nat n -> 0 <= v < 2 ^ (8 * Z.of_nat n) -> Forall is_byte l -> length l = n ->
  let mask := CIDRMask bits (8 * Z.of_nat n) in
  zip_with Z.lxor (zip_with Z.land l mask) (repeat 0 (length mask)) =
    be_bytes n (mask_value (8 * Z.of_nat n - bits) v) <->
  Z.shiftr (Z.lxor (be_value l) v) (8 * Z.of_nat n - bits) =? 0 = true.
Proof.
  intros Hbits Hv Hl Hlen mask. unfold mask, CIDRMask.
  assert (256 ^ Z.of_nat n = 2 ^ (8 * Z.of_nat n)) as H256 by (rewrite Z.pow_mul_r by lia; done).
  pose proof (be_value_range l Hl) as Hr. rewrite Hlen, H256 in Hr.
  destruct (Z.leb_spec 0 bits); [|lia]. destruct (Z.leb_spec bits (8 * Z.of_nat n)); [|lia]. cbn [andb].
  rewrite (Z.mul_comm 8), Z.div_mul by lia. rewrite Nat2Z.id, (Z.mul_comm _ 8).
  rewrite <- (be_bytes_value l Hl) at 1. rewrite Hlen, be_bytes_land, land_mask by lia.
  rewrite be_bytes_length. replace (repeat 0 n)
    with (repeat 0 (length (be_bytes n (mask_value (8 * Z.of_nat n - bits) (be_value l)))))
    by by rewrite be_bytes_length.
  rewrite zip_lxor_zeros, lxor_shiftr, <- mask_value_eq by lia. split; [|by intros ->].
  apply be_bytes_inj; rewrite H256, mask_value_spec by lia.
  all: assert (0 < 2 ^ (8 * Z.of_nat n - bits)) by (apply Z.pow_pos_nonneg; lia).
  all: split; [apply Z.mul_nonneg_nonneg; [apply Z.div_pos; lia|lia]|].
  all: eapply Z.le_lt_trans; [rewrite Z.mul_comm; apply Z.mul_div_le; lia|lia].
Qed.

(** *** Rules as predicates on packets *)

Lemma interfaceName_length name : length (interfaceName name) = 16%nat.
Proof. unfold interfaceName. rewrite length_take, length_app, repeat_length. lia. Qed.

(** Loading a meta value and comparing it. *)
Lemma eval_meta_cmp k data es rs p :
  length (meta_value p k) = length data ->
  eval_exprs (Meta k 1 :: CmpEq 1 data :: es) rs p =
    if bytes_eqb (meta_value p k) data then eval_exprs es (set_reg 1 (meta_value p k) rs) p else None.
Proof.
  intros Hlen. cbn [eval_exprs]. unfold set_reg at 1. cbn [Z.eqb Pos.eqb].
  by rewrite (take_ge (meta_value p k) (length data)) by lia.
Qed.

Lemma eval_interface name v marker p :
  eval_rule (addInterfaceVerdict name v marker) p = if leaves_by p name then Some (Decided v) else None.
Proof.
  unfold eval_rule, addInterfaceVerdict. cbn [ru_exprs]. rewrite eval_meta_cmp by (cbn; by rewrite !interfaceName_length).
  done.
Qed.

(** The network-header slice a destination match loads. *)
Definition dest_slice (six : bool) (p : packet) : list Z :=
  if six then take 16 (drop 24 (pk_network p)) else take 4 (drop 16 (pk_network p)).
Definition dest_width (six : bool) : nat := if six then 16 else 4.

Lemma dest_slice_bytes six p : well_formed p -> Forall is_byte (dest_slice six p).
Proof. intros [Hn _]. unfold dest_slice. destruct six; by apply Forall_take, Forall_drop. Qed.

(** The family test and the load of the destination, as every rule that looks
    at the destination starts. *)
Lemma eval_dest (six : bool) es rs p :
  eval_exprs (Meta MetaKeyNFPROTO 1 :: CmpEq 1 [if six then NFPROTO_IPV6 else NFPROTO_IPV4] ::
              Payload 1 PayloadBaseNetworkHeader (if six then 24 else 16) (Z.of_nat (dest_width six)) :: es) rs p =
  if bool_decide (pk_nfproto p = if six then NFPROTO_IPV6 else NFPROTO_IPV4) &&
     (length (dest_slice six p) =? dest_width six)%nat
  then eval_exprs es (set_reg 1 (dest_slice six p) (set_reg 1 [pk_nfproto p] rs)) p else None.
Proof.
  rewrite eval_meta_cmp by done. cbn [meta_value].
  assert (bytes_eqb [pk_nfproto p] [if six then NFPROTO_IPV6 else NFPROTO_IPV4] =
          bool_decide (pk_nfproto p = if six then NFPROTO_IPV6 else NFPROTO_IPV4)) as ->
    by (apply bool_decide_ext; split; [by intros [=]|by intros ->]).
  destruct (bool_decide _); [|done]. cbn [eval_exprs andb header]. rewrite Nat2Z.id.
  replace (take (dest_width six) (drop (Z.to_nat (if six then 24 else 16)) (pk_network p)))
    with (dest_slice six p) by by destruct six.
  destruct (Z.eqb_spec (Z.of_nat (length (dest_slice six p))) (Z.of_nat (dest_width six))) as [Heq|Hne].
  - apply Nat2Z.inj in Heq. by rewrite Heq, Nat.eqb_refl.
  - destruct (Nat.eqb_spec (length (dest_slice six p)) (dest_width six)); [lia|done].
Qed.

Lemma destination_slice p a :
  destination p = Some a <->
  exists six : bool, pk_nfproto p = (if six then NFPROTO_IPV6 else NFPROTO_IPV4) /\
    length (dest_slice six p) = dest_width six /\
    a = (if six then Addr6 else Addr4) (be_value (dest_slice six p)).
Proof.
  unfold destination. destruct (Z.eqb_spec (pk_nfproto p) NFPROTO_IPV4) as [H4|H4].
  { destruct (Nat.eqb_spec (length (take 4 (drop 16 (pk_network p)))) 4) as [Hl|Hl]; split.
    - intros [= <-]. by exists false.
    - intros ([|] & Hf & Hlen & ->); [rewrite H4 in Hf; done|done].
    - done.
    - intros ([|] & Hf & Hlen & ->); [rewrite H4 in Hf; done|done]. }
  destruct (Z.eqb_spec (pk_nfproto p) NFPROTO_IPV6) as [H6|H6].
  { destruct (Nat.eqb_spec (length (take 16 (drop 24 (pk_network p)))) 16) as [Hl|Hl]; split.
    - intros [= <-]. by exists true.
    - intros ([|] & Hf & Hlen & ->); done.
    - done.
    - intros ([|] & Hf & Hlen & ->); done. }
  split; [done|]. intros ([|] & Hf & _); done.
Qed.

(** The packet's destination lies in the prefix. *)
Definition destined_in (x : Prefix) (p : packet) : bool :=
  match destination p with Some a => Prefix_Contains x a | None => false end.

Lemma contains_family (six : bool) v bits u :
  Prefix_Contains (mkPrefix ((if six then Addr6 else Addr4) v) bits) ((if six then Addr4 else Addr6) u) = false.
Proof. unfold Prefix_Contains. destruct six; apply andb_false_r. Qed.

Lemma eval_prefix_family (six : bool) v bits v' verdict p :
  0 <= bits <= 8 * Z.of_nat (dest_width six) -> 0 <= v < 2 ^ (8 * Z.of_nat (dest_width six)) ->
  v' = mask_value (8 * Z.of_nat (dest_width six) - bits) v -> well_formed p ->
  let addr := (if six then Addr6 else Addr4) v' in
  let mask := CIDRMask bits (8 * Z.of_nat (dest_width six)) in
  eval_exprs [Meta MetaKeyNFPROTO 1; CmpEq 1 [if six then NFPROTO_IPV6 else NFPROTO_IPV4];
     Payload 1 PayloadBaseNetworkHeader (if six then 24 else 16) (Z.of_nat (dest_width six));
     Bitwise 1 1 mask (repeat 0 (length mask)); CmpEq 1 (be_bytes (dest_width six) v'); Verdict verdict] no_regs p =
  if destined_in (mkPrefix ((if six then Addr6 else Addr4) v) bits) p then Some (Decided verdict) else None.
Proof.
  intros Hbits Hv -> Hwf addr mask. rewrite eval_dest. unfold destined_in.
  destruct (bool_decide_reflect (pk_nfproto p = if six then NFPROTO_IPV6 else NFPROTO_IPV4)) as [Hf|Hf]; cbn [andb].
  2: { destruct (destination p) as [a|] eqn:Ed; [|done]. apply destination_slice in Ed as (six' & Hf' & _ & ->).
       destruct six, six'; try done; [by rewrite (contains_family true)|by rewrite (contains_family false)]. }
  destruct (Nat.eqb_spec (length (dest_slice six p)) (dest_width six)) as [Hl|Hl].
  2: { destruct (destination p) as [a|] eqn:Ed; [|done]. apply destination_slice in Ed as (six' & Hf' & Hl' & ->).
       destruct six, six'; try done; [by rewrite (contains_family true)|by rewrite (contains_family false)]. }
  assert (destination p = Some ((if six then Addr6 else Addr4) (be_value (dest_slice six p)))) as ->
    by (apply destination_slice; by exists six).
  pose proof (masked_match (dest_width six) bits v (dest_slice six p) Hbits Hv (dest_slice_bytes six p Hwf) Hl) as Hm.
  cbv zeta in Hm. fold mask in Hm. cbn [eval_exprs]. unfold set_reg at 1 2. cbn [Z.eqb Pos.eqb].
  set (masked := zip_with Z.lxor _ _) in *. rewrite be_bytes_length.
  assert (length masked = dest_width six) as Hlm.
  { unfold masked, mask, CIDRMask. destruct (Z.leb_spec 0 bits); [|lia].
    destruct (Z.leb_spec bits (8 * Z.of_nat (dest_width six))); [|lia]. cbn [andb].
    rewrite !length_zip_with, repeat_length, be_bytes_length, Hl, (Z.mul_comm 8), Z.div_mul by lia. lia. }
  rewrite (take_ge masked (dest_width six)) by lia.
  assert (Prefix_Contains (mkPrefix ((if six then Addr6 else Addr4) v) bits)
            ((if six then Addr6 else Addr4) (be_value (dest_slice six p))) =
          (Z.shiftr (Z.lxor (be_value (dest_slice six p)) v) (8 * Z.of_nat (dest_width six) - bits) =? 0)) as ->.
  { unfold Prefix_Contains, Prefix_IsValid, host_bits. destruct six; cbn [Prefix_Addr Prefix_Bits Addr_BitLen].
    all: destruct (Z.leb_spec 0 bits); [done|lia]. }
  unfold bytes_eqb. destruct (bool_decide_reflect (masked = be_bytes (dest_width six)
    (mask_value (8 * Z.of_nat (dest_width six) - bits) v))) as [Heq|Hne].
  - apply Hm in Heq. by rewrite Heq.
  - destruct (Z.eqb _ 0) eqn:E; [|done]. destruct Hne. by apply Hm.
Qed.

Lemma eval_prefix x v marker p :
  plain_prefix x -> well_formed p ->
  eval_rule (addPrefixVerdict x v marker) p = if destined_in x p then Some (Decided v) else None.
Proof.
  intros Hx Hwf. unfold eval_rule, addPrefixVerdict, Prefix_Masked, plain_prefix in *. destruct x as [a bits].
  cbn [Prefix_Addr Prefix_Bits] in *. unfold Prefix_IsValid, host_bits. cbn [Prefix_Addr Prefix_Bits Addr_BitLen].
  destruct a as [|u|u|u z]; [done| | |done].
  - destruct Hx as [Hb Hu]. destruct (Z.leb_spec 0 bits); [|lia]. cbn [Prefix_Addr Prefix_Bits Addr_Unmap].
    exact (eval_prefix_family false u bits _ v p Hb Hu eq_refl Hwf).
  - destruct Hx as (Hb & Hu & Hun). destruct (Z.leb_spec 0 bits); [|lia]. cbn [Prefix_Addr Prefix_Bits].
    cbv zeta. cbn [Prefix_Addr Prefix_Bits]. cbn [Addr_BitLen]. rewrite Hun. exact (eval_prefix_family true u bits _ v p Hb Hu eq_refl Hwf).
Qed.

(** An endpoint the rules can express. *)
Definition plain_endpoint (e : AddrPort) : Prop :=
  0 <= AddrPort_Port e < 2 ^ 16 /\
  match AddrPort_Addr e with
  | Addr4 v => 0 <= v < 2 ^ 32
  | Addr6 v => 0 <= v < 2 ^ 128 /\ Addr_Unmap (Addr6 v) = Addr6 v
  | AddrZero | Addr6Zone _ _ => False
  end.

(** The packet is UDP to this endpoint. *)
Definition sent_to (p : packet) (e : AddrPort) : bool :=
  bool_decide (destination p = Some (AddrPort_Addr e)) && (pk_l4proto p =? IPPROTO_UDP) &&
  bool_decide (destination_port p = Some (AddrPort_Port e)).

Lemma eval_port es rs p port :
  well_formed p -> 0 <= port < 2 ^ 16 ->
  eval_exprs (Payload 1 PayloadBaseTransportHeader 2 2 :: CmpEq 1 (be_bytes 2 port) :: es) rs p =
  if bool_decide (destination_port p = Some port)
  then eval_exprs es (set_reg 1 (take 2 (drop 2 (pk_transport p))) rs) p else None.
Proof.
  intros [_ Hwf] Hport. cbn [eval_exprs header]. change (Z.to_nat 2) with 2%nat. unfold destination_port.
  set (l := take 2 (drop 2 (pk_transport p))).
  assert (Forall is_byte l) as Hl by by apply Forall_take, Forall_drop.
  destruct (Nat.eqb_spec (length l) 2) as [Hlen|Hlen].
  - rewrite Hlen. change (Z.of_nat 2 =? 2) with true. unfold set_reg at 1. cbn [Z.eqb Pos.eqb].
    rewrite be_bytes_length, (take_ge l 2) by lia.
    pose proof (be_bytes_eq 2 l port Hl Hlen Hport) as Heq.
    assert (bytes_eqb l (be_bytes 2 port) = bool_decide (Some (be_value l) = Some port)) as ->; [|done].
    apply bool_decide_ext. rewrite Heq. split; [by intros ->|by intros [=]].
  - destruct (Z.eqb_spec (Z.of_nat (length l)) 2); [lia|]. done.
Qed.

Lemma eval_dest_address (six : bool) v es rs p :
  well_formed p -> 0 <= v < 2 ^ (8 * Z.of_nat (dest_width six)) ->
  eval_exprs (Meta MetaKeyNFPROTO 1 :: CmpEq 1 [if six then NFPROTO_IPV6 else NFPROTO_IPV4] ::
     Payload 1 PayloadBaseNetworkHeader (if six then 24 else 16) (Z.of_nat (dest_width six)) ::
     CmpEq 1 (be_bytes (dest_width six) v) :: es) rs p =
  if bool_decide (destination p = Some ((if six then Addr6 else Addr4) v))
  then eval_exprs es (set_reg 1 (dest_slice six p) (set_reg 1 [pk_nfproto p] rs)) p else None.
Proof.
  intros Hwf Hv. rewrite eval_dest.
  assert (256 ^ Z.of_nat (dest_width six) = 2 ^ (8 * Z.of_nat (dest_width six))) as H256
    by (rewrite Z.pow_mul_r by lia; done).
  destruct (bool_decide_reflect (destination p = Some ((if six then Addr6 else Addr4) v))) as [Hd|Hd].
  - apply destination_slice in Hd as (six' & Hf & Hl & Ha).
    assert (six' = six) as -> by (by destruct six, six').
    rewrite bool_decide_true, Hl, Nat.eqb_refl by done. cbn [andb eval_exprs]. unfold set_reg at 1. cbn [Z.eqb Pos.eqb].
    rewrite be_bytes_length, (take_ge _ (dest_width six)) by lia.
    assert (bytes_eqb (dest_slice six p) (be_bytes (dest_width six) v) = true) as ->; [|done].
    apply bool_decide_eq_true. apply be_bytes_eq; [by apply dest_slice_bytes|done|lia|]. by destruct six; injection Ha.
  - destruct (bool_decide_reflect (pk_nfproto p = if six then NFPROTO_IPV6 else NFPROTO_IPV4)) as [Hf|]; [|done].
    destruct (Nat.eqb_spec (length (dest_slice six p)) (dest_width six)) as [Hl|]; [|done].
    cbn [andb eval_exprs]. unfold set_reg at 1. cbn [Z.eqb Pos.eqb].
    rewrite be_bytes_length, (take_ge _ (dest_width six)) by lia.
    assert (bytes_eqb (dest_slice six p) (be_bytes (dest_width six) v) = false) as ->; [|done].
    apply bool_decide_eq_false. intros Heq. apply Hd. apply destination_slice. exists six. split_and!; [done|done|].
    f_equal. symmetry. apply (be_bytes_eq (dest_width six)); [by apply dest_slice_bytes|done|lia|done].
Qed.

Lemma eval_proto proto es rs p :
  eval_exprs (Meta MetaKeyL4PROTO 1 :: CmpEq 1 [proto] :: es) rs p =
  if pk_l4proto p =? proto then eval_exprs es (set_reg 1 [pk_l4proto p] rs) p else None.
Proof.
  rewrite eval_meta_cmp by done. cbn [meta_value].
  assert (bytes_eqb [pk_l4proto p] [proto] = (pk_l4proto p =? proto)) as ->; [|done].
  unfold bytes_eqb. case_bool_decide as Hb; symmetry; [apply Z.eqb_eq|apply Z.eqb_neq]; congruence.
Qed.

Lemma eval_endpoint underlay e marker p :
  plain_endpoint e -> well_formed p ->
  eval_rule (addEndpointVerdict underlay e marker) p =
  if leaves_by p underlay && sent_to p e then Some (Decided VerdictAccept) else None.
Proof.
  intros [Hport Ha] Hwf. unfold eval_rule, addEndpointVerdict. destruct e as [a port]. cbn [AddrPort_Addr AddrPort_Port] in *.
  cbn [ru_exprs]. rewrite eval_meta_cmp by (cbn; by rewrite !interfaceName_length).
  unfold leaves_by, sent_to. cbn [meta_value AddrPort_Addr AddrPort_Port]. unfold bytes_eqb at 1.
  destruct (bool_decide (interfaceName (pk_oif p) = interfaceName underlay)); [|done]. cbn [andb].
  assert (exists (six : bool) v, a = (if six then Addr6 else Addr4) v /\ 0 <= v < 2 ^ (8 * Z.of_nat (dest_width six)) /\
    Addr_Unmap a = a) as (six & v & -> & Hv & Hun).
  { destruct a as [|v|v|v z]; [done|by exists false, v| |done]. destruct Ha. by exists true, v. }
  rewrite Hun. replace (nfproto_of ((if six then Addr6 else Addr4) v)) with (if six then NFPROTO_IPV6 else NFPROTO_IPV4) by by destruct six.
  replace (dest_offset ((if six then Addr6 else Addr4) v)) with (if six then 24 else 16) by by destruct six.
  replace (AsSlice ((if six then Addr6 else Addr4) v)) with (be_bytes (dest_width six) v) by by destruct six.
  rewrite be_bytes_length, eval_dest_address by done. destruct (bool_decide (destination p = _)); [|done]. cbn [andb].
  rewrite eval_proto. destruct (pk_l4proto p =? IPPROTO_UDP); [|done]. cbn [andb].
  rewrite eval_port by done. by destruct (bool_decide _).
Qed.

(** ** What the policy lets through *)

(** The policy's inputs are expressible. *)
Definition plain_policy (po : Policy) : Prop :=
  Forall plain_prefix (po_ClusterCIDRs po) /\
  (AddrPort_IsValid (po_Endpoint po) = true -> plain_endpoint (po_Endpoint po)).

Definition cluster_destined (po : Policy) (p : packet) : bool :=
  existsb (fun x => destined_in x p) (po_ClusterCIDRs po).

(** The traffic a policy is meant to allow: loopback; otherwise, unless
    cluster destinations are denied, the overlay link, the encapsulated
    traffic to the gateway endpoint on the underlay, and cluster destinations
    where they are preserved. *)
Definition policy_allows (po : Policy) (p : packet) : bool :=
  leaves_by p "lo" ||
  negb (String.eqb (po_Mode po) ClusterTrafficDeny && cluster_destined po p) &&
  ((negb (str_empty (po_OverlayName po)) && leaves_by p (po_OverlayName po)) ||
   (negb (str_empty (po_UnderlayName po)) && AddrPort_IsValid (po_Endpoint po) &&
    leaves_by p (po_UnderlayName po) && sent_to p (po_Endpoint po)) ||
   (String.eqb (po_Mode po) ClusterTrafficPreserve && cluster_destined po p)).

Lemma eval_rules_app rs rs' p :
  eval_rules (rs ++ rs') p = match eval_rules rs p with Some o => Some o | None => eval_rules rs' p end.
Proof. induction rs as [|r rs IH]; cbn; [done|]. by destruct (eval_rule r p). Qed.

Lemma eval_prefix_rules xs v marker p :
  Forall plain_prefix xs -> well_formed p ->
  eval_rules (map (fun x => addPrefixVerdict x v marker) xs) p =
  if existsb (fun x => destined_in x p) xs then Some (Decided v) else None.
Proof.
  intros Hxs Hwf. induction Hxs as [|x xs Hx Hxs IH]; cbn [map eval_rules existsb]; [done|].
  rewrite eval_prefix, IH by done. by destruct (destined_in x p).
Qed.

(** The links a policy can let a packet out by, whatever its ranges and its
    endpoint look like: loopback, the overlay, the underlay where it names an
    endpoint; a policy that preserves cluster traffic may use any link. *)
Definition policy_links (po : Policy) (p : packet) : bool :=
  leaves_by p "lo" || (negb (str_empty (po_OverlayName po)) && leaves_by p (po_OverlayName po)) ||
  (negb (str_empty (po_UnderlayName po)) && AddrPort_IsValid (po_Endpoint po) && leaves_by p (po_UnderlayName po)) ||
  String.eqb (po_Mode po) ClusterTrafficPreserve.

Lemma endpoint_link underlay e marker p : eval_rule (addEndpointVerdict underlay e marker) p <> None -> leaves_by p underlay = true.
Proof.
  unfold eval_rule, addEndpointVerdict. cbn [ru_exprs]. rewrite eval_meta_cmp by (cbn; by rewrite !interfaceName_length).
  unfold leaves_by. cbn [meta_value]. unfold bytes_eqb at 1. by destruct (bool_decide (interfaceName (pk_oif p) = interfaceName underlay)).
Qed.

Lemma eval_drop xs marker p o : eval_rules (map (fun x => addPrefixVerdict x VerdictDrop marker) xs) p = Some o -> o = Decided VerdictDrop.
Proof.
  assert (forall x o, eval_rule (addPrefixVerdict x VerdictDrop marker) p = Some o -> o = Decided VerdictDrop) as Hrule.
  { intros x o'. unfold eval_rule, addPrefixVerdict. cbn [ru_exprs eval_exprs]. repeat (case_match; [|done]). by intros [= <-]. }
  induction xs as [|x xs IH]; cbn [map eval_rules]; [done|].
  destruct (eval_rule (addPrefixVerdict x VerdictDrop marker) p) as [o'|] eqn:E; [|done]. intros [= <-]. by eapply Hrule.
Qed.

Lemma output_rules_links marker po p :
  chain_accepts (with_rules output_chain (output_rules marker po)) p = true -> policy_links po p = true.
Proof.
  unfold chain_accepts, output_rules, policy_links. cbn [with_rules ch_rules ch_policy]. rewrite !eval_rules_app. cbn [eval_rules].
  rewrite eval_interface. destruct (leaves_by p "lo"); [done|]. cbn [orb].
  destruct (String.eqb (po_Mode po) ClusterTrafficPreserve); [by rewrite orb_true_r|]. rewrite orb_false_r.
  assert (forall rest, match eval_rules (if String.eqb (po_Mode po) ClusterTrafficDeny
      then map (fun x => addPrefixVerdict x VerdictDrop marker) (po_ClusterCIDRs po) else []) p with
    | Some o => Some o | None => rest end = rest \/ match eval_rules (if String.eqb (po_Mode po) ClusterTrafficDeny
      then map (fun x => addPrefixVerdict x VerdictDrop marker) (po_ClusterCIDRs po) else []) p with
    | Some o => Some o | None => rest end = Some (Decided VerdictDrop)) as Hdrop.
  { intros rest. destruct (String.eqb _ _); [|by left]. destruct (eval_rules _ p) as [o|] eqn:E; [|by left]. right. by apply eval_drop in E as ->. }
  match goal with |- context [match eval_rules (if String.eqb (po_Mode po) ClusterTrafficDeny then _ else _) p with Some o => Some o | None => ?rest end] =>
    destruct (Hdrop rest) as [-> | ->]; [clear Hdrop|done] end.
  destruct (negb (str_empty (po_OverlayName po))); cbn [andb orb eval_rules]; [rewrite eval_interface; destruct (leaves_by p (po_OverlayName po)); [done|]; cbn [orb]|].
  all: destruct (negb (str_empty (po_UnderlayName po)) && AddrPort_IsValid (po_Endpoint po)); cbn [andb orb eval_rules]; [|done].
  all: destruct (eval_rule (addEndpointVerdict _ _ _) p) eqn:E; [|done]; intros _; eapply endpoint_link; by rewrite E.
Qed.

Lemma output_rules_verdict marker po p :
  plain_policy po -> well_formed p ->
  chain_accepts (with_rules output_chain (output_rules marker po)) p = policy_allows po p.
Proof.
  intros [Hx He] Hwf. unfold chain_accepts, output_rules, policy_allows, cluster_destined. cbn [with_rules ch_rules ch_policy].
  rewrite !eval_rules_app. cbn [eval_rules]. rewrite eval_interface. destruct (leaves_by p "lo"); [done|]. cbn [orb].
  set (cluster := existsb (fun x => destined_in x p) (po_ClusterCIDRs po)).
  assert (forall v, eval_rules (map (fun x => addPrefixVerdict x v marker) (po_ClusterCIDRs po)) p =
    if cluster then Some (Decided v) else None) as Hprefix by (intros; by apply eval_prefix_rules).
  destruct (String.eqb_spec (po_Mode po) ClusterTrafficDeny) as [Hd|Hd]; [rewrite Hprefix; destruct cluster; [done|]|].
  all: cbn [andb negb eval_rules]; destruct (str_empty (po_OverlayName po)); cbn [negb andb orb eval_rules].
  all: rewrite ?eval_interface; try (destruct (leaves_by p (po_OverlayName po)); [done|]); cbn [orb].
  all: destruct (str_empty (po_UnderlayName po)); cbn [negb andb orb eval_rules].
  all: try (destruct (AddrPort_IsValid (po_Endpoint po)) eqn:Ev; cbn [negb andb orb eval_rules]).
  all: rewrite ?eval_endpoint by (auto; done).
  all: try (destruct (leaves_by p (po_UnderlayName po) && sent_to p (po_Endpoint po)); [done|]); cbn [orb].
  all: destruct (String.eqb (po_Mode po) ClusterTrafficPreserve); cbn [andb eval_rules]; rewrite ?Hprefix; try done.
  all: by destruct cluster.
Qed.

(** C34: The policy lets exactly the intended traffic out.  A packet passes the
    table the backend installs if and only if it stays on loopback, or, with
    cluster destinations not denied for it, leaves by the overlay link, or is
    encapsulated UDP to exactly the gateway endpoint on the underlay, or goes
    to a preserved cluster range.  Everything else is dropped, for IPv4 and
    IPv6, byte for byte as the emitted expressions read the headers. *)
Theorem policy_table_exact podUID po p :
  plain_policy po -> well_formed p ->
  table_passes (policy_table podUID po) p = policy_allows po p.
Proof.
  intros Hpo Hwf. unfold policy_table, table_passes, table_passes_at. rewrite !forallb_app. cbn [forallb].
  rewrite output_rules_verdict by done. change (hook_filter ChainHookOutput (with_rules output_chain _)) with true. cbn [negb orb].
  destruct (Addr_IsValid (po_DNSGateway po)); destruct (0 <? _); cbn; by rewrite ?andb_true_r.
Qed.

(** Lockdown is total.  With the lockdown table of any Pod installed, no
    packet leaves the namespace except on loopback, whatever other tables the
    namespace has. *)
Theorem lockdown_blocks_everything tables podUID p :
  tables !! policyTableName podUID = Some (policy_table podUID lockdown_policy) ->
  well_formed p -> passes tables p = true -> leaves_by p "lo" = true.
Proof.
  intros Ht Hwf Hp. pose proof (passes_table _ _ _ _ Ht Hp) as Hpass. revert Hpass.
  unfold policy_table. cbn [po_DNSGateway lockdown_policy Addr_IsValid po_Redirects length app].
  unfold table_passes, table_passes_at. cbn [forallb]. rewrite andb_true_r, output_rules_verdict; [|by split|done].
  unfold policy_allows. by destruct (leaves_by p "lo").
Qed.

(** *** DNS *)

(** A packet carrying a DNS query of the gateway's family. *)
Definition dns_query (gateway : Addr) (p : packet) : bool :=
  (pk_nfproto p =? nfproto_of gateway) &&
  ((pk_l4proto p =? IPPROTO_UDP) || (pk_l4proto p =? IPPROTO_TCP)) &&
  bool_decide (destination_port p = Some 53).

(** DNS containment.  The redirect chain rewrites the destination of every
    UDP or TCP packet to port 53 of the gateway's address family to the
    gateway's own resolver port, whichever server the application asked, and
    leaves all other packets alone. *)
Theorem dns_chain_contains gateway marker p :
  well_formed p ->
  eval_rules (map (dns_rule gateway marker) [IPPROTO_UDP; IPPROTO_TCP]) p =
  if dns_query gateway p then Some (Rewritten (AsSlice gateway) (be_bytes 2 gatewayDNSPort)) else None.
Proof.
  intros Hwf. assert (forall transport, eval_rule (dns_rule gateway marker transport) p =
    if (pk_nfproto p =? nfproto_of gateway) && (pk_l4proto p =? transport) &&
       bool_decide (destination_port p = Some 53)
    then Some (Rewritten (AsSlice gateway) (be_bytes 2 gatewayDNSPort)) else None) as Hrule.
  { intros transport. unfold eval_rule, dns_rule. cbn [ru_exprs]. rewrite eval_meta_cmp by done. cbn [meta_value].
    assert (bytes_eqb [pk_nfproto p] [nfproto_of gateway] = (pk_nfproto p =? nfproto_of gateway)) as ->.
    { unfold bytes_eqb. case_bool_decide as Hb; symmetry; [apply Z.eqb_eq|apply Z.eqb_neq]; congruence. }
    destruct (pk_nfproto p =? nfproto_of gateway); [|done]. rewrite eval_proto.
    destruct (pk_l4proto p =? transport); [|done]. rewrite eval_port by done. by destruct (bool_decide _). }
  cbn [map eval_rules]. rewrite !Hrule. unfold dns_query.
  destruct (pk_nfproto p =? nfproto_of gateway); [|done]. cbn [andb].
  destruct (pk_l4proto p =? IPPROTO_UDP); destruct (pk_l4proto p =? IPPROTO_TCP);
    destruct (bool_decide (destination_port p = Some 53)); done.
Qed.

(** ** Witnesses *)

Module PacketSample.

(** UDP from a Pod to 10.96.0.10:53 on eth0. *)
Definition query : packet :=
  mkPacket "" "eth0" NFPROTO_IPV4 IPPROTO_UDP (repeat 0 16 ++ [10; 96; 0; 10]) [200; 1; 0; 53; 0; 8; 0; 0] [] 0.

Definition preserve : Policy :=
  mkPolicy "eth0" (mkAddrPort (Addr4 (be_value [192; 0; 2; 7])) 4789) "wc0" (Addr4 (be_value [10; 90; 0; 1]))
    (Addr4 (be_value [10; 90; 0; 5])) ClusterTrafficPreserve [mkPrefix (Addr4 (be_value [10; 96; 0; 0])) 12] [].

Lemma query_well_formed : well_formed query.
Proof. split; repeat constructor; vm_compute; (discriminate || reflexivity). Qed.

Lemma policy_table_exact_witness : table_passes (policy_table "uid" preserve) query = true.
Proof.
  rewrite (policy_table_exact "uid" preserve query).
  - vm_compute. reflexivity.
  - split; [|intros _; vm_compute; repeat split; discriminate || reflexivity].
    constructor; [|constructor]. vm_compute. repeat split; discriminate || reflexivity.
  - apply query_well_formed.
Defined.

Lemma lockdown_blocks_everything_witness :
  passes {[policyTableName "uid" := policy_table "uid" lockdown_policy]}
    (mkPacket "" "lo" NFPROTO_IPV4 IPPROTO_UDP [] [] [] 0) = true /\
  leaves_by (mkPacket "" "lo" NFPROTO_IPV4 IPPROTO_UDP [] [] [] 0) "lo" = true.
Proof.
  assert (passes {[policyTableName "uid" := policy_table "uid" lockdown_policy]}
    (mkPacket "" "lo" NFPROTO_IPV4 IPPROTO_UDP [] [] [] 0) = true) as Hp by (vm_compute; reflexivity).
  split; [exact Hp|].
  apply (lockdown_blocks_everything {[policyTableName "uid" := policy_table "uid" lockdown_policy]} "uid").
  - apply lookup_singleton_eq.
  - split; constructor.
  - exact Hp.
Defined.

Lemma dns_chain_contains_witness :
  eval_rules (map (dns_rule (Addr4 (be_value [10; 90; 0; 1])) "m") [IPPROTO_UDP; IPPROTO_TCP]) query =
  Some (Rewritten [10; 90; 0; 1] [4; 29]).
Proof.
  rewrite (dns_chain_contains (Addr4 (be_value [10; 90; 0; 1])) "m" query query_well_formed).
  vm_compute. reflexivity.
Defined.

End PacketSample.
