(* ===== verification/Kernel.v ===== *)
(** * The Linux backend of the data plane (internal/dataplane/backend_linux.go)

    A network namespace with its nftables rule set, links, routes and policy
    rules, every kernel call of which may fail without effect; the backend's
    operations over it, and the agent that composes them.  The theorems follow
    the deny policy through every sequence of failures. *)

From S2P Require Import Prelude Netip Nft Dataplane.

(** ** A network namespace *)

Record vxlan := mkVxlan {
  vx_id : Z;
  vx_port : Z;
  vx_vtep : Z;          (** index of the underlay link *)
  vx_group : Addr;
  vx_src : Addr
}.

Record klink := mkLink {
  kl_index : Z;
  kl_up : bool;
  kl_mtu : Z;
  kl_addrs : list Prefix;
  kl_vxlan : option vxlan;
  kl_alias : string
}.

Record kroute := mkRoute {
  kr_family : Z;
  kr_link : Z;
  kr_gw : Addr;
  kr_table : Z;
  kr_protocol : Z;
  kr_dst : option Prefix   (** absent for a default route *)
}.

Record krule := mkKRule {
  ku_family : Z;
  ku_priority : Z;
  ku_table : Z;
  ku_protocol : Z;
  ku_dst : option Prefix;
  ku_ipproto : Z;       (** 0: any *)
  ku_dport : option Z
}.

#[global] Instance krule_eq_dec : EqDecision krule.
Proof. solve_decision. Defined.
#[global] Instance kroute_eq_dec : EqDecision kroute.
Proof. solve_decision. Defined.

Record NS := mkNS {
  ns_tables : gmap string (list nchain);
  ns_links : gmap string klink;
  ns_next_index : Z;
  ns_routes : list kroute;
  ns_rules : list krule;
  ns_main : Addr -> option (Z * Addr);   (** main table: link index and source *)
  ns_gateway : AddrPort -> bool;         (** which readiness endpoints answer *)
  ns_faults : list bool
}.

Definition set_tables (t : gmap string (list nchain)) (w : NS) : NS :=
  mkNS t (ns_links w) (ns_next_index w) (ns_routes w) (ns_rules w) (ns_main w) (ns_gateway w) (ns_faults w).
Definition set_links (l : gmap string klink) (w : NS) : NS :=
  mkNS (ns_tables w) l (ns_next_index w) (ns_routes w) (ns_rules w) (ns_main w) (ns_gateway w) (ns_faults w).
Definition set_routes (r : list kroute) (w : NS) : NS :=
  mkNS (ns_tables w) (ns_links w) (ns_next_index w) r (ns_rules w) (ns_main w) (ns_gateway w) (ns_faults w).
Definition set_rules (r : list krule) (w : NS) : NS :=
  mkNS (ns_tables w) (ns_links w) (ns_next_index w) (ns_routes w) r (ns_main w) (ns_gateway w) (ns_faults w).
Definition set_ns_faults (f : list bool) (w : NS) : NS :=
  mkNS (ns_tables w) (ns_links w) (ns_next_index w) (ns_routes w) (ns_rules w) (ns_main w) (ns_gateway w) f.

Definition errno : error := ENew "operation not permitted".
Definition ENOENT : string := "ENOENT".
Definition EEXIST : string := "EEXIST".
Definition LinkNotFound : string := "Link not found".

(** One kernel call: the next fault says whether it is refused. *)
Definition kcall {A} (act : IO NS A) : IO NS A := fun w =>
  match ns_faults w with
  | true :: rest => (Fail errno, set_ns_faults rest w)
  | false :: rest => act (set_ns_faults rest w)
  | [] => act w
  end.

(** *** Netlink *)

Definition FAMILY_V4 : Z := 2.
Definition FAMILY_V6 : Z := 10.
Definition RT_TABLE_MAIN : Z := 254.

Definition nft_ListTables : IO NS (list string) :=
  kcall (fun w => (Ok (map fst (map_to_list (ns_tables w))), w)).

Definition nft_Flush (batch : list nftop) : IO NS unit :=
  kcall (fun w => match apply_batch batch (ns_tables w) with
                  | Some t => (Ok tt, set_tables t w)
                  | None => (Fail errno, w)
                  end).

Definition nft_ListChains : IO NS (list (string * nchain)) :=
  kcall (fun w => (Ok (flat_map (fun nt => map (fun c => (nt.1, c)) nt.2) (map_to_list (ns_tables w))), w)).

(** [conn.GetRules(table, chain)]: the markers are the user data. *)
Definition nft_GetRules (table chain : string) : IO NS (list nrule) :=
  kcall (fun w => (Ok (match ns_tables w !! table with
                       | Some t => match List.find (fun c => String.eqb (ch_name c) chain) t with
                                   | Some c => ch_rules c
                                   | None => []
                                   end
                       | None => []
                       end), w)).

Definition RuleList (family : Z) : IO NS (list krule) :=
  kcall (fun w => (Ok (List.filter (fun r => ku_family r =? family) (ns_rules w)), w)).

Fixpoint remove_first {A} `{EqDecision A} (x : A) (l : list A) : list A :=
  match l with
  | [] => []
  | y :: l' => if decide (x = y) then l' else y :: remove_first x l'
  end.

Definition RuleDel (r : krule) : IO NS unit :=
  kcall (fun w => if decide (r ∈ ns_rules w) then (Ok tt, set_rules (remove_first r (ns_rules w)) w)
                  else (Fail (ESentinel ENOENT), w)).

Definition RuleAdd (r : krule) : IO NS unit :=
  kcall (fun w => if decide (r ∈ ns_rules w) then (Fail (ESentinel EEXIST), w)
                  else (Ok tt, set_rules (ns_rules w ++ [r]) w)).

Definition LinkByName (name : string) : IO NS klink :=
  kcall (fun w => match ns_links w !! name with
                  | Some l => (Ok l, w)
                  | None => (Fail (ESentinel LinkNotFound), w)
                  end).

Definition name_of_index (w : NS) (index : Z) : option (string * klink) :=
  List.find (fun nl => kl_index nl.2 =? index) (map_to_list (ns_links w)).

Definition LinkByIndex (index : Z) : IO NS (string * klink) :=
  kcall (fun w => match name_of_index w index with
                  | Some nl => (Ok nl, w)
                  | None => (Fail (ESentinel LinkNotFound), w)
                  end).

(** Deleting a link takes the routes through it with it. *)
Definition LinkDel (name : string) : IO NS unit :=
  kcall (fun w => match ns_links w !! name with
                  | Some l => (Ok tt, set_routes (List.filter (fun r => negb (kr_link r =? kl_index l)) (ns_routes w))
                                        (set_links (delete name (ns_links w)) w))
                  | None => (Fail (ESentinel ENOENT), w)
                  end).

(** A new link gets the next index, which the caller's handle then holds. *)
Definition LinkAdd (name : string) (mtu : Z) (v : vxlan) : IO NS klink :=
  kcall (fun w => match ns_links w !! name with
                  | Some _ => (Fail (ESentinel EEXIST), w)
                  | None =>
                      let l := mkLink (ns_next_index w) false mtu [] (Some v) "" in
                      (Ok l, mkNS (ns_tables w) (<[name := l]> (ns_links w)) (ns_next_index w + 1) (ns_routes w)
                               (ns_rules w) (ns_main w) (ns_gateway w) (ns_faults w))
                  end).

(** Update a link in place. *)
Definition alter_link (f : klink -> klink) (name : string) : IO NS unit :=
  kcall (fun w => match ns_links w !! name with
                  | Some l => (Ok tt, set_links (<[name := f l]> (ns_links w)) w)
                  | None => (Fail (ESentinel LinkNotFound), w)
                  end).

Definition AddrReplace (name : string) (address : Prefix) : IO NS unit :=
  alter_link (fun l => mkLink (kl_index l) (kl_up l) (kl_mtu l)
    (if decide (address ∈ kl_addrs l) then kl_addrs l else kl_addrs l ++ [address]) (kl_vxlan l) (kl_alias l)) name.

Definition LinkSetUp (name : string) : IO NS unit :=
  alter_link (fun l => mkLink (kl_index l) true (kl_mtu l) (kl_addrs l) (kl_vxlan l) (kl_alias l)) name.

Definition LinkSetAlias (alias name : string) : IO NS unit :=
  alter_link (fun l => mkLink (kl_index l) (kl_up l) (kl_mtu l) (kl_addrs l) (kl_vxlan l) alias) name.

(** A route replaces the family's route to its destination in its table. *)
Definition RouteReplace (r : kroute) : IO NS unit :=
  kcall (fun w => (Ok tt, set_routes (List.filter (fun r' => negb ((kr_table r' =? kr_table r) &&
                                        (kr_family r' =? kr_family r) && bool_decide (kr_dst r' = kr_dst r)))
                                        (ns_routes w) ++ [r]) w)).

Definition RouteListFiltered (family table : Z) : IO NS (list kroute) :=
  kcall (fun w => (Ok (List.filter (fun r => (kr_family r =? family) && (kr_table r =? table)) (ns_routes w)), w)).

Definition RouteDel (r : kroute) : IO NS unit :=
  kcall (fun w => if decide (r ∈ ns_routes w) then (Ok tt, set_routes (remove_first r (ns_routes w)) w)
                  else (Fail (ESentinel ENOENT), w)).

Definition familyFor (a : Addr) : Z := if Addr_Is6 a then FAMILY_V6 else FAMILY_V4.

(** A lookup with a destination only: of the matching policy rules the one of
    lowest priority number names the table, the main table by default. *)
Definition rule_selects (dst : Addr) (r : krule) : bool :=
  (ku_family r =? familyFor dst) && (ku_ipproto r =? 0) && bool_decide (ku_dport r = None) &&
  match ku_dst r with Some x => Prefix_Contains x dst | None => true end.

Definition lowest_priority (rs : list krule) : option krule :=
  fold_left (fun best r => match best with
                           | Some b => if ku_priority r <? ku_priority b then Some r else Some b
                           | None => Some r
                           end) rs None.

Definition route_lookup (w : NS) (dst : Addr) : option (Z * Addr) :=
  match lowest_priority (List.filter (rule_selects dst) (ns_rules w)) with
  | Some r =>
      if ku_table r =? RT_TABLE_MAIN then ns_main w dst
      else match List.find (fun rt => (kr_table rt =? ku_table r) && (kr_family rt =? familyFor dst)) (ns_routes w) with
           | Some rt => Some (kr_link rt, AddrZero)
           | None => ns_main w dst
           end
  | None => ns_main w dst
  end.

Definition RouteGet (dst : Addr) : IO NS (Z * Addr) :=
  kcall (fun w => match route_lookup w dst with Some r => (Ok r, w) | None => (Fail errno, w) end).

Definition probeGatewayReadiness (endpoint : AddrPort) : IO NS unit :=
  kcall (fun w => if ns_gateway w endpoint then (Ok tt, w)
                  else (Fail (ENew "gateway readiness endpoint returned an error"), w)).

(** ** The backend *)

Definition waycloakRouteProtocol : Z := 99.
Definition waycloakRuleProtocol : Z := 99.
Definition protectedRouteTable : Z := 51820.
Definition endpointRulePriority : Z := 11000.
Definition dnsUDPRulePriority : Z := 11050.
Definition dnsTCPRulePriority : Z := 11051.
Definition clusterRulePriority : Z := 11100.
Definition protectedRulePriority : Z := 12000.

Definition replacePolicy (podUID : string) (po : Policy) : IO NS unit :=
  existing ← nft_ListTables; nft_Flush (policy_batch existing podUID po).

Definition InstallLockdown (podUID : string) : IO NS unit :=
  if str_empty podUID then io_fail (ENew "pod UID is required") else replacePolicy podUID lockdown_policy.

(** [if err := op; err != nil && !errors.Is(err, code) { return err }]. *)
Definition tolerate (code : string) (op : IO NS unit) : IO NS unit :=
  r ← io_try op;
  match r with
  | Ok _ => mret tt
  | Fail err => if errors_is err code then mret tt else io_fail err
  end.

Definition addRule (r : krule) : IO NS unit := tolerate EEXIST (RuleAdd r).

Definition addPolicyRule (family priority table : Z) (prefix : Prefix) : IO NS unit :=
  addRule (mkKRule family priority table waycloakRuleProtocol (Some (Prefix_Masked prefix)) 0 None).

Definition addDNSPolicyRule (family priority protocol : Z) : IO NS unit :=
  addRule (mkKRule family priority protectedRouteTable waycloakRuleProtocol None protocol (Some 53)).

(** The loop over preserved cluster ranges; ranges of the other family are
    skipped and do not use up a priority. *)
Fixpoint add_cluster_rules (family : Z) (six : bool) (priority : Z) (prefixes : list Prefix) : IO NS unit :=
  match prefixes with
  | [] => mret tt
  | x :: rest =>
      if negb (Bool.eqb (Addr_Is6 (Prefix_Addr x)) six) then add_cluster_rules family six priority rest
      else addPolicyRule family priority RT_TABLE_MAIN x ;; add_cluster_rules family six (priority + 1) rest
  end.

Definition reconcilePolicyRules (cfg : Config) : IO NS unit :=
  let family := familyFor (AddrPort_Addr (cfg_GatewayEndpoint cfg)) in
  rules ← RuleList family;
  io_each (fun r => if ku_protocol r =? waycloakRuleProtocol then tolerate ENOENT (RuleDel r) else mret tt) rules ;;
  let endpoint := Addr_Unmap (AddrPort_Addr (cfg_GatewayEndpoint cfg)) in
  addPolicyRule family endpointRulePriority RT_TABLE_MAIN (PrefixFrom endpoint (Addr_BitLen endpoint)) ;;
  addDNSPolicyRule family dnsUDPRulePriority IPPROTO_UDP ;;
  addDNSPolicyRule family dnsTCPRulePriority IPPROTO_TCP ;;
  (if String.eqb (cfg_ClusterTrafficMode cfg) ClusterTrafficPreserve
   then add_cluster_rules family (Addr_Is6 endpoint) clusterRulePriority (cfg_ClusterCIDRs cfg)
   else mret tt) ;;
  addRule (mkKRule family protectedRulePriority protectedRouteTable waycloakRuleProtocol None 0 None).

(** The underlay link with its name, and the route's source address. *)
Definition resolveUnderlay (cfg : Config) : IO NS (string * klink * Addr) :=
  route ← io_wrap "resolve gateway underlay route" (RouteGet (AddrPort_Addr (cfg_GatewayEndpoint cfg)));
  link ← io_wrap "resolve gateway underlay link"
    (if negb (str_empty (cfg_UnderlayInterface cfg))
     then l ← LinkByName (cfg_UnderlayInterface cfg); mret (cfg_UnderlayInterface cfg, l)
     else LinkByIndex route.1);
  if negb (route.1 =? kl_index link.2)
  then io_fail (ENew "configured underlay does not carry the gateway endpoint route")
  else mret (link.1, link.2, route.2).

(** [addrEqual] and [net.IP.Equal] compare addresses up to the IPv4-in-IPv6 form. *)
Definition addrEqual (a b : Addr) : bool := Addr_IsValid a && bool_decide (Addr_Unmap a = Addr_Unmap b).

Definition vxlanSource (cfg : Config) (underlay : klink) (src : Addr) : IO NS Addr :=
  if Addr_IsValid src then mret src
  else
    addrs ← kcall (fun w => (Ok (List.filter (fun x =>
              familyFor (Prefix_Addr x) =? familyFor (AddrPort_Addr (cfg_GatewayEndpoint cfg))) (kl_addrs underlay)), w));
    match addrs with
    | [] => io_fail (ENew "discover underlay source address")
    | x :: _ => mret (Prefix_Addr x)
    end.

Definition vxlanMatches (l : klink) (v : vxlan) (cfg : Config) (underlay : klink) (source : Addr) : bool :=
  (vx_id v =? cfg_VNI cfg) && (vx_port v =? AddrPort_Port (cfg_GatewayEndpoint cfg)) &&
  (vx_vtep v =? kl_index underlay) && (kl_mtu l =? cfg_MTU cfg) &&
  addrEqual (vx_group v) (AddrPort_Addr (cfg_GatewayEndpoint cfg)) &&
  bool_decide (Addr_Unmap (vx_src v) = Addr_Unmap source).

Definition ensureVXLAN (cfg : Config) (name : string) (underlay : klink) (src : Addr) : IO NS klink :=
  source ← vxlanSource cfg underlay src;
  let create := io_wrap "create VXLAN overlay"
    (LinkAdd name (cfg_MTU cfg)
       (mkVxlan (cfg_VNI cfg) (AddrPort_Port (cfg_GatewayEndpoint cfg)) (kl_index underlay)
          (AddrPort_Addr (cfg_GatewayEndpoint cfg)) source)) in
  found ← io_try (LinkByName name);
  match found with
  | Ok existing =>
      match kl_vxlan existing with
      | None => io_fail (ENew "owned overlay link has conflicting attributes")
      | Some v =>
          if vxlanMatches existing v cfg underlay source then mret existing
          else io_wrap "replace stale owned overlay link" (LinkDel name) ;; create
      end
  | Fail _ => create
  end.

Definition Configure (cfg : Config) : IO NS unit :=
  io_lift (of_error (Config_Validate cfg)) ;;
  let linkName := overlayName cfg in
  io_wrap "reconcile protected policy-routing rules" (reconcilePolicyRules cfg) ;;
  resolved ← resolveUnderlay cfg;
  let '(underlayName, underlay, src) := resolved in
  link ← ensureVXLAN cfg linkName underlay src;
  io_wrap "configure overlay address" (AddrReplace linkName (cfg_Address cfg)) ;;
  io_wrap "bring overlay link up" (LinkSetUp linkName) ;;
  io_wrap "install protected default route"
    (RouteReplace (mkRoute (familyFor (cfg_GatewayAddress cfg)) (kl_index link) (cfg_GatewayAddress cfg)
       protectedRouteTable waycloakRouteProtocol None)) ;;
  io_wrap "activate protected nftables policy"
    (replacePolicy (cfg_PodUID cfg) (configured_policy underlayName cfg)).

Definition verifyPolicy (podUID : string) (requireDNS : bool) : IO NS unit :=
  tables ← io_wrap "list nftables policy" nft_ListTables;
  if negb (contains_string tables (policyTableName podUID))
  then io_fail (ENew "owned nftables table is missing")
  else
    chains ← io_wrap "list nftables chains" nft_ListChains;
    let owned := List.filter (fun nc => String.eqb nc.1 (policyTableName podUID)) chains in
    let filterReady := existsb (fun nc => String.eqb (ch_name nc.2) outputChainName &&
                         bool_decide (ch_policy nc.2 = Some VerdictDrop)) owned in
    let dnsReady := negb requireDNS ||
      existsb (fun nc => String.eqb (ch_name nc.2) "dns-output" && bool_decide (ch_type nc.2 = ChainTypeNAT)) owned in
    if negb filterReady then io_fail (ENew "owned nftables output-drop chain is missing")
    else if negb dnsReady then io_fail (ENew "owned gateway DNS redirect chain is missing")
    else mret tt.

Definition Verify (cfg : Config) : IO NS unit :=
  verifyPolicy (cfg_PodUID cfg) true ;;
  link ← io_wrap "find overlay link" (LinkByName (overlayName cfg));
  if negb (match kl_vxlan link with Some v => vx_id v =? cfg_VNI cfg | None => false end)
  then io_fail (ENew "overlay link does not have the allocated VNI")
  else if negb (kl_up link) then io_fail (ENew "overlay link is down")
  else
    addrs ← io_wrap "list overlay addresses" (kcall (fun w =>
      (Ok (List.filter (fun x => familyFor (Prefix_Addr x) =? familyFor (Prefix_Addr (cfg_Address cfg)))
             (kl_addrs link)), w)));
    if negb (existsb (fun x => bool_decide (Addr_Unmap (Prefix_Addr x) = Addr_Unmap (Prefix_Addr (cfg_Address cfg)))) addrs)
    then io_fail (ENew "overlay address is not installed")
    else
      routes ← io_wrap "list default routes"
        (RouteListFiltered (familyFor (cfg_GatewayAddress cfg)) protectedRouteTable);
      if existsb (fun r => (kr_link r =? kl_index link) && addrEqual (kr_gw r) (cfg_GatewayAddress cfg)) routes
      then io_wrap "overlay diagnostics"
             (probeGatewayReadiness (mkAddrPort (cfg_GatewayAddress cfg) (cfg_GatewayHealthPort cfg)))
      else io_fail (ENew "protected default route is not installed").

Definition Repair (cfg : Config) : IO NS unit := Configure cfg ;; Verify cfg.

(** The rules and routes of one family, collecting errors. *)
Definition cleanup_family (family : Z) : IO NS (list error) :=
  rules ← io_try (RuleList family);
  match rules with
  | Fail err => mret [Errorf "list owned policy rules" err]
  | Ok rs =>
      ruleErrs ← io_collect (fun r => if ku_protocol r =? waycloakRuleProtocol
                                      then io_wrap "remove owned policy rule" (tolerate ENOENT (RuleDel r))
                                      else mret tt) rs;
      routes ← io_try (RouteListFiltered family protectedRouteTable);
      match routes with
      | Fail err => mret (ruleErrs ++ [Errorf "list owned protected routes" err])
      | Ok rts =>
          routeErrs ← io_collect (fun r => if kr_protocol r =? waycloakRouteProtocol
                                           then io_wrap "remove owned protected route" (tolerate ENOENT (RouteDel r))
                                           else mret tt) rts;
          mret (ruleErrs ++ routeErrs)
      end
  end.

Definition cleanup_link (name : string) : IO NS (list error) :=
  found ← io_try (LinkByName name);
  match found with
  | Ok _ =>
      r ← io_try (tolerate ENOENT (LinkDel name));
      mret (match r with Ok _ => [] | Fail err => [Errorf "remove owned overlay link" err] end)
  | Fail err => if errors_is err LinkNotFound then mret [] else mret [Errorf "find owned overlay link" err]
  end.

(** The configuration that names the overlay link to remove. *)
Definition Config_zero (podUID : string) : Config :=
  mkConfig podUID 0 0 Prefix_zero Prefix_zero AddrZero (mkAddrPort AddrZero 0) 0 0 0 "" [] "" "" [].
Definition with_pod (podUID : string) (c : Config) : Config :=
  mkConfig podUID (cfg_AllocationGeneration c) (cfg_GatewayGeneration c) (cfg_Address c) (cfg_OverlayCIDR c)
    (cfg_GatewayAddress c) (cfg_GatewayEndpoint c) (cfg_GatewayHealthPort c) (cfg_VNI c) (cfg_MTU c)
    (cfg_ClusterTrafficMode c) (cfg_ClusterCIDRs c) (cfg_UnderlayInterface c) (cfg_OverlayInterfaceName c)
    (cfg_ApplicationPortRedirects c).

Definition Cleanup (podUID : string) (cfg : option Config) : IO NS unit :=
  if str_empty podUID then io_fail (ENew "pod UID is required")
  else
    io_wrap "retain namespace lockdown before cleanup" (InstallLockdown podUID) ;;
    errs4 ← cleanup_family FAMILY_V4;
    errs6 ← cleanup_family FAMILY_V6;
    let overlayConfig := match cfg with Some c => with_pod podUID c | None => Config_zero podUID end in
    linkErrs ← cleanup_link (overlayName overlayConfig);
    io_lift (of_error (errors_Join (map Some (errs4 ++ errs6 ++ linkErrs)))).

(** ** The data-plane agent (internal/dataplane/dataplane.go) *)

Definition Agent_Prepare (cfg : Config) : IO NS unit :=
  if str_empty (cfg_PodUID cfg) then io_fail (ENew "pod UID is required before lockdown")
  else
    io_wrap "install fail-closed policy" (InstallLockdown (cfg_PodUID cfg)) ;;
    io_wrap "validate protected-path configuration after lockdown" (io_lift (of_error (Config_Validate cfg))) ;;
    io_wrap "configure protected path with lockdown retained" (Configure cfg).

Definition Agent_Verify (cfg : Config) : IO NS unit :=
  if str_empty (cfg_PodUID cfg) then io_fail (ENew "pod UID is required before startup verification")
  else
    io_wrap "install fail-closed policy before startup verification" (InstallLockdown (cfg_PodUID cfg)) ;;
    io_wrap "validate current protected-path configuration after lockdown" (io_lift (of_error (Config_Validate cfg))) ;;
    io_wrap "reconcile and verify current protected path with lockdown retained" (Repair cfg).

Definition Agent_Repair (cfg : Config) : IO NS unit :=
  io_lift (of_error (Config_Validate cfg)) ;; Repair cfg.

Definition Agent_Cleanup (podUID : string) (cfg : option Config) : IO NS unit :=
  if str_empty podUID then io_fail (ENew "pod UID is required for cleanup") else Cleanup podUID cfg.

(** ** The rule set through failures *)

(** The computation never touches the nftables rule set. *)
Definition keeps_tables {A} (m : IO NS A) : Prop := forall w, wp m (fun _ w' => ns_tables w' = ns_tables w) w.

Lemma kt_bind {A B} (m : IO NS A) (k : A -> IO NS B) :
  keeps_tables m -> (forall a, keeps_tables (k a)) -> keeps_tables (m ≫= k).
Proof.
  intros Hm Hk w. wp_step. eapply wp_mono; [apply Hm|].
  intros [a|e] w' Ht; cbn [after]; [|done]. eapply wp_mono; [apply Hk|]. cbn. congruence.
Qed.
Lemma kt_ret {A} (a : A) : keeps_tables (mret a).
Proof. by intros w. Qed.
Lemma kt_fail {A} e : keeps_tables (io_fail (A := A) e).
Proof. by intros w. Qed.
Lemma kt_lift {A} (r : res A) : keeps_tables (io_lift r).
Proof. by intros w. Qed.
Lemma kt_try {A} (m : IO NS A) : keeps_tables m -> keeps_tables (io_try m).
Proof. intros Hm w. wp_step. apply Hm. Qed.
Lemma kt_wrap {A} msg (m : IO NS A) : keeps_tables m -> keeps_tables (io_wrap msg m).
Proof. intros Hm w. wp_step. eapply wp_mono; [apply Hm|]. by intros [|]. Qed.
Lemma kt_each {A} (f : A -> IO NS unit) xs : (forall x, keeps_tables (f x)) -> keeps_tables (io_each f xs).
Proof. intros Hf. induction xs; cbn; [apply kt_ret|]. by apply kt_bind. Qed.
Lemma kt_collect {A} (f : A -> IO NS unit) xs : (forall x, keeps_tables (f x)) -> keeps_tables (io_collect f xs).
Proof.
  intros Hf. induction xs; cbn; [apply kt_ret|]. apply kt_bind; [by apply kt_try|]. intros r.
  apply kt_bind; [done|]. intros errs. apply kt_ret.
Qed.

(** A kernel call keeps the rule set when its action does. *)
Lemma kt_kcall {A} (act : IO NS A) : keeps_tables act -> keeps_tables (kcall act).
Proof.
  intros Hact w. unfold wp, kcall. destruct (ns_faults w) as [|[|] rest]; [apply Hact|done|].
  apply (Hact (set_ns_faults rest w)).
Qed.

(** Down to kernel calls, then by cases on what they look up. *)
Ltac kt_walk :=
  repeat match goal with
  | |- forall _, _ => intro
  | |- keeps_tables (let _ := _ in _) => cbv zeta
  | |- keeps_tables (mbind _ _) => apply kt_bind
  | |- keeps_tables (io_try _) => apply kt_try
  | |- keeps_tables (io_wrap _ _) => apply kt_wrap
  | |- keeps_tables (io_each _ _) => apply kt_each
  | |- keeps_tables (io_collect _ _) => apply kt_collect
  | |- keeps_tables (if ?b then _ else _) => destruct b
  | |- keeps_tables (match ?r with _ => _ end) => destruct r
  | |- keeps_tables (kcall _) =>
      apply kt_kcall; intro; unfold wp; cbn beta;
      repeat match goal with
             | |- context [match ?x with Some _ => _ | None => _ end] => destruct x
             | |- context [if ?b then _ else _] => destruct b
             end; reflexivity
  | |- keeps_tables _ => first [apply kt_ret | apply kt_fail | apply kt_lift | assumption]
  end.

Lemma kt_add_cluster_rules family six priority prefixes :
  keeps_tables (add_cluster_rules family six priority prefixes).
Proof.
  revert priority. induction prefixes as [|x rest IH]; intros priority; cbn [add_cluster_rules]; [apply kt_ret|].
  destruct (negb _); [done|]. unfold addPolicyRule, addRule, tolerate, RuleAdd. kt_walk. apply IH.
Qed.

Lemma kt_reconcilePolicyRules cfg : keeps_tables (reconcilePolicyRules cfg).
Proof.
  unfold reconcilePolicyRules, RuleList, addDNSPolicyRule, addPolicyRule, addRule, tolerate, RuleDel, RuleAdd.
  kt_walk. apply kt_add_cluster_rules.
Qed.

Lemma kt_resolveUnderlay cfg : keeps_tables (resolveUnderlay cfg).
Proof. unfold resolveUnderlay, RouteGet, LinkByName, LinkByIndex. kt_walk. Qed.

Lemma kt_ensureVXLAN cfg name underlay src : keeps_tables (ensureVXLAN cfg name underlay src).
Proof. unfold ensureVXLAN, vxlanSource, LinkByName, LinkDel, LinkAdd. kt_walk. Qed.

Lemma kt_verifyPolicy podUID dns : keeps_tables (verifyPolicy podUID dns).
Proof. unfold verifyPolicy, nft_ListTables, nft_ListChains. kt_walk. Qed.

Lemma kt_Verify cfg : keeps_tables (Verify cfg).
Proof.
  unfold Verify, LinkByName, RouteListFiltered, probeGatewayReadiness. kt_walk. apply kt_verifyPolicy.
Qed.

Lemma kt_cleanup_family family : keeps_tables (cleanup_family family).
Proof. unfold cleanup_family, RuleList, RouteListFiltered, tolerate, RuleDel, RouteDel. kt_walk. Qed.

Lemma kt_cleanup_link name : keeps_tables (cleanup_link name).
Proof. unfold cleanup_link, LinkByName, tolerate, LinkDel. kt_walk. Qed.

(** A policy replacement is all or nothing. *)
Definition replaced (podUID : string) (po : Policy) (before : gmap string (list nchain)) (r : res unit) (w : NS) : Prop :=
  match r with
  | Ok _ => ns_tables w = <[policyTableName podUID := policy_table podUID po]> before
  | Fail _ => ns_tables w = before
  end.

Lemma wp_kcall {A} (act : IO NS A) Q w :
  (forall w0, ns_tables w0 = ns_tables w -> wp act Q w0) ->
  (forall w0, ns_tables w0 = ns_tables w -> Q (Fail errno) w0) -> wp (kcall act) Q w.
Proof.
  intros Hact Hfail. unfold wp, kcall. destruct (ns_faults w) as [|[|] rest]; [by apply Hact|by apply Hfail|].
  by apply (Hact (set_ns_faults rest w)).
Qed.

Lemma replacePolicy_spec podUID po w :
  wp (replacePolicy podUID po) (replaced podUID po (ns_tables w)) w.
Proof.
  unfold replacePolicy, nft_ListTables, nft_Flush. wp_step. apply wp_kcall; [|by intros w0 Ht].
  intros w0 Ht. unfold wp. cbn [fst snd after]. apply wp_kcall; [|intros w1 Ht1; cbn; congruence].
  intros w1 Ht1. unfold wp. rewrite <- Ht1, policy_batch_applies. cbn. by rewrite Ht1, Ht.
Qed.

Lemma InstallLockdown_spec podUID w :
  wp (InstallLockdown podUID) (replaced podUID lockdown_policy (ns_tables w)) w.
Proof.
  unfold InstallLockdown. destruct (str_empty podUID); [by wp_step|]. apply replacePolicy_spec.
Qed.

(** Configuring changes the rule set only in its last step, and only as a
    whole. *)
Lemma Configure_spec cfg w :
  wp (Configure cfg)
    (fun r w' => match r with
       | Ok _ => Config_Validate cfg = None /\
           exists underlay, ns_tables w' = <[policyTableName (cfg_PodUID cfg) :=
             policy_table (cfg_PodUID cfg) (configured_policy underlay cfg)]> (ns_tables w)
       | Fail _ => ns_tables w' = ns_tables w
       end) w.
Proof.
  unfold Configure. do 2 wp_step. destruct (Config_Validate cfg) as [e|] eqn:Ev; cbn [of_error after]; [done|].
  do 2 wp_step. wp_with kt_reconcilePolicyRules. intros [u|e] w1 H1; cbn [after]; [|done].
  wp_step. wp_with kt_resolveUnderlay. intros [[[name underlay] src]|e] w2 H2; cbn [after]; [|congruence].
  wp_step. wp_with kt_ensureVXLAN. intros [link|e] w3 H3; cbn [after]; [|congruence].
  assert (forall f n, keeps_tables (alter_link f n)) as Halter by (intros; unfold alter_link; kt_walk).
  do 2 wp_step. wp_with Halter. intros [[]|e] w4 H4; cbn [after]; [|congruence].
  do 2 wp_step. wp_with Halter. intros [[]|e] w5 H5; cbn [after]; [|congruence].
  do 2 wp_step. eapply wp_mono; [unfold RouteReplace; apply kt_kcall; by intros ?|].
  intros [[]|e] w6 H6; cbn [after]; [|congruence].
  wp_step. wp_with replacePolicy_spec.
  assert (ns_tables w6 = ns_tables w) as Hw by congruence.
  intros [[]|e] w7 H7; cbn [replaced] in H7; cbn [after]; [|congruence]. split; [done|]. exists name. by rewrite H7, Hw.
Qed.

Lemma Repair_spec cfg w :
  wp (Repair cfg)
    (fun r w' => (Config_Validate cfg = None /\
         exists underlay, ns_tables w' = <[policyTableName (cfg_PodUID cfg) :=
           policy_table (cfg_PodUID cfg) (configured_policy underlay cfg)]> (ns_tables w)) \/
       (exists e, r = Fail e /\ ns_tables w' = ns_tables w)) w.
Proof.
  unfold Repair. wp_step. wp_with Configure_spec. intros [[]|e] w1 H1; cbn [after].
  - wp_with kt_Verify. intros r w2 H2. left. destruct H1 as (Hv & underlay & H1).
    split; [done|]. exists underlay. congruence.
  - right. by exists e.
Qed.

Lemma Cleanup_spec podUID cfg w :
  wp (Cleanup podUID cfg)
    (fun r w' => ns_tables w' = <[policyTableName podUID := policy_table podUID lockdown_policy]> (ns_tables w) \/
       (exists e, r = Fail e /\ ns_tables w' = ns_tables w)) w.
Proof.
  unfold Cleanup. destruct (str_empty podUID); [wp_step; right; by eexists|].
  do 2 wp_step. wp_with InstallLockdown_spec.
  intros [[]|e] w1 H1; cbn [after] in *; cbn [replaced] in H1; [|right; by eexists].
  wp_step. wp_with kt_cleanup_family. intros [errs4|e] w2 H2; cbn [after]; [|left; congruence].
  wp_step. wp_with kt_cleanup_family. intros [errs6|e] w3 H3; cbn [after]; [|left; congruence].
  wp_step. wp_with kt_cleanup_link. intros [errsl|e] w4 H4; cbn [after]; [|left; congruence].
  wp_step. left. congruence.
Qed.

(** ** The deny policy survives *)

(** The policies the backend ever installs for a Pod. *)
Definition sanctioned (podUID : string) (po : Policy) : Prop :=
  po = lockdown_policy \/
  exists underlay cfg, cfg_PodUID cfg = podUID /\ Config_Validate cfg = None /\ po = configured_policy underlay cfg.

(** The table is the policy of some Pod. *)
Definition policy_content (t : list nchain) : Prop :=
  exists podUID po, podUID <> "" /\ sanctioned podUID po /\ t = policy_table podUID po.

(** The namespace is confined: some Pod's policy is installed. *)
Definition guarded (w : NS) : Prop := exists name t, ns_tables w !! name = Some t /\ policy_content t.

(** Only the backend writes tables with the names it uses. *)
Definition owned (w : NS) : Prop :=
  forall podUID t, ns_tables w !! policyTableName podUID = Some t -> policy_content t.

(** The rule set is as before, or as before with one Pod's policy. *)
Definition policy_step (w w' : NS) : Prop :=
  ns_tables w' = ns_tables w \/
  exists podUID t, policy_content t /\ ns_tables w' = <[policyTableName podUID := t]> (ns_tables w).

Lemma policy_step_owned w w' : policy_step w w' -> owned w -> owned w'.
Proof.
  intros [Ht|(u & t & Hc & Ht)] Ho podUID t' Hl; rewrite Ht in Hl; [by eapply Ho|].
  destruct (decide (policyTableName u = policyTableName podUID)) as [Heq|Hne].
  - rewrite Heq, lookup_insert_eq in Hl. congruence.
  - rewrite lookup_insert_ne in Hl by done. by eapply Ho.
Qed.

Lemma policy_step_guarded w w' : policy_step w w' -> guarded w -> guarded w'.
Proof.
  intros [Ht|(u & t & Hc & Ht)] (name & t' & Hl & Hc'); unfold guarded; rewrite Ht; [by exists name, t'|].
  exists (policyTableName u), t. by rewrite lookup_insert_eq.
Qed.

Lemma validated_uid cfg : Config_Validate cfg = None -> cfg_PodUID cfg <> "".
Proof. unfold Config_Validate, str_empty. by destruct (String.eqb_spec (cfg_PodUID cfg) ""). Qed.

Lemma lockdown_content podUID : podUID <> "" -> policy_content (policy_table podUID lockdown_policy).
Proof. intros Hne. exists podUID, lockdown_policy. split_and!; [done|by left|done]. Qed.

Lemma configured_content cfg underlay :
  Config_Validate cfg = None -> policy_content (policy_table (cfg_PodUID cfg) (configured_policy underlay cfg)).
Proof.
  intros Hv. exists (cfg_PodUID cfg), (configured_policy underlay cfg).
  split_and!; [by apply validated_uid|right; by exists underlay, cfg|done].
Qed.

Lemma InstallLockdown_step podUID w :
  wp (InstallLockdown podUID) (fun r w' => policy_step w w' /\ (r = Ok tt -> guarded w')) w.
Proof.
  destruct (decide (podUID = "")) as [->|Hne]; [by split; [left|]|].
  wp_with InstallLockdown_spec. intros [[]|e] w' Hr; cbn [replaced] in Hr; [|split; [by left|done]].
  pose proof (lockdown_content podUID Hne) as Hc. split; [right; eauto|]. intros _.
  exists (policyTableName podUID), (policy_table podUID lockdown_policy). by rewrite Hr, lookup_insert_eq.
Qed.

Lemma Configure_step cfg w : wp (Configure cfg) (fun _ w' => policy_step w w') w.
Proof.
  wp_with Configure_spec. intros [[]|e] w' Hr; [|by left]. destruct Hr as (Hv & underlay & Ht).
  right. eauto using configured_content.
Qed.

Lemma Repair_step cfg w : wp (Repair cfg) (fun _ w' => policy_step w w') w.
Proof.
  wp_with Repair_spec. intros r w' [(Hv & underlay & Ht)|(e & -> & Ht)]; [|by left].
  right. eauto using configured_content.
Qed.

Lemma Verify_step cfg w : wp (Verify cfg) (fun _ w' => policy_step w w') w.
Proof. wp_with kt_Verify. intros r w' Ht. by left. Qed.

Lemma Cleanup_step podUID cfg w : wp (Cleanup podUID cfg) (fun _ w' => policy_step w w') w.
Proof.
  destruct (decide (podUID = "")) as [->|Hne]; [by left|].
  wp_with Cleanup_spec. intros r w' [Ht|(e & -> & Ht)]; [|by left]. right. eauto using lockdown_content.
Qed.

(** The backend never opens a namespace.  Starting from a namespace
    confined by any Pod's policy, installing the lockdown, configuring,
    repairing, verifying and cleaning up leave it confined, whichever of
    their kernel calls fail. *)
Lemma backend_keeps_guard w :
  guarded w ->
  (forall podUID, wp (InstallLockdown podUID) (fun _ w' => guarded w') w) /\
  (forall cfg, wp (Configure cfg) (fun _ w' => guarded w') w) /\
  (forall cfg, wp (Repair cfg) (fun _ w' => guarded w') w) /\
  (forall cfg, wp (Verify cfg) (fun _ w' => guarded w') w) /\
  (forall podUID cfg, wp (Cleanup podUID cfg) (fun _ w' => guarded w') w).
Proof.
  intros Hg. split_and!; intros.
  - wp_with InstallLockdown_step. intros r w' [Hs _]. by eapply policy_step_guarded.
  - wp_with Configure_step. intros r w' Hs. by eapply policy_step_guarded.
  - wp_with Repair_step. intros r w' Hs. by eapply policy_step_guarded.
  - wp_with Verify_step. intros r w' Hs. by eapply policy_step_guarded.
  - wp_with Cleanup_step. intros r w' Hs. by eapply policy_step_guarded.
Qed.

(** What confinement means for packets: a table that the backend installs is in
    the namespace, and whatever leaves the namespace leaves by a link that its
    policy uses, and, where the ranges and the endpoint of the policy are
    expressible, is traffic that the policy allows. *)
Definition confined (w : NS) : Prop :=
  exists name podUID po, podUID <> "" /\ sanctioned podUID po /\ ns_tables w !! name = Some (policy_table podUID po) /\
    forall p, well_formed p -> passes (ns_tables w) p = true ->
      policy_links po p = true /\ (plain_policy po -> policy_allows po p = true).

Lemma guarded_confined w : guarded w -> confined w.
Proof.
  intros (name & t & Hl & podUID & po & Hne & Hs & ->). exists name, podUID, po. split_and!; [done..|]. intros p Hwf Hp.
  pose proof (passes_table _ _ _ _ Hl Hp) as Hpass. unfold policy_table, table_passes, table_passes_at in Hpass.
  rewrite !forallb_app in Hpass. cbn [forallb] in Hpass.
  change (hook_filter ChainHookOutput (with_rules output_chain _)) with true in Hpass. cbn [negb orb] in Hpass.
  rewrite !andb_true_iff in Hpass. destruct Hpass as [[Hout _] _]. split; [by eapply output_rules_links|].
  intros Hpo. by rewrite output_rules_verdict in Hout.
Qed.

(** ** What Configure installs, Verify accepts *)

Lemma kcall_ok {A} (act : IO NS A) w a w' :
  kcall act w = (Ok a, w') -> exists f, act (set_ns_faults f w) = (Ok a, w').
Proof.
  unfold kcall. destruct w as [t l n rt ru m g fl]. cbn. destruct fl as [|[|] rest]; [by exists []|done|by exists rest].
Qed.

Lemma kcall_nofault {A} (act : IO NS A) w : ns_faults w = [] -> kcall act w = act w.
Proof. unfold kcall. by intros ->. Qed.

(** The overlay link as the configuration wants it. *)
Definition overlay_link (cfg : Config) (link : klink) : Prop :=
  exists v, kl_vxlan link = Some v /\ vx_id v = cfg_VNI cfg.

Lemma ensureVXLAN_link cfg name underlay src w link w' :
  ensureVXLAN cfg name underlay src w = (Ok link, w') ->
  ns_links w' !! name = Some link /\ overlay_link cfg link.
Proof.
  unfold ensureVXLAN. intros (source & w1 & _ & H)%bind_ok. apply bind_ok in H as (found & w2 & Hf & H).
  apply try_inv in Hf as (r & Hf & [= ->]).
  set (create := io_wrap _ _) in H.
  assert (forall w0 l w1, create w0 = (Ok l, w1) -> ns_links w1 !! name = Some l /\ overlay_link cfg l) as Hcreate.
  { intros w0 l w1' Hc%wrap_ok. unfold LinkAdd in Hc. apply kcall_ok in Hc as [f Hc].
    destruct (ns_links _ !! name); [done|]. injection Hc as <- <-. cbn. rewrite lookup_insert_eq.
    split; [done|]. eexists. split; [done|]. done. }
  destruct r as [existing|e]; [|by eapply Hcreate].
  destruct (kl_vxlan existing) as [v|] eqn:Ev; [|done]. destruct (vxlanMatches _ _ _ _ _) eqn:Em.
  - injection H as <- <-. unfold LinkByName in Hf. apply kcall_ok in Hf as [f Hf]. cbn in Hf.
    destruct (ns_links w1 !! name) as [l|] eqn:El; [|done]. injection Hf as -> <-. cbn. split; [done|].
    exists v. split; [done|]. unfold vxlanMatches in Em. rewrite !andb_true_iff in Em.
    destruct Em as (((((Hid%Z.eqb_eq & _) & _) & _) & _) & _). done.
  - apply bind_ok in H as (u & w3 & _ & H). by eapply Hcreate.
Qed.

Lemma alter_link_ok f name w u w' link :
  alter_link f name w = (Ok u, w') -> ns_links w !! name = Some link ->
  ns_links w' !! name = Some (f link) /\ ns_routes w' = ns_routes w.
Proof.
  unfold alter_link. intros [fl H]%kcall_ok Hl. cbn in H. rewrite Hl in H. injection H as _ <-. cbn.
  by rewrite lookup_insert_eq.
Qed.

Lemma replacePolicy_ok podUID po w u w' :
  replacePolicy podUID po w = (Ok u, w') ->
  ns_tables w' = <[policyTableName podUID := policy_table podUID po]> (ns_tables w) /\
  ns_links w' = ns_links w /\ ns_routes w' = ns_routes w.
Proof.
  intros H. pose proof (wp_elim _ _ _ _ _ (replacePolicy_spec podUID po w) H) as Ht. split; [done|].
  unfold replacePolicy in H. apply bind_ok in H as (ex & w1 & H1 & H2).
  apply kcall_ok in H1 as [f1 [= _ <-]]. apply kcall_ok in H2 as [f2 H2]. cbn -[policy_batch] in H2.
  destruct (apply_batch _ _); [|done]. injection H2 as _ <-. done.
Qed.

(** What a successful configuration leaves in the namespace. *)
Lemma Configure_state cfg w u w' :
  Configure cfg w = (Ok u, w') ->
  Config_Validate cfg = None /\
  (exists underlay, ns_tables w' !! policyTableName (cfg_PodUID cfg) =
     Some (policy_table (cfg_PodUID cfg) (configured_policy underlay cfg))) /\
  exists link, ns_links w' !! overlayName cfg = Some link /\ overlay_link cfg link /\ kl_up link = true /\
    cfg_Address cfg ∈ kl_addrs link /\
    mkRoute (familyFor (cfg_GatewayAddress cfg)) (kl_index link) (cfg_GatewayAddress cfg) protectedRouteTable
      waycloakRouteProtocol None ∈ ns_routes w'.
Proof.
  unfold Configure. intros (u0 & w0 & Hv & H)%bind_ok.
  destruct (Config_Validate cfg) as [e|] eqn:Ev; [done|]. split; [done|].
  apply bind_ok in H as (u1 & w1 & _ & H). apply bind_ok in H as ([[name underlay] src] & w2 & _ & H).
  apply bind_ok in H as (link & w3 & Hvx & H). apply ensureVXLAN_link in Hvx as [Hl3 Hov].
  apply bind_ok in H as (u4 & w4 & H4%wrap_ok & H). destruct (alter_link_ok _ _ _ _ _ _ H4 Hl3) as [Hl4 _].
  apply bind_ok in H as (u5 & w5 & H5%wrap_ok & H). destruct (alter_link_ok _ _ _ _ _ _ H5 Hl4) as [Hl5 _].
  apply bind_ok in H as (u6 & w6 & H6%wrap_ok & H). apply kcall_ok in H6 as [f6 [= _ <-]].
  apply wrap_ok, replacePolicy_ok in H as (Ht & Hlinks & Hroutes). split.
  - exists name. rewrite Ht. apply lookup_insert_eq.
  - eexists. rewrite Hlinks, Hroutes. cbn. split; [exact Hl5|]. cbn. split_and!; [done|done| |].
    + case_decide; [done|]. set_solver.
    + set_solver.
Qed.

Lemma policy_chains_owned (tables : gmap string (list nchain)) name t c :
  tables !! name = Some t -> c ∈ t ->
  (name, c) ∈ List.filter (fun nc => String.eqb nc.1 name)
    (flat_map (fun nt => map (fun c => (nt.1, c)) nt.2) (map_to_list tables)).
Proof.
  intros Ht Hc. apply list_elem_of_In, filter_In. split; [|apply String.eqb_refl].
  apply in_flat_map. exists (name, t). split; [by apply list_elem_of_In, elem_of_map_to_list|].
  apply in_map_iff. exists c. split; [done|]. by apply list_elem_of_In.
Qed.

Lemma existsb_intro {A} (f : A -> bool) l x : x ∈ l -> f x = true -> existsb f l = true.
Proof. intros Hx Hf. apply existsb_exists. exists x. split; [by apply list_elem_of_In|done]. Qed.

Lemma verifyPolicy_run podUID po w :
  ns_faults w = [] -> ns_tables w !! policyTableName podUID = Some (policy_table podUID po) ->
  Addr_IsValid (po_DNSGateway po) = true -> verifyPolicy podUID true w = (Ok tt, w).
Proof.
  intros Hf Ht Hdns. unfold verifyPolicy.
  erewrite bind_run by (apply wrap_run; unfold nft_ListTables; rewrite kcall_nofault by done; reflexivity).
  rewrite (proj2 (contains_string_spec _ _)).
  2: { apply list_elem_of_fmap. exists (policyTableName podUID, policy_table podUID po).
       split; [done|]. by apply elem_of_map_to_list. }
  cbn [negb]. erewrite bind_run by (apply wrap_run; unfold nft_ListChains; rewrite kcall_nofault by done; reflexivity).
  cbv zeta. set (marker := "waycloak:" +:+ podUID).
  rewrite (existsb_intro _ _ (policyTableName podUID, with_rules output_chain (output_rules marker po))); [|..].
  - rewrite (existsb_intro _ _ (policyTableName podUID, with_rules dns_chain
      (map (dns_rule (Addr_Unmap (po_DNSGateway po)) marker) [IPPROTO_UDP; IPPROTO_TCP]))); [done| |done].
    eapply policy_chains_owned; [done|]. unfold policy_table. rewrite Hdns. fold marker. set_solver.
  - eapply policy_chains_owned; [done|]. unfold policy_table. fold marker. set_solver.
  - done.
Qed.

Lemma addrEqual_refl a : Addr_IsValid a = true -> addrEqual a a = true.
Proof. intros Ha. unfold addrEqual. by rewrite Ha, bool_decide_true. Qed.

Lemma validated_gateway cfg : Config_Validate cfg = None -> Addr_IsValid (cfg_GatewayAddress cfg) = true.
Proof.
  unfold Config_Validate. destruct (str_empty _); [done|]. destruct (_ || _ || _ || _); [done|].
  by destruct (Addr_IsValid (cfg_GatewayAddress cfg)).
Qed.

(** A verified namespace is confined, if only the backend writes its tables:
    the table that [verifyPolicy] found by name is a Pod's policy. *)
Lemma Verify_guarded cfg w u w' : Verify cfg w = (Ok u, w') -> owned w -> guarded w'.
Proof.
  intros H Ho. pose proof (wp_elim _ _ _ _ _ (kt_Verify cfg w) H) as Ht. unfold guarded. rewrite Ht. clear Ht.
  unfold Verify in H. apply bind_ok in H as (u1 & w1 & H & _). unfold verifyPolicy in H.
  apply bind_ok in H as (tables & w2 & Hl%wrap_ok & H). destruct (contains_string _ _) eqn:Ec; [|done].
  apply contains_string_spec in Ec. apply kcall_ok in Hl as [f Hl]. injection Hl as <- _. cbn in Ec.
  apply list_elem_of_fmap in Ec as ([name t] & Hname & Hin%elem_of_map_to_list). cbn in Hname. subst name.
  exists (policyTableName (cfg_PodUID cfg)), t. split; [done|]. by eapply Ho.
Qed.

(** Configuration and verification agree.  After a successful
    [Configure], a verification whose kernel queries are answered succeeds
    exactly when the gateway's observed readiness endpoint answers: the
    policy table with its DNS chain, the overlay link with its VNI, address
    and state, and the protected default route are all as [Verify] requires
    them. *)
Theorem Configure_then_Verify cfg w u w' :
  Configure cfg w = (Ok u, w') -> ns_faults w' = [] ->
  res_ok (Verify cfg w').1 =
    ns_gateway w' (mkAddrPort (cfg_GatewayAddress cfg) (cfg_GatewayHealthPort cfg)).
Proof.
  intros Hcfg Hf. apply Configure_state in Hcfg as (Hv & (underlay & Ht) & link & Hl & (v & Hvx & Hid) & Hup & Haddr & Hroute).
  pose proof (validated_gateway cfg Hv) as Hgw. unfold Verify.
  erewrite bind_run by (eapply verifyPolicy_run; [done|exact Ht|exact Hgw]).
  erewrite bind_run; [|apply wrap_run; unfold LinkByName; rewrite kcall_nofault by done; rewrite Hl; reflexivity].
  rewrite Hvx, Hid, Z.eqb_refl, Hup. cbn [negb].
  erewrite bind_run; [|apply wrap_run; rewrite kcall_nofault by done; reflexivity].
  rewrite (existsb_intro _ _ (cfg_Address cfg)); [|..].
  2: { apply list_elem_of_In, filter_In. split; [by apply list_elem_of_In|apply Z.eqb_refl]. }
  2: { by apply bool_decide_eq_true. }
  cbn [negb]. erewrite bind_run; [|apply wrap_run; unfold RouteListFiltered; rewrite kcall_nofault by done; reflexivity].
  rewrite (existsb_intro _ _ (mkRoute (familyFor (cfg_GatewayAddress cfg)) (kl_index link) (cfg_GatewayAddress cfg)
    protectedRouteTable waycloakRouteProtocol None)).
  - unfold io_wrap, probeGatewayReadiness. rewrite kcall_nofault by done.
    by destruct (ns_gateway w' (mkAddrPort (cfg_GatewayAddress cfg) (cfg_GatewayHealthPort cfg))).
  - apply list_elem_of_In, filter_In. split; [by apply list_elem_of_In|]. cbn. by rewrite !Z.eqb_refl.
  - cbn. rewrite Z.eqb_refl. by apply addrEqual_refl.
Qed.

(** ** A namespace with one underlay link *)

Module KernelSample.

Definition underlay : klink := mkLink 2 true 1500 [mkPrefix (Addr4 (ipv4_value 192 0 2 10)) 24] None "".
Definition space : NS :=
  mkNS ∅ {["eth0" := underlay]} 3 [] [] (fun _ => Some (2, Addr4 (ipv4_value 192 0 2 10))) (fun _ => true) [].

Definition config : Config :=
  mkConfig "uid-1" 1 1 (mkPrefix (Addr4 (ipv4_value 10 90 0 5)) 24) (mkPrefix (Addr4 (ipv4_value 10 90 0 0)) 24)
    (Addr4 (ipv4_value 10 90 0 1)) (mkAddrPort (Addr4 (ipv4_value 192 0 2 7)) 4789) 9402 100 1400
    ClusterTrafficGateway [] "" "" [].

(** The same namespace with the second kernel call of a command refused. *)
Definition locked_space : NS :=
  set_ns_faults [false; true] (set_tables {[policyTableName "uid-1" := policy_table "uid-1" lockdown_policy]} space).

Lemma backend_keeps_guard_witness :
  wp (Configure config) (fun _ w' => guarded w') locked_space /\ wp (Cleanup "uid-1" None) (fun _ w' => guarded w') locked_space.
Proof.
  destruct (backend_keeps_guard locked_space) as (_ & Hc & _ & _ & Hd).
  - exists (policyTableName "uid-1"), (policy_table "uid-1" lockdown_policy).
    split; [apply lookup_singleton_eq|by apply lockdown_content].
  - split; [apply Hc|apply Hd].
Defined.

Lemma Configure_then_Verify_witness : res_ok (Verify config (Configure config space).2).1 = true.
Proof.
  rewrite (Configure_then_Verify config space tt (Configure config space).2); vm_compute; reflexivity.
Defined.

End KernelSample.
