(* ===== verification/Http.v ===== *)
(** * HTTP requests, URL paths and strict bodies

    What the gateway runtime and adapter protocols use of [net/http], [net/url]
    and [encoding/json]: a request with the path as it is on the wire, path
    escaping in both modes, and the bounded, strict reading of bodies that
    internal/portforward/transport.go wraps around them.  The encoding of a
    message to JSON is a parameter of the protocols. *)

From Stdlib Require Import Ascii.
From S2P Require Import Prelude Netip.

(** ** net/url *)

Definition byte_of (c : ascii) : Z := Z.of_N (N_of_ascii c).
Definition char_of (n : Z) : ascii := ascii_of_N (Z.to_N n).

(** The two modes of [escape] that paths use. *)
Inductive encoding := encodePath | encodePathSegment.

Definition unreserved (c : ascii) : bool :=
  let n := byte_of c in
  ((97 <=? n) && (n <=? 122)) || ((65 <=? n) && (n <=? 90)) || ((48 <=? n) && (n <=? 57)) ||
  existsb (Ascii.eqb c) ["-"; "_"; "."; "~"]%char.

Definition shouldEscape (mode : encoding) (c : ascii) : bool :=
  if unreserved c then false
  else if existsb (Ascii.eqb c) ["$"; "&"; "+"; ","; "/"; ":"; ";"; "="; "?"; "@"]%char then
    match mode with
    | encodePathSegment => existsb (Ascii.eqb c) ["/"; ";"; ","; "?"]%char
    | encodePath => Ascii.eqb c "?"%char
    end
  else true.

Definition upper_hex (n : Z) : ascii := char_of (if n <? 10 then 48 + n else 55 + n).

Fixpoint escape (mode : encoding) (s : string) : string :=
  match s with
  | EmptyString => ""
  | String c rest =>
      if shouldEscape mode c
      then String "%" (String (upper_hex (byte_of c / 16)) (String (upper_hex (byte_of c mod 16)) (escape mode rest)))
      else String c (escape mode rest)
  end.

(** [unhex] of a byte that [ishex] accepts. *)
Notation unhex := hex_value.

Fixpoint unescape (s : string) : option string :=
  match s with
  | EmptyString => Some EmptyString
  | String c rest =>
      if Ascii.eqb c "%" then
        match rest with
        | String a (String b rest') =>
            match unhex a, unhex b, unescape rest' with
            | Some h, Some l, Some t => Some (String (char_of (16 * h + l)) t)
            | _, _, _ => None
            end
        | _ => None
        end
      else match unescape rest with Some t => Some (String c t) | None => None end
  end.

Definition PathEscape : string -> string := escape encodePathSegment.
Definition PathUnescape : string -> option string := unescape.

Definition validEncoded_char (c : ascii) : bool :=
  existsb (Ascii.eqb c) ["!"; "$"; "&"; "'"; "("; ")"; "*"; "+"; ","; ";"; "="; ":"; "@"; "["; "]"; "%"]%char ||
  negb (shouldEscape encodePath c).

(** [EscapedPath] of the URL that [setPath] makes of a received path; none where
    the path does not parse. *)
Definition received_EscapedPath (wire : string) : option string :=
  match unescape wire with
  | None => None
  | Some path =>
      if String.eqb wire (escape encodePath path) then Some (if String.eqb path "*" then "*" else escape encodePath path)
      else if forallb validEncoded_char (String.list_ascii_of_string wire) then Some wire
      else Some (if String.eqb path "*" then "*" else escape encodePath path)
  end.

(** ** net/http *)

Definition MethodGet : string := "GET".
Definition MethodPut : string := "PUT".
Definition MethodPost : string := "POST".
Definition StatusOK : Z := 200.
Definition StatusNoContent : Z := 204.
Definition StatusBadRequest : Z := 400.
Definition StatusUnauthorized : Z := 401.
Definition StatusForbidden : Z := 403.
Definition StatusNotFound : Z := 404.
Definition StatusMethodNotAllowed : Z := 405.
Definition StatusConflict : Z := 409.
Definition StatusRequestEntityTooLarge : Z := 413.
Definition StatusServiceUnavailable : Z := 503.

(** A request as it arrives: [rq_Path] and [rq_RawQuery] are those of the request
    line, still escaped. *)
Record HttpRequest := mkHttpRequest {
  rq_Method : string;
  rq_Host : string;
  rq_Path : string;
  rq_RawQuery : string;
  rq_ContentType : string;
  rq_Body : string
}.
Record HttpResponse := mkHttpResponse { rs_StatusCode : Z; rs_Body : string }.

(** [http.Client.Do], with the construction of the request. *)
Class HttpClient (W : Type) := http_Do : HttpRequest -> IO W HttpResponse.

(** ** Bodies *)

Definition readBounded (contents : string) (limit : Z) : res string :=
  if limit <? Z.of_nat (String.length contents) then Fail (ENew "gateway runtime message exceeds size limit")
  else Ok contents.

Definition json_space (c : ascii) : bool := existsb (fun n => byte_of c =? n) [32; 9; 10; 13].

(** [strings.ContainsAny] of a carriage return, a newline or a zero byte. *)
Definition several_lines (value : string) : bool :=
  existsb (fun c => existsb (Ascii.eqb c) ["013"; "010"; "000"]%char) (String.list_ascii_of_string value).

(** [encoding/json] for one type of message: [Marshal], and the first value that
    a [Decoder] with [DisallowUnknownFields] reads, with what is left of the
    input. *)
Class Json (T : Type) := {
  Marshal : T -> option string;
  Decode : string -> option (T * string)
}.

(** What is encoded is read back, and no more than it; nothing is read from
    nothing. *)
Class JsonLaws (T : Type) `{Json T} := {
  Decode_Marshal (x : T) s rest : Marshal x = Some s -> forallb json_space (String.list_ascii_of_string rest) = true ->
    Decode (s +:+ rest) = Some (x, rest);
  Decode_empty : Decode (T := T) "" = None
}.

Definition decodeStrict {T} `{Json T} (contents : string) : res T :=
  match Decode contents with
  | None => Fail (ENew "invalid JSON value")
  | Some (output, rest) =>
      if forallb json_space (String.list_ascii_of_string rest) then Ok output
      else Fail (ENew "gateway runtime message contains trailing data")
  end.

Lemma decodeStrict_Marshal {T} `{JsonLaws T} (x : T) s rest :
  Marshal x = Some s -> forallb json_space (String.list_ascii_of_string rest) = true -> decodeStrict (s +:+ rest) = Ok x.
Proof. intros Hm Hr. unfold decodeStrict. by rewrite (Decode_Marshal x), Hr. Qed.

Lemma decodeStrict_empty {T} `{JsonLaws T} (x : T) : decodeStrict "" <> Ok x.
Proof. unfold decodeStrict. by rewrite Decode_empty. Qed.

(** ** Escaping *)

Lemma app_empty s : s +:+ "" = s.
Proof. induction s as [|c s IH]; [done|]. change (String c (s +:+ "") = String c s). by rewrite IH. Qed.
Lemma app_assoc_string s t u : (s +:+ t) +:+ u = s +:+ (t +:+ u).
Proof. induction s as [|c s IH]; [done|]. change (String c ((s +:+ t) +:+ u) = String c (s +:+ (t +:+ u))). by rewrite IH. Qed.

Lemma length_app_string s t : String.length (s +:+ t) = (String.length s + String.length t)%nat.
Proof. induction s as [|c s IH]; [done|]. change (S (String.length (s +:+ t)) = S (String.length s + String.length t)). by rewrite IH. Qed.

Lemma byte_range c : 0 <= byte_of c < 256.
Proof. unfold byte_of. pose proof (N_ascii_bounded c). lia. Qed.
Lemma char_of_byte c : char_of (byte_of c) = c.
Proof. unfold char_of, byte_of. by rewrite N2Z.id, ascii_N_embedding. Qed.

Lemma unhex_upper n : 0 <= n < 16 -> unhex (upper_hex n) = Some n.
Proof.
  intros Hn. assert (n ∈ map Z.of_nat (seq 0 16)) as Hin.
  { apply list_elem_of_In, in_map_iff. exists (Z.to_nat n). split; [lia|]. apply in_seq. lia. }
  revert Hin. apply (Forall_forall (fun n => unhex (upper_hex n) = Some n)). by apply (bool_decide_unpack _).
Qed.

(** Unescaping inverts escaping, in either mode. *)
Lemma unescape_escape mode s : unescape (escape mode s) = Some s.
Proof.
  induction s as [|c s IH]; [done|]. cbn [escape]. destruct (shouldEscape mode c) eqn:Es.
  - cbn [unescape]. pose proof (byte_range c). cbn. rewrite !unhex_upper by (split; [apply Z.div_pos|apply Z.div_lt_upper_bound] || apply Z.mod_pos_bound; lia).
    rewrite IH. do 2 f_equal. rewrite <- (char_of_byte c) at 3. f_equal. symmetry. apply Z.div_mod. lia.
  - cbn [unescape]. destruct (Ascii.eqb c "%") eqn:Ec; [|by rewrite IH].
    apply Ascii.eqb_eq in Ec as ->. destruct mode; discriminate.
Qed.

(** The escaped path that a server reads is the one that was sent. *)
Lemma received_escape s : String.eqb s "*" = false -> received_EscapedPath (escape encodePath s) = Some (escape encodePath s).
Proof. intros Hs. unfold received_EscapedPath. by rewrite unescape_escape, String.eqb_refl, Hs. Qed.

Lemma escape_app mode s t : escape mode (s +:+ t) = escape mode s +:+ escape mode t.
Proof.
  induction s as [|c s IH]; [done|]. change (String c s +:+ t) with (String c (s +:+ t)). cbn [escape]. rewrite IH.
  by destruct (shouldEscape mode c).
Qed.
