(* ===== verification/CniInstall.v ===== *)
(** * Installing the CNI plugin

    internal/cniinstall/install.go, which chains the plugin into the CNI
    configuration of a node, and internal/nodeagent/installation.go, which
    decides whether an installation is the one a receipt describes.  Both run
    on the disk of Files.v.

    Paths are pairs of a directory and a file name, in the form that
    [filepath.Clean] gives them.  What [encoding/json] makes of the bytes of a
    configuration is the parameter [CniJson]; [CniJsonLaws] are the facts about
    encoding and decoding that the theorems use. *)

From Stdlib Require Import Ascii.
From S2P Require Import Prelude Sha256 Netip Api Http Files.

(** ** Configurations *)

Definition PluginType : string := "waycloak-cni".

(** The plugins of a [conflist] are raw messages. *)
Record conflist := mkConflist { cf_CNIVersion : string; cf_Name : string; cf_Plugins : list string }.

Definition InstallationReceiptAPIVersion : string := "cni-installation.waycloak.io/v1".

Record CNIInstallationReceipt := mkReceipt {
  rc_APIVersion : string;
  rc_ReleaseIdentity : ReleaseIdentity;
  rc_BinarySHA256 : string;
  rc_ConfigSHA256 : string;
  rc_PrimaryConfigName : string;
  rc_PrimaryConfigSHA256 : string
}.

(** [encoding/json] at the types that the two files decode and encode.  The
    decoders return the first value and what is left of the input. *)
Class CniJson := {
  conflist_Decode : string -> option (conflist * string);
  conflist_MarshalIndent : conflist -> option string;
  header_Unmarshal : string -> option string;
  plugin_Marshal : string -> string -> string -> option string;
  chain_Decode : string -> option (list string);
  Value : Type;
  Value_eq : EqDecision Value;
  any_Unmarshal : string -> option Value;
  Object : Type;
  object_Decode : string -> option (Object * string);
  object_Marshal : Object -> option string;
  receipt_Decode : string -> option (CNIInstallationReceipt * string);
  receipt_MarshalIndent : CNIInstallationReceipt -> option string
}.
#[global] Existing Instance Value_eq.

Definition newline : string := String (Ascii.ascii_of_nat 10) "".

(** The next [Decode] reports [io.EOF]. *)
Definition at_EOF (rest : string) : bool := forallb json_space (String.list_ascii_of_string rest).

(** The types of the plugins of an encoded conflist are the types of its raw
    messages; the entry that the installer writes has the type it gives it; a
    receipt is read back as it was written. *)
Class CniJsonLaws `{CniJson} := {
  chain_of_conflist c s types : conflist_MarshalIndent c = Some s ->
    Forall2 (fun raw t => header_Unmarshal raw = Some t) (cf_Plugins c) types -> chain_Decode (s +:+ newline) = Some types;
  header_of_plugin socket key dir raw : plugin_Marshal socket key dir = Some raw -> header_Unmarshal raw = Some PluginType;
  receipt_of_receipt r s : receipt_MarshalIndent r = Some s -> receipt_Decode (s +:+ newline) = Some (r, newline)
}.

Definition validDigest (value : string) : bool :=
  String.prefix "sha256:" value && (String.length value =? 71)%nat &&
  forallb (fun c => match hex_value c with Some _ => true | None => false end) (String.list_ascii_of_string (drop_string 7 value)).

Definition digest_of (data : string) : string := "sha256:" +:+ EncodeToString (Sum256 (bytes_of_string data)).

(** The bytewise order of Go strings. *)
Definition str_lt (a b : string) : bool := negb (bool_decide (String.le b a)).

(** The empty string in place of a path. *)
Definition no_path (f : path) : bool := str_empty f.1 && str_empty f.2.

(** ** Reading *)

Definition bounded (limit : Z) (data : string) : res string :=
  if limit <? Z.of_nat (String.length data) then Fail (ENew "file exceeds size limit") else Ok data.

Definition readRegular (f : path) (limit : Z) : IO FS string :=
  info ← os_Lstat f;
  match info with
  | None => io_fail (ENew "path is not a regular file")
  | Some _ => data ← os_ReadFile f; io_lift (bounded limit data)
  end.

Definition protectedFileMode (mode : Z) : bool := Z.land mode 18 =? 0.

Definition readProtectedRegular (f : path) (limit : Z) : IO FS string :=
  info ← os_Lstat f;
  match info with
  | Some mode =>
      if negb (protectedFileMode mode) then io_fail (ENew "file must be regular and not group/world writable")
      else data ← os_ReadFile f; io_lift (bounded limit data)
  | None => io_fail (ENew "file must be regular and not group/world writable")
  end.

Definition digestProtectedRegular (f : path) (limit : Z) : IO FS string :=
  data ← readProtectedRegular f limit; mret (digest_of data).

Definition receiptLimit : Z := 65536.
Definition configLimit : Z := 1048576.
Definition binaryLimit : Z := 268435456.

(** ** Validation (installation.go) *)

Definition configExtension (name : string) : bool :=
  existsb (String.eqb (Ext name)) [".conf"; ".conflist"; ".json"].

Definition ValidateCNIConfigSelection (configPath : path) : IO FS unit :=
  let name := configPath.2 in
  if negb (HasSuffix name ".conflist")
  then io_fail (ENew "installed config must be a .conflist in the runtime CNI config directory")
  else
    entries ← io_wrap "inspect CNI config selection" (os_ReadDir configPath.1);
    if existsb (fun entry => negb entry.2 && configExtension entry.1 && str_lt entry.1 name) entries
    then io_fail (ENew "CNI config is shadowed by earlier config; review runtime config selection")
    else mret tt.

(** How often the plugin occurs and where it occurs last. *)
Fixpoint scan_chain (i : Z) (found : Z * Z) (types : list string) : Z * Z :=
  match types with
  | [] => found
  | t :: rest => scan_chain (i + 1) (if String.eqb t PluginType then (found.1 + 1, i) else found) rest
  end.

Section Validation.
Context `{CniJson}.

Definition PrimaryConfigDigest (data : string) : res string :=
  match object_Decode data with
  | None => Fail (ENew "invalid JSON value")
  | Some (value, rest) =>
      if negb (at_EOF rest) then Fail (ENew "primary CNI config contains trailing JSON")
      else match object_Marshal value with
           | None => Fail (ENew "unsupported value")
           | Some canonical => Ok (digest_of canonical)
           end
  end.

Definition requireWaycloakChain (config : string) : res unit :=
  match chain_Decode config with
  | None => Fail (ENew "decode installed CNI conflist")
  | Some types =>
      let '(count, index) := scan_chain 0 (0, -1) types in
      if negb (count =? 1) || (index <? 1)
      then Fail (ENew "installed CNI config must contain Waycloak exactly once after a primary plugin")
      else Ok tt
  end.

(** The check of the upstream primary that a receipt of a separately owned
    installation names. *)
Definition validatePrimary (receipt : CNIInstallationReceipt) (configPath : path) : IO FS unit :=
  if str_empty (rc_PrimaryConfigName receipt) && str_empty (rc_PrimaryConfigSHA256 receipt) then mret tt
  else
    let name := rc_PrimaryConfigName receipt in
    if str_empty name || existsb (Ascii.eqb "/"%char) (String.list_ascii_of_string name) ||
       negb (HasSuffix name ".conflist") || negb (str_lt configPath.2 name) || negb (validDigest (rc_PrimaryConfigSHA256 receipt))
    then io_fail (ENew "CNI receipt has an invalid primary config identity")
    else
      primary ← io_wrap "verify upstream primary CNI config" (readProtectedRegular (configPath.1, name) configLimit);
      match PrimaryConfigDigest primary with
      | Ok digest =>
          if String.eqb digest (rc_PrimaryConfigSHA256 receipt) then mret tt
          else io_fail (ENew "upstream primary CNI config changed; review the topology and update the owned chain before restoring readiness")
      | Fail _ => io_fail (ENew "upstream primary CNI config changed; review the topology and update the owned chain before restoring readiness")
      end.

Definition validateCNIInstallation (receiptPath binaryPath configPath : path) (expected : ReleaseIdentity) (denyHold : bool) : IO FS unit :=
  if no_path receiptPath || no_path binaryPath || no_path configPath || str_empty (ri_Version expected) || str_empty (ri_ManifestDigest expected)
  then io_fail (ENew "CNI receipt, binary, config, and exact release identity are required")
  else
    receiptBytes ← io_wrap "read CNI installation receipt" (readProtectedRegular receiptPath receiptLimit);
    match receipt_Decode receiptBytes with
    | None => io_fail (ENew "decode CNI installation receipt")
    | Some (receipt, rest) =>
        if negb (at_EOF rest) then io_fail (ENew "CNI installation receipt contains trailing JSON")
        else if negb (String.eqb (rc_APIVersion receipt) InstallationReceiptAPIVersion) ||
                negb (bool_decide (rc_ReleaseIdentity receipt = expected)) ||
                negb (validDigest (rc_BinarySHA256 receipt)) || negb (validDigest (rc_ConfigSHA256 receipt))
        then io_fail (ENew "CNI installation receipt identity is unsupported")
        else
          binaryDigest ← io_wrap "verify installed CNI binary" (digestProtectedRegular binaryPath binaryLimit);
          configBytes ← io_wrap "verify installed CNI config" (readProtectedRegular configPath configLimit);
          if negb (String.eqb binaryDigest (rc_BinarySHA256 receipt))
          then io_fail (ENew "installed CNI binary does not match the signed-plan receipt; rerun the exact release installer")
          else if negb (String.eqb (digest_of configBytes) (rc_ConfigSHA256 receipt))
          then io_fail (ENew "installed CNI config does not match the signed-plan receipt; inspect config ownership and rerun the exact release installer")
          else
            io_lift (requireWaycloakChain configBytes) ;;
            if denyHold then mret tt
            else ValidateCNIConfigSelection configPath ;; validatePrimary receipt configPath
    end.

Definition ValidateCNIInstallation (receiptPath binaryPath configPath : path) (expected : ReleaseIdentity) : IO FS unit :=
  validateCNIInstallation receiptPath binaryPath configPath expected false.
Definition ValidateCNIInstallationForDenyHold (receiptPath binaryPath configPath : path) (expected : ReleaseIdentity) : IO FS unit :=
  validateCNIInstallation receiptPath binaryPath configPath expected true.

End Validation.

(** ** The installer (install.go) *)

(** An empty [SourceConfigPath] is [None]. *)
Record Options := mkOptions {
  op_SourceBinary : path;
  op_BinaryPath : path;
  op_ConfigPath : path;
  op_SourceConfigPath : option path;
  op_MigrateLegacySource : bool;
  op_ReceiptPath : path;
  op_BackupPath : path;
  op_AgentSocket : string;
  op_AgentKeyFile : string;
  op_StateDirectory : string;
  op_ReleaseIdentity : ReleaseIdentity
}.

(** [filepath.IsAbs], which an empty or blank string is not. *)
Definition IsAbs (dir : string) : bool := String.prefix "/" dir.

Definition options_validate (o : Options) : option error :=
  if op_MigrateLegacySource o && negb (bool_decide (is_Some (op_SourceConfigPath o)))
  then Some (ENew "legacy migration requires a separately owned primary source")
  else if negb (forallb (fun p : path => IsAbs p.1) [op_SourceBinary o; op_BinaryPath o; op_ConfigPath o; op_ReceiptPath o; op_BackupPath o])
  then Some (ENew "must be an absolute path")
  else if negb (forallb IsAbs [op_AgentSocket o; op_AgentKeyFile o; op_StateDirectory o])
  then Some (ENew "must be an absolute Linux path")
  else if bool_decide (op_BinaryPath o = op_SourceBinary o) || bool_decide (op_ConfigPath o = op_BackupPath o) ||
          str_empty (ri_Version (op_ReleaseIdentity o)) || negb (validDigest (ri_ManifestDigest (op_ReleaseIdentity o)))
  then Some (ENew "distinct install paths and an exact release identity are required")
  else if match op_SourceConfigPath o with
          | Some source =>
              negb (IsAbs source.1) || negb (String.eqb source.1 (op_ConfigPath o).1) || negb (HasSuffix source.2 ".conflist") ||
              negb (str_lt (op_ConfigPath o).2 source.2) || bool_decide (source = op_BackupPath o)
          | None => false
          end
  then Some (ENew "owned config must precede a distinct primary .conflist in the same runtime CNI directory")
  else if String.eqb (op_StateDirectory o) (op_ReceiptPath o).1
  then Some (ENew "attachment state directory must be distinct from the installation receipt directory")
  else None.

(** ** Writing *)

Definition temporaryPrefix : string := ".waycloak-".

(** Opening a directory and flushing it; nothing of it is visible. *)
Definition syncDirectory (dir : string) : IO FS unit := file_Sync (dir, "").

(** The first of two errors that is not nil, and [errors.Join] of three. *)
Definition first_error (a b : res unit) : res unit := match a with Ok _ => b | Fail _ => a end.
Definition error_of (r : res unit) : option error := match r with Ok _ => None | Fail e => Some e end.

Definition createExclusive (f : path) (data : string) (mode : Z) : IO FS unit :=
  os_MkdirAll f.1 ;;
  os_CreateExclusive f mode ;;
  written ← io_try (file_Write f data ;; file_Sync f);
  closed ← io_try (file_Close f);
  synced ← io_try (syncDirectory f.1);
  io_lift (of_error (errors_Join [error_of written; error_of closed; error_of synced])).

(** [atomicWrite] between the creation of the temporary file and its deferred
    removal. *)
Definition atomicWrite_publish (temporary f : path) (data : string) (mode : Z) : IO FS unit :=
  written ← io_try (file_Chmod temporary mode ;; file_Write temporary data ;; file_Sync temporary);
  closed ← io_try (file_Close temporary);
  io_lift (first_error written closed) ;;
  os_Rename temporary f ;;
  syncDirectory f.1.

Definition atomicWrite (f : path) (data : string) (mode : Z) : IO FS unit :=
  os_MkdirAll f.1 ;;
  temporary ← os_CreateTemp f.1 temporaryPrefix;
  result ← io_try (atomicWrite_publish temporary f data mode);
  io_ignore (os_Remove temporary) ;;
  io_lift result.

(** What [Install] is about to write: the legacy chain it migrates from, the
    primary without the plugin, the chain, and whether that was there before. *)
Record plan := mkPlan { pl_legacy : option string; pl_original : string; pl_rendered : string; pl_installed : bool }.

Section Installer.
Context `{CniJson}.
Variable o : Options.

Definition jsonEqual (left right : string) : bool :=
  match any_Unmarshal left, any_Unmarshal right with
  | Some a, Some b => bool_decide (a = b)
  | _, _ => false
  end.

(** The loop over the plugins: where the entry of Waycloak is. *)
Fixpoint find_plugin (index found : Z) (plugins : list string) : res Z :=
  match plugins with
  | [] => Ok found
  | raw :: rest =>
      match header_Unmarshal raw with
      | None => Fail (ENew "CNI plugin is invalid")
      | Some t =>
          if str_empty t then Fail (ENew "CNI plugin is invalid")
          else if String.eqb t PluginType
          then if 0 <=? found then Fail (ENew "waycloak occurs more than once in the CNI chain")
               else find_plugin (index + 1) index rest
          else find_plugin (index + 1) found rest
      end
  end.

Definition render (original : string) : res (string * bool) :=
  match conflist_Decode original with
  | None => Fail (ENew "decode primary CNI conflist")
  | Some (config, rest) =>
      if negb (at_EOF rest) then Fail (ENew "CNI conflist contains trailing JSON")
      else if str_empty (cf_CNIVersion config) || str_empty (cf_Name config) || bool_decide (cf_Plugins config = [])
      then Fail (ENew "primary CNI conflist must have a version, name, and plugin")
      else
        match find_plugin 0 (-1) (cf_Plugins config) with
        | Fail e => Fail e
        | Ok found =>
            match plugin_Marshal (op_AgentSocket o) (op_AgentKeyFile o) (op_StateDirectory o) with
            | None => Fail (ENew "unsupported value")
            | Some plugin =>
                if (0 <=? found) && ((found =? 0) || negb (jsonEqual (default "" (cf_Plugins config !! Z.to_nat found)) plugin))
                then Fail (ENew "existing Waycloak CNI entry is foreign or not chained after the primary plugin")
                else
                  let plugins := if 0 <=? found then cf_Plugins config else cf_Plugins config ++ [plugin] in
                  match conflist_MarshalIndent (mkConflist (cf_CNIVersion config) (cf_Name config) plugins) with
                  | None => Fail (ENew "unsupported value")
                  | Some rendered => Ok (rendered +:+ newline, 0 <=? found)
                  end
            end
        end
  end.

Definition preserveOriginal (original : string) : IO FS unit :=
  created ← io_try (createExclusive (op_BackupPath o) original 384);
  match created with
  | Ok _ => mret tt
  | Fail err =>
      if negb (errors_is err ErrExist) then io_fail (Errorf "preserve primary CNI conflist" err)
      else
        backup ← io_wrap "verify preserved primary CNI conflist" (readRegular (op_BackupPath o) configLimit);
        if String.eqb backup original then mret tt
        else io_fail (ENew "preserved primary CNI conflist differs from the active unchained config")
  end.

(** A chain that a separately owned installation finds in its source is taken
    over only if the primary beside it reproduces that chain. *)
Definition migration (source : path) (original rendered : string) (installed : bool) : IO FS plan :=
  if negb installed then mret (mkPlan None original rendered false)
  else if negb (op_MigrateLegacySource o)
  then io_fail (ENew "separately owned installation requires an unchained upstream primary config; review migration from the in-place layout")
  else
    backup ← io_wrap "read legacy migration primary" (readRegular (source.1, source.2 +:+ ".waycloak-original") configLimit);
    match render backup with
    | Ok (expected, again) =>
        if again || negb (jsonEqual expected original)
        then io_fail (ENew "legacy migration primary does not reproduce the exact source chain")
        else mret (mkPlan (Some original) backup expected false)
    | Fail _ => io_fail (ENew "legacy migration primary does not reproduce the exact source chain")
    end.

(** The owned configuration and the preserved primary, if they are there. *)
Definition adopt_backup (existing : res string) (p : plan) : IO FS plan :=
  preserved ← io_try (readRegular (op_BackupPath o) configLimit);
  match preserved with
  | Ok backup =>
      match render backup with
      | Ok (expected, installed) =>
          if installed || match existing with Ok e => negb (String.eqb expected e) | Fail _ => false end ||
             negb (jsonEqual expected (pl_rendered p))
          then io_fail (ENew "owned CNI config or upstream topology differs from the preserved primary; review migration before reinstalling")
          else mret (mkPlan (pl_legacy p) backup expected (pl_installed p))
      | Fail _ => io_fail (ENew "owned CNI config or upstream topology differs from the preserved primary; review migration before reinstalling")
      end
  | Fail backupErr =>
      if match existing with Ok _ => true | Fail _ => false end || negb (errors_is backupErr ErrNotExist)
      then io_fail (Errorf "refuse adoption of owned CNI config without preserved primary" backupErr)
      else mret p
  end.

Definition adopt (p : plan) : IO FS plan :=
  existing ← io_try (readRegular (op_ConfigPath o) configLimit);
  match existing with
  | Fail readErr => if errors_is readErr ErrNotExist then adopt_backup existing p else io_fail (Errorf "inspect owned CNI destination" readErr)
  | Ok _ => adopt_backup existing p
  end.

Definition install_plan (original rendered : string) (installed : bool) : IO FS plan :=
  match op_SourceConfigPath o with
  | None => mret (mkPlan None original rendered installed)
  | Some source => p ← migration source original rendered installed; adopt p
  end.

Definition preserve (p : plan) : IO FS unit :=
  if negb (pl_installed p) then preserveOriginal (pl_original p)
  else
    backup ← io_wrap "verify preserved primary CNI conflist" (readRegular (op_BackupPath o) configLimit);
    match render backup with
    | Ok (expected, backupInstalled) =>
        if backupInstalled || negb (String.eqb expected (pl_rendered p))
        then io_fail (ENew "preserved primary CNI conflist does not reproduce the active chain")
        else mret tt
    | Fail _ => io_fail (ENew "preserved primary CNI conflist does not reproduce the active chain")
    end.

(** After the chain is in place, the migrated primary loses its own entry. *)
Definition restore_primary (p : plan) : IO FS unit :=
  match pl_legacy p, op_SourceConfigPath o with
  | Some legacySource, Some source =>
      current ← readRegular source configLimit;
      if jsonEqual current legacySource
      then io_wrap "restore migrated primary" (atomicWrite source (pl_original p) 420)
      else if negb (jsonEqual current (pl_original p))
      then io_fail (ENew "upstream primary changed during legacy migration; owned guard retained")
      else mret tt
  | _, _ => mret tt
  end.

Definition receipt_for (p : plan) (binary : string) : res CNIInstallationReceipt :=
  let receipt := mkReceipt InstallationReceiptAPIVersion (op_ReleaseIdentity o) (digest_of binary) (digest_of (pl_rendered p)) in
  match op_SourceConfigPath o with
  | None => Ok (receipt "" "")
  | Some source =>
      match PrimaryConfigDigest (pl_original p) with
      | Ok digest => Ok (receipt source.2 digest)
      | Fail e => Fail e
      end
  end.

Definition write_receipt (p : plan) (binary : string) : IO FS unit :=
  receipt ← io_lift (receipt_for p binary);
  match receipt_MarshalIndent receipt with
  | None => io_fail (ENew "unsupported value")
  | Some receiptBytes => io_wrap "write CNI installation receipt" (atomicWrite (op_ReceiptPath o) (receiptBytes +:+ newline) 384)
  end.

Definition Install : IO FS unit :=
  io_lift (of_error (options_validate o)) ;;
  ValidateCNIConfigSelection (op_ConfigPath o) ;;
  original ← io_wrap "read primary CNI conflist" (readRegular (default (op_ConfigPath o) (op_SourceConfigPath o)) configLimit);
  rendered ← io_lift (render original);
  p ← install_plan original rendered.1 rendered.2;
  preserve p ;;
  binary ← io_wrap "read CNI binary" (readRegular (op_SourceBinary o) binaryLimit);
  io_wrap "install CNI binary" (atomicWrite (op_BinaryPath o) binary 493) ;;
  io_wrap "install chained CNI config" (atomicWrite (op_ConfigPath o) (pl_rendered p) 420) ;;
  restore_primary p ;;
  write_receipt p binary ;;
  ValidateCNIInstallation (op_ReceiptPath o) (op_BinaryPath o) (op_ConfigPath o) (op_ReleaseIdentity o).

End Installer.

(** ** What the runtime selects

    The first configuration of the directory in the order of names. *)

Definition selected (dir : string) (w : FS) : option string :=
  head (map fst (List.filter (fun entry => negb entry.2 && configExtension entry.1) (sort_by fst (entries_in dir w)))).

(** What is in the directory under a name, as far as it is not a directory:
    the contents of a regular file, or something else. *)
Definition shown (dir : string) (w : FS) (name : string) : option (option string) :=
  match files w !! (dir, name), others w !! (dir, name) with
  | Some d, _ => Some (Some d)
  | None, Some OtherEntry => Some None
  | None, _ => None
  end.

(** The runtime runs the plugin, once and after a primary plugin. *)
Definition guarded `{CniJson} (dir : string) (w : FS) : Prop :=
  exists name data, selected dir w = Some name /\ files w !! (dir, name) = Some data /\ requireWaycloakChain data = Ok tt.

(** ** Selection *)

Lemma StronglySorted_List_filter {A} (R : relation A) (f : A -> bool) l :
  StronglySorted R l -> StronglySorted R (List.filter f l).
Proof.
  induction 1 as [|x l Hl IH Hx]; cbn; [constructor|]. destruct (f x); [|done]. constructor; [done|].
  rewrite List.Forall_forall in *. intros y [Hy _]%filter_In. by apply Hx.
Qed.

Lemma shown_entry dir w name : shown dir w name <> None <-> (name, false) ∈ entries_in dir w.
Proof.
  rewrite elem_of_entries. unfold shown. destruct (files w !! (dir, name)) as [d|] eqn:Ef.
  - split; [|done]. intros _. left. by split; [|exists d].
  - destruct (others w !! (dir, name)) as [[]|] eqn:Eo; split; try done.
    + intros [[_ [? ?]]|(k & [= <-] & ?)]; done.
    + intros _. right. by exists OtherEntry.
    + intros [[_ [? ?]]|(k & ? & ?)]; done.
Qed.

Lemma selected_spec dir w name :
  selected dir w = Some name <->
  configExtension name = true /\ shown dir w name <> None /\
  forall n, configExtension n = true -> shown dir w n <> None -> String.le name n.
Proof.
  unfold selected. set (l := List.filter _ _).
  assert (forall n b, (n, b) ∈ l <-> b = false /\ configExtension n = true /\ shown dir w n <> None) as Hl.
  { intros n b. unfold l. rewrite list_elem_of_In, filter_In, <- list_elem_of_In, (sort_by_perm fst), shown_entry, andb_true_iff. cbn.
    destruct b; cbn; naive_solver. }
  assert (StronglySorted (key_le fst) l) as Hs by apply StronglySorted_List_filter, sort_by_sorted.
  destruct l as [|[n0 b0] l'].
  - cbn. split; [done|]. intros (He & Hn & _). assert ((name, false) ∈ @nil (string * bool)) as Hin by by apply Hl. by apply not_elem_of_nil in Hin.
  - cbn. destruct (proj1 (Hl n0 b0)) as (-> & He0 & Hn0); [apply list_elem_of_here|].
    apply StronglySorted_inv in Hs as [_ Hall]. rewrite Forall_forall in Hall.
    assert (forall n, configExtension n = true -> shown dir w n <> None -> String.le n0 n) as Hmin.
    { intros n He Hn. assert ((n, false) ∈ (n0, false) :: l') as [[= <-]|Hin]%elem_of_cons by by apply Hl; done.
      - reflexivity.
      - by apply (Hall (n, false)). }
    split; [by intros [= <-]|]. intros (He & Hn & Hle). f_equal. apply (anti_symm String.le); auto.
Qed.

(** ** What a write changes for the runtime *)

Definition visible (dir : string) (f : path) : Prop := f.1 = dir /\ configExtension f.2 = true.

Definition agree_at (f : path) (w w' : FS) : Prop := files w' !! f = files w !! f /\ others w' !! f = others w !! f.
Definition agree (dir : string) (w w' : FS) : Prop := forall f, visible dir f -> agree_at f w w'.

(** Nothing has changed for the runtime but that this file has this content. *)
Definition wrote (dir : string) (f : path) (data : string) (w w' : FS) : Prop :=
  forall g, visible dir g -> if decide (g = f) then files w' !! g = Some data else agree_at g w w'.

Lemma agree_names dir w w' : same_names w w' -> agree dir w w'.
Proof. intros [Hf Ho] f _. split; by rewrite ?Hf, ?Ho. Qed.

Lemma agree_refl dir w : agree dir w w.
Proof. by intros f. Qed.

Lemma agree_trans dir w1 w2 w3 : agree dir w1 w2 -> agree dir w2 w3 -> agree dir w1 w3.
Proof. intros H1 H2 f Hf. destruct (H1 f Hf), (H2 f Hf). split; congruence. Qed.

Lemma agree_shown dir w w' n : agree dir w w' -> configExtension n = true -> shown dir w' n = shown dir w n.
Proof. intros Ha Hn. unfold shown. by destruct (Ha (dir, n)) as [-> ->]. Qed.

Lemma wrote_agree dir f data w w' : ~ visible dir f -> wrote dir f data w w' -> agree dir w w'.
Proof. intros Hh Hw g Hg. specialize (Hw g Hg). by destruct (decide (g = f)) as [->|]. Qed.

Lemma wrote_trans dir f data w1 w2 w3 : wrote dir f data w1 w2 -> agree dir w2 w3 -> wrote dir f data w1 w3.
Proof.
  intros H1 H2 g Hg. specialize (H1 g Hg). destruct (H2 g Hg) as [Ef Eo].
  destruct (decide (g = f)) as [->|]; [by rewrite Ef|]. destruct H1. split; congruence.
Qed.

Lemma wrote_after dir f data w1 w2 w3 : agree dir w1 w2 -> wrote dir f data w2 w3 -> wrote dir f data w1 w3.
Proof.
  intros H1 H2 g Hg. specialize (H2 g Hg). destruct (H1 g Hg) as [Ef Eo].
  destruct (decide (g = f)) as [->|]; [done|]. destruct H2. split; congruence.
Qed.

Lemma wrote_shown dir f data w w' n :
  wrote dir f data w w' -> configExtension n = true ->
  shown dir w' n = if decide ((dir, n) = f) then Some (Some data) else shown dir w n.
Proof.
  intros Hw Hn. specialize (Hw (dir, n) (conj eq_refl Hn)). unfold shown. destruct (decide _) as [E|_]; [by rewrite Hw|].
  by destruct Hw as [-> ->].
Qed.

Lemma temp_hidden dir t n : ~ visible dir (t, temp_name temporaryPrefix n).
Proof.
  intros [_ He]. change (configExtension (temp_name temporaryPrefix n) = true) in He. unfold configExtension in He.
  apply existsb_exists in He as (ext & Hin & He%String.eqb_eq). pose proof (Ext_suffix (temp_name temporaryPrefix n)) as Hs.
  rewrite He in Hs. destruct Hin as [<-|[<-|[<-|[]]]].
  - discriminate (eq_trans (eq_sym Hs) (temp_name_suffix temporaryPrefix n ".con" "f"%char ltac:(done))).
  - discriminate (eq_trans (eq_sym Hs) (temp_name_suffix temporaryPrefix n ".conflis" "t"%char ltac:(done))).
  - discriminate (eq_trans (eq_sym Hs) (temp_name_suffix temporaryPrefix n ".jso" "n"%char ltac:(done))).
Qed.

(** A call whose only effect is on a hidden file. *)
Lemma agree_insert dir f d w w' :
  ~ visible dir f -> files w' = <[f := d]> (files w) -> others w' = others w -> agree dir w w'.
Proof.
  intros Hh Hf Ho g Hg. unfold agree_at. rewrite Hf, Ho. split; [|done]. apply lookup_insert_ne. by intros ->.
Qed.

Lemma hidden_Remove dir f w : ~ visible dir f -> wp (os_Remove f) (fun _ w' => agree dir w w') w.
Proof.
  intros Hh. assert (forall g, visible dir g -> f <> g) as Hne by (by intros g Hg ->).
  apply wp_Remove; [intros w1 Hf Ho|intros _ w1 Hf Ho|intros e w1 Hs; by apply agree_names];
    intros g Hg; unfold agree_at; rewrite Hf, Ho; split; rewrite ?lookup_delete_ne by auto; done.
Qed.

(** *** [atomicWrite] *)

(** Between the creation of the temporary file and its removal: the file is
    still being written, or it has its new content. *)
Definition writing (t f : path) (data : string) (w : FS) (r : res unit) (w' : FS) : Prop :=
  (r <> Ok tt /\ others w' = others w /\ exists part, files w' = <[t := part]> (files w)) \/
  (files w' = <[f := data]> (files w) /\ others w' = delete f (others w)).

Lemma atomicWrite_publish_spec t f data mode w0 w :
  files w0 !! t = None -> files w = <[t := ""]> (files w0) -> others w = others w0 ->
  wp (atomicWrite_publish t f data mode) (writing t f data w0) w.
Proof.
  intros Hfresh Hf Ho. unfold atomicWrite_publish.
  assert (forall e part w1, files w1 = <[t := part]> (files w0) -> others w1 = others w0 ->
    wp (closed ← io_try (file_Close t); io_lift (first_error (Fail e) closed) ;; os_Rename t f ;; syncDirectory f.1)
      (writing t f data w0) w1) as Hstop.
  { intros e part w1 Hf1 Ho1. do 2 wp_step.
    apply wp_noop; intros w2 [Hf2 Ho2]; cbn [after]; do 2 wp_step; left; (split; [done|]); (split; [congruence|]); exists part; congruence. }
  do 3 wp_step. apply wp_Chmod; intros w1 [Hf1 Ho1]; cbn [after]; [|apply (Hstop _ ""); congruence].
  wp_step. apply wp_Write; [intros w2 Hf2 Ho2|intros w2 Hf2 Ho2]; cbn [after].
  2: { destruct Hf2 as [Hf2|[part Hf2]]; [apply (Hstop _ ""); congruence|].
       apply (Hstop _ part); [by rewrite Hf2, Hf1, Hf, insert_insert_eq|congruence]. }
  assert (files w2 = <[t := data]> (files w0)) as Hd.
  { rewrite Hf2, Hf1, Hf, lookup_insert_eq, insert_insert_eq. done. }
  apply wp_noop; intros w3 [Hf3 Ho3]; cbn [after]; [|apply (Hstop _ data); congruence].
  do 2 wp_step. apply wp_noop; intros w4 [Hf4 Ho4]; cbn [after]; do 2 wp_step;
    [|left; split; [done|]; split; [congruence|]; exists data; congruence].
  cbn [first_error after]. wp_step. apply (wp_Rename t f data); [rewrite Hf4, Hf3, Hd; apply lookup_insert_eq|intros w5 Hf5 Ho5|intros e w5 [Hf5 Ho5]]; cbn [after].
  2: { left. split; [done|]. split; [congruence|]. exists data. congruence. }
  assert (files w5 = <[f := data]> (files w0)) as Hd5.
  { rewrite Hf5, Hf4, Hf3, Hd, delete_insert_eq. by rewrite delete_id. }
  apply wp_noop; intros w6 [Hf6 Ho6]; right; split; congruence.
Qed.

Lemma atomicWrite_spec dir f data mode w :
  wp (atomicWrite f data mode)
    (fun r w' => (agree dir w w' \/ wrote dir f data w w') /\ (r = Ok tt -> wrote dir f data w w')) w.
Proof.
  unfold atomicWrite. wp_step. apply wp_MkdirAll; intros w1 Hs1; cbn [after]; [|split; [left; by apply agree_names|done]].
  wp_step. apply wp_CreateTemp; [intros w2 n Hfr _ Hf2 Ho2|intros e w2 Hs2]; cbn [after].
  2: { split; [left; by apply agree_names; eapply same_names_trans|done]. }
  do 2 wp_step. wp_with (atomicWrite_publish_spec (f.1, temp_name temporaryPrefix n) f data mode w1); [done|done|done|].
  intros r w3 Hw. do 2 wp_step. wp_with (hidden_Remove dir (f.1, temp_name temporaryPrefix n)); [apply temp_hidden|].
  intros _ w4 Ha. cbn [after]. wp_step. apply agree_names with (dir := dir) in Hs1.
  destruct Hw as [(Hr & Ho3 & part & Hf3)|[Hf3 Ho3]].
  - assert (agree dir w w4) as H4; [|by split; [left|]].
    eapply agree_trans; [exact Hs1|]. eapply agree_trans; [|exact Ha]. by eapply agree_insert; [apply (temp_hidden dir f.1 n)|..].
  - assert (wrote dir f data w w4) as H4; [|by split; [right|]].
    apply (wrote_after _ _ _ _ w1); [done|]. apply (wrote_trans _ _ _ _ w3); [|done]. intros g Hg. unfold agree_at. rewrite Hf3, Ho3.
    destruct (decide (g = f)) as [->|Hne]; [apply lookup_insert_eq|]. split; [by apply lookup_insert_ne|by apply lookup_delete_ne].
Qed.

(** *** What depends only on what the runtime sees

    Reading, and writing of hidden files, keep it. *)

Section Stable.
Variables (dir : string) (P : FS -> Prop).
Hypothesis stable : forall w w', agree dir w w' -> P w -> P w'.

Lemma stable_names w w' : same_names w w' -> P w -> P w'.
Proof. intros Hs. by apply stable, agree_names. Qed.

Lemma Lstat_keeps f : keeps P (os_Lstat f).
Proof. apply keeps_wp. intros w Hw. apply wp_Lstat; intros; by eapply stable_names. Qed.
Lemma ReadFile_keeps f : keeps P (os_ReadFile f).
Proof. apply keeps_wp. intros w Hw. apply wp_ReadFile; intros; by eapply stable_names. Qed.
Lemma ReadDir_keeps d : keeps P (os_ReadDir d).
Proof. apply keeps_wp. intros w Hw. apply wp_ReadDir; intros; by eapply stable_names. Qed.

Lemma readRegular_keeps f limit : keeps P (readRegular f limit).
Proof. pose proof Lstat_keeps. pose proof ReadFile_keeps. unfold readRegular. keeps_down; eauto. Qed.
Lemma readProtectedRegular_keeps f limit : keeps P (readProtectedRegular f limit).
Proof. pose proof Lstat_keeps. pose proof ReadFile_keeps. unfold readProtectedRegular. keeps_down; eauto. Qed.
Lemma ValidateCNIConfigSelection_keeps f : keeps P (ValidateCNIConfigSelection f).
Proof. pose proof ReadDir_keeps. unfold ValidateCNIConfigSelection. keeps_down; eauto. Qed.

Lemma validateCNIInstallation_keeps `{CniJson} receipt binary config expected hold :
  keeps P (validateCNIInstallation receipt binary config expected hold).
Proof.
  pose proof readProtectedRegular_keeps. pose proof ValidateCNIConfigSelection_keeps.
  unfold validateCNIInstallation, validatePrimary, digestProtectedRegular. keeps_down; eauto.
Qed.

Lemma atomicWrite_keeps f data mode : ~ visible dir f -> keeps P (atomicWrite f data mode).
Proof.
  intros Hh. apply keeps_wp. intros w Hw. wp_with (atomicWrite_spec dir f data mode). intros r w' [[Ha|Ha] _].
  - by eapply stable.
  - eapply stable; [|done]. by eapply wrote_agree.
Qed.

Lemma createExclusive_keeps f data mode : ~ visible dir f -> keeps P (createExclusive f data mode).
Proof.
  intros Hh. unfold createExclusive. assert (forall g, keeps P (file_Close g)) as Hclose.
  { intros g. apply keeps_wp. intros w Hw. apply wp_noop; intros; by eapply stable_names. }
  assert (keeps P (os_MkdirAll f.1)) as Hdir.
  { apply keeps_wp. intros w Hw. apply wp_MkdirAll; intros; by eapply stable_names. }
  assert (keeps P (os_CreateExclusive f mode)) as Hcreate.
  { apply keeps_wp. intros w Hw. apply wp_CreateExclusive.
    - intros w1 _ _ Hf Ho. eapply stable; [|done]. by eapply agree_insert.
    - intros; by eapply stable_names. }
  assert (keeps P (file_Write f data)) as Hwrite.
  { apply keeps_wp. intros w Hw. apply wp_Write.
    - intros w1 Hf Ho. eapply stable; [|done]. by eapply agree_insert.
    - intros w1 [Hf|[part Hf]] Ho; [by eapply stable_names|]. eapply stable; [|done]. by eapply agree_insert. }
  change (syncDirectory f.1) with (file_Close (f.1, "")). change (file_Sync f) with (file_Close f). keeps_down; auto.
Qed.

Context `{CniJson}.
Variable o : Options.

Lemma preserve_keeps p : ~ visible dir (op_BackupPath o) -> keeps P (preserve o p).
Proof.
  intros Hh. pose proof readRegular_keeps. pose proof (fun data mode => createExclusive_keeps _ data mode Hh).
  unfold preserve, preserveOriginal. keeps_down; eauto.
Qed.

Lemma install_plan_keeps original rendered installed : keeps P (install_plan o original rendered installed).
Proof. pose proof readRegular_keeps. unfold install_plan, migration, adopt, adopt_backup. keeps_down; eauto. Qed.

Lemma write_receipt_keeps p binary : ~ visible dir (op_ReceiptPath o) -> keeps P (write_receipt o p binary).
Proof. intros Hh. pose proof (fun data mode => atomicWrite_keeps _ data mode Hh). unfold write_receipt. keeps_down; eauto. Qed.

End Stable.

(** ** What is rendered runs the plugin *)

Lemma scan_chain_app i found types t :
  scan_chain i found (types ++ [t]) =
  (let found' := scan_chain i found types in
   if String.eqb t PluginType then (found'.1 + 1, i + Z.of_nat (length types)) else found').
Proof.
  revert i found. induction types as [|t' types IH]; intros i found; cbn [app scan_chain length]; [by rewrite Z.add_0_r|].
  rewrite IH. cbv zeta. destruct (String.eqb t PluginType); [|done]. f_equal. lia.
Qed.

Section Rendering.
Context `{CniJsonLaws}.

(** The loop of the installer and the scan of the validation agree. *)
Lemma find_plugin_scan plugins i found found' :
  0 <= i -> find_plugin i found plugins = Ok found' ->
  exists types, Forall2 (fun raw t => header_Unmarshal raw = Some t) plugins types /\
    scan_chain i (if 0 <=? found then 1 else 0, found) types = (if 0 <=? found' then 1 else 0, found').
Proof.
  revert i found. induction plugins as [|raw plugins IH]; intros i found Hi; cbn [find_plugin].
  { intros [= <-]. by exists []. }
  destruct (header_Unmarshal raw) as [t|] eqn:Et; [|done]. destruct (str_empty t); [done|].
  destruct (String.eqb t PluginType) eqn:Ep.
  - destruct (0 <=? found) eqn:Ef; [done|]. intros Hrest. destruct (IH (i + 1) i ltac:(lia) Hrest) as (types & Ht & Hs).
    exists (t :: types). split; [by constructor|]. cbn [scan_chain]. rewrite Ep. cbn [fst].
    assert (0 <=? i = true) as Ei by lia. rewrite Ei in Hs. exact Hs.
  - intros Hrest. destruct (IH (i + 1) found ltac:(lia) Hrest) as (types & Ht & Hs).
    exists (t :: types). split; [by constructor|]. cbn [scan_chain]. by rewrite Ep.
Qed.

Lemma render_chain o original rendered installed :
  render o original = Ok (rendered, installed) -> requireWaycloakChain rendered = Ok tt.
Proof.
  unfold render. destruct (conflist_Decode original) as [[config rest]|]; [|done]. destruct (negb (at_EOF rest)); [done|].
  destruct (_ || bool_decide (cf_Plugins config = [])) eqn:Ee; [done|]. apply orb_false_iff in Ee as [_ Hne]. apply bool_decide_eq_false in Hne.
  destruct (find_plugin 0 (-1) (cf_Plugins config)) as [found|] eqn:Ef; [|done].
  destruct (plugin_Marshal _ _ _) as [plugin|] eqn:Em; [|done]. destruct (find_plugin_scan _ 0 (-1) _ ltac:(lia) Ef) as (types & Ht & Hs).
  cbn in Hs. destruct (_ && _) eqn:Ec; [done|]. cbv zeta. destruct (conflist_MarshalIndent _) as [s|] eqn:Es; [|done]. intros [= <- <-].
  unfold requireWaycloakChain. destruct (0 <=? found) eqn:E0.
  - rewrite (chain_of_conflist _ _ types Es) by done. rewrite Hs. rewrite andb_true_l in Ec. apply orb_false_iff in Ec as [Ec _].
    assert (found <? 1 = false) as -> by lia. done.
  - rewrite (chain_of_conflist _ _ (types ++ [PluginType]) Es).
    + rewrite scan_chain_app, Hs. cbn [fst]. rewrite String.eqb_refl. pose proof (Forall2_length _ _ _ Ht) as Hlen.
      destruct (cf_Plugins config) as [|p ps]; [done|]. cbn in Hlen.
      assert (0 + Z.of_nat (length types) <? 1 = false) as -> by lia. done.
    + apply Forall2_app; [done|]. constructor; [by eapply header_of_plugin|constructor].
Qed.

Definition plan_chains (r : res plan) : Prop := forall p, r = Ok p -> requireWaycloakChain (pl_rendered p) = Ok tt.

Lemma install_plan_chains o original rendered installed w :
  requireWaycloakChain rendered = Ok tt -> wp (install_plan o original rendered installed) (fun r _ => plan_chains r) w.
Proof.
  intros Hr. unfold install_plan. destruct (op_SourceConfigPath o) as [source|]; [|wp_step; by intros p [= <-]].
  assert (forall existing p w1, requireWaycloakChain (pl_rendered p) = Ok tt -> wp (adopt_backup o existing p) (fun r _ => plan_chains r) w1) as Hbackup.
  { intros existing p w1 Hp. unfold adopt_backup. do 2 wp_step. wp_run preserved w2 E2. destruct preserved as [backup|e].
    - destruct (render o backup) as [[expected again]|] eqn:Er; [|by wp_step]. destruct (_ || _); wp_step; [done|].
      intros p' [= <-]. by eapply render_chain.
    - destruct (_ || _); wp_step; [done|]. by intros p' [= <-]. }
  assert (forall p w1, requireWaycloakChain (pl_rendered p) = Ok tt -> wp (adopt o p) (fun r _ => plan_chains r) w1) as Hadopt.
  { intros p w1 Hp. unfold adopt. do 2 wp_step. wp_run existing w2 E2. destruct existing as [d|e]; [by apply Hbackup|].
    destruct (errors_is e ErrNotExist); [by apply Hbackup|by wp_step]. }
  wp_step. unfold migration. destruct (negb installed); [wp_step; by apply Hadopt|]. destruct (negb (op_MigrateLegacySource o)); [by wp_step|].
  do 2 wp_step. wp_run backup w2 E2. destruct backup as [backup|]; cbn [after]; [|done]. destruct (render o backup) as [[expected again]|] eqn:Er; [|by wp_step].
  destruct (_ || _); wp_step; [done|]. apply Hadopt. by eapply render_chain.
Qed.

End Rendering.

(** ** The guard *)

Lemma prefix_split p s : String.prefix p s = true -> exists rest, s = p +:+ rest.
Proof.
  revert s. induction p as [|c p IH]; intros s; [by exists s|]. destruct s as [|c' s]; [done|]. cbn.
  destruct (ascii_dec c c') as [<-|]; [|done]. intros (rest & ->)%IH. by exists rest.
Qed.

Lemma conflist_extension name : HasSuffix name ".conflist" = true -> configExtension name = true.
Proof.
  intros (rest & Hr)%prefix_split. unfold string_rev in Hr. apply (f_equal String.list_ascii_of_string) in Hr.
  rewrite String.list_ascii_of_string_of_list_ascii, list_ascii_app in Hr. unfold configExtension, Ext. rewrite Hr. reflexivity.
Qed.

(** No configuration comes before this name. *)
Definition first_config (dir name : string) (w : FS) : Prop :=
  forall n, configExtension n = true -> shown dir w n <> None -> String.le name n.

Lemma ValidateCNIConfigSelection_spec f w :
  wp (ValidateCNIConfigSelection f)
    (fun r w' => same_names w w' /\ (r = Ok tt -> configExtension f.2 = true /\ first_config f.1 f.2 w)) w.
Proof.
  unfold ValidateCNIConfigSelection. destruct (HasSuffix f.2 ".conflist") eqn:Es; cbn [negb]; [|wp_step; by split].
  do 2 wp_step. apply wp_ReadDir; intros; cbn [after]; [|by split].
  destruct (existsb _ _) eqn:Ee; wp_step; (split; [done|]); [done|]. intros _. split; [by apply conflist_extension|].
  intros n Hn Hs. apply shown_entry in Hs. destruct (decide (String.le f.2 n)) as [|Hle]; [done|exfalso].
  enough (existsb (fun entry : string * bool => negb entry.2 && configExtension entry.1 && str_lt entry.1 f.2) (sort_by fst (entries_in f.1 w)) = true) by congruence.
  apply existsb_exists. exists (n, false). split; [by apply list_elem_of_In; rewrite (sort_by_perm fst)|].
  cbn [fst snd negb andb]. rewrite Hn. unfold str_lt. by rewrite bool_decide_false.
Qed.

(** The chain is in place and comes first. *)
Definition in_place `{CniJson} (f : path) (w : FS) : Prop :=
  configExtension f.2 = true /\ first_config f.1 f.2 w /\ exists data, files w !! f = Some data /\ requireWaycloakChain data = Ok tt.

Lemma first_config_agree dir name w w' : agree dir w w' -> first_config dir name w -> first_config dir name w'.
Proof. intros Ha Hf n Hn Hs. apply Hf; [done|]. by rewrite <- (agree_shown _ _ _ _ Ha). Qed.

Lemma in_place_agree `{CniJson} (f : path) w w' : agree f.1 w w' -> in_place f w -> in_place f w'.
Proof.
  intros Ha (He & Hf & data & Hd & Hc). split; [done|]. split; [by eapply first_config_agree|].
  exists data. split; [|done]. destruct f as [dir name]. by destruct (Ha (dir, name)) as [-> _].
Qed.

(** A later configuration may change as it likes. *)
Lemma in_place_wrote `{CniJson} (f g : path) data w w' :
  str_lt f.2 g.2 = true -> wrote f.1 g data w w' -> in_place f w -> in_place f w'.
Proof.
  intros Hlt Hw (He & Hf & d & Hd & Hc). destruct f as [dir name]. cbn [fst snd] in *.
  assert ((dir, name) <> g) as Hne.
  { intros <-. unfold str_lt in Hlt. cbn in Hlt. by rewrite bool_decide_true in Hlt. }
  split; [done|]. cbn [fst snd]. split.
  - intros n Hn Hs. rewrite (wrote_shown _ _ _ _ _ _ Hw Hn) in Hs. destruct (decide ((dir, n) = g)) as [<-|_]; [|by apply Hf].
    cbn in Hlt. unfold str_lt in Hlt. apply negb_true_iff, bool_decide_eq_false in Hlt. by destruct (total String.le name n).
  - exists d. split; [|done]. specialize (Hw (dir, name) (conj eq_refl He)). rewrite decide_False in Hw by done. by destruct Hw as [-> _].
Qed.

Lemma in_place_new `{CniJson} (f : path) data w w' :
  configExtension f.2 = true -> first_config f.1 f.2 w -> wrote f.1 f data w w' -> requireWaycloakChain data = Ok tt -> in_place f w'.
Proof.
  intros He Hf Hw Hc. destruct f as [dir name]. cbn [fst snd] in *. split; [done|]. cbn [fst snd]. split.
  - intros n Hn Hs. rewrite (wrote_shown _ _ _ _ _ _ Hw Hn) in Hs. destruct (decide ((dir, n) = (dir, name))) as [[= ->]|_]; [done|by apply Hf].
  - exists data. split; [|done]. specialize (Hw (dir, name) (conj eq_refl He)). by rewrite decide_True in Hw.
Qed.

Lemma in_place_guarded `{CniJson} (f : path) w : in_place f w -> guarded f.1 w.
Proof.
  destruct f as [dir name]. intros (He & Hf & data & Hd & Hc). exists name, data. split_and!; [|done|done].
  apply selected_spec. split_and!; [done| |done]. unfold shown. cbn [fst snd]. by rewrite Hd.
Qed.

Lemma guarded_agree `{CniJson} dir w w' : agree dir w w' -> guarded dir w -> guarded dir w'.
Proof.
  intros Ha (name & data & (He & _ & Hf)%selected_spec & Hd & Hc). apply (in_place_guarded (dir, name)).
  apply (in_place_agree (dir, name) w); [done|]. split; [done|]. split; [done|]. by exists data.
Qed.

Lemma options_source o source :
  options_validate o = None -> op_SourceConfigPath o = Some source -> str_lt (op_ConfigPath o).2 source.2 = true.
Proof.
  unfold options_validate. intros Hv Hs. rewrite Hs in Hv.
  repeat match type of Hv with (if ?b then Some _ else _) = None => destruct b eqn:?; [discriminate Hv|] end.
  rewrite ?orb_false_iff, ?negb_false_iff in *. tauto.
Qed.

Lemma restore_primary_keeps `{CniJson} o p :
  options_validate o = None -> keeps (in_place (op_ConfigPath o)) (restore_primary o p).
Proof.
  intros Hv. assert (forall w w', agree (op_ConfigPath o).1 w w' -> in_place (op_ConfigPath o) w -> in_place (op_ConfigPath o) w') as Hst
    by (intros; by eapply in_place_agree).
  pose proof (readRegular_keeps _ _ Hst). unfold restore_primary. destruct (pl_legacy p) as [legacy|]; [|keeps_down].
  destruct (op_SourceConfigPath o) as [source|] eqn:Es; [|keeps_down].
  assert (keeps (in_place (op_ConfigPath o)) (atomicWrite source (pl_original p) 420)) as Hw; [|keeps_down; eauto].
  apply keeps_wp. intros w Hp. wp_with (atomicWrite_spec (op_ConfigPath o).1 source (pl_original p) 420).
  intros r w' [[Ha|Ha] _]; [by eapply Hst|]. eapply in_place_wrote; [|exact Ha|done].
  by eapply options_source.
Qed.

(** Use that an operation keeps [P]. *)
Ltac wp_keeping P := eapply wp_mono; [apply (wp_keeps P)|cbn beta].

(** C8: The guard survives the installation.  Whichever system call of [Install]
    fails, is cut short, or kills the process, in a plain installation, a
    reinstallation or the migration of a legacy chain: if the configuration
    that the runtime selects ran the Waycloak plugin once and after a primary
    plugin before, the one it selects afterwards does; and after a successful
    installation it does in any case.  The binary, receipt and backup must be
    no configurations of the directory themselves. *)
Theorem Install_keeps_guard `{CniJsonLaws} o w :
  let dir := (op_ConfigPath o).1 in
  ~ visible dir (op_BackupPath o) -> ~ visible dir (op_BinaryPath o) -> ~ visible dir (op_ReceiptPath o) ->
  wp (Install o) (fun r w' => (guarded dir w -> guarded dir (restart w')) /\ (r = Ok tt -> guarded dir (restart w'))) w.
Proof.
  intros dir Hbackup Hbinary Hreceipt.
  assert (forall w', guarded dir w' <-> guarded dir (restart w')) as Hrestart by (intros w'; split; by apply guarded_agree).
  eapply wp_mono with (P := fun r w' => (guarded dir w -> guarded dir w') /\ (r = Ok tt -> guarded dir w')).
  2: { intros r w' [H1 H2]. split; intros Hx; apply (Hrestart w'); auto. }
  set (Q := fun (r : res unit) w' => (guarded dir w -> guarded dir w') /\ (r = Ok tt -> guarded dir w')).
  assert (forall e w', agree dir w w' -> Q (Fail e) w') as Hfail by (intros e w' Ha; split; [by apply guarded_agree|done]).
  assert (forall r w', in_place (op_ConfigPath o) w' -> Q r w') as Hdone.
  { intros r w' Hp. apply in_place_guarded in Hp. by split. }
  set (A := agree dir w).
  assert (forall w1 w2, agree dir w1 w2 -> A w1 -> A w2) as HA by (intros w1 w2 H1 H2; by eapply agree_trans).
  unfold Install. do 2 wp_step. destruct (options_validate o) as [e|] eqn:Ev; cbn [of_error after]; [by apply Hfail|].
  wp_step. wp_with ValidateCNIConfigSelection_spec. intros r1 w1 [Hs1 Hsel]. destruct r1 as [[]|e]; cbn [after]; [|by apply Hfail, agree_names].
  destruct (Hsel eq_refl) as [Hext Hfirst]. assert (A w1) as A1 by by apply agree_names. clear Hsel Hs1.
  do 2 wp_step. wp_keeping A; [by apply readRegular_keeps with dir|done|]. intros [original|e] w2 A2; cbn [after]; [|by apply Hfail].
  do 2 wp_step. destruct (render o original) as [[rendered installed]|e] eqn:Er; cbn [after]; [|by apply Hfail].
  wp_step. eapply wp_mono; [apply wp_and; [apply (wp_keeps A); [by apply install_plan_keeps with dir|done]|apply install_plan_chains; by eapply render_chain]|cbn beta].
  intros [p|e] w3 [A3 Hp]; cbn [after]; [|by apply Hfail]. specialize (Hp p eq_refl).
  wp_step. wp_keeping A; [by apply preserve_keeps with dir|done|]. intros [[]|e] w4 A4; cbn [after]; [|by apply Hfail].
  do 2 wp_step. wp_keeping A; [by apply readRegular_keeps with dir|done|]. intros [binary|e] w5 A5; cbn [after]; [|by apply Hfail].
  do 2 wp_step. wp_keeping A; [by apply atomicWrite_keeps with dir|done|]. intros [[]|e] w6 A6; cbn [after]; [|by apply Hfail].
  assert (forall w7, wrote dir (op_ConfigPath o) (pl_rendered p) w6 w7 -> in_place (op_ConfigPath o) w7) as Hnew.
  { intros w7 Hw. eapply in_place_new; [done| |exact Hw|done]. by eapply first_config_agree. }
  do 2 wp_step. wp_with (atomicWrite_spec dir). intros r7 w7 [Hmaybe Hw]. destruct r7 as [[]|e]; cbn [after].
  2: { destruct Hmaybe as [Ha|Ha]; [apply Hfail; by eapply HA|by apply Hdone, Hnew]. }
  specialize (Hnew w7 (Hw eq_refl)). set (J := in_place (op_ConfigPath o)) in *.
  assert (forall w1 w2, agree dir w1 w2 -> J w1 -> J w2) as HJ by (intros; by eapply in_place_agree).
  wp_step. wp_keeping J; [by apply restore_primary_keeps|done|]. intros [[]|e] w8 J8; cbn [after]; [|by apply Hdone].
  wp_step. wp_keeping J; [by apply write_receipt_keeps with dir|done|]. intros [[]|e] w9 J9; cbn [after]; [|by apply Hdone].
  wp_keeping J; [by apply validateCNIInstallation_keeps with dir|done|]. intros r w10 J10. by apply Hdone.
Qed.

(** ** What validation establishes *)

Lemma readProtectedRegular_spec f limit w :
  wp (readProtectedRegular f limit) (fun r w' => same_names w w' /\ forall data, r = Ok data -> files w !! f = Some data) w.
Proof.
  unfold readProtectedRegular. wp_step. apply wp_Lstat; [intros mode w1 H1|intros; by split]; cbn [after].
  destruct mode as [mode|]; [|by wp_step]. destruct (negb (protectedFileMode mode)); [by wp_step|].
  wp_step. apply wp_ReadFile; [intros d w2 Hd H2|intros e w2 H2 _]; cbn [after].
  - wp_step. split; [by eapply same_names_trans|]. intros data Hb. unfold bounded in Hb. destruct (limit <? _); [done|]. injection Hb as <-.
    by destruct H1 as [<- _].
  - split; [by eapply same_names_trans|done].
Qed.

(** The installation that a receipt describes: these are the binary and the
    configuration whose digests it has, for this release. *)
Definition described `{CniJson} (receiptPath binaryPath configPath : path) (expected : ReleaseIdentity) (w : FS) : Prop :=
  exists bytes receipt rest binary config,
    files w !! receiptPath = Some bytes /\ receipt_Decode bytes = Some (receipt, rest) /\ at_EOF rest = true /\
    rc_APIVersion receipt = InstallationReceiptAPIVersion /\ rc_ReleaseIdentity receipt = expected /\
    files w !! binaryPath = Some binary /\ digest_of binary = rc_BinarySHA256 receipt /\
    files w !! configPath = Some config /\ digest_of config = rc_ConfigSHA256 receipt /\ requireWaycloakChain config = Ok tt.

Lemma validateCNIInstallation_spec `{CniJson} receiptPath binaryPath configPath expected denyHold w :
  wp (validateCNIInstallation receiptPath binaryPath configPath expected denyHold)
    (fun r w' => same_names w w' /\ (r = Ok tt -> described receiptPath binaryPath configPath expected w /\
       (denyHold = false -> in_place configPath w))) w.
Proof.
  unfold validateCNIInstallation. destruct (_ || str_empty (ri_ManifestDigest expected)); [by wp_step|].
  do 2 wp_step. wp_with readProtectedRegular_spec. intros [bytes|e] w1 [H1 Hbytes]; cbn [after]; [|by split]. specialize (Hbytes bytes eq_refl).
  destruct (receipt_Decode bytes) as [[receipt rest]|] eqn:Er; [|by wp_step]. destruct (at_EOF rest) eqn:Ee; cbn [negb]; [|by wp_step].
  destruct (_ || negb (validDigest (rc_ConfigSHA256 receipt))) eqn:Ei; [by wp_step|].
  rewrite !orb_false_iff, !negb_false_iff, String.eqb_eq, bool_decide_eq_true in Ei. destruct Ei as [[[Hapi Hrel] _] _].
  unfold digestProtectedRegular. do 3 wp_step. wp_with readProtectedRegular_spec. intros [binary|e] w2 [H2 Hbinary]; cbn [after];
    [|by split; [eapply same_names_trans|]]. specialize (Hbinary binary eq_refl). wp_step.
  pose proof (same_names_trans _ _ _ H1 H2) as H2'.
  do 2 wp_step. wp_with readProtectedRegular_spec. intros [config|e] w3 [H3 Hconfig]; cbn [after]; [|by split; [eapply same_names_trans|]].
  specialize (Hconfig config eq_refl). pose proof (same_names_trans _ _ _ H2' H3) as H3'.
  rewrite (proj1 H1) in Hbinary. rewrite (proj1 H2') in Hconfig.
  destruct (String.eqb (digest_of binary) (rc_BinarySHA256 receipt)) eqn:Ed; cbn [negb]; [|by wp_step]. apply String.eqb_eq in Ed.
  destruct (String.eqb (digest_of config) (rc_ConfigSHA256 receipt)) eqn:Ec; cbn [negb]; [|by wp_step]. apply String.eqb_eq in Ec.
  do 2 wp_step. destruct (requireWaycloakChain config) as [[]|e] eqn:Ech; cbn [after]; [|by split].
  assert (described receiptPath binaryPath configPath expected w) as Hdesc by by exists bytes, receipt, rest, binary, config.
  destruct denyHold; [by wp_step|]. wp_step. wp_with ValidateCNIConfigSelection_spec. intros r4 w4 [H4 Hsel].
  pose proof (same_names_trans _ _ _ H3' H4) as H4'. destruct r4 as [[]|e]; cbn [after]; [|by split]. destruct (Hsel eq_refl) as [Hx Hf].
  assert (in_place configPath w) as Hplace.
  { split; [done|]. split; [eapply first_config_agree, Hf; apply agree_names; split; [by rewrite (proj1 H3')|by rewrite (proj2 H3')]|by exists config]. }
  eapply wp_mono with (P := fun _ w' => same_names w w'); [|by split].
  apply (wp_keeps (same_names w)); [|done].
  assert (forall f limit, keeps (same_names w) (readProtectedRegular f limit)) as Hread.
  { intros f limit. apply keeps_wp. intros w5 H5. wp_with readProtectedRegular_spec. intros r w6 [H6 _]. by eapply same_names_trans. }
  unfold validatePrimary. keeps_down. apply Hread.
Qed.

(** A validated installation is selected by the runtime. *)
Lemma validated_guarded `{CniJson} receiptPath binaryPath configPath expected w :
  wp (ValidateCNIInstallation receiptPath binaryPath configPath expected)
    (fun r w' => same_names w w' /\ (r = Ok tt -> described receiptPath binaryPath configPath expected w /\ guarded configPath.1 w)) w.
Proof.
  eapply wp_mono; [apply validateCNIInstallation_spec|]. intros r w' [Hs Hr]. split; [done|]. intros Hok. destruct (Hr Hok) as [Hd Hp].
  split; [done|]. by apply in_place_guarded, Hp.
Qed.

(** Validation only reads. *)
Lemma validate_reads `{CniJson} receiptPath binaryPath configPath expected denyHold d :
  keeps (same_disk d) (validateCNIInstallation receiptPath binaryPath configPath expected denyHold).
Proof.
  unfold validateCNIInstallation, digestProtectedRegular, ValidateCNIConfigSelection, validatePrimary, PrimaryConfigDigest.
  unfold readProtectedRegular, readRegular. keeps_down; first [apply keeps_Lstat|apply keeps_ReadFile|apply keeps_ReadDir].
Qed.

(** ** A node *)

Module InstallSample.

Definition entry : string := "entry".
Definition primary : conflist := mkConflist "1.0.0" "net" ["bridge"].
Definition chain : conflist := mkConflist "1.0.0" "net" ["bridge"; entry].
Definition release : ReleaseIdentity :=
  mkReleaseIdentity "v1" "sha256:0123456789abcdef0123456789abcdef0123456789abcdef0123456789abcdef".

Definition chain_text : string := "chain" +:+ newline.
Definition receipt_of (name digest : string) : CNIInstallationReceipt :=
  mkReceipt InstallationReceiptAPIVersion release (digest_of "ELF") (digest_of chain_text) name digest.
Definition owned_receipt : CNIInstallationReceipt := receipt_of "10-net.conflist" (digest_of "primary").

(** A codec that knows one network, with and without the plugin, and the receipt
    of its installation. *)
#[local] Instance sample_json : CniJson := {|
  conflist_Decode s :=
    if String.eqb s "primary" then Some (primary, "") else if String.eqb s chain_text then Some (chain, newline) else None;
  conflist_MarshalIndent c :=
    if decide (cf_Plugins c = ["bridge"; entry]) then Some "chain" else None;
  header_Unmarshal raw := Some (if String.eqb raw entry then PluginType else raw);
  plugin_Marshal _ _ _ := Some entry;
  chain_Decode s := if String.eqb s chain_text then Some ["bridge"; PluginType] else None;
  Value := string;
  Value_eq := _;
  any_Unmarshal s := Some s;
  Object := string;
  object_Decode s := if String.eqb s "primary" then Some (s, "") else None;
  object_Marshal s := Some s;
  receipt_Decode s := if String.eqb s ("receipt" +:+ newline) then Some (owned_receipt, newline) else None;
  receipt_MarshalIndent r := if decide (rc_PrimaryConfigName r = "10-net.conflist" /\ rc_PrimaryConfigSHA256 r = digest_of "primary" /\
      rc_BinarySHA256 r = digest_of "ELF" /\ rc_ConfigSHA256 r = digest_of chain_text /\ rc_ReleaseIdentity r = release /\
      rc_APIVersion r = InstallationReceiptAPIVersion)
    then Some "receipt" else None
|}.

#[local] Instance sample_laws : CniJsonLaws.
Proof.
  split.
  - intros c s types. cbn. destruct (decide _) as [->|]; [|done]. intros [= <-] Ht.
    destruct types as [|a [|b [|]]]; try (by inversion Ht as [|? ? ? ? _ Ht']; inversion Ht' as [|? ? ? ? _ Ht'']; inversion Ht'').
    inversion Ht as [|? ? ? ? Ha Ht']. inversion Ht' as [|? ? ? ? Hb _]. injection Ha as <-. injection Hb as <-. reflexivity.
  - intros socket key dir raw [= <-]. reflexivity.
  - intros [] s. cbn. destruct (decide _) as [(-> & -> & -> & -> & -> & ->)|]; [|done]. intros [= <-]. reflexivity.
Qed.

Definition dir : string := "/etc/cni/net.d".
Definition options (migrate : bool) : Options :=
  mkOptions ("/plan", "waycloak-cni") ("/opt/cni/bin", "waycloak-cni") (dir, "05-waycloak.conflist") (Some (dir, "10-net.conflist")) migrate
    ("/var/lib/cni/waycloak", "install-receipt.json") ("/var/lib/cni/waycloak", "primary.backup") "/run/waycloak/agent.sock"
    "/run/waycloak/key" "/var/lib/waycloak" release.

Definition disk (contents : list (path * string)) (faults : list fault) : FS :=
  mkFS (list_to_map contents) (list_to_map (map (fun e => (e.1, 420)) contents)) ∅ {[dir; "/opt/cni/bin"; "/plan"]} 0 faults false.

(** The in-place layout of an earlier release. *)
Definition legacy_disk : list fault -> FS :=
  disk [((dir, "10-net.conflist"), chain_text); ((dir, "10-net.conflist.waycloak-original"), "primary"); (("/plan", "waycloak-cni"), "ELF")].
Definition plain_disk : list fault -> FS :=
  disk [((dir, "10-net.conflist"), "primary"); (("/plan", "waycloak-cni"), "ELF")].

(** Both kinds of installation complete. *)
Lemma installs :
  ((Install (options false) (plain_disk [])).1, (Install (options true) (legacy_disk [])).1) = (Ok tt, Ok tt).
Proof. vm_compute. reflexivity. Qed.

Lemma legacy_guarded faults : guarded dir (legacy_disk faults).
Proof. exists "10-net.conflist", chain_text. split_and!; vm_compute; reflexivity. Qed.

(** The process dies when it has just taken the plugin out of the primary. *)
Definition dies (n : nat) : list fault := replicate n NoFault ++ [Crash 0].

Lemma Install_keeps_guard_witness :
  guarded dir (restart (Install (options true) (legacy_disk (dies 42))).2).
Proof.
  destruct (Install_keeps_guard (options true) (legacy_disk (dies 42))) as [Hg _].
  - by intros [? _].
  - by intros [? _].
  - by intros [? _].
  - apply Hg, legacy_guarded.
Defined.

(** A crash that cuts the backup short is not recovered from: the partial backup
    is taken for a changed primary from then on. *)
Lemma torn_backup_refused :
  let crashed := restart (Install (options false) (plain_disk (replicate 7 NoFault ++ [Crash 3]))).2 in
  (files crashed !! op_BackupPath (options false), (Install (options false) crashed).1) =
  (Some "pri", Fail (ENew "owned CNI config or upstream topology differs from the preserved primary; review migration before reinstalling")).
Proof. vm_compute. reflexivity. Qed.

End InstallSample.
