(* ===== verification/PortRuntime.v ===== *)
(** * The port-forwarding contract (internal/portforward/runtime.go, internal/provider/portforward.go)

    What the lease controller and the gateway runtime say to each other: the
    intent for one lease and handoff generation, the observation that answers
    it, the withdrawal of a target; and the interfaces of the parts: the
    runtime itself, the provider's port-forward capability, the gateway's rule
    set and the delivery to the application. *)

From S2P Require Import Prelude Netip Api.

Definition RuntimeAPIVersion : string := "port-forward-runtime.waycloak.io/v1".
Definition ProviderCleanupFinalizer : string := "networking.waycloak.io/provider-cleanup".
Definition ProviderAssignedApplicationPortFeature : string := "networking.waycloak.io/ProviderAssignedApplicationPort".

Definition ApplicationPortFixed : string := "Fixed".
Definition ApplicationPortProviderAssigned : string := "ProviderAssigned".

Definition DefaultObservationFreshness : duration := 20 * Second.

(** The range of provider-facing internal ports (allocation.go). *)
Definition ProviderPortFirst : Z := 49152.
Definition ProviderPortLast : Z := 65535.

(** ** Messages *)

Record Intent := mkIntent {
  in_APIVersion : string;
  in_LeaseNamespace : string;
  in_LeaseUID : string;
  in_GatewayUID : string;
  in_HandoffGeneration : Z;
  in_ServiceUID : string;
  in_EndpointSliceUID : string;
  in_PodUID : string;
  in_BindingUID : string;
  in_ProviderInternalPort : Z;
  in_PreviousPublicPort : Z;
  in_OverlayAddress : Addr;
  in_ApplicationAddress : Addr;
  in_BackendPort : Z;
  in_TargetPort : Z;
  in_Protocols : list string;
  in_AdapterName : string;
  in_ApplicationPortMode : string
}.

Record ProviderObservation := mkProviderObservation {
  po_PublicAddress : Addr;
  po_PublicPort : Z;
  po_ExpiresAt : time
}.

Record Observation := mkObservation {
  ob_APIVersion : string;
  ob_LeaseUID : string;
  ob_GatewayUID : string;
  ob_HandoffGeneration : Z;
  ob_PodUID : string;
  ob_ObservedAt : time;
  ob_Provider : option ProviderObservation;
  ob_GatewayRulesReady : bool;
  ob_Delivered : bool;
  ob_Acknowledged : bool;
  ob_Withdrawn : bool
}.

Record WithdrawalIntent := mkWithdrawalIntent {
  wi_APIVersion : string;
  wi_LeaseNamespace : string;
  wi_LeaseUID : string;
  wi_GatewayUID : string;
  wi_HandoffGeneration : Z;
  wi_ServiceUID : string;
  wi_EndpointSliceUID : string;
  wi_PodUID : string;
  wi_ApplicationEndpointRetired : bool;
  wi_ReleaseProvider : bool;
  wi_ProviderInternalPort : Z;
  wi_PreviousPublicPort : Z;
  wi_Protocols : list string;
  wi_AdapterName : string
}.

(** A resolved backend endpoint (resolver.go). *)
Record Candidate := mkCandidate {
  cd_ServiceUID : string;
  cd_EndpointSliceUID : string;
  cd_PodName : string;
  cd_PodUID : string;
  cd_BindingName : string;
  cd_BindingUID : string;
  cd_OverlayAddress : Addr;
  cd_ApplicationAddress : Addr;
  cd_TargetPort : Z
}.

(** One gateway rule (manager.go). *)
Record GatewayRule := mkGatewayRule {
  gr_LeaseUID : string;
  gr_HandoffGeneration : Z;
  gr_IngressPort : Z;
  gr_OverlayAddress : string;
  gr_TargetPort : Z;
  gr_Protocols : list string
}.

#[global] Instance ProviderObservation_eq_dec : EqDecision ProviderObservation.
Proof. solve_decision. Defined.
#[global] Instance Intent_eq_dec : EqDecision Intent.
Proof. solve_decision. Defined.
#[global] Instance Observation_eq_dec : EqDecision Observation.
Proof. solve_decision. Defined.
#[global] Instance WithdrawalIntent_eq_dec : EqDecision WithdrawalIntent.
Proof. solve_decision. Defined.
#[global] Instance Candidate_eq_dec : EqDecision Candidate.
Proof. solve_decision. Defined.
#[global] Instance GatewayRule_eq_dec : EqDecision GatewayRule.
Proof. solve_decision. Defined.

(** ** The provider (provider/portforward.go) *)

Record PortForwardCapabilities := mkPortForwardCapabilities {
  pc_Protocols : list string;
  pc_MaxLeases : Z;
  pc_SharedPort : bool;
  pc_SupportsRequestedPort : bool;
  pc_MinimumLeaseDuration : duration
}.

Record PortForwardLeaseRequest := mkPortForwardLeaseRequest {
  pr_Identity : string;
  pr_InternalPort : Z;
  pr_SuggestedExternalPort : Z;
  pr_Protocols : list string
}.

Record PortForwardLeaseObservation := mkPortForwardLeaseObservation {
  plo_PublicAddress : Addr;
  plo_PublicPort : Z;
  plo_IssuedAt : time;
  plo_RenewAfter : time;
  plo_ExpiresAt : time
}.

(** ** Interfaces *)

Class PortForwardCapability (W : Type) := {
  pf_ObserveCapabilities : IO W PortForwardCapabilities;
  pf_EnsureLease : PortForwardLeaseRequest -> IO W PortForwardLeaseObservation;
  pf_ReleaseLease : PortForwardLeaseRequest -> IO W unit
}.

Class RuleBackend (W : Type) := {
  rules_Replace : list GatewayRule -> IO W unit;
  rules_Ready : GatewayRule -> IO W bool;
  rules_Withdrawn : string -> Z -> IO W bool
}.

(** [Reconcile] returns whether the record was delivered and acknowledged; with
    an error neither is reported, as in [DeliveryManager]. *)
Class DeliveryBackend (W : Type) := {
  dl_Reconcile : Intent -> ProviderObservation -> IO W (bool * bool);
  dl_Withdraw : WithdrawalIntent -> IO W bool
}.

(** Of the gateway object the runtimes read the metadata alone. *)
Class Runtime (W : Type) := {
  rt_Reconcile : ObjectMeta -> Intent -> IO W Observation;
  rt_Withdraw : ObjectMeta -> WithdrawalIntent -> IO W Observation;
  rt_Quarantine : ObjectMeta -> WithdrawalIntent -> time -> IO W unit
}.

(** ** Construction and comparison *)

(** [lease.Status.Provider] as the suggested port of the next mapping. *)
Definition previous_port (lease : PortForwardLease) : Z :=
  match pls_Provider (pl_Status lease) with
  | Some p => if (0 <? pm_PublicPort p) && (pm_PublicPort p <=? 65535) then pm_PublicPort p else 0
  | None => 0
  end.

Definition adapter_name (lease : PortForwardLease) : string := default "" (pl_ApplicationAdapterRef (pl_Spec lease)).

Definition WithdrawalFor (lease : PortForwardLease) (gateway : ObjectMeta) : WithdrawalIntent :=
  let endpoint (f : ActiveLeaseEndpoint -> string) :=
    match pls_ActiveEndpoint (pl_Status lease) with Some e => f e | None => "" end in
  mkWithdrawalIntent RuntimeAPIVersion (Namespace (pl_Meta lease)) (UID (pl_Meta lease)) (UID gateway)
    (pls_HandoffGeneration (pl_Status lease)) (endpoint ae_ServiceUID) (endpoint ae_EndpointSliceUID)
    (endpoint ae_PodUID) false false 0 (previous_port lease) (pl_Protocols (pl_Spec lease)) (adapter_name lease).

Definition IntentFor (lease : PortForwardLease) (gateway : ObjectMeta) (candidate : Candidate) (generation : Z) : Intent :=
  mkIntent RuntimeAPIVersion (Namespace (pl_Meta lease)) (UID (pl_Meta lease)) (UID gateway) generation
    (cd_ServiceUID candidate) (cd_EndpointSliceUID candidate) (cd_PodUID candidate) (cd_BindingUID candidate)
    0 (previous_port lease) (cd_OverlayAddress candidate) (cd_ApplicationAddress candidate)
    (cd_TargetPort candidate) (cd_TargetPort candidate) (pl_Protocols (pl_Spec lease)) (adapter_name lease)
    ApplicationPortFixed.

Definition ExactObservation (observation : Observation) (intent : Intent) : bool :=
  String.eqb (ob_APIVersion observation) RuntimeAPIVersion &&
  String.eqb (ob_LeaseUID observation) (in_LeaseUID intent) &&
  String.eqb (ob_GatewayUID observation) (in_GatewayUID intent) &&
  (ob_HandoffGeneration observation =? in_HandoffGeneration intent) &&
  String.eqb (ob_PodUID observation) (in_PodUID intent) && negb (time_IsZero (ob_ObservedAt observation)).

Definition ExactWithdrawal (observation : Observation) (intent : WithdrawalIntent) : bool :=
  String.eqb (ob_APIVersion observation) RuntimeAPIVersion &&
  String.eqb (ob_LeaseUID observation) (wi_LeaseUID intent) &&
  String.eqb (ob_GatewayUID observation) (wi_GatewayUID intent) &&
  (ob_HandoffGeneration observation =? wi_HandoffGeneration intent) &&
  String.eqb (ob_PodUID observation) (wi_PodUID intent) && negb (time_IsZero (ob_ObservedAt observation)) &&
  ob_Withdrawn observation.

(** The fields of an intent that the controller fills in later. *)
Definition with_mode (mode : string) (i : Intent) : Intent :=
  mkIntent (in_APIVersion i) (in_LeaseNamespace i) (in_LeaseUID i) (in_GatewayUID i) (in_HandoffGeneration i)
    (in_ServiceUID i) (in_EndpointSliceUID i) (in_PodUID i) (in_BindingUID i) (in_ProviderInternalPort i)
    (in_PreviousPublicPort i) (in_OverlayAddress i) (in_ApplicationAddress i) (in_BackendPort i) (in_TargetPort i)
    (in_Protocols i) (in_AdapterName i) mode.
Definition with_provider_port (port : Z) (i : Intent) : Intent :=
  mkIntent (in_APIVersion i) (in_LeaseNamespace i) (in_LeaseUID i) (in_GatewayUID i) (in_HandoffGeneration i)
    (in_ServiceUID i) (in_EndpointSliceUID i) (in_PodUID i) (in_BindingUID i) port
    (in_PreviousPublicPort i) (in_OverlayAddress i) (in_ApplicationAddress i) (in_BackendPort i) (in_TargetPort i)
    (in_Protocols i) (in_AdapterName i) (in_ApplicationPortMode i).
Definition with_target_port (port : Z) (i : Intent) : Intent :=
  mkIntent (in_APIVersion i) (in_LeaseNamespace i) (in_LeaseUID i) (in_GatewayUID i) (in_HandoffGeneration i)
    (in_ServiceUID i) (in_EndpointSliceUID i) (in_PodUID i) (in_BindingUID i) (in_ProviderInternalPort i)
    (in_PreviousPublicPort i) (in_OverlayAddress i) (in_ApplicationAddress i) (in_BackendPort i) port
    (in_Protocols i) (in_AdapterName i) (in_ApplicationPortMode i).

Definition wi_with_port (port : Z) (i : WithdrawalIntent) : WithdrawalIntent :=
  mkWithdrawalIntent (wi_APIVersion i) (wi_LeaseNamespace i) (wi_LeaseUID i) (wi_GatewayUID i)
    (wi_HandoffGeneration i) (wi_ServiceUID i) (wi_EndpointSliceUID i) (wi_PodUID i) (wi_ApplicationEndpointRetired i)
    (wi_ReleaseProvider i) port (wi_PreviousPublicPort i) (wi_Protocols i) (wi_AdapterName i).
Definition wi_with_retired (retired : bool) (i : WithdrawalIntent) : WithdrawalIntent :=
  mkWithdrawalIntent (wi_APIVersion i) (wi_LeaseNamespace i) (wi_LeaseUID i) (wi_GatewayUID i)
    (wi_HandoffGeneration i) (wi_ServiceUID i) (wi_EndpointSliceUID i) (wi_PodUID i) retired
    (wi_ReleaseProvider i) (wi_ProviderInternalPort i) (wi_PreviousPublicPort i) (wi_Protocols i) (wi_AdapterName i).
Definition wi_with_release (i : WithdrawalIntent) : WithdrawalIntent :=
  mkWithdrawalIntent (wi_APIVersion i) (wi_LeaseNamespace i) (wi_LeaseUID i) (wi_GatewayUID i)
    (wi_HandoffGeneration i) (wi_ServiceUID i) (wi_EndpointSliceUID i) (wi_PodUID i) (wi_ApplicationEndpointRetired i)
    true (wi_ProviderInternalPort i) (wi_PreviousPublicPort i) (wi_Protocols i) (wi_AdapterName i).
