(* ===== verification/PortManager.v ===== *)
(** * The gateway runtime manager (internal/portforward/manager.go)

    The tokenless process that owns, per lease, the provider mapping, the
    gateway rules and the delivery to the application.  Its map of lease states
    is the state of the component; the provider, the rule set and the delivery
    are the interfaces of PortRuntime.  Telemetry is left out.

    A method returns an observation and an error at the same time, as the Go
    code does, so its result is a pair. *)

From S2P Require Import Prelude Netip Api Kube PortRuntime.

Record runtimeState := mkRuntimeState {
  rs_intent : Intent;
  rs_mapping : ProviderObservation;
  rs_renewAfter : time;
  rs_draining : bool;
  rs_drained : bool;
  rs_blocked : bool
}.

Definition with_flags (draining drained blocked : bool) (s : runtimeState) : runtimeState :=
  mkRuntimeState (rs_intent s) (rs_mapping s) (rs_renewAfter s) draining drained blocked.

(** The manager's [states], a nil map being an empty one. *)
Notation lease_states := (gmap string runtimeState) (only parsing).

Definition Observation_zero : Observation :=
  mkObservation "" "" "" 0 "" zero_time None false false false false.

(** ** Pure parts *)

(** The loop over the sorted protocols: each one supported and different from
    the one before it. *)
Fixpoint check_protocols (before : option string) (protocols : list string) : option error :=
  match protocols with
  | [] => None
  | protocol :: rest =>
      if negb (String.eqb protocol ProtocolTCP) && negb (String.eqb protocol ProtocolUDP)
      then Some (ENew "port-forward runtime protocol is unsupported")
      else if bool_decide (before = Some protocol) then Some (ENew "port-forward runtime protocols must be unique")
      else check_protocols (Some protocol) rest
  end.

Definition normalizedProtocols (protocols : list string) : res (list string) :=
  if (Z.of_nat (length protocols) =? 0) || (2 <? Z.of_nat (length protocols))
  then Fail (ENew "port-forward runtime requires one or two transport protocols")
  else
    let sorted := sort_by id protocols in
    match check_protocols None sorted with
    | None => Ok sorted
    | Some e => Fail e
    end.

Definition sameRuntimeTarget (a b : Intent) : bool :=
  String.eqb (in_LeaseUID a) (in_LeaseUID b) && String.eqb (in_GatewayUID a) (in_GatewayUID b) &&
  String.eqb (in_ServiceUID a) (in_ServiceUID b) && String.eqb (in_PodUID a) (in_PodUID b) &&
  String.eqb (in_BindingUID a) (in_BindingUID b) &&
  (in_ProviderInternalPort a =? in_ProviderInternalPort b) &&
  bool_decide (in_OverlayAddress a = in_OverlayAddress b) &&
  bool_decide (in_ApplicationAddress a = in_ApplicationAddress b) && (in_BackendPort a =? in_BackendPort b) &&
  (in_TargetPort a =? in_TargetPort b) && String.eqb (in_ApplicationPortMode a) (in_ApplicationPortMode b) &&
  match normalizedProtocols (in_Protocols a), normalizedProtocols (in_Protocols b) with
  | Ok pa, Ok pb => bool_decide (pa = pb)
  | _, _ => false
  end && String.eqb (in_AdapterName a) (in_AdapterName b).

Definition validateRuntimeIntent (gateway : ObjectMeta) (intent : Intent) : option error :=
  if str_empty (UID gateway) || negb (String.eqb (in_APIVersion intent) RuntimeAPIVersion) ||
     str_empty (in_LeaseNamespace intent) || str_empty (in_LeaseUID intent) ||
     negb (String.eqb (in_GatewayUID intent) (UID gateway)) || (in_HandoffGeneration intent <? 1) ||
     str_empty (in_ServiceUID intent) || str_empty (in_EndpointSliceUID intent) || str_empty (in_PodUID intent) ||
     str_empty (in_BindingUID intent) || (in_ProviderInternalPort intent <? ProviderPortFirst) ||
     (in_BackendPort intent =? 0) || (in_TargetPort intent =? 0) || negb (Addr_Is4 (in_OverlayAddress intent)) ||
     negb (Addr_Is4 (in_ApplicationAddress intent)) || (Z.of_nat (length (in_Protocols intent)) =? 0) ||
     (negb (String.eqb (in_ApplicationPortMode intent) ApplicationPortFixed) &&
      negb (String.eqb (in_ApplicationPortMode intent) ApplicationPortProviderAssigned))
  then Some (ENew "port-forward runtime intent is invalid")
  else match normalizedProtocols (in_Protocols intent) with Ok _ => None | Fail e => Some e end.

Definition validateWithdrawal (gateway : ObjectMeta) (intent : WithdrawalIntent) : option error :=
  if str_empty (UID gateway) || negb (String.eqb (wi_APIVersion intent) RuntimeAPIVersion) ||
     str_empty (wi_LeaseNamespace intent) || str_empty (wi_LeaseUID intent) ||
     negb (String.eqb (wi_GatewayUID intent) (UID gateway)) || (wi_HandoffGeneration intent <? 1) ||
     str_empty (wi_PodUID intent) ||
     (wi_ReleaseProvider intent &&
      ((wi_ProviderInternalPort intent <? ProviderPortFirst) || (Z.of_nat (length (wi_Protocols intent)) =? 0)))
  then Some (ENew "port-forward withdrawal intent is invalid")
  else if wi_ReleaseProvider intent
  then match normalizedProtocols (wi_Protocols intent) with Ok _ => None | Fail e => Some e end
  else None.

(** [provider.ProtocolTCP] and [provider.ProtocolUDP] are the strings of the API. *)
Fixpoint provider_protocols (protocols : list string) : res (list string) :=
  match protocols with
  | [] => Ok []
  | protocol :: rest =>
      if String.eqb protocol ProtocolTCP || String.eqb protocol ProtocolUDP
      then match provider_protocols rest with Ok ps => Ok (protocol :: ps) | Fail e => Fail e end
      else Fail (ENew "unsupported transport protocol")
  end.

(** Of an intent the request takes the lease, the ports and the protocols. *)
Definition providerRequest (leaseUID : string) (internalPort previousPort : Z) (protocols : list string) :
    res PortForwardLeaseRequest :=
  match provider_protocols protocols with
  | Ok ps => Ok (mkPortForwardLeaseRequest leaseUID internalPort previousPort ps)
  | Fail e => Fail e
  end.

Definition intent_request (intent : Intent) : res PortForwardLeaseRequest :=
  providerRequest (in_LeaseUID intent) (in_ProviderInternalPort intent) (in_PreviousPublicPort intent) (in_Protocols intent).

Definition effectiveTargetPort (state : runtimeState) : Z :=
  if String.eqb (in_ApplicationPortMode (rs_intent state)) ApplicationPortProviderAssigned
  then po_PublicPort (rs_mapping state) else in_TargetPort (rs_intent state).

Definition effectiveIntent (state : runtimeState) : Intent :=
  with_target_port (effectiveTargetPort state) (rs_intent state).

Definition ruleFor (state : runtimeState) : GatewayRule :=
  mkGatewayRule (in_LeaseUID (rs_intent state)) (in_HandoffGeneration (rs_intent state))
    (po_PublicPort (rs_mapping state)) (Addr_String (in_OverlayAddress (rs_intent state)))
    (effectiveTargetPort state) (in_Protocols (rs_intent state)).

Definition unexpired (mapping : ProviderObservation) (now : time) : bool := time_After (po_ExpiresAt mapping) now.

(** The states whose rule belongs in the gateway. *)
Definition serving (now : time) (state : runtimeState) : bool :=
  negb (rs_draining state) && negb (rs_drained state) && negb (rs_blocked state) && unexpired (rs_mapping state) now.

Definition ruleSet (states : lease_states) (now : time) : list GatewayRule :=
  sort_by gr_LeaseUID (map ruleFor (List.filter (serving now) (map snd (map_to_list states)))).

(** How many mappings are live; the source counts in an int32. *)
Definition active_mappings (states : lease_states) (now : time) : Z :=
  Z.of_nat (length (List.filter (fun s => unexpired (rs_mapping s) now) (map snd (map_to_list states)))).

Definition validateProviderCapabilities (states : lease_states) (now : time) (intent : Intent)
    (capabilities : PortForwardCapabilities) (exists_ : bool) : option error :=
  if pc_MaxLeases capabilities <? 1 then Some (ENew "provider reports no port-forward lease capacity")
  else if (1 <? Z.of_nat (length (in_Protocols intent))) && negb (pc_SharedPort capabilities)
  then Some (ENew "provider cannot map requested protocols to one public port")
  else
    match intent_request intent with
    | Fail e => Some e
    | Ok request =>
        if negb (forallb (contains_string (pc_Protocols capabilities)) (pr_Protocols request))
        then Some (ENew "provider does not support requested mapping")
        else if negb exists_ && (pc_MaxLeases capabilities <=? active_mappings states now)
        then Some (ENew "provider port-forward lease capacity is exhausted")
        else None
    end.

(** Whether the intent may follow the state the lease has. *)
Definition handoff_refused (previous : runtimeState) (intent : Intent) : option error :=
  let old := in_HandoffGeneration (rs_intent previous) in
  let new := in_HandoffGeneration intent in
  if new <? old then Some (ENew "handoff generation regressed")
  else if (new =? old) && negb (sameRuntimeTarget (rs_intent previous) intent)
  then Some (ENew "target identity changed within one handoff generation")
  else if (new =? old) && rs_draining previous && negb (rs_drained previous)
  then Some (ENew "target resumed before withdrawal completed")
  else if (old <? new) && negb (rs_drained previous)
  then Some (ENew "successor target arrived before old rules were withdrawn")
  else None.

(** ** Operations *)

Section Manager.
Context {W : Type} `{PortForwardCapability W} `{RuleBackend W} `{DeliveryBackend W} `{Clock W}.

Notation M A := (IO (lease_states * W) A).

Definition m_now : M time := on_world read_clock.

(** [m.Rules.Replace(ctx, m.ruleSet())]. *)
Definition replace_rules : M (res unit) :=
  states ← get_state;
  now ← m_now;
  io_try (on_world (rules_Replace (ruleSet states now))).

Definition observation (intent : Intent) (mapping : ProviderObservation) : M Observation :=
  now ← m_now;
  mret (mkObservation RuntimeAPIVersion (in_LeaseUID intent) (in_GatewayUID intent) (in_HandoffGeneration intent)
          (in_PodUID intent) now (Some mapping) false false false false).

Definition withdrawalObservation (intent : WithdrawalIntent) (withdrawn : bool) : M Observation :=
  now ← m_now;
  mret (mkObservation RuntimeAPIVersion (wi_LeaseUID intent) (wi_GatewayUID intent) (wi_HandoffGeneration intent)
          (wi_PodUID intent) now None false false false withdrawn).

Definition set_lease (uid : string) (state : option runtimeState) : M unit :=
  states ← get_state;
  put_state (match state with Some s => <[uid := s]> states | None => delete uid states end).

(** The provider can still serve the lease; [Some] error ends the call.  A
    capability that is gone takes the rules of an existing lease with it. *)
Definition check_capabilities (intent : Intent) (previous : option runtimeState) : M (option error) :=
  observed ← io_try (on_world pf_ObserveCapabilities);
  now ← m_now;
  match observed with
  | Fail capabilityErr =>
      if match previous with Some p => rs_blocked p || negb (unexpired (rs_mapping p) now) | None => true end
      then mret (Some (Errorf "observe provider capabilities" capabilityErr))
      else mret None
  | Ok capabilities =>
      states ← get_state;
      match validateProviderCapabilities states now intent capabilities (bool_decide (is_Some previous)), previous with
      | None, _ => mret None
      | Some err, None => mret (Some err)
      | Some err, Some p =>
          set_lease (in_LeaseUID intent) (Some (with_flags (rs_draining p) (rs_drained p) true p)) ;;
          replaced ← replace_rules;
          match replaced with
          | Ok _ => mret (Some err)
          | Fail replaceErr =>
              mret (errors_Join [Some err; Some (Errorf "withdraw rules after provider capability regression" replaceErr)])
          end
      end
  end.

(** What the provider answered: a mapping with a usable renewal schedule. *)
Definition accepted_lease (now : time) (ensured : res PortForwardLeaseObservation) : res (ProviderObservation * time) :=
  match ensured with
  | Fail e => Fail e
  | Ok lease =>
      if negb (time_After (plo_RenewAfter lease) now) || negb (time_Before (plo_RenewAfter lease) (plo_ExpiresAt lease))
      then Fail (ENew "provider returned an invalid renewal schedule")
      else Ok (mkProviderObservation (plo_PublicAddress lease) (plo_PublicPort lease) (plo_ExpiresAt lease),
               plo_RenewAfter lease)
  end.

Definition forget_lease (uid : string) (providerErr : error) : M (res (ProviderObservation * time)) :=
  set_lease uid None ;; io_ignore replace_rules ;; mret (Fail (Errorf "ensure provider mapping" providerErr)).

Definition refresh_due (now : time) (previous : option runtimeState) : bool :=
  match previous with
  | None => true
  | Some p => time_IsZero (rs_renewAfter p) || negb (time_Before now (rs_renewAfter p)) ||
              negb (unexpired (rs_mapping p) now)
  end.

(** The mapping to serve and when to renew it: the one there is until it is
    due, then a refreshed one; where the provider fails, the old one until it
    expires. *)
Definition refresh_mapping (intent : Intent) (request : PortForwardLeaseRequest) (previous : option runtimeState) :
    M (res (ProviderObservation * time)) :=
  now ← m_now;
  match previous, refresh_due now previous with
  | Some p, false => mret (Ok (rs_mapping p, rs_renewAfter p))
  | _, _ =>
      ensured ← io_try (on_world (pf_EnsureLease request));
      match accepted_lease now ensured, previous with
      | Ok mapped, _ => mret (Ok mapped)
      | Fail providerErr, Some p =>
          if unexpired (rs_mapping p) now then mret (Ok (rs_mapping p, rs_renewAfter p))
          else forget_lease (in_LeaseUID intent) providerErr
      | Fail providerErr, None => forget_lease (in_LeaseUID intent) providerErr
      end
  end.

(** Program the rules of the state, observe them and deliver. *)
Definition install (intent : Intent) (state : runtimeState) (previous : option runtimeState) :
    M (Observation * option error) :=
  set_lease (in_LeaseUID intent) (Some state) ;;
  replaced ← replace_rules;
  match replaced with
  | Fail err =>
      set_lease (in_LeaseUID intent) previous ;;
      seen ← observation intent (rs_mapping state);
      mret (seen, Some (Errorf "replace atomic gateway rules" err))
  | Ok _ =>
      ready ← io_try (on_world (rules_Ready (ruleFor state)));
      match ready with
      | Fail err => seen ← observation intent (rs_mapping state); mret (seen, Some err)
      | Ok false => seen ← observation intent (rs_mapping state); mret (seen, None)
      | Ok true =>
          delivery ← io_try (on_world (dl_Reconcile (effectiveIntent state) (rs_mapping state)));
          let '(delivered, acknowledged, err) :=
            match delivery with Ok (d, a) => (d, a, None) | Fail e => (false, false, Some e) end in
          seen ← observation intent (rs_mapping state);
          mret (mkObservation (ob_APIVersion seen) (ob_LeaseUID seen) (ob_GatewayUID seen) (ob_HandoffGeneration seen)
                  (ob_PodUID seen) (ob_ObservedAt seen) (ob_Provider seen) true delivered acknowledged false, err)
      end
  end.

Definition Reconcile (gateway : ObjectMeta) (intent : Intent) : M (Observation * option error) :=
  match validateRuntimeIntent gateway intent with
  | Some e => mret (Observation_zero, Some e)
  | None =>
      states ← get_state;
      let previous := states !! in_LeaseUID intent in
      match p ← previous; handoff_refused p intent with
      | Some e => mret (Observation_zero, Some e)
      | None =>
          incapable ← check_capabilities intent previous;
          match incapable with
          | Some e => mret (Observation_zero, Some e)
          | None =>
              match intent_request intent with
              | Fail e => mret (Observation_zero, Some e)
              | Ok request =>
                  refreshed ← refresh_mapping intent request previous;
                  match refreshed with
                  | Fail e => mret (Observation_zero, Some e)
                  | Ok (mapping, renewAfter) =>
                      install intent (mkRuntimeState intent mapping renewAfter false false false) previous
                  end
              end
          end
      end
  end.

(** After the target is withdrawn: give the mapping back where asked to. *)
Definition release (intent : WithdrawalIntent) (state : option runtimeState) : M (Observation * option error) :=
  if wi_ReleaseProvider intent then
    match match state with
          | Some s => intent_request (rs_intent s)
          | None => providerRequest (wi_LeaseUID intent) (wi_ProviderInternalPort intent) (wi_PreviousPublicPort intent)
                      (wi_Protocols intent)
          end with
    | Fail e => seen ← withdrawalObservation intent false; mret (seen, Some e)
    | Ok request =>
        released ← io_try (on_world (pf_ReleaseLease request));
        match released with
        | Fail e => seen ← withdrawalObservation intent false; mret (seen, Some e)
        | Ok _ =>
            set_lease (wi_LeaseUID intent) None ;;
            seen ← withdrawalObservation intent true; mret (seen, None)
        end
    end
  else seen ← withdrawalObservation intent true; mret (seen, None).

Definition mark_draining (s : runtimeState) : runtimeState :=
  if negb (rs_draining s) && negb (rs_drained s) then with_flags true (rs_drained s) (rs_blocked s) s else s.

(** Update the state of a lease that has one. *)
Definition update_lease (uid : string) (state : option runtimeState) : M unit :=
  match state with Some s => set_lease uid (Some s) | None => mret tt end.

(** Take the rules out, see that they are gone, retire the application. *)
Definition withdraw_target (intent : WithdrawalIntent) (state : option runtimeState) : M (Observation * option error) :=
  replaced ← replace_rules;
  match replaced with
  | Fail err =>
      update_lease (wi_LeaseUID intent) ((fun s => with_flags false (rs_drained s) (rs_blocked s) s) <$> state) ;;
      seen ← withdrawalObservation intent false; mret (seen, Some err)
  | Ok _ =>
      gone ← io_try (on_world (rules_Withdrawn (wi_LeaseUID intent) (wi_HandoffGeneration intent)));
      match gone with
      | Fail err => seen ← withdrawalObservation intent false; mret (seen, Some err)
      | Ok false => seen ← withdrawalObservation intent false; mret (seen, None)
      | Ok true =>
          retired ← io_try (on_world (dl_Withdraw intent));
          match retired with
          | Fail err => seen ← withdrawalObservation intent false; mret (seen, Some err)
          | Ok false => seen ← withdrawalObservation intent false; mret (seen, None)
          | Ok true =>
              update_lease (wi_LeaseUID intent) ((fun s => with_flags false true (rs_blocked s) s) <$> state) ;;
              release intent state
          end
      end
  end.

Definition Withdraw (gateway : ObjectMeta) (intent : WithdrawalIntent) : M (Observation * option error) :=
  match validateWithdrawal gateway intent with
  | Some e => mret (Observation_zero, Some e)
  | None =>
      states ← get_state;
      let found := states !! wi_LeaseUID intent in
      if match found with Some s => negb (in_HandoffGeneration (rs_intent s) =? wi_HandoffGeneration intent) | None => false end
      then mret (Observation_zero, Some (ENew "withdrawal generation does not match active state"))
      else
        let state := mark_draining <$> found in
        update_lease (wi_LeaseUID intent) state ;;
        withdraw_target intent state
  end.

Definition Quarantine (gateway : ObjectMeta) (intent : WithdrawalIntent) (until : time) : M unit := mret tt.

End Manager.

(** ** What a rule backend promises

    [installs w rs]: the gateway's rule table holds exactly the rules [rs].
    [Replace] is atomic; reading the table leaves it alone; [Ready] is only
    true where the table has a rule of the lease and generation.  The provider
    and the delivery have no access to the table. *)
Definition keeps_rules {W A} (installs : W -> list GatewayRule -> Prop) (m : IO W A) : Prop :=
  forall w rs, installs w rs -> installs (m w).2 rs.

Class GatewayRules (W : Type) `{RuleBackend W} (installs : W -> list GatewayRule -> Prop) := {
  replace_installs rules w w' : rules_Replace rules w = (Ok tt, w') -> installs w' rules;
  replace_atomic rules w e w' rs : rules_Replace rules w = (Fail e, w') -> installs w rs -> installs w' rs;
  ready_keeps rule : keeps_rules installs (rules_Ready rule);
  withdrawn_keeps uid generation : keeps_rules installs (rules_Withdrawn uid generation);
  ready_sound rule w w' rs :
    rules_Ready rule w = (Ok true, w') -> installs w rs ->
    exists r, r ∈ rs /\ gr_LeaseUID r = gr_LeaseUID rule /\ gr_HandoffGeneration r = gr_HandoffGeneration rule
}.

Class NoRuleAccess (W : Type) `{PortForwardCapability W} `{DeliveryBackend W}
    (installs : W -> list GatewayRule -> Prop) := {
  observe_keeps : keeps_rules installs pf_ObserveCapabilities;
  ensure_keeps request : keeps_rules installs (pf_EnsureLease request);
  release_keeps request : keeps_rules installs (pf_ReleaseLease request);
  deliver_keeps intent mapping : keeps_rules installs (dl_Reconcile intent mapping);
  dl_withdraw_keeps intent : keeps_rules installs (dl_Withdraw intent)
}.

(** *** Rule sets *)

(** Every state is stored under the lease of its intent. *)
Definition keyed (states : lease_states) : Prop :=
  forall uid s, states !! uid = Some s -> in_LeaseUID (rs_intent s) = uid.

Definition rules_of (uid : string) (rs : list GatewayRule) : Prop := exists r, r ∈ rs /\ gr_LeaseUID r = uid.

Lemma ruleSet_elem states now r :
  r ∈ ruleSet states now <-> exists uid s, states !! uid = Some s /\ serving now s = true /\ r = ruleFor s.
Proof.
  unfold ruleSet. rewrite sort_by_perm, list_elem_of_fmap. setoid_rewrite list_elem_of_In. setoid_rewrite filter_In.
  setoid_rewrite <- list_elem_of_In. setoid_rewrite list_elem_of_fmap. split.
  - intros (s & -> & ([uid s'] & -> & Hs) & Hserve). exists uid, s'. by rewrite elem_of_map_to_list in Hs.
  - intros (uid & s & Hs & Hserve & ->). exists s. split; [done|]. split; [|done].
    exists (uid, s). by rewrite elem_of_map_to_list.
Qed.

Lemma ruleSet_rules_of states now uid :
  keyed states -> rules_of uid (ruleSet states now) <-> exists s, states !! uid = Some s /\ serving now s = true.
Proof.
  intros Hkeyed. unfold rules_of. setoid_rewrite ruleSet_elem. split.
  - intros (r & (uid' & s & Hs & Hserve & ->) & Huid). cbn in Huid. rewrite (Hkeyed _ _ Hs) in Huid. subst. eauto.
  - intros (s & Hs & Hserve). exists (ruleFor s). split; [eauto|]. by apply Hkeyed.
Qed.

Lemma filtered_sublist {A} (f : A -> bool) l : List.filter f l `sublist_of` l.
Proof. induction l as [|x l IH]; cbn; [done|]. destruct (f x); by constructor. Qed.

(** A lease has at most one rule. *)
Lemma same_lease_rule rs rule rule' :
  NoDup (map gr_LeaseUID rs) -> rule ∈ rs -> rule' ∈ rs -> gr_LeaseUID rule = gr_LeaseUID rule' -> rule = rule'.
Proof.
  intros Hn [i Hr]%list_elem_of_lookup [j Hr']%list_elem_of_lookup Hu. assert (i = j) as ->; [|congruence].
  change (map gr_LeaseUID rs) with (gr_LeaseUID <$> rs) in Hn.
  eapply (NoDup_lookup (gr_LeaseUID <$> rs)); [done|by rewrite list_lookup_fmap, Hr|]. by rewrite list_lookup_fmap, Hr', Hu.
Qed.

Lemma ruleSet_nodup states now : keyed states -> NoDup (map gr_LeaseUID (ruleSet states now)).
Proof.
  intros Hkeyed. unfold ruleSet. rewrite sort_by_perm, map_map.
  refine (sublist_NoDup _ _ (NoDup_fst_map_to_list states) _).
  replace (map_to_list states).*1 with (map (fun s => gr_LeaseUID (ruleFor s)) (map snd (map_to_list states))).
  - apply fmap_sublist, filtered_sublist.
  - rewrite map_map. apply list_fmap_ext. intros i [uid s] Hi. cbn.
    apply Hkeyed, elem_of_map_to_list. by apply list_elem_of_lookup_2 in Hi.
Qed.

(** *** The invariant of the manager *)

(** The table has one rule per lease, and none of a lease that is drained. *)
Record rules_inv (states : lease_states) (rs : list GatewayRule) : Prop := {
  inv_keyed : keyed states;
  inv_single : NoDup (map gr_LeaseUID rs);
  inv_drained uid s : states !! uid = Some s -> rs_drained s = true -> ~ rules_of uid rs
}.

Lemma rules_inv_fresh states now : keyed states -> rules_inv states (ruleSet states now).
Proof.
  intros Hkeyed. split; [done|by apply ruleSet_nodup|]. intros uid s Hs Hd Hof.
  apply ruleSet_rules_of in Hof as (s' & Hs' & Hserve); [|done]. assert (s' = s) as -> by congruence.
  unfold serving in Hserve. rewrite Hd in Hserve. by destruct (rs_draining s), (rs_blocked s).
Qed.

Lemma rules_inv_delete states rs uid : rules_inv states rs -> rules_inv (delete uid states) rs.
Proof.
  intros [Hk Hn Hd]. split; [|done|].
  - intros uid' s [_ Hs]%lookup_delete_Some. eauto.
  - intros uid' s [_ Hs]%lookup_delete_Some. eauto.
Qed.

Lemma rules_inv_insert states rs uid s :
  rules_inv states rs -> in_LeaseUID (rs_intent s) = uid -> (rs_drained s = true -> ~ rules_of uid rs) ->
  rules_inv (<[uid := s]> states) rs.
Proof.
  intros [Hk Hn Hd] Huid Hclean. split; [|done|].
  - intros uid' s' [[<- <-]|[_ Hs']]%lookup_insert_Some; eauto.
  - intros uid' s' [[<- <-]|[_ Hs']]%lookup_insert_Some; eauto.
Qed.

(** *** Frames *)

(** What every call of the interfaces keeps, the manager's operations keep. *)
Section Frame.
Context {W : Type} `{PortForwardCapability W} `{RuleBackend W} `{DeliveryBackend W} `{Clock W}.
Variable P : W -> Prop.
Hypothesis observe_frame : keeps P pf_ObserveCapabilities.
Hypothesis ensure_frame : forall request, keeps P (pf_EnsureLease request).
Hypothesis release_frame : forall request, keeps P (pf_ReleaseLease request).
Hypothesis replace_frame : forall rules, keeps P (rules_Replace rules).
Hypothesis ready_frame : forall rule, keeps P (rules_Ready rule).
Hypothesis withdrawn_frame : forall uid generation, keeps P (rules_Withdrawn uid generation).
Hypothesis deliver_frame : forall intent mapping, keeps P (dl_Reconcile intent mapping).
Hypothesis retire_frame : forall intent, keeps P (dl_Withdraw intent).

#[local] Hint Resolve observe_frame ensure_frame release_frame replace_frame ready_frame withdrawn_frame deliver_frame
  retire_frame : core.

Lemma clock_frame : keeps P read_clock.
Proof. by intros w. Qed.

Lemma Reconcile_frame gateway intent : keeps (fun sw : lease_states * W => P sw.2) (Reconcile gateway intent).
Proof.
  pose proof clock_frame as Hclock.
  unfold Reconcile, check_capabilities, refresh_mapping, forget_lease, install, observation, set_lease, replace_rules, m_now.
  repeat (keeps_down; auto).
Qed.

Lemma Withdraw_frame gateway intent : keeps (fun sw : lease_states * W => P sw.2) (Withdraw gateway intent).
Proof.
  pose proof clock_frame as Hclock.
  unfold Withdraw, withdraw_target, release, update_lease, withdrawalObservation, set_lease, replace_rules, m_now.
  repeat (keeps_down; auto).
Qed.

End Frame.

Section Specs.
Context {W : Type} `{PortForwardCapability W} `{RuleBackend W} `{DeliveryBackend W} `{Clock W}.
Context {installs : W -> list GatewayRule -> Prop} `{!GatewayRules W installs} `{!NoRuleAccess W installs}.

Definition manager_inv (sw : lease_states * W) : Prop := exists rs, installs sw.2 rs /\ rules_inv sw.1 rs.

(** The table of [w'] is that of [w]. *)
Definition carries (w w' : W) : Prop := forall rs, installs w rs -> installs w' rs.

#[local] Instance carries_preorder : PreOrder carries.
Proof. split; [by intros w rs|]. intros w1 w2 w3 H12 H23 rs Hrs. auto. Qed.

Lemma wp_outside {A} (m : IO W A) Q (states : lease_states) w :
  keeps_rules installs m -> (forall r w', carries w w' -> Q r (states, w')) -> wp (on_world m) Q (states, w).
Proof.
  intros Hm HQ. apply wp_on_world. wp_run r w' E. apply HQ. intros rs Hrs.
  specialize (Hm w rs Hrs). by rewrite E in Hm.
Qed.

Lemma wp_m_now Q (states : lease_states) w : Q (Ok (clock_now w)) (states, w) -> wp m_now Q (states, w).
Proof. done. Qed.

Lemma wp_set_lease uid o Q (states : lease_states) (w : W) :
  Q (Ok tt) (match o with Some s => <[uid := s]> states | None => delete uid states end, w) ->
  wp (set_lease uid o) Q (states, w).
Proof. done. Qed.

Lemma wp_replace Q (states : lease_states) w :
  (forall w', installs w' (ruleSet states (clock_now w)) -> Q (Ok (Ok tt)) (states, w')) ->
  (forall e w', carries w w' -> Q (Ok (Fail e)) (states, w')) ->
  wp replace_rules Q (states, w).
Proof.
  intros Hok Hfail. unfold replace_rules. do 2 wp_step. wp_step. apply wp_m_now. cbn [after]. wp_step.
  apply wp_on_world. wp_run r w' E. destruct r as [[]|e].
  - apply Hok. by eapply replace_installs.
  - apply Hfail. intros rs Hrs. by eapply replace_atomic.
Qed.

Lemma wp_observation intent mapping Q (states : lease_states) w :
  Q (Ok (mkObservation RuntimeAPIVersion (in_LeaseUID intent) (in_GatewayUID intent) (in_HandoffGeneration intent)
           (in_PodUID intent) (clock_now w) (Some mapping) false false false false)) (states, w) ->
  wp (observation intent mapping) Q (states, w).
Proof. done. Qed.

Lemma wp_withdrawalObservation intent b Q (states : lease_states) w :
  Q (Ok (mkObservation RuntimeAPIVersion (wi_LeaseUID intent) (wi_GatewayUID intent) (wi_HandoffGeneration intent)
           (wi_PodUID intent) (clock_now w) None false false false b)) (states, w) ->
  wp (withdrawalObservation intent b) Q (states, w).
Proof. done. Qed.

(** Take the next step of a manager operation apart. *)
Ltac m_step :=
  first
  [ wp_step
  | lazymatch goal with
    | |- wp m_now _ _ => apply wp_m_now; cbn [after]
    | |- wp (set_lease _ _) _ _ => apply wp_set_lease; cbn [after]
    | |- wp replace_rules _ _ => apply wp_replace; [intros ?w ?Hw | intros ?e ?w ?Hw]; cbn [after]
    | |- wp (observation _ _) _ _ => apply wp_observation; cbn [after]
    | |- wp (withdrawalObservation _ _) _ _ => apply wp_withdrawalObservation; cbn [after]
    end ].

(** *** Capabilities *)

(** The check goes on with nothing changed, or ends the call with at most the
    state of the lease blocked. *)
Lemma check_capabilities_spec intent (states : lease_states) w :
  manager_inv (states, w) ->
  wp (check_capabilities intent (states !! in_LeaseUID intent))
     (fun r sw => exists stop, r = Ok stop /\
        match stop with
        | None => sw.1 = states /\ carries w sw.2
        | Some _ => manager_inv sw /\
            (sw.1 = states \/ exists p, states !! in_LeaseUID intent = Some p /\
               sw.1 = <[in_LeaseUID intent := with_flags (rs_draining p) (rs_drained p) true p]> states)
        end) (states, w).
Proof.
  intros (rs & Hrs & Hinv). cbn [fst snd] in *. unfold check_capabilities. do 2 m_step.
  apply wp_outside; [apply observe_keeps|]. intros r w1 Hc. cbn [after]. do 2 m_step.
  assert (manager_inv (states, w1)) as Hinv1 by (exists rs; auto).
  destruct r as [capabilities|e]; [do 2 m_step; destruct (validateProviderCapabilities _ _ _ _ _)|].
  - destruct (states !! in_LeaseUID intent) as [p|] eqn:Hp; cbn beta iota; [|m_step; eexists; split; [done|]; cbn; auto].
    do 2 m_step.
    assert (rules_inv (<[in_LeaseUID intent := with_flags (rs_draining p) (rs_drained p) true p]> states) rs) as Hb.
    { apply rules_inv_insert; [done|exact (inv_keyed _ _ Hinv _ _ Hp)|exact (inv_drained _ _ Hinv _ _ Hp)]. }
    m_step. m_step; m_step; eexists; (split; [done|]); (split; [|right; eauto]).
    + eexists. split; [done|]. by eapply rules_inv_fresh, inv_keyed.
    + exists rs. split; [|done]. by apply Hw, Hc.
  - m_step. eexists. split; [done|]. by split.
  - destruct (match states !! in_LeaseUID intent with Some _ => _ | None => _ end); m_step; eexists; (split; [done|]); cbn; auto.
Qed.

(** *** The mapping *)

(** The mapping served has not expired when it is chosen; without one the lease
    is forgotten. *)
Definition refreshed_post (uid : string) (states : lease_states) (w : W)
    (r : res (res (ProviderObservation * time))) (sw : lease_states * W) : Prop :=
  exists mapped, r = Ok mapped /\
    match mapped with
    | Ok (mapping, renewAfter) => sw.1 = states /\ carries w sw.2 /\ unexpired mapping (clock_now w) = true
    | Fail _ => manager_inv sw /\ sw.1 = delete uid states
    end.

Lemma forget_lease_spec uid e (states : lease_states) w0 w :
  manager_inv (states, w) -> wp (forget_lease uid e) (refreshed_post uid states w0) (states, w).
Proof.
  intros (rs & Hrs & Hinv). cbn [fst snd] in *. unfold forget_lease. do 3 m_step. m_step.
  pose proof (rules_inv_delete _ _ uid Hinv) as Hd.
  m_step; m_step; eexists; (split; [done|]); (split; [|done]).
  - eexists. split; [done|]. by eapply rules_inv_fresh, inv_keyed.
  - exists rs. split; [|done]. by apply Hw.
Qed.

Lemma accepted_lease_unexpired now ensured mapping renewAfter :
  accepted_lease now ensured = Ok (mapping, renewAfter) -> unexpired mapping now = true.
Proof.
  unfold accepted_lease. destruct ensured as [lease|]; [|done].
  destruct (negb (time_After _ _)) eqn:Ha, (negb (time_Before _ _)) eqn:Hb; cbn; try done. intros [= <- <-].
  apply negb_false_iff in Ha, Hb. unfold time_After, time_Before in *. apply Z.ltb_lt in Ha, Hb.
  unfold unexpired, time_After. apply Z.ltb_lt. cbn. lia.
Qed.

Lemma refresh_mapping_spec intent request (states : lease_states) w :
  manager_inv (states, w) ->
  wp (refresh_mapping intent request (states !! in_LeaseUID intent)) (refreshed_post (in_LeaseUID intent) states w) (states, w).
Proof.
  intros (rs & Hrs & Hinv). cbn [fst snd] in *. unfold refresh_mapping. do 2 m_step.
  assert (forall p, wp (ensured ← io_try (on_world (pf_EnsureLease request));
      match accepted_lease (clock_now w) ensured, p with
      | Ok mapped, _ => mret (Ok mapped)
      | Fail providerErr, Some p =>
          if unexpired (rs_mapping p) (clock_now w) then mret (Ok (rs_mapping p, rs_renewAfter p))
          else forget_lease (in_LeaseUID intent) providerErr
      | Fail providerErr, None => forget_lease (in_LeaseUID intent) providerErr
      end) (refreshed_post (in_LeaseUID intent) states w) (states, w)) as Hensure.
  { intros p. do 2 m_step. apply wp_outside; [apply ensure_keeps|]. intros r w1 Hc. cbn [after].
    assert (manager_inv (states, w1)) as Hinv1 by (exists rs; auto).
    destruct (accepted_lease (clock_now w) r) as [[mapping renewAfter]|e] eqn:Ha.
    - m_step. eexists. split; [done|]. split; [done|]. split; [done|]. by eapply accepted_lease_unexpired.
    - destruct p as [p|]; [destruct (unexpired (rs_mapping p) (clock_now w)) eqn:Hp|]; [|by apply forget_lease_spec..].
      m_step. eexists. split; [done|]. by split. }
  destruct (states !! in_LeaseUID intent) as [p|] eqn:Hp; [|exact (Hensure None)].
  destruct (refresh_due (clock_now w) (Some p)) eqn:Hdue; [exact (Hensure (Some p))|].
  m_step. eexists. split; [done|]. split; [done|]. split; [done|]. cbn in Hdue.
  apply orb_false_iff in Hdue as [_ Hdue]. by apply negb_false_iff in Hdue.
Qed.

(** *** Programming and delivery *)

Lemma restore_lease (states : lease_states) uid s :
  (match states !! uid with Some p => <[uid := p]> (<[uid := s]> states) | None => delete uid (<[uid := s]> states) end) = states.
Proof.
  destruct (states !! uid) as [p|] eqn:Hp.
  - rewrite insert_insert_eq. by apply insert_id.
  - by apply delete_insert_id.
Qed.

(** The table has no rule of the lease but that of this state. *)
Definition only_rule (uid : string) (s : runtimeState) (w : W) : Prop :=
  exists rs, installs w rs /\ forall rule, rule ∈ rs -> gr_LeaseUID rule = uid -> rule = ruleFor s.

(** A state that serves is installed; ready means the very rule of the state is
    in the table. *)
Lemma install_spec intent s (states : lease_states) w :
  manager_inv (states, w) -> rs_intent s = intent -> rs_drained s = false ->
  wp (install intent s (states !! in_LeaseUID intent))
     (fun r sw => exists obs err, r = Ok (obs, err) /\ manager_inv sw /\
        (sw.1 = states \/ sw.1 = <[in_LeaseUID intent := s]> states /\ only_rule (in_LeaseUID intent) s sw.2) /\
        (ob_GatewayRulesReady obs = true ->
           sw.1 = <[in_LeaseUID intent := s]> states /\ ob_LeaseUID obs = in_LeaseUID intent /\
           ob_HandoffGeneration obs = in_HandoffGeneration intent /\ ob_PodUID obs = in_PodUID intent /\
           ob_Provider obs = Some (rs_mapping s) /\
           exists rs, installs sw.2 rs /\ NoDup (map gr_LeaseUID rs) /\ ruleFor s ∈ rs)) (states, w).
Proof.
  intros (rs & Hrs & Hinv) Hintent Hdrained. cbn [fst snd] in *. unfold install. do 2 m_step.
  assert (rules_inv (<[in_LeaseUID intent := s]> states) rs) as Hnew.
  { apply rules_inv_insert; [done|by rewrite Hintent|by rewrite Hdrained]. }
  m_step. m_step.
  - set (rs' := ruleSet _ _) in *. assert (rules_inv (<[in_LeaseUID intent := s]> states) rs') as Hinv'.
    { by eapply rules_inv_fresh, inv_keyed. }
    assert (forall w1, carries w0 w1 -> manager_inv (<[in_LeaseUID intent := s]> states, w1)) as Hkeep.
    { intros w1 Hc. exists rs'. auto. }
    assert (forall w1, carries w0 w1 -> only_rule (in_LeaseUID intent) s w1) as Honly.
    { intros w1 Hc. exists rs'. split; [by apply Hc|]. intros rule (uid & s' & Hs' & _ & ->)%ruleSet_elem Huid. cbn in Huid.
      rewrite (inv_keyed _ _ Hinv' _ _ Hs') in Huid. subst uid. rewrite lookup_insert_eq in Hs'. by injection Hs' as <-. }
    do 2 m_step. apply wp_on_world. wp_run outcome w1 Eready.
    assert (carries w0 w1) as Hc1.
    { intros rs1 Hrs1. pose proof (ready_keeps (ruleFor s) w0 rs1 Hrs1) as Hk. by rewrite Eready in Hk. }
    destruct outcome as [[|]|e].
    2,3: do 3 m_step; eexists _, _; split; [done|]; split; [auto|]; split; [right; auto|done].
    do 2 m_step. apply wp_outside; [apply deliver_keeps|]. intros outcome w2 Hc2. cbn [after].
    assert (carries w0 w2) as Hc02 by (by etransitivity).
    assert (ruleFor s ∈ rs') as Hin.
    { destruct (ready_sound (ruleFor s) w0 w1 rs' Eready Hw) as (r & Hr & Huid & _). cbn in Huid.
      apply ruleSet_elem in Hr as (uid & s' & Hs' & Hserve & ->). cbn in Huid.
      rewrite (inv_keyed _ _ Hinv' _ _ Hs'), Hintent in Huid. subst uid.
      rewrite lookup_insert_eq in Hs'. apply ruleSet_elem. exists (in_LeaseUID intent), s.
      rewrite lookup_insert_eq. split; [done|]. split; [congruence|done]. }
    destruct outcome as [[delivered acknowledged]|e]; cbn beta iota; do 3 m_step; eexists _, _; (split; [done|]);
      (split; [auto|]); (split; [right; auto|]); intros _; (split_and!; [done..|]); exists rs';
      (split; [by apply Hc02|]); (split; [by apply (inv_single _ _ Hinv')|done]).
  - m_step. m_step. rewrite restore_lease. do 3 m_step. eexists _, _. split; [done|].
    split; [exists rs; split; [by apply Hw|done]|]. split; [by left|done].
Qed.

(** *** The operations *)

(** What [Reconcile] leaves, whichever calls fail. *)
Record reconciled (intent : Intent) (states : lease_states) (obs : Observation) (sw : lease_states * W) : Prop := {
  rec_inv : manager_inv sw;
  rec_others uid : uid <> in_LeaseUID intent -> sw.1 !! uid = states !! uid;
  rec_successor p p' :
    states !! in_LeaseUID intent = Some p -> sw.1 !! in_LeaseUID intent = Some p' ->
    rs_intent p' = rs_intent p \/ rs_intent p' = intent /\ handoff_refused p intent = None;
  rec_new p' :
    states !! in_LeaseUID intent = None -> sw.1 !! in_LeaseUID intent = Some p' ->
    rs_intent p' = intent /\ only_rule (in_LeaseUID intent) p' sw.2;
  rec_ready :
    ob_GatewayRulesReady obs = true ->
    exists s rs, sw.1 !! in_LeaseUID intent = Some s /\ rs_intent s = intent /\
      ob_LeaseUID obs = in_LeaseUID intent /\ ob_HandoffGeneration obs = in_HandoffGeneration intent /\
      ob_PodUID obs = in_PodUID intent /\ ob_Provider obs = Some (rs_mapping s) /\
      installs sw.2 rs /\ NoDup (map gr_LeaseUID rs) /\ ruleFor s ∈ rs
}.

Lemma reconciled_same intent states w :
  manager_inv (states, w) -> reconciled intent states Observation_zero (states, w).
Proof. intros Hinv. split; [done|done| | |done]; cbn; [intros p p' Hp Hp'; left|intros p' Hp Hp']; congruence. Qed.

Lemma Reconcile_spec gateway intent (states : lease_states) w :
  manager_inv (states, w) ->
  wp (Reconcile gateway intent) (fun r sw => exists obs err, r = Ok (obs, err) /\ reconciled intent states obs sw) (states, w).
Proof.
  intros Hinv. pose proof (reconciled_same intent states w Hinv) as Hsame. unfold Reconcile.
  destruct (validateRuntimeIntent gateway intent); [m_step; eauto|]. do 2 m_step.
  destruct (p ← states !! in_LeaseUID intent; handoff_refused p intent) as [|] eqn:Hallowed; [m_step; eauto|].
  m_step. wp_with check_capabilities_spec; [done|]. intros ? [st1 w1] (stop & -> & Hstop). cbn [after].
  destruct stop as [e|]; cbn [fst snd] in Hstop.
  { destruct Hstop as [Hinv1 Hst]. m_step. eexists _, _. split; [done|].
    destruct Hst as [->|(p & Hp & ->)]; [by apply reconciled_same|]. split; [done| | | |done].
    - intros uid Huid. cbn. by rewrite lookup_insert_ne.
    - cbn. intros p0 p'. rewrite lookup_insert_eq. intros Hp0 [= <-]. left. cbn. congruence.
    - intros p' Hp'. congruence. }
  destruct Hstop as [-> Hc]. assert (manager_inv (states, w1)) as Hinv1.
  { destruct Hinv as (rs & Hrs & Hi). exists rs. split; [by apply Hc|done]. }
  destruct (intent_request intent) as [request|e]; [|m_step; eexists _, _; split; [done|]; by apply reconciled_same].
  m_step. wp_with refresh_mapping_spec; [done|]. intros ? [st2 w2] (mapped & -> & Hmapped). cbn [after].
  destruct mapped as [[mapping renewAfter]|e]; cbn [fst snd] in Hmapped.
  - destruct Hmapped as (-> & Hc2 & _). wp_with install_spec; [|done|done|].
    { destruct Hinv1 as (rs & Hrs & Hi). exists rs. split; [by apply Hc2|done]. }
    intros ? [st3 w3] (obs & err & -> & Hinv3 & Hst & Hready). cbn [fst snd] in *. eexists _, _. split; [done|].
    split; [done| | | |]; cbn.
    + intros uid Huid. destruct Hst as [-> | [-> _]]; [done|]. by rewrite lookup_insert_ne.
    + intros p p' Hp Hp'. rewrite Hp in Hallowed. cbn in Hallowed. destruct Hst as [-> | [-> _]]; [left; congruence|].
      rewrite lookup_insert_eq in Hp'. injection Hp' as <-. by right.
    + intros p' Hp Hp'. destruct Hst as [-> | [-> Honly]]; [congruence|].
      rewrite lookup_insert_eq in Hp'. by injection Hp' as <-.
    + intros Hr. destruct (Hready Hr) as (-> & Hl & Hg & Hp & Hpr & rs & Hrs & Hn & Hin). eexists _, rs.
      rewrite lookup_insert_eq. split; [done|]. by split_and!.
  - destruct Hmapped as [Hinv2 ->]. m_step. eexists _, _. split; [done|]. split; [done| | | |done].
    + intros uid Huid. cbn. by rewrite lookup_delete_ne.
    + cbn. intros p p' _. by rewrite lookup_delete_eq.
    + cbn. intros p' _. by rewrite lookup_delete_eq.
Qed.

(** What [Withdraw] leaves, whichever calls fail. *)
Record withdrawn_to (intent : WithdrawalIntent) (states : lease_states) (obs : Observation) (sw : lease_states * W) : Prop := {
  wd_inv : manager_inv sw;
  wd_others uid : uid <> wi_LeaseUID intent -> sw.1 !! uid = states !! uid;
  wd_target p' :
    sw.1 !! wi_LeaseUID intent = Some p' ->
    exists p, states !! wi_LeaseUID intent = Some p /\ rs_intent p' = rs_intent p;
  wd_done :
    ob_Withdrawn obs = true ->
    ob_LeaseUID obs = wi_LeaseUID intent /\ ob_HandoffGeneration obs = wi_HandoffGeneration intent /\
    (exists rs, installs sw.2 rs /\ ~ rules_of (wi_LeaseUID intent) rs) /\
    (forall s, sw.1 !! wi_LeaseUID intent = Some s -> rs_drained s = true /\ wi_ReleaseProvider intent = false)
}.

Lemma wp_update_lease uid o Q (states : lease_states) (w : W) :
  Q (Ok tt) (match o with Some s => <[uid := s]> states | None => states end, w) -> wp (update_lease uid o) Q (states, w).
Proof. by destruct o. Qed.

Lemma manager_inv_carries (states : lease_states) w w' :
  manager_inv (states, w) -> carries w w' -> manager_inv (states, w').
Proof. intros (rs & Hrs & Hinv) Hc. exists rs. split; [by apply Hc|done]. Qed.

Lemma withdrawn_not_done intent states obs w :
  manager_inv (states, w) -> ob_Withdrawn obs = false -> withdrawn_to intent states obs (states, w).
Proof. intros Hinv Hobs. split; [done|done|cbn; eauto|by rewrite Hobs]. Qed.

(** Changing the flags of the lease keeps the invariant if a drained lease has
    no rule. *)
Lemma manager_inv_flags (states : lease_states) w uid p b c d rs :
  states !! uid = Some p -> installs w rs -> rules_inv states rs -> (c = true -> ~ rules_of uid rs) ->
  manager_inv (<[uid := with_flags b c d p]> states, w).
Proof.
  intros Hp Hrs Hinv Hclean. exists rs. split; [done|].
  apply rules_inv_insert; [done|exact (inv_keyed _ _ Hinv _ _ Hp)|done].
Qed.

Lemma release_spec intent (state : option runtimeState) (states states0 : lease_states) w rs :
  installs w rs -> rules_inv states rs -> ~ rules_of (wi_LeaseUID intent) rs ->
  (forall uid, uid <> wi_LeaseUID intent -> states !! uid = states0 !! uid) ->
  (forall s, states !! wi_LeaseUID intent = Some s ->
     rs_drained s = true /\ exists p, states0 !! wi_LeaseUID intent = Some p /\ rs_intent s = rs_intent p) ->
  wp (release intent state)
     (fun r sw => exists obs err, r = Ok (obs, err) /\ withdrawn_to intent states0 obs sw) (states, w).
Proof.
  intros Hrs Hinv Hno Hothers Hst.
  assert (forall obs w', carries w w' -> ob_Withdrawn obs = false -> withdrawn_to intent states0 obs (states, w')) as Hfalse.
  { intros obs w' Hc Hobs. split; cbn; [|done| |by rewrite Hobs].
    - exists rs. split; [by apply Hc|done].
    - intros p' Hp'. by destruct (Hst p' Hp') as [_ Hp]. }
  unfold release. destruct (wi_ReleaseProvider intent) eqn:Hrelease.
  - destruct (match state with Some _ => _ | None => _ end) as [request|e];
      [|do 3 m_step; eexists _, _; split; [done|]; by apply Hfalse].
    do 2 m_step. apply wp_outside; [apply release_keeps|]. intros [[]|e] w1 Hc; cbn [after];
      [|do 3 m_step; eexists _, _; split; [done|]; by apply Hfalse].
    do 5 m_step. eexists _, _. split; [done|]. split; cbn.
    + exists rs. split; [by apply Hc|]. by apply rules_inv_delete.
    + intros uid Huid. rewrite lookup_delete_ne by done. by apply Hothers.
    + intros p'. by rewrite lookup_delete_eq.
    + intros _. split_and!; [done|done|by exists rs; auto|]. intros s. by rewrite lookup_delete_eq.
  - do 3 m_step. eexists _, _. split; [done|]. split; cbn; [by exists rs|done| |].
    + intros p' Hp'. by destruct (Hst p' Hp') as [_ Hp].
    + intros _. split_and!; [done|done|by exists rs|]. intros s Hs. by destruct (Hst s Hs).
Qed.

Lemma marked_rules (states : lease_states) now uid :
  keyed states -> (forall s, states !! uid = Some s -> rs_draining s || rs_drained s = true) ->
  ~ rules_of uid (ruleSet states now).
Proof.
  intros Hkeyed Hmark (s & Hs & Hserve)%ruleSet_rules_of; [|done]. specialize (Hmark s Hs).
  unfold serving in Hserve. by destruct (rs_draining s), (rs_drained s).
Qed.

Lemma withdraw_target_spec intent (states : lease_states) w :
  manager_inv (states, w) ->
  (forall s, states !! wi_LeaseUID intent = Some s -> rs_draining s || rs_drained s = true) ->
  wp (withdraw_target intent (states !! wi_LeaseUID intent))
     (fun r sw => exists obs err, r = Ok (obs, err) /\ withdrawn_to intent states obs sw) (states, w).
Proof.
  intros Hinv Hmark. pose proof Hinv as (rs & Hrs & Hri). cbn [fst snd] in Hrs, Hri.
  unfold withdraw_target. m_step. m_step.
  - set (rs' := ruleSet _ _) in *. pose proof (rules_inv_fresh _ (clock_now w) (inv_keyed _ _ Hri)) as Hri'. fold rs' in Hri'.
    assert (~ rules_of (wi_LeaseUID intent) rs') as Hno by (apply marked_rules; [by eapply inv_keyed|done]).
    assert (manager_inv (states, w0)) as Hinv0 by (by exists rs').
    do 2 m_step. apply wp_outside; [apply withdrawn_keeps|]. intros outcome w1 Hc1. cbn [after].
    assert (forall obs w', carries w0 w' -> ob_Withdrawn obs = false -> withdrawn_to intent states obs (states, w')) as Hfalse.
    { intros obs w' Hc Hobs. apply withdrawn_not_done; [|done]. by eapply manager_inv_carries. }
    destruct outcome as [[|]|e]; [|do 3 m_step; eexists _, _; split; [done|]; by apply Hfalse..].
    do 2 m_step. apply wp_outside; [apply dl_withdraw_keeps|]. intros outcome w2 Hc2. cbn [after].
    assert (carries w0 w2) as Hc02 by (by etransitivity).
    destruct outcome as [[|]|e]; [|do 3 m_step; eexists _, _; split; [done|]; by apply Hfalse..].
    m_step. apply wp_update_lease. cbn [after].
    apply release_spec with rs'; [by apply Hc02| |done| |].
    + destruct (states !! wi_LeaseUID intent) as [p|] eqn:Hp; cbn; [|done].
      apply rules_inv_insert; [done|exact (inv_keyed _ _ Hri _ _ Hp)|done].
    + intros uid Huid. destruct (states !! wi_LeaseUID intent) as [p|]; cbn; [|done]. by rewrite lookup_insert_ne.
    + intros s. destruct (states !! wi_LeaseUID intent) as [p|] eqn:Hp; cbn.
      * rewrite lookup_insert_eq. intros [= <-]. eauto.
      * by rewrite Hp.
  - m_step. apply wp_update_lease. cbn [after]. do 3 m_step. eexists _, _. split; [done|].
    destruct (states !! wi_LeaseUID intent) as [p|] eqn:Hp; cbn.
    + split; [|intros uid Huid; cbn; by rewrite lookup_insert_ne|cbn; intros p'; rewrite lookup_insert_eq; intros [= <-]; eauto|done].
      apply (manager_inv_flags states w0 _ p _ _ _ rs); [done|by apply Hw|done|].
      by apply (inv_drained _ _ Hri).
    + apply withdrawn_not_done; [|done]. by eapply manager_inv_carries.
Qed.

Lemma mark_draining_marks s : rs_draining (mark_draining s) || rs_drained (mark_draining s) = true.
Proof. unfold mark_draining. destruct (rs_draining s) eqn:H1', (rs_drained s) eqn:H2'; cbn; rewrite ?H1', ?H2'; done. Qed.

Lemma mark_draining_intent s : rs_intent (mark_draining s) = rs_intent s.
Proof. unfold mark_draining. by destruct (_ && _). Qed.

Lemma mark_draining_drained s : rs_drained (mark_draining s) = rs_drained s.
Proof. unfold mark_draining. by destruct (_ && _). Qed.

Lemma Withdraw_spec gateway intent (states : lease_states) w :
  manager_inv (states, w) ->
  wp (Withdraw gateway intent) (fun r sw => exists obs err, r = Ok (obs, err) /\ withdrawn_to intent states obs sw) (states, w).
Proof.
  intros Hinv. unfold Withdraw.
  destruct (validateWithdrawal gateway intent); [m_step; eexists _, _; split; [done|]; by apply withdrawn_not_done|].
  do 2 m_step. destruct (match states !! _ with Some _ => _ | None => _ end);
    [m_step; eexists _, _; split; [done|]; by apply withdrawn_not_done|].
  m_step. apply wp_update_lease. cbn [after].
  destruct (states !! wi_LeaseUID intent) as [p|] eqn:Hp; cbn [fmap option_fmap option_map].
  - set (states1 := <[wi_LeaseUID intent := mark_draining p]> states).
    replace (Some (mark_draining p)) with (states1 !! wi_LeaseUID intent) by (unfold states1; by rewrite lookup_insert_eq).
    wp_with withdraw_target_spec.
    + destruct Hinv as (rs & Hrs & Hri). exists rs. split; [done|]. apply rules_inv_insert; [done| |].
      * rewrite mark_draining_intent. exact (inv_keyed _ _ Hri _ _ Hp).
      * rewrite mark_draining_drained. exact (inv_drained _ _ Hri _ _ Hp).
    + unfold states1. intros s. rewrite lookup_insert_eq. intros [= <-]. apply mark_draining_marks.
    + intros r sw (obs & err & -> & [Hi Ho Ht Hd]). exists obs, err. split; [done|]. split; [done| |  |done].
      * intros uid Huid. rewrite Ho by done. unfold states1. by rewrite lookup_insert_ne.
      * intros p' Hp'. destruct (Ht p' Hp') as (q & Hq & Hintent). unfold states1 in Hq. rewrite lookup_insert_eq in Hq.
        injection Hq as <-. exists p. split; [done|]. by rewrite Hintent, mark_draining_intent.
  - rewrite <- Hp. wp_with withdraw_target_spec; [done|by rewrite Hp|done].
Qed.

(** ** The manager over time

    Calls of the controller in any order, with whatever happens outside in
    between: time passes, the provider and the application change, other rule
    tables of the gateway are edited. *)
Inductive manager_step : lease_states * W -> lease_states * W -> Prop :=
| step_Reconcile gateway intent r sw sw' : Reconcile gateway intent sw = (r, sw') -> manager_step sw sw'
| step_Withdraw gateway intent r sw sw' : Withdraw gateway intent sw = (r, sw') -> manager_step sw sw'
| step_outside states w w' : carries w w' -> manager_step (states, w) (states, w').

(** A manager starts with no state and whatever rules it finds. *)
Definition manager_start (sw : lease_states * W) : Prop :=
  sw.1 = ∅ /\ exists rs, installs sw.2 rs /\ NoDup (map gr_LeaseUID rs).

Lemma manager_start_inv sw : manager_start sw -> manager_inv sw.
Proof. intros [Hst (rs & Hrs & Hn)]. exists rs. split; [done|]. rewrite Hst. split; [by intros ? ?|done|by intros ? ?]. Qed.

Lemma manager_step_inv sw sw' : manager_inv sw -> manager_step sw sw' -> manager_inv sw'.
Proof.
  intros Hinv. destruct 1 as [gateway intent r [st w] sw' E|gateway intent r [st w] sw' E|states w w' Hc].
  - destruct (wp_elim _ _ _ _ _ (Reconcile_spec gateway intent st w Hinv) E) as (obs & err & _ & Hrec). apply Hrec.
  - destruct (wp_elim _ _ _ _ _ (Withdraw_spec gateway intent st w Hinv) E) as (obs & err & _ & Hwd). apply Hwd.
  - by eapply manager_inv_carries.
Qed.

Lemma manager_reachable_inv sw sw' : manager_start sw -> rtc manager_step sw sw' -> manager_inv sw'.
Proof.
  intros Hinv%manager_start_inv Hsteps. induction Hsteps as [sw|sw sw1 sw2 Hstep _ IH]; [done|].
  by apply IH, (manager_step_inv sw).
Qed.

Lemma sameRuntimeTarget_spec a b :
  sameRuntimeTarget a b = true ->
  in_PodUID a = in_PodUID b /\ in_OverlayAddress a = in_OverlayAddress b /\ in_BackendPort a = in_BackendPort b /\
  in_TargetPort a = in_TargetPort b /\ in_ApplicationPortMode a = in_ApplicationPortMode b.
Proof.
  unfold sameRuntimeTarget. rewrite !andb_true_iff, !String.eqb_eq, !bool_decide_eq_true, !Z.eqb_eq. naive_solver.
Qed.

Lemma handoff_allowed p intent :
  handoff_refused p intent = None ->
  in_HandoffGeneration (rs_intent p) <= in_HandoffGeneration intent /\
  (in_HandoffGeneration (rs_intent p) = in_HandoffGeneration intent ->
     sameRuntimeTarget (rs_intent p) intent = true /\ (rs_draining p = true -> rs_drained p = true)) /\
  (in_HandoffGeneration (rs_intent p) < in_HandoffGeneration intent -> rs_drained p = true).
Proof.
  unfold handoff_refused. destruct (Z.ltb_spec (in_HandoffGeneration intent) (in_HandoffGeneration (rs_intent p))); [done|].
  destruct (Z.eqb_spec (in_HandoffGeneration intent) (in_HandoffGeneration (rs_intent p))),
    (Z.ltb_spec (in_HandoffGeneration (rs_intent p)) (in_HandoffGeneration intent)); try lia; cbn.
  - destruct (sameRuntimeTarget _ _); [|done]. destruct (rs_draining p), (rs_drained p); cbn; intros; try done; split_and!; try done; lia.
  - destruct (rs_drained p); [|done]. intros _. split_and!; [done|lia|done].
Qed.

(** C22: The handoff of a lease.  Whatever the controller asked before and
    whichever calls failed: the table holds at most one rule per lease before and
    after the call, and none of a lease whose target is drained.  Where the
    manager has a state of the lease and the call replaces it, the generation
    does not go back, the same generation keeps its Pod, address and ports, and a
    new generation starts from a table without any rule of the lease.  Where it
    has none, because it was restarted or has forgotten the lease, it takes the
    intent as it comes, with any generation and target; but then the table holds
    no rule of the lease but the new one, whatever it found there. *)
Theorem handoff_exclusive sw0 sw gateway intent r sw' :
  manager_start sw0 -> rtc manager_step sw0 sw -> Reconcile gateway intent sw = (r, sw') ->
  exists rs rs', installs sw.2 rs /\ NoDup (map gr_LeaseUID rs) /\ installs sw'.2 rs' /\ NoDup (map gr_LeaseUID rs') /\
    (forall uid s, sw.1 !! uid = Some s -> rs_drained s = true -> ~ rules_of uid rs) /\
    (forall uid s, sw'.1 !! uid = Some s -> rs_drained s = true -> ~ rules_of uid rs') /\
    (forall uid, uid <> in_LeaseUID intent -> sw'.1 !! uid = sw.1 !! uid) /\
    (forall p', sw.1 !! in_LeaseUID intent = None -> sw'.1 !! in_LeaseUID intent = Some p' ->
       rs_intent p' = intent /\ only_rule (in_LeaseUID intent) p' sw'.2) /\
    forall p p', sw.1 !! in_LeaseUID intent = Some p -> sw'.1 !! in_LeaseUID intent = Some p' ->
      let old := rs_intent p in let new := rs_intent p' in
      in_HandoffGeneration old <= in_HandoffGeneration new /\
      (in_HandoffGeneration old = in_HandoffGeneration new ->
         in_PodUID old = in_PodUID new /\ in_OverlayAddress old = in_OverlayAddress new /\
         in_BackendPort old = in_BackendPort new /\ in_TargetPort old = in_TargetPort new) /\
      (in_HandoffGeneration old < in_HandoffGeneration new -> ~ rules_of (in_LeaseUID intent) rs).
Proof.
  intros Hstart Hreach E. pose proof (manager_reachable_inv _ _ Hstart Hreach) as Hinv. destruct sw as [st w].
  destruct (wp_elim _ _ _ _ _ (Reconcile_spec gateway intent st w Hinv) E) as (obs & err & _ & [(rs' & Hrs' & [_ Hn' Hd']) Hothers Hnext Hnew _]).
  destruct Hinv as (rs & Hrs & [Hk Hn Hd]). exists rs, rs'. split_and!; [done..|]. cbn.
  intros p p' Hp Hp'. destruct (Hnext p p' Hp Hp') as [->|[-> Hok]]; [split_and!; [lia|done|lia]|].
  apply handoff_allowed in Hok as (Hle & Heq & Hlt). split; [done|]. split.
  - intros Hg. destruct (Heq Hg) as [(? & ? & ? & ? & _)%sameRuntimeTarget_spec _]. done.
  - intros Hg. apply (Hd _ p Hp). by apply Hlt.
Qed.

(** A ready observation is true: the lease's state is the intent that was
    asked for, the observation names its generation and Pod and the mapping in
    use, and the table holds the rule of that state and no other rule of the
    lease. *)
Theorem Reconcile_ready_sound sw0 sw gateway intent obs err sw' :
  manager_start sw0 -> rtc manager_step sw0 sw ->
  Reconcile gateway intent sw = (Ok (obs, err), sw') -> ob_GatewayRulesReady obs = true ->
  exists s rs, sw'.1 !! in_LeaseUID intent = Some s /\ rs_intent s = intent /\
    ob_LeaseUID obs = in_LeaseUID intent /\ ob_HandoffGeneration obs = in_HandoffGeneration intent /\
    ob_PodUID obs = in_PodUID intent /\ ob_Provider obs = Some (rs_mapping s) /\
    installs sw'.2 rs /\ ruleFor s ∈ rs /\
    forall rule, rule ∈ rs -> gr_LeaseUID rule = in_LeaseUID intent -> rule = ruleFor s.
Proof.
  intros Hstart Hreach E Hready. pose proof (manager_reachable_inv _ _ Hstart Hreach) as Hinv. destruct sw as [st w].
  destruct (wp_elim _ _ _ _ _ (Reconcile_spec gateway intent st w Hinv) E) as (obs' & err' & [= <- <-] & [_ _ _ _ Hr]).
  destruct (Hr Hready) as (s & rs & Hs & Hi & Hl & Hg & Hp & Hpr & Hrs & Hn & Hin). exists s, rs. split_and!; try done.
  intros rule Hrule Huid. eapply same_lease_rule; [done..|]. cbn. by rewrite Huid, Hi.
Qed.

(** A withdrawn observation is true: the table has no rule of the lease,
    and the lease is drained, or released and forgotten; and no call of
    [Withdraw] touches another lease or the target of this one. *)
Theorem Withdraw_sound sw0 sw gateway intent obs err sw' :
  manager_start sw0 -> rtc manager_step sw0 sw -> Withdraw gateway intent sw = (Ok (obs, err), sw') ->
  (forall uid, uid <> wi_LeaseUID intent -> sw'.1 !! uid = sw.1 !! uid) /\
  (forall p', sw'.1 !! wi_LeaseUID intent = Some p' ->
     exists p, sw.1 !! wi_LeaseUID intent = Some p /\ rs_intent p' = rs_intent p) /\
  (ob_Withdrawn obs = true ->
     ob_LeaseUID obs = wi_LeaseUID intent /\ ob_HandoffGeneration obs = wi_HandoffGeneration intent /\
     (exists rs, installs sw'.2 rs /\ ~ rules_of (wi_LeaseUID intent) rs) /\
     (forall s, sw'.1 !! wi_LeaseUID intent = Some s -> rs_drained s = true /\ wi_ReleaseProvider intent = false)).
Proof.
  intros Hstart Hreach E. pose proof (manager_reachable_inv _ _ Hstart Hreach) as Hinv. destruct sw as [st w].
  destruct (wp_elim _ _ _ _ _ (Withdraw_spec gateway intent st w Hinv) E) as (obs' & err' & [= <- <-] & [_ Ho Ht Hd]).
  by split_and!.
Qed.

End Specs.

(** ** A concrete gateway runtime

    A rule table that can refuse replacements, a provider that always maps, an
    application that may take its time to be retired. *)
Module ManagerSample.

Record World := mkWorld { sw_rules : list GatewayRule; sw_refusing : bool; sw_retired : bool; sw_now : time }.

Definition same_lease (uid : string) (generation : Z) (r : GatewayRule) : bool :=
  String.eqb (gr_LeaseUID r) uid && (gr_HandoffGeneration r =? generation).

#[export] Instance sample_rules : RuleBackend World := {
  rules_Replace rules := fun w =>
    if sw_refusing w then (Fail (ENew "device or resource busy"), w)
    else (Ok tt, mkWorld rules (sw_refusing w) (sw_retired w) (sw_now w));
  rules_Ready rule := fun w => (Ok (existsb (same_lease (gr_LeaseUID rule) (gr_HandoffGeneration rule)) (sw_rules w)), w);
  rules_Withdrawn uid generation := fun w => (Ok (negb (existsb (same_lease uid generation) (sw_rules w))), w)
}.
#[export] Instance sample_clock : Clock World := sw_now.
#[export] Instance sample_provider : PortForwardCapability World := {
  pf_ObserveCapabilities := mret (mkPortForwardCapabilities [ProtocolTCP; ProtocolUDP] 4 true false (60 * Second));
  pf_EnsureLease request := fun w =>
    (Ok (mkPortForwardLeaseObservation (Addr4 3405803777) (pr_InternalPort request - 10000) (sw_now w)
           (sw_now w + 30 * Second) (sw_now w + 60 * Second)), w);
  pf_ReleaseLease request := mret tt
}.
#[export] Instance sample_delivery : DeliveryBackend World := {
  dl_Reconcile intent mapping := mret (true, true);
  dl_Withdraw intent := fun w => (Ok (sw_retired w), w)
}.

Definition table_is (w : World) (rs : list GatewayRule) : Prop := sw_rules w = rs.

#[export] Instance sample_GatewayRules : GatewayRules World table_is.
Proof.
  split.
  - intros rules w w'. cbn. destruct (sw_refusing w); [done|]. by intros [= <-].
  - intros rules w e w' rs. cbn. destruct (sw_refusing w); [|done]. by intros [= <- <-].
  - by intros rule w rs.
  - by intros uid generation w rs.
  - intros rule w w' rs [= He <-] <-. apply existsb_exists in He as (r & Hr & Hsame).
    apply andb_true_iff in Hsame as [Hu%String.eqb_eq Hg%Z.eqb_eq]. exists r. by rewrite list_elem_of_In.
Qed.
#[export] Instance sample_NoRuleAccess : NoRuleAccess World table_is.
Proof. by split; intros; intros w rs. Qed.

Definition gateway : ObjectMeta := mkObjectMeta "vpn" "gateway" "gateway-uid" 1 None ∅ ∅ [] [].
Definition intent (uid : string) (port generation : Z) : Intent :=
  mkIntent RuntimeAPIVersion "media" uid "gateway-uid" generation "service-uid" "slice-uid" "pod-uid" "binding-uid" port 0
    (Addr4 168427522) (Addr4 168427522) 8080 8080 [ProtocolTCP] "" ApplicationPortFixed.
Definition withdrawal (uid : string) (generation : Z) : WithdrawalIntent :=
  mkWithdrawalIntent RuntimeAPIVersion "media" uid "gateway-uid" generation "service-uid" "slice-uid" "pod-uid" false false 0 0
    [ProtocolTCP] "".

Definition fresh (refusing retired : bool) : lease_states * World := (∅, mkWorld [] refusing retired (1700000000 * Second)).
Definition call {A} (m : IO (lease_states * World) A) (sw : lease_states * World) : lease_states * World := (m sw).2.
Definition seen (m : IO (lease_states * World) (Observation * option error)) (sw : lease_states * World) :
    Observation * option error :=
  match (m sw).1 with Ok o => o | Fail e => (Observation_zero, Some e) end.
Definition set_world (refusing retired : bool) (sw : lease_states * World) : lease_states * World :=
  (sw.1, mkWorld (sw_rules sw.2) refusing retired (sw_now sw.2)).

Definition served := call (Reconcile gateway (intent "lease-1" 50000 1)) (fresh false true).
Definition withdrawn := call (Withdraw gateway (withdrawal "lease-1" 1)) served.

Lemma fresh_start refusing retired : manager_start (installs := table_is) (fresh refusing retired).
Proof. split; [done|]. exists []. split; [done|]. constructor. Qed.

Lemma call_step_Reconcile sw gw i : manager_step (installs := table_is) sw (call (Reconcile gw i) sw).
Proof. eapply step_Reconcile. apply surjective_pairing. Qed.

Lemma call_step_Withdraw sw gw i : manager_step (installs := table_is) sw (call (Withdraw gw i) sw).
Proof. eapply step_Withdraw. apply surjective_pairing. Qed.

Lemma call_seen m sw : res_ok (m sw).1 = true -> m sw = (Ok ((seen m sw).1, (seen m sw).2), call m sw).
Proof. unfold seen, call. destruct (m sw) as [[[obs err]|e] sw']; [done|discriminate]. Qed.

Lemma served_reachable : rtc (manager_step (installs := table_is)) (fresh false true) served.
Proof. apply rtc_once, call_step_Reconcile. Qed.
Lemma withdrawn_reachable : rtc (manager_step (installs := table_is)) (fresh false true) withdrawn.
Proof. eapply rtc_r; [apply served_reachable|]. apply call_step_Withdraw. Qed.

(** The second generation of a lease, from a table without its rules; and a
    manager that was restarted over the table of the first one, which takes a
    third generation as it comes and keeps one rule. *)
Definition restarted : lease_states * World := (∅, served.2).

Lemma restarted_start : manager_start (installs := table_is) restarted.
Proof. split; [done|]. exists (sw_rules served.2). split; [done|]. vm_compute. apply NoDup_singleton. Qed.

Lemma handoff_exclusive_witness :
  ~ rules_of "lease-1" (sw_rules withdrawn.2) /\
  map gr_HandoffGeneration (sw_rules (call (Reconcile gateway (intent "lease-1" 50000 2)) withdrawn).2) = [2] /\
  map gr_HandoffGeneration (sw_rules restarted.2) = [1] /\
  (forall rule, rule ∈ sw_rules (call (Reconcile gateway (intent "lease-1" 50000 3)) restarted).2 -> gr_LeaseUID rule = "lease-1" ->
     gr_HandoffGeneration rule = 3).
Proof.
  split; [|split; [vm_compute; reflexivity|split; [vm_compute; reflexivity|]]].
  - destruct (handoff_exclusive (installs := table_is) (fresh false true) withdrawn gateway (intent "lease-1" 50000 2) _ _
      (fresh_start _ _) withdrawn_reachable (surjective_pairing _)) as (rs & rs' & Hrs & _ & _ & _ & Hd & _).
    assert (sw_rules withdrawn.2 = rs) as -> by exact Hrs.
    destruct (withdrawn.1 !! "lease-1") as [s|] eqn:Hs; [|by vm_compute in Hs].
    apply (Hd "lease-1" s Hs). vm_compute in Hs. injection Hs as <-. reflexivity.
  - destruct (handoff_exclusive (installs := table_is) restarted restarted gateway (intent "lease-1" 50000 3) _ _
      restarted_start (rtc_refl _ _) (surjective_pairing _)) as (rs & rs' & _ & _ & _ & _ & _ & _ & _ & Hnew & _).
    change (Reconcile gateway (intent "lease-1" 50000 3) restarted).2 with (call (Reconcile gateway (intent "lease-1" 50000 3)) restarted) in Hnew.
    destruct ((call (Reconcile gateway (intent "lease-1" 50000 3)) restarted).1 !! "lease-1") as [p|] eqn:Hp; [|by vm_compute in Hp].
    destruct (Hnew p eq_refl Hp) as [Hi (rs1 & Hrs1 & Honly)]. intros rule Hr Hl. unfold table_is in Hrs1. rewrite Hrs1 in Hr.
    rewrite (Honly rule Hr Hl). cbn. by rewrite Hi.
Defined.

Lemma served_ok :
  res_ok (Reconcile gateway (intent "lease-1" 50000 1) (fresh false true)).1 = true /\
  ob_GatewayRulesReady (seen (Reconcile gateway (intent "lease-1" 50000 1)) (fresh false true)).1 = true.
Proof. vm_compute. split; reflexivity. Qed.
Lemma withdrawn_ok :
  res_ok (Withdraw gateway (withdrawal "lease-1" 1) served).1 = true /\
  ob_Withdrawn (seen (Withdraw gateway (withdrawal "lease-1" 1)) served).1 = true.
Proof. vm_compute. split; reflexivity. Qed.

Lemma withdrawn_known : exists s, withdrawn.1 !! "lease-1" = Some s.
Proof. vm_compute. eexists. reflexivity. Qed.

(** A first pass is ready at once; the rule is that of the mapping. *)
Lemma Reconcile_ready_sound_witness :
  exists s, served.1 !! "lease-1" = Some s /\ ruleFor s ∈ sw_rules served.2.
Proof.
  pose proof (Reconcile_ready_sound (installs := table_is) (fresh false true) (fresh false true) gateway (intent "lease-1" 50000 1)
    _ _ _ (fresh_start false true) (rtc_refl _ _) (call_seen _ _ (proj1 served_ok)) (proj2 served_ok)) as Hready.
  fold served in Hready. destruct Hready as (s & rs & Hs & _ & _ & _ & _ & _ & Hrs & Hin & _).
  exists s. split; [exact Hs|]. unfold table_is in Hrs. rewrite <- Hrs in Hin. exact Hin.
Defined.

(** The withdrawal of what the first pass installed. *)
Lemma Withdraw_sound_witness : exists s, withdrawn.1 !! "lease-1" = Some s /\ rs_drained s = true.
Proof.
  pose proof (Withdraw_sound (installs := table_is) (fresh false true) served gateway (withdrawal "lease-1" 1) _ _ _
    (fresh_start false true) served_reachable (call_seen _ _ (proj1 withdrawn_ok))) as (_ & _ & Hd).
  fold withdrawn in Hd. destruct (Hd (proj2 withdrawn_ok)) as (_ & _ & _ & Hd').
  destruct withdrawn_known as [s Hs]. exists s. split; [exact Hs|]. apply (Hd' s Hs).
Defined.

(** A withdrawal that has taken the rules out waits for the application; the
    next attempt fails to replace the table. *)
Definition waiting := call (Withdraw gateway (withdrawal "lease-1" 1)) (set_world false false served).
Definition refused := call (Withdraw gateway (withdrawal "lease-1" 1)) (set_world true false waiting).
Definition reopened := call (Reconcile gateway (intent "lease-2" 50001 1)) (set_world false false refused).

(** The failed attempt makes the lease serve again: its rule, which the first
    attempt had removed, comes back with the next change of any other lease. *)
Lemma withdrawal_reopened :
  sw_rules served.2 <> [] /\ sw_rules waiting.2 = [] /\ sw_rules refused.2 = [] /\
  map gr_LeaseUID (sw_rules reopened.2) = ["lease-1"; "lease-2"].
Proof. by vm_compute. Qed.

End ManagerSample.
