(* ===== verification/PortRules.v ===== *)
(** * The gateway's port-forward rules (internal/portforward/rules_linux.go)

    The nftables table of the active leases, byte for byte as the source emits
    it, in the gateway's network namespace.  The tables of the namespace are
    those of the IPv4 family, the only one this backend and the gateway core
    look at. *)

From Stdlib Require Import Ascii.
From S2P Require Import Prelude Sha256 Netip Api Nft Dataplane Kernel PortRuntime PortManager.

Definition gatewayRuleTable : string := "waycloak_port_forward".

(** gatewaycontract/marks.go *)
Definition PortForwardIngressMark : Z := 1464028240.

Record LinuxRuleBackend := mkLinuxRuleBackend {
  lb_TunnelInterface : string;
  lb_OverlayInterface : string
}.

(** ** Checks and names *)

Definition backend_validate (b : LinuxRuleBackend) : option error :=
  if str_empty (lb_TunnelInterface b) || str_empty (lb_OverlayInterface b) ||
     (15 <? Z.of_nat (String.length (lb_TunnelInterface b))) || (15 <? Z.of_nat (String.length (lb_OverlayInterface b))) ||
     String.eqb (lb_TunnelInterface b) (lb_OverlayInterface b)
  then Some (ENew "exact distinct tunnel and overlay interfaces are required") else None.

Definition validateGatewayRule (rule : GatewayRule) : option error :=
  let address := ParseAddr (gr_OverlayAddress rule) in
  if str_empty (gr_LeaseUID rule) || (gr_HandoffGeneration rule <? 1) || (gr_IngressPort rule =? 0) ||
     (gr_TargetPort rule =? 0) || match address with Some a => negb (Addr_Is4 a) | None => true end ||
     (Z.of_nat (length (gr_Protocols rule)) =? 0)
  then Some (ENew "gateway port-forward rule is invalid")
  else if existsb (fun p => negb (String.eqb p ProtocolTCP) && negb (String.eqb p ProtocolUDP)) (gr_Protocols rule)
  then Some (ENew "gateway port-forward protocol is unsupported")
  else None.

(** The loop over the ordered rules. *)
Fixpoint check_rules (seen : list string) (ordered : list GatewayRule) : option error :=
  match ordered with
  | [] => None
  | rule :: rest =>
      if contains_string seen (gr_LeaseUID rule) then Some (ENew "duplicate lease UID in atomic gateway rule set")
      else match validateGatewayRule rule with
           | Some e => Some e
           | None => check_rules (gr_LeaseUID rule :: seen) rest
           end
  end.

(** [strings.ToLower] on ASCII, which is all that validated protocols have. *)
Definition lower_ascii (c : Ascii.ascii) : Ascii.ascii :=
  let n := Ascii.N_of_ascii c in if (65 <=? n)%N && (n <=? 90)%N then Ascii.ascii_of_N (n + 32) else c.
Fixpoint ToLower (s : string) : string :=
  match s with "" => "" | String c s' => String (lower_ascii c) (ToLower s') end.

Definition marker_prefix (leaseUID : string) (generation : Z) : string :=
  "waycloak:" +:+ leaseUID +:+ ":" +:+ format_int generation +:+ ":".

Definition gatewayMarker (rule : GatewayRule) (protocol component : string) : string :=
  marker_prefix (gr_LeaseUID rule) (gr_HandoffGeneration rule) +:+ ToLower protocol +:+ ":" +:+ component.

Definition portBytes (port : Z) : list Z := be_bytes 2 port.

(** [netip.MustParseAddr] of a validated address. *)
Definition overlay_target (rule : GatewayRule) : Addr := default AddrZero (ParseAddr (gr_OverlayAddress rule)).

Definition transport_number (protocol : string) : Z := if String.eqb protocol ProtocolUDP then IPPROTO_UDP else IPPROTO_TCP.

(** ** The rules of one lease and protocol (addGatewayLeaseRules) *)

Section Rules.
Variable b : LinuxRuleBackend.

Definition arrives (name : string) : list nexpr := [Meta MetaKeyIIFNAME 1; CmpEq 1 (interfaceName name)].
Definition leaves (name : string) : list nexpr := [Meta MetaKeyOIFNAME 1; CmpEq 1 (interfaceName name)].
Definition carried_by (transport : Z) : list nexpr := [Meta MetaKeyL4PROTO 1; CmpEq 1 [transport]].
Definition to_port (port : Z) : list nexpr := [Payload 1 PayloadBaseTransportHeader 2 2; CmpEq 1 (portBytes port)].

Definition dnat_rule (rule : GatewayRule) (protocol : string) : nrule :=
  mkRule (gatewayMarker rule protocol "dnat")
    (arrives (lb_TunnelInterface b) ++ carried_by (transport_number protocol) ++ to_port (gr_IngressPort rule) ++
     [Immediate 1 (native32 PortForwardIngressMark); MetaSetMark 1; Immediate 1 (AsSlice (overlay_target rule));
      Immediate 2 (portBytes (gr_TargetPort rule)); DestNAT NFPROTO_IPV4 1 2]).

Definition forward_rule (rule : GatewayRule) (protocol : string) : nrule :=
  mkRule (gatewayMarker rule protocol "forward")
    (arrives (lb_TunnelInterface b) ++ leaves (lb_OverlayInterface b) ++ carried_by (transport_number protocol) ++
     [Payload 1 PayloadBaseNetworkHeader 16 4; CmpEq 1 (AsSlice (overlay_target rule))] ++ to_port (gr_TargetPort rule) ++
     [Verdict VerdictAccept]).

Definition snat_rule (rule : GatewayRule) (protocol : string) : nrule :=
  mkRule (gatewayMarker rule protocol "snat")
    (arrives (lb_OverlayInterface b) ++ leaves (lb_TunnelInterface b) ++
     [Payload 1 PayloadBaseNetworkHeader 12 4; CmpEq 1 (AsSlice (overlay_target rule))] ++
     carried_by (transport_number protocol) ++
     [Payload 1 PayloadBaseTransportHeader 0 2; CmpEq 1 (portBytes (gr_TargetPort rule));
      Immediate 1 (portBytes (gr_IngressPort rule)); Masq (Some 1)]).

Definition prerouting_chain : nchain :=
  mkChain "prerouting" ChainTypeNAT ChainHookPrerouting ChainPriorityNATDest None [].
Definition forward_chain : nchain :=
  mkChain "forward" ChainTypeFilter ChainHookForward ChainPriorityFilter None [].
Definition postrouting_chain : nchain :=
  mkChain "postrouting" ChainTypeNAT ChainHookPostrouting ChainPriorityNATSource None [].

(** The state match of tracked replies. *)
Definition tracked_exprs : list nexpr :=
  [CtState 1; Bitwise 1 1 [6; 0; 0; 0] [0; 0; 0; 0]; CmpNeq 1 [0; 0; 0; 0]; Verdict VerdictAccept].

Definition established_rule : nrule :=
  mkRule "waycloak:established-tunnel-return:accept"
    (arrives (lb_TunnelInterface b) ++ leaves (lb_OverlayInterface b) ++ tracked_exprs).
Definition unmatched_rule : nrule :=
  mkRule "waycloak:unmatched-tunnel:drop" (arrives (lb_TunnelInterface b) ++ [Verdict VerdictDrop]).

Definition addGatewayLeaseRules (rule : GatewayRule) (protocol : string) : list nftop :=
  [OpAddRule gatewayRuleTable "prerouting" (dnat_rule rule protocol);
   OpAddRule gatewayRuleTable "forward" (forward_rule rule protocol);
   OpAddRule gatewayRuleTable "postrouting" (snat_rule rule protocol)].

(** Every rule and protocol of the set, in order. *)
Definition pairs (rules : list GatewayRule) : list (GatewayRule * string) :=
  flat_map (fun rule => map (pair rule) (gr_Protocols rule)) rules.

Definition gateway_batch (present : bool) (ordered : list GatewayRule) : list nftop :=
  (if present then [OpDelTable gatewayRuleTable] else []) ++
  [OpAddTable gatewayRuleTable; OpAddChain gatewayRuleTable prerouting_chain;
   OpAddChain gatewayRuleTable forward_chain; OpAddChain gatewayRuleTable postrouting_chain] ++
  flat_map (fun rp => addGatewayLeaseRules rp.1 rp.2) (pairs ordered) ++
  [OpAddRule gatewayRuleTable "forward" established_rule; OpAddRule gatewayRuleTable "forward" unmatched_rule].

(** ** Operations *)

Definition Replace (rules : list GatewayRule) : IO NS unit :=
  match backend_validate b with
  | Some e => io_fail e
  | None =>
      let ordered := sort_by gr_LeaseUID rules in
      match check_rules [] ordered with
      | Some e => io_fail e
      | None =>
          tables ← io_wrap "list gateway nftables state" nft_ListTables;
          io_wrap "replace atomic gateway port-forward rules"
            (nft_Flush (gateway_batch (contains_string tables gatewayRuleTable) ordered))
      end
  end.

(** The loop over the chains of every table. *)
Fixpoint collect_markers (chains : list (string * nchain)) : IO NS (list string) :=
  match chains with
  | [] => mret []
  | (table, chain) :: rest =>
      if negb (String.eqb table gatewayRuleTable) then collect_markers rest
      else
        rules ← nft_GetRules gatewayRuleTable (ch_name chain);
        markers ← collect_markers rest;
        mret (map ru_userdata rules ++ markers)
  end.

Definition gatewayRuleMarkers : IO NS (list string) :=
  tables ← nft_ListTables;
  if negb (contains_string tables gatewayRuleTable) then mret []
  else chains ← nft_ListChains; collect_markers chains.

Definition rule_markers (rule : GatewayRule) : list string :=
  flat_map (fun protocol => map (gatewayMarker rule protocol) ["dnat"; "forward"; "snat"]) (gr_Protocols rule).

Definition Ready (rule : GatewayRule) : IO NS bool :=
  match backend_validate b with
  | Some e => io_fail e
  | None =>
      match validateGatewayRule rule with
      | Some e => io_fail e
      | None =>
          markers ← gatewayRuleMarkers;
          mret (forallb (contains_string markers) (rule_markers rule))
      end
  end.

Definition Withdrawn (leaseUID : string) (generation : Z) : IO NS bool :=
  markers ← gatewayRuleMarkers;
  mret (negb (existsb (fun marker => HasPrefix marker (marker_prefix leaseUID generation)) markers)).

End Rules.

(** ** The table as the kernel ends up with it *)

Section Table.
Variable b : LinuxRuleBackend.

Definition gateway_table (rules : list GatewayRule) : list nchain :=
  let ps := pairs rules in
  [with_rules prerouting_chain (map (fun rp => dnat_rule b rp.1 rp.2) ps);
   with_rules forward_chain (map (fun rp => forward_rule b rp.1 rp.2) ps ++ [established_rule b; unmatched_rule b]);
   with_rules postrouting_chain (map (fun rp => snat_rule b rp.1 rp.2) ps)].

Lemma lease_rules_apply ps tables pre fwd post :
  tables !! gatewayRuleTable =
    Some [with_rules prerouting_chain pre; with_rules forward_chain fwd; with_rules postrouting_chain post] ->
  apply_batch (flat_map (fun rp => addGatewayLeaseRules b rp.1 rp.2) ps) tables =
  Some (<[gatewayRuleTable :=
    [with_rules prerouting_chain (pre ++ map (fun rp => dnat_rule b rp.1 rp.2) ps);
     with_rules forward_chain (fwd ++ map (fun rp => forward_rule b rp.1 rp.2) ps);
     with_rules postrouting_chain (post ++ map (fun rp => snat_rule b rp.1 rp.2) ps)]]> tables).
Proof.
  revert tables pre fwd post. induction ps as [|[rule protocol] ps IH]; intros tables pre fwd post Ht.
  { cbn [flat_map map apply_batch]. rewrite !app_nil_r. by rewrite insert_id. }
  cbn [flat_map map addGatewayLeaseRules app apply_batch apply_op fst snd]. rewrite Ht.
  repeat (cbn [mbind option_bind append_rule ch_name with_rules prerouting_chain forward_chain postrouting_chain String.eqb
               Ascii.eqb Bool.eqb ch_type ch_hook ch_priority ch_policy ch_rules app]; rewrite ?lookup_insert_eq).
  rewrite !insert_insert_eq. erewrite IH; [|by rewrite lookup_insert_eq].
  rewrite insert_insert_eq, <- !app_assoc. done.
Qed.

Lemma gateway_batch_applies (tables : gmap string (list nchain)) rules present :
  (present = true <-> is_Some (tables !! gatewayRuleTable)) ->
  apply_batch (gateway_batch b present rules) tables = Some (<[gatewayRuleTable := gateway_table rules]> tables).
Proof.
  intros Hpresent. unfold gateway_batch. rewrite apply_batch_app.
  assert (apply_batch (if present then [OpDelTable gatewayRuleTable] else []) tables =
          Some (delete gatewayRuleTable tables)) as ->.
  { destruct present; cbn.
    - rewrite decide_True by (by apply Hpresent). done.
    - rewrite delete_id; [done|]. destruct (tables !! gatewayRuleTable) eqn:E; [|done].
      assert (false = true) by (apply Hpresent; eauto). done. }
  cbn [mbind option_bind]. rewrite apply_batch_app. cbn [apply_batch apply_op].
  repeat (rewrite ?lookup_delete_eq, ?lookup_insert_eq; cbn [mbind option_bind existsb app ch_name prerouting_chain
    forward_chain postrouting_chain String.eqb Ascii.eqb Bool.eqb orb]).
  rewrite !insert_insert_eq, insert_delete_eq, apply_batch_app.
  rewrite (lease_rules_apply (pairs rules) _ [] [] []) by (by rewrite lookup_insert_eq).
  cbn [mbind option_bind apply_batch apply_op app].
  repeat (rewrite ?lookup_insert_eq, ?insert_insert_eq; cbn [mbind option_bind append_rule with_rules ch_name prerouting_chain
    forward_chain postrouting_chain String.eqb Ascii.eqb Bool.eqb ch_type ch_hook ch_priority ch_policy ch_rules app]).
  unfold gateway_table. by rewrite <- app_assoc.
Qed.

(** The namespace holds the table of these rules, which the backend accepted;
    no table stands for no rules. *)
Definition installs (w : NS) (rules : list GatewayRule) : Prop :=
  (ns_tables w !! gatewayRuleTable = Some (gateway_table (sort_by gr_LeaseUID rules)) /\
   Forall (fun r => validateGatewayRule r = None) rules) \/
  ns_tables w !! gatewayRuleTable = None /\ rules = [].

End Table.

(** ** The backend as a rule backend *)

#[global] Instance Linux_RuleBackend (b : LinuxRuleBackend) : RuleBackend NS := {
  rules_Replace := Replace b;
  rules_Ready := Ready b;
  rules_Withdrawn := Withdrawn
}.

(** *** Markers *)

Lemma format_int_no_sep n : no_sep ":"%char (format_int n) = true.
Proof. unfold format_int. destruct (n <? 0); [rewrite no_sep_app|]; by rewrite no_sep_itoa. Qed.

Lemma format_int_inj m n : 0 <= m -> 0 <= n -> format_int m = format_int n -> m = n.
Proof.
  intros Hm Hn. unfold format_int. rewrite !(proj2 (Z.ltb_ge _ _)) by done. by apply itoa_inj.
Qed.

(** The last field after a separator is determined. *)
Lemma last_field_inj sep s t u v :
  no_sep sep u = true -> no_sep sep v = true -> s +:+ String sep u = t +:+ String sep v -> s = t /\ u = v.
Proof.
  intros Hu Hv. revert t. induction s as [|c s IH]; intros [|c' t]; cbn; intros [=]; subst; [done| | |].
  - rewrite no_sep_app in Hu. cbn in Hu. rewrite Ascii.eqb_refl in Hu. by destruct (no_sep _ t).
  - rewrite no_sep_app in Hv. cbn in Hv. rewrite Ascii.eqb_refl in Hv. by destruct (no_sep _ s).
  - destruct (IH t) as [-> ->]; done.
Qed.

Lemma string_app_assoc (a b c : string) : (a +:+ b) +:+ c = a +:+ (b +:+ c).
Proof. induction a as [|x a IH]; [done|]. exact (f_equal (String x) IH). Qed.

Lemma string_app_inj_l (a b c : string) : a +:+ b = a +:+ c -> b = c.
Proof. induction a as [|x a IH]; [done|]. cbn. intros [=]. auto. Qed.

Lemma marker_split u g p c :
  marker_prefix u g +:+ p +:+ ":" +:+ c =
  "waycloak:" +:+ (((u +:+ String ":" (format_int g)) +:+ String ":" p) +:+ String ":" c).
Proof. unfold marker_prefix. by rewrite !string_app_assoc. Qed.

(** A marker determines the lease and the generation, whatever characters the
    lease's identity has. *)
Lemma marker_fields u g u' g' p p' c c' :
  no_sep ":"%char p = true -> no_sep ":"%char p' = true -> no_sep ":"%char c = true -> no_sep ":"%char c' = true ->
  0 <= g -> 0 <= g' ->
  marker_prefix u g +:+ p +:+ ":" +:+ c = marker_prefix u' g' +:+ p' +:+ ":" +:+ c' -> u = u' /\ g = g'.
Proof.
  intros Hp Hp' Hc Hc' Hg Hg'. rewrite !marker_split. intros H%string_app_inj_l.
  apply last_field_inj in H as [H _]; [|done|done]. apply last_field_inj in H as [H _]; [|done|done].
  apply last_field_inj in H as [-> H]; [|apply format_int_no_sep..]. split; [done|]. by apply format_int_inj.
Qed.

Lemma marker_not_static u g p c v w :
  no_sep ":"%char p = true -> no_sep ":"%char c = true -> no_sep ":"%char v = true -> no_sep ":"%char w = true ->
  marker_prefix u g +:+ p +:+ ":" +:+ c <> "waycloak:" +:+ v +:+ String ":" w.
Proof.
  intros Hp Hc Hv Hw. rewrite marker_split. intros H%string_app_inj_l.
  apply last_field_inj in H as [H _]; [|done|done].
  assert (no_sep ":"%char v = false) as Hv'; [|congruence].
  rewrite <- H, no_sep_app. cbn. by rewrite andb_false_r.
Qed.

(** *** The laws *)

Lemma check_rules_valid seen rules :
  check_rules seen rules = None -> Forall (fun r => validateGatewayRule r = None) rules.
Proof.
  revert seen. induction rules as [|r rules IH]; intros seen; cbn; [by constructor|].
  destruct (contains_string _ _); [done|]. destruct (validateGatewayRule r) eqn:Hr; [done|]. intros H.
  constructor; [done|by eapply IH].
Qed.

Lemma valid_rule_spec r :
  validateGatewayRule r = None ->
  1 <= gr_HandoffGeneration r /\ gr_IngressPort r <> 0 /\ gr_TargetPort r <> 0 /\
  (exists v, ParseAddr (gr_OverlayAddress r) = Some (Addr4 v)) /\
  gr_Protocols r <> [] /\ Forall (fun p => p ∈ [ProtocolTCP; ProtocolUDP]) (gr_Protocols r).
Proof.
  unfold validateGatewayRule. destruct (str_empty _); [done|]. cbn [orb].
  destruct (Z.ltb_spec (gr_HandoffGeneration r) 1); [done|]. cbn [orb].
  destruct (Z.eqb_spec (gr_IngressPort r) 0); [done|]. cbn [orb].
  destruct (Z.eqb_spec (gr_TargetPort r) 0); [done|]. cbn [orb].
  destruct (ParseAddr (gr_OverlayAddress r)) as [[| v| |]|]; try done. cbn [negb Addr_Is4 orb].
  destruct (Z.eqb_spec (Z.of_nat (length (gr_Protocols r))) 0) as [|Hl]; [done|].
  destruct (existsb _ (gr_Protocols r)) eqn:He; [done|]. intros _. split_and!; [done|done|done|eauto| |].
  - by intros Hn; rewrite Hn in Hl.
  - apply Forall_forall. intros p Hp. assert (negb (String.eqb p ProtocolTCP) && negb (String.eqb p ProtocolUDP) = false) as Hf.
    { destruct (_ && _) eqn:Hf; [|done]. rewrite <- He. symmetry. apply existsb_exists. exists p. split; [by apply list_elem_of_In|done]. }
    apply andb_false_iff in Hf as [Hf|Hf]; apply negb_false_iff, String.eqb_eq in Hf; subst p; set_solver.
Qed.

Lemma Replace_spec b rules w :
  wp (Replace b rules) (fun r w' => match r with Ok _ => installs b w' rules | Fail _ => ns_tables w' = ns_tables w end /\
    forall name, name <> gatewayRuleTable -> ns_tables w' !! name = ns_tables w !! name) w.
Proof.
  unfold Replace. destruct (backend_validate b); [by wp_step|]. destruct (check_rules _ _) eqn:Hcheck; [by wp_step|].
  unfold nft_ListTables, nft_Flush. do 2 wp_step. apply wp_kcall; [|intros w0 Ht; cbn; by rewrite Ht].
  intros w0 Ht. unfold wp at 1. cbn [fst snd after]. wp_step. apply wp_kcall; [|intros w1 Ht1; cbn; by rewrite Ht1, Ht].
  intros w1 Ht1. unfold wp. rewrite Ht1, gateway_batch_applies.
  - cbn. split; [|intros name Hname; by rewrite lookup_insert_ne, Ht].
    left. cbn. rewrite lookup_insert_eq. split; [done|]. apply check_rules_valid in Hcheck. by rewrite sort_by_perm in Hcheck.
  - rewrite contains_string_spec. setoid_rewrite list_elem_of_fmap. split.
    + intros ([n t] & Hn & Hin%elem_of_map_to_list). cbn in Hn. subst. eauto.
    + intros [t Hin]. exists (gatewayRuleTable, t). split; [done|]. by apply elem_of_map_to_list.
Qed.

(** A marker of a rule in the table. *)
Definition table_marker (tables : gmap string (list nchain)) (m : string) : Prop :=
  exists t c r, tables !! gatewayRuleTable = Some t /\ c ∈ t /\ r ∈ ch_rules c /\ ru_userdata r = m.

Definition reads_markers (tables : gmap string (list nchain)) (r : res (list string)) (w : NS) : Prop :=
  ns_tables w = tables /\ forall ms, r = Ok ms -> forall m, m ∈ ms -> table_marker tables m.

Lemma GetRules_spec chain w :
  wp (nft_GetRules gatewayRuleTable chain)
     (fun r w' => ns_tables w' = ns_tables w /\
        forall rules, r = Ok rules -> forall rule, rule ∈ rules -> table_marker (ns_tables w) (ru_userdata rule)) w.
Proof.
  unfold nft_GetRules. apply wp_kcall; [|by intros w0 Ht]. intros w0 Ht. unfold wp. cbn. split; [done|].
  intros rules [= <-] rule. rewrite Ht. destruct (ns_tables w !! gatewayRuleTable) as [t|] eqn:E; [|by intros ?%elem_of_nil].
  destruct (List.find _ t) as [c|] eqn:Ef; [|by intros ?%elem_of_nil]. apply List.find_some in Ef as [Hc%list_elem_of_In _].
  intros Hr. exists t, c, rule. by split_and!.
Qed.

Lemma collect_markers_spec chains w : wp (collect_markers chains) (reads_markers (ns_tables w)) w.
Proof.
  revert w. induction chains as [|[table chain] chains IH]; intros w; cbn [collect_markers].
  { wp_step. split; [done|]. intros ms [= <-] m Hm. by apply elem_of_nil in Hm. }
  destruct (negb _); [apply IH|]. wp_step. wp_with GetRules_spec. intros [rules|e] w1 [Ht1 Hrules]; cbn [after]; [|by split].
  wp_step. wp_with IH. intros [ms|e] w2 [Ht2 Hms]; cbn [after]; [|by split; [congruence|]]. wp_step.
  split; [congruence|]. intros ms' [= <-] m [Hm|Hm]%elem_of_app.
  - apply list_elem_of_fmap in Hm as (rule & -> & Hr). by eapply Hrules.
  - rewrite <- Ht1. by eapply Hms.
Qed.

Lemma gatewayRuleMarkers_spec w : wp gatewayRuleMarkers (reads_markers (ns_tables w)) w.
Proof.
  unfold gatewayRuleMarkers. wp_step. unfold nft_ListTables. apply wp_kcall; [|by intros w0 Ht].
  intros w0 Ht. unfold wp at 1. cbn [fst snd after]. destruct (negb _).
  { wp_step. split; [done|]. intros ms [= <-] m Hm. by apply elem_of_nil in Hm. }
  wp_step. unfold nft_ListChains. apply wp_kcall; [|intros w1 Ht1; cbn; by split; [congruence|]].
  intros w1 Ht1. unfold wp at 1. cbn [fst snd after]. rewrite <- Ht, <- Ht1. apply collect_markers_spec.
Qed.

(** A marker of the table with a lease's shape is that of one of its rules. *)
Lemma table_marker_rule b rules tables u g p c :
  tables !! gatewayRuleTable = Some (gateway_table b rules) ->
  Forall (fun r => 0 <= gr_HandoffGeneration r /\ Forall (fun p => p ∈ [ProtocolTCP; ProtocolUDP]) (gr_Protocols r)) rules ->
  no_sep ":"%char p = true -> no_sep ":"%char c = true -> 0 <= g ->
  table_marker tables (marker_prefix u g +:+ p +:+ ":" +:+ c) ->
  exists r, r ∈ rules /\ gr_LeaseUID r = u /\ gr_HandoffGeneration r = g.
Proof.
  intros Ht Hrules Hp Hc Hg (t & ch & rule & Ht' & Hch & Hrule & Hm). rewrite Ht in Ht'. injection Ht' as <-.
  assert (forall rp component, rp ∈ pairs rules -> no_sep ":"%char component = true ->
    gatewayMarker rp.1 rp.2 component = marker_prefix u g +:+ p +:+ ":" +:+ c ->
    exists r, r ∈ rules /\ gr_LeaseUID r = u /\ gr_HandoffGeneration r = g) as Hown.
  { intros [r protocol] component Hin Hcomp Heq. cbn in Heq. apply list_elem_of_In, in_flat_map in Hin as (r' & Hr' & Hin).
    apply in_map_iff in Hin as (p' & [= <- <-] & Hp'). apply list_elem_of_In in Hr', Hp'.
    rewrite Forall_forall in Hrules. destruct (Hrules r' Hr') as [Hg' Hps]. rewrite Forall_forall in Hps.
    specialize (Hps _ Hp'). unfold gatewayMarker in Heq. apply marker_fields in Heq as [Hu Hgen]; eauto.
    apply list_elem_of_In in Hps as [<-|[<-|[]]]; done. }
  unfold gateway_table in Hch. cbv zeta in Hch.
  repeat (apply elem_of_cons in Hch as [->|Hch]); [| | |by apply elem_of_nil in Hch]; cbn [ch_rules with_rules] in Hrule.
  - apply list_elem_of_fmap in Hrule as (rp & -> & Hrp). by apply (Hown rp "dnat").
  - apply elem_of_app in Hrule as [Hrule|Hrule].
    + apply list_elem_of_fmap in Hrule as (rp & -> & Hrp). by apply (Hown rp "forward").
    + apply list_elem_of_In in Hrule as [<-|[<-|[]]]; exfalso; symmetry in Hm; revert Hm.
      * by apply (marker_not_static u g p c "established-tunnel-return" "accept").
      * by apply (marker_not_static u g p c "unmatched-tunnel" "drop").
  - apply list_elem_of_fmap in Hrule as (rp & -> & Hrp). by apply (Hown rp "snat").
Qed.

Lemma Ready_spec b rule w :
  wp (Ready b rule) (fun r w' => ns_tables w' = ns_tables w /\
    (r = Ok true -> forall rs, installs b w rs ->
       exists r', r' ∈ rs /\ gr_LeaseUID r' = gr_LeaseUID rule /\ gr_HandoffGeneration r' = gr_HandoffGeneration rule)) w.
Proof.
  unfold Ready. destruct (backend_validate b); [by wp_step|]. destruct (validateGatewayRule rule) eqn:Hrule; [by wp_step|].
  wp_step. wp_with gatewayRuleMarkers_spec. intros [ms|e] w' [Ht Hms]; cbn [after]; [|done]. wp_step. split; [done|].
  intros [= Hall] rs Hrs. specialize (Hms ms eq_refl). apply valid_rule_spec in Hrule as (Hg & _ & _ & _ & Hne & Hps).
  destruct (gr_Protocols rule) as [|p ps] eqn:Hp; [done|]. apply Forall_cons_1 in Hps as [Hps _].
  rewrite forallb_forall in Hall. assert (table_marker (ns_tables w) (gatewayMarker rule p "dnat")) as Hm.
  { apply Hms, contains_string_spec, Hall. unfold rule_markers. rewrite Hp. cbn. by left. }
  destruct Hrs as [[Htable Hvalid]|[Hnone ->]].
  - eapply table_marker_rule in Hm as (r' & Hr' & Hu & Hgen); [|exact Htable| | |done|lia].
    + exists r'. rewrite sort_by_perm in Hr'. by split_and!.
    + rewrite sort_by_perm. eapply Forall_impl; [exact Hvalid|]. intros r (Hr & _ & _ & _ & _ & Hps')%valid_rule_spec.
      split; [lia|done].
    + by apply list_elem_of_In in Hps as [<-|[<-|[]]].
  - destruct Hm as (t & c & r & Ht' & _). congruence.
Qed.

Lemma Withdrawn_spec uid generation w : wp (Withdrawn uid generation) (fun r w' => ns_tables w' = ns_tables w) w.
Proof.
  unfold Withdrawn. wp_step. wp_with gatewayRuleMarkers_spec. intros [ms|e] w' [Ht _]; cbn [after]; [by wp_step|done].
Qed.

Lemma installs_tables b w w' rs : ns_tables w' = ns_tables w -> installs b w rs -> installs b w' rs.
Proof. unfold installs. by intros ->. Qed.

#[global] Instance Linux_GatewayRules b :
  GatewayRules NS (H := Linux_RuleBackend b) (installs b).
Proof.
  split.
  - intros rules w w' E. exact (proj1 (wp_elim _ _ _ _ _ (Replace_spec b rules w) E)).
  - intros rules w e w' rs E. apply installs_tables. exact (proj1 (wp_elim _ _ _ _ _ (Replace_spec b rules w) E)).
  - intros rule w rs. apply installs_tables, (Ready_spec b rule w).
  - intros uid generation w rs. apply installs_tables, (Withdrawn_spec uid generation w).
  - intros rule w w' rs E. exact (proj2 (wp_elim _ _ _ _ _ (Ready_spec b rule w) E) eq_refl rs).
Qed.

(** ** What the table does to packets *)

Definition arrives_by (p : packet) (name : string) : bool := bool_decide (interfaceName (pk_iif p) = interfaceName name).
Definition tracked (p : packet) : bool := negb (Z.land (pk_ctstate p) CtStateTracked =? 0).

Lemma eval_arrives name es rs p :
  eval_exprs (arrives name ++ es) rs p =
  if arrives_by p name then eval_exprs es (set_reg 1 (interfaceName (pk_iif p)) rs) p else None.
Proof. unfold arrives. cbn [app]. by rewrite eval_meta_cmp by (cbn; by rewrite !interfaceName_length). Qed.

Lemma eval_leaves name es rs p :
  eval_exprs (leaves name ++ es) rs p =
  if leaves_by p name then eval_exprs es (set_reg 1 (interfaceName (pk_oif p)) rs) p else None.
Proof. unfold leaves. cbn [app]. by rewrite eval_meta_cmp by (cbn; by rewrite !interfaceName_length). Qed.

(** The destination match of an IPv4 table. *)
Lemma eval_dest4 v es rs p :
  well_formed p -> pk_nfproto p = NFPROTO_IPV4 -> 0 <= v < 2 ^ 32 ->
  eval_exprs (Payload 1 PayloadBaseNetworkHeader 16 4 :: CmpEq 1 (be_bytes 4 v) :: es) rs p =
  if bool_decide (destination p = Some (Addr4 v)) then eval_exprs es (set_reg 1 (dest_slice false p) rs) p else None.
Proof.
  intros Hwf Hf Hv. cbn [eval_exprs header]. change (Z.to_nat 4) with 4%nat. change (Z.to_nat 16) with 16%nat.
  unfold destination. rewrite Hf. change (NFPROTO_IPV4 =? NFPROTO_IPV4) with true. cbv zeta iota.
  unfold dest_slice. set (l := take 4 (drop 16 (pk_network p))).
  assert (Forall is_byte l) as Hl by (destruct Hwf; by apply Forall_take, Forall_drop).
  destruct (Nat.eqb_spec (length l) 4) as [Hlen|Hlen].
  - rewrite Hlen. change (Z.of_nat 4 =? 4) with true. unfold set_reg at 1. cbn [Z.eqb Pos.eqb].
    rewrite be_bytes_length, (take_ge l 4) by lia. pose proof (be_bytes_eq 4 l v Hl Hlen Hv) as Heq.
    assert (bytes_eqb l (be_bytes 4 v) = bool_decide (Some (Addr4 (be_value l)) = Some (Addr4 v))) as ->; [|done].
    apply bool_decide_ext. rewrite Heq. split; [by intros ->|by intros [=]].
  - destruct (Z.eqb_spec (Z.of_nat (length l)) 4); [lia|]. by rewrite bool_decide_false.
Qed.

Lemma eval_tracked rs p :
  0 <= pk_ctstate p < 2 ^ 32 ->
  eval_exprs tracked_exprs rs p = if tracked p then Some (Decided VerdictAccept) else None.
Proof.
  intros Hct. unfold tracked_exprs. cbn [eval_exprs length]. unfold set_reg. cbn [Z.eqb Pos.eqb].
  set (c := pk_ctstate p) in *.
  assert (bytes_eqb (take 4 (zip_with Z.lxor (zip_with Z.land (native32 c) [6; 0; 0; 0]) [0; 0; 0; 0])) [0; 0; 0; 0]
          = (Z.land c CtStateTracked =? 0)) as ->; [|unfold tracked; fold c; by destruct (_ =? 0)].
  unfold native32. cbn [be_bytes rev app zip_with take]. rewrite !Z.land_0_r, !Z.lxor_0_r.
  assert (Z.land (Z.shiftr c (8 * Z.of_nat 0) `mod` 256) 6 = Z.land c CtStateTracked) as ->.
  { change (8 * Z.of_nat 0) with 0. rewrite Z.shiftr_0_r. change 256 with (2 ^ 8). rewrite <- Z.land_ones by lia.
    rewrite <- Z.land_assoc. done. }
  unfold bytes_eqb. case_bool_decide as Hb; symmetry; [apply Z.eqb_eq|apply Z.eqb_neq]; congruence.
Qed.

(** The value of a port as a uint16, which the source's types make it. *)
Definition u16 (port : Z) : Z := port `mod` 2 ^ 16.

Lemma portBytes_u16 port : portBytes port = be_bytes 2 (u16 port).
Proof.
  unfold portBytes, u16. cbn [be_bytes]. change (8 * Z.of_nat 1) with 8. change (8 * Z.of_nat 0) with 0.
  rewrite !Z.shiftr_div_pow2, !Z.pow_0_r, !Z.div_1_r by lia. change (2 ^ 16) with 65536. change (2 ^ 8) with 256.
  f_equal; [|f_equal]; Z.to_euclidean_division_equations; lia.
Qed.

Lemma u16_range port : 0 <= u16 port < 2 ^ 16.
Proof. apply Z.mod_pos_bound. lia. Qed.

(** A packet of an IPv4 table, as connection tracking hands it on. *)
Definition ipv4_packet (p : packet) : Prop :=
  well_formed p /\ pk_nfproto p = NFPROTO_IPV4 /\ (20 <= length (pk_network p))%nat /\ (4 <= length (pk_transport p))%nat /\
  0 <= pk_ctstate p < 2 ^ 32.

Section Packets.
Variable b : LinuxRuleBackend.

(** The packet arrives from the tunnel for the public port of the lease. *)
Definition ingress_match (p : packet) (rp : GatewayRule * string) : bool :=
  arrives_by p (lb_TunnelInterface b) && (pk_l4proto p =? transport_number rp.2) &&
  bool_decide (destination_port p = Some (u16 (gr_IngressPort rp.1))).

(** The packet is for the lease's target. *)
Definition target_match (p : packet) (rp : GatewayRule * string) : bool :=
  (pk_l4proto p =? transport_number rp.2) && bool_decide (destination p = Some (overlay_target rp.1)) &&
  bool_decide (destination_port p = Some (u16 (gr_TargetPort rp.1))).

(** What becomes of a packet of a lease. *)
Definition delivered_to (rp : GatewayRule * string) (p : packet) : packet :=
  rewrite_destination (AsSlice (overlay_target rp.1)) (portBytes (gr_TargetPort rp.1))
    (set_mark (native32 PortForwardIngressMark) p).

Lemma dnat_effect rp p :
  well_formed p ->
  eval_rule (dnat_rule b rp.1 rp.2) p =
    (if ingress_match p rp then Some (Rewritten (AsSlice (overlay_target rp.1)) (portBytes (gr_TargetPort rp.1))) else None) /\
  mark_exprs (ru_exprs (dnat_rule b rp.1 rp.2)) no_regs p =
    (if ingress_match p rp then set_mark (native32 PortForwardIngressMark) p else p).
Proof.
  intros Hwf. unfold eval_rule, dnat_rule. cbn [ru_exprs]. rewrite !app_assoc.
  set (es := (arrives _ ++ carried_by _) ++ to_port _).
  assert (match match_exprs es no_regs p with Some _ => ingress_match p rp = true | None => ingress_match p rp = false end) as Hm.
  { apply match_decides; [done|]. unfold es. rewrite <- !app_assoc, eval_arrives. unfold carried_by, to_port. cbn [app].
    unfold ingress_match. destruct (arrives_by p _); [|done]. rewrite eval_proto. cbn [andb].
    destruct (pk_l4proto p =? _); [|done]. rewrite portBytes_u16, eval_port by (done || apply u16_range). cbn [andb]. by destruct (bool_decide _). }
  rewrite eval_after_match, mark_after_match by done. by destruct (match_exprs es no_regs p), (ingress_match p rp).
Qed.

(** Translation sends a packet to the first lease with its port. *)
Lemma prerouting_effect ps p :
  well_formed p ->
  translate (map (fun rp => dnat_rule b rp.1 rp.2) ps) p =
  match List.find (ingress_match p) ps with Some rp => delivered_to rp p | None => p end.
Proof.
  intros Hwf. induction ps as [|rp ps IH]; [done|]. cbn [map translate List.find].
  destruct (dnat_effect rp p Hwf) as [-> ->]. by destruct (ingress_match p rp).
Qed.

Lemma forward_effect rp p v :
  ipv4_packet p -> overlay_target rp.1 = Addr4 v -> 0 <= v < 2 ^ 32 ->
  eval_rule (forward_rule b rp.1 rp.2) p =
  if arrives_by p (lb_TunnelInterface b) && leaves_by p (lb_OverlayInterface b) && target_match p rp
  then Some (Decided VerdictAccept) else None.
Proof.
  intros (Hwf & Hf & _) Ht Hv. unfold eval_rule, forward_rule, target_match. cbn [ru_exprs].
  rewrite eval_arrives. destruct (arrives_by p _); [|done]. rewrite eval_leaves. cbn [andb].
  destruct (leaves_by p _); [|done]. unfold carried_by, to_port. cbn [app]. rewrite eval_proto. cbn [andb].
  destruct (pk_l4proto p =? _); [|done]. rewrite Ht. cbn [AsSlice]. rewrite eval_dest4 by done. cbn [andb].
  destruct (bool_decide (destination p = _)); [|done]. rewrite portBytes_u16, eval_port by (done || apply u16_range). cbn [andb]. by destruct (bool_decide _).
Qed.

Definition valid_rule (r : GatewayRule) : Prop := validateGatewayRule r = None.

Lemma valid_target r : valid_rule r -> exists v, overlay_target r = Addr4 v /\ 0 <= v < 2 ^ 32.
Proof.
  intros (_ & _ & _ & [v Hv] & _)%valid_rule_spec. exists v. unfold overlay_target. rewrite Hv. split; [done|].
  by eapply ParseAddr_range.
Qed.

Lemma pairs_valid rules : Forall valid_rule rules -> Forall (fun rp => valid_rule rp.1) (pairs rules).
Proof.
  rewrite !Forall_forall. intros Hrules [r protocol] Hin. apply list_elem_of_In, in_flat_map in Hin as (r' & Hr' & Hin).
  apply in_map_iff in Hin as (p' & [= <- <-] & _). cbn. apply Hrules. by apply list_elem_of_In.
Qed.

(** The forward chain: from the tunnel only what is for a lease's target, or
    belongs to a tracked connection, and only to the overlay. *)
Definition forward_allowed (ps : list (GatewayRule * string)) (p : packet) : bool :=
  if arrives_by p (lb_TunnelInterface b)
  then leaves_by p (lb_OverlayInterface b) && (existsb (target_match p) ps || tracked p) else true.

Lemma forward_chain_exact ps p :
  ipv4_packet p -> Forall (fun rp => valid_rule rp.1) ps ->
  chain_accepts (with_rules forward_chain (map (fun rp => forward_rule b rp.1 rp.2) ps ++ [established_rule b; unmatched_rule b])) p =
  forward_allowed ps p.
Proof.
  intros Hp Hps. unfold chain_accepts, forward_allowed. cbn [ch_rules with_rules ch_policy forward_chain].
  rewrite eval_rules_app.
  assert (eval_rules (map (fun rp => forward_rule b rp.1 rp.2) ps) p =
    if arrives_by p (lb_TunnelInterface b) && leaves_by p (lb_OverlayInterface b) && existsb (target_match p) ps
    then Some (Decided VerdictAccept) else None) as ->.
  { induction Hps as [|rp ps Hrp Hps IH]; [by rewrite andb_false_r|]. cbn [map eval_rules existsb].
    destruct (valid_target _ Hrp) as (v & Ht & Hv). rewrite (forward_effect rp p v) by done.
    rewrite IH. by destruct (arrives_by p _), (leaves_by p _), (target_match p rp). }
  cbn [eval_rules]. unfold eval_rule at 1 2. unfold established_rule, unmatched_rule. cbn [ru_exprs].
  rewrite !eval_arrives. destruct (arrives_by p _); [|done]. rewrite eval_leaves. cbn [andb].
  destruct (leaves_by p _); [|done]. cbn [andb]. rewrite eval_tracked by apply Hp.
  by destruct (existsb _ ps), (tracked p).
Qed.

End Packets.
