(* ===== verification/PortTransport.v ===== *)
(** * The gateway runtime protocol (internal/portforward/transport.go)

    The controller reaches the runtime manager of a gateway over HTTPS: a router
    derives the Service of the gateway, a client sends the intent as JSON under a
    path that names the lease, and the handler of the gateway checks the path
    and the gateway before it calls the manager.  TLS, its certificates and the
    log are outside the model; the check of the peer's identity is in it. *)

From Stdlib Require Import Ascii.
From S2P Require Import Prelude Sha256 Netip Api Kube Http PortRuntime PortManager.

Definition runtimePathPrefix : string := "/port-forward-runtime.waycloak.io/v1/leases/".
Definition runtimeBodyLimit : Z := 64 * 1024.

(** ** Failures *)

Definition AdapterFailureConflict : string := "conflict".
Definition AdapterFailureUnavailable : string := "unavailable".

Definition adapter_failed : string := "application adapter request failed: kind=".
Definition AdapterRequestError (kind : string) (status : Z) : error :=
  ESentinel (adapter_failed +:+ kind +:+ " status=" +:+ itoa status).
Definition RuntimeRequestError (kind : string) (status : Z) : error :=
  ESentinel ("gateway runtime request failed: kind=" +:+ kind +:+ " status=" +:+ itoa status).

(** [errors.As] for an [AdapterRequestError] of either kind: the first in the
    wrap tree, depth first. *)
Fixpoint adapterError_kind (e : error) : option string :=
  match e with
  | ESentinel n =>
      List.find (fun kind => HasPrefix n (adapter_failed +:+ kind +:+ " ")) [AdapterFailureUnavailable; AdapterFailureConflict]
  | EWrap _ es =>
      (fix first (l : list error) : option string :=
         match l with
         | [] => None
         | e' :: l' => match adapterError_kind e' with Some k => Some k | None => first l' end
         end) es
  | _ => None
  end.

Definition failure_kind (status : Z) : string :=
  if status =? StatusConflict then AdapterFailureConflict else AdapterFailureUnavailable.

(** ** Paths and Services *)

(** The paths of both protocols are those of a lease and an operation on it
    under the prefix of the protocol. *)
Definition lease_path (prefix uid operation : string) : string :=
  let path := prefix +:+ PathEscape uid in
  if str_empty operation then path else path +:+ "/" +:+ operation.
Definition runtimePath : string -> string -> string := lease_path runtimePathPrefix.

(** The lease and the operation in a URL's [EscapedPath]. *)
Definition parse_lease_path (prefix escaped : string) : option (string * string) :=
  if negb (HasPrefix escaped prefix) then None
  else
    let remainder := drop_string (String.length prefix) escaped in
    let uid first operation :=
      match PathUnescape first with
      | Some leaseUID =>
          if str_empty leaseUID || existsb (Ascii.eqb "/") (String.list_ascii_of_string leaseUID) ||
             (128 <? Z.of_nat (String.length leaseUID))
          then None else Some (leaseUID, operation)
      | None => None
      end in
    match split_on "/"%char remainder with
    | [first] => if str_empty first then None else uid first ""
    | [first; operation] =>
        if str_empty first then None
        else match uid first operation with
             | Some parsed => if String.eqb operation "withdraw" then Some parsed else None
             | None => None
             end
    | _ => None
    end.

(** [parseRuntimePath] on a URL's [RawQuery] and [EscapedPath]. *)
Definition parseRuntimePath (rawQuery escaped : string) : option (string * string) :=
  if negb (str_empty rawQuery) then None else parse_lease_path runtimePathPrefix escaped.

(** The Service name that a digest of the object's name makes. *)
Definition digest_name (prefix namespace name : string) : string :=
  prefix +:+ EncodeToString (take 8 (Sum256 (bytes_of_string (namespace +:+ "/" +:+ name)))).

Definition GatewayRuntimeServiceName (namespace name : string) : string := digest_name "waycloak-gateway-" namespace name.

Definition gatewayRuntimeEndpoint (namespace name : string) (port : Z) : string :=
  GatewayRuntimeServiceName namespace name +:+ "." +:+ namespace +:+ ".svc:" +:+ itoa port.

(** ** The client *)

Record RuntimeRouter := mkRuntimeRouter {
  rr_Client : bool;    (** an HTTP client is configured *)
  rr_Port : Z
}.

Section Client.
Context {W : Type} `{HttpClient W} `{Json Intent} `{Json WithdrawalIntent} `{Json Observation}.

(** [RuntimeClient.call], for the origin of a gateway. *)
Definition runtime_call {T} `{Json T} (host method path : string) (input : T) : IO W Observation :=
  match Marshal input with
  | None => io_fail (ENew "gateway runtime request is invalid")
  | Some body =>
      if runtimeBodyLimit <? Z.of_nat (String.length body) then io_fail (ENew "gateway runtime request is invalid")
      else
        response ← io_wrap "call gateway runtime"
          (http_Do (mkHttpRequest method host (escape encodePath path) "" "application/json" body));
        responseBody ← io_lift (readBounded (rs_Body response) runtimeBodyLimit);
        if negb (rs_StatusCode response =? StatusOK)
        then io_fail (RuntimeRequestError (failure_kind (rs_StatusCode response)) (rs_StatusCode response))
        else io_wrap "decode gateway runtime observation" (io_lift (decodeStrict responseBody))
  end.

Definition client_Reconcile (host : string) (gateway : ObjectMeta) (intent : Intent) : IO W Observation :=
  if negb (String.eqb (in_GatewayUID intent) (UID gateway)) then io_fail (ENew "exact gateway identity is required")
  else runtime_call host MethodPut (runtimePath (in_LeaseUID intent) "") intent.

Definition client_Withdraw (host : string) (gateway : ObjectMeta) (intent : WithdrawalIntent) : IO W Observation :=
  if negb (String.eqb (wi_GatewayUID intent) (UID gateway)) then io_fail (ENew "exact gateway identity is required")
  else runtime_call host MethodPost (runtimePath (wi_LeaseUID intent) "withdraw") intent.

Definition clientFor (r : RuntimeRouter) (gateway : ObjectMeta) : res string :=
  if negb (rr_Client r) || (rr_Port r =? 0) || str_empty (Namespace gateway) || str_empty (Name gateway) || str_empty (UID gateway)
  then Fail (ENew "exact gateway runtime Service identity is required")
  else Ok (gatewayRuntimeEndpoint (Namespace gateway) (Name gateway) (rr_Port r)).

Definition router_Reconcile (r : RuntimeRouter) (gateway : ObjectMeta) (intent : Intent) : IO W Observation :=
  host ← io_lift (clientFor r gateway); client_Reconcile host gateway intent.
Definition router_Withdraw (r : RuntimeRouter) (gateway : ObjectMeta) (intent : WithdrawalIntent) : IO W Observation :=
  host ← io_lift (clientFor r gateway); client_Withdraw host gateway intent.

(** The runtime that the lease controller is given. *)
Definition RuntimeRouter_Runtime (r : RuntimeRouter) : Runtime W := {|
  rt_Reconcile := router_Reconcile r;
  rt_Withdraw := router_Withdraw r;
  rt_Quarantine _ _ _ := mret tt
|}.

End Client.

(** ** The handler *)

Record RuntimeHandler := mkRuntimeHandler {
  rh_Manager : bool;       (** a manager is configured *)
  rh_GatewayUID : string
}.

Definition error_body : string :=
  let q := String "034"%char "" in
  "{" +:+ q +:+ "apiVersion" +:+ q +:+ ":" +:+ q +:+ "port-forward-runtime.waycloak.io/v1" +:+ q +:+ "," +:+
  q +:+ "error" +:+ q +:+ ":" +:+ q +:+ "request rejected" +:+ q +:+ "}".
Definition writeRuntimeError (status : Z) : HttpResponse := mkHttpResponse status error_body.

(** [json.Encoder.Encode] ends a value with a newline and writes nothing where
    it cannot encode. *)
Definition encoded {T} `{Json T} (x : T) : string :=
  match Marshal x with Some s => s +:+ String "010"%char "" | None => "" end.

(** The answer to the outcome of the manager. *)
Definition runtime_reply `{Json Observation} (answer : Observation * option error) : HttpResponse :=
  match answer.2 with
  | Some err => writeRuntimeError
      (if bool_decide (adapterError_kind err = Some AdapterFailureUnavailable) then StatusServiceUnavailable else StatusConflict)
  | None => mkHttpResponse StatusOK (encoded answer.1)
  end.

Definition gateway_with_uid (uid : string) : ObjectMeta := mkObjectMeta "" "" uid 0 None ∅ ∅ [] [].

Section Handler.
Context {W : Type} `{PortForwardCapability W} `{RuleBackend W} `{DeliveryBackend W} `{Clock W}.
Context `{Json Intent} `{Json WithdrawalIntent} `{Json Observation}.

Notation M A := (IO (lease_states * W) A).

(** [ServeHTTP].  A path that does not parse is answered by the server itself,
    with the status of a bad request. *)
Definition ServeHTTP (h : RuntimeHandler) (request : HttpRequest) : M HttpResponse :=
  let refuse status := mret (writeRuntimeError status) in
  match received_EscapedPath (rq_Path request) with
  | None => refuse StatusBadRequest
  | Some escaped =>
      if negb (rh_Manager h) || str_empty (rh_GatewayUID h) || negb (String.eqb (rq_ContentType request) "application/json")
      then refuse StatusBadRequest
      else
        match parseRuntimePath (rq_RawQuery request) escaped with
        | None => refuse StatusNotFound
        | Some (leaseUID, operation) =>
            match readBounded (rq_Body request) runtimeBodyLimit with
            | Fail _ => refuse StatusRequestEntityTooLarge
            | Ok body =>
                let gateway := gateway_with_uid (rh_GatewayUID h) in
                let exact uid gatewayUID := String.eqb uid leaseUID && String.eqb gatewayUID (rh_GatewayUID h) in
                if str_empty operation && String.eqb (rq_Method request) MethodPut then
                  match decodeStrict (T := Intent) body with
                  | Ok intent =>
                      if exact (in_LeaseUID intent) (in_GatewayUID intent)
                      then answer ← Reconcile gateway intent; mret (runtime_reply answer)
                      else refuse StatusBadRequest
                  | Fail _ => refuse StatusBadRequest
                  end
                else if String.eqb operation "withdraw" && String.eqb (rq_Method request) MethodPost then
                  match decodeStrict (T := WithdrawalIntent) body with
                  | Ok intent =>
                      if exact (wi_LeaseUID intent) (wi_GatewayUID intent)
                      then answer ← Withdraw gateway intent; mret (runtime_reply answer)
                      else refuse StatusBadRequest
                  | Fail _ => refuse StatusBadRequest
                  end
                else refuse StatusMethodNotAllowed
            end
        end
  end.

End Handler.

(** ** Peer identities *)

(** The identity a server expects: the text of a [spiffe] URL that [url.Parse]
    accepts, with a host and no user, query or fragment. *)
Definition peerIdentityVerifier (parse : string -> option string) (expectedIdentities : list string) :
    res (list (list string) -> option error) :=
  if bool_decide (expectedIdentities = []) then Fail (ENew "at least one exact SPIFFE peer identity is required")
  else
    match mapM parse expectedIdentities with
    | None => Fail (ENew "exact SPIFFE peer identity is required")
    | Some expected =>
        Ok (fun peerCertificates =>
          match peerCertificates with
          | [] => Some (ENew "gateway runtime client certificate is missing")
          | uris :: _ =>
              if existsb (contains_string expected) uris then None
              else Some (ENew "gateway runtime client identity is unauthorized")
          end)
    end.

Definition PeerHasIdentity (peerCertificates : list (list string)) (expectedIdentity : string) : bool :=
  match peerCertificates with
  | [] => false
  | uris :: _ => contains_string uris expectedIdentity
  end.

(** ** Paths on the wire *)

Lemma hex_no_slash n : 0 <= n < 16 -> Ascii.eqb (upper_hex n) "/" = false.
Proof.
  intros Hn. assert (n ∈ map Z.of_nat (seq 0 16)) as Hin.
  { apply list_elem_of_In, in_map_iff. exists (Z.to_nat n). split; [lia|]. apply in_seq. lia. }
  revert Hin. apply (Forall_forall (fun n => Ascii.eqb (upper_hex n) "/" = false)). by apply (bool_decide_unpack _).
Qed.

Lemma escape_no_slash mode s :
  (mode = encodePathSegment \/ no_sep "/"%char s = true) -> no_sep "/"%char (escape mode s) = true.
Proof.
  induction s as [|c s IH]; [done|]. intros Hs. cbn [escape].
  assert (no_sep "/"%char (escape mode s) = true) as Hrest.
  { apply IH. destruct Hs as [Hs|Hs]; [by left|right]. cbn in Hs. by apply andb_true_iff in Hs as [_ ?]. }
  pose proof (byte_range c). destruct (shouldEscape mode c) eqn:Ee; cbn [no_sep].
  - rewrite !hex_no_slash by (split; [apply Z.div_pos|apply Z.div_lt_upper_bound] || apply Z.mod_pos_bound; lia). done.
  - rewrite Hrest, andb_true_r. destruct (Ascii.eqb c "/") eqn:Ec; [|done]. apply Ascii.eqb_eq in Ec as ->.
    destruct Hs as [->|Hs]; [discriminate|done].
Qed.

Lemma no_sep_existsb sep s : no_sep sep s = true -> existsb (Ascii.eqb sep) (String.list_ascii_of_string s) = false.
Proof.
  induction s as [|c s IH]; [done|]. cbn. intros [Hc Hs]%andb_true_iff. rewrite IH by done.
  apply negb_true_iff in Hc. by rewrite Ascii.eqb_sym, Hc.
Qed.

(** The identifier that the handler reads from the path of a lease. *)
Definition read_uid (uid : string) : option string :=
  if str_empty (PathEscape uid) || (128 <? Z.of_nat (String.length (PathEscape uid))) then None else Some (PathEscape uid).

Lemma read_uid_spec uid :
  read_uid uid =
  (leaseUID ← PathUnescape (escape encodePath (PathEscape uid));
   if str_empty leaseUID || existsb (Ascii.eqb "/") (String.list_ascii_of_string leaseUID) ||
      (128 <? Z.of_nat (String.length leaseUID)) then None else Some leaseUID).
Proof.
  unfold PathUnescape. rewrite unescape_escape. cbn. unfold read_uid.
  rewrite (no_sep_existsb "/"%char) by by apply escape_no_slash; [left]. by rewrite orb_false_r.
Qed.

(** What a handler reads from the path of a request.  For every lease UID and
    either operation, the path that the client puts on the wire parses at the
    handler to the same operation and to the escaped UID: the client escapes the
    UID twice and the handler undoes one.  Requests for leases whose UID escaping
    leaves alone, such as every UUID, therefore reach the handler under their own
    UID, and all others do not. *)
Lemma path_read prefix uid operation :
  (exists rest, prefix = String "/" rest) -> escape encodePath prefix = prefix -> operation = "" \/ operation = "withdraw" ->
  (escaped ← received_EscapedPath (escape encodePath (lease_path prefix uid operation)); parse_lease_path prefix escaped) =
  (read ← read_uid uid; Some (read, operation)).
Proof.
  intros [rest Hslash] Hprefix Hop. assert (lease_path prefix uid operation =
    prefix +:+ (PathEscape uid +:+ (if str_empty operation then "" else "/" +:+ operation))) as ->.
  { unfold lease_path. destruct (str_empty operation); [by rewrite app_empty|by rewrite app_assoc_string]. }
  set (tail := if str_empty operation then "" else "/" +:+ operation).
  assert (escape encodePath tail = tail) as Htail by (by destruct Hop as [->| ->]).
  rewrite received_escape by by rewrite Hslash. cbn [mbind option_bind]. rewrite !escape_app, Htail, Hprefix, read_uid_spec.
  unfold parse_lease_path, HasPrefix. rewrite prefix_app, drop_string_app. cbn [negb orb str_empty].
  set (first := escape encodePath (PathEscape uid)).
  assert (no_sep "/"%char first = true) as Hfirst by (apply escape_no_slash; right; apply escape_no_slash; by left).
  assert (str_empty first = true -> read_uid uid = None) as Hempty.
  { intros Hf. apply str_empty_spec in Hf. rewrite read_uid_spec. fold first. by rewrite Hf. }
  rewrite read_uid_spec in Hempty. fold first in Hempty. subst tail. destruct Hop as [->| ->]; cbn [str_empty].
  - change (if str_empty "" then "" else "/" +:+ "") with "". rewrite app_empty, split_on_single by done. destruct (str_empty first) eqn:Ef; [by rewrite Hempty|].
    destruct (PathUnescape first) as [leaseUID|]; [|done]. cbn. by destruct (_ || _).
  - change (if str_empty "withdraw" then "" else "/" +:+ "withdraw") with (String "/" "withdraw"). rewrite split_on_app by done.
    change (split_on "/"%char "withdraw") with ["withdraw"].
    destruct (str_empty first) eqn:Ef; [by rewrite Hempty|].
    destruct (PathUnescape first) as [leaseUID|]; [|done]. cbn. by destruct (_ || _).
Qed.

(** Escaping leaves a text alone exactly where no character asks for it. *)
Definition path_safe (uid : string) : bool :=
  forallb (fun c => negb (shouldEscape encodePathSegment c)) (String.list_ascii_of_string uid).

Lemma path_safe_spec uid : path_safe uid = true <-> PathEscape uid = uid.
Proof.
  unfold path_safe, PathEscape.
  assert (forall s, String.length s <= String.length (escape encodePathSegment s))%nat as Hlen.
  { induction s as [|c s IH]; [done|]. cbn. destruct (shouldEscape _ c); cbn; lia. }
  induction uid as [|c s IH]; [done|]. cbn. destruct (shouldEscape encodePathSegment c); cbn.
  - split; [done|]. intros E. apply (f_equal String.length) in E. cbn in E. specialize (Hlen s). lia.
  - rewrite IH. split; [by intros ->|by intros [=]].
Qed.

(** ** The protocol over a network that delivers *)

(** The network of one gateway: its Service answers with the handler. *)
Definition delivered_to {W} (host : string) (serve : HttpRequest -> IO W HttpResponse) : HttpClient W := fun request =>
  if String.eqb (rq_Host request) host then serve request else io_fail (ENew "no route to host").

(** A message that is within the limit of the protocol, with the newline of the
    encoder. *)
Definition fits {T} `{Json T} (x : T) : Prop :=
  exists s, Marshal x = Some s /\ Z.of_nat (String.length s) < runtimeBodyLimit.

(** What the controller gets of the manager's answer. *)
Definition surfaced (answer : Observation * option error) : res Observation :=
  match answer.2 with
  | None => Ok answer.1
  | Some err =>
      let status := if bool_decide (adapterError_kind err = Some AdapterFailureUnavailable)
                    then StatusServiceUnavailable else StatusConflict in
      Fail (RuntimeRequestError (failure_kind status) status)
  end.

Section Transparent.
Context {W : Type} `{PortForwardCapability W} `{RuleBackend W} `{DeliveryBackend W} `{Clock W}.
Context `{JsonLaws Intent} `{JsonLaws WithdrawalIntent} `{JsonLaws Observation}.
Context (h : RuntimeHandler) (host : string).

#[local] Instance network : HttpClient (lease_states * W) := delivered_to host (ServeHTTP h).

(** The answer of the manager, as it comes back over the wire. *)
Definition over_wire (m : IO (lease_states * W) (Observation * option error)) : IO (lease_states * W) Observation := fun sw =>
  match m sw with
  | (Ok answer, sw') => (surfaced answer, sw')
  | (Fail e, sw') => (Fail (Errorf "call gateway runtime" e), sw')
  end.

Lemma readBounded_fits s : Z.of_nat (String.length s) < runtimeBodyLimit -> readBounded s runtimeBodyLimit = Ok s.
Proof. intros Hs. unfold readBounded. by rewrite (proj2 (Z.ltb_ge _ _)) by lia. Qed.

Lemma received_reply answer :
  (answer.2 = None -> fits answer.1) ->
  (body ← io_lift (W := lease_states * W) (readBounded (rs_Body (runtime_reply answer)) runtimeBodyLimit);
   if negb (rs_StatusCode (runtime_reply answer) =? StatusOK)
   then io_fail (RuntimeRequestError (failure_kind (rs_StatusCode (runtime_reply answer))) (rs_StatusCode (runtime_reply answer)))
   else io_wrap "decode gateway runtime observation" (io_lift (decodeStrict body))) = fun sw => (surfaced answer, sw).
Proof.
  intros Hfits. unfold runtime_reply, surfaced. destruct (answer.2) as [err|] eqn:Ea.
  - cbn [rs_Body rs_StatusCode writeRuntimeError]. rewrite readBounded_fits by done. by destruct (bool_decide _).
  - destruct (Hfits eq_refl) as (s & Hs & Hlen). cbn [rs_Body rs_StatusCode]. unfold encoded. rewrite Hs.
    unfold readBounded. rewrite (proj2 (Z.ltb_ge _ _)).
    + unfold mbind, io_bind, io_lift, io_wrap. cbn [negb StatusOK Z.eqb Pos.eqb]. rewrite (decodeStrict_Marshal answer.1) by done.
      done.
    + rewrite length_app_string. cbn. lia.
Qed.

(** The request of a lease whose UID the path can carry reaches the handler under
    that UID. *)
Definition carried (uid : string) : bool :=
  path_safe uid && negb (str_empty uid) && (Z.of_nat (String.length uid) <=? 128).

Lemma carried_path prefix uid operation :
  (exists rest, prefix = String "/" rest) -> escape encodePath prefix = prefix ->
  carried uid = true -> operation = "" \/ operation = "withdraw" ->
  exists escaped, received_EscapedPath (escape encodePath (lease_path prefix uid operation)) = Some escaped /\
    parse_lease_path prefix escaped = Some (uid, operation).
Proof.
  intros Hslash Hprefix [[Hs%path_safe_spec He]%andb_true_iff Hl]%andb_true_iff Hop.
  pose proof (path_read prefix uid operation Hslash Hprefix Hop) as Hp.
  unfold read_uid in Hp. apply negb_true_iff in He. apply Z.leb_le in Hl.
  rewrite Hs, He, (proj2 (Z.ltb_ge _ _)) in Hp by lia.
  destruct (received_EscapedPath _) as [escaped|]; [|done]. by exists escaped.
Qed.

(** The router finds this handler at the gateway. *)
Record connected (r : RuntimeRouter) (gateway : ObjectMeta) : Prop := {
  cn_host : clientFor r gateway = Ok host;
  cn_manager : rh_Manager h = true;
  cn_gateway : rh_GatewayUID h = UID gateway
}.

Lemma connected_uid r gateway : connected r gateway -> str_empty (UID gateway) = false.
Proof.
  intros [Hh _ _]. unfold clientFor in Hh. destruct (str_empty (UID gateway)); [|done]. by rewrite !orb_true_r in Hh.
Qed.

(** One exchange: the client's call comes back with the answer to the request. *)
Lemma call_delivered {T} `{Json T} method path (input : T) m sw :
  fits input ->
  (forall body, Marshal input = Some body -> readBounded body runtimeBodyLimit = Ok body ->
     ServeHTTP h (mkHttpRequest method host (escape encodePath path) "" "application/json" body) =
     (answer ← m; mret (runtime_reply answer))) ->
  (forall answer sw', m sw = (Ok answer, sw') -> answer.2 = None -> fits answer.1) ->
  runtime_call host method path input sw = over_wire m sw.
Proof.
  intros (body & Hbody & Hlen) Hserve Hfits. unfold runtime_call. rewrite Hbody, (proj2 (Z.ltb_ge _ _)) by lia.
  unfold http_Do, network, delivered_to. cbn [rq_Host]. rewrite String.eqb_refl, (Hserve body) by auto using readBounded_fits.
  unfold over_wire, mbind at 1, io_bind at 1, io_wrap at 1, mbind at 1, io_bind at 1.
  destruct (m sw) as [[answer|e] sw'] eqn:Em; [|done]. cbn [mret io_ret].
  pose proof (received_reply answer (Hfits answer sw' eq_refl)) as Hr. exact (f_equal (fun f => f sw') Hr).
Qed.

(** C27: The wire adds nothing and loses nothing.  Between a router and the handler
    of the gateway it is connected to, asking the runtime to program or withdraw a
    lease is calling the manager with that very intent, for the gateway of that
    UID alone: the state changes in the same way, an observation comes back as it
    was made, and a failure comes back as unavailable exactly where the
    application adapter was, and as a conflict otherwise.  It holds for UIDs that
    a path carries and messages within the size limit. *)
Theorem runtime_transparent r gateway sw :
  connected r gateway ->
  (forall intent, in_GatewayUID intent = UID gateway -> carried (in_LeaseUID intent) = true -> fits intent ->
     (forall answer sw', Reconcile (gateway_with_uid (UID gateway)) intent sw = (Ok answer, sw') -> answer.2 = None -> fits answer.1) ->
     rt_Reconcile (Runtime := RuntimeRouter_Runtime r) gateway intent sw =
     over_wire (Reconcile (gateway_with_uid (UID gateway)) intent) sw) /\
  (forall intent, wi_GatewayUID intent = UID gateway -> carried (wi_LeaseUID intent) = true -> fits intent ->
     (forall answer sw', Withdraw (gateway_with_uid (UID gateway)) intent sw = (Ok answer, sw') -> answer.2 = None -> fits answer.1) ->
     rt_Withdraw (Runtime := RuntimeRouter_Runtime r) gateway intent sw =
     over_wire (Withdraw (gateway_with_uid (UID gateway)) intent) sw).
Proof.
  intros Hc. pose proof (connected_uid _ _ Hc) as Huid. destruct Hc as [Hhost Hm Hg].
  split; intros intent Hgw Hcarried Hfits Hanswer; cbn [rt_Reconcile rt_Withdraw RuntimeRouter_Runtime];
    unfold router_Reconcile, router_Withdraw, client_Reconcile, client_Withdraw; rewrite Hhost, Hgw, String.eqb_refl;
    (apply call_delivered; [done| |done]); intros body Hbody Hread; unfold ServeHTTP, runtimePath; cbn [rq_Path rq_RawQuery rq_ContentType rq_Body rq_Method].
  - destruct (carried_path runtimePathPrefix (in_LeaseUID intent) "" ltac:(by eexists) eq_refl Hcarried ltac:(by left)) as (escaped & -> & Hparse).
    unfold parseRuntimePath. rewrite Hparse. cbn [str_empty String.eqb negb].
    rewrite Hm, Hg, Huid, Hread. cbn [negb orb String.eqb].
    rewrite <- (app_empty body), (decodeStrict_Marshal intent) by done.
    by rewrite Hgw, !String.eqb_refl.
  - destruct (carried_path runtimePathPrefix (wi_LeaseUID intent) "withdraw" ltac:(by eexists) eq_refl Hcarried ltac:(by right)) as (escaped & -> & Hparse).
    unfold parseRuntimePath. rewrite Hparse. cbn [str_empty String.eqb negb].
    rewrite Hm, Hg, Huid, Hread. cbn [negb orb String.eqb].
    rewrite <- (app_empty body), (decodeStrict_Marshal intent) by done.
    by rewrite Hgw, !String.eqb_refl.
Qed.

End Transparent.

(** ** The protocol over a network that loses messages *)

Section Lossy.
Context {W : Type} `{PortForwardCapability W} `{RuleBackend W} `{DeliveryBackend W} `{Clock W}.
Context {installs : W -> list GatewayRule -> Prop} `{!GatewayRules W installs} `{!NoRuleAccess W installs}.
Context `{JsonLaws Intent} `{JsonLaws WithdrawalIntent} `{JsonLaws Observation}.
Context (h : RuntimeHandler) (host : string) `{HttpClient (lease_states * W)}.

(** A request for the gateway is served, or fails before or after it is served;
    one for another host does not reach it. *)
Definition lossy : Prop := forall request sw,
  if String.eqb (rq_Host request) host then
    http_Do request sw = ServeHTTP h request sw \/
    exists e sw', http_Do request sw = (Fail e, sw') /\ (sw' = sw \/ sw' = (ServeHTTP h request sw).2)
  else (http_Do request sw).2 = sw.

Lemma ServeHTTP_keeps request : keeps (manager_inv (installs := installs)) (ServeHTTP h request).
Proof.
  intros [st w] Hinv. unfold ServeHTTP. destruct (received_EscapedPath _) as [escaped|]; [|done]. destruct (_ || _); [done|].
  destruct (parseRuntimePath _ _) as [[leaseUID operation]|]; [|done]. destruct (readBounded _ _) as [body|]; [|done].
  destruct (_ && _).
  - destruct (decodeStrict body) as [intent|]; [|done]. destruct (_ && _); [|done]. unfold mbind, io_bind.
    destruct (Reconcile _ intent (st, w)) as [answer sw'] eqn:Er.
    destruct (wp_elim _ _ _ _ _ (Reconcile_spec (gateway_with_uid (rh_GatewayUID h)) intent st w Hinv) Er) as (obs & err & -> & Hr).
    apply Hr.
  - destruct (_ && _); [|done]. destruct (decodeStrict body) as [intent|]; [|done]. destruct (_ && _); [|done]. unfold mbind, io_bind.
    destruct (Withdraw _ intent (st, w)) as [answer sw'] eqn:Er.
    destruct (wp_elim _ _ _ _ _ (Withdraw_spec (gateway_with_uid (rh_GatewayUID h)) intent st w Hinv) Er) as (obs & err & -> & Hr).
    apply Hr.
Qed.

(** What comes back over the wire was answered to this very intent. *)
Lemma reply_answer {A} (answer : Observation * option error) (obs : Observation) (sw sw' : A) :
  (body ← io_lift (readBounded (rs_Body (runtime_reply answer)) runtimeBodyLimit);
   if negb (rs_StatusCode (runtime_reply answer) =? StatusOK)
   then io_fail (RuntimeRequestError (failure_kind (rs_StatusCode (runtime_reply answer))) (rs_StatusCode (runtime_reply answer)))
   else io_wrap "decode gateway runtime observation" (io_lift (decodeStrict body))) sw = (Ok obs, sw') ->
  answer = (obs, None) /\ sw' = sw.
Proof.
  destruct answer as [o [err|]]; unfold runtime_reply, mbind, io_bind, io_lift; cbn [fst snd rs_Body rs_StatusCode writeRuntimeError].
  - destruct (readBounded _ _); [|done]. by destruct (bool_decide _).
  - unfold encoded. destruct (Marshal o) as [s|] eqn:Em.
    + unfold readBounded. destruct (_ <? _); [done|]. cbn [negb StatusOK Z.eqb Pos.eqb]. unfold io_wrap.
      rewrite (decodeStrict_Marshal o) by done. by intros [= -> ->].
    + change (readBounded "" runtimeBodyLimit) with (Ok ""). cbn [negb StatusOK Z.eqb Pos.eqb]. unfold io_wrap.
      destruct (decodeStrict (T := Observation) "") as [o'|] eqn:Ed; [|done]. by destruct (decodeStrict_empty o' Ed).
Qed.

Lemma refused_not_ok {A} status (obs : Observation) (sw sw' : A) :
  (status =? StatusOK) = false ->
  (body ← io_lift (readBounded (rs_Body (writeRuntimeError status)) runtimeBodyLimit);
   if negb (rs_StatusCode (writeRuntimeError status) =? StatusOK)
   then io_fail (RuntimeRequestError (failure_kind (rs_StatusCode (writeRuntimeError status))) (rs_StatusCode (writeRuntimeError status)))
   else io_wrap "decode gateway runtime observation" (io_lift (decodeStrict body))) sw <> (Ok obs, sw').
Proof.
  intros Hs. unfold mbind, io_bind, io_lift. cbn [rs_Body rs_StatusCode writeRuntimeError]. rewrite Hs.
  by destruct (readBounded _ _).
Qed.

(** A call that comes back was answered by the manager of this gateway, to this
    very intent. *)
Lemma call_answered {T} `{JsonLaws T} method path (input : T) obs sw sw' :
  lossy -> runtime_call host method path input sw = (Ok obs, sw') ->
  exists body response, Marshal input = Some body /\
    ServeHTTP h (mkHttpRequest method host (escape encodePath path) "" "application/json" body) sw = (Ok response, sw') /\
    (response ← mret response;
     responseBody ← io_lift (readBounded (rs_Body response) runtimeBodyLimit);
     if negb (rs_StatusCode response =? StatusOK)
     then io_fail (RuntimeRequestError (failure_kind (rs_StatusCode response)) (rs_StatusCode response))
     else io_wrap "decode gateway runtime observation" (io_lift (decodeStrict responseBody))) sw' = (Ok obs, sw').
Proof.
  intros Hlossy. unfold runtime_call. destruct (Marshal input) as [body|]; [|done]. destruct (_ <? _); [done|].
  unfold mbind at 1, io_bind at 1, io_wrap at 1.
  pose proof (Hlossy (mkHttpRequest method host (escape encodePath path) "" "application/json" body) sw) as Hdo.
  cbn [rq_Host] in Hdo. rewrite String.eqb_refl in Hdo. destruct Hdo as [->|(e & sw1 & -> & _)]; [|done].
  destruct (ServeHTTP h _ sw) as [[response|e] sw1] eqn:Es; [|done]. intros Hrest. exists body, response.
  assert (sw1 = sw') as ->; [|by rewrite Es].
  revert Hrest. unfold mbind, io_bind, io_lift. destruct (readBounded _ _); [|done]. destruct (negb _); [done|].
  unfold io_wrap. destruct (decodeStrict _); by intros [=].
Qed.

Ltac refused Hrest := exfalso; revert Hrest; by apply refused_not_ok.

Lemma router_Reconcile_answered r gateway intent obs sw sw' :
  lossy -> connected h host r gateway -> router_Reconcile r gateway intent sw = (Ok obs, sw') ->
  Reconcile (gateway_with_uid (UID gateway)) intent sw = (Ok (obs, None), sw').
Proof.
  intros Hlossy [Hhost Hm Hg]. unfold router_Reconcile, client_Reconcile. rewrite Hhost. cbn [mbind io_bind io_lift].
  unfold io_lift, io_bind. destruct (negb _) eqn:Egw; [done|]. apply negb_false_iff, String.eqb_eq in Egw.
  intros (body & response & Hbody & Hserve & Hrest)%call_answered; [|done].
  revert Hserve. unfold ServeHTTP. cbn [rq_Path rq_RawQuery rq_ContentType rq_Body rq_Method].
  destruct (received_EscapedPath _) as [escaped|]; [|intros [= <-]; refused Hrest].
  destruct (_ || _); [intros [= <-]; refused Hrest|].
  destruct (parseRuntimePath _ _) as [[leaseUID operation]|]; [|intros [= <-]; refused Hrest].
  unfold readBounded at 1. destruct (_ <? _); [intros [= <-]; refused Hrest|].
  rewrite <- (app_empty body), (decodeStrict_Marshal intent) by done. rewrite Hg.
  destruct (_ && _); [|rewrite andb_false_r; intros [= <-]; refused Hrest].
  destruct (_ && _); [|intros [= <-]; refused Hrest].
  unfold mbind at 1, io_bind at 1. destruct (Reconcile _ intent sw) as [[answer|e] sw1]; [|done].
  intros [= <- ->]. by destruct (reply_answer _ _ _ _ Hrest) as [-> _].
Qed.

Lemma router_Withdraw_answered r gateway intent obs sw sw' :
  lossy -> connected h host r gateway -> router_Withdraw r gateway intent sw = (Ok obs, sw') ->
  Withdraw (gateway_with_uid (UID gateway)) intent sw = (Ok (obs, None), sw').
Proof.
  intros Hlossy [Hhost Hm Hg]. unfold router_Withdraw, client_Withdraw. rewrite Hhost. cbn [mbind io_bind io_lift].
  unfold io_lift, io_bind. destruct (negb _) eqn:Egw; [done|]. apply negb_false_iff, String.eqb_eq in Egw.
  intros (body & response & Hbody & Hserve & Hrest)%call_answered; [|done].
  revert Hserve. unfold ServeHTTP. cbn [rq_Path rq_RawQuery rq_ContentType rq_Body rq_Method].
  destruct (received_EscapedPath _) as [escaped|]; [|intros [= <-]; refused Hrest].
  destruct (_ || _); [intros [= <-]; refused Hrest|].
  destruct (parseRuntimePath _ _) as [[leaseUID operation]|]; [|intros [= <-]; refused Hrest].
  unfold readBounded at 1. destruct (_ <? _); [intros [= <-]; refused Hrest|].
  rewrite andb_false_r. rewrite <- (app_empty body), (decodeStrict_Marshal intent) by done. rewrite Hg.
  destruct (_ && _); [|intros [= <-]; refused Hrest].
  destruct (_ && _); [|intros [= <-]; refused Hrest].
  unfold mbind at 1, io_bind at 1. destruct (Withdraw _ intent sw) as [[answer|e] sw1]; [|done].
  intros [= <- ->]. by destruct (reply_answer _ _ _ _ Hrest) as [-> _].
Qed.

(** Whatever happens to the messages, the manager's invariant holds on. *)
Lemma request_keeps {T} `{Json T} host' method path (input : T) :
  lossy -> keeps (manager_inv (installs := installs)) (runtime_call host' method path input).
Proof.
  intros Hlossy. unfold runtime_call. destruct (Marshal input) as [body|]; [|by intros w]. destruct (_ <? _); [by intros w|].
  apply keeps_bind; [|keeps_down]. apply keeps_wrap. intros sw Hsw.
  pose proof (Hlossy (mkHttpRequest method host' (escape encodePath path) "" "application/json" body) sw) as Hdo.
  destruct (String.eqb _ host); [|by rewrite Hdo].
  destruct Hdo as [->|(e & sw1 & -> & [->| ->])]; [by apply ServeHTTP_keeps|done|by apply ServeHTTP_keeps].
Qed.

Lemma router_keeps r gateway :
  lossy ->
  (forall intent, keeps (manager_inv (installs := installs)) (router_Reconcile r gateway intent)) /\
  (forall intent, keeps (manager_inv (installs := installs)) (router_Withdraw r gateway intent)).
Proof.
  intros Hlossy. unfold router_Reconcile, router_Withdraw, client_Reconcile, client_Withdraw.
  split; intros intent; (apply keeps_bind; [by intros w|]); intros host';
    (destruct (negb _); [by intros w|]); by apply request_keeps.
Qed.

End Lossy.

(** ** A lease programmed over the wire *)

Module TransportSample.

Import ManagerSample.

(** A codec that knows a few messages, and writes one as its number. *)
Definition known_messages {T} `{EqDecision T} (known : list T) : Json T := {|
  Marshal x := match list_find (fun y => x = y) known with
               | Some (i, _) => if bool_decide (i < 100)%nat then Some (String (ascii_of_nat (48 + i)) "") else None
               | None => None
               end;
  Decode s := match s with
              | String c rest => match known !! (nat_of_ascii c - 48)%nat with Some x => Some (x, rest) | None => None end
              | _ => None
              end
|}.

Lemma known_messages_laws {T} `{EqDecision T} (known : list T) : @JsonLaws T (known_messages known).
Proof.
  split; [|done]. intros x s rest Hm _. unfold Marshal, Decode, known_messages in *. destruct (list_find _ known) as [[i y]|] eqn:Ef; [|done].
  apply list_find_Some in Ef as (Hi & <- & _). case_bool_decide; [|done].
  assert (s = String (ascii_of_nat (48 + i)) "") as -> by congruence.
  change (String (ascii_of_nat (48 + i)) "" +:+ rest) with (String (ascii_of_nat (48 + i)) rest).
  cbv beta iota. rewrite nat_ascii_embedding by lia. replace (48 + i - 48)%nat with i by lia. by rewrite Hi.
Qed.

Definition asked : Intent := intent "0f3c1f52-lease" 50000 1.
Definition answered : Observation * option error := seen (Reconcile (gateway_with_uid "gateway-uid") asked) (fresh false true).
Definition router : RuntimeRouter := mkRuntimeRouter true 8443.
Definition handler : RuntimeHandler := mkRuntimeHandler true "gateway-uid".
Definition origin : string := gatewayRuntimeEndpoint "vpn" "gateway" 8443.

#[local] Instance intents : Json Intent := known_messages [asked].
#[local] Instance withdrawals : Json WithdrawalIntent := known_messages [withdrawal "0f3c1f52-lease" 1].
#[local] Instance observations : Json Observation := known_messages [answered.1].

Lemma answered_ok : exists sw', Reconcile (gateway_with_uid "gateway-uid") asked (fresh false true) = (Ok answered, sw').
Proof.
  exists (call (Reconcile (gateway_with_uid "gateway-uid") asked) (fresh false true)). unfold answered. rewrite (surjective_pairing (seen _ _)).
  apply call_seen. vm_compute. reflexivity.
Qed.

Lemma known_fits {T} `{EqDecision T} (x : T) : fits (H := known_messages [x]) x.
Proof. exists "0". split; [|done]. cbn. by rewrite decide_True. Qed.

Lemma answer_unique {A B} (a a' : A) (b b' : B) : (Ok a, b) = (Ok a', b') -> a = a'.
Proof. by intros [= -> ->]. Qed.

Lemma router_origin : clientFor router gateway = Ok origin.
Proof. vm_compute. reflexivity. Qed.

Lemma answered_no_error : answered.2 = None.
Proof. vm_compute. reflexivity. Qed.

Lemma runtime_transparent_witness :
  (rt_Reconcile (Runtime := RuntimeRouter_Runtime (H := network handler origin) router) gateway asked (fresh false true)).1 =
  Ok answered.1.
Proof.
  destruct (runtime_transparent (H4 := known_messages_laws [asked]) (H6 := known_messages_laws [withdrawal "0f3c1f52-lease" 1])
    (H8 := known_messages_laws [answered.1]) handler origin router gateway (fresh false true)) as [Hreconcile _].
  { split; [exact router_origin|reflexivity|reflexivity]. }
  rewrite Hreconcile.
  - destruct answered_ok as [sw' Hok]. unfold over_wire. change (UID gateway) with "gateway-uid". rewrite Hok.
    unfold surfaced. by rewrite answered_no_error.
  - reflexivity.
  - reflexivity.
  - apply known_fits.
  - intros answer sw' Hr _. destruct answered_ok as [sw1 Hok]. change (UID gateway) with "gateway-uid" in Hr. rewrite Hok in Hr.
    rewrite <- (answer_unique _ _ _ _ Hr). apply known_fits.
Defined.

End TransportSample.
