(* ===== verification/PortDelivery.v ===== *)
(** * Delivery to the application (internal/portforward/delivery.go and
    adapter_transport.go)

    The delivery manager hands a lease to the application's adapter and asks for
    an acknowledgement of exactly that lease; without an adapter delivery is
    neutral.  The client of the adapter protocol sends records and withdrawals
    over HTTPS to the adapter's Service and observes its health. *)

From S2P Require Import Prelude Sha256 Netip Api Kube Http PortRuntime PortTransport.

Definition AdapterAPIVersion : string := "networking.waycloak.io/adapter/v1".
Definition adapterPathPrefix : string := "/networking.waycloak.io/adapter/v1/leases/".
Definition adapterHealthPath : string := "/networking.waycloak.io/adapter/v1/healthz".
Definition DefaultAdapterPort : Z := 9444.

Record AdapterLeaseRecord := mkAdapterLeaseRecord {
  ar_APIVersion : string;
  ar_LeaseNamespace : string;
  ar_LeaseUID : string;
  ar_HandoffGeneration : Z;
  ar_PodUID : string;
  ar_PublicAddress : Addr;
  ar_PublicPort : Z;
  ar_ExpiresAt : time;
  ar_TargetPort : Z;
  ar_ApplicationAddress : Addr;
  ar_BackendPort : Z;
  ar_Protocols : list string
}.

Record AdapterAcknowledgement := mkAdapterAcknowledgement {
  ak_APIVersion : string;
  ak_LeaseNamespace : string;
  ak_LeaseUID : string;
  ak_HandoffGeneration : Z;
  ak_PodUID : string;
  ak_ObservedAt : time;
  ak_ExpiresAt : time
}.

Record AdapterWithdrawalIntent := mkAdapterWithdrawalIntent {
  aw_APIVersion : string;
  aw_LeaseNamespace : string;
  aw_LeaseUID : string;
  aw_HandoffGeneration : Z;
  aw_PodUID : string;
  aw_ApplicationEndpointRetired : bool
}.

Record AdapterWithdrawalAcknowledgement := mkAdapterWithdrawalAcknowledgement {
  wk_APIVersion : string;
  wk_LeaseNamespace : string;
  wk_LeaseUID : string;
  wk_HandoffGeneration : Z;
  wk_PodUID : string;
  wk_ObservedAt : time;
  wk_Withdrawn : bool
}.

Record AdapterHealthObservation := mkAdapterHealthObservation {
  ah_APIVersion : string;
  ah_Namespace : string;
  ah_Name : string;
  ah_Image : string;
  ah_PodUID : string;
  ah_ObservedAt : time;
  ah_Ready : bool
}.

#[global] Instance AdapterLeaseRecord_eq_dec : EqDecision AdapterLeaseRecord.
Proof. solve_decision. Defined.
#[global] Instance AdapterAcknowledgement_eq_dec : EqDecision AdapterAcknowledgement.
Proof. solve_decision. Defined.
#[global] Instance AdapterWithdrawalIntent_eq_dec : EqDecision AdapterWithdrawalIntent.
Proof. solve_decision. Defined.
#[global] Instance AdapterWithdrawalAcknowledgement_eq_dec : EqDecision AdapterWithdrawalAcknowledgement.
Proof. solve_decision. Defined.

Class AdapterProtocol (W : Type) := {
  ap_Deliver : string -> AdapterLeaseRecord -> IO W AdapterAcknowledgement;
  ap_Withdraw : string -> AdapterWithdrawalIntent -> IO W bool
}.

(** [AdapterHealthChecker]: the namespace, the name and the image. *)
Class AdapterHealthChecker (W : Type) := health_Observe : string -> string -> string -> IO W AdapterHealthObservation.

(** ** The delivery manager *)

Definition record_for (intent : Intent) (provider : ProviderObservation) : AdapterLeaseRecord :=
  mkAdapterLeaseRecord AdapterAPIVersion (in_LeaseNamespace intent) (in_LeaseUID intent) (in_HandoffGeneration intent)
    (in_PodUID intent) (po_PublicAddress provider) (po_PublicPort provider) (po_ExpiresAt provider) (in_TargetPort intent)
    (in_ApplicationAddress intent) (in_BackendPort intent) (in_Protocols intent).

Definition fresh_between (observedAt earlier later : time) : bool :=
  negb (time_Before observedAt (earlier - DefaultObservationFreshness)) && negb (time_After observedAt (later + Minute)).

(** Whether the acknowledgement is of exactly this record. *)
Definition acknowledges (acknowledgement : AdapterAcknowledgement) (record : AdapterLeaseRecord) (now now' : time) : bool :=
  String.eqb (ak_APIVersion acknowledgement) AdapterAPIVersion &&
  String.eqb (ak_LeaseNamespace acknowledgement) (ar_LeaseNamespace record) &&
  String.eqb (ak_LeaseUID acknowledgement) (ar_LeaseUID record) &&
  (ak_HandoffGeneration acknowledgement =? ar_HandoffGeneration record) &&
  String.eqb (ak_PodUID acknowledgement) (ar_PodUID record) && negb (time_IsZero (ak_ObservedAt acknowledgement)) &&
  fresh_between (ak_ObservedAt acknowledgement) now now' && (ak_ExpiresAt acknowledgement =? ar_ExpiresAt record).

Definition validDeliveryInput (intent : Intent) (provider : ProviderObservation) (now : time) : option error :=
  if str_empty (in_LeaseNamespace intent) || str_empty (in_LeaseUID intent) || (in_HandoffGeneration intent <? 1) ||
     str_empty (in_PodUID intent) || (in_BackendPort intent =? 0) || (in_TargetPort intent =? 0) ||
     negb (Addr_Is4 (in_ApplicationAddress intent)) || negb (Addr_IsValid (po_PublicAddress provider)) ||
     negb (Addr_IsGlobalUnicast (po_PublicAddress provider)) || (po_PublicPort provider =? 0) ||
     negb (time_After (po_ExpiresAt provider) now)
  then Some (ENew "lease delivery input is invalid") else None.

Section DeliveryManager.
Context {W : Type} `{Clock W} (Adapter : option (AdapterProtocol W)).

Definition delivery_Reconcile (intent : Intent) (provider : ProviderObservation) : IO W (bool * bool) :=
  now ← read_clock;
  match validDeliveryInput intent provider now with
  | Some err => io_fail err
  | None =>
      if str_empty (in_AdapterName intent) then mret (true, true)
      else
        match Adapter with
        | None => io_fail (ENew "application adapter protocol is unavailable")
        | Some A =>
            let record := record_for intent provider in
            acknowledgement ← ap_Deliver (in_AdapterName intent) record;
            now ← read_clock;
            now' ← read_clock;
            mret (true, acknowledges acknowledgement record now now')
        end
  end.

Definition withdrawal_for (intent : WithdrawalIntent) : AdapterWithdrawalIntent :=
  mkAdapterWithdrawalIntent AdapterAPIVersion (wi_LeaseNamespace intent) (wi_LeaseUID intent) (wi_HandoffGeneration intent)
    (wi_PodUID intent) (wi_ApplicationEndpointRetired intent).

Definition delivery_Withdraw (intent : WithdrawalIntent) : IO W bool :=
  if str_empty (wi_AdapterName intent) then mret true
  else
    match Adapter with
    | None => io_fail (ENew "application adapter protocol is unavailable")
    | Some A => ap_Withdraw (wi_AdapterName intent) (withdrawal_for intent)
    end.

Definition DeliveryManager : DeliveryBackend W := {|
  dl_Reconcile := delivery_Reconcile;
  dl_Withdraw := delivery_Withdraw
|}.

End DeliveryManager.

(** ** The client of the adapter protocol *)

Record HTTPAdapterClient := mkHTTPAdapterClient {
  hc_Client : bool;     (** an HTTP client is configured *)
  hc_Port : Z;
  hc_ClusterDomain : string
}.

Definition adapterPath : string -> string -> string := lease_path adapterPathPrefix.

Definition AdapterServiceName (namespace name : string) : string := digest_name "waycloak-adapter-" namespace name.
Definition adapterEndpoint (namespace name : string) (port : Z) (clusterDomain : string) : string :=
  AdapterServiceName namespace name +:+ "." +:+ namespace +:+ ".svc." +:+ clusterDomain +:+ ":" +:+ itoa port.

Definition client_configured (c : HTTPAdapterClient) (namespace name : string) : bool :=
  hc_Client c && negb (hc_Port c =? 0) && negb (str_empty (hc_ClusterDomain c)) && negb (str_empty namespace) && negb (str_empty name).

Section AdapterClient.
Context {W : Type} `{HttpClient W} `{Clock W}.
Context `{Json AdapterLeaseRecord} `{Json AdapterAcknowledgement} `{Json AdapterWithdrawalIntent}.
Context `{Json AdapterWithdrawalAcknowledgement} `{Json AdapterHealthObservation}.
Context (c : HTTPAdapterClient).

Definition adapter_call {I O} `{Json I} `{Json O} (namespace name method path : string) (input : I) : IO W O :=
  if negb (client_configured c namespace name) then io_fail (ENew "exact adapter endpoint identity is required")
  else
    match Marshal input with
    | None => io_fail (ENew "adapter request is invalid")
    | Some body =>
        if runtimeBodyLimit <? Z.of_nat (String.length body) then io_fail (ENew "adapter request is invalid")
        else
          response ← io_wrap "call application adapter"
            (http_Do (mkHttpRequest method (adapterEndpoint namespace name (hc_Port c) (hc_ClusterDomain c))
               (escape encodePath path) "" "application/json" body));
          responseBody ← io_lift (readBounded (rs_Body response) runtimeBodyLimit);
          if negb (rs_StatusCode response =? StatusOK)
          then io_fail (AdapterRequestError (failure_kind (rs_StatusCode response)) (rs_StatusCode response))
          else io_wrap "decode application adapter observation" (io_lift (decodeStrict responseBody))
    end.

Definition client_Deliver (name : string) (record : AdapterLeaseRecord) : IO W AdapterAcknowledgement :=
  adapter_call (ar_LeaseNamespace record) name MethodPut (adapterPath (ar_LeaseUID record) "") record.

(** Whether the adapter confirms the withdrawal of exactly this generation. *)
Definition confirms (acknowledgement : AdapterWithdrawalAcknowledgement) (intent : AdapterWithdrawalIntent) (now : time) : bool :=
  String.eqb (wk_APIVersion acknowledgement) AdapterAPIVersion &&
  String.eqb (wk_LeaseNamespace acknowledgement) (aw_LeaseNamespace intent) &&
  String.eqb (wk_LeaseUID acknowledgement) (aw_LeaseUID intent) &&
  (wk_HandoffGeneration acknowledgement =? aw_HandoffGeneration intent) &&
  String.eqb (wk_PodUID acknowledgement) (aw_PodUID intent) &&
  fresh_between (wk_ObservedAt acknowledgement) now now && wk_Withdrawn acknowledgement.

Definition adapter_client_Withdraw (name : string) (intent : AdapterWithdrawalIntent) : IO W bool :=
  acknowledgement ← adapter_call (O := AdapterWithdrawalAcknowledgement) (aw_LeaseNamespace intent) name MethodPost
    (adapterPath (aw_LeaseUID intent) "withdraw") intent;
  now ← read_clock;
  mret (confirms acknowledgement intent now).

(** [Observe]: the health of exactly this adapter. *)
Definition client_Observe (namespace name image : string) : IO W AdapterHealthObservation :=
  if negb (client_configured c namespace name) || str_empty image then io_fail (ENew "exact adapter health identity is required")
  else
    response ← io_wrap "observe application adapter"
      (http_Do (mkHttpRequest MethodGet (adapterEndpoint namespace name (hc_Port c) (hc_ClusterDomain c)) adapterHealthPath "" "" ""));
    body ← io_lift (readBounded (rs_Body response) runtimeBodyLimit);
    if negb (rs_StatusCode response =? StatusOK)
    then io_fail (ENew ("application adapter health returned status " +:+ itoa (rs_StatusCode response)))
    else
      observation ← io_wrap "decode application adapter health" (io_lift (decodeStrict (T := AdapterHealthObservation) body));
      if negb (String.eqb (ah_APIVersion observation) AdapterAPIVersion) || negb (String.eqb (ah_Namespace observation) namespace) ||
         negb (String.eqb (ah_Name observation) name) || negb (String.eqb (ah_Image observation) image)
      then io_fail (ENew "application adapter health identity mismatch")
      else mret observation.

Definition HTTPAdapterClient_AdapterProtocol : AdapterProtocol W := {|
  ap_Deliver := client_Deliver;
  ap_Withdraw := adapter_client_Withdraw
|}.

Definition HTTPAdapterClient_AdapterHealthChecker : AdapterHealthChecker W := client_Observe.

End AdapterClient.
