(* ===== verification/QbAdapter.v ===== *)
(** * The qBittorrent adapter (internal/qbittorrentadapter/handler.go)

    The adapter serves the adapter protocol for one application: it applies a
    delivered lease to the application, observes the listener, and acknowledges;
    it restores the backend port when the lease is withdrawn.  What it has
    applied is kept in a state file that is replaced as a whole.

    The world of a request is the disk together with everything outside the
    process; in front of it stands the handler's map of states, none before
    [Load].  The application is an interface over that world. *)

From Stdlib Require Import Ascii.
From S2P Require Import Prelude Sha256 Netip Api Kube CniTypes CniPlugin Files Http PortRuntime PortTransport PortDelivery.

Definition responseLimit : Z := Z.shiftl 64 10.

Record adapterState := mkAdapterState {
  qs_Record : AdapterLeaseRecord;
  qs_AppliedAt : time;
  qs_ObservedAt : time;
  qs_AdapterPodUID : string
}.

#[global] Instance adapterState_eq_dec : EqDecision adapterState.
Proof. solve_decision. Defined.

Notation adapter_states := (gmap string adapterState).

(** The address, the port, and whether to announce it again; the address, the
    port and the protocols. *)
Class ApplicationConfigurer (W : Type) := {
  app_Apply : Addr -> Z -> bool -> IO W unit;
  app_Observe : Addr -> Z -> list string -> IO W unit
}.

Record Handler := mkHandler {
  qh_Application : bool;            (** an application is configured *)
  qh_Namespace : string;
  qh_Name : string;
  qh_Image : string;
  qh_PodUID : string;
  qh_StateFile : option (string * string);
  qh_HealthIdentity : string;
  qh_RuntimeIdentity : string;
  qh_ObservationBudget : duration;
  qh_ObservationRetryInterval : duration
}.

(** ** Records *)

Definition protocolsEqual (left right : list string) : bool := bool_decide (left = right).

Definition sameApplicationIdentity (left right : AdapterLeaseRecord) : bool :=
  String.eqb (ar_LeaseUID left) (ar_LeaseUID right) && (ar_HandoffGeneration left =? ar_HandoffGeneration right) &&
  String.eqb (ar_PodUID left) (ar_PodUID right) && bool_decide (ar_PublicAddress left = ar_PublicAddress right) &&
  (ar_PublicPort left =? ar_PublicPort right) && (ar_TargetPort left =? ar_TargetPort right) &&
  bool_decide (ar_ApplicationAddress left = ar_ApplicationAddress right) && (ar_BackendPort left =? ar_BackendPort right) &&
  protocolsEqual (ar_Protocols left) (ar_Protocols right).

Definition recordsEqual (left right : AdapterLeaseRecord) : bool :=
  sameApplicationIdentity left right && String.eqb (ar_APIVersion left) (ar_APIVersion right) &&
  String.eqb (ar_LeaseNamespace left) (ar_LeaseNamespace right) && (ar_ExpiresAt left =? ar_ExpiresAt right).

(** The loop over the protocols: whether all are known, TCP was seen and UDP
    was seen. *)
Fixpoint protocols_seen (tcp udp : bool) (protocols : list string) : option (bool * bool) :=
  match protocols with
  | [] => Some (tcp, udp)
  | protocol :: rest =>
      if String.eqb protocol ProtocolTCP then protocols_seen true udp rest
      else if String.eqb protocol ProtocolUDP then protocols_seen tcp true rest
      else None
  end.

Definition validRecord (h : Handler) (record : AdapterLeaseRecord) (leaseUID : string) (now : time) : bool :=
  if negb (String.eqb (ar_APIVersion record) AdapterAPIVersion) || negb (String.eqb (ar_LeaseNamespace record) (qh_Namespace h)) ||
     negb (String.eqb (ar_LeaseUID record) leaseUID) || (ar_HandoffGeneration record <? 1) || str_empty (ar_PodUID record) ||
     negb (Addr_Is4 (ar_ApplicationAddress record)) || negb (Addr_IsValid (ar_PublicAddress record)) ||
     negb (Addr_IsGlobalUnicast (ar_PublicAddress record)) || (ar_PublicPort record =? 0) ||
     negb (ar_TargetPort record =? ar_PublicPort record) || (ar_BackendPort record =? 0) ||
     negb (time_After (ar_ExpiresAt record) now)
  then false
  else
    match protocols_seen false false (ar_Protocols record) with
    | Some (tcp, udp) => tcp && udp && (length (ar_Protocols record) =? 2)%nat
    | None => false
    end.

(** An older generation, or another application within the same generation. *)
Definition conflicts (record : AdapterLeaseRecord) (previous : option adapterState) : bool :=
  match previous with
  | None => false
  | Some previous =>
      let held := qs_Record previous in
      (ar_HandoffGeneration record <? ar_HandoffGeneration held) ||
      ((ar_HandoffGeneration record =? ar_HandoffGeneration held) &&
       (negb (String.eqb (ar_PodUID record) (ar_PodUID held)) ||
        negb (bool_decide (ar_ApplicationAddress record = ar_ApplicationAddress held)) ||
        negb (ar_TargetPort record =? ar_TargetPort held)))
  end.

(** ** Messages *)

Definition adapter_error_body : string :=
  let q := String "034"%char "" in
  "{" +:+ q +:+ "apiVersion" +:+ q +:+ ":" +:+ q +:+ "networking.waycloak.io/adapter/v1" +:+ q +:+ "," +:+
  q +:+ "error" +:+ q +:+ ":" +:+ q +:+ "request rejected" +:+ q +:+ "}".
Definition writeError (status : Z) : HttpResponse := mkHttpResponse status adapter_error_body.

Definition acknowledgement_of (record : AdapterLeaseRecord) (observedAt : time) : AdapterAcknowledgement :=
  mkAdapterAcknowledgement AdapterAPIVersion (ar_LeaseNamespace record) (ar_LeaseUID record) (ar_HandoffGeneration record)
    (ar_PodUID record) observedAt (ar_ExpiresAt record).
Definition withdrawn_of (intent : AdapterWithdrawalIntent) (now : time) : AdapterWithdrawalAcknowledgement :=
  mkAdapterWithdrawalAcknowledgement AdapterAPIVersion (aw_LeaseNamespace intent) (aw_LeaseUID intent)
    (aw_HandoffGeneration intent) (aw_PodUID intent) now true.

Definition parsePath (escaped : string) : option (string * string) := parse_lease_path adapterPathPrefix escaped.

(** [readBounded]; the error is that of a body over the limit. *)
Definition request_body (contents : string) : res string :=
  if responseLimit <? Z.of_nat (String.length contents) then Fail (ENew "adapter request exceeds size limit") else Ok contents.

(** ** The handler *)

Definition state_prefix : string := ".waycloak-qbittorrent-state-".

Section Serving.
Context {A : Type} `{ApplicationConfigurer (FS * A)} `{Timer (FS * A)}.
Context `{Json adapter_states} `{Json AdapterLeaseRecord} `{Json AdapterAcknowledgement}.
Context `{Json AdapterWithdrawalIntent} `{Json AdapterWithdrawalAcknowledgement} `{Json AdapterHealthObservation}.
Context (h : Handler).

Notation W := (FS * A)%type.
(** The handler once its states are loaded. *)
Notation M X := (IO (adapter_states * W) X).

(** [Load]: the states that [h.states] is set to. *)
Definition Load : IO W adapter_states :=
  match qh_StateFile h with
  | None => mret ∅
  | Some f =>
      contents ← io_try (on_file (os_ReadFile f));
      match contents with
      | Fail err => if errors_is err ErrNotExist then mret ∅ else io_fail err
      | Ok contents =>
          match decodeStrict (T := adapter_states) contents with
          | Fail _ => io_fail (ENew "adapter state is invalid")
          | Ok states => mret states
          end
      end
  end.

Definition encode_to (temporary : string * string) (states : adapter_states) : IO FS unit :=
  match Marshal states with
  | None => io_fail (ENew "json: unsupported value")
  | Some data => file_Write temporary (data +:+ String "010"%char "")
  end.

Definition persist : M unit :=
  match qh_StateFile h with
  | None => mret tt
  | Some f =>
      states ← get_state;
      on_world (on_file (replace_file state_prefix f 384 (fun temporary => encode_to temporary states)))
  end.

Definition set_entry (leaseUID : string) (state : adapterState) : M unit :=
  states ← get_state; put_state (<[leaseUID := state]> states).
Definition delete_entry (leaseUID : string) : M unit :=
  states ← get_state; put_state (delete leaseUID states).

Definition restoreState (leaseUID : string) (previous : option adapterState) : M unit :=
  match previous with
  | Some previous => set_entry leaseUID previous
  | None => delete_entry leaseUID
  end.

Definition observation_budget : duration :=
  let maximum := DefaultObservationFreshness - Second in
  if (qh_ObservationBudget h <=? 0) || (maximum <? qh_ObservationBudget h) then maximum ÷ 2 else qh_ObservationBudget h.
Definition observation_interval : duration :=
  if qh_ObservationRetryInterval h <=? 0 then 200 * Millisecond else qh_ObservationRetryInterval h.

Definition observeWithRetry (address : Addr) (port : Z) : IO W unit :=
  bounded_wait "listener observation deadline" observation_budget observation_interval (app_Observe address port ["tcp"; "udp"]).

Definition refuse (status : Z) : M HttpResponse := mret (writeError status).
Definition writeAcknowledgement (record : AdapterLeaseRecord) (observedAt : time) : M HttpResponse :=
  mret (mkHttpResponse StatusOK (encoded (acknowledgement_of record observedAt))).
Definition writeWithdrawalAcknowledgement (intent : AdapterWithdrawalIntent) : M HttpResponse :=
  now ← on_world now_io;
  mret (mkHttpResponse StatusOK (encoded (withdrawn_of intent now))).

(** Only the expiry of an applied record changes. *)
Definition renews (record : AdapterLeaseRecord) (previous : adapterState) : bool :=
  sameApplicationIdentity record (qs_Record previous) && String.eqb (qs_AdapterPodUID previous) (qh_PodUID h) &&
  negb (ar_ExpiresAt record =? ar_ExpiresAt (qs_Record previous)) && negb (time_IsZero (qs_AppliedAt previous)).

Definition last_observed (previous : adapterState) : time :=
  if time_IsZero (qs_ObservedAt previous) then qs_AppliedAt previous else qs_ObservedAt previous.

(** The record is the one held, and observed recently by this adapter. *)
Definition still_fresh (record : AdapterLeaseRecord) (previous : adapterState) (now : time) : bool :=
  sameApplicationIdentity record (qs_Record previous) && String.eqb (qs_AdapterPodUID previous) (qh_PodUID h) &&
  recordsEqual record (qs_Record previous) && time_After (last_observed previous) (now - DefaultObservationFreshness).

(** The part of [deliver] from the observation on: the record was applied at
    [appliedAt]. *)
Definition deliver_observe (leaseUID : string) (record : AdapterLeaseRecord) (appliedAt : time) : M HttpResponse :=
  observed ← io_try (on_world (observeWithRetry (ar_ApplicationAddress record) (ar_TargetPort record)));
  match observed with
  | Fail _ => refuse StatusServiceUnavailable
  | Ok _ =>
      now ← on_world now_io;
      set_entry leaseUID (mkAdapterState record appliedAt now (qh_PodUID h)) ;;
      persisted ← io_try persist;
      match persisted with
      | Fail _ => refuse StatusServiceUnavailable
      | Ok _ => writeAcknowledgement record now
      end
  end.

(** The part of [deliver] that records the intent and, where that is needed,
    applies it. *)
Definition deliver_pending (leaseUID : string) (record : AdapterLeaseRecord) (previous : option adapterState) : M HttpResponse :=
  let applied :=
    match previous with
    | Some previous =>
        if sameApplicationIdentity record (qs_Record previous) && negb (time_IsZero (qs_AppliedAt previous))
        then Some (qs_AppliedAt previous) else None
    | None => None
    end in
  set_entry leaseUID (mkAdapterState record (default zero_time applied) zero_time "") ;;
  persisted ← io_try persist;
  match persisted with
  | Fail _ => restoreState leaseUID previous ;; refuse StatusServiceUnavailable
  | Ok _ =>
      match applied with
      | Some appliedAt => deliver_observe leaseUID record appliedAt
      | None =>
          result ← io_try (on_world (app_Apply (ar_ApplicationAddress record) (ar_TargetPort record) true));
          match result with
          | Fail _ => refuse StatusServiceUnavailable
          | Ok _ =>
              appliedAt ← on_world now_io;
              set_entry leaseUID (mkAdapterState record appliedAt zero_time "") ;;
              persisted ← io_try persist;
              match persisted with
              | Fail _ => refuse StatusServiceUnavailable
              | Ok _ => deliver_observe leaseUID record appliedAt
              end
          end
      end
  end.

Definition deliver_renewal (leaseUID : string) (record : AdapterLeaseRecord) (previous : adapterState) : M HttpResponse :=
  now ← on_world now_io;
  set_entry leaseUID (mkAdapterState record (qs_AppliedAt previous) now (qs_AdapterPodUID previous)) ;;
  persisted ← io_try persist;
  match persisted with
  | Fail _ => set_entry leaseUID previous ;; refuse StatusServiceUnavailable
  | Ok _ => writeAcknowledgement record now
  end.

Definition deliver (leaseUID body : string) : M HttpResponse :=
  match decodeStrict (T := AdapterLeaseRecord) body with
  | Fail _ => refuse StatusBadRequest
  | Ok record =>
      now ← on_world now_io;
      if negb (validRecord h record leaseUID now) then refuse StatusBadRequest
      else
        states ← get_state;
        let previous := states !! leaseUID in
        if conflicts record previous then refuse StatusConflict
        else
          now ← on_world now_io;
          match previous with
          | None => deliver_pending leaseUID record None
          | Some held =>
              if renews record held then deliver_renewal leaseUID record held
              else if still_fresh record held now then writeAcknowledgement record (last_observed held)
              else deliver_pending leaseUID record previous
          end
  end.

(** Putting the backend port back: whether the lease may be forgotten. *)
Definition restore_backend (intent : AdapterWithdrawalIntent) (record : AdapterLeaseRecord) : M bool :=
  applied ← io_try (on_world (app_Apply (ar_ApplicationAddress record) (ar_BackendPort record) true));
  match applied with
  | Fail _ => mret (aw_ApplicationEndpointRetired intent)
  | Ok _ =>
      observed ← io_try (on_world (observeWithRetry (ar_ApplicationAddress record) (ar_BackendPort record)));
      mret (res_ok observed || aw_ApplicationEndpointRetired intent)
  end.

Definition validWithdrawal (intent : AdapterWithdrawalIntent) (leaseUID : string) : bool :=
  String.eqb (aw_APIVersion intent) AdapterAPIVersion && String.eqb (aw_LeaseNamespace intent) (qh_Namespace h) &&
  String.eqb (aw_LeaseUID intent) leaseUID && negb (aw_HandoffGeneration intent <? 1) && negb (str_empty (aw_PodUID intent)).

Definition withdraw (leaseUID body : string) : M HttpResponse :=
  match decodeStrict (T := AdapterWithdrawalIntent) body with
  | Fail _ => refuse StatusBadRequest
  | Ok intent =>
      if negb (validWithdrawal intent leaseUID) then refuse StatusBadRequest
      else
        states ← get_state;
        match states !! leaseUID with
        | None => writeWithdrawalAcknowledgement intent
        | Some state =>
            if negb (ar_HandoffGeneration (qs_Record state) =? aw_HandoffGeneration intent) ||
               negb (String.eqb (ar_PodUID (qs_Record state)) (aw_PodUID intent))
            then refuse StatusConflict
            else
              restored ← restore_backend intent (qs_Record state);
              if negb restored then refuse StatusServiceUnavailable
              else
                delete_entry leaseUID ;;
                persisted ← io_try persist;
                match persisted with
                | Fail _ => set_entry leaseUID state ;; refuse StatusServiceUnavailable
                | Ok _ => writeWithdrawalAcknowledgement intent
                end
        end
  end.

(** What the handler does with a request to a lease once the states are there. *)
Definition serve_lease (method operation leaseUID body : string) : M HttpResponse :=
  if str_empty operation && String.eqb method MethodPut then deliver leaseUID body
  else if String.eqb operation "withdraw" && String.eqb method MethodPost then withdraw leaseUID body
  else refuse StatusMethodNotAllowed.

Definition run_on (states : adapter_states) (m : M HttpResponse) : IO (option adapter_states * W) HttpResponse := fun sw =>
  let '(response, sw') := m (states, sw.2) in (response, (Some sw'.1, sw'.2)).

(** The states are loaded by the first request that needs them. *)
Definition with_states (m : M HttpResponse) : IO (option adapter_states * W) HttpResponse :=
  held ← get_state;
  loaded ← io_try (match held with Some states => mret states | None => on_world Load end);
  match loaded with
  | Fail _ => mret (writeError StatusServiceUnavailable)
  | Ok states => run_on states m
  end.

Definition health_reply (request : HttpRequest) (peer : list (list string)) (now : time) : HttpResponse :=
  if negb (str_empty (qh_HealthIdentity h)) && negb (PeerHasIdentity peer (qh_HealthIdentity h)) then writeError StatusForbidden
  else if negb (String.eqb (rq_Method request) MethodGet) then writeError StatusMethodNotAllowed
  else mkHttpResponse StatusOK (encoded
    (mkAdapterHealthObservation AdapterAPIVersion (qh_Namespace h) (qh_Name h) (qh_Image h) (qh_PodUID h) now true)).

(** [ServeHTTP], for a request over a connection of which [peer] are the
    certificates.  A path that does not parse is answered by the server itself. *)
Definition ServeHTTP (peer : list (list string)) (request : HttpRequest) : IO (option adapter_states * W) HttpResponse :=
  match unescape (rq_Path request), received_EscapedPath (rq_Path request) with
  | Some path, Some escaped =>
      if negb (str_empty (rq_RawQuery request)) || negb (qh_Application h) || str_empty (qh_Namespace h) ||
         str_empty (qh_Name h) || str_empty (qh_Image h) || str_empty (qh_PodUID h)
      then mret (writeError StatusBadRequest)
      else if String.eqb path adapterHealthPath then
        now ← on_world now_io;
        mret (health_reply request peer now)
      else if negb (str_empty (qh_RuntimeIdentity h)) && negb (PeerHasIdentity peer (qh_RuntimeIdentity h))
      then mret (writeError StatusForbidden)
      else
        match parsePath escaped with
        | None => mret (writeError StatusNotFound)
        | Some (leaseUID, operation) =>
            if negb (String.eqb (rq_ContentType request) "application/json") then mret (writeError StatusNotFound)
            else
              match request_body (rq_Body request) with
              | Fail _ => mret (writeError StatusRequestEntityTooLarge)
              | Ok body => with_states (serve_lease (rq_Method request) operation leaseUID body)
              end
        end
  | _, _ => mret (writeError StatusBadRequest)
  end.

End Serving.

(** ** What an adapter has done

    The theorems are about every history of an adapter: requests in any order
    with any disk faults, restarts, and anything else that happens around it. *)

(** A generation follows another: it is later, or it is the same one and names
    the same application and port. *)
Definition follows (before later : AdapterLeaseRecord) : Prop :=
  ar_HandoffGeneration before < ar_HandoffGeneration later \/
  ar_HandoffGeneration later = ar_HandoffGeneration before /\ ar_PodUID later = ar_PodUID before /\
  ar_ApplicationAddress later = ar_ApplicationAddress before /\ ar_TargetPort later = ar_TargetPort before.

Section Histories.
Context {A : Type} `{ApplicationConfigurer (FS * A)} `{Timer (FS * A)}.
Context `{JsonLaws adapter_states} `{JsonLaws AdapterLeaseRecord} `{JsonLaws AdapterAcknowledgement}.
Context `{JsonLaws AdapterWithdrawalIntent} `{JsonLaws AdapterWithdrawalAcknowledgement} `{JsonLaws AdapterHealthObservation}.
Context (h : Handler) (f : string * string).

Notation W := (FS * A)%type.

(** The states that a restarted adapter loads, if it can. *)
Definition stored (disk : FS) : option adapter_states :=
  match files disk !! f, others disk !! f with
  | Some contents, _ => match decodeStrict contents with Ok states => Some states | Fail _ => None end
  | None, Some _ => None
  | None, None => Some ∅
  end.

(** A restarted adapter would know that this port of the application is one of
    a lease. *)
Definition announced (disk : FS) (address : Addr) (port : Z) : Prop :=
  exists states leaseUID s, stored disk = Some states /\ states !! leaseUID = Some s /\
    ar_ApplicationAddress (qs_Record s) = address /\ (port = ar_TargetPort (qs_Record s) \/ port = ar_BackendPort (qs_Record s)).

(** The state file is not named like its temporary files, and nobody else
    writes it; the clock is not on the disk. *)
Record exclusive : Prop := {
  ex_file : qh_StateFile h = Some f;
  ex_name : HasPrefix f.2 state_prefix = false;
  ex_apply address port b w : (app_Apply address port b w).2.1 = w.1;
  ex_observe address port protocols w : (app_Observe address port protocols w).2.1 = w.1;
  ex_select d t w : (Select d t w).2.1 = w.1;
  ex_now d d' a : Now (d, a) = Now (d', a)
}.

(** [around] is what else can happen to the world; [I] holds throughout,
    provided that the adapter changes the application only where the lease is on
    disk. *)
Record throughout (around : A -> A -> Prop) (I : W -> Prop) : Prop := {
  th_disk d d' a : I (d, a) -> I (d', a);
  th_apply address port w : I w -> announced w.1 address port -> I (app_Apply address port true w).2;
  th_observe address port w : I w -> I (app_Observe address port ["tcp"; "udp"] w).2;
  th_select d t w : I w -> I (Select d t w).2;
  th_around d a a' : around a a' -> I (d, a) -> I (d, a')
}.

(** The histories that begin with an empty state file or none. *)
Inductive reached (around : A -> A -> Prop) (w0 : W) : option adapter_states * W -> Prop :=
| reached_start : stored w0.1 = Some ∅ -> reached around w0 (None, w0)
| reached_serve sw peer request : reached around w0 sw -> reached around w0 (ServeHTTP h peer request sw).2
| reached_restart states d d' a : reached around w0 (states, (d, a)) -> same_names d d' -> reached around w0 (None, (d', a))
| reached_around states d d' a a' : reached around w0 (states, (d, a)) -> same_names d d' -> around a a' ->
    reached around w0 (states, (d', a')).

(** What a state says has been done to the application was done. *)
Definition truthful (I : W -> Prop) (s : adapterState) : Prop :=
  let record := qs_Record s in
  (time_IsZero (qs_AppliedAt s) = false \/ qs_AdapterPodUID s <> "" ->
     answered I (app_Apply (ar_ApplicationAddress record) (ar_TargetPort record) true) (Ok tt)) /\
  (qs_AdapterPodUID s <> "" ->
     answered I (app_Observe (ar_ApplicationAddress record) (ar_TargetPort record) ["tcp"; "udp"]) (Ok tt)).

(** The disk knows every lease that the handler knows, with the same record.
    [I] is what holds throughout the history, [J] what holds now. *)
Definition adapter_inv (I J : W -> Prop) (states : adapter_states) (w : W) : Prop :=
  J w /\ map_Forall (fun _ => truthful I) states /\
  exists disk, stored w.1 = Some disk /\ map_Forall (fun _ => truthful I) disk /\ qs_Record <$> disk = qs_Record <$> states.

(** The states that the adapter has, or would load. *)
Definition known (sw : option adapter_states * W) : option adapter_states :=
  match sw.1 with Some states => Some states | None => stored sw.2.1 end.

Definition current (I J : W -> Prop) (states : adapter_states) (sw : option adapter_states * W) : Prop :=
  known sw = Some states /\ adapter_inv I J states sw.2.

Context (Hex : exclusive) (around : A -> A -> Prop) (I J : W -> Prop) (Hth : throughout around J) (HJI : forall w, J w -> I w).

(** *** The state file *)

Lemma stored_same d d' : same_names d d' -> stored d' = stored d.
Proof. intros [Hf Ho]. unfold stored. by rewrite Hf, Ho. Qed.

Lemma stored_file d d' : same_file f d d' -> stored d' = stored d.
Proof. intros [Hf Ho]. unfold stored. by rewrite Hf, Ho. Qed.

Lemma persist_spec states w :
  wp (persist h)
    (fun r (sw' : adapter_states * W) => sw'.1 = states /\ sw'.2.2 = w.2 /\
       match r with Ok _ => stored sw'.2.1 = Some states | Fail _ => stored sw'.2.1 = stored w.1 end) (states, w).
Proof.
  unfold persist. rewrite (ex_file Hex). wp_step. apply wp_get_state. cbn [after]. apply wp_on_world, wp_on_file. cbn [fst snd].
  eapply wp_mono; [apply (replace_file_spec state_prefix f 384 _
    (fun x => exists data, Marshal states = Some data /\ x = data +:+ String "010"%char "")) with (g := f); try apply (ex_name Hex)|].
  - intros t d g Htg Ht. unfold encode_to. destruct (Marshal states) as [data|]; [|by wp_step].
    eapply wp_mono; [by apply (wp_Write_at g)|]. rewrite Ht. intros [u|e] d' Hd'; [|done]. destruct Hd' as [Hs Hd]. split; [done|]. eexists. split; [exact Hd|]. by exists data.
  - intros r d'. unfold replaced. rewrite decide_True by done. cbn. destruct r as [u|e]; [|intros Hs; by rewrite (stored_file _ _ Hs)].
    intros (x & Hd & data & Hm & ->). unfold stored. rewrite Hd. by rewrite (decodeStrict_Marshal states).
Qed.

(** *** Delivery *)

(** The record was applied to the application, and the listener observed. *)
Definition applied (record : AdapterLeaseRecord) : Prop :=
  answered I (app_Apply (ar_ApplicationAddress record) (ar_TargetPort record) true) (Ok tt).
Definition observed (record : AdapterLeaseRecord) : Prop :=
  answered I (app_Observe (ar_ApplicationAddress record) (ar_TargetPort record) ["tcp"; "udp"]) (Ok tt).

Lemma same_identity_applied left right : sameApplicationIdentity left right = true ->
  (applied right -> applied left) /\ (observed right -> observed left).
Proof.
  unfold sameApplicationIdentity, applied, observed. rewrite !andb_true_iff, !bool_decide_eq_true, !Z.eqb_eq.
  intros [[[[_ Ht] Ha] _] _]. by rewrite Ht, Ha.
Qed.

Lemma same_identity_follows left right : sameApplicationIdentity left right = true -> follows right left.
Proof.
  unfold sameApplicationIdentity. rewrite !andb_true_iff, !String.eqb_eq, !Z.eqb_eq, !bool_decide_eq_true.
  intros. right. tauto.
Qed.

Lemma recordsEqual_eq left right : recordsEqual left right = true -> left = right.
Proof.
  unfold recordsEqual, sameApplicationIdentity, protocolsEqual. rewrite !andb_true_iff, !String.eqb_eq, !Z.eqb_eq, !bool_decide_eq_true.
  destruct left, right; cbn. intuition congruence.
Qed.

Lemma not_conflicts record s : conflicts record (Some s) = false -> follows (qs_Record s) record.
Proof.
  unfold conflicts, follows. intros [Hg He]%orb_false_iff. apply Z.ltb_ge in Hg.
  destruct (ar_HandoffGeneration record =? ar_HandoffGeneration (qs_Record s)) eqn:Eg; [right|left; lia].
  apply Z.eqb_eq in Eg. cbn [andb] in He. rewrite !orb_false_iff, !negb_false_iff, String.eqb_eq, bool_decide_eq_true, Z.eqb_eq in He. tauto.
Qed.

Lemma follows_refl record : follows record record.
Proof. by right. Qed.

(** The states before and after, where only this lease may have changed, to this
    record. *)
Definition now_holds (uid : string) (record : AdapterLeaseRecord) (before later : adapter_states) : Prop :=
  exists s, later = <[uid := s]> before /\ qs_Record s = record.

Lemma inv_recorded states w w' uid s :
  adapter_inv I J states w -> truthful I s -> w'.2 = w.2 -> stored w'.1 = Some (<[uid := s]> states) ->
  adapter_inv I J (<[uid := s]> states) w'.
Proof.
  intros (HI & Hmem & _) Hs Ha Hd. destruct w as [d a], w' as [d' a']. cbn in Ha. subst a'.
  split; [by apply (th_disk _ _ Hth d)|]. assert (map_Forall (fun _ => truthful I) (<[uid := s]> states)) by by apply map_Forall_insert_2.
  split; [done|]. by eexists.
Qed.

Lemma inv_unstored states w w' : adapter_inv I J states w -> w'.2 = w.2 -> stored w'.1 = stored w.1 -> adapter_inv I J states w'.
Proof.
  intros (HI & Hmem & Hd) Ha Hst. destruct w as [d a], w' as [d' a']. cbn in Ha. subst a'.
  split; [by apply (th_disk _ _ Hth d)|]. split; [done|]. by rewrite Hst.
Qed.

(** The handler may know more of a lease than the disk. *)
Lemma inv_ahead states w uid s : adapter_inv I J states w -> truthful I s -> qs_Record <$> states !! uid = Some (qs_Record s) ->
  adapter_inv I J (<[uid := s]> states) w.
Proof.
  intros (HI & Hmem & disk & Hd & Hdisk & Hrec) Hs Hu. split; [done|]. split; [by apply map_Forall_insert_2|].
  exists disk. split; [done|]. split; [done|]. rewrite Hrec, fmap_insert. symmetry. apply insert_id. by rewrite lookup_fmap.
Qed.

Lemma wp_set uid s states w Q : Q (Ok tt) (<[uid := s]> states, w) -> wp (set_entry (A := A) uid s) Q (states, w).
Proof. done. Qed.

(** The world of an answer of the application. *)
Lemma inv_world states d a w' : adapter_inv I J states (d, a) -> J w' -> w'.1 = d -> adapter_inv I J states w'.
Proof. intros (_ & Hmem & Hd) HJ E. split; [done|]. split; [done|]. by rewrite E. Qed.

Lemma wp_observe address port states (w : W) (Q : res (res unit) -> adapter_states * W -> Prop) :
  adapter_inv I J states w ->
  (forall w', adapter_inv I J states w' -> answered J (app_Observe address port ["tcp"; "udp"]) (Ok tt) -> Q (Ok (Ok tt)) (states, w')) ->
  (forall e w', adapter_inv I J states w' -> Q (Ok (Fail e)) (states, w')) ->
  wp (io_try (on_world (observeWithRetry h address port))) Q (states, w).
Proof.
  intros Hinv Hok Hfail. wp_step. apply wp_on_world. unfold observeWithRetry.
  wp_with (wp_retry (fun w' => J w' /\ w'.1 = w.1) (fun (_ : unit) (_ : W) => answered J (app_Observe address port ["tcp"; "udp"]) (Ok tt))).
  - intros w1 [HI1 Hd1]. wp_run r w2 E. pose proof (ex_observe Hex address port ["tcp"; "udp"] w1) as Hd.
    pose proof (th_observe _ _ Hth address port w1 HI1) as HI2. rewrite E in Hd, HI2. cbn in Hd, HI2.
    split; [by rewrite Hd|]. intros [] ->. exists w1, w2. auto.
  - intros d t w1 [HI1 Hd1]. split; [by apply (th_select _ _ Hth)|]. by rewrite (ex_select Hex).
  - split; [apply Hinv|done].
  - intros r w1 ((HI1 & Hd1) & Hr). destruct w as [d a].
    assert (adapter_inv I J states w1) as Hinv1 by by eapply inv_world. destruct r as [[]|e]; [apply Hok; [done|by apply (Hr tt)]|by apply Hfail].
Qed.

(** An acknowledgement of this record: the state holds exactly it, and it was
    applied and observed.  The listener was observed now, unless only the expiry
    of a record that this adapter had observed changes; or this adapter had
    observed this very record a short time before [now0]. *)
Definition acknowledged (uid : string) (record : AdapterLeaseRecord) (now0 : time) (before : adapter_states)
    (response : HttpResponse) (later : adapter_states) : Prop :=
  exists s t, later !! uid = Some s /\ qs_Record s = record /\ rs_Body response = encoded (acknowledgement_of record t) /\
    applied record /\ observed record /\
    (((exists w, J w /\ t = Now w) /\
      (answered J (app_Observe (ar_ApplicationAddress record) (ar_TargetPort record) ["tcp"; "udp"]) (Ok tt) \/
       exists held, before !! uid = Some held /\ renews h record held = true)) \/
     exists held, before !! uid = Some held /\ still_fresh h record held now0 = true /\ t = last_observed held).

Definition delivered (uid : string) (record : AdapterLeaseRecord) (now0 : time) (before : adapter_states)
    (r : res HttpResponse) (sw' : adapter_states * W) : Prop :=
  adapter_inv I J sw'.1 sw'.2 /\ (sw'.1 = before \/ now_holds uid record before sw'.1) /\
  exists response, r = Ok response /\ (rs_StatusCode response = StatusOK -> acknowledged uid record now0 before response sw'.1).

Lemma delivered_refused uid record now0 before states w status :
  (status =? StatusOK) = false -> adapter_inv I J states w -> states = before \/ now_holds uid record before states ->
  wp (refuse (A := A) status) (delivered uid record now0 before) (states, w).
Proof.
  intros Hs Hinv Hb. unfold refuse. wp_step. split; [done|]. split; [done|]. eexists. split; [done|]. cbn. intros ->. done.
Qed.

(** A state whose record was applied and observed is recorded and acknowledged. *)
Lemma delivered_recorded uid record now0 appliedAt w1 podUID before states w (k : IO (adapter_states * W) HttpResponse) :
  adapter_inv I J states w -> applied record -> observed record -> J w1 ->
  (answered J (app_Observe (ar_ApplicationAddress record) (ar_TargetPort record) ["tcp"; "udp"]) (Ok tt) \/
   exists held, before !! uid = Some held /\ renews h record held = true) ->
  (states = before \/ now_holds uid record before states) ->
  let s := mkAdapterState record appliedAt (Now w1) podUID in
  (forall w', stored w'.1 = stored w.1 -> w'.2 = w.2 ->
     wp k (delivered uid record now0 before) (<[uid := s]> states, w')) ->
  wp (set_entry uid s ;;
      persisted ← io_try (persist h);
      match persisted with
      | Fail _ => k
      | Ok _ => writeAcknowledgement record (Now w1)
      end) (delivered uid record now0 before) (states, w).
Proof.
  intros Hinv Ha Ho Hw1 Hnow Hb s Hk. wp_step. apply wp_set. cbn [after]. do 2 wp_step. wp_with persist_spec.
  intros r [states' w'] (E & Ha' & Hr). cbn in E, Ha', Hr. subst states'. destruct r as [u|e]; [|by apply Hk]. unfold writeAcknowledgement. wp_step.
  assert (truthful I s) as Hs by (by split).
  split; [by eapply inv_recorded|]. split.
  { right. exists s. split; [|done]. destruct Hb as [->|(s' & -> & _)]; [done|]. by rewrite insert_insert_eq. }
  eexists. split; [done|]. intros _. exists s, (Now w1). cbn. rewrite lookup_insert_eq. split_and!; [done|done|done|done|done|].
  left. split; [by exists w1|done].
Qed.

Lemma deliver_observe_spec uid record appliedAt now0 before states w :
  adapter_inv I J states w -> now_holds uid record before states -> applied record ->
  wp (deliver_observe h uid record appliedAt) (delivered uid record now0 before) (states, w).
Proof.
  intros Hinv Hb Ha. unfold deliver_observe. wp_step. apply wp_observe; [done| |].
  - intros w1 Hinv1 Ho. cbn [after]. wp_step. apply wp_on_world. unfold now_io, wp; cbn [after fst snd].
    apply (delivered_recorded uid record now0 appliedAt w1); [done|done|by eapply answered_mono|apply Hinv1|by left|by right|].
    intros w2 Hst Ha2. apply delivered_refused; [done| |].
    + apply inv_ahead; [by eapply inv_unstored|by split; intros; [|eapply answered_mono]|]. destruct Hb as (s & -> & Hs). by rewrite lookup_insert_eq, <- Hs.
    + right. destruct Hb as (s & -> & Hs). eexists. by rewrite insert_insert_eq.
  - intros e w1 Hinv1. cbn [after]. apply delivered_refused; [done|done|by right].
Qed.

Lemma restoreState_back uid s (states : adapter_states) (w : W) :
  restoreState (A := A) uid (states !! uid) (<[uid := s]> states, w) = (Ok tt, (states, w)).
Proof.
  unfold restoreState. destruct (states !! uid) as [p|] eqn:E; cbn.
  - change (set_entry (A := A) uid p (<[uid := s]> states, w) = (Ok tt, (states, w))). unfold set_entry, mbind, io_bind, get_state, put_state.
    cbn. by rewrite insert_insert_eq, insert_id.
  - unfold delete_entry, mbind, io_bind, get_state, put_state. cbn. by rewrite delete_insert_eq, delete_id.
Qed.

(** The application is changed only in a world in which the lease is on disk. *)
Lemma wp_apply address port states (w : W) (Q : res (res unit) -> adapter_states * W -> Prop) :
  adapter_inv I J states w -> announced w.1 address port ->
  (forall w', adapter_inv I J states w' -> answered J (app_Apply address port true) (Ok tt) -> Q (Ok (Ok tt)) (states, w')) ->
  (forall e w', adapter_inv I J states w' -> Q (Ok (Fail e)) (states, w')) ->
  wp (io_try (on_world (app_Apply address port true))) Q (states, w).
Proof.
  intros Hinv Hann Hok Hfail. wp_step. apply wp_on_world. wp_run r w1 E.
  assert (J w) as HI by apply Hinv. pose proof (ex_apply Hex address port true w) as Hd.
  pose proof (th_apply _ _ Hth address port w HI Hann) as HI1. rewrite E in Hd, HI1. cbn in Hd, HI1.
  assert (adapter_inv I J states w1) as Hinv1 by (destruct w; by eapply inv_world).
  destruct r as [[]|e]; [apply Hok; [done|by exists w, w1]|by apply Hfail].
Qed.

Lemma deliver_pending_spec uid record now0 before w :
  adapter_inv I J before w ->
  wp (deliver_pending h uid record (before !! uid)) (delivered uid record now0 before) (before, w).
Proof.
  intros Hinv. unfold deliver_pending. set (already := match before !! uid with Some _ => _ | None => _ end).
  assert (truthful I (mkAdapterState record (default zero_time already) zero_time "") /\ (is_Some already -> applied record)) as [Htrue Happ].
  { assert (is_Some already -> applied record) as Happ.
    { subst already. destruct (before !! uid) as [p|] eqn:Ep; [|by intros []]. destruct (_ && _) eqn:Ei; [|by intros []]. intros _.
      apply andb_true_iff in Ei as [Hid Hz%negb_true_iff]. apply (same_identity_applied _ _ Hid). destruct Hinv as (_ & Hmem & _).
      apply (Hmem uid p Ep). by left. }
    split; [|done]. split; cbn; [|done]. intros [Hz|]; [|done]. apply Happ. by destruct already. }
  wp_step. apply wp_set. cbn [after]. do 2 wp_step. wp_with persist_spec.
  intros r [states' w1] (E & Ha1 & Hr). cbn in E, Ha1, Hr. subst states'. destruct r as [u|e].
  2: { wp_step. eapply wp_intro; [apply restoreState_back|]. cbn [after]. apply delivered_refused; [done|by eapply inv_unstored|by left]. }
  assert (adapter_inv I J (<[uid := mkAdapterState record (default zero_time already) zero_time ""]> before) w1) as Hinv1 by by eapply inv_recorded.
  destruct already as [appliedAt|] eqn:Ealready.
  { apply deliver_observe_spec; [done|by eexists|by apply Happ]. }
  wp_step. apply wp_apply; [done| | |].
  - eexists _, uid, _. split; [exact Hr|]. rewrite lookup_insert_eq. split; [done|]. cbn. tauto.
  - intros w2 Hinv2 Hap. apply (answered_mono _ I) in Hap; [|done]. cbn [after]. wp_step. apply wp_on_world. unfold now_io, wp at 1; cbn [after fst snd].
    set (s2 := mkAdapterState record (Now w2) zero_time "").
    assert (truthful I s2) as Htrue2 by (split; cbn; [done|done]).
    wp_step. apply wp_set. cbn [after]. rewrite insert_insert_eq. do 2 wp_step. wp_with persist_spec.
    intros r [states' w3] (E & Ha3 & Hr3). cbn in E, Ha3, Hr3. subst states'.
    pose proof (inv_ahead _ _ uid s2 Hinv2 Htrue2 ltac:(by rewrite lookup_insert_eq)) as Hinv3. rewrite insert_insert_eq in Hinv3.
    destruct r as [v|e].
    + apply deliver_observe_spec; [|by eexists|done]. destruct Hinv3 as (HI3 & Hmem3 & _). destruct w2 as [d2 a2], w3 as [d3 a3]. cbn in Ha3. subst a3.
      split; [by apply (th_disk _ _ Hth d2)|]. split; [done|]. by eexists.
    + apply delivered_refused; [done|by eapply inv_unstored|right; by eexists].
  - intros e w2 Hinv2. cbn [after]. apply delivered_refused; [done|done|right; by eexists].
Qed.

Lemma deliver_renewal_spec uid record now0 before held w :
  adapter_inv I J before w -> before !! uid = Some held -> renews h record held = true -> qh_PodUID h <> "" ->
  wp (deliver_renewal h uid record held) (delivered uid record now0 before) (before, w).
Proof.
  intros Hinv Hheld Hren Hpod. unfold renews in Hren. pose proof Hren as Hren'. rewrite !andb_true_iff, String.eqb_eq in Hren. destruct Hren as [[[Hid Hp] _] _].
  assert (truthful I held) as [Hap Hob] by (destruct Hinv as (_ & Hmem & _); by apply (Hmem uid)).
  destruct (same_identity_applied _ _ Hid) as [Hap' Hob']. rewrite Hp in Hap, Hob.
  unfold deliver_renewal. wp_step. apply wp_on_world. unfold now_io, wp at 1; cbn [after fst snd].
  apply (delivered_recorded uid record now0 _ w _ before before w); [done|by apply Hap', Hap; right|by apply Hob', Hob|apply Hinv|right; by exists held|by left|].
  intros w1 Hst Ha1. wp_step. apply wp_set. cbn [after]. rewrite insert_insert_eq, insert_id by done.
  apply delivered_refused; [done|by eapply inv_unstored|by left].
Qed.

(** What a delivery request does: nothing, or this lease has the record of the
    request, which follows the one before; with an acknowledgement, the latter. *)
Definition deliver_result (uid body : string) (now0 : time) (before : adapter_states)
    (r : res HttpResponse) (sw' : adapter_states * W) : Prop :=
  adapter_inv I J sw'.1 sw'.2 /\ exists response, r = Ok response /\
    (sw'.1 = before \/ exists s, sw'.1 = <[uid := s]> before /\ decodeStrict body = Ok (qs_Record s) /\
       forall held, before !! uid = Some held -> follows (qs_Record held) (qs_Record s)) /\
    (rs_StatusCode response = StatusOK ->
       exists record, decodeStrict body = Ok record /\ validRecord h record uid now0 = true /\
         acknowledged uid record now0 before response sw'.1).

Lemma deliver_spec uid body before w :
  adapter_inv I J before w -> qh_PodUID h <> "" ->
  wp (deliver h uid body) (deliver_result uid body (Now w) before) (before, w).
Proof.
  intros Hinv Hpod. unfold deliver.
  assert (forall status, (status =? StatusOK) = false -> wp (refuse (A := A) status) (deliver_result uid body (Now w) before) (before, w)) as Hrefuse.
  { intros status Hs. unfold refuse. wp_step. split; [done|]. eexists. split; [done|]. split; [by left|]. cbn. intros ->. done. }
  destruct (decodeStrict body) as [record|e] eqn:Eb; [|by apply Hrefuse].
  wp_step. apply wp_on_world. unfold now_io at 1, wp at 1; cbn [after fst snd].
  destruct (validRecord h record uid (Now w)) eqn:Ev; [|by apply Hrefuse]. cbn [negb].
  wp_step. apply wp_get_state. cbn [after]. cbv zeta. destruct (conflicts record (before !! uid)) eqn:Ec; [by apply Hrefuse|].
  wp_step. apply wp_on_world. unfold now_io, wp at 1; cbn [after fst snd].
  assert (forall m, wp m (delivered uid record (Now w) before) (before, w) ->
    wp m (deliver_result uid body (Now w) before) (before, w)) as Hgo.
  { intros m Hm. eapply wp_mono; [exact Hm|]. intros r sw' (Hinv' & Hb & response & -> & Hack). split; [done|].
    exists response. split; [done|]. split; [|intros Hs; exists record; auto].
    destruct Hb as [Hb|(s & Hb & Hs)]; [by left|]. right. exists s. rewrite Hs. split_and!; [done|done|].
    intros held Hheld. rewrite Hheld in Ec. by apply not_conflicts. }
  apply Hgo. clear Hrefuse Hgo. destruct (before !! uid) as [held|] eqn:Eh; [|rewrite <- Eh; by apply deliver_pending_spec].
  destruct (renews h record held) eqn:Er; [by apply deliver_renewal_spec|].
  destruct (still_fresh h record held (Now w)) eqn:Ef; [|rewrite <- Eh; by apply deliver_pending_spec].
  pose proof Ef as Ef'. unfold still_fresh in Ef. rewrite !andb_true_iff, String.eqb_eq in Ef. destruct Ef as [[[_ Hp] ->%recordsEqual_eq] Ht].
  unfold writeAcknowledgement. wp_step. split; [done|]. split; [by left|]. eexists. split; [done|]. intros _.
  assert (truthful I held) as [Hap Hob] by (destruct Hinv as (_ & Hmem & _); by apply (Hmem uid)). rewrite Hp in Hap, Hob.
  exists held, (last_observed held). split_and!; [done|done|done|apply Hap; by right|by apply Hob|right; by exists held].
Qed.

(** *** Withdrawal *)

(** The intent is of the very generation that is held. *)
Definition exactly (intent : AdapterWithdrawalIntent) (record : AdapterLeaseRecord) : Prop :=
  ar_HandoffGeneration record = aw_HandoffGeneration intent /\ ar_PodUID record = aw_PodUID intent.

(** The backend port is put back now, unless there is no endpoint any more. *)
Definition given_back (intent : AdapterWithdrawalIntent) (record : AdapterLeaseRecord) : Prop :=
  aw_ApplicationEndpointRetired intent = true \/
  answered J (app_Apply (ar_ApplicationAddress record) (ar_BackendPort record) true) (Ok tt) /\
  answered J (app_Observe (ar_ApplicationAddress record) (ar_BackendPort record) ["tcp"; "udp"]) (Ok tt).

Definition withdraw_result (uid body : string) (before : adapter_states) (r : res HttpResponse) (sw' : adapter_states * W) : Prop :=
  adapter_inv I J sw'.1 sw'.2 /\ exists response, r = Ok response /\
    (sw'.1 = before \/ sw'.1 = delete uid before /\ exists intent s,
       decodeStrict body = Ok intent /\ validWithdrawal h intent uid = true /\ before !! uid = Some s /\ exactly intent (qs_Record s)) /\
    (rs_StatusCode response = StatusOK ->
       exists intent t, decodeStrict body = Ok intent /\ validWithdrawal h intent uid = true /\ sw'.1 !! uid = None /\
         rs_Body response = encoded (withdrawn_of intent t) /\
         forall s, before !! uid = Some s -> exactly intent (qs_Record s) /\ given_back intent (qs_Record s)).

Lemma inv_disk_record states w uid s : adapter_inv I J states w -> states !! uid = Some s ->
  exists disk s', stored w.1 = Some disk /\ disk !! uid = Some s' /\ qs_Record s' = qs_Record s.
Proof.
  intros (_ & _ & disk & Hd & _ & Hrec) Hs. apply (f_equal (.!! uid)) in Hrec. rewrite !lookup_fmap, Hs in Hrec.
  destruct (disk !! uid) as [s'|] eqn:E; [|done]. injection Hrec as Hrec. by exists disk, s'.
Qed.

Lemma restore_backend_spec intent record states w :
  adapter_inv I J states w -> announced w.1 (ar_ApplicationAddress record) (ar_BackendPort record) ->
  wp (restore_backend h intent record)
    (fun r sw' => sw'.1 = states /\ adapter_inv I J states sw'.2 /\ exists b, r = Ok b /\ (b = true -> given_back intent record)) (states, w).
Proof.
  intros Hinv Hann. unfold restore_backend. wp_step. apply wp_apply; [done|done| |].
  - intros w1 Hinv1 Ha. cbn [after]. wp_step. apply wp_observe; [done| |].
    + intros w2 Hinv2 Ho. cbn [after]. wp_step. split_and!; [done|done|]. exists true. split; [done|]. intros _. by right.
    + intros e w2 Hinv2. cbn [after]. wp_step. split_and!; [done|done|]. eexists. split; [done|]. intros Hr. by left.
  - intros e w1 Hinv1. cbn [after]. wp_step. split_and!; [done|done|]. eexists. split; [done|]. intros Hr. by left.
Qed.

Lemma withdraw_spec uid body before w :
  adapter_inv I J before w -> wp (withdraw h uid body) (withdraw_result uid body before) (before, w).
Proof.
  intros Hinv. unfold withdraw.
  assert (forall status w', (status =? StatusOK) = false -> adapter_inv I J before w' ->
    wp (refuse (A := A) status) (withdraw_result uid body before) (before, w')) as Hrefuse.
  { intros status w' Hs Hinv'. unfold refuse. wp_step. split; [done|]. eexists. split; [done|]. split; [by left|]. cbn. intros ->. done. }
  destruct (decodeStrict body) as [intent|e] eqn:Eb; [|by apply Hrefuse].
  destruct (validWithdrawal h intent uid) eqn:Ev; [|by apply Hrefuse]. cbn [negb].
  wp_step. apply wp_get_state. cbn [after]. destruct (before !! uid) as [s|] eqn:Es.
  2: { unfold writeWithdrawalAcknowledgement. wp_step. apply wp_on_world. unfold now_io, wp at 1; cbn [after fst snd]. wp_step.
       split; [done|]. eexists. split; [done|]. split; [by left|]. intros _. exists intent, (Now w). by rewrite Es. }
  destruct (_ || _) eqn:Ex; [by apply Hrefuse|]. apply orb_false_iff in Ex as [Eg%negb_false_iff%Z.eqb_eq Ep%negb_false_iff%String.eqb_eq].
  destruct (inv_disk_record _ _ _ _ Hinv Es) as (disk & s' & Hd & Hs' & Hrec).
  wp_step. wp_with restore_backend_spec; [done| |].
  { exists disk, uid, s'. rewrite Hrec. tauto. }
  intros r [states w1] (E & Hinv1 & b & -> & Hb). cbn in E, Hinv1. subst states. cbn [after].
  destruct b; [|by apply Hrefuse]. cbn [negb]. wp_step. unfold delete_entry at 1. wp_step. apply wp_get_state. cbn [after].
  apply wp_put_state. cbn [after]. do 2 wp_step. wp_with persist_spec.
  intros r [states w2] (E & Ha2 & Hr). cbn in E, Ha2, Hr. subst states. destruct r as [u|e].
  - unfold writeWithdrawalAcknowledgement. wp_step. apply wp_on_world. unfold now_io, wp at 1; cbn [after fst snd]. wp_step.
    destruct Hinv1 as (HI & Hmem & _). destruct w1 as [d1 a1], w2 as [d2 a2]. cbn in Ha2. subst a2.
    assert (map_Forall (fun _ => truthful I) (delete uid before)) as Hdel by by apply map_Forall_delete.
    split. { split; [by apply (th_disk _ _ Hth d1)|]. split; [done|]. by eexists. }
    eexists. split; [done|]. split; [right; split; [done|]; by exists intent, s|]. intros _. exists intent, (Now (d2, a1)).
    split_and!; [done|done|apply lookup_delete_eq|done|]. rewrite Es. intros s0 [= <-]. split; [done|by apply Hb].
  - wp_step. apply wp_set. cbn [after]. rewrite insert_delete_id by done. apply Hrefuse; [done|by eapply inv_unstored].
Qed.

(** *** Requests *)

Lemma Load_spec states (w : W) :
  stored w.1 = Some states ->
  wp (Load h) (fun r (w' : W) => w'.2 = w.2 /\ same_names w.1 w'.1 /\ forall states', r = Ok states' -> states' = states) w.
Proof.
  intros Hst. unfold Load. rewrite (ex_file Hex). do 2 wp_step. apply wp_on_file.
  apply wp_ReadFile; [intros contents d Hf Hs|intros e d Hs Hne]; cbn [after].
  - unfold stored in Hst. rewrite Hf in Hst. destruct (decodeStrict contents) as [m|e]; wp_step; cbn; (split_and!; [done|done|]); congruence.
  - destruct (errors_is e ErrNotExist); wp_step; cbn; (split_and!; [done|done|]); [|done]. intros states' [= <-].
    unfold stored in Hst. rewrite Hne in Hst by done. destruct (others w.1 !! f); congruence.
Qed.

Lemma inv_names states d d' a : adapter_inv I J states (d, a) -> same_names d d' -> adapter_inv I J states (d', a).
Proof. intros Hinv Hs. eapply inv_unstored; [exact Hinv|done|]. by apply stored_same. Qed.

(** A request to a lease is served by the states known when it comes, unless they
    cannot be loaded. *)
Lemma with_states_spec m (Q : res HttpResponse -> adapter_states * W -> Prop) before sw :
  current I J before sw ->
  (forall w, adapter_inv I J before w -> Now w = Now sw.2 -> wp m Q (before, w)) ->
  wp (with_states h m)
    (fun r sw' => (current I J before sw' /\ r = Ok (writeError StatusServiceUnavailable)) \/
       exists later, sw'.1 = Some later /\ Q r (later, sw'.2)) sw.
Proof.
  intros [Hk Hinv] Hm. destruct sw as [held [d a]]. unfold with_states. wp_step. apply wp_get_state. cbn [after].
  assert (forall d', adapter_inv I J before (d', a) -> wp (run_on before m)
    (fun r sw' => exists later, sw'.1 = Some later /\ Q r (later, sw'.2)) (held, (d', a))) as Hrun.
  { intros d' Hinv'. specialize (Hm (d', a) Hinv' (ex_now Hex d' d a)). unfold wp, run_on in *. cbn [snd].
    destruct (m (before, (d', a))) as [r [later w2]]. cbn in *. by exists later. }
  destruct held as [states|]; cbn in Hk.
  - injection Hk as ->. do 3 wp_step. cbn [after]. eapply wp_mono; [by apply Hrun|]. intros r sw' Hr. by right.
  - do 2 wp_step. apply wp_on_world. cbn in Hinv. wp_with Load_spec; [done|]. intros r [d1 a1] (Ha & Hs & Hr).
    cbn in Ha, Hs. subst a1. pose proof (inv_names _ _ _ _ Hinv Hs) as Hinv1. destruct r as [states|e]; cbn [after].
    + rewrite (Hr states) by done. eapply wp_mono; [by apply Hrun|]. intros r sw' Hr'. by right.
    + wp_step. left. split; [|done]. split; [|done]. cbn. rewrite <- Hk. by apply stored_same.
Qed.

(** What has become of a lease. *)
Definition carried_on (request : HttpRequest) (before later : adapter_states) : Prop :=
  forall uid s, before !! uid = Some s ->
    (exists s', later !! uid = Some s' /\ follows (qs_Record s) (qs_Record s')) \/
    (later !! uid = None /\ rq_Method request = MethodPost /\ exists intent, decodeStrict (rq_Body request) = Ok intent /\
       aw_LeaseUID intent = uid /\ exactly intent (qs_Record s)).

Definition served_delivery (request : HttpRequest) (now0 : time) (before : adapter_states) (response : HttpResponse)
    (later : adapter_states) : Prop :=
  rq_Method request = MethodPut -> rs_StatusCode response = StatusOK ->
  exists record, decodeStrict (rq_Body request) = Ok record /\ validRecord h record (ar_LeaseUID record) now0 = true /\
    acknowledged (ar_LeaseUID record) record now0 before response later.

Definition served_withdrawal (request : HttpRequest) (before : adapter_states) (response : HttpResponse) (later : adapter_states) : Prop :=
  rq_Method request = MethodPost -> rs_StatusCode response = StatusOK ->
  exists intent t, decodeStrict (rq_Body request) = Ok intent /\ later !! aw_LeaseUID intent = None /\
    rs_Body response = encoded (withdrawn_of intent t) /\
    forall s, before !! aw_LeaseUID intent = Some s -> exactly intent (qs_Record s) /\ given_back intent (qs_Record s).

Definition served (request : HttpRequest) (now0 : time) (before : adapter_states)
    (r : res HttpResponse) (sw' : option adapter_states * W) : Prop :=
  exists response later, r = Ok response /\ current I J later sw' /\ carried_on request before later /\
    served_delivery request now0 before response later /\ served_withdrawal request before response later.

Lemma carried_on_refl request states : carried_on request states states.
Proof. intros uid s Hs. left. exists s. split; [done|apply follows_refl]. Qed.

(** A response that acknowledges nothing. *)
Lemma served_nothing request now0 before response sw' :
  current I J before sw' ->
  (rs_StatusCode response = StatusOK -> rq_Method request <> MethodPut /\ rq_Method request <> MethodPost) ->
  served request now0 before (Ok response) sw'.
Proof.
  intros Hcur Hno. exists response, before. split; [done|]. split; [done|]. split; [apply carried_on_refl|].
  split; intros Hm Hs; destruct (Hno Hs); done.
Qed.

Lemma served_deliver request now0 before uid r later w :
  rq_Method request = MethodPut -> deliver_result uid (rq_Body request) now0 before r (later, w) ->
  served request now0 before r (Some later, w).
Proof.
  intros Hm (Hinv & response & -> & Hch & Hack). cbn [fst snd] in *. exists response, later. split; [done|]. split; [done|]. split_and!.
  - intros u s Hs. left. destruct Hch as [->|(s' & -> & _ & Hf)]; [exists s; split; [done|apply follows_refl]|].
    destruct (decide (u = uid)) as [->|Hne]; [exists s'; rewrite lookup_insert_eq; auto|].
    exists s. rewrite lookup_insert_ne by done. split; [done|apply follows_refl].
  - intros _ Hs. destruct (Hack Hs) as (record & Hd & Hv & Ha). exists record.
    assert (ar_LeaseUID record = uid) as ->; [|done]. unfold validRecord in Hv.
    destruct (String.eqb (ar_LeaseUID record) uid) eqn:E; [by apply String.eqb_eq|]. cbn [negb] in Hv. by rewrite !orb_true_r in Hv.
  - intros Hm'. rewrite Hm in Hm'. discriminate.
Qed.

Lemma served_withdraw request now0 before uid r later w :
  rq_Method request = MethodPost -> withdraw_result uid (rq_Body request) before r (later, w) ->
  served request now0 before r (Some later, w).
Proof.
  assert (forall intent, validWithdrawal h intent uid = true -> aw_LeaseUID intent = uid) as Huid.
  { intros intent. unfold validWithdrawal. rewrite !andb_true_iff, !String.eqb_eq. tauto. }
  intros Hm (Hinv & response & -> & Hch & Hack). cbn [fst snd] in *. exists response, later. split; [done|]. split; [done|]. split_and!.
  - intros u s Hs. destruct Hch as [->|(-> & intent & s' & Hd & Hv & Hs' & Hx)]; [by apply carried_on_refl|].
    destruct (decide (u = uid)) as [->|Hne].
    + right. simplify_eq/=. split; [apply lookup_delete_eq|]. split; [done|]. exists intent. auto.
    + left. exists s. cbn. rewrite lookup_delete_ne by done. split; [done|apply follows_refl].
  - intros Hm'. rewrite Hm in Hm'. discriminate.
  - intros _ Hs. destruct (Hack Hs) as (intent & t & Hd & Hv & Hn & Hb & Ho). exists intent, t. by rewrite (Huid intent Hv).
Qed.

Lemma ServeHTTP_served peer request before sw :
  current I J before sw -> wp (ServeHTTP h peer request) (served request (Now sw.2) before) sw.
Proof.
  intros Hcur. unfold ServeHTTP.
  assert (forall status, (status =? StatusOK) = false ->
    wp (mret (writeError status)) (served request (Now sw.2) before) sw) as Hrefuse.
  { intros status Hs. wp_step. apply served_nothing; [done|]. cbn. intros ->. done. }
  destruct (unescape _) as [path|]; [|by apply Hrefuse]. destruct (received_EscapedPath _) as [escaped|]; [|by apply Hrefuse].
  destruct (_ || _) eqn:Eguard; [by apply Hrefuse|]. apply orb_false_iff in Eguard as [_ Hpod].
  destruct (String.eqb path adapterHealthPath).
  { wp_step. destruct sw as [st w]. apply wp_on_world. unfold now_io, wp at 1; cbn [after fst snd]. wp_step. apply served_nothing; [done|].
    unfold health_reply. destruct (_ && _); [done|]. destruct (String.eqb (rq_Method request) MethodGet) eqn:Em; [|done].
    apply String.eqb_eq in Em as ->. done. }
  destruct (_ && _); [by apply Hrefuse|]. destruct (parsePath escaped) as [[uid operation]|]; [|by apply Hrefuse].
  destruct (negb _); [by apply Hrefuse|]. unfold request_body. destruct (_ <? _); [by apply Hrefuse|].
  eapply wp_mono; [apply (with_states_spec (serve_lease h (rq_Method request) operation uid (rq_Body request))
    (fun r lw => served request (Now sw.2) before r (Some lw.1, lw.2)) before sw Hcur)|cbn beta].
  - intros w Hinv Hnow. unfold serve_lease.
    destruct (str_empty operation && String.eqb (rq_Method request) MethodPut) eqn:Eput.
    { apply andb_true_iff in Eput as [_ Hm%String.eqb_eq]. wp_with deliver_spec; [done|by intros E; rewrite E in Hpod|].
      intros r [later w'] Hr. rewrite Hnow in Hr. by eapply served_deliver. }
    destruct (String.eqb operation "withdraw" && String.eqb (rq_Method request) MethodPost) eqn:Epost.
    { apply andb_true_iff in Epost as [_ Hm%String.eqb_eq]. wp_with withdraw_spec; [done|].
      intros r [later w'] Hr. by eapply served_withdraw. }
    unfold refuse. wp_step. apply served_nothing; [done|]. cbn. done.
  - intros r sw' [[Hcur' ->]|(later & E & Hr)]; [apply served_nothing; [done|cbn; done]|].
    destruct sw' as [st w']. cbn in E, Hr. by subst st.
Qed.

End Histories.

(** ** The theorems *)

Section Theorems.
Context {A : Type} `{ApplicationConfigurer (FS * A)} `{Timer (FS * A)}.
Context `{JsonLaws adapter_states} `{JsonLaws AdapterLeaseRecord} `{JsonLaws AdapterAcknowledgement}.
Context `{JsonLaws AdapterWithdrawalIntent} `{JsonLaws AdapterWithdrawalAcknowledgement} `{JsonLaws AdapterHealthObservation}.
Context (h : Handler) (f : string * string) (around : A -> A -> Prop).

Notation W := (FS * A)%type.

(** Time does not run backwards while the application is asked. *)
Record clocked : Prop := {
  cl_apply address port b (w : W) : Now w <= Now (app_Apply address port b w).2;
  cl_observe address port protocols (w : W) : Now w <= Now (app_Observe address port protocols w).2;
  cl_select d t (w : W) : Now w <= Now (Select d t w).2
}.

(** What holds from a moment on. *)
Definition since (I : W -> Prop) (now0 : time) (w : W) : Prop := I w /\ now0 <= Now w.

Lemma throughout_since I now0 : exclusive h f -> clocked -> throughout f around I -> throughout f (fun _ _ => False) (since I now0).
Proof.
  intros Hex Hcl Hth. split.
  - intros d d' a [HI Hn]. split; [by apply (th_disk _ _ _ Hth d)|]. by rewrite (ex_now _ _ Hex d' d).
  - intros address port w [HI Hn] Hann. split; [by apply (th_apply _ _ _ Hth)|]. pose proof (cl_apply Hcl address port true w). lia.
  - intros address port w [HI Hn]. split; [by apply (th_observe _ _ _ Hth)|]. pose proof (cl_observe Hcl address port ["tcp"; "udp"] w). lia.
  - intros d t w [HI Hn]. split; [by apply (th_select _ _ _ Hth)|]. pose proof (cl_select Hcl d t w). lia.
  - done.
Qed.

Lemma reached_current I w0 sw :
  exclusive h f -> throughout f around I -> I w0 -> reached h f around w0 sw -> exists states, current f I I states sw.
Proof.
  intros Hex Hth HI. induction 1 as [Hst|sw peer request _ [states IH]|states d d' a _ [states' [_ IH]] Hs|states d d' a a' _ [states' [Hk IH]] Hs Har].
  - exists ∅. split; [done|]. split; [done|]. split; [apply map_Forall_empty|]. exists ∅. split; [done|]. split; [apply map_Forall_empty|done].
  - pose proof (ServeHTTP_served h f Hex around I I Hth (fun _ HI => HI) peer request states sw IH) as Hs.
    destruct (ServeHTTP h peer request sw) as [r sw'] eqn:E. destruct (wp_elim _ _ _ _ _ Hs E) as (response & later & _ & Hcur & _).
    by exists later.
  - destruct IH as (HIw & _ & disk & Hd & Htrue & Hrec). exists disk. split; [cbn; by rewrite (stored_same f d)|].
    split; [by apply (th_disk _ _ _ Hth d)|]. split; [done|]. exists disk. cbn. by rewrite (stored_same f d).
  - assert (stored f d' = stored f d) as Hst by by apply stored_same. exists states'. split.
    + unfold known in *. cbn in *. destruct states; [done|]. by rewrite Hst.
    + destruct IH as (HIw & Hmem & Hd). split; [apply (th_around _ _ _ Hth d' a); [done|by apply (th_disk _ _ _ Hth d)]|]. split; [done|]. cbn. by rewrite Hst.
Qed.

(** Serving in a reached world, with what held before the request and what holds
    since. *)
Lemma reached_served I w0 sw peer request :
  exclusive h f -> clocked -> throughout f around I -> I w0 -> reached h f around w0 sw ->
  exists before, known f sw = Some before /\
    wp (ServeHTTP h peer request) (served h f I (since I (Now sw.2)) request (Now sw.2) before) sw.
Proof.
  intros Hex Hcl Hth HI Hr. destruct (reached_current I w0 sw Hex Hth HI Hr) as (before & Hk & HIw & Hrest). exists before. split; [done|].
  apply (ServeHTTP_served h f Hex (fun _ _ => False)); [by apply throughout_since|by intros w []|]. split; [done|]. split; [by split|done].
Qed.

(** An adapter acknowledges what it has done.  In any history, over any
    disk faults and restarts, a delivery that is answered with success is
    answered for exactly the record of the request; that record is valid and is
    on disk when the answer is given; its port was applied to the application,
    and the listener observed, before.  The time in the acknowledgement is not
    older than the freshness that the runtime accepts, and it is that of an
    observation within this request unless this adapter had observed this
    application before and either only the expiry has changed since or that
    observation is still fresh. *)
Lemma acknowledged_applied I w0 sw peer request :
  exclusive h f -> clocked -> throughout f around I -> I w0 -> reached h f around w0 sw -> rq_Method request = MethodPut ->
  wp (ServeHTTP h peer request)
    (fun r sw' => exists response, r = Ok response /\ (rs_StatusCode response = StatusOK ->
       exists record disk s t, decodeStrict (rq_Body request) = Ok record /\
         validRecord h record (ar_LeaseUID record) (Now sw.2) = true /\
         stored f sw'.2.1 = Some disk /\ disk !! ar_LeaseUID record = Some s /\ qs_Record s = record /\
         applied I record /\ observed I record /\
         rs_Body response = encoded (acknowledgement_of record t) /\ Now sw.2 - DefaultObservationFreshness < t /\
         (observed (since I (Now sw.2)) record \/
          exists before held, known f sw = Some before /\ before !! ar_LeaseUID record = Some held /\
            (renews h record held = true \/ still_fresh h record held (Now sw.2) = true /\ t = last_observed held)))) sw.
Proof.
  intros Hex Hcl Hth HI Hr Hm. destruct (reached_served I w0 sw peer request Hex Hcl Hth HI Hr) as (before & Hk & Hs).
  eapply wp_mono; [exact Hs|]. intros r sw' (response & later & -> & [_ Hinv] & _ & Hdel & _). exists response. split; [done|]. intros Hok.
  destruct (Hdel Hm Hok) as (record & Hd & Hv & s & t & Hl & Hrec & Hb & Hap & Hob & Ht).
  destruct (inv_disk_record f _ _ _ _ _ _ Hinv Hl) as (disk & s' & Hst & Hs' & Hrec').
  exists record, disk, s', t. split_and!; [done|done|done|done|congruence|done|done|done| |].
  - destruct Ht as [((w & [_ Hw] & ->) & _)|(held & _ & Hf & ->)]; [pose proof (eq_refl : DefaultObservationFreshness = 20 * Second); unfold Second, Millisecond in *; lia|].
    unfold still_fresh in Hf. apply andb_true_iff in Hf as [_ Hf]. by apply Z.ltb_lt.
  - destruct Ht as [(_ & [Hnow|(held & Hh & Hren)])|(held & Hh & Hf & ->)]; [by left|right; exists before, held; auto..].
Qed.

(** A withdrawal is acknowledged when the port is given back.  In any history,
    a withdrawal answered with success leaves no state of the lease, neither in
    memory nor on disk; where there was one, it was of exactly the generation and
    Pod of the intent, and within this request the backend port was applied to
    the application and observed, unless the intent says that the endpoint is
    retired. *)
Lemma acknowledged_withdrawn I w0 sw peer request :
  exclusive h f -> clocked -> throughout f around I -> I w0 -> reached h f around w0 sw -> rq_Method request = MethodPost ->
  wp (ServeHTTP h peer request)
    (fun r sw' => exists response, r = Ok response /\ (rs_StatusCode response = StatusOK ->
       exists intent disk t, decodeStrict (rq_Body request) = Ok intent /\
         known f sw' ≫= (.!! aw_LeaseUID intent) = None /\ stored f sw'.2.1 = Some disk /\ disk !! aw_LeaseUID intent = None /\
         rs_Body response = encoded (withdrawn_of intent t) /\
         forall s, known f sw ≫= (.!! aw_LeaseUID intent) = Some s ->
           exactly intent (qs_Record s) /\ given_back (since I (Now sw.2)) intent (qs_Record s))) sw.
Proof.
  intros Hex Hcl Hth HI Hr Hm. destruct (reached_served I w0 sw peer request Hex Hcl Hth HI Hr) as (before & Hk & Hs).
  eapply wp_mono; [exact Hs|]. intros r sw' (response & later & -> & [Hk' (_ & _ & disk & Hd & _ & Hrec)] & _ & _ & Hwd).
  exists response. split; [done|]. intros Hok. destruct (Hwd Hm Hok) as (intent & t & Hi & Hn & Hb & Hgiven).
  exists intent, disk, t. rewrite Hk, Hk'. split_and!; [done|done|done| |done|done].
  apply (f_equal (.!! aw_LeaseUID intent)) in Hrec. rewrite !lookup_fmap, Hn in Hrec. by destruct (disk !! _).
Qed.

(** C15: Leases only move on.  In any history, whatever a request asks for and
    whatever fails, every lease that the adapter knows keeps its Pod, application
    address and port or moves on to a later generation; only a withdrawal of
    exactly its generation and Pod removes it.  And at any moment an adapter that
    is restarted knows the same leases with the same records, or fails to load. *)
Theorem leases_move_on w0 sw :
  exclusive h f -> reached h f around w0 sw ->
  exists before, known f sw = Some before /\
    (forall peer request, wp (ServeHTTP h peer request)
       (fun _ sw' => exists later, known f sw' = Some later /\ carried_on request before later) sw) /\
    (forall disk a, same_names sw.2.1 disk ->
       wp (Load (A := A) h) (fun r _ => forall loaded, r = Ok loaded -> qs_Record <$> loaded = qs_Record <$> before) (disk, a)).
Proof.
  intros Hex Hr. assert (forall ar, throughout f ar (fun _ : W => True)) as Hth by done.
  destruct (reached_current (fun _ => True) w0 sw Hex (Hth _) Logic.I Hr) as (before & Hcur). exists before. split; [apply Hcur|]. split.
  - intros peer request. eapply wp_mono; [by apply (ServeHTTP_served h f Hex around _ _ (Hth _) (fun _ HI => HI) peer request before)|].
    intros r sw' (response & later & _ & [Hk _] & Hc & _). by exists later.
  - intros d a Hs. destruct Hcur as [_ (_ & _ & disk & Hd & _ & Hrec)].
    eapply wp_mono; [apply (Load_spec h f Hex disk); cbn; by rewrite (stored_same f sw.2.1)|].
    intros r w' (_ & _ & Hl) loaded ->. by rewrite (Hl loaded).
Qed.

End Theorems.

(** ** The order of effects *)

Section Watched.
Context {A : Type} `{ApplicationConfigurer (FS * A)} `{Timer (FS * A)}.
Context `{JsonLaws adapter_states} `{JsonLaws AdapterLeaseRecord} `{JsonLaws AdapterAcknowledgement}.
Context `{JsonLaws AdapterWithdrawalIntent} `{JsonLaws AdapterWithdrawalAcknowledgement} `{JsonLaws AdapterHealthObservation}.
Context (h : Handler) (f : string * string) (around : A -> A -> Prop).

(** The world with a log of what the application was asked to change, each with
    the disk at that moment. *)
Notation changes := (list (FS * (Addr * Z))).

Definition watch {X} (note : FS -> changes) (m : IO (FS * A) X) : IO (FS * (A * changes)) X := fun w =>
  let '(r, (d', a')) := m (w.1, w.2.1) in (r, (d', (a', w.2.2 ++ note w.1))).

#[local] Instance watched_application : ApplicationConfigurer (FS * (A * changes)) := {|
  app_Apply address port b := watch (fun d => [(d, (address, port))]) (app_Apply address port b);
  app_Observe address port protocols := watch (fun _ => []) (app_Observe address port protocols)
|}.
#[local] Instance watched_timer : Timer (FS * (A * changes)) := {|
  Now w := Now (w.1, w.2.1);
  Select d t := watch (fun _ => []) (Select d t)
|}.

Definition watched_around (w w' : A * changes) : Prop := around w.1 w'.1 /\ w'.2 = w.2.

Lemma watch_disk {X} note (m : IO (FS * A) X) w : (forall w0, (m w0).2.1 = w0.1) -> (watch note m w).2.1 = w.1.
Proof. intros Hm. unfold watch. specialize (Hm (w.1, w.2.1)). by destruct (m _) as [r [d a]]. Qed.
Lemma watch_log {X} note (m : IO (FS * A) X) w : (watch note m w).2.2.2 = w.2.2 ++ note w.1.
Proof. unfold watch. by destruct (m _) as [r [d a]]. Qed.

Lemma watched_exclusive : exclusive (A := A) h f -> exclusive (A := A * changes) h f.
Proof.
  intros [Hfile Hname Ha Ho Hs Hn]. split; [done|done| | | |]; intros; try apply watch_disk; auto. apply Hn.
Qed.

Definition all_announced (w : FS * (A * changes)) : Prop := Forall (fun e => announced f e.1 e.2.1 e.2.2) w.2.2.

Lemma watched_throughout : throughout f watched_around all_announced.
Proof.
  unfold all_announced. split.
  - done.
  - intros address port w Hw Hann. cbn [app_Apply watched_application]. rewrite watch_log. apply Forall_app_2; [done|]. by constructor.
  - intros address port w Hw. cbn [app_Observe watched_application]. by rewrite watch_log, app_nil_r.
  - intros d t w Hw. cbn [Select watched_timer]. by rewrite watch_log, app_nil_r.
  - intros d [a l] [a' l'] [_ E]. cbn in E. by subst l'.
Qed.

(** C7: The intent is on disk before the application is changed.  Whatever ports
    an adapter asked its application to use, in any history over any disk faults
    and restarts, at the moment of asking the state file held a lease of that
    application with that port as its target or backend port: an adapter that
    dies at any point and is started again knows every lease whose port the
    application may be using, and can give it back. *)
Theorem intent_first d0 a0 sw :
  exclusive (A := A) h f -> reached (A := A * changes) h f watched_around (d0, (a0, [])) sw -> all_announced sw.2.
Proof.
  intros Hex Hr. destruct (reached_current h f watched_around all_announced (d0, (a0, [])) sw (watched_exclusive Hex) watched_throughout) as (states & _ & HI & _);
    [by constructor|done|done].
Qed.

End Watched.

(** ** A sample adapter *)

Module QbSample.

Import TransportSample.

(** The application: the clock, which every question advances by a second, and
    the port that it listens on. *)
Notation App := (Z * Z)%type.

#[export] Instance sample_application : ApplicationConfigurer (FS * App) := {|
  app_Apply _ port _ := fun w => (Ok tt, (w.1, (w.2.1 + Second, port)));
  app_Observe _ port _ := fun w =>
    (if w.2.2 =? port then Ok tt else Fail (ENew "qBittorrent listener observation does not match the lease"), (w.1, (w.2.1 + Second, w.2.2)))
|}.
#[export] Instance sample_timer : Timer (FS * App) := {|
  Now w := w.2.1;
  Select d t := fun w => (Ok (d <=? t), (w.1, (Z.max w.2.1 (Z.min d t), w.2.2)))
|}.

Definition record : AdapterLeaseRecord :=
  mkAdapterLeaseRecord AdapterAPIVersion "media" "0f3c1f52-lease" 1 "pod-uid" (Addr4 3405803777) 50000 (2000 * Second) 50000
    (Addr4 168427522) 8080 [ProtocolTCP; ProtocolUDP].
Definition retraction : AdapterWithdrawalIntent :=
  mkAdapterWithdrawalIntent AdapterAPIVersion "media" "0f3c1f52-lease" 1 "pod-uid" false.
Definition adapter : Handler :=
  mkHandler true "media" "torrent" "registry/adapter@sha256:0" "adapter-pod" (Some ("/state", "leases.json"))
    "spiffe://waycloak.io/replacement-controller" "spiffe://waycloak.io/gateway-runtime" 0 0.
Definition state_file : string * string := ("/state", "leases.json").
Definition runtime_peer : list (list string) := [["spiffe://waycloak.io/gateway-runtime"]].

Definition entry (appliedAt observedAt : time) (podUID : string) : adapter_states :=
  {["0f3c1f52-lease" := mkAdapterState record appliedAt observedAt podUID]}.
Definition sample_states : list adapter_states :=
  [∅; entry zero_time zero_time ""; entry (1001 * Second) zero_time ""; entry (1001 * Second) (1002 * Second) "adapter-pod"].

#[export] Instance states_json : Json adapter_states := known_messages sample_states.
#[export] Instance records_json : Json AdapterLeaseRecord := known_messages [record].
#[export] Instance acknowledgements_json : Json AdapterAcknowledgement := known_messages [acknowledgement_of record (1002 * Second)].
#[export] Instance retractions_json : Json AdapterWithdrawalIntent := known_messages [retraction].
#[export] Instance withdrawn_json : Json AdapterWithdrawalAcknowledgement := known_messages [withdrawn_of retraction (1004 * Second)].
#[export] Instance health_json : Json AdapterHealthObservation := {| Marshal _ := None; Decode _ := None |}.

#[export] Instance states_laws : JsonLaws adapter_states := known_messages_laws _.
#[export] Instance records_laws : JsonLaws AdapterLeaseRecord := known_messages_laws _.
#[export] Instance acknowledgements_laws : JsonLaws AdapterAcknowledgement := known_messages_laws _.
#[export] Instance retractions_laws : JsonLaws AdapterWithdrawalIntent := known_messages_laws _.
#[export] Instance withdrawn_laws : JsonLaws AdapterWithdrawalAcknowledgement := known_messages_laws _.
#[export] Instance health_laws : JsonLaws AdapterHealthObservation.
Proof. by split. Qed.

Definition disk : FS := mkFS ∅ ∅ ∅ {["/state"]} 0 [] false.
Definition start : FS * App := (disk, (1000 * Second, 8080)).
Definition put : HttpRequest := mkHttpRequest MethodPut "adapter" (adapterPath "0f3c1f52-lease" "") "" "application/json" "0".
Definition post : HttpRequest := mkHttpRequest MethodPost "adapter" (adapterPath "0f3c1f52-lease" "withdraw") "" "application/json" "0".

Definition status_of (answer : res HttpResponse) : Z := match answer with Ok response => rs_StatusCode response | Fail _ => 0 end.
Definition after_put : option adapter_states * (FS * App) := (ServeHTTP adapter runtime_peer put (None, start)).2.
Definition after_post : option adapter_states * (FS * App) := (ServeHTTP adapter runtime_peer post after_put).2.

(** Around the adapter, time passes. *)
Definition waiting (a a' : App) : Prop := a.1 <= a'.1.

Lemma sample_exclusive : exclusive adapter state_file.
Proof. by split. Qed.
Lemma put_answered : status_of (ServeHTTP adapter runtime_peer put (None, start)).1 = StatusOK /\ after_put.2.2.2 = 50000.
Proof. split; vm_compute; reflexivity. Qed.
Lemma post_answered : status_of (ServeHTTP adapter runtime_peer post after_put).1 = StatusOK /\ after_post.2.2.2 = 8080.
Proof. split; vm_compute; reflexivity. Qed.
Lemma sample_reached : reached adapter state_file waiting start after_put.
Proof. apply reached_serve, reached_start. reflexivity. Qed.

Lemma restart_names d : same_names d (restart d).
Proof. by split. Qed.

(** What was delivered is known after a restart. *)
Lemma leases_move_on_witness :
  exists before, known state_file after_put = Some before /\
    wp (Load (A := App) adapter) (fun r _ => forall loaded, r = Ok loaded -> qs_Record <$> loaded = qs_Record <$> before)
      (restart after_put.2.1, (0, 0)).
Proof.
  destruct (leases_move_on adapter state_file waiting start after_put sample_exclusive sample_reached) as (before & Hk & _ & Hload).
  exists before. split; [exact Hk|]. apply Hload. apply restart_names.
Defined.

(** The one change of the first delivery was on disk before it was asked for. *)
Definition watched_put := (ServeHTTP (A := App * list (FS * (Addr * Z))) (H := watched_application) (H0 := watched_timer)
  adapter runtime_peer put (None, (disk, ((1000 * Second, 8080), [])))).2.

Lemma watched_log : map snd watched_put.2.2.2 = [(Addr4 168427522, 50000)].
Proof. vm_compute. reflexivity. Qed.

Lemma intent_first_witness :
  map snd watched_put.2.2.2 = [(Addr4 168427522, 50000)] /\ all_announced state_file watched_put.2.
Proof.
  split; [exact watched_log|].
  apply (intent_first adapter state_file waiting disk (1000 * Second, 8080) watched_put sample_exclusive).
  apply reached_serve, reached_start. reflexivity.
Defined.

End QbSample.
