(* ===== verification/QbClient.v ===== *)
(** * The client of qBittorrent (internal/qbittorrentadapter/client.go)

    What the adapter asks of the application's WebUI: a login, the preferences,
    new preferences and a new announcement, in a session with a cookie jar of
    its own; and the probes of the listener.  The jar with the transport, the
    network and the decoder of preferences are parameters. *)

From Stdlib Require Import Ascii.
From S2P Require Import Prelude Netip CniTypes CniPlugin Files Http PortTransport PortDelivery QbAdapter.

(** ** Requests *)

(** A request to the origin, with the host that it names. *)
Record WebRequest := mkWebRequest {
  wq_Method : string;
  wq_Origin : string;
  wq_Host : string;
  wq_Path : string;
  wq_ContentType : string;
  wq_Body : string
}.

#[global] Instance WebRequest_eq_dec : EqDecision WebRequest.
Proof. solve_decision. Defined.

(** [http.Client] with a [cookiejar.Jar]: a new jar, and a request that may use
    and change it. *)
Class WebClient (Jar W : Type) := {
  jar_New : Jar;
  jar_Do : WebRequest -> IO (Jar * W) HttpResponse
}.

(** [net.Dialer] and its connections; the context's deadline, if there is one. *)
Class Dialer (Conn W : Type) := {
  net_Dial : string -> AddrPort -> IO W Conn;
  conn_SetDeadline : Conn -> time -> IO W unit;
  conn_Write : Conn -> string -> IO W unit;
  conn_Read : Conn -> Z -> IO W string;
  conn_Close : Conn -> IO W unit;
  ctx_Deadline : W -> option time
}.

Record observedPreferences := mkObservedPreferences {
  op_ListenPort : Z;
  op_RandomPort : bool;
  op_UPnP : bool
}.

(** The first JSON value of a text, if it is one of preferences; other fields
    are ignored. *)
Class PreferencesJson := decode_preferences : string -> option observedPreferences.

Record Client (W : Type) := mkClient {
  qc_Transport : bool;
  qc_Port : Z;
  qc_ServerName : string;
  qc_Username : string;
  qc_Password : string;
  qc_Probe : option (AddrPort -> IO W unit);
  qc_ProtocolProbe : option (string -> AddrPort -> IO W unit)
}.
Arguments mkClient {W}.
Arguments qc_Transport {W}.
Arguments qc_Port {W}.
Arguments qc_ServerName {W}.
Arguments qc_Username {W}.
Arguments qc_Password {W}.
Arguments qc_Probe {W}.
Arguments qc_ProtocolProbe {W}.

(** [url.QueryEscape]. *)
Fixpoint QueryEscape (s : string) : string :=
  match s with
  | EmptyString => ""
  | String c rest =>
      if unreserved c then String c (QueryEscape rest)
      else if Ascii.eqb c " " then String "+" (QueryEscape rest)
      else String "%" (String (upper_hex (byte_of c / 16)) (String (upper_hex (byte_of c mod 16)) (QueryEscape rest)))
  end.

(** [url.Values.Encode] of single values, with the keys in order. *)
Definition form (values : list (string * string)) : string :=
  String.concat "&" (map (fun kv => QueryEscape kv.1 +:+ "=" +:+ QueryEscape kv.2) values).

(** The encoding of the preferences that a port makes. *)
Definition preferenceJSON (port : Z) : string :=
  let q := String "034"%char "" in
  "{" +:+ q +:+ "listen_port" +:+ q +:+ ":" +:+ itoa port +:+ "," +:+ q +:+ "random_port" +:+ q +:+ ":false," +:+
  q +:+ "upnp" +:+ q +:+ ":false}".

Definition form_type : string := "application/x-www-form-urlencoded".
Definition loginPath : string := "/api/v2/auth/login".
Definition preferencesPath : string := "/api/v2/app/preferences".
Definition setPreferencesPath : string := "/api/v2/app/setPreferences".
Definition reannouncePath : string := "/api/v2/torrents/reannounce".

Definition boundedBody (contents : string) : res string :=
  if responseLimit <? Z.of_nat (String.length contents) then Fail (ENew "qBittorrent response exceeds size limit") else Ok contents.

(** [strings.Contains]. *)
Definition Contains (s substr : string) : bool := match String.index 0 substr s with Some _ => true | None => false end.

Definition dht_ping : string := "d1:ad2:id20:waycloak-listener-01e1:q4:ping1:t2:wc1:y1:qe".

(** ** The operations *)

Section Client.
Context {Jar Conn W : Type} `{WebClient Jar W} `{Dialer Conn W} `{PreferencesJson} `{Timer W}.
Context (c : Client W).

Definition client_origin (address : Addr) : string := Addr_String address +:+ ":" +:+ itoa (qc_Port c).

Definition login_request (address : Addr) : WebRequest :=
  mkWebRequest MethodPost (client_origin address) (qc_ServerName c) loginPath form_type
    (form [("password", qc_Password c); ("username", qc_Username c)]).
Definition preferences_request (address : Addr) : WebRequest :=
  mkWebRequest MethodGet (client_origin address) (qc_ServerName c) preferencesPath "" "".
Definition form_request (address : Addr) (path : string) (values : list (string * string)) : WebRequest :=
  mkWebRequest MethodPost (client_origin address) (qc_ServerName c) path form_type (form values).

(** Whether a login is accepted. *)
Definition login_answer (response : HttpResponse) (body : string) : res unit :=
  if rs_StatusCode response =? StatusOK then
    if negb (String.eqb (TrimSpace body) "Ok.") then Fail (ENew "qBittorrent login response is invalid") else Ok tt
  else if rs_StatusCode response =? StatusNoContent then
    if negb (str_empty body) then Fail (ENew "qBittorrent no-content login response is invalid") else Ok tt
  else Fail (ENew ("qBittorrent login returned status " +:+ itoa (rs_StatusCode response))).

Definition authenticate (address : Addr) : IO (Jar * W) unit :=
  response ← jar_Do (login_request address);
  body ← io_lift (boundedBody (rs_Body response));
  io_lift (login_answer response body).

(** [session]: a new jar, logged in. *)
Definition session {X} (address : Addr) (port : Z) (use : IO (Jar * W) X) : IO W X :=
  if negb (qc_Transport c) || (qc_Port c =? 0) || str_empty (qc_ServerName c) || str_empty (qc_Username c) ||
     str_empty (qc_Password c) || negb (Addr_Is4 address) || (port =? 0)
  then io_fail (ENew "exact qBittorrent application identity is required")
  else fun w =>
    let '(r, jw) := (io_wrap "authenticate qBittorrent" (authenticate address) ;; use) (jar_New, w) in (r, jw.2).

Definition preferences (address : Addr) : IO (Jar * W) observedPreferences :=
  response ← io_wrap "observe qBittorrent preferences" (jar_Do (preferences_request address));
  body ← io_lift (boundedBody (rs_Body response));
  if negb (rs_StatusCode response =? StatusOK)
  then io_fail (ENew ("qBittorrent preferences returned status " +:+ itoa (rs_StatusCode response)))
  else
    match decode_preferences body with
    | None => io_fail (ENew "qBittorrent preferences response is invalid")
    | Some observed => mret observed
    end.

Definition postForm (address : Addr) (path : string) (values : list (string * string)) (wantBody : string) : IO (Jar * W) unit :=
  response ← jar_Do (form_request address path values);
  body ← io_lift (boundedBody (rs_Body response));
  if negb (rs_StatusCode response =? StatusOK) && negb (rs_StatusCode response =? StatusNoContent)
  then io_fail (ENew ("qBittorrent request returned status " +:+ itoa (rs_StatusCode response)))
  else if (rs_StatusCode response =? StatusNoContent) && negb (str_empty body)
  then io_fail (ENew "qBittorrent no-content response is invalid")
  else if negb (str_empty wantBody) && negb (String.eqb (TrimSpace body) wantBody)
  then io_fail (ENew "qBittorrent response body is invalid")
  else mret tt.

Definition Apply (address : Addr) (port : Z) (reannounce : bool) : IO W unit :=
  session address port (
    io_wrap "verify qBittorrent authentication" (preferences address) ;;
    io_wrap "set qBittorrent listener" (postForm address setPreferencesPath [("json", preferenceJSON port)] "") ;;
    if reannounce
    then io_wrap "reannounce qBittorrent torrents" (postForm address reannouncePath [("hashes", "all")] "")
    else mret tt).

(** Close the connection whatever else is wrong with it. *)
Definition or_hang_up {X} (connection : Conn) (m : IO W X) : IO W X :=
  result ← io_try m;
  match result with
  | Ok x => mret x
  | Fail err => io_ignore (conn_Close connection) ;; io_fail err
  end.

Definition probeListener (protocol : string) (endpoint : AddrPort) : IO W unit :=
  connection ← net_Dial protocol endpoint;
  (if String.eqb protocol "udp" then
     deadline ← (fun w => let limit := Now w + 2 * Second in
       (Ok (match ctx_Deadline w with Some d => if time_Before d limit then d else limit | None => limit end), w));
     or_hang_up connection (conn_SetDeadline connection deadline) ;;
     or_hang_up connection (conn_Write connection dht_ping) ;;
     body ← or_hang_up connection (conn_Read connection 2048);
     if negb (Contains body "1:t2:wc") || negb (Contains body "1:y1:r")
     then io_ignore (conn_Close connection) ;; io_fail (ENew "qBittorrent DHT ping response is invalid")
     else mret tt
   else mret tt) ;;
  conn_Close connection.

Definition probe (protocol : string) (endpoint : AddrPort) : IO W unit :=
  match qc_ProtocolProbe c, qc_Probe c with
  | Some protocolProbe, _ => protocolProbe protocol endpoint
  | None, Some probe => probe endpoint
  | None, None => probeListener protocol endpoint
  end.

Fixpoint probe_all (endpoint : AddrPort) (protocols : list string) : IO W unit :=
  match protocols with
  | [] => mret tt
  | protocol :: rest =>
      if negb (String.eqb protocol "tcp") && negb (String.eqb protocol "udp")
      then io_fail (ENew "qBittorrent listener protocol is invalid")
      else io_wrap "observe qBittorrent listener" (probe protocol endpoint) ;; probe_all endpoint rest
  end.

Definition Observe (address : Addr) (port : Z) (protocols : list string) : IO W unit :=
  observed ← session address port (preferences address);
  if negb (op_ListenPort observed =? port) || op_RandomPort observed || op_UPnP observed
  then io_fail (ENew "qBittorrent listener observation does not match the lease")
  else probe_all (mkAddrPort address port) protocols.

Definition Configure (address : Addr) (port : Z) (reannounce : bool) : IO W unit :=
  Apply address port reannounce ;; Observe address port ["tcp"; "udp"].

(** The application that the adapter is given. *)
Definition Client_ApplicationConfigurer : ApplicationConfigurer W := {|
  app_Apply := Apply;
  app_Observe := Observe
|}.

End Client.

(** ** The client from its files *)

Section NewClient.
Context {W : Type}.
(** [AppendCertsFromPEM]: whether the bundle has a certificate. *)
Variable has_certificate : string -> bool.

Definition readCredential (f : string * string) : IO FS string :=
  contents ← os_ReadFile f;
  let value := TrimSpace contents in
  if str_empty value || several_lines value
  then io_fail (ENew "credential file contains no single value") else mret value.

Definition NewClient (caFile : option (string * string)) (serverName : string) (usernameFile passwordFile : option (string * string))
    (port : Z) : IO FS (Client W) :=
  match caFile, usernameFile, passwordFile with
  | Some caFile, Some usernameFile, Some passwordFile =>
      if str_empty serverName || (port =? 0)
      then io_fail (ENew "qBittorrent TLS identity, credential files, and port are required")
      else
        caPEM ← io_wrap "read qBittorrent CA" (os_ReadFile caFile);
        if negb (has_certificate caPEM) then io_fail (ENew "qBittorrent CA bundle contains no certificate")
        else
          username ← io_wrap "read qBittorrent username" (readCredential usernameFile);
          password ← io_wrap "read qBittorrent password" (readCredential passwordFile);
          mret (mkClient true port serverName username password None None)
  | _, _, _ => io_fail (ENew "qBittorrent TLS identity, credential files, and port are required")
  end.

End NewClient.

(** ** The requests of an operation

    An operation follows a plan: requests in order, each sent only where the
    answer to the one before passed its test. *)

Notation exchanges := (list (WebRequest * res HttpResponse)).

Fixpoint followed (plan : list (WebRequest * (HttpResponse -> bool))) (log : exchanges) (ok : bool) : Prop :=
  match plan, log with
  | [], [] => ok = true
  | (request, test) :: plan, (sent, answer) :: log =>
      sent = request /\
      match answer with
      | Ok response => if test response then followed plan log ok else log = [] /\ ok = false
      | Fail _ => log = [] /\ ok = false
      end
  | _, _ => False
  end.

Definition bounded (response : HttpResponse) : bool := negb (responseLimit <? Z.of_nat (String.length (rs_Body response))).
Definition login_accepted (response : HttpResponse) : bool := bounded response && res_ok (login_answer response (rs_Body response)).
Definition form_accepted (response : HttpResponse) : bool :=
  bounded response && ((rs_StatusCode response =? StatusOK) || ((rs_StatusCode response =? StatusNoContent) && str_empty (rs_Body response))).
Definition preferences_read `{PreferencesJson} (test : observedPreferences -> bool) (response : HttpResponse) : bool :=
  bounded response && (rs_StatusCode response =? StatusOK) &&
  match decode_preferences (rs_Body response) with Some observed => test observed | None => false end.

Section Plans.
Context {Jar W : Type} `{WebClient Jar W} `{PreferencesJson}.

(** The world with a log of the exchanges. *)
#[local] Instance watched_web : WebClient Jar (W * exchanges) := {|
  jar_New := jar_New;
  jar_Do request := fun jw =>
    let '(r, (j, w)) := jar_Do request (jw.1, jw.2.1) in (r, (j, (w, jw.2.2 ++ [(request, r)])))
|}.

Context (c : Client (W * exchanges)).

Definition apply_plan (address : Addr) (port : Z) (reannounce : bool) : list (WebRequest * (HttpResponse -> bool)) :=
  [(login_request c address, login_accepted); (preferences_request c address, preferences_read (fun _ => true));
   (form_request c address setPreferencesPath [("json", preferenceJSON port)], form_accepted)] ++
  (if reannounce then [(form_request c address reannouncePath [("hashes", "all")], form_accepted)] else []).

(** An operation that is one exchange, and one that follows a plan. *)
Definition one_exchange {X} (request : WebRequest) (test : HttpResponse -> bool) (m : IO (Jar * (W * exchanges)) X) : Prop :=
  forall jw, wp m (fun r jw' => exists answer, jw'.2.2 = jw.2.2 ++ [(request, answer)] /\
    res_ok r = match answer with Ok response => test response | Fail _ => false end) jw.
Definition follows_plan {X} (plan : list (WebRequest * (HttpResponse -> bool))) (m : IO (Jar * (W * exchanges)) X) : Prop :=
  forall jw, wp m (fun r jw' => exists l, jw'.2.2 = jw.2.2 ++ l /\ followed plan l (res_ok r)) jw.

Lemma plan_done {X} (x : X) : follows_plan [] (mret x).
Proof. intros jw. wp_step. exists []. by rewrite app_nil_r. Qed.

Lemma plan_step {X Y} request test plan (m : IO (Jar * (W * exchanges)) X) (k : X -> IO (Jar * (W * exchanges)) Y) :
  one_exchange request test m -> (forall x, follows_plan plan (k x)) -> follows_plan ((request, test) :: plan) (m ≫= k).
Proof.
  intros Hm Hk jw. wp_step. eapply wp_mono; [apply Hm|]. intros r jw1 (answer & Hlog & Hr). destruct r as [x|e]; cbn [after].
  - eapply wp_mono; [apply Hk|]. intros r jw2 (l & Hl & Hf). exists ((request, answer) :: l). rewrite Hl, Hlog, <- app_assoc. split; [done|].
    split; [done|]. destruct answer as [response|]; [|done]. cbn in Hr. by rewrite <- Hr.
  - exists [(request, answer)]. split; [done|]. split; [done|]. destruct answer as [response|]; [|done]. cbn in Hr. by rewrite <- Hr.
Qed.

Lemma plan_last {X} request test (m : IO (Jar * (W * exchanges)) X) :
  one_exchange request test m -> follows_plan [(request, test)] m.
Proof.
  intros Hm jw. eapply wp_mono; [apply Hm|]. intros r jw1 (answer & Hlog & Hr). exists [(request, answer)]. split; [done|]. split; [done|].
  destruct answer as [response|]; [|done]. rewrite Hr. by destruct (test response).
Qed.

Lemma one_exchange_wrap {X} msg request test (m : IO (Jar * (W * exchanges)) X) :
  one_exchange request test m -> one_exchange request test (io_wrap msg m).
Proof. intros Hm jw. wp_step. eapply wp_mono; [apply Hm|]. intros r jw' (answer & Hlog & Hr). by destruct r; exists answer. Qed.

(** What is done with an answer asks for nothing more. *)
Lemma one_exchange_do {X} request test send (k : HttpResponse -> IO (Jar * (W * exchanges)) X) :
  send = jar_Do request \/ (exists msg, send = io_wrap msg (jar_Do request)) ->
  (forall response jw, (k response jw).2 = jw /\ res_ok (k response jw).1 = test response) ->
  one_exchange request test (response ← send; k response).
Proof.
  intros Hsend Hk [j [w log]]. wp_step.
  destruct (jar_Do request (j, w)) as [answer [j' w']] eqn:Ej.
  assert (jar_Do request (j, (w, log)) = (answer, (j', (w', log ++ [(request, answer)])))) as Ew.
  { unfold jar_Do at 1, watched_web. cbn [fst snd]. by rewrite Ej. }
  assert (exists r, send (j, (w, log)) = (r, (j', (w', log ++ [(request, answer)]))) /\
    match r with Ok x => answer = Ok x | Fail _ => exists e, answer = Fail e end) as (r & E & Hr).
  { destruct Hsend as [->|[msg ->]]; unfold io_wrap; rewrite Ew; destruct answer; eexists; (split; [done|]); cbn; eauto. }
  eapply wp_intro; [exact E|]. destruct r as [response|e]; cbn [after].
  - subst answer. destruct (Hk response (j', (w', log ++ [(request, Ok response)]))) as [E2 Hr2]. unfold wp. exists (Ok response). by rewrite E2, Hr2.
  - destruct Hr as [e' ->]. by exists (Fail e').
Qed.

Ltac exchange := apply one_exchange_do; [eauto|]; intros response jw; unfold mbind, io_bind, io_lift, boundedBody, bounded.

Lemma authenticate_exchange address : one_exchange (login_request c address) login_accepted (authenticate c address).
Proof. exchange. unfold login_accepted, bounded. by destruct (_ <? _). Qed.

Lemma preferences_exchange address : one_exchange (preferences_request c address) (preferences_read (fun _ => true)) (preferences c address).
Proof.
  exchange. unfold preferences_read, bounded. destruct (_ <? _); [done|]. destruct (_ =? StatusOK); [|done]. cbn [negb andb].
  by destruct (decode_preferences _).
Qed.

Lemma postForm_exchange address path values : one_exchange (form_request c address path values) form_accepted (postForm c address path values "").
Proof.
  exchange. unfold form_accepted, bounded. destruct (_ <? _); [done|]. cbn [negb andb].
  destruct (_ =? StatusOK) eqn:E1, (_ =? StatusNoContent) eqn:E2; cbn [negb andb orb]; [|done| |done].
  - apply Z.eqb_eq in E1, E2. rewrite E1 in E2. done.
  - by destruct (str_empty (rs_Body response)).
Qed.

(** C16: Nothing is changed before access is proved.  Applying a port sends, in one
    session with the exact Pod, a login, a read of the protected preferences, the
    new preferences, which are the port with the random port and UPnP off, and
    the announcement where it is asked for, in this order; each only if the one
    before was answered well, and nothing after it otherwise; and it succeeds
    exactly if all of them were.  Without the identity of the application it
    sends nothing and fails. *)
Theorem Apply_follows_plan address port reannounce w log :
  wp (Apply c address port reannounce)
    (fun r w' => exists l, w'.2 = log ++ l /\
       (if qc_Transport c && negb (qc_Port c =? 0) && negb (str_empty (qc_ServerName c)) && negb (str_empty (qc_Username c)) &&
           negb (str_empty (qc_Password c)) && Addr_Is4 address && negb (port =? 0)
        then followed (apply_plan address port reannounce) l (res_ok r) else l = [] /\ res_ok r = false)) (w, log).
Proof.
  unfold Apply, session. rewrite <- (negb_involutive (_ && _)), !negb_andb, !negb_involutive. destruct (_ || _); cbn [negb].
  { wp_step. exists []. by rewrite app_nil_r. }
  assert (follows_plan (apply_plan address port reannounce) (io_wrap "authenticate qBittorrent" (authenticate c address) ;;
    (io_wrap "verify qBittorrent authentication" (preferences c address) ;;
     io_wrap "set qBittorrent listener" (postForm c address setPreferencesPath [("json", preferenceJSON port)] "") ;;
     if reannounce then io_wrap "reannounce qBittorrent torrents" (postForm c address reannouncePath [("hashes", "all")] "") else mret tt))) as Hplan.
  { do 3 (apply plan_step; [apply one_exchange_wrap; auto using authenticate_exchange, preferences_exchange, postForm_exchange|intros _]).
    destruct reannounce; [apply plan_last, one_exchange_wrap, postForm_exchange|apply plan_done]. }
  match type of Hplan with follows_plan _ ?m => set (sent := m) in * end. specialize (Hplan (jar_New, (w, log))). unfold wp in *.
  destruct (sent (jar_New, (w, log))) as [r [j w']]. exact Hplan.
Qed.

End Plans.

(** ** What an observation has seen *)

Section Observing.
Context {Jar Conn W : Type} `{WebClient Jar W} `{Dialer Conn W} `{PreferencesJson} `{Timer W}.
Context (c : Client W) (I : W -> Prop).

Record client_keeps : Prop := {
  ck_web request jw : I jw.2 -> I (jar_Do (Jar := Jar) request jw).2.2;
  ck_probe protocol endpoint : keeps I (probe c protocol endpoint)
}.
Context (Hkeeps : client_keeps).

(** The preferences show that exactly this port is in use. *)
Definition listening_on (port : Z) : HttpResponse -> bool :=
  preferences_read (fun observed => (op_ListenPort observed =? port) && negb (op_RandomPort observed) && negb (op_UPnP observed)).

(** The Pod showed this port in use, and its listeners answered. *)
Definition seen_listening (address : Addr) (port : Z) (protocols : list string) : Prop :=
  (exists response, answered (fun jw => I jw.2) (jar_Do (Jar := Jar) (preferences_request c address)) (Ok response) /\
     listening_on port response = true) /\
  forall protocol, protocol ∈ protocols -> answered I (probe c protocol (mkAddrPort address port)) (Ok tt).

Lemma wp_web request Q (jw : Jar * W) :
  I jw.2 -> (forall r jw', I jw'.2 -> answered (fun jw => I jw.2) (jar_Do request) r -> Q r jw') -> wp (jar_Do request) Q jw.
Proof. intros HI HQ. apply (wp_asked (fun jw => I jw.2)); [|done|done]. intros jw' HI'. by apply (ck_web Hkeeps). Qed.

Lemma authenticate_keeps address : keeps (fun jw : Jar * W => I jw.2) (authenticate c address).
Proof.
  apply keeps_wp. intros jw HI. unfold authenticate. wp_step. apply wp_web; [done|]. intros [response|e] jw1 HI1 _; cbn [after]; [|done].
  do 2 wp_step. destruct (boundedBody _); cbn [after]; [|done]. by wp_step.
Qed.

Lemma preferences_seen address (jw : Jar * W) : I jw.2 ->
  wp (preferences c address) (fun r jw' => I jw'.2 /\ forall observed, r = Ok observed -> exists response,
    answered (fun jw => I jw.2) (jar_Do (Jar := Jar) (preferences_request c address)) (Ok response) /\
    forall test, test observed = true -> preferences_read test response = true) jw.
Proof.
  intros HI. unfold preferences. do 2 wp_step. apply wp_web; [done|]. intros [response|e] jw1 HI1 Ha; cbn [after]; [|done].
  do 2 wp_step. unfold boundedBody. destruct (_ <? _) eqn:Elen; cbn [after]; [done|].
  destruct (_ =? StatusOK) eqn:Es; cbn [negb]; [|by wp_step]. destruct (decode_preferences _) as [observed|] eqn:Ed; wp_step; [|done].
  split; [done|]. intros observed' [= <-]. exists response. split; [done|]. intros test Ht. unfold preferences_read, bounded. by rewrite Elen, Es, Ed.
Qed.

Lemma session_wp {X} address port (use : IO (Jar * W) X) (Q : res X -> W -> Prop) w :
  I w -> (forall e w', I w' -> Q (Fail e) w') -> (forall jw, I jw.2 -> wp use (fun r jw' => Q r jw'.2) jw) -> wp (session c address port use) Q w.
Proof.
  intros HI Hfail Huse. unfold session. destruct (_ || _); [wp_step; by apply Hfail|].
  assert (wp (io_wrap "authenticate qBittorrent" (authenticate c address) ;; use) (fun r jw => Q r jw.2) (jar_New, w)) as Hm.
  { do 2 wp_step. eapply wp_mono; [apply (wp_keeps _ _ (jar_New, w) (authenticate_keeps address)); done|].
    intros [[]|e] jw HI'; cbn [after]; [by apply Huse|by apply Hfail]. }
  match type of Hm with wp ?m _ _ => set (sent := m) in * end. unfold wp in *. by destruct (sent (jar_New, w)) as [r jw].
Qed.

Lemma probe_all_seen endpoint protocols w : I w ->
  wp (probe_all c endpoint protocols)
    (fun r w' => I w' /\ (r = Ok tt -> forall protocol, protocol ∈ protocols -> answered I (probe c protocol endpoint) (Ok tt))) w.
Proof.
  revert w. induction protocols as [|p protocols IH]; intros w HI; cbn [probe_all].
  - wp_step. split; [done|]. intros _ q Hq. by apply elem_of_nil in Hq.
  - destruct (_ && _); [by wp_step|]. do 2 wp_step. apply (wp_asked I); [apply (ck_probe Hkeeps)|done|].
    intros [[]|e] w1 HI1 Ha; cbn [after]; [|done]. eapply wp_mono; [by apply IH|]. intros r w2 [HI2 Hr]. split; [done|].
    intros Hok q [->|Hq]%elem_of_cons; [done|by apply Hr].
Qed.

(** Observing a port succeeds only where the Pod was seen listening on it. *)
Lemma Observe_seen address port protocols w : I w ->
  wp (Observe c address port protocols) (fun r w' => I w' /\ (r = Ok tt -> seen_listening address port protocols)) w.
Proof.
  intros HI. unfold Observe. wp_step. apply session_wp; [done|done|]. intros jw HIj.
  eapply wp_mono; [by apply preferences_seen|]. intros [observed|e] jw1 [HI1 Hr]; cbn [after]; [|done].
  destruct (_ || _) eqn:Eo; [by wp_step|]. destruct (Hr observed eq_refl) as (response & Ha & Hread).
  eapply wp_mono; [by apply probe_all_seen|]. intros r w2 [HI2 Hp]. split; [done|]. intros Hok. split; [|by apply Hp].
  exists response. split; [done|]. apply Hread. by destruct (op_ListenPort observed =? port), (op_RandomPort observed), (op_UPnP observed).
Qed.

Lemma Apply_keeps address port reannounce : keeps I (Apply c address port reannounce).
Proof.
  apply keeps_wp. intros w HI. unfold Apply. apply session_wp; [done|done|]. intros jw HIj.
  assert (forall path values jw', I jw'.2 -> wp (postForm c address path values "") (fun _ jw2 => I jw2.2) jw') as Hpost.
  { intros path values jw' HI'. unfold postForm. wp_step. apply wp_web; [done|]. intros [response|e] jw1 HI1 _; cbn [after]; [|done].
    do 2 wp_step. destruct (boundedBody _); cbn [after]; [|done]. by repeat (destruct (_ && _); [by wp_step|]); wp_step. }
  do 2 wp_step. eapply wp_mono; [by apply preferences_seen|]. intros [observed|e] jw1 [HI1 _]; cbn [after]; [|done].
  do 2 wp_step. eapply wp_mono; [by apply Hpost|]. intros [[]|e] jw2 HI2; cbn [after]; [|done].
  destruct reannounce; [|by wp_step]. wp_step. eapply wp_mono; [by apply Hpost|]. by intros [[]|e] jw3 HI3.
Qed.

Lemma observed_seen address port protocols : answered I (Observe c address port protocols) (Ok tt) -> seen_listening address port protocols.
Proof. intros (w & w' & HI & E). by destruct (wp_elim _ _ _ _ _ (Observe_seen address port protocols w HI) E) as [_ ?]; auto. Qed.

(** The answer of a DHT node to the ping, where the client has no probe of its
    own. *)
Lemma probeListener_udp endpoint w w' : probeListener "udp" endpoint w = (Ok tt, w') ->
  exists connection w1 w2 body, conn_Read connection 2048 w1 = (Ok body, w2) /\ Contains body "1:t2:wc" = true /\ Contains body "1:y1:r" = true.
Proof.
  unfold probeListener. intros (connection & w1 & _ & E)%bind_ok. apply bind_ok in E as ([] & w2 & E & _).
  cbn [String.eqb Ascii.eqb Bool.eqb] in E. apply bind_ok in E as (deadline & w3 & _ & E). apply bind_ok in E as ([] & w4 & _ & E).
  apply bind_ok in E as ([] & w5 & _ & E). apply bind_ok in E as (body & w6 & Er & E). exists connection, w5.
  unfold or_hang_up in Er. apply bind_ok in Er as (r & w7 & (r0 & Er & [= ->])%try_inv & E').
  destruct r0 as [body'|e]; [apply ret_inv in E' as [[= <-] <-]|by apply bind_ok in E' as ([] & w8 & _ & [=])].
  exists w6, body. split; [done|]. destruct (Contains body "1:t2:wc"), (Contains body "1:y1:r"); [done|..];
    by apply bind_ok in E as ([] & w8 & _ & [=]).
Qed.

End Observing.
