(* ===== verification/AdapterPath.v ===== *)
(** * From the gateway to the application

    The delivery manager of the gateway, the adapter protocol, the adapter and
    the client of qBittorrent composed: what a delivery or a withdrawal that the
    manager reports as done means for the application. *)

From S2P Require Import Prelude Sha256 Netip Api Kube CniTypes CniPlugin Files Http PortRuntime PortTransport PortDelivery QbAdapter QbClient.

Section AdapterPath.
Context {Jar Conn A : Type} `{WebClient Jar (FS * A)} `{Dialer Conn (FS * A)} `{PreferencesJson} `{Timer (FS * A)}.
Context `{JsonLaws adapter_states} `{JsonLaws AdapterLeaseRecord} `{JsonLaws AdapterAcknowledgement}.
Context `{JsonLaws AdapterWithdrawalIntent} `{JsonLaws AdapterWithdrawalAcknowledgement} `{JsonLaws AdapterHealthObservation}.

(** The adapter, with its client of the application and its state file; the
    gateway's client of the adapter, and the adapter's Service. *)
Context (h : Handler) (f : string * string) (c : Client (FS * A)) (hc : HTTPAdapterClient) (peer : list (list string)) (host : string).

Notation W := (FS * A)%type.

#[local] Instance application : ApplicationConfigurer W := Client_ApplicationConfigurer c.
#[local] Instance gateway_clock : Clock (option adapter_states * W) := fun sw => Now sw.2.

(** What the adapter talks to leaves its disk alone, and takes time. *)
Definition apart_step (w w' : W) : Prop := w'.1 = w.1 /\ Now w <= Now w'.

Record apart : Prop := {
  ap_file : qh_StateFile h = Some f;
  ap_name : HasPrefix f.2 state_prefix = false;
  ap_web request (jw : Jar * W) : apart_step jw.2 (jar_Do request jw).2.2;
  ap_probe protocol endpoint w : apart_step w (probe c protocol endpoint w).2;
  ap_select d t (w : W) : apart_step w (Select d t w).2;
  ap_now d d' a : Now (d, a) = Now (d', a)
}.

(** What holds around the adapter throughout. *)
Record surroundings (around : A -> A -> Prop) (I : W -> Prop) : Prop := {
  su_disk d d' a : I (d, a) -> I (d', a);
  su_client : client_keeps (Jar := Jar) c I;
  su_select d t w : I w -> I (Select d t w).2;
  su_around d a a' : around a a' -> I (d, a) -> I (d, a')
}.

(** What comes back from the adapter's Service is what the adapter answered. *)
Definition authentic `{HttpClient (option adapter_states * W)} : Prop := forall request sw response sw',
  rq_Host request = host -> http_Do request sw = (Ok response, sw') -> ServeHTTP h peer request sw = (Ok response, sw').

Lemma apart_keeps w0 : apart -> client_keeps (Jar := Jar) c (apart_step w0).
Proof.
  intros Hap. split.
  - intros request jw [Hd Hn]. destruct (ap_web Hap request jw) as [Hd' Hn']. split; [congruence|lia].
  - intros protocol endpoint w [Hd Hn]. destruct (ap_probe Hap protocol endpoint w) as [Hd' Hn']. split; [congruence|lia].
Qed.

Lemma apart_apply address port b w : apart -> apart_step w (app_Apply address port b w).2.
Proof.
  intros Hap. apply (Apply_keeps (Jar := Jar) c (apart_step w) (apart_keeps w Hap)). split; [done|lia].
Qed.

Lemma apart_observe address port protocols w : apart -> apart_step w (app_Observe address port protocols w).2.
Proof.
  intros Hap. destruct (app_Observe address port protocols w) as [r w'] eqn:E.
  eapply (wp_elim _ _ w r w' (wp_mono _ _ (fun _ w' => apart_step w w') _ (Observe_seen (Jar := Jar) c _ (apart_keeps w Hap) address port protocols w ltac:(split; [done|lia])) _) E).
  Unshelve. by intros r' w2 [? _].
Qed.

Lemma apart_exclusive : apart -> exclusive h f.
Proof.
  intros Hap. split; [apply (ap_file Hap)|apply (ap_name Hap)|intros; by apply apart_apply|intros; by apply apart_observe|
    intros; by apply (ap_select Hap)|apply (ap_now Hap)].
Qed.

Lemma apart_clocked : apart -> clocked (A := A).
Proof. intros Hap. split; intros; [by apply apart_apply|by apply apart_observe|by apply (ap_select Hap)]. Qed.

Lemma surroundings_throughout around I : surroundings around I -> throughout f around I.
Proof.
  intros Hsu. split; [apply (su_disk _ _ Hsu)| | |apply (su_select _ _ Hsu)|apply (su_around _ _ Hsu)].
  - intros address port w HI _. by apply (Apply_keeps (Jar := Jar) c I (su_client _ _ Hsu)).
  - intros address port w HI. by apply (Observe_seen (Jar := Jar) c I (su_client _ _ Hsu) address port ["tcp"; "udp"] w HI).
Qed.

(** *** The protocol *)

Section Protocol.
Context `{HttpClient (option adapter_states * W)} (Hauth : authentic).

(** A call that comes back was answered with success by the adapter, to a request
    with this very message. *)
Lemma adapter_call_answered {T O} `{JsonLaws T} `{JsonLaws O} namespace name method path (input : T) (output : O) sw sw' :
  adapterEndpoint namespace name (hc_Port hc) (hc_ClusterDomain hc) = host ->
  adapter_call hc namespace name method path input sw = (Ok output, sw') ->
  exists request response, rq_Method request = method /\ decodeStrict (rq_Body request) = Ok input /\
    ServeHTTP h peer request sw = (Ok response, sw') /\ rs_StatusCode response = StatusOK /\ decodeStrict (rs_Body response) = Ok output.
Proof.
  intros Hhost. unfold adapter_call. destruct (negb _); [done|]. destruct (Marshal input) as [body|] eqn:Em; [|done]. destruct (_ <? _); [done|].
  intros (response & sw1 & Hdo%wrap_ok & Hrest)%bind_ok.
  apply Hauth in Hdo; [|exact Hhost]. exists (mkHttpRequest method host (escape encodePath path) "" "application/json" body), response.
  rewrite Hhost in Hdo. revert Hrest. unfold readBounded. destruct (_ <? _); [done|].
  intros (responseBody & sw2 & [= <- <-] & Hrest)%bind_ok. destruct (_ =? StatusOK) eqn:Es; [|done]. cbn [negb] in Hrest.
  apply wrap_ok in Hrest. injection Hrest as Hd <-. cbn [rq_Method rq_Body].
  split_and!; [done| |done|by apply Z.eqb_eq|done]. rewrite <- (app_empty body). by apply decodeStrict_Marshal.
Qed.

Notation protocol := (Some (HTTPAdapterClient_AdapterProtocol hc)).

(** C6: A delivered lease is in use.  The gateway's manager reports the delivery of
    a lease to qBittorrent's adapter as made and acknowledged only where, whatever
    the adapter's history of faults and restarts, the adapter has on disk exactly
    the lease that the intent and the provider's mapping make; it was applied; and
    the WebUI of exactly the Pod of the intent showed the target port, which is
    the public port, in use, with the random port and UPnP off, and the listener
    answered on TCP and UDP. *)
Theorem delivered_in_use around I w0 sw intent provider :
  apart -> surroundings around I -> I w0 -> reached h f around w0 sw ->
  adapterEndpoint (in_LeaseNamespace intent) (in_AdapterName intent) (hc_Port hc) (hc_ClusterDomain hc) = host ->
  in_AdapterName intent <> "" ->
  wp (delivery_Reconcile protocol intent provider)
    (fun r sw' => r = Ok (true, true) ->
       let record := record_for intent provider in
       (exists disk s, stored f sw'.2.1 = Some disk /\ disk !! in_LeaseUID intent = Some s /\ qs_Record s = record) /\
       applied I record /\ in_TargetPort intent = po_PublicPort provider /\
       seen_listening (Jar := Jar) c I (in_ApplicationAddress intent) (po_PublicPort provider) ["tcp"; "udp"]) sw.
Proof.
  intros Hap Hsu HI Hr Hhost Hname. destruct (delivery_Reconcile protocol intent provider sw) as [r sw'] eqn:E. eapply wp_intro; [exact E|]. intros ->.
  revert E. unfold delivery_Reconcile. intros (now & sw0 & [= <- <-] & E)%bind_ok. destruct (validDeliveryInput _ _ _); [done|].
  destruct (str_empty _) eqn:Ename; [by apply str_empty_spec in Ename|]. apply bind_ok in E as (acknowledgement & sw1 & Ecall & E).
  apply bind_ok in E as (now1 & sw2 & [= <- <-] & E). apply bind_ok in E as (now2 & sw3 & [= <- <-] & E). apply ret_inv in E as [_ <-].
  apply adapter_call_answered in Ecall as (request & response & Hm & Hbody & Hserve & Hok & _); [|done].
  pose proof (acknowledged_applied h f around I w0 sw peer request (apart_exclusive Hap) (apart_clocked Hap)
    (surroundings_throughout around I Hsu) HI Hr Hm) as Hack.
  destruct (wp_elim _ _ _ _ _ Hack Hserve) as (response' & [= <-] & Hdone).
  destruct (Hdone Hok) as (record & disk & s & t & Hrec & Hv & Hst & Hs & Hrs & Happ & Hobs & _).
  assert (record = record_for intent provider) as -> by congruence. cbv zeta. split; [by exists disk, s|]. split; [done|].
  assert (in_TargetPort intent = po_PublicPort provider) as Ht.
  { unfold validRecord in Hv. destruct (_ || _) eqn:Eg in Hv; [done|]. rewrite !orb_false_iff, !negb_false_iff in Eg.
    apply Z.eqb_eq. tauto. }
  split; [done|]. rewrite <- Ht. by apply (observed_seen (Jar := Jar) c I (su_client _ _ Hsu)).
Qed.


End Protocol.

End AdapterPath.

(** ** A sample path *)

Module AdapterPathSample.

Import TransportSample QbSample.

(** The application: whether the session is logged in is in the jar; new
    preferences and a TCP probe take a second. *)
#[export] Instance sample_web : WebClient bool (FS * App) := {|
  jar_New := false;
  jar_Do request := fun jw =>
    let '(jar, (d, (now, port))) := jw in
    let reply status body := (Ok (mkHttpResponse status body), jw) in
    if negb (String.eqb (wq_Origin request) "10.10.0.2:8080") then (Fail (ENew "connection refused"), jw)
    else if String.eqb (wq_Path request) loginPath then (Ok (mkHttpResponse StatusNoContent ""), (true, (d, (now, port))))
    else if negb jar then reply StatusForbidden ""
    else if String.eqb (wq_Path request) preferencesPath then reply StatusOK (itoa port)
    else if String.eqb (wq_Path request) setPreferencesPath then
      (Ok (mkHttpResponse StatusOK ""),
       (jar, (d, (now + Second, if String.eqb (wq_Body request) (form [("json", preferenceJSON 50000)]) then 50000 else 8080))))
    else reply StatusOK ""
|}.
#[export] Instance sample_preferences : PreferencesJson := fun body =>
  match ParseInt 32 body with Some port => Some (mkObservedPreferences port false false) | None => None end.
#[export] Instance sample_dialer : Dialer unit (FS * App) := {|
  net_Dial protocol endpoint := fun w =>
    if AddrPort_Port endpoint =? w.2.2 then (Ok tt, if String.eqb protocol "tcp" then (w.1, (w.2.1 + Second, w.2.2)) else w)
    else (Fail (ENew "connection refused"), w);
  conn_SetDeadline _ _ := mret tt;
  conn_Write _ _ := mret tt;
  conn_Read _ _ := mret "d1:rd2:id20:abcdefghij0123456789e1:t2:wc1:y1:re";
  conn_Close _ := mret tt;
  ctx_Deadline _ := None
|}.

Definition client : Client (FS * App) := mkClient true 8080 "torrent.media.svc" "admin" "secret" None None.
Definition gateway_client : HTTPAdapterClient := mkHTTPAdapterClient true DefaultAdapterPort "cluster.local".
Definition service : string := adapterEndpoint "media" "torrent" DefaultAdapterPort "cluster.local".

#[export] Instance sample_network : HttpClient (option adapter_states * (FS * App)) :=
  delivered_to service (ServeHTTP (H := Client_ApplicationConfigurer client) adapter runtime_peer).

Definition lease_intent : Intent :=
  mkIntent RuntimeAPIVersion "media" "0f3c1f52-lease" "gateway-uid" 1 "service-uid" "slice-uid" "pod-uid" "binding-uid" 60000 0
    (Addr4 168427522) (Addr4 168427522) 8080 50000 [ProtocolTCP; ProtocolUDP] "torrent" ApplicationPortFixed.
Definition mapping : ProviderObservation := mkProviderObservation (Addr4 3405803777) 50000 (2000 * Second).
Definition lease_withdrawal : WithdrawalIntent :=
  mkWithdrawalIntent RuntimeAPIVersion "media" "0f3c1f52-lease" "gateway-uid" 1 "service-uid" "slice-uid" "pod-uid" false true 60000 50000
    [ProtocolTCP; ProtocolUDP] "torrent".

#[local] Existing Instance gateway_clock.

Notation delivery := (delivery_Reconcile (Some (HTTPAdapterClient_AdapterProtocol gateway_client)) lease_intent mapping).
Notation retreat := (delivery_Withdraw (Some (HTTPAdapterClient_AdapterProtocol gateway_client)) lease_withdrawal).
Definition in_use : option adapter_states * (FS * App) := (delivery (None, start)).2.

Lemma delivery_made : (delivery (None, start)).1 = Ok (true, true) /\ in_use.2.2 = (1002 * Second, 50000).
Proof. split; vm_compute; reflexivity. Qed.
Lemma retreat_made : (retreat in_use).1 = Ok true /\ (retreat in_use).2.2.2 = (1004 * Second, 8080).
Proof. split; vm_compute; reflexivity. Qed.

Definition put_over : HttpRequest :=
  mkHttpRequest MethodPut service (escape encodePath (adapterPath "0f3c1f52-lease" "")) "" "application/json" "0".
Lemma in_use_served : in_use = (ServeHTTP (H := Client_ApplicationConfigurer client) adapter runtime_peer put_over (None, start)).2.
Proof. vm_compute. reflexivity. Qed.
Lemma in_use_known : exists s, known state_file in_use ≫= (.!! "0f3c1f52-lease") = Some s /\
  ar_ApplicationAddress (qs_Record s) = Addr4 168427522 /\ ar_BackendPort (qs_Record s) = 8080.
Proof. eexists. vm_compute. split; [reflexivity|split; reflexivity]. Qed.

Definition on_time (w : FS * App) : Prop := 1000 * Second <= w.2.1.

(** Every question of the sample leaves the disk and takes no negative time. *)
Lemma sample_web_apart request (jw : bool * (FS * App)) : apart_step jw.2 (jar_Do request jw).2.2.
Proof.
  destruct jw as [jar [d [now port]]]. unfold jar_Do, sample_web.
  repeat match goal with |- apart_step _ (if ?b then _ else _).2.2 => destruct b end; split; cbn; unfold Second, Millisecond; done || lia.
Qed.
Lemma sample_probe_apart protocol endpoint (w : FS * App) : apart_step w (probe (Conn := unit) client protocol endpoint w).2.
Proof.
  unfold probe, probeListener. cbn [qc_ProtocolProbe qc_Probe client]. unfold mbind, io_bind. unfold net_Dial at 1, sample_dialer.
  destruct (_ =? _); [|by split; [done|apply Z.le_refl]]. destruct w as [d [now port]].
  destruct (String.eqb protocol "tcp") eqn:Et; [apply String.eqb_eq in Et as ->; split; cbn; unfold Second, Millisecond; done || lia|].
  destruct (String.eqb protocol "udp"); split; cbn; done || lia.
Qed.
Lemma sample_select_apart d t (w : FS * App) : apart_step w (Select d t w).2.
Proof. split; cbn; done || lia. Qed.

Lemma sample_apart : apart (Jar := bool) (Conn := unit) adapter state_file client.
Proof.
  split; [done|done|apply sample_web_apart|apply sample_probe_apart|apply sample_select_apart|done].
Qed.

Lemma on_time_step (w w' : FS * App) : on_time w -> apart_step w w' -> on_time w'.
Proof. unfold on_time. intros HI [_ Hn]. cbn in Hn. lia. Qed.

Lemma sample_surroundings : surroundings (Jar := bool) (Conn := unit) client waiting on_time.
Proof.
  split; [done| |intros d t w HI; by eapply on_time_step; [|apply sample_select_apart]|unfold on_time, waiting; cbn; lia].
  split; [intros request jw HI; by eapply on_time_step; [|apply sample_web_apart]|].
  intros protocol endpoint w HI. by eapply on_time_step; [|apply sample_probe_apart].
Qed.

Lemma sample_authentic : authentic (Jar := bool) (Conn := unit) adapter client runtime_peer service.
Proof. intros request sw response sw' Hh E. unfold http_Do, sample_network, delivered_to in E. by rewrite Hh, String.eqb_refl in E. Qed.

(** The first lease comes into use. *)
Lemma delivered_in_use_witness :
  seen_listening (Jar := bool) (Conn := unit) client on_time (Addr4 168427522) 50000 ["tcp"; "udp"].
Proof.
  pose proof (delivered_in_use adapter state_file client gateway_client runtime_peer service sample_authentic waiting on_time start (None, start)
    lease_intent mapping sample_apart sample_surroundings (Z.le_refl _) (reached_start _ _ _ start eq_refl) eq_refl ltac:(discriminate)) as Hd.
  unfold wp in Hd. exact (proj2 (proj2 (proj2 (Hd (proj1 delivery_made))))).
Defined.


End AdapterPathSample.
