(* ===== verification/PortAllocation.v ===== *)
(** * Provider port reservations (internal/portforward/allocation.go)

    The provider-facing internal port of a lease is a coordination Lease of the
    gateway's namespace whose name is derived from the gateway and the port:
    creating it is the claim.  A port that may still be mapped is quarantined
    before it can be claimed again.  The operations run against any API client;
    the theorems run them against a server that other clients change between
    any two requests and that may fail any request. *)

From S2P Require Import Prelude Sha256 Netip Api Kube PortRuntime.

Definition providerReservationLabel : string := "networking.waycloak.io/provider-port-reservation".
Definition providerGatewayUIDLabel : string := "networking.waycloak.io/provider-port-gateway-uid".
Definition providerLeaseUIDLabel : string := "networking.waycloak.io/provider-port-lease-uid".
Definition providerGatewayUIDAnnotation : string := "networking.waycloak.io/provider-port-gateway-identity".
Definition providerLeaseUIDAnnotation : string := "networking.waycloak.io/provider-port-lease-identity".
Definition providerPortLabel : string := "networking.waycloak.io/provider-internal-port".
Definition providerStateLabel : string := "networking.waycloak.io/provider-port-state".
Definition providerStateActive : string := "active".
Definition providerStateQuarantine : string := "quarantine".

Definition ErrProviderReservationNotFound : error := ESentinel "provider port reservation was not found".

(** [coordinationv1.Lease], as far as the source writes and reads it. *)
Record PortReservation := mkPortReservation {
  rp_Meta : ObjectMeta;
  rp_HolderIdentity : option string;
  rp_AcquireTime : option time;
  rp_RenewTime : option time;
  rp_LeaseDurationSeconds : option Z
}.

Record ProviderReservationIdentity := mkProviderReservationIdentity {
  ri_GatewayUID : string;
  ri_GatewayNamespace : string;
  ri_Port : Z
}.

(** ** Pure parts *)

Definition hashed_uid (n : nat) (uid : string) : string := EncodeToString (take n (Sum256 (bytes_of_string uid))).
Definition shortUID : string -> string := hashed_uid 6.
Definition identityLabelValue : string -> string := hashed_uid 16.

(** A MicroTime keeps the microseconds of a time. *)
Definition MicroTime (t : time) : time := t - t `mod` 1000.

Definition port_name (gatewayUID : string) (port : Z) : string :=
  "waycloak-pf-" +:+ shortUID gatewayUID +:+ "-" +:+ itoa port.

Definition desiredProviderReservation (lease gateway : ObjectMeta) (port : Z) (now : time) : PortReservation :=
  mkPortReservation
    (mkObjectMeta (Namespace gateway) (port_name (UID gateway) port) "" 0 None
       (<[providerReservationLabel := "true"]>
        (<[providerGatewayUIDLabel := identityLabelValue (UID gateway)]>
         (<[providerLeaseUIDLabel := identityLabelValue (UID lease)]>
          (<[providerPortLabel := itoa port]>
             {[providerStateLabel := providerStateActive]}))))
       (<[providerGatewayUIDAnnotation := UID gateway]> {[providerLeaseUIDAnnotation := UID lease]}) [] [])
    (Some (UID lease)) (Some (MicroTime now)) None None.

Definition label (r : PortReservation) (key : string) : string := map_get (Labels (rp_Meta r)) key.
Definition annotation (r : PortReservation) (key : string) : string := map_get (Annotations (rp_Meta r)) key.

(** [strconv.ParseUint(label, 10, 16)] and the range check. *)
Definition reservationPort (r : PortReservation) : option Z :=
  match parse_decimal (label r providerPortLabel) with
  | Some value => if (ProviderPortFirst <=? value) && (value <=? ProviderPortLast) then Some value else None
  | None => None
  end.

Definition quarantineExpired (r : PortReservation) (now : time) : bool :=
  match rp_RenewTime r, rp_LeaseDurationSeconds r with
  | Some renewed, Some seconds => negb (time_After (renewed + seconds * Second) now)
  | _, _ => false
  end.

(** An active reservation of exactly this lease. *)
Definition held_by (leaseUID : string) (r : PortReservation) : bool :=
  String.eqb (label r providerLeaseUIDLabel) (identityLabelValue leaseUID) &&
  String.eqb (annotation r providerLeaseUIDAnnotation) leaseUID &&
  String.eqb (label r providerStateLabel) providerStateActive.

Definition port_count : Z := ProviderPortLast - ProviderPortFirst + 1.

(** [binary.BigEndian.Uint32(seed[:4]) % count]. *)
Definition port_start (gatewayUID leaseUID : string) : Z :=
  let seed := Sum256 (bytes_of_string (gatewayUID +:+ "/" +:+ leaseUID)) in
  (((nth 0 seed 0 * 256 + nth 1 seed 0) * 256 + nth 2 seed 0) * 256 + nth 3 seed 0) `mod` port_count.

Definition port_at (start offset : Z) : Z := ProviderPortFirst + (start + offset) `mod` port_count.

(** A Go int32. *)
Definition int32 (x : Z) : Z := (x + 2 ^ 31) `mod` 2 ^ 32 - 2 ^ 31.

Definition quarantine_seconds (until now : time) : Z :=
  let seconds := int32 ((time_Sub until now + Second - 1) ÷ Second) in
  if seconds <? 1 then 1 else seconds.

(** The reservation as [Quarantine] changes it. *)
Definition in_quarantine (until now : time) (r : PortReservation) : PortReservation :=
  let m := rp_Meta r in
  mkPortReservation
    (mkObjectMeta (Namespace m) (Name m) (UID m) (Generation m) (DeletionTimestamp m)
       (<[providerStateLabel := providerStateQuarantine]> (Labels m)) (Annotations m) (Finalizers m) (OwnerReferences m))
    (rp_HolderIdentity r) (rp_AcquireTime r) (Some (MicroTime now)) (Some (quarantine_seconds until now)).

Definition lease_labels (lease : ObjectMeta) : gmap string string :=
  <[providerReservationLabel := "true"]> {[providerLeaseUIDLabel := identityLabelValue (UID lease)]}.
Definition gateway_labels (gateway : ObjectMeta) : gmap string string :=
  <[providerReservationLabel := "true"]> {[providerGatewayUIDLabel := identityLabelValue (UID gateway)]}.

(** ** Operations

    Of the lease and of the gateway the allocator reads the metadata. *)

Section Allocator.
Context {W : Type} `{Getter W PortReservation} `{Lister W PortReservation} `{Creator W PortReservation}.
Context `{Patcher W PortReservation} `{Deleter W PortReservation} `{Clock W}.

Definition Recover (lease : ObjectMeta) (gatewayNamespace : string) : IO W ProviderReservationIdentity :=
  if str_empty (UID lease) || str_empty gatewayNamespace
  then io_fail (ENew "exact lease identity and gateway namespace are required")
  else
    listed ← io_wrap "recover provider port reservation" (k8s_List (MatchingLabels gatewayNamespace (lease_labels lease)));
    match List.filter (fun r => String.eqb (annotation r providerLeaseUIDAnnotation) (UID lease)) listed with
    | [] => io_fail ErrProviderReservationNotFound
    | [r] =>
        let gatewayUID := annotation r providerGatewayUIDAnnotation in
        match reservationPort r with
        | Some port =>
            if str_empty gatewayUID || negb (String.eqb (label r providerGatewayUIDLabel) (identityLabelValue gatewayUID))
            then io_fail (ENew "provider port reservation identity is malformed")
            else mret (mkProviderReservationIdentity gatewayUID (Namespace (rp_Meta r)) port)
        | None => io_fail (ENew "provider port reservation identity is malformed")
        end
    | _ => io_fail (ENew "expected one exact provider reservation")
    end.

(** The loop over the listed reservations: [inl] is the port the lease has,
    [inr] the ports that are taken. *)
Fixpoint scan_reservations (lease gateway : ObjectMeta) (now : time) (occupied : list Z) (listed : list PortReservation) :
    IO W (Z + list Z) :=
  match listed with
  | [] => mret (inr occupied)
  | r :: rest =>
      if negb (String.eqb (annotation r providerGatewayUIDAnnotation) (UID gateway))
      then scan_reservations lease gateway now occupied rest
      else
        match reservationPort r with
        | None => io_fail (ENew "provider port reservation is malformed")
        | Some port =>
            if held_by (UID lease) r then mret (inl port)
            else if String.eqb (label r providerStateLabel) providerStateQuarantine && quarantineExpired r now then
              io_wrap "remove expired provider port quarantine" (IgnoreNotFound (k8s_Delete r)) ;;
              scan_reservations lease gateway now occupied rest
            else scan_reservations lease gateway now (port :: occupied) rest
        end
  end.

(** The loop over the offsets, [remaining] of which are left. *)
Fixpoint claim_port (lease gateway : ObjectMeta) (now : time) (occupied : list Z) (start : Z) (remaining : nat) (offset : Z) :
    IO W Z :=
  match remaining with
  | O => io_fail (ENew "provider internal port range is exhausted")
  | S remaining' =>
      let port := port_at start offset in
      let next := claim_port lease gateway now occupied start remaining' (offset + 1) in
      if bool_decide (port ∈ occupied) then next
      else
        let reservation := desiredProviderReservation lease gateway port now in
        created ← io_try (k8s_Create reservation);
        match created with
        | Ok _ => mret port
        | Fail err =>
            if negb (IsAlreadyExists err) then io_fail (Errorf "create provider port reservation" err)
            else
              existing ← io_try (k8s_Get (T := PortReservation) (key_of (rp_Meta reservation)));
              match existing with
              | Ok r => if held_by (UID lease) r then mret port else next
              | Fail _ => next
              end
        end
  end.

Definition Reserve (lease gateway : ObjectMeta) : IO W Z :=
  if str_empty (UID lease) || str_empty (UID gateway)
  then io_fail (ENew "exact lease and gateway identity are required for provider port allocation")
  else
    listed ← io_wrap "list provider port reservations" (k8s_List (MatchingLabels (Namespace gateway) (gateway_labels gateway)));
    now ← read_clock;
    scanned ← scan_reservations lease gateway now [] listed;
    match scanned with
    | inl port => mret port
    | inr occupied =>
        claim_port lease gateway now occupied (port_start (UID gateway) (UID lease)) (Z.to_nat port_count) 0
    end.

Definition Quarantine (lease gateway : ObjectMeta) (until : time) : IO W unit :=
  now ← read_clock;
  if str_empty (UID lease) || str_empty (UID gateway) || negb (time_After until now)
  then io_fail (ENew "exact provider reservation and future quarantine deadline are required")
  else
    listed ← k8s_List (MatchingLabels (Namespace gateway)
      (<[providerLeaseUIDLabel := identityLabelValue (UID lease)]> (gateway_labels gateway)));
    match List.filter (fun r => String.eqb (annotation r providerGatewayUIDAnnotation) (UID gateway) &&
                                String.eqb (annotation r providerLeaseUIDAnnotation) (UID lease)) listed with
    | [] => mret tt
    | [r] =>
        now ← read_clock;
        io_wrap "quarantine provider port reservation" (k8s_Patch r (in_quarantine until now r))
    | _ => io_fail (ENew "multiple provider port reservations exist for one lease UID")
    end.

End Allocator.

(** ** Against a shared API server *)

#[global] Instance ports_Getter : Getter (api PortReservation) PortReservation := api_get.
#[global] Instance ports_Lister : Lister (api PortReservation) PortReservation := api_list rp_Meta.
#[global] Instance ports_Creator : Creator (api PortReservation) PortReservation := api_create rp_Meta.
#[global] Instance ports_Deleter : Deleter (api PortReservation) PortReservation := api_delete rp_Meta.

(** A merge patch sets the labels and fields that differ and leaves the rest of
    the stored object alone. *)
Definition merge_reservation (base modified current : PortReservation) : PortReservation :=
  let m := rp_Meta current in
  let changed := filter (fun kv => Labels (rp_Meta base) !! kv.1 <> Some kv.2) (Labels (rp_Meta modified)) in
  let pick {A} `{EqDecision A} (f : PortReservation -> A) := if decide (f base = f modified) then f current else f modified in
  mkPortReservation (mkObjectMeta (Namespace m) (Name m) (UID m) (Generation m) (DeletionTimestamp m)
                       (changed ∪ Labels m) (Annotations m) (Finalizers m) (OwnerReferences m))
    (pick rp_HolderIdentity) (pick rp_AcquireTime) (pick rp_RenewTime) (pick rp_LeaseDurationSeconds).

#[global] Instance ports_Patcher : Patcher (api PortReservation) PortReservation := fun base modified =>
  api_call (fun w => let key := key_of (rp_Meta modified) in
                     match api_objs w !! key with
                     | Some current => (Ok tt, set_objs (<[key := merge_reservation base modified current]> (api_objs w)) w)
                     | None => (Fail (EStatus ReasonNotFound), w)
                     end).

Definition port_key (gateway : ObjectMeta) (port : Z) : ObjectKey := mkObjectKey (Namespace gateway) (port_name (UID gateway) port).

(** A reservation object is stored under the name of the gateway and port that
    its annotation and label give; so are all that the allocator creates. *)
Definition canonical (key : ObjectKey) (r : PortReservation) : Prop :=
  key = key_of (rp_Meta r) /\
  (label r providerReservationLabel = "true" -> forall port, reservationPort r = Some port ->
     Name (rp_Meta r) = port_name (annotation r providerGatewayUIDAnnotation) port).

Definition registry (objs : gmap ObjectKey PortReservation) : Prop := map_Forall canonical objs.

(** What stays on the server under this key, whatever other clients do. *)
Definition registry_with (key : ObjectKey) (r : PortReservation) (objs : gmap ObjectKey PortReservation) : Prop :=
  registry objs /\ objs !! key = Some r.

Lemma reservationPort_range r p : reservationPort r = Some p -> ProviderPortFirst <= p <= ProviderPortLast.
Proof.
  unfold reservationPort. destruct (parse_decimal _) as [v|]; [|done]. destruct (_ && _) eqn:E; [|done]. intros [= <-].
  apply andb_true_iff in E as [E1%Z.leb_le E2%Z.leb_le]. lia.
Qed.

Lemma port_at_range start offset : ProviderPortFirst <= port_at start offset <= ProviderPortLast.
Proof.
  unfold port_at. pose proof (Z.mod_pos_bound (start + offset) port_count ltac:(done)) as Hm.
  unfold port_count, ProviderPortFirst, ProviderPortLast in *. lia.
Qed.

Opaque identityLabelValue shortUID hashed_uid Sum256.

Lemma desired_label lease gateway port now key :
  label (desiredProviderReservation lease gateway port now) key =
  default "" (Labels (rp_Meta (desiredProviderReservation lease gateway port now)) !! key).
Proof. done. Qed.

Lemma desired_port lease gateway port now :
  ProviderPortFirst <= port <= ProviderPortLast ->
  reservationPort (desiredProviderReservation lease gateway port now) = Some port.
Proof.
  intros Hp. unfold reservationPort, label, map_get, desiredProviderReservation. cbn [rp_Meta Labels].
  repeat (rewrite lookup_insert_ne by done). rewrite lookup_insert_eq.
  change (default "" (Some (itoa port))) with (itoa port). rewrite parse_itoa by (unfold ProviderPortFirst in Hp; lia).
  destruct Hp as [H1%Z.leb_le H2%Z.leb_le]. by rewrite H1, H2.
Qed.

Lemma desired_held lease gateway port now : held_by (UID lease) (desiredProviderReservation lease gateway port now) = true.
Proof.
  unfold held_by, label, annotation, map_get, desiredProviderReservation. cbn [rp_Meta Labels Annotations].
  repeat first [rewrite lookup_insert_eq | rewrite lookup_insert_ne by done | rewrite lookup_singleton_eq].
  cbn [default]. by rewrite !String.eqb_refl.
Qed.

Lemma desired_canonical lease gateway port now :
  ProviderPortFirst <= port <= ProviderPortLast ->
  canonical (port_key gateway port) (desiredProviderReservation lease gateway port now).
Proof.
  intros Hp. split; [done|]. intros _ p. rewrite desired_port by done. intros [= <-].
  unfold annotation, map_get, desiredProviderReservation. cbn [rp_Meta Name Annotations]. by rewrite lookup_insert_eq.
Qed.

(** *** Exclusive claims *)

(** A listed object is one of the server at that time. *)
Definition listed_from (gateway : ObjectMeta) (objs : gmap ObjectKey PortReservation) (x : PortReservation) : Prop :=
  objs !! key_of (rp_Meta x) = Some x /\ Namespace (rp_Meta x) = Namespace gateway /\ label x providerReservationLabel = "true".

Lemma list_from gateway objs :
  registry objs ->
  Forall (listed_from gateway objs)
    (List.filter (list_selects rp_Meta (MatchingLabels (Namespace gateway) (gateway_labels gateway))) (map snd (map_to_list objs))).
Proof.
  intros Hreg. apply Forall_forall. intros x Hx. apply list_elem_of_In, filter_In in Hx as [Hin Hsel].
  apply in_map_iff in Hin as ([key x'] & [= ->] & Hin%list_elem_of_In%elem_of_map_to_list).
  destruct (Hreg _ _ Hin) as [-> _]. cbn [list_selects] in Hsel. apply andb_true_iff in Hsel as [Hns%String.eqb_eq Hl%bool_decide_eq_true].
  split; [done|]. split; [done|]. unfold label, map_get. rewrite (Hl providerReservationLabel "true"); [done|]. apply lookup_insert_eq.
Qed.

(** The key of a listed reservation of the gateway. *)
Lemma listed_key gateway objs x port :
  registry objs -> listed_from gateway objs x -> annotation x providerGatewayUIDAnnotation = UID gateway ->
  reservationPort x = Some port -> key_of (rp_Meta x) = port_key gateway port.
Proof.
  intros Hreg (Hx & Hns & Hl) Hann Hport. destruct (Hreg _ _ Hx) as [_ Hname].
  unfold key_of, port_key. by rewrite Hns, (Hname Hl port Hport), Hann.
Qed.

Section Exclusive.
Context (lease gateway : ObjectMeta) (port : Z) (r : PortReservation).
Let key := port_key gateway port.
Context (Hother : held_by (UID lease) r = false).

Notation I := (registry_with key r).

Definition not_granted (res : res Z) (w : api PortReservation) : Prop :=
  api_inv I w /\ forall q, res = Ok q -> q <> port /\ ProviderPortFirst <= q <= ProviderPortLast.

Lemma registry_insert objs q x :
  I objs -> objs !! q = None -> canonical q x -> I (<[q := x]> objs).
Proof.
  intros [Hreg Hr] Hnone Hc. split; [by apply map_Forall_insert_2|]. rewrite lookup_insert_ne; [done|]. congruence.
Qed.

Lemma registry_delete objs q : I objs -> q <> key -> I (delete q objs).
Proof. intros [Hreg Hr] Hq. split; [by apply map_Forall_delete|]. by rewrite lookup_delete_ne. Qed.

Lemma claim_port_exclusive now occupied start remaining offset w :
  api_inv I w -> wp (claim_port lease gateway now occupied start remaining offset) not_granted w.
Proof using Hother.
  revert offset w. induction remaining as [|remaining IH]; intros offset w Hinv; cbn [claim_port].
  { wp_step. split; [done|]. discriminate. }
  cbv zeta. pose proof (port_at_range start offset) as Hrange. set (q := port_at start offset) in *.
  case_bool_decide; [by apply IH|]. set (d := desiredProviderReservation lease gateway q now).
  change (key_of (rp_Meta d)) with (port_key gateway q). wp_step. wp_step.
  assert (forall w1, api_inv I w1 -> wp (existing ← io_try (k8s_Get (T := PortReservation) (port_key gateway q));
      match existing with
      | Ok x => if held_by (UID lease) x then mret q else claim_port lease gateway now occupied start remaining (offset + 1)
      | Fail _ => claim_port lease gateway now occupied start remaining (offset + 1)
      end) not_granted w1) as Hconflict.
  { intros w1 Hinv1. wp_step. wp_step. apply (wp_api_inv I); [done| |].
    - intros w2 Hinv2 _. unfold wp at 1. cbn [fst snd].
      destruct (api_objs w2 !! port_key gateway q) as [x|] eqn:Ex; [|by apply IH].
      destruct (held_by (UID lease) x) eqn:Eh; [|by apply IH]. wp_step. split; [done|]. intros q' [= <-]. split; [|done].
      intros ->. destruct Hinv2 as [[_ Hr] _]. unfold key in Hr. congruence.
    - intros w2 e Hinv2 _. by apply IH. }
  apply (wp_api_inv I); [done| |].
  - intros w1 Hinv1 _. unfold wp at 1. change (key_of (rp_Meta d)) with (port_key gateway q).
    destruct (api_objs w1 !! port_key gateway q) as [x|] eqn:Ex; cbn [fst snd].
    + change (IsAlreadyExists (EStatus ReasonAlreadyExists)) with true. cbn [negb]. by apply Hconflict.
    + wp_step. split.
      * apply api_inv_set; [done|]. apply registry_insert; [by destruct Hinv1|done|by apply desired_canonical].
      * intros q' [= <-]. split; [|done]. intros ->. destruct Hinv1 as [[_ Hr] _]. unfold key in Hr. congruence.
  - intros w1 e Hinv1 _. destruct (IsAlreadyExists e); cbn [negb]; [by apply Hconflict|]. wp_step. split; [done|discriminate].
Qed.

Lemma scan_exclusive now objs occupied listed (Q : res (Z + list Z) -> api PortReservation -> Prop) w :
  I objs -> Forall (listed_from gateway objs) listed ->
  String.eqb (label r providerStateLabel) providerStateQuarantine && quarantineExpired r now = false ->
  api_inv I w ->
  (forall w1 e, api_inv I w1 -> Q (Fail e) w1) ->
  (forall w1 q, api_inv I w1 -> q <> port -> ProviderPortFirst <= q <= ProviderPortLast -> Q (Ok (inl q)) w1) ->
  (forall w1 taken, api_inv I w1 -> Q (Ok (inr taken)) w1) ->
  wp (scan_reservations lease gateway now occupied listed) Q w.
Proof using Hother.
  intros [Hreg Hr] Hall Hkept Hinv Hfail Hmine Hdone. revert occupied w Hinv.
  induction Hall as [|x listed Hx _ IH]; intros occupied w Hinv; cbn [scan_reservations]; [wp_step; by apply Hdone|].
  destruct (String.eqb_spec (annotation x providerGatewayUIDAnnotation) (UID gateway)) as [Hann|]; cbn [negb]; [|by apply IH].
  destruct (reservationPort x) as [q|] eqn:Hq; [|wp_step; by apply Hfail].
  pose proof (listed_key gateway objs x q Hreg Hx Hann Hq) as Hkey.
  assert (key_of (rp_Meta x) = key -> x = r) as Hsame.
  { intros E. destruct Hx as (Hlook & _). rewrite E, Hr in Hlook. congruence. }
  destruct (held_by (UID lease) x) eqn:Eh.
  { wp_step. apply Hmine; [done| |by eapply reservationPort_range]. intros ->. rewrite (Hsame Hkey) in Eh. congruence. }
  destruct (String.eqb (label x providerStateLabel) providerStateQuarantine && quarantineExpired x now) eqn:Ee; [|by apply IH].
  assert (key_of (rp_Meta x) <> key) as Hne.
  { intros E. rewrite (Hsame E) in Ee. congruence. }
  wp_step. wp_step. apply wp_ignore_not_found. apply (wp_api_inv I); [done| |].
  - intros w1 Hinv1 _. unfold wp. destruct (api_objs w1 !! key_of (rp_Meta x)); cbn [fst snd].
    + intros r' [->| ->]; cbn [after]; (apply IH; apply api_inv_set; [done|]; apply registry_delete; [by destruct Hinv1|done]).
    + intros r' [->| ->]; cbn [after]; [by apply Hfail|by apply IH].
  - intros w1 e Hinv1 _ r' [->| ->]; cbn [after]; [by apply Hfail|by apply IH].
Qed.

End Exclusive.

(** A port whose reservation was there before and stays is not handed out. *)
Lemma Reserve_spares lease gateway port r w :
  api_inv (registry_with (port_key gateway port) r) w ->
  held_by (UID lease) r = false ->
  String.eqb (label r providerStateLabel) providerStateQuarantine && quarantineExpired r (api_clock w) = false ->
  wp (Reserve lease gateway) (not_granted gateway port r) w.
Proof.
  intros Hinv Hother Hkept. unfold Reserve. destruct (_ || _); [wp_step; split; [done|discriminate]|].
  wp_step. wp_step. eapply wp_api_inv; [exact Hinv| |].
  - intros w1 Hinv1 Hclock. unfold wp at 1. cbn [fst snd after]. wp_now. change (clock_now w1) with (api_clock w1). rewrite Hclock.
    wp_step. pose proof Hinv1 as [[Hreg Hr] _].
    apply scan_exclusive with port r (api_objs w1); [done|done|by apply list_from|done|done| | |].
    + intros w2 e Hinv2. cbn [after]. split; [done|discriminate].
    + intros w2 q Hinv2 Hq Hrange. cbn [after]. wp_step. split; [done|]. by intros ? [= <-].
    + intros w2 taken Hinv2. cbn [after]. by apply claim_port_exclusive.
  - intros w1 e Hinv1 _. cbn [after]. split; [done|discriminate].
Qed.

(** *** Quarantine *)

Lemma quarantine_covers until now t :
  now < until -> until - now < (2 ^ 31 - 1) * Second -> t + 1000 <= until ->
  t < MicroTime now + quarantine_seconds until now * Second.
Proof.
  intros Hlt Hsmall Ht. unfold MicroTime. pose proof (Z.mod_pos_bound now 1000 ltac:(done)) as Hm.
  assert (until - now <= quarantine_seconds until now * Second) as Hq; [|lia].
  unfold quarantine_seconds, time_Sub, min_int64, max_int64. rewrite Z.min_r, Z.max_r by (unfold Second, Millisecond in *; lia).
  rewrite Z.quot_div_nonneg by (unfold Second, Millisecond in *; lia).
  set (s := (until - now + Second - 1) / Second).
  assert (until - now <= s * Second /\ 1 <= s < 2 ^ 31) as [Hs1 Hs2].
  { pose proof (Z.div_mod (until - now + Second - 1) Second ltac:(done)) as Hd. fold s in Hd.
    pose proof (Z.mod_pos_bound (until - now + Second - 1) Second ltac:(done)) as Hb.
    unfold Second, Millisecond in *. lia. }
  assert (int32 s = s) as ->.
  { unfold int32. rewrite Z.mod_small by lia. lia. }
  destruct (Z.ltb_spec s 1); lia.
Qed.

Lemma merged_state until now x :
  label (merge_reservation x (in_quarantine until now x) x) providerStateLabel = providerStateQuarantine.
Proof.
  unfold label, map_get, merge_reservation, in_quarantine. cbn [rp_Meta Labels].
  rewrite lookup_union, map_lookup_filter, lookup_insert_eq. cbn.
  case_guard as Hg; [by destruct (Labels _ !! _)|]. cbn.
  destruct (decide (Labels (rp_Meta x) !! providerStateLabel = Some providerStateQuarantine)) as [->|]; done.
Qed.

Lemma merged_unexpired until now x t :
  now < until -> until - now < (2 ^ 31 - 1) * Second -> t + 1000 <= until ->
  quarantineExpired (merge_reservation x (in_quarantine until now x) x) t = false.
Proof.
  intros H1 H2 H3. pose proof (quarantine_covers until now t H1 H2 H3) as Hc.
  unfold quarantineExpired, merge_reservation, in_quarantine. cbn [rp_RenewTime rp_LeaseDurationSeconds].
  case_decide as E1; [rewrite E1|]; (case_decide as E2; [rewrite E2|]); unfold time_After; apply negb_false_iff, Z.ltb_lt; done.
Qed.

(** The reservation of exactly this lease and gateway, as the allocator lists it. *)
Definition reservation_of (lease gateway : ObjectMeta) (x : PortReservation) : Prop :=
  Namespace (rp_Meta x) = Namespace gateway /\
  annotation x providerGatewayUIDAnnotation = UID gateway /\ annotation x providerLeaseUIDAnnotation = UID lease /\
  map_Forall (fun k v => Labels (rp_Meta x) !! k = Some v)
    (<[providerLeaseUIDLabel := identityLabelValue (UID lease)]> (gateway_labels gateway)).

Lemma Quarantine_patches lease gateway until x w w' :
  api_env w = [] -> registry (api_objs w) ->
  api_objs w !! key_of (rp_Meta x) = Some x -> reservation_of lease gateway x ->
  Quarantine lease gateway until w = (Ok tt, w') ->
  api_clock w < until /\
  api_objs w' = <[key_of (rp_Meta x) := merge_reservation x (in_quarantine until (api_clock w) x) x]> (api_objs w).
Proof.
  intros Hq Hreg Hx (Hns & Hg & Hl & Hlabels) E.
  refine (wp_elim _ (fun r w' => r = Ok tt -> api_clock w < until /\
    api_objs w' = <[key_of (rp_Meta x) := merge_reservation x (in_quarantine until (api_clock w) x) x]> (api_objs w)) _ _ _ _ E eq_refl).
  clear E w'. unfold Quarantine. wp_now. change (clock_now w) with (api_clock w).
  destruct (str_empty (UID lease) || _ || _) eqn:Eguard; [by wp_step|].
  apply orb_false_iff in Eguard as [_ Huntil%negb_false_iff%Z.ltb_lt].
  wp_step. apply wp_api_call; [|by intros w1 e; unfold api_enter; rewrite Hq].
  intros w1. unfold api_enter. rewrite Hq. intros [= <-]. unfold wp at 1. cbn [fst snd after].
  set (mine := List.filter _ _).
  assert (x ∈ mine) as Hin.
  { apply list_elem_of_In, filter_In. split; [|by rewrite Hg, Hl, !String.eqb_refl].
    apply filter_In. split; [|cbn [list_selects]; by rewrite Hns, String.eqb_refl, bool_decide_true].
    apply in_map_iff. exists (key_of (rp_Meta x), x). split; [done|]. by apply list_elem_of_In, elem_of_map_to_list. }
  destruct mine as [|y [|z mine]]; [by apply elem_of_nil in Hin| |by wp_step].
  apply list_elem_of_singleton in Hin as <-. wp_now. change (clock_now w) with (api_clock w). wp_step.
  apply wp_api_call; [|by intros w1 e; unfold api_enter; rewrite Hq].
  intros w1. unfold api_enter. rewrite Hq. intros [= <-]. unfold wp.
  change (key_of (rp_Meta (in_quarantine until (api_clock w) x))) with (key_of (rp_Meta x)). rewrite Hx. done.
Qed.

(** A quarantined port stays out of use.  After [Quarantine] of a lease's
    reservation succeeded, no [Reserve] for any lease, also not for the same
    one, hands the port out again before the deadline, up to the microsecond
    of the stored time, as long as the object stays on the server. *)
Theorem quarantine_protects lease gateway port until x w w' :
  api_env w = [] -> registry (api_objs w) ->
  api_objs w !! port_key gateway port = Some x -> reservation_of lease gateway x ->
  until - api_clock w < (2 ^ 31 - 1) * Second ->
  Quarantine lease gateway until w = (Ok tt, w') ->
  exists y, api_objs w' !! port_key gateway port = Some y /\ label y providerStateLabel = providerStateQuarantine /\
    forall other later, api_inv (registry_with (port_key gateway port) y) later -> api_clock later + 1000 <= until ->
      wp (Reserve other gateway) (not_granted gateway port y) later.
Proof.
  intros Hq Hreg Hx Hof Hsmall E. destruct (Hreg _ _ Hx) as [Hkey _].
  assert (api_objs w !! key_of (rp_Meta x) = Some x) as Hx' by (by rewrite <- Hkey).
  destruct (Quarantine_patches lease gateway until x w w' Hq Hreg Hx' Hof E) as [Hlt Hobjs].
  set (y := merge_reservation _ _ _) in Hobjs. exists y.
  assert (api_objs w' !! port_key gateway port = Some y) as Hy by (rewrite Hobjs, Hkey; apply lookup_insert_eq).
  split; [exact Hy|].
  pose proof (merged_state until (api_clock w) x) as Hstate. fold y in Hstate. split; [done|].
  intros other later Hinv Hclock. apply Reserve_spares; [done| |].
  - unfold held_by. by rewrite Hstate, andb_false_r.
  - unfold y. rewrite merged_unexpired by done. by rewrite andb_false_r.
Qed.

(** *** Claims *)

Section Claims.
Context (lease gateway : ObjectMeta).

(** What other clients may do: anything that keeps the names of reservations and
    leaves the active reservations of this lease alone. *)
Definition spares (change : gmap ObjectKey PortReservation -> gmap ObjectKey PortReservation) : Prop :=
  forall m, registry m -> registry (change m) /\
    forall key x, m !! key = Some x -> held_by (UID lease) x = true -> change m !! key = Some x.

(** The active reservations of the lease among the listed objects are still there. *)
Definition still_mine (objs m : gmap ObjectKey PortReservation) : Prop :=
  registry m /\ forall x, listed_from gateway objs x -> held_by (UID lease) x = true -> m !! key_of (rp_Meta x) = Some x.

Lemma spares_mine objs w : Forall (fun c => spares c.1) (api_env w) -> still_mine objs (api_objs w) -> api_inv (still_mine objs) w.
Proof.
  intros Henv Hw. split; [done|]. eapply Forall_impl; [exact Henv|]. intros c Hc m [Hreg Hm]. destruct (Hc m Hreg) as [Hreg' Hkeep].
  split; [done|]. auto.
Qed.

(** A granted port is reserved on the server, for exactly this lease. *)
Definition granted (r : res Z) (w : api PortReservation) : Prop :=
  forall q, r = Ok q -> ProviderPortFirst <= q <= ProviderPortLast /\
    exists x, api_objs w !! port_key gateway q = Some x /\ held_by (UID lease) x = true.

Lemma claim_port_grants objs now occupied start remaining offset w :
  api_inv (still_mine objs) w -> wp (claim_port lease gateway now occupied start remaining offset) granted w.
Proof.
  revert offset w. induction remaining as [|remaining IH]; intros offset w Hw; cbn [claim_port]; [by wp_step|].
  cbv zeta. pose proof (port_at_range start offset) as Hrange. set (q := port_at start offset) in *.
  case_bool_decide; [by apply IH|]. set (d := desiredProviderReservation lease gateway q now).
  change (key_of (rp_Meta d)) with (port_key gateway q). wp_step. wp_step.
  assert (forall w1, api_inv (still_mine objs) w1 -> wp (existing ← io_try (k8s_Get (T := PortReservation) (port_key gateway q));
      match existing with
      | Ok x => if held_by (UID lease) x then mret q else claim_port lease gateway now occupied start remaining (offset + 1)
      | Fail _ => claim_port lease gateway now occupied start remaining (offset + 1)
      end) granted w1) as Hconflict.
  { intros w1 Hw1. wp_step. wp_step. apply (wp_api_inv (still_mine objs)); [done| |intros w2 e Hw2 _; by apply IH].
    intros w2 Hw2 _. unfold wp at 1. cbn [fst snd]. destruct (api_objs w2 !! port_key gateway q) as [x|] eqn:Ex; [|by apply IH].
    destruct (held_by (UID lease) x) eqn:Eh; [|by apply IH]. wp_step. intros q' [= <-]. eauto. }
  apply (wp_api_inv (still_mine objs)); [done| |].
  - intros w1 Hw1 _. unfold wp at 1. change (key_of (rp_Meta d)) with (port_key gateway q).
    destruct (api_objs w1 !! port_key gateway q) as [x|] eqn:Ex; cbn [fst snd].
    + change (IsAlreadyExists (EStatus ReasonAlreadyExists)) with true. cbn [negb]. by apply Hconflict.
    + wp_step. intros q' [= <-]. split; [done|]. exists d. cbn. split; [apply lookup_insert_eq|apply desired_held].
  - intros w1 e Hw1 _. destruct (IsAlreadyExists e); cbn [negb]; [by apply Hconflict|by wp_step].
Qed.

Lemma scan_grants now objs occupied listed (Q : res (Z + list Z) -> api PortReservation -> Prop) w :
  Forall (listed_from gateway objs) listed -> api_inv (still_mine objs) w ->
  (forall w1 r, api_inv (still_mine objs) w1 ->
     match r with
     | Ok (inl q) => exists x, listed_from gateway objs x /\ annotation x providerGatewayUIDAnnotation = UID gateway /\
                       reservationPort x = Some q /\ held_by (UID lease) x = true
     | _ => True
     end -> Q r w1) ->
  wp (scan_reservations lease gateway now occupied listed) Q w.
Proof.
  intros Hall Hw HQ. revert occupied w Hw.
  induction Hall as [|x listed Hx _ IH]; intros occupied w Hw; cbn [scan_reservations]; [wp_step; by apply HQ|].
  destruct (String.eqb_spec (annotation x providerGatewayUIDAnnotation) (UID gateway)) as [Hann|]; cbn [negb]; [|by apply IH].
  destruct (reservationPort x) as [q|] eqn:Hq; [|wp_step; by apply HQ].
  destruct (held_by (UID lease) x) eqn:Eh; [wp_step; apply HQ; [done|by exists x]|].
  destruct (_ && quarantineExpired x now); [|by apply IH].
  wp_step. wp_step. apply wp_ignore_not_found. apply (wp_api_inv (still_mine objs)); [done| |].
  - intros w1 Hw1 _. unfold wp. destruct (api_objs w1 !! key_of (rp_Meta x)); cbn [fst snd].
    + assert (api_inv (still_mine objs) (set_objs (delete (key_of (rp_Meta x)) (api_objs w1)) w1)) as Hdel.
      { apply api_inv_set; [done|]. destruct Hw1 as [[Hr Hm] _]. split; [by apply map_Forall_delete|]. intros y Hy Hheld.
        rewrite lookup_delete_ne; [by apply Hm|]. intros E. destruct Hx as (Hlx & _), Hy as (Hly & _). rewrite E, Hly in Hlx.
        injection Hlx as ->. congruence. }
      intros r' [->| ->]; cbn [after]; by apply IH.
    + intros r' [->| ->]; cbn [after]; [by apply HQ|by apply IH].
  - intros w1 e Hw1 _ r' [->| ->]; cbn [after]; [by apply HQ|by apply IH].
Qed.

Lemma Reserve_grants w : registry (api_objs w) -> Forall (fun c => spares c.1) (api_env w) -> wp (Reserve lease gateway) granted w.
Proof.
  intros Hreg Henv. unfold Reserve. destruct (_ || _); [by wp_step|]. wp_step. wp_step.
  assert (forall w1 e, api_enter w = (w1, e) -> registry (api_objs w1) /\ Forall (fun c => spares c.1) (api_env w1)) as Henter.
  { intros w1 e. unfold api_enter. destruct (api_env w) as [|[change failure] rest] eqn:E; intros [= <- <-]; [by rewrite E|].
    apply Forall_cons in Henv as [Hc Hrest]. split; [by apply Hc|done]. }
  apply wp_api_call; [|done]. intros w1 E. destruct (Henter w1 None E) as [Hreg1 Henv1]. unfold wp at 1. cbn [fst snd after]. wp_now. wp_step.
  apply scan_grants with (api_objs w1); [by apply list_from|apply spares_mine; [done|]; split; [done|by intros x []]|].
  intros w2 [[q|taken]|e] Hw2 Hfound; cbn [after]; [|by eapply claim_port_grants|done].
  wp_step. destruct Hfound as (x & Hx & Hann & Hport & Hheld). intros q' [= <-].
  split; [by eapply reservationPort_range|]. exists x. split; [|done].
  rewrite <- (listed_key gateway (api_objs w1) x q) by done. destruct Hw2 as [[_ Hm] _]. by apply Hm.
Qed.

End Claims.

(** C28: Provider ports are exclusive.  Whatever other clients do between its
    requests, as long as they leave the reservations of this lease alone, and
    whichever requests fail: when [Reserve] grants a port, it is one of the
    provider range, and the server then holds under the one name of this gateway
    and port an active reservation of exactly this lease, so no two leases hold
    a port at the same time.  And a port is not granted at all, nor its
    reservation touched, if its reservation is active for another lease or in
    quarantine that has not expired, was on the server before the call and is
    left there by the other clients. *)
Theorem provider_ports_exclusive lease gateway w :
  registry (api_objs w) -> Forall (fun c => spares lease c.1) (api_env w) ->
  wp (Reserve lease gateway) (granted lease gateway) w /\
  forall port r, api_inv (registry_with (port_key gateway port) r) w -> held_by (UID lease) r = false ->
    String.eqb (label r providerStateLabel) providerStateQuarantine && quarantineExpired r (api_clock w) = false ->
    wp (Reserve lease gateway) (not_granted gateway port r) w.
Proof. intros Hreg Henv. split; [by apply Reserve_grants|]. intros port r. apply Reserve_spares. Qed.

(** ** Two leases of a gateway *)
Module PortSample.

Definition named (uid : string) : ObjectMeta := mkObjectMeta "vpn" "object" uid 1 None ∅ ∅ [] [].
Definition gateway : ObjectMeta := named "gateway-uid".
Definition start : time := 1700000000 * Second.
Definition reservation : PortReservation := desiredProviderReservation (named "lease-a") gateway 50000 start.
Definition server : api PortReservation := mkApi {[port_key gateway 50000 := reservation]} [] start.

Lemma in_range : ProviderPortFirst <= 50000 <= ProviderPortLast.
Proof. unfold ProviderPortFirst, ProviderPortLast. lia. Qed.

Lemma server_registry : registry (api_objs server).
Proof. apply map_Forall_singleton. apply desired_canonical, in_range. Qed.

Lemma server_inv : api_inv (registry_with (port_key gateway 50000) reservation) server.
Proof. split; [split; [apply server_registry|apply lookup_singleton_eq]|constructor]. Qed.

Lemma reservation_labels :
  label reservation providerStateLabel = providerStateActive /\ annotation reservation providerLeaseUIDAnnotation = "lease-a".
Proof.
  unfold label, annotation, map_get, reservation, desiredProviderReservation. cbn [rp_Meta Labels Annotations].
  repeat (rewrite lookup_insert_ne by done). by rewrite !lookup_singleton_eq.
Qed.

(** Another lease gets another port, which it then holds. *)
Lemma provider_ports_exclusive_witness :
  wp (Reserve (named "lease-b") gateway) (granted (named "lease-b") gateway) server /\
  wp (Reserve (named "lease-b") gateway) (not_granted gateway 50000 reservation) server.
Proof.
  destruct (provider_ports_exclusive (named "lease-b") gateway server server_registry ltac:(constructor)) as [Hg Hn].
  split; [exact Hg|]. apply Hn; [apply server_inv| |].
  - unfold held_by. rewrite (proj2 reservation_labels). by rewrite andb_false_r.
  - rewrite (proj1 reservation_labels). done.
Defined.

Lemma reservation_found : reservation_of (named "lease-a") gateway reservation.
Proof.
  split_and!; [done|unfold annotation, map_get; cbn [rp_Meta reservation desiredProviderReservation Annotations]; by rewrite lookup_insert_eq|apply reservation_labels|].
  intros k v Hkv. unfold gateway_labels in Hkv. rewrite !lookup_insert_Some, lookup_singleton_Some in Hkv.
  cbn [rp_Meta reservation desiredProviderReservation Labels].
  destruct Hkv as [[<- <-]|[Hk1 [[<- <-]|[Hk2 [<- <-]]]]];
    repeat first [rewrite lookup_insert_eq; reflexivity | rewrite lookup_insert_ne by done].
Qed.

Definition quarantined : api PortReservation :=
  (Quarantine (named "lease-a") gateway (start + 600 * Second) server).2.

Lemma quarantine_ok : (Quarantine (named "lease-a") gateway (start + 600 * Second) server).1 = Ok tt.
Proof. vm_compute. reflexivity. Qed.

(** The port of a lease that is gone is out of use for ten minutes. *)
Lemma quarantine_protects_witness :
  exists y, api_objs quarantined !! port_key gateway 50000 = Some y /\ label y providerStateLabel = providerStateQuarantine.
Proof.
  destruct (quarantine_protects (named "lease-a") gateway 50000 (start + 600 * Second) reservation server quarantined
    eq_refl server_registry (lookup_singleton_eq _ _) reservation_found) as (y & Hy & Hs & _).
  - cbn [server api_clock]. unfold start, Second, Millisecond. lia.
  - unfold quarantined. rewrite <- quarantine_ok. apply surjective_pairing.
  - exists y. split; [exact Hy|exact Hs].
Defined.

(** Between the list and the delete of an expired quarantine, another lease
    takes the port: the delete, which names no version, removes its active
    reservation, so that the port is free to be granted again. *)
Definition expired : PortReservation :=
  in_quarantine start (start - 3600 * Second) (desiredProviderReservation (named "lease-c") gateway 50000 (start - 7200 * Second)).
Definition contested : api PortReservation :=
  mkApi {[port_key gateway 50000 := expired]} [(<[port_key gateway 50000 := reservation]>, None)] start.

Lemma active_reservation_removed :
  let '(answer, w) := scan_reservations (named "lease-b") gateway start [] [expired] contested in
  answer = Ok (inr []) /\ api_objs w !! port_key gateway 50000 = None /\ held_by "lease-a" reservation = true.
Proof. vm_compute. done. Qed.

End PortSample.
