(* ===== verification/PortResolver.v ===== *)
(** * The backend of a lease (internal/portforward/resolver.go)

    A lease names a Service; the resolver follows it to EndpointSlices, Pods and
    workload bindings and keeps the endpoints whose identity is exact at every
    step.  [Select] picks one of them and stays with it. *)

From S2P Require Import Prelude Netip Api Conditions Kube PortRuntime.

(** ** Core objects, as far as the source reads them *)

Definition LabelServiceName : string := "kubernetes.io/service-name".
Definition ServiceTypeExternalName : string := "ExternalName".
Definition AddressTypeIPv4 : string := "IPv4".
Definition PodRunning : string := "Running".
Definition EnrollmentLabel : string := "networking.waycloak.io/egress-route".

Record ServicePort := mkServicePort {
  sp_Name : string;
  sp_Protocol : string;
  sp_Port : Z;
  sp_TargetPort : IntOrString
}.
Record Service := mkService { sv_Meta : ObjectMeta; sv_Type : string; sv_Ports : list ServicePort }.

Record EndpointPort := mkEndpointPort { ep_Name : option string; ep_Protocol : option string; ep_Port : option Z }.
Record ObjectReference := mkObjectReference { ref_Kind : string; ref_Namespace : string; ref_Name : string; ref_UID : string }.
Record Endpoint := mkEndpoint {
  en_Addresses : list string;
  en_Ready : option bool;
  en_Serving : option bool;
  en_Terminating : option bool;
  en_TargetRef : option ObjectReference
}.
Record EndpointSlice := mkEndpointSlice {
  es_Meta : ObjectMeta;
  es_AddressType : string;
  es_Ports : list EndpointPort;
  es_Endpoints : list Endpoint
}.

(** ** Results *)

Inductive ResolutionKind := ResolutionInvalid | ResolutionNotFound | ResolutionUnavailable.

#[global] Instance ResolutionKind_eq_dec : EqDecision ResolutionKind.
Proof. solve_decision. Defined.

Record ResolutionError := mkResolutionError { re_Kind : ResolutionKind; re_Message : string; re_Err : option error }.

Definition invalid (message : string) (err : option error) : ResolutionError := mkResolutionError ResolutionInvalid message err.
Definition notFound (message : string) (err : option error) : ResolutionError := mkResolutionError ResolutionNotFound message err.
Definition unavailable (message : string) (err : option error) : ResolutionError :=
  mkResolutionError ResolutionUnavailable message (Some (default (ENew "observation unavailable") err)).

Record Resolution := mkResolution {
  rn_Service : Service;
  rn_Candidates : list Candidate;
  rn_UnavailableCandidates : list Candidate
}.

(** ** Pure parts *)

Definition eligibleEndpoint (e : Endpoint) : bool :=
  bool_decide (en_Ready e = Some true) && negb (bool_decide (en_Serving e = Some false)) &&
  negb (bool_decide (en_Terminating e = Some true)).

Definition ownedByService (slice : EndpointSlice) (service : Service) : bool :=
  existsb (fun o => String.eqb (or_APIVersion o) "v1" && String.eqb (or_Kind o) "Service" &&
                    String.eqb (or_Name o) (Name (sv_Meta service)) && String.eqb (or_UID o) (UID (sv_Meta service)) &&
                    bool_decide (or_Controller o = Some true)) (OwnerReferences (es_Meta slice)).

Definition service_port_named (ref : IntOrString) (port : ServicePort) : bool :=
  match ref with StrVal s => String.eqb (sp_Name port) s | IntVal n => sp_Port port =? n end.

Definition matchingServicePorts (service : Service) (ref : IntOrString) : ResolutionError + list ServicePort :=
  match List.filter (service_port_named ref) (sv_Ports service) with
  | [] => inl (notFound "Backend Service port is unavailable" None)
  | ports => inr ports
  end.

(** Whether an endpoint port serves a Service port, and its number. *)
Definition endpoint_target (servicePort : ServicePort) (endpointPort : EndpointPort) : option Z :=
  match ep_Port endpointPort with
  | None => None
  | Some port =>
      let named := match sp_TargetPort servicePort with StrVal _ => true | IntVal _ => false end in
      if negb (str_empty (sp_Name servicePort)) && negb (bool_decide (ep_Name endpointPort = Some (sp_Name servicePort)))
      then None
      else
        let expected := match sp_TargetPort servicePort with
                        | IntVal n => if n =? 0 then sp_Port servicePort else n
                        | StrVal _ => sp_Port servicePort
                        end in
        if match sp_TargetPort servicePort with StrVal s => negb (str_empty s) | IntVal _ => false end &&
           str_empty (sp_Name servicePort) then None
        else if negb (port =? expected) && negb named then None
        else if (port <? 1) || (65535 <? port) then None
        else Some port
  end.

(** The inner loop with its [break]. *)
Fixpoint first_target (servicePort : ServicePort) (ports : list EndpointPort) : option Z :=
  match ports with
  | [] => None
  | p :: rest => match endpoint_target servicePort p with Some t => Some t | None => first_target servicePort rest end
  end.

Definition targetPortForSlice (slice : EndpointSlice) (servicePorts : list ServicePort) : option Z :=
  match omap (fun p => first_target p (es_Ports slice)) servicePorts with
  | [] => None
  | target :: rest => if forallb (Z.eqb target) rest then Some target else None
  end.

(** The order by Pod and then by slice. *)
Definition candidate_le (a b : Candidate) : Prop :=
  if decide (cd_PodUID a = cd_PodUID b) then String.le (cd_EndpointSliceUID a) (cd_EndpointSliceUID b)
  else String.le (cd_PodUID a) (cd_PodUID b).
#[global] Instance candidate_le_dec : RelDecision candidate_le.
Proof. intros a b. unfold candidate_le. case_decide; apply _. Defined.

Definition sortCandidates (candidates : list Candidate) : list Candidate := merge_sort candidate_le candidates.

(** The bindings of exactly this Pod at exactly this gateway generation. *)
Definition binding_of_pod (gateway : VPNGateway) (pod : Pod) (binding : VPNWorkloadBinding) : bool :=
  let spec := wb_Spec binding in
  String.eqb (lur_Name (wb_PodRef spec)) (Name (pod_Meta pod)) && String.eqb (lur_UID (wb_PodRef spec)) (UID (pod_Meta pod)) &&
  String.eqb (nur_Namespace (wb_GatewayRef spec)) (Namespace (gw_Meta gateway)) &&
  String.eqb (nur_Name (wb_GatewayRef spec)) (Name (gw_Meta gateway)) &&
  String.eqb (nur_UID (wb_GatewayRef spec)) (UID (gw_Meta gateway)) &&
  (wn_GatewayGeneration (wb_Network spec) =? Generation (gw_Meta gateway)) &&
  negb (str_empty (UID (wb_Meta binding))) && not_deleting (wb_Meta binding) &&
  String.eqb (map_get (Labels (pod_Meta pod)) EnrollmentLabel) (lur_Name (wb_RouteRef spec)).

Definition Select (candidates : list Candidate) (current : option ActiveLeaseEndpoint) : option Candidate :=
  match match current with
        | Some c => List.find (fun candidate => String.eqb (cd_PodUID candidate) (ae_PodUID c)) candidates
        | None => None
        end with
  | Some candidate => Some candidate
  | None => head (merge_sort candidate_le candidates)
  end.

(** [target[candidate.PodUID] = candidate] unless a smaller slice is there. *)
Definition add_candidate (candidate : Candidate) (m : gmap string Candidate) : gmap string Candidate :=
  match m !! cd_PodUID candidate with
  | Some current =>
      if negb (bool_decide (String.le (cd_EndpointSliceUID current) (cd_EndpointSliceUID candidate)))
      then <[cd_PodUID candidate := candidate]> m else m
  | None => <[cd_PodUID candidate := candidate]> m
  end.

(** ** The resolver *)

Section Resolver.
Context `{ApiMeta} {W : Type} `{Getter W Service} `{Lister W EndpointSlice} `{Lister W VPNWorkloadBinding} `{Getter W Pod}.

(** [binding.Status] has the condition for the current generation. *)
Definition binding_current (binding : VPNWorkloadBinding) (t : string) : bool :=
  CurrentTrue (wbs_Conditions (wb_Status binding)) t (wbs_ObservedGeneration (wb_Status binding)) (Generation (wb_Meta binding)).

Definition binding_eligible (binding : VPNWorkloadBinding) : bool :=
  binding_current binding ConditionProgrammed && binding_current binding ConditionReady &&
  binding_current binding ConditionNodeReady.

(** [None] is a candidate that is not observed; the flag says whether it is
    eligible. *)
Definition candidate (lease : PortForwardLease) (gateway : VPNGateway) (service : Service) (slice : EndpointSlice)
    (endpoint : Endpoint) (targetPort : Z) (bindings : list VPNWorkloadBinding) : IO W (option (Candidate * bool)) :=
  let namespace := Namespace (pl_Meta lease) in
  match en_TargetRef endpoint with
  | None => mret None
  | Some ref =>
      if negb (String.eqb (ref_Kind ref) "Pod") || str_empty (ref_Name ref) || str_empty (ref_UID ref) ||
         (negb (str_empty (ref_Namespace ref)) && negb (String.eqb (ref_Namespace ref) namespace))
      then mret None
      else
        got ← io_try (k8s_Get (T := Pod) (mkObjectKey namespace (ref_Name ref)));
        match got with
        | Fail err => if IsNotFound err then mret None else io_fail err
        | Ok pod =>
            if negb (String.eqb (UID (pod_Meta pod)) (ref_UID ref)) || negb (String.eqb (pod_Phase pod) PodRunning) ||
               negb (not_deleting (pod_Meta pod))
            then mret None
            else
              match en_Addresses endpoint with
              | [address] =>
                  match ParseAddr address with
                  | None => mret None
                  | Some applicationAddress =>
                      if negb (Addr_Is4 applicationAddress) || str_empty (pod_IP pod) ||
                         negb (String.eqb (pod_IP pod) (Addr_String applicationAddress))
                      then mret None
                      else
                        match List.filter (binding_of_pod gateway pod) bindings with
                        | [binding] =>
                            match ParsePrefix (wa_Address (wb_Allocation (wb_Spec binding))) with
                            | None => mret None
                            | Some prefix =>
                                if negb (Addr_Is4 (Prefix_Addr prefix)) then mret None
                                else mret (Some (mkCandidate (UID (sv_Meta service)) (UID (es_Meta slice)) (Name (pod_Meta pod))
                                             (UID (pod_Meta pod)) (Name (wb_Meta binding)) (UID (wb_Meta binding))
                                             (Prefix_Addr prefix) applicationAddress targetPort,
                                           binding_eligible binding))
                            end
                        | _ => mret None
                        end
                  end
              | _ => mret None
              end
        end
  end.

Notation found := (gmap string Candidate * gmap string Candidate)%type.

Fixpoint resolve_endpoints (lease : PortForwardLease) (gateway : VPNGateway) (service : Service) (slice : EndpointSlice)
    (targetPort : Z) (bindings : list VPNWorkloadBinding) (endpoints : list Endpoint) (acc : found) : IO W found :=
  match endpoints with
  | [] => mret acc
  | endpoint :: rest =>
      acc' ← (if eligibleEndpoint endpoint then
                c ← candidate lease gateway service slice endpoint targetPort bindings;
                mret (match c with
                      | None => acc
                      | Some (c, true) => (add_candidate c acc.1, acc.2)
                      | Some (c, false) => (acc.1, add_candidate c acc.2)
                      end)
              else mret acc);
      resolve_endpoints lease gateway service slice targetPort bindings rest acc'
  end.

Fixpoint resolve_slices (lease : PortForwardLease) (gateway : VPNGateway) (service : Service)
    (servicePorts : list ServicePort) (bindings : list VPNWorkloadBinding) (slices : list EndpointSlice) (acc : found) :
    IO W found :=
  match slices with
  | [] => mret acc
  | slice :: rest =>
      acc' ← (if negb (ownedByService slice service) || negb (String.eqb (es_AddressType slice) AddressTypeIPv4) then mret acc
              else
                match targetPortForSlice slice servicePorts with
                | None => mret acc
                | Some targetPort =>
                    resolve_endpoints lease gateway service slice targetPort bindings (es_Endpoints slice) acc
                end);
      resolve_slices lease gateway service servicePorts bindings rest acc'
  end.

Definition Resolve (lease : PortForwardLease) (gateway : VPNGateway) : IO W (ResolutionError + Resolution) :=
  let namespace := Namespace (pl_Meta lease) in
  let backend := pl_BackendRef (pl_Spec lease) in
  if negb (str_empty (sb_Group backend)) || negb (String.eqb (sb_Kind backend) "Service")
  then mret (inl (invalid "Backend must be a same-namespace core Service" None))
  else
    got ← io_try (k8s_Get (T := Service) (mkObjectKey namespace (sb_Name backend)));
    match got with
    | Fail err =>
        mret (inl (if IsNotFound err then notFound "Backend Service is unavailable" (Some err)
                   else unavailable "Backend Service observation is unavailable" (Some err)))
    | Ok service =>
        if String.eqb (sv_Type service) ServiceTypeExternalName || str_empty (UID (sv_Meta service))
        then mret (inl (invalid "Backend Service does not provide Pod endpoint identity" None))
        else
          match matchingServicePorts service (sb_Port backend) with
          | inl err => mret (inl err)
          | inr servicePorts =>
              slices ← io_try (k8s_List (T := EndpointSlice)
                (MatchingLabels namespace {[LabelServiceName := Name (sv_Meta service)]}));
              match slices with
              | Fail err => mret (inl (unavailable "EndpointSlice observation is unavailable" (Some err)))
              | Ok slices =>
                  bindings ← io_try (k8s_List (T := VPNWorkloadBinding) (InNamespace namespace));
                  match bindings with
                  | Fail err => mret (inl (unavailable "Workload binding observation is unavailable" (Some err)))
                  | Ok bindings =>
                      found ← io_try (resolve_slices lease gateway service servicePorts bindings slices (∅, ∅));
                      match found with
                      | Fail err => mret (inl (unavailable "Backend Pod observation is unavailable" (Some err)))
                      | Ok (byPod, unavailableByPod) =>
                          mret (inr (mkResolution service (sortCandidates (map snd (map_to_list byPod)))
                                       (sortCandidates (map snd (map_to_list unavailableByPod)))))
                      end
                  end
              end
          end
    end.

End Resolver.

(** ** Selection *)

#[global] Instance candidate_le_total : Total candidate_le.
Proof.
  intros a b. unfold candidate_le. destruct (decide (cd_PodUID a = cd_PodUID b)) as [E|E].
  - rewrite decide_True by done. apply (total String.le).
  - rewrite decide_False by congruence. apply (total String.le).
Qed.

#[global] Instance candidate_le_trans : Transitive candidate_le.
Proof.
  intros a b c. unfold candidate_le.
  destruct (decide (cd_PodUID a = cd_PodUID b)) as [Eab|Nab], (decide (cd_PodUID b = cd_PodUID c)) as [Ebc|Nbc],
    (decide (cd_PodUID a = cd_PodUID c)) as [Eac|Nac]; try congruence; intros Hab Hbc; try (by etransitivity).
  contradict Nab. apply (anti_symm String.le); congruence.
Qed.

(** On different Pods the order is that of the Pods, and strict. *)
Lemma candidate_le_pods a b : candidate_le a b -> String.le (cd_PodUID a) (cd_PodUID b).
Proof. unfold candidate_le. case_decide as E; [|done]. intros _. by rewrite E. Qed.

Lemma same_pod (l : list Candidate) a b :
  NoDup (map cd_PodUID l) -> a ∈ l -> b ∈ l -> cd_PodUID a = cd_PodUID b -> a = b.
Proof.
  intros Hn [i Hi]%list_elem_of_lookup [j Hj]%list_elem_of_lookup E. assert (i = j) as ->; [|congruence].
  eapply (NoDup_lookup (map cd_PodUID l)); [done| |].
  - change (map cd_PodUID l) with (cd_PodUID <$> l). by rewrite list_lookup_fmap, Hi.
  - change (map cd_PodUID l) with (cd_PodUID <$> l). by rewrite list_lookup_fmap, Hj, E.
Qed.

Lemma sorted_head (l : list Candidate) c : head (merge_sort candidate_le l) = Some c -> c ∈ l /\ forall d, d ∈ l -> candidate_le c d.
Proof.
  pose proof (StronglySorted_merge_sort candidate_le l) as Hs. pose proof (merge_sort_Permutation candidate_le l) as Hp.
  destruct (merge_sort candidate_le l) as [|x rest]; [done|]. intros [= ->]. setoid_rewrite <- Hp. split; [by left|].
  intros d [->|Hd]%elem_of_cons; [|by eapply StronglySorted_inv in Hs as [_ Hall]; rewrite Forall_forall in Hall; apply Hall].
  by destruct (total candidate_le c c).
Qed.

(** The Pod of the current endpoint is still among the candidates. *)
Definition current_candidate (candidates : list Candidate) (current : option ActiveLeaseEndpoint) (c : Candidate) : Prop :=
  exists e, current = Some e /\ c ∈ candidates /\ cd_PodUID c = ae_PodUID e.

Lemma Select_cases candidates current :
  match Select candidates current with
  | None => candidates = []
  | Some c => c ∈ candidates /\
      (current_candidate candidates current c \/
       (forall d, ~ current_candidate candidates current d) /\ forall d, d ∈ candidates -> candidate_le c d)
  end.
Proof.
  unfold Select. set (pinned := match current with Some _ => _ | None => _ end).
  destruct pinned as [c|] eqn:Ep; unfold pinned in Ep.
  - destruct current as [e|]; [|done]. apply List.find_some in Ep as [Hin%list_elem_of_In Heq%String.eqb_eq].
    split; [done|]. left. by exists e.
  - assert (forall d, ~ current_candidate candidates current d) as Hnone.
    { intros d (e & -> & Hd & Hpod). apply list_elem_of_In in Hd. apply (List.find_none _ _ Ep) in Hd.
      by rewrite Hpod, String.eqb_refl in Hd. }
    destruct (head (merge_sort candidate_le candidates)) as [c|] eqn:Eh.
    + apply sorted_head in Eh as [Hin Hle]. split; [done|]. by right.
    + pose proof (merge_sort_Permutation candidate_le candidates) as Hp.
      destruct (merge_sort candidate_le candidates); [by apply Permutation_nil_l in Hp|done].
Qed.

Lemma Select_perm candidates candidates' current :
  NoDup (map cd_PodUID candidates) -> candidates' ≡ₚ candidates -> Select candidates' current = Select candidates current.
Proof.
  intros Hn Hp. pose proof (Select_cases candidates current) as H1'. pose proof (Select_cases candidates' current) as H2'.
  assert (forall d, current_candidate candidates' current d <-> current_candidate candidates current d) as Hcur.
  { intros d. unfold current_candidate. by setoid_rewrite Hp. }
  destruct (Select candidates current) as [c|], (Select candidates' current) as [c'|].
  - destruct H1' as [Hc H1'], H2' as [Hc' H2']. setoid_rewrite Hcur in H2'. setoid_rewrite Hp in H2'. rewrite Hp in Hc'. f_equal.
    destruct H1' as [(e & -> & _ & He)|[Hno Hle]], H2' as [(e' & He' & _ & Hpod)|[Hno' Hle']].
    + apply (same_pod candidates); [done..|]. congruence.
    + destruct (Hno' c). by exists e.
    + destruct (Hno c'). by exists e'.
    + apply (same_pod candidates); [done..|].
      apply (anti_symm String.le); apply candidate_le_pods; auto.
  - destruct H1' as [Hc _]. rewrite H2' in Hp. apply Permutation_nil_l in Hp. subst. by apply elem_of_nil in Hc.
  - destruct H2' as [Hc _]. rewrite H1' in Hp. rewrite Hp in Hc. by apply elem_of_nil in Hc.
  - done.
Qed.

(** Selection is sticky and independent of list order.  The selected
    candidate is one of the list; a candidate of the current Pod is kept; without
    one, the candidate with the smallest Pod UID is chosen; nothing is selected
    only from an empty list; and any reordering of the candidates, one per Pod,
    selects the same one. *)
Theorem Select_sticky candidates current :
  NoDup (map cd_PodUID candidates) ->
  (Select candidates current = None <-> candidates = []) /\
  (forall c, Select candidates current = Some c ->
     c ∈ candidates /\
     (forall e d, current = Some e -> d ∈ candidates -> cd_PodUID d = ae_PodUID e -> c = d) /\
     ((forall e d, current = Some e -> d ∈ candidates -> cd_PodUID d <> ae_PodUID e) ->
        forall d, d ∈ candidates -> String.le (cd_PodUID c) (cd_PodUID d))) /\
  (forall candidates', candidates' ≡ₚ candidates -> Select candidates' current = Select candidates current).
Proof.
  intros Hn. pose proof (Select_cases candidates current) as Hcases. split; [|split; [|intros; by apply Select_perm]].
  - split; [by intros E; rewrite E in Hcases|]. intros ->. by destruct current.
  - intros c E. rewrite E in Hcases. destruct Hcases as [Hin Hcase]. split; [done|]. split.
    + intros e d -> Hd Hpod. destruct Hcase as [(e' & [= <-] & _ & Hc)|[Hno _]].
      * apply (same_pod candidates); [done..|congruence].
      * destruct (Hno d). by exists e.
    + intros Hnone d Hd. destruct Hcase as [(e & He & _ & Hc)|[_ Hle]]; [by destruct (Hnone e c He Hin)|].
      apply candidate_le_pods. by apply Hle.
Qed.

(** ** Resolution *)

Section Exact.
Context `{ApiMeta} {W : Type} `{Getter W Service} `{Lister W EndpointSlice} `{Lister W VPNWorkloadBinding} `{Getter W Pod}.

(** What the reads of a resolution keep. *)
Record resolver_keeps (I : W -> Prop) : Prop := {
  keeps_service key : keeps I (k8s_Get (T := Service) key);
  keeps_slices opt : keeps I (k8s_List (T := EndpointSlice) opt);
  keeps_bindings opt : keeps I (k8s_List (T := VPNWorkloadBinding) opt);
  keeps_pod key : keeps I (k8s_Get (T := Pod) key)
}.
Context (I : W -> Prop).

(** The way from the Service to the overlay address of a candidate. *)
Record trail (lease : PortForwardLease) (gateway : VPNGateway) (service : Service) (bindings : list VPNWorkloadBinding)
    (eligible : bool) (c : Candidate) (slice : EndpointSlice) (endpoint : Endpoint) (ref : ObjectReference) (pod : Pod)
    (binding : VPNWorkloadBinding) : Prop := {
  trail_service : cd_ServiceUID c = UID (sv_Meta service);
  trail_slice : cd_EndpointSliceUID c = UID (es_Meta slice) /\ ownedByService slice service = true;
  trail_endpoint : endpoint ∈ es_Endpoints slice /\ eligibleEndpoint endpoint = true /\ en_TargetRef endpoint = Some ref;
  trail_address : exists address, en_Addresses endpoint = [address] /\ ParseAddr address = Some (cd_ApplicationAddress c);
  trail_port : 1 <= cd_TargetPort c <= 65535;
  trail_read : answered I (k8s_Get (T := Pod) (mkObjectKey (Namespace (pl_Meta lease)) (ref_Name ref))) (Ok pod);
  trail_pod : cd_PodUID c = ref_UID ref /\ cd_PodUID c = UID (pod_Meta pod) /\ cd_PodName c = Name (pod_Meta pod) /\
    cd_PodUID c <> "" /\ pod_Phase pod = PodRunning /\ not_deleting (pod_Meta pod) = true /\
    pod_IP pod = Addr_String (cd_ApplicationAddress c);
  trail_binding : List.filter (binding_of_pod gateway pod) bindings = [binding] /\
    cd_BindingName c = Name (wb_Meta binding) /\ cd_BindingUID c = UID (wb_Meta binding);
  trail_overlay : Addr_Is4 (cd_OverlayAddress c) = true /\
    exists bits, ParsePrefix (wa_Address (wb_Allocation (wb_Spec binding))) = Some (mkPrefix (cd_OverlayAddress c) bits);
  trail_eligible : binding_eligible binding = eligible
}.

Definition exact_candidate lease gateway service (slices : list EndpointSlice) bindings eligible c : Prop :=
  exists slice endpoint ref pod binding,
    slice ∈ slices /\ trail lease gateway service bindings eligible c slice endpoint ref pod binding.

(** The Service, its slices and the bindings, as they were read for the lease. *)
Definition backend_read (lease : PortForwardLease) (service : Service) (slices : list EndpointSlice)
    (bindings : list VPNWorkloadBinding) : Prop :=
  let namespace := Namespace (pl_Meta lease) in
  answered I (k8s_Get (T := Service) (mkObjectKey namespace (sb_Name (pl_BackendRef (pl_Spec lease))))) (Ok service) /\
  answered I (k8s_List (T := EndpointSlice) (MatchingLabels namespace {[LabelServiceName := Name (sv_Meta service)]})) (Ok slices) /\
  answered I (k8s_List (T := VPNWorkloadBinding) (InNamespace namespace)) (Ok bindings).

Hypothesis kept : resolver_keeps I.

Lemma first_target_range servicePort ports t : first_target servicePort ports = Some t -> 1 <= t <= 65535.
Proof.
  induction ports as [|p ports IH]; cbn; [done|]. destruct (endpoint_target servicePort p) as [t'|] eqn:E; [|done].
  intros [= <-]. revert E. unfold endpoint_target. destruct (ep_Port p) as [port|]; [|done].
  destruct (_ && negb (bool_decide _)); [done|]. destruct (_ && str_empty _); [done|]. destruct (_ && negb _); [done|].
  destruct ((port <? 1) || (65535 <? port)) eqn:Er; [done|]. apply orb_false_iff in Er as [H1'%Z.ltb_ge H2'%Z.ltb_ge].
  intros [= <-]. lia.
Qed.

Lemma targetPort_range slice servicePorts t : targetPortForSlice slice servicePorts = Some t -> 1 <= t <= 65535.
Proof.
  unfold targetPortForSlice. destruct (omap _ servicePorts) as [|t' rest] eqn:E; [done|]. case_match; [|done]. intros [= <-].
  assert (t' ∈ omap (fun p => first_target p (es_Ports slice)) servicePorts) as Hin by (rewrite E; by left).
  apply list_elem_of_omap in Hin as (p & _ & Hp). by eapply first_target_range.
Qed.

Lemma candidate_exact lease gateway service slice endpoint targetPort bindings w :
  ownedByService slice service = true -> endpoint ∈ es_Endpoints slice -> eligibleEndpoint endpoint = true ->
  1 <= targetPort <= 65535 -> I w ->
  wp (candidate lease gateway service slice endpoint targetPort bindings) (fun r w' => I w' /\ forall c eligible,
    r = Ok (Some (c, eligible)) ->
    exists ref pod binding, trail lease gateway service bindings eligible c slice endpoint ref pod binding) w.
Proof.
  intros Hown Hin Helig Hport Hw. unfold candidate. destruct (en_TargetRef endpoint) as [ref|] eqn:Eref; [|by wp_step].
  destruct (_ || _ || _ || _) eqn:Eg1; [by wp_step|]. rewrite !orb_false_iff in Eg1. destruct Eg1 as [[[_ _] Huid] _].
  wp_step. wp_step. apply (wp_asked I); [apply (keeps_pod _ kept)|done|]. intros got w1 Hw1 Hget. destruct got as [pod|e]; [|destruct (IsNotFound e); by wp_step].
  destruct (negb (String.eqb (UID (pod_Meta pod)) (ref_UID ref)) || _ || _) eqn:Eg2; [by wp_step|].
  rewrite !orb_false_iff, !negb_false_iff, !String.eqb_eq in Eg2. destruct Eg2 as [[Hpu Hph] Hdel].
  destruct (en_Addresses endpoint) as [|address [|? ?]] eqn:Eaddr; [by wp_step| |by wp_step].
  destruct (ParseAddr address) as [app|] eqn:Eapp; [|by wp_step].
  destruct (negb (Addr_Is4 app) || _ || _) eqn:Eg3; [by wp_step|].
  rewrite !orb_false_iff, !negb_false_iff, !String.eqb_eq in Eg3. destruct Eg3 as [_ Hip].
  destruct (List.filter (binding_of_pod gateway pod) bindings) as [|binding [|? ?]] eqn:Eb; [by wp_step| |by wp_step].
  destruct (ParsePrefix _) as [[over bits]|] eqn:Epfx; [|by wp_step]. cbn [Prefix_Addr].
  destruct (Addr_Is4 over) eqn:E4; cbn [negb]; wp_step; [|done]. split; [done|]. intros c eligible [= <- <-]. exists ref, pod, binding.
  assert (ref_UID ref <> "") as Hne by (intros E; by rewrite E in Huid).
  split; cbn; try done; eauto 10. split_and!; congruence.
Qed.

Notation all_exact lease gateway service slices bindings acc :=
  (map_Forall (fun uid c => cd_PodUID c = uid /\ exact_candidate lease gateway service slices bindings true c) acc.1 /\
   map_Forall (fun uid c => cd_PodUID c = uid /\ exact_candidate lease gateway service slices bindings false c) acc.2).

Lemma add_candidate_all (P : Candidate -> Prop) c m :
  map_Forall (fun uid c => cd_PodUID c = uid /\ P c) m -> P c -> map_Forall (fun uid c => cd_PodUID c = uid /\ P c) (add_candidate c m).
Proof.
  intros Hm Hc. unfold add_candidate. destruct (m !! cd_PodUID c); [case_match; [|done]|]; by apply map_Forall_insert_2.
Qed.

Lemma resolve_endpoints_exact lease gateway service slices slice targetPort bindings endpoints acc w :
  slice ∈ slices -> ownedByService slice service = true -> 1 <= targetPort <= 65535 -> endpoints ⊆ es_Endpoints slice ->
  all_exact lease gateway service slices bindings acc -> I w ->
  wp (resolve_endpoints lease gateway service slice targetPort bindings endpoints acc) (fun r w' => I w' /\ forall acc',
    r = Ok acc' -> all_exact lease gateway service slices bindings acc') w.
Proof.
  intros Hs Hown Hport. revert acc w. induction endpoints as [|endpoint endpoints IH]; intros acc w Hsub Hacc Hw; cbn [resolve_endpoints].
  { wp_step. split; [done|]. by intros ? [= <-]. }
  assert (endpoint ∈ es_Endpoints slice /\ endpoints ⊆ es_Endpoints slice) as [Hin Hrest] by set_solver. wp_step.
  destruct (eligibleEndpoint endpoint) eqn:Helig; [|wp_step; by apply IH].
  wp_step. wp_with candidate_exact; [done..|]. intros [c|e] w1 [Hw1 Hc]; cbn [after]; [|done]. wp_step.
  destruct c as [[c [|]]|]; [..|by apply IH];
    (destruct (Hc c _ eq_refl) as (ref & pod & binding & Htrail);
     assert (exact_candidate lease gateway service slices bindings (binding_eligible binding) c) as Hexact
       by (exists slice, endpoint, ref, pod, binding; destruct Htrail; by subst);
     rewrite (trail_eligible _ _ _ _ _ _ _ _ _ _ _ Htrail) in Hexact; destruct Hacc; apply IH; [done| |done]; cbn [fst snd];
     split; [done || by apply add_candidate_all..]).
Qed.

Lemma resolve_slices_exact lease gateway service servicePorts bindings all slices acc w :
  slices ⊆ all -> all_exact lease gateway service all bindings acc -> I w ->
  wp (resolve_slices lease gateway service servicePorts bindings slices acc) (fun r w' => I w' /\ forall acc',
    r = Ok acc' -> all_exact lease gateway service all bindings acc') w.
Proof.
  revert acc w. induction slices as [|slice slices IH]; intros acc w Hsub Hacc Hw; cbn [resolve_slices].
  { wp_step. split; [done|]. by intros ? [= <-]. }
  assert (slice ∈ all /\ slices ⊆ all) as [Hin Hrest] by set_solver. wp_step.
  destruct (ownedByService slice service) eqn:Hown; cbn [negb orb]; [|wp_step; by apply IH].
  destruct (negb _); [wp_step; by apply IH|].
  destruct (targetPortForSlice slice servicePorts) as [targetPort|] eqn:Eport; [|wp_step; by apply IH].
  wp_with (resolve_endpoints_exact lease gateway service all); [done|done|by eapply targetPort_range|done|done|done|].
  intros [acc'|e] w1 [Hw1 Hacc']; cbn [after]; [|done]. apply IH; [done| |done]. by apply Hacc'.
Qed.

Lemma listed_candidates (P : Candidate -> Prop) (m : gmap string Candidate) :
  map_Forall (fun uid c => cd_PodUID c = uid /\ P c) m ->
  let l := sortCandidates (map snd (map_to_list m)) in
  Forall P l /\ NoDup (map cd_PodUID l) /\ StronglySorted candidate_le l.
Proof.
  intros Hm. cbv zeta. unfold sortCandidates. split_and!; [| |apply StronglySorted_merge_sort; apply _].
  - rewrite merge_sort_Permutation. apply Forall_forall. intros c Hc.
    apply list_elem_of_fmap in Hc as ([uid c'] & -> & Hin%elem_of_map_to_list). by apply (Hm uid c').
  - rewrite merge_sort_Permutation, map_map.
    replace (map (fun x => cd_PodUID x.2) (map_to_list m)) with (map_to_list m).*1; [apply NoDup_fst_map_to_list|].
    apply list_fmap_ext. intros i [uid c] Hi. apply list_elem_of_lookup_2, elem_of_map_to_list in Hi.
    symmetry. by apply (Hm uid c).
Qed.

Ltac none := wp_step; split; [done|]; eexists; split; [done|]; intros ? [=].

(** A resolved backend is exact.  Every candidate comes from a ready
    endpoint of a slice the Service controls, whose Pod was read, is the one the
    endpoint names by UID, runs, is not being deleted and has the endpoint's
    address; the Pod has exactly one binding to this gateway at its current
    generation, whose allocated address is the overlay address; the candidates
    that count as eligible are exactly those whose binding is currently
    programmed, ready and observed by its node; and both lists have one
    candidate per Pod, in order. *)
Lemma Resolve_exact lease gateway w :
  I w ->
  wp (Resolve lease gateway) (fun r w' => I w' /\ exists outcome, r = Ok outcome /\ forall resolution, outcome = inr resolution ->
    exists service slices bindings, rn_Service resolution = service /\ UID (sv_Meta service) <> "" /\
      backend_read lease service slices bindings /\
      let exact eligible l := Forall (exact_candidate lease gateway service slices bindings eligible) l /\
        NoDup (map cd_PodUID l) /\ StronglySorted candidate_le l in
      exact true (rn_Candidates resolution) /\ exact false (rn_UnavailableCandidates resolution)) w.
Proof.
  intros Hw. unfold Resolve. destruct (_ || _); [none|]. wp_step. wp_step. apply (wp_asked I); [apply (keeps_service _ kept)|done|].
  intros got w1 Hw1 Hget. destruct got as [service|e]; [|none].
  destruct (String.eqb (sv_Type service) _ || str_empty (UID (sv_Meta service))) eqn:Eg; [none|].
  apply orb_false_iff in Eg as [_ Huid].
  destruct (matchingServicePorts _ _) as [err|servicePorts]; [none|].
  wp_step. wp_step. apply (wp_asked I); [apply (keeps_slices _ kept)|done|]. intros listed w2 Hw2 Hslices. destruct listed as [slices|e]; [|none].
  wp_step. wp_step. apply (wp_asked I); [apply (keeps_bindings _ kept)|done|]. intros listed w3 Hw3 Hbindings. destruct listed as [bindings|e]; [|none].
  wp_step. wp_step. wp_with (resolve_slices_exact lease gateway service servicePorts bindings slices);
    [done|split; apply map_Forall_empty|done|].
  intros [[byPod unavailableByPod]|e] w4 [Hw4 Hfound]; cbn [after]; [|none].
  destruct (Hfound _ eq_refl) as [Hby Hun]. wp_step. split; [done|]. eexists. split; [done|]. intros resolution [= <-]. exists service, slices, bindings. cbn.
  split; [done|]. split; [intros E; by rewrite E in Huid|]. split; [split_and!; eauto|]. split; by apply listed_candidates.
Qed.

End Exact.
