(* ===== verification/LeaseController.v ===== *)
(** * The port-forward lease controller (internal/portforward/controller.go)

    The reconciler resolves a lease's gateway and backend, moves its single
    active endpoint through a handoff with the gateway runtime, publishes seven
    conditions, and cleans up before a deleted lease goes away.  The gateway
    authorizer and the runtime are interfaces of the controller and come in as
    arguments; the resolver and the port allocator are those of PortResolver
    and PortAllocation. *)

From S2P Require Import Prelude Netip Api Conditions Kube Reference PortRuntime PortAllocation PortResolver.

Definition LeaseBackendIndex : string := "networking.waycloak.io/lease-backend-service".
Definition LeaseBackendIndexValues (lease : PortForwardLease) : list string := [sb_Name (pl_BackendRef (pl_Spec lease))].

Definition DefaultCleanupTimeout : duration := 10 * Minute.
Definition adapterUnavailableMessage : string := "Application adapter reference is unavailable".
Definition backendUnavailableMessage : string := "Backend binding observation is unavailable".

Definition leaseConditionOrder : list string :=
  [ConditionAccepted; ConditionResolvedRefs; ConditionProgrammed; ConditionReady; ConditionGatewayRulesReady;
   ConditionDelivered; ConditionAcknowledged].

Record PortForwardLeaseReconciler := mkPortForwardLeaseReconciler {
  lr_ObservationFreshness : duration;
  lr_CleanupTimeout : duration
}.

Definition observationFreshness (r : PortForwardLeaseReconciler) : duration :=
  if 0 <? lr_ObservationFreshness r then lr_ObservationFreshness r else DefaultObservationFreshness.
Definition cleanupTimeout (r : PortForwardLeaseReconciler) : duration :=
  if 0 <? lr_CleanupTimeout r then lr_CleanupTimeout r else DefaultCleanupTimeout.

(** What [evaluate] finds out; [le_selected] is [selected] with [hasSelected]. *)
Record leaseEvaluation := mkLeaseEvaluation {
  le_states : gmap string State;
  le_gateway : option VPNGateway;
  le_selected : option Candidate;
  le_runtimeEligible : bool;
  le_gatewayReady : bool;
  le_adapterRequired : bool;
  le_adapterReady : bool;
  le_backendSuspended : bool;
  le_providerAssignedApplicationPort : bool
}.

(** ** States *)

Definition pendingLeaseStates (noAdapter : bool) : gmap string State :=
  let acknowledgement := False_ ReasonAcknowledgementPending
    (if noAdapter then "Current neutral delivery is pending" else "Application acknowledgement is pending") in
  <[ConditionAccepted := False_ ReasonInvalid "Lease intent is not accepted"]>
  (<[ConditionResolvedRefs := False_ ReasonRefNotFound "Lease references are unresolved"]>
  (<[ConditionProgrammed := False_ ReasonPending "Provider mapping and gateway rules are pending"]>
  (<[ConditionReady := False_ ReasonNotReady "SingleActive inbound path is not ready"]>
  (<[ConditionGatewayRulesReady := False_ ReasonGatewayRulesPending "Exact gateway rules are pending"]>
  (<[ConditionDelivered := False_ ReasonDeliveryPending "Current lease generation delivery is pending"]>
  (<[ConditionAcknowledged := acknowledgement]> ∅)))))).

Definition set_unknown (types : list string) (message : string) (states : gmap string State) : gmap string State :=
  fold_left (fun m t => <[t := Unknown message]> m) types states.

Definition unknownLeaseStates (message : string) : gmap string State -> gmap string State :=
  set_unknown leaseConditionOrder message.

Definition unknownRuntimeStates : gmap string State -> gmap string State :=
  set_unknown [ConditionProgrammed; ConditionReady; ConditionGatewayRulesReady; ConditionDelivered; ConditionAcknowledged]
    "Gateway runtime observation is unavailable".

Definition accepted_true : State := True_ ReasonAccepted "Lease intent is accepted".
Definition gateway_resolved : State := True_ ReasonResolvedRefs "Gateway reference is resolved".
Definition endpoint_resolved : State := True_ ReasonResolvedRefs "Gateway and exact Service endpoint are resolved".

Definition hasGatewayFeature (gateway : VPNGateway) (feature : string) : bool :=
  contains_string (gw_SupportedFeatures (gw_Status gateway)) feature.

(** ** The endpoint *)

Definition Candidate_zero : Candidate := mkCandidate "" "" "" "" "" "" AddrZero AddrZero 0.

Definition endpointFor (candidate : Candidate) (phase : EndpointHandoffPhase) : ActiveLeaseEndpoint :=
  mkActiveLeaseEndpoint (cd_ServiceUID candidate) (cd_EndpointSliceUID candidate) (cd_PodUID candidate) phase.

Definition with_phase (phase : EndpointHandoffPhase) (e : ActiveLeaseEndpoint) : ActiveLeaseEndpoint :=
  mkActiveLeaseEndpoint (ae_ServiceUID e) (ae_EndpointSliceUID e) (ae_PodUID e) phase.

(** The selected candidate is the current endpoint's. *)
Definition same_target (current : ActiveLeaseEndpoint) (candidate : Candidate) : bool :=
  String.eqb (ae_ServiceUID current) (cd_ServiceUID candidate) && String.eqb (ae_PodUID current) (cd_PodUID candidate).

Inductive drain_reason :=
| gateway_not_ready | already_draining | backend_observation_unavailable | adapter_not_ready
| backend_not_selected | service_uid_changed | pod_uid_changed.

#[global] Instance drain_reason_eq_dec : EqDecision drain_reason.
Proof. solve_decision. Defined.

Definition handoffDrainReason (current : ActiveLeaseEndpoint) (e : leaseEvaluation) : option drain_reason :=
  if negb (le_gatewayReady e) then Some gateway_not_ready
  else if bool_decide (ae_Phase current = EndpointPhaseDraining) then Some already_draining
  else if le_backendSuspended e then Some backend_observation_unavailable
  else if bool_decide (is_Some (le_selected e)) && le_adapterRequired e && negb (le_adapterReady e) then Some adapter_not_ready
  else match le_selected e with
       | None => Some backend_not_selected
       | Some s =>
           if negb (String.eqb (ae_ServiceUID current) (cd_ServiceUID s)) then Some service_uid_changed
           else if negb (String.eqb (ae_PodUID current) (cd_PodUID s)) then Some pod_uid_changed
           else None
       end.

(** The first ResolvedRefs condition of the lease is the suspension's. *)
Definition suspended_with (message : string) (lease : PortForwardLease) : bool :=
  match List.find (fun c => String.eqb (c_Type c) ConditionResolvedRefs) (pls_Conditions (pl_Status lease)) with
  | Some c => bool_decide (c_Status c = ConditionFalse) && String.eqb (c_Reason c) ReasonRefNotFound &&
              String.eqb (c_Message c) message
  | None => false
  end.

Definition suspension_in_progress (message : string) (lease : PortForwardLease) (e : leaseEvaluation) : bool :=
  match pls_ActiveEndpoint (pl_Status lease), le_selected e with
  | Some current, Some s =>
      bool_decide (ae_Phase current = EndpointPhaseDraining) && le_gatewayReady e && same_target current s &&
      suspended_with message lease
  | _, _ => false
  end.

Definition adapterSuspensionInProgress (lease : PortForwardLease) (e : leaseEvaluation) : bool :=
  le_adapterRequired e && suspension_in_progress adapterUnavailableMessage lease e.
Definition backendSuspensionInProgress (lease : PortForwardLease) (e : leaseEvaluation) : bool :=
  suspension_in_progress backendUnavailableMessage lease e.

Definition preserve_identity (reason : drain_reason) (lease : PortForwardLease) (e : leaseEvaluation) : bool :=
  bool_decide (reason = adapter_not_ready) || bool_decide (reason = backend_observation_unavailable) ||
  (bool_decide (reason = already_draining) && (adapterSuspensionInProgress lease e || backendSuspensionInProgress lease e)).

Definition applicationEndpointRetired (current : ActiveLeaseEndpoint) (e : leaseEvaluation) : bool :=
  match le_selected e with Some s => negb (String.eqb (cd_PodUID s) (ae_PodUID current)) | None => false end.

(** ** The runtime's observation *)

Definition fresh_observation (r : PortForwardLeaseReconciler) (observation : Observation) (now : time) : bool :=
  negb (time_Before (ob_ObservedAt observation) (now - observationFreshness r)) &&
  negb (time_After (ob_ObservedAt observation) (now + Minute)).

Definition currentObservation (r : PortForwardLeaseReconciler) (observation : Observation) (intent : Intent) (now : time) : bool :=
  ExactObservation observation intent && fresh_observation r observation now.
Definition currentWithdrawal (r : PortForwardLeaseReconciler) (observation : Observation) (intent : WithdrawalIntent)
    (now : time) : bool :=
  ExactWithdrawal observation intent && fresh_observation r observation now.

(** The mapping of an observation that is usable. *)
Definition provider_ready (observation : Observation) (now : time) : option ProviderObservation :=
  match ob_Provider observation with
  | Some p => if Addr_IsValid (po_PublicAddress p) && Addr_IsGlobalUnicast (po_PublicAddress p) &&
                 negb (po_PublicPort p =? 0) && time_After (po_ExpiresAt p) now
              then Some p else None
  | None => None
  end.

(** [applyObservation] on the provider status, the endpoint and the states. *)
Definition applyObservation (lease : PortForwardLease) (endpoint : ActiveLeaseEndpoint) (states : gmap string State)
    (observation : Observation) (now : time) : option ProviderMappingStatus * ActiveLeaseEndpoint * gmap string State :=
  match provider_ready observation now with
  | None => (None, endpoint, states)
  | Some p =>
      let rules := ob_GatewayRulesReady observation in
      let delivered := ob_Delivered observation && rules in
      let acknowledged := bool_decide (pl_ApplicationAdapterRef (pl_Spec lease) = None) || ob_Acknowledged observation in
      let states := if rules then
          <[ConditionProgrammed := True_ ReasonProgrammed "Provider mapping and exact gateway rules are programmed"]>
          (<[ConditionGatewayRulesReady := True_ ReasonGatewayRulesReady "Exact gateway ingress and return-path rules are observed"]> states)
        else states in
      let states := if delivered then
          <[ConditionDelivered := True_ ReasonDelivered "Current lease generation is delivered"]> states else states in
      let states := if acknowledged && delivered then
          <[ConditionAcknowledged := True_ ReasonAcknowledged "Current application generation is acknowledged"]> states else states in
      let states := if delivered && acknowledged then
          <[ConditionReady := True_ ReasonReady "SingleActive inbound path is ready"]> states else states in
      (Some (mkProviderMappingStatus (Addr_String (po_PublicAddress p)) (po_PublicPort p) (po_ExpiresAt p)),
       if rules then with_phase EndpointPhaseActive endpoint else endpoint, states)
  end.

(** ** The reconciler *)

Section LeaseController.
Context `{ApiMeta} {W : Type} `{Clock W}.
Context `{Getter W PortForwardLease} `{Patcher W PortForwardLease} `{StatusUpdater W PortForwardLease PortForwardLeaseStatus}.
Context `{Getter W VPNGateway} `{Getter W WorkloadAdapter}.
Context `{Getter W Service} `{Lister W EndpointSlice} `{Lister W VPNWorkloadBinding} `{Getter W Pod}.
Context `{Getter W PortReservation} `{Lister W PortReservation} `{Creator W PortReservation}.
Context `{Patcher W PortReservation} `{Deleter W PortReservation}.
Context (r : PortForwardLeaseReconciler).
Context (authorizer : string -> NamespacedObjectReference -> IO W GatewayResolution).
Context (runtime : option (Runtime W)).

Definition gateway_current (gateway : VPNGateway) (t : string) : bool :=
  CurrentTrue (gw_Conditions (gw_Status gateway)) t (gw_ObservedGeneration (gw_Status gateway)) (Generation (gw_Meta gateway)).
Definition gatewayAccepted (gateway : VPNGateway) : bool := gateway_current gateway ConditionAccepted.
Definition gatewayReady (gateway : VPNGateway) : bool := gateway_current gateway ConditionReady.

(** *** evaluate *)

Definition initial_evaluation (lease : PortForwardLease) : leaseEvaluation :=
  let noAdapter := bool_decide (pl_ApplicationAdapterRef (pl_Spec lease) = None) in
  mkLeaseEvaluation (pendingLeaseStates noAdapter) None None false false (negb noAdapter) noAdapter false false.

Definition with_states (f : gmap string State -> gmap string State) (e : leaseEvaluation) : leaseEvaluation :=
  mkLeaseEvaluation (f (le_states e)) (le_gateway e) (le_selected e) (le_runtimeEligible e) (le_gatewayReady e)
    (le_adapterRequired e) (le_adapterReady e) (le_backendSuspended e) (le_providerAssignedApplicationPort e).

Definition with_gateway (gateway : VPNGateway) (eligible ready : bool) (e : leaseEvaluation) : leaseEvaluation :=
  mkLeaseEvaluation (le_states e) (Some gateway) (le_selected e) eligible ready
    (le_adapterRequired e) (le_adapterReady e) (le_backendSuspended e) (le_providerAssignedApplicationPort e).

Definition with_selected (candidate : Candidate) (suspended : bool) (e : leaseEvaluation) : leaseEvaluation :=
  mkLeaseEvaluation (le_states e) (le_gateway e) (Some candidate) (le_runtimeEligible e) (le_gatewayReady e)
    (le_adapterRequired e) (le_adapterReady e) suspended (le_providerAssignedApplicationPort e).

Definition with_adapter (assigned : bool) (e : leaseEvaluation) : leaseEvaluation :=
  mkLeaseEvaluation (le_states e) (le_gateway e) (le_selected e) (le_runtimeEligible e) (le_gatewayReady e)
    (le_adapterRequired e) true (le_backendSuspended e) assigned.

Definition adapter_ready (adapter : WorkloadAdapter) : bool :=
  CurrentTrue (ad_Conditions (ad_Status adapter)) ConditionReady (ad_ObservedGeneration (ad_Status adapter))
    (Generation (ad_Meta adapter)).

(** The adapter of the lease, once a candidate is selected. *)
Definition evaluate_adapter (lease : PortForwardLease) (gateway : VPNGateway) (e : leaseEvaluation) : IO W leaseEvaluation :=
  match pl_ApplicationAdapterRef (pl_Spec lease) with
  | None => mret (with_states <[ConditionResolvedRefs := endpoint_resolved]> e)
  | Some name =>
      if negb (hasGatewayFeature gateway FeatureWorkloadAdapter) then
        mret (with_states <[ConditionAccepted := False_ ReasonUnsupportedFeature "Gateway does not advertise workload adapters"]> e)
      else
        got ← io_try (k8s_Get (T := WorkloadAdapter) (mkObjectKey (Namespace (pl_Meta lease)) name));
        match got with
        | Ok adapter =>
            if adapter_ready adapter then
              mret (with_states <[ConditionResolvedRefs := endpoint_resolved]>
                (with_adapter (contains_string (ad_SupportedFeatures (ad_Spec adapter)) ProviderAssignedApplicationPortFeature) e))
            else mret (with_states <[ConditionResolvedRefs := False_ ReasonRefNotFound adapterUnavailableMessage]> e)
        | Fail _ => mret (with_states <[ConditionResolvedRefs := False_ ReasonRefNotFound adapterUnavailableMessage]> e)
        end
  end.

(** The backend of a lease whose intent is accepted. *)
Definition evaluate_backend (lease : PortForwardLease) (gateway : VPNGateway) (e : leaseEvaluation) : IO W leaseEvaluation :=
  let current := pls_ActiveEndpoint (pl_Status lease) in
  backend ← Resolve lease gateway;
  match backend with
  | inl err =>
      if bool_decide (re_Kind err = ResolutionUnavailable) then
        mret (with_states (fun m => <[ConditionAccepted := accepted_true]> (unknownLeaseStates "Backend observation is unavailable" m)) e)
      else mret (with_states <[ConditionResolvedRefs := False_ ReasonRefNotFound "Backend Service or endpoint is unresolved"]> e)
  | inr backend =>
      match Select (rn_Candidates backend) current with
      | Some selected => evaluate_adapter lease gateway (with_selected selected false e)
      | None =>
          let none_eligible :=
            with_states <[ConditionResolvedRefs := False_ ReasonRefNotFound "No eligible SingleActive Service endpoint is available"]> e in
          match Select (rn_UnavailableCandidates backend) current, current with
          | Some suspended, Some c =>
              if String.eqb (cd_ServiceUID suspended) (ae_ServiceUID c) && String.eqb (cd_PodUID suspended) (ae_PodUID c) then
                mret (with_states <[ConditionResolvedRefs := False_ ReasonRefNotFound backendUnavailableMessage]>
                        (with_selected suspended true e))
              else mret none_eligible
          | _, _ => mret none_eligible
          end
      end
  end.

Definition evaluate (lease : PortForwardLease) : IO W leaseEvaluation :=
  let e := initial_evaluation lease in
  let active := bool_decide (is_Some (pls_ActiveEndpoint (pl_Status lease))) in
  resolution ← io_try (authorizer (Namespace (pl_Meta lease)) (pl_GatewayRef (pl_Spec lease)));
  match resolution with
  | Fail _ => mret (with_states (unknownLeaseStates "Gateway reference observation is unavailable") e)
  | Ok resolution =>
      if negb (Permitted resolution) then
        mret (with_states <[ConditionResolvedRefs := False_ ReasonRefNotPermitted "Gateway reference is not permitted"]> e)
      else
        match Gateway resolution with
        | None => mret (with_states <[ConditionResolvedRefs := False_ ReasonRefNotFound "Gateway reference was not found"]> e)
        | Some gateway =>
            let rejected reason message :=
              mret (with_states (fun m => <[ConditionResolvedRefs := gateway_resolved]> (<[ConditionAccepted := False_ reason message]> m))
                      (with_gateway gateway active false e)) in
            if negb (gatewayAccepted gateway) then rejected ReasonUnsupportedClass "Gateway is not accepted"
            else if negb (hasGatewayFeature gateway FeaturePortForwardSingleActive) then
              rejected ReasonUnsupportedFeature "Gateway does not advertise SingleActive port forwarding"
            else
              let ready := gatewayReady gateway in
              evaluate_backend lease gateway
                (with_gateway gateway (active || ready) ready (with_states <[ConditionAccepted := accepted_true]> e))
        end
  end.

(** *** runtimeStatus *)

(** The status written for the current generation, and when to come back. *)
Definition lease_status (lease : PortForwardLease) (handoff : Z) (endpoint : option ActiveLeaseEndpoint)
    (provider : option ProviderMappingStatus) (states : gmap string State) (now : time) : PortForwardLeaseStatus :=
  mkPortForwardLeaseStatus (Generation (pl_Meta lease)) endpoint provider handoff
    (Build (pls_Conditions (pl_Status lease)) (Generation (pl_Meta lease)) now leaseConditionOrder states).

Definition finish (lease : PortForwardLease) (handoff : Z) (endpoint : option ActiveLeaseEndpoint)
    (states : gmap string State) (again : duration) : IO W (PortForwardLeaseStatus * duration) :=
  now ← read_clock;
  mret (lease_status lease handoff endpoint None states now, again).

Notation freshness := (observationFreshness r).

Definition drain_states (lease : PortForwardLease) (e : leaseEvaluation) : gmap string State :=
  let keep t m := match le_states e !! t with Some s => <[t := s]> m | None => m end in
  keep ConditionResolvedRefs (keep ConditionAccepted
    (pendingLeaseStates (bool_decide (pl_ApplicationAdapterRef (pl_Spec lease) = None)))).

Definition drainStatus (R : Runtime W) (lease : PortForwardLease) (gateway : VPNGateway) (current : ActiveLeaseEndpoint)
    (e : leaseEvaluation) (preserveIdentity : bool) : IO W (PortForwardLeaseStatus * duration) :=
  let states := drain_states lease e in
  let generation := pls_HandoffGeneration (pl_Status lease) in
  let draining := Some (with_phase EndpointPhaseDraining current) in
  let withdrawal := wi_with_retired (applicationEndpointRetired current e) (WithdrawalFor lease (gw_Meta gateway)) in
  reserved ← io_try (Reserve (pl_Meta lease) (gw_Meta gateway));
  match reserved with
  | Fail _ => finish lease generation draining (unknownRuntimeStates states) (freshness / 2)
  | Ok providerPort =>
      let withdrawal := wi_with_port providerPort withdrawal in
      observed ← io_try (rt_Withdraw (gw_Meta gateway) withdrawal);
      now ← read_clock;
      if match observed with Ok o => negb (currentWithdrawal r o withdrawal now) | Fail _ => true end
      then finish lease generation draining (unknownRuntimeStates states) (freshness / 2)
      else if preserveIdentity
      then finish lease generation (Some (with_phase EndpointPhaseSelecting current)) states (freshness / 2)
      else
        match le_selected e, le_gatewayReady e with
        | Some selected, true =>
            finish lease (generation + 1) (Some (endpointFor selected EndpointPhaseSelecting)) states Millisecond
        | _, _ => finish lease generation None states Millisecond
        end
  end.

(** The runtime is asked for the endpoint that the status already names. *)
Definition programStatus (R : Runtime W) (lease : PortForwardLease) (gateway : VPNGateway) (current : ActiveLeaseEndpoint)
    (selected : Candidate) (e : leaseEvaluation) : IO W (PortForwardLeaseStatus * duration) :=
  let states := le_states e in
  let generation := pls_HandoffGeneration (pl_Status lease) in
  let endpoint := endpointFor selected
    (if bool_decide (ae_Phase current = EndpointPhaseActive) then EndpointPhaseActive else EndpointPhaseSelecting) in
  let intent := IntentFor lease (gw_Meta gateway) selected generation in
  let intent := if le_providerAssignedApplicationPort e then with_mode ApplicationPortProviderAssigned intent else intent in
  reserved ← io_try (Reserve (pl_Meta lease) (gw_Meta gateway));
  match reserved with
  | Fail _ => finish lease generation (Some endpoint) (unknownRuntimeStates states) freshness
  | Ok providerPort =>
      let intent := with_provider_port providerPort intent in
      observed ← io_try (rt_Reconcile (gw_Meta gateway) intent);
      now ← read_clock;
      match observed with
      | Fail _ => finish lease generation (Some endpoint) (unknownRuntimeStates states) freshness
      | Ok observation =>
          if negb (currentObservation r observation intent now)
          then finish lease generation (Some endpoint) (unknownRuntimeStates states) freshness
          else
            let '(provider, endpoint, states) := applyObservation lease endpoint states observation now in
            mret (lease_status lease generation (Some endpoint) provider states now, freshness / 2)
      end
  end.

Definition runtimeStatus (lease : PortForwardLease) (e : leaseEvaluation) : IO W (PortForwardLeaseStatus * duration) :=
  let generation := pls_HandoffGeneration (pl_Status lease) in
  let current := pls_ActiveEndpoint (pl_Status lease) in
  match le_runtimeEligible e, runtime, le_gateway e with
  | false, _, _ => finish lease generation current (le_states e) freshness
  | true, None, _ =>
      finish lease generation current
        (<[ConditionResolvedRefs := endpoint_resolved]> (<[ConditionAccepted := accepted_true]>
           (unknownLeaseStates "Gateway runtime observation is unavailable" (le_states e)))) freshness
  | true, Some _, None => io_panic
  | true, Some R, Some gateway =>
      match current, le_selected e with
      | None, None => finish lease generation None (le_states e) freshness
      | None, Some selected =>
          finish lease (generation + 1) (Some (endpointFor selected EndpointPhaseSelecting)) (le_states e) Millisecond
      | Some c, selected =>
          match handoffDrainReason c e with
          | Some reason => drainStatus R lease gateway c e (preserve_identity reason lease e)
          | None => programStatus R lease gateway c (default Candidate_zero selected) e
          end
      end
  end.

(** *** cleanup and Reconcile *)

Definition with_lease_finalizers (finalizers : list string) (lease : PortForwardLease) : PortForwardLease :=
  let m := pl_Meta lease in
  mkPortForwardLease (mkObjectMeta (Namespace m) (Name m) (UID m) (Generation m) (DeletionTimestamp m) (Labels m)
    (Annotations m) finalizers (OwnerReferences m)) (pl_Spec lease) (pl_Status lease).

Definition removeString (values : list string) (unwanted : string) : list string :=
  List.filter (fun v => negb (String.eqb v unwanted)) values.

(** The gateway of a deleted lease: the one that is read, or what the
    reservation remembers of it. *)
Definition cleanup_gateway (lease : PortForwardLease) (read : res VPNGateway) (reservation : res ProviderReservationIdentity) :
    option ObjectMeta :=
  match read, reservation with
  | Ok gateway, _ => Some (gw_Meta gateway)
  | Fail _, Ok reserved =>
      Some (mkObjectMeta (ri_GatewayNamespace reserved) (nor_Name (pl_GatewayRef (pl_Spec lease))) (ri_GatewayUID reserved)
              0 None ∅ ∅ [] [])
  | Fail _, Fail _ => None
  end.

Definition nothing_acquired (lease : PortForwardLease) (reservation : res ProviderReservationIdentity) : bool :=
  match reservation with
  | Fail e => errors_is e "provider port reservation was not found" &&
              bool_decide (pls_ActiveEndpoint (pl_Status lease) = None) && bool_decide (pls_Provider (pl_Status lease) = None)
  | Ok _ => false
  end.

(** Whether the runtime confirms the release of the lease. *)
Definition release_confirmed (lease : PortForwardLease) (gateway : option ObjectMeta)
    (reservation : res ProviderReservationIdentity) : IO W bool :=
  match gateway, runtime, reservation with
  | Some gateway, Some R, Ok reserved =>
      if str_empty (UID gateway) then mret (nothing_acquired lease reservation)
      else
        let intent := wi_with_port (ri_Port reserved) (wi_with_release (WithdrawalFor lease gateway)) in
        observed ← io_try (rt_Withdraw gateway intent);
        now ← read_clock;
        mret (match observed with Ok o => currentWithdrawal r o intent now | Fail _ => false end)
  | _, _, _ => mret (nothing_acquired lease reservation)
  end.

Definition cleanup (lease : PortForwardLease) (deletedAt : time) : IO W Result :=
  if negb (contains_string (Finalizers (pl_Meta lease)) ProviderCleanupFinalizer) then mret NoRequeue
  else
    let ref := pl_GatewayRef (pl_Spec lease) in
    read ← io_try (k8s_Get (T := VPNGateway) (mkObjectKey (nor_Namespace ref) (nor_Name ref)));
    reservation ← io_try (Recover (pl_Meta lease) (nor_Namespace ref));
    let gateway := cleanup_gateway lease read reservation in
    withdrawn ← release_confirmed lease gateway reservation;
    now ← read_clock;
    let deadline := deletedAt + cleanupTimeout r in
    if negb withdrawn && time_Before now deadline
    then mret (mkResult (Z.min (time_Sub deadline now) (freshness / 2)))
    else
      let until := now + cleanupTimeout r in
      match gateway with
      | None => mret tt
      | Some gateway =>
          match runtime with
          | Some R => if negb withdrawn then rt_Quarantine gateway (wi_with_release (WithdrawalFor lease gateway)) until else mret tt
          | None => mret tt
          end ;;
          Quarantine (pl_Meta lease) gateway until
      end ;;
      io_wrap "remove provider cleanup finalizer"
        (k8s_Patch lease (with_lease_finalizers (removeString (Finalizers (pl_Meta lease)) ProviderCleanupFinalizer) lease)) ;;
      mret NoRequeue.

Definition applyStatus (lease : PortForwardLease) (status : PortForwardLeaseStatus) : IO W unit :=
  io_wrap "apply PortForwardLease status" (k8s_UpdateStatus lease status).

Definition needs_finalizer (lease : PortForwardLease) (e : leaseEvaluation) : bool :=
  le_runtimeEligible e && (bool_decide (is_Some (le_selected e)) || bool_decide (is_Some (pls_ActiveEndpoint (pl_Status lease)))) &&
  match runtime with Some _ => true | None => false end &&
  negb (contains_string (Finalizers (pl_Meta lease)) ProviderCleanupFinalizer).

Definition lease_Reconcile (request : ObjectKey) : IO W Result :=
  reconcile_object request (fun lease =>
    match DeletionTimestamp (pl_Meta lease) with
    | Some deletedAt => cleanup lease deletedAt
    | None =>
        e ← evaluate lease;
        if needs_finalizer lease e then
          io_wrap "install provider cleanup finalizer"
            (k8s_Patch lease (with_lease_finalizers (Finalizers (pl_Meta lease) ++ [ProviderCleanupFinalizer]) lease)) ;;
          mret (mkResult Nanosecond)
        else
          desired ← runtimeStatus lease e;
          (if decide (pl_Status lease = desired.1) then mret tt else applyStatus lease desired.1) ;;
          mret (mkResult desired.2)
    end).

(** *** Watches *)

Context `{Lister W PortForwardLease}.

Definition requestsForLeases (leases : list PortForwardLease) : list ObjectKey :=
  SortedUniqueRequests (map (fun lease => key_of (pl_Meta lease)) leases).

Definition leases_listed (option : ListOption) : IO W (list ObjectKey) :=
  leases ← io_try (k8s_List (T := PortForwardLease) option);
  mret (match leases with Ok leases => requestsForLeases leases | Fail _ => [] end).

Definition leasesForService (namespace name : string) : IO W (list ObjectKey) :=
  leases_listed (NamespaceMatchingFields namespace LeaseBackendIndex name).

Definition leasesForEndpointSlice (object : ObjectMeta) : IO W (list ObjectKey) :=
  let name := map_get (Labels object) LabelServiceName in
  if str_empty name then mret [] else leasesForService (Namespace object) name.

Definition leasesInObjectNamespace (object : ObjectMeta) : IO W (list ObjectKey) :=
  leases_listed (InNamespace (Namespace object)).

End LeaseController.

(** ** What an evaluation stands for *)

Section Evaluated.
Context `{ApiMeta} {W : Type} `{Clock W}.
Context `{Getter W PortForwardLease} `{Patcher W PortForwardLease} `{StatusUpdater W PortForwardLease PortForwardLeaseStatus}.
Context `{Getter W VPNGateway} `{Getter W WorkloadAdapter}.
Context `{Getter W Service} `{Lister W EndpointSlice} `{Lister W VPNWorkloadBinding} `{Getter W Pod}.
Context `{Getter W PortReservation} `{Lister W PortReservation} `{Creator W PortReservation}.
Context `{Patcher W PortReservation} `{Deleter W PortReservation}.
Context (authorizer : string -> NamespacedObjectReference -> IO W GatewayResolution).

(** What reading and reserving keep of the world, up to the call of the runtime. *)
Record lease_keeps (I : W -> Prop) : Prop := {
  lk_authorizer namespace ref : keeps I (authorizer namespace ref);
  lk_resolver : resolver_keeps I;
  lk_adapter key : keeps I (k8s_Get (T := WorkloadAdapter) key);
  lk_reserve lease gateway : keeps I (Reserve lease gateway)
}.
Context (I : W -> Prop).

(** The authorizer handed this gateway out for the lease. *)
Definition authorized (lease : PortForwardLease) (gateway : VPNGateway) : Prop :=
  answered I (authorizer (Namespace (pl_Meta lease)) (pl_GatewayRef (pl_Spec lease))) (Ok (mkGatewayResolution true (Some gateway))).

(** The candidate is an exact backend of the lease at this gateway. *)
Definition backend_candidate (lease : PortForwardLease) (gateway : VPNGateway) (eligible : bool) (c : Candidate) : Prop :=
  exists service slices bindings,
    backend_read I lease service slices bindings /\ exact_candidate I lease gateway service slices bindings eligible c.

Definition adapter_resolved (lease : PortForwardLease) : Prop :=
  match pl_ApplicationAdapterRef (pl_Spec lease) with
  | None => True
  | Some name => exists adapter, adapter_ready adapter = true /\
      answered I (k8s_Get (T := WorkloadAdapter) (mkObjectKey (Namespace (pl_Meta lease)) name)) (Ok adapter)
  end.

Record evaluated (lease : PortForwardLease) (e : leaseEvaluation) : Prop := {
  ev_not_ready : state_true (le_states e) ConditionReady = false;
  ev_stable : stable_states (le_states e);
  ev_required : le_adapterRequired e = negb (bool_decide (pl_ApplicationAdapterRef (pl_Spec lease) = None));
  ev_gateway : le_runtimeEligible e = true -> exists gateway, le_gateway e = Some gateway /\ authorized lease gateway;
  ev_eligible : le_runtimeEligible e = le_gatewayReady e || (bool_decide (is_Some (le_gateway e)) && bool_decide (is_Some (pls_ActiveEndpoint (pl_Status lease))));
  ev_ready gateway : le_gatewayReady e = true -> le_gateway e = Some gateway ->
    gatewayAccepted gateway = true /\ hasGatewayFeature gateway FeaturePortForwardSingleActive = true /\ gatewayReady gateway = true;
  ev_selected c gateway : le_selected e = Some c -> le_gateway e = Some gateway ->
    backend_candidate lease gateway (negb (le_backendSuspended e)) c;
  ev_adapter : le_adapterReady e = true -> adapter_resolved lease
}.

Lemma set_unknown_stable types message states :
  Forall (fun t => t ∈ known_types) types -> stable_states states -> stable_states (set_unknown types message states).
Proof.
  intros Ht. revert states. induction Ht as [|t types Hk _ IH]; intros states Hs; [done|]. cbn. apply IH.
  apply stable_insert; [by apply stable_unknown|done].
Qed.

Lemma unknown_lease_stable message states : stable_states states -> stable_states (unknownLeaseStates message states).
Proof. apply set_unknown_stable. by apply (bool_decide_unpack _). Qed.
Lemma unknown_runtime_stable states : stable_states states -> stable_states (unknownRuntimeStates states).
Proof. apply set_unknown_stable. by apply (bool_decide_unpack _). Qed.

Lemma pending_lease_stable noAdapter : stable_states (pendingLeaseStates noAdapter).
Proof. unfold pendingLeaseStates. solve_stable. Qed.

(** Readiness is untouched by the other conditions and never unknown to be true. *)
Lemma state_true_insert_ne t t' s states : t <> t' -> state_true (<[t := s]> states) t' = state_true states t'.
Proof. intros Hne. unfold state_true. by rewrite lookup_insert_ne. Qed.

Lemma unknown_lease_not_ready message states : state_true (unknownLeaseStates message states) ConditionReady = false.
Proof.
  unfold unknownLeaseStates, set_unknown, leaseConditionOrder. cbn [fold_left].
  rewrite !state_true_insert_ne by done. unfold state_true. by rewrite lookup_insert_eq.
Qed.

Lemma unknown_runtime_not_ready states : state_true (unknownRuntimeStates states) ConditionReady = false.
Proof.
  unfold unknownRuntimeStates, set_unknown. cbn [fold_left].
  rewrite !state_true_insert_ne by done. unfold state_true. by rewrite lookup_insert_eq.
Qed.

Lemma pending_lease_not_ready noAdapter : state_true (pendingLeaseStates noAdapter) ConditionReady = false.
Proof. reflexivity. Qed.

Lemma initial_evaluated lease : evaluated lease (initial_evaluation lease).
Proof.
  unfold initial_evaluation. split; cbn; try done.
  - apply pending_lease_stable.
  - unfold adapter_resolved. case_bool_decide as E; [by rewrite E|done].
Qed.

Lemma evaluated_states lease e f :
  evaluated lease e -> state_true (f (le_states e)) ConditionReady = false -> stable_states (f (le_states e)) ->
  evaluated lease (with_states f e).
Proof. by intros [] Hr Hs. Qed.

(** One condition other than Ready. *)
Lemma evaluated_set lease e t s :
  evaluated lease e -> t <> ConditionReady -> stable_state t s = true -> evaluated lease (with_states <[t := s]> e).
Proof.
  intros He Hne Hs. apply evaluated_states; [done| |].
  - rewrite state_true_insert_ne by done. apply He.
  - apply stable_insert; [done|]. apply He.
Qed.

Lemma evaluated_gateway lease e gateway (ready : bool) :
  evaluated lease e -> authorized lease gateway -> le_selected e = None ->
  (ready = true -> gatewayAccepted gateway = true /\ hasGatewayFeature gateway FeaturePortForwardSingleActive = true /\
     gatewayReady gateway = true) ->
  evaluated lease (with_gateway gateway (bool_decide (is_Some (pls_ActiveEndpoint (pl_Status lease))) || ready) ready e).
Proof.
  intros [] Ha Hnone Hready. split; cbn; try done.
  - eauto.
  - by rewrite orb_comm.
  - intros g Hr [= <-]. auto.
  - intros c g Hc. congruence.
Qed.

Lemma evaluated_selected lease e gateway c (suspended : bool) :
  evaluated lease e -> le_gateway e = Some gateway -> backend_candidate lease gateway (negb suspended) c ->
  evaluated lease (with_selected c suspended e).
Proof. intros [] Hg Hc. split; cbn; try done. intros c' g [= <-] Hg'. congruence. Qed.

Hypothesis kept : lease_keeps I.

Ltac set_state := apply evaluated_set; [|done|reflexivity].

Lemma evaluate_adapter_spec lease gateway e w :
  evaluated lease e -> I w -> wp (evaluate_adapter lease gateway e) (fun r w' => I w' /\ exists e', r = Ok e' /\ evaluated lease e') w.
Proof.
  intros He Hw. unfold evaluate_adapter. destruct (pl_ApplicationAdapterRef (pl_Spec lease)) as [name|] eqn:En.
  2: { wp_step. split; [done|]. eexists. split; [done|]. by set_state. }
  destruct (negb _); [wp_step; split; [done|]; eexists; split; [done|]; by set_state|].
  wp_step. wp_step. apply (wp_asked I); [apply (lk_adapter _ kept)|done|]. intros got w1 Hw1 Hget.
  destruct got as [adapter|err]; [|wp_step; split; [done|]; eexists; split; [done|]; by set_state].
  destruct (adapter_ready adapter) eqn:Er; wp_step; (split; [done|]); eexists; (split; [done|]); set_state; [|done].
  destruct He. split; cbn; try done. intros _. unfold adapter_resolved. rewrite En. eauto.
Qed.

Lemma evaluate_backend_spec lease gateway e w :
  evaluated lease e -> le_gateway e = Some gateway -> I w ->
  wp (evaluate_backend lease gateway e) (fun r w' => I w' /\ exists e', r = Ok e' /\ evaluated lease e') w.
Proof.
  intros He Hg Hw. unfold evaluate_backend. wp_step. wp_with (Resolve_exact I); [apply kept|done|].
  intros ? w1 (Hw1 & [err|backend] & -> & Hexact); cbn [after].
  - destruct (bool_decide _); wp_step; (split; [done|]); eexists; (split; [done|]); [|by set_state].
    apply evaluated_states; [done| |].
    + rewrite state_true_insert_ne by done. apply unknown_lease_not_ready.
    + apply stable_insert; [reflexivity|]. apply unknown_lease_stable, He.
  - destruct (Hexact _ eq_refl) as (service & slices & bindings & <- & _ & Hread & (Hc & _) & (Hu & _)).
    assert (forall eligible c l, Forall (exact_candidate I lease gateway (rn_Service backend) slices bindings eligible) l ->
      Select l (pls_ActiveEndpoint (pl_Status lease)) = Some c -> backend_candidate lease gateway eligible c) as Hback.
    { intros eligible c l Hl Hsel. pose proof (Select_cases l (pls_ActiveEndpoint (pl_Status lease))) as Hcases.
      rewrite Hsel in Hcases. destruct Hcases as [Hin _]. rewrite Forall_forall in Hl. unfold backend_candidate. eauto 10. }
    destruct (Select (rn_Candidates backend) _) as [c|] eqn:Es.
    { apply evaluate_adapter_spec; [|done]. eapply evaluated_selected; [done|done|by eapply (Hback true)]. }
    assert (wp (mret (with_states <[ConditionResolvedRefs := False_ ReasonRefNotFound
      "No eligible SingleActive Service endpoint is available"]> e)) (fun r w' => I w' /\ exists e', r = Ok e' /\ evaluated lease e') w1) as Hnone.
    { wp_step. split; [done|]. eexists. split; [done|]. by set_state. }
    destruct (Select (rn_UnavailableCandidates backend) _) as [c|] eqn:Eu; [|exact Hnone].
    destruct (pls_ActiveEndpoint (pl_Status lease)) as [current|]; [|exact Hnone].
    destruct (_ && _); [|exact Hnone]. wp_step. split; [done|]. eexists. split; [done|]. set_state.
    eapply evaluated_selected; [done|done|by eapply (Hback false)].
Qed.

Lemma evaluate_spec lease w : I w -> wp (evaluate authorizer lease) (fun r w' => I w' /\ exists e, r = Ok e /\ evaluated lease e) w.
Proof.
  intros Hw. pose proof (initial_evaluated lease) as He. unfold evaluate. wp_step. wp_step. apply (wp_asked I); [apply (lk_authorizer _ kept)|done|].
  intros got w1 Hw1 Hauth.
  destruct got as [[permitted [gateway|]]|err]; cbn [Permitted Gateway negb].
  - destruct permitted; cbn [negb]; [|wp_step; split; [done|]; eexists; split; [done|]; by set_state].
    pose proof (Hauth : authorized lease gateway) as Ha.
    pose proof (evaluated_gateway lease _ gateway false He Ha eq_refl ltac:(done)) as Hg. rewrite orb_false_r in Hg.
    assert (forall reason message, stable_state ConditionAccepted (False_ reason message) = true ->
      wp (mret (with_states (fun m => <[ConditionResolvedRefs := gateway_resolved]> (<[ConditionAccepted := False_ reason message]> m))
        (with_gateway gateway (bool_decide (is_Some (pls_ActiveEndpoint (pl_Status lease)))) false (initial_evaluation lease))))
        (fun r w' => I w' /\ exists e, r = Ok e /\ evaluated lease e) w1) as Hrejected.
    { intros reason message Hst. wp_step. split; [done|]. eexists. split; [done|].
      apply (evaluated_states lease _ (fun m => <[_ := _]> (<[_ := _]> m))); [done| |].
      - rewrite !state_true_insert_ne by done. apply He.
      - apply stable_insert; [reflexivity|]. apply stable_insert; [done|]. apply He. }
    destruct (gatewayAccepted gateway) eqn:Eacc; cbn [negb]; [|by apply Hrejected].
    destruct (hasGatewayFeature gateway FeaturePortForwardSingleActive) eqn:Ef; cbn [negb]; [|by apply Hrejected].
    apply evaluate_backend_spec; [|done|done]. apply evaluated_gateway; [by set_state|done|done|done].
  - destruct permitted; cbn [negb]; wp_step; (split; [done|]); eexists; (split; [done|]); by set_state.
  - wp_step. split; [done|]. eexists. split; [done|]. apply evaluated_states; [done|apply unknown_lease_not_ready|].
    apply unknown_lease_stable, He.
Qed.

(** ** What the controller makes of an evaluation *)

Context (r : PortForwardLeaseReconciler) (runtime : option (Runtime W)).

(** The observation is of exactly this lease, gateway, generation and Pod, and of
    now. *)
Definition observed_exactly (observation : Observation) (lease : PortForwardLease) (gateway : VPNGateway) (podUID : string)
    (now : time) : Prop :=
  ob_LeaseUID observation = UID (pl_Meta lease) /\ ob_GatewayUID observation = UID (gw_Meta gateway) /\
  ob_HandoffGeneration observation = pls_HandoffGeneration (pl_Status lease) /\ ob_PodUID observation = podUID /\
  now - observationFreshness r <= ob_ObservedAt observation <= now + Minute.

(** A mapping that is usable at this time. *)
Definition usable (mapping : ProviderObservation) (now : time) : Prop :=
  Addr_IsGlobalUnicast (po_PublicAddress mapping) = true /\ po_PublicPort mapping <> 0 /\ now < po_ExpiresAt mapping.

(** The runtime confirmed, for an authorized gateway, that the lease's current
    generation and Pod are withdrawn. *)
Definition confirmed_withdrawal (lease : PortForwardLease) (w' : W) : Prop :=
  exists (R : Runtime W) gateway withdrawal observation w,
    runtime = Some R /\ authorized lease gateway /\
    I w /\ rt_Withdraw (gw_Meta gateway) withdrawal w = (Ok observation, w') /\
    wi_LeaseUID withdrawal = UID (pl_Meta lease) /\ ob_Withdrawn observation = true /\
    exists current, pls_ActiveEndpoint (pl_Status lease) = Some current /\
      observed_exactly observation lease gateway (ae_PodUID current) (clock_now w').

(** The gateway serves leases, and the candidate is one of its backends for this
    lease. *)
Record servable (lease : PortForwardLease) (gateway : VPNGateway) (eligible : bool) (c : Candidate) : Prop := {
  sb_authorized : authorized lease gateway;
  sb_accepted : gatewayAccepted gateway = true;
  sb_feature : hasGatewayFeature gateway FeaturePortForwardSingleActive = true;
  sb_ready : gatewayReady gateway = true;
  sb_backend : backend_candidate lease gateway eligible c
}.

(** What a Ready lease rests on: an answer of the runtime to the intent of the
    persisted generation and endpoint. *)
Definition lease_served (lease : PortForwardLease) (status : PortForwardLeaseStatus) (w' : W) : Prop :=
  exists (R : Runtime W) gateway selected current mode port observation mapping,
    let intent := with_provider_port port
      (with_mode mode (IntentFor lease (gw_Meta gateway) selected (pls_HandoffGeneration (pl_Status lease)))) in
    runtime = Some R /\ servable lease gateway true selected /\ adapter_resolved lease /\
    pls_ActiveEndpoint (pl_Status lease) = Some current /\ same_target current selected = true /\
    answered I (Reserve (pl_Meta lease) (gw_Meta gateway)) (Ok port) /\
    (exists w, I w /\ rt_Reconcile (gw_Meta gateway) intent w = (Ok observation, w')) /\
    observed_exactly observation lease gateway (cd_PodUID selected) (clock_now w') /\
    ob_Provider observation = Some mapping /\ usable mapping (clock_now w') /\ ob_GatewayRulesReady observation = true /\ ob_Delivered observation = true /\
    (pl_ApplicationAdapterRef (pl_Spec lease) <> None -> ob_Acknowledged observation = true) /\
    pls_HandoffGeneration status = pls_HandoffGeneration (pl_Status lease) /\
    pls_ActiveEndpoint status = Some (endpointFor selected EndpointPhaseActive) /\
    pls_Provider status =
      Some (mkProviderMappingStatus (Addr_String (po_PublicAddress mapping)) (po_PublicPort mapping) (po_ExpiresAt mapping)).

(** How a status may move the handoff. *)
Definition handoff_moves (lease : PortForwardLease) (status : PortForwardLeaseStatus) (w' : W) : Prop :=
  let generation := pls_HandoffGeneration (pl_Status lease) in
  let pod (s : PortForwardLeaseStatus) := ae_PodUID <$> pls_ActiveEndpoint s in
  (pls_HandoffGeneration status = generation \/
   (pls_HandoffGeneration status = generation + 1 /\
    exists gateway eligible selected, servable lease gateway eligible selected /\
      pls_ActiveEndpoint status = Some (endpointFor selected EndpointPhaseSelecting))) /\
  (pls_HandoffGeneration status = generation -> is_Some (pod status) -> pod status = pod (pl_Status lease)) /\
  (is_Some (pod (pl_Status lease)) ->
   pls_HandoffGeneration status <> generation \/ pod status <> pod (pl_Status lease) -> confirmed_withdrawal lease w').

Definition lease_outcome (lease : PortForwardLease) (status : PortForwardLeaseStatus) (w' : W) : Prop :=
  exists states, pls_ObservedGeneration status = Generation (pl_Meta lease) /\
    pls_Conditions status = Build (pls_Conditions (pl_Status lease)) (Generation (pl_Meta lease)) (clock_now w') leaseConditionOrder states /\
    stable_states states /\ (state_true states ConditionReady = true -> lease_served lease status w') /\ handoff_moves lease status w' /\
    (pls_Provider status <> None -> exists mapping, usable mapping (clock_now w') /\
       pls_Provider status = Some (mkProviderMappingStatus (Addr_String (po_PublicAddress mapping)) (po_PublicPort mapping) (po_ExpiresAt mapping))).

Notation outcome_of lease := (fun outcome w' => exists status again, outcome = Ok (status, again) /\ lease_outcome lease status w').

(** A status without a mapping, of conditions that are not ready. *)
Lemma finish_outcome lease handoff endpoint states again w :
  stable_states states -> state_true states ConditionReady = false ->
  (forall conditions, handoff_moves lease (mkPortForwardLeaseStatus (Generation (pl_Meta lease)) endpoint None handoff conditions) w) ->
  wp (finish lease handoff endpoint states again) (outcome_of lease) w.
Proof.
  intros Hs Hr Hm. unfold finish. wp_now. wp_step. eexists _, _. split; [done|]. exists states.
  split_and!; try done; [congruence|apply Hm].
Qed.

Lemma fresh_spec observation now :
  fresh_observation r observation now = true -> now - observationFreshness r <= ob_ObservedAt observation <= now + Minute.
Proof.
  unfold fresh_observation, time_Before, time_After. rewrite andb_true_iff, !negb_true_iff, !Z.ltb_ge. lia.
Qed.

Lemma currentObservation_spec observation lease gateway selected port mode now :
  currentObservation r observation (with_provider_port port
    (with_mode mode (IntentFor lease (gw_Meta gateway) selected (pls_HandoffGeneration (pl_Status lease))))) now = true ->
  observed_exactly observation lease gateway (cd_PodUID selected) now.
Proof.
  unfold currentObservation, ExactObservation. rewrite !andb_true_iff, !String.eqb_eq, Z.eqb_eq. cbn.
  intros [(((((_ & ?) & ?) & ?) & ?) & _) Hf%fresh_spec]. done.
Qed.

Lemma currentWithdrawal_spec observation lease gateway current retired port now :
  pls_ActiveEndpoint (pl_Status lease) = Some current ->
  currentWithdrawal r observation (wi_with_port port (wi_with_retired retired (WithdrawalFor lease (gw_Meta gateway)))) now = true ->
  ob_Withdrawn observation = true /\ observed_exactly observation lease gateway (ae_PodUID current) now.
Proof.
  intros Hc. unfold currentWithdrawal, ExactWithdrawal. rewrite !andb_true_iff, !String.eqb_eq, Z.eqb_eq. cbn. rewrite Hc.
  intros [((((((_ & ?) & ?) & ?) & ?) & _) & ?) Hf%fresh_spec]. done.
Qed.

Lemma provider_ready_spec observation now mapping :
  provider_ready observation now = Some mapping -> ob_Provider observation = Some mapping /\ usable mapping now.
Proof.
  unfold provider_ready. destruct (ob_Provider observation) as [p|]; [|done]. destruct (_ && _) eqn:Eu; [|done]. intros [= <-].
  split; [done|]. unfold time_After in Eu. rewrite !andb_true_iff, negb_true_iff, Z.eqb_neq, Z.ltb_lt in Eu.
  unfold usable. tauto.
Qed.

Lemma unmoved lease endpoint provider conditions w :
  (ae_PodUID <$> endpoint) = (ae_PodUID <$> pls_ActiveEndpoint (pl_Status lease)) ->
  handoff_moves lease (mkPortForwardLeaseStatus (Generation (pl_Meta lease)) endpoint provider
    (pls_HandoffGeneration (pl_Status lease)) conditions) w.
Proof. intros He. split; cbn; [by left|]. split; [done|]. intros _ [?|?]; done. Qed.

Lemma drain_states_stable lease e : stable_states (le_states e) -> stable_states (drain_states lease e).
Proof.
  intros Hs. unfold drain_states.
  assert (forall t m, stable_states m -> stable_states (match le_states e !! t with Some s => <[t := s]> m | None => m end)) as Hk.
  { intros t m Hm. destruct (le_states e !! t) as [s|] eqn:E; [|done]. apply stable_insert; [exact (Hs t s E)|done]. }
  apply Hk, Hk, pending_lease_stable.
Qed.

Lemma drain_states_not_ready lease e : state_true (drain_states lease e) ConditionReady = false.
Proof. unfold drain_states. repeat case_match; rewrite ?state_true_insert_ne by done; apply pending_lease_not_ready. Qed.

Lemma drainStatus_outcome (R : Runtime W) lease gateway current e preserve w :
  I w -> evaluated lease e -> runtime = Some R -> le_gateway e = Some gateway -> authorized lease gateway ->
  pls_ActiveEndpoint (pl_Status lease) = Some current ->
  wp (drainStatus r R lease gateway current e preserve) (outcome_of lease) w.
Proof.
  intros Hw He HR Hg Ha Hc. unfold drainStatus.
  pose proof (drain_states_stable lease e (ev_stable _ _ He)) as Hst.
  pose proof (drain_states_not_ready lease e) as Hnr.
  assert (forall w, wp (finish lease (pls_HandoffGeneration (pl_Status lease)) (Some (with_phase EndpointPhaseDraining current))
    (unknownRuntimeStates (drain_states lease e)) (observationFreshness r / 2)) (outcome_of lease) w) as Hdraining.
  { intros w0. apply finish_outcome; [by apply unknown_runtime_stable|apply unknown_runtime_not_ready|].
    intros. apply unmoved. by rewrite Hc. }
  wp_step. wp_step. apply (wp_asked I); [apply (lk_reserve _ kept)|done|]. intros reserved w1 Hw1 Hreserved.
  destruct reserved as [port|err]; [|apply Hdraining]. wp_step. wp_step. wp_run answer w2 Eo. wp_now. destruct answer as [o|err]; [|apply Hdraining].
  destruct (currentWithdrawal _ _ _ _) eqn:Ew; cbn [negb]; [|apply Hdraining].
  assert (confirmed_withdrawal lease w2) as Hconfirmed.
  { eexists R, gateway, _, o, w1. destruct (currentWithdrawal_spec _ _ _ _ _ _ _ Hc Ew) as [Hdone Hexact].
    split_and!; [done|done|done|exact Eo|done|done|]. by exists current. }
  destruct preserve.
  { apply finish_outcome; [done|done|]. intros. apply unmoved. by rewrite Hc. }
  assert (wp (finish lease (pls_HandoffGeneration (pl_Status lease)) None (drain_states lease e) Millisecond)
    (outcome_of lease) w2) as Hcleared.
  { apply finish_outcome; [done|done|]. intros. split; cbn; [by left|].
    split; [by intros _ [? [=]]|done]. }
  destruct (le_selected e) as [selected|] eqn:Es; [|apply Hcleared]. destruct (le_gatewayReady e) eqn:Er'; [|apply Hcleared].
  apply finish_outcome; [done|done|]. intros. split; cbn; [|split; [lia|done]]. right. split; [done|]. eexists gateway, _, selected.
  split; [|done]. destruct (ev_ready _ _ He gateway Er' Hg) as (? & ? & ?). split; try done.
  by apply (ev_selected _ _ He).
Qed.

Lemma applyObservation_cases lease endpoint states observation now :
  stable_states states ->
  let '(provider, endpoint', states') := applyObservation lease endpoint states observation now in
  stable_states states' /\ ae_PodUID endpoint' = ae_PodUID endpoint /\
  (provider <> None -> exists mapping, provider_ready observation now = Some mapping /\
     provider = Some (mkProviderMappingStatus (Addr_String (po_PublicAddress mapping)) (po_PublicPort mapping) (po_ExpiresAt mapping))) /\
  (state_true states ConditionReady = false -> state_true states' ConditionReady = true ->
   provider <> None /\ ob_GatewayRulesReady observation = true /\ ob_Delivered observation = true /\
   (pl_ApplicationAdapterRef (pl_Spec lease) <> None -> ob_Acknowledged observation = true) /\
   endpoint' = with_phase EndpointPhaseActive endpoint).
Proof.
  intros Hs. unfold applyObservation. destruct (provider_ready observation now) as [mapping|]; [|split_and!; [done..|congruence]].
  destruct (ob_GatewayRulesReady observation), (ob_Delivered observation); cbn [andb];
    destruct (bool_decide _ || _) eqn:Ea; cbn [andb];
    (split_and!; [repeat (apply stable_insert; [reflexivity|]); done|done|eauto|];
     rewrite ?state_true_insert_ne by done; try congruence).
  intros _ _. split_and!; try done. intros Hne. apply orb_true_iff in Ea as [Ha%bool_decide_eq_true|Ha]; done.
Qed.

Lemma programStatus_outcome (R : Runtime W) lease gateway current selected e w :
  I w -> evaluated lease e -> runtime = Some R -> le_gateway e = Some gateway -> servable lease gateway true selected -> adapter_resolved lease ->
  pls_ActiveEndpoint (pl_Status lease) = Some current -> same_target current selected = true ->
  wp (programStatus r R lease gateway current selected e) (outcome_of lease) w.
Proof.
  intros Hw He HR Hg Hserve Hadapter Hc Hsame. unfold programStatus. set (endpoint := endpointFor selected _).
  assert (forall e', ae_PodUID e' = ae_PodUID endpoint ->
    (ae_PodUID <$> Some e') = (ae_PodUID <$> pls_ActiveEndpoint (pl_Status lease))) as Hpod.
  { intros e' He'. rewrite Hc. cbn. rewrite He'. unfold same_target in Hsame. apply andb_true_iff in Hsame as [_ Hp%String.eqb_eq].
    by rewrite Hp. }
  assert (forall w, wp (finish lease (pls_HandoffGeneration (pl_Status lease)) (Some endpoint) (unknownRuntimeStates (le_states e))
    (observationFreshness r)) (outcome_of lease) w) as Hunknown.
  { intros w0. apply finish_outcome; [apply unknown_runtime_stable, He|apply unknown_runtime_not_ready|].
    intros. by apply unmoved, Hpod. }
  wp_step. wp_step. apply (wp_asked I); [apply (lk_reserve _ kept)|done|]. intros reserved w1 Hw1 Hreserved.
  destruct reserved as [port|err]; [|apply Hunknown].
  assert (exists mode, (if le_providerAssignedApplicationPort e
    then with_mode ApplicationPortProviderAssigned (IntentFor lease (gw_Meta gateway) selected (pls_HandoffGeneration (pl_Status lease)))
    else IntentFor lease (gw_Meta gateway) selected (pls_HandoffGeneration (pl_Status lease))) =
    with_mode mode (IntentFor lease (gw_Meta gateway) selected (pls_HandoffGeneration (pl_Status lease)))) as [mode ->].
  { destruct (le_providerAssignedApplicationPort e); [by eexists|]. by exists ApplicationPortFixed. }
  wp_step. wp_step. wp_run answer w2 Eo. wp_now. destruct answer as [o|err]; [|apply Hunknown].
  destruct (currentObservation _ _ _ _) eqn:Ecur; cbn [negb]; [|apply Hunknown].
  pose proof (applyObservation_cases lease endpoint (le_states e) o (clock_now w2) (ev_stable _ _ He)) as Happly.
  destruct (applyObservation lease endpoint (le_states e) o (clock_now w2)) as [[provider endpoint'] states'].
  destruct Happly as (Hst & Hsamepod & Hprovider & Hready). wp_step. eexists _, _. split; [done|].
  exists states'. split; [done|]. split; [done|]. split; [done|]. split; [|split; [by apply unmoved, Hpod|]].
  - intros Ht. destruct (Hready (ev_not_ready _ _ He) Ht) as (Hsome & Hrules & Hdel & Hack & ->).
    destruct (Hprovider Hsome) as (mapping & Hmap & ->).
    apply currentObservation_spec in Ecur. apply provider_ready_spec in Hmap as [Hmap Husable].
    exists R, gateway, selected, current, mode, port, o, mapping. split_and!; eauto.
  - intros Hsome. destruct (Hprovider Hsome) as (mapping & Hmap & Hp). apply provider_ready_spec in Hmap as [_ Husable]. eauto.
Qed.

(** Programming goes on only for the endpoint the status already names. *)
Lemma drain_none current e :
  handoffDrainReason current e = None ->
  le_gatewayReady e = true /\ le_backendSuspended e = false /\ (le_adapterRequired e = true -> le_adapterReady e = true) /\
  exists selected, le_selected e = Some selected /\ same_target current selected = true.
Proof.
  unfold handoffDrainReason, same_target. destruct (le_gatewayReady e); [|done]. cbn [negb]. case_bool_decide; [done|].
  destruct (le_backendSuspended e); [done|]. destruct (le_selected e) as [selected|]; [|by destruct (_ && _)].
  rewrite bool_decide_true by done. destruct (_ && negb _) eqn:Ea; [done|].
  destruct (String.eqb (ae_ServiceUID current) _) eqn:Es; [|done]. destruct (String.eqb (ae_PodUID current) _) eqn:Ep; [|done].
  intros _. split_and!; [done|done| |exists selected; by rewrite Es, Ep].
  intros Hreq. rewrite Hreq in Ea. by destruct (le_adapterReady e).
Qed.

Lemma runtimeStatus_outcome lease e w : I w -> evaluated lease e -> wp (runtimeStatus r runtime lease e) (outcome_of lease) w.
Proof.
  intros Hw He. unfold runtimeStatus. destruct (le_runtimeEligible e) eqn:Ee.
  2: { apply finish_outcome; [apply He|apply He|]. intros. by apply unmoved. }
  destruct (ev_gateway _ _ He Ee) as (gateway & Hg & Ha). destruct runtime as [R|] eqn:ER.
  2: { apply finish_outcome.
       - apply stable_insert; [reflexivity|]. apply stable_insert; [reflexivity|]. apply unknown_lease_stable, He.
       - rewrite !state_true_insert_ne by done. apply unknown_lease_not_ready.
       - intros. by apply unmoved. }
  rewrite Hg. destruct (pls_ActiveEndpoint (pl_Status lease)) as [current|] eqn:Ec.
  - destruct (handoffDrainReason current e) as [reason|] eqn:Ed.
    { by apply (drainStatus_outcome R). }
    destruct (drain_none _ _ Ed) as (Hr & Hs & Had & selected & Hsel & Hsame). rewrite Hsel. cbn [default].
    destruct (ev_ready _ _ He gateway Hr Hg) as (? & ? & ?).
    pose proof (ev_selected _ _ He selected gateway Hsel Hg) as Hb. rewrite Hs in Hb.
    apply (programStatus_outcome R); try done. rewrite (ev_required _ _ He), negb_true_iff, bool_decide_eq_false in Had.
    destruct (pl_ApplicationAdapterRef (pl_Spec lease)) eqn:En; [|unfold adapter_resolved; by rewrite En].
    by apply (ev_adapter _ _ He), Had.
  - destruct (le_selected e) as [selected|] eqn:Es.
    2: { apply finish_outcome; [apply He|apply He|]. intros. apply unmoved. by rewrite Ec. }
    assert (le_gatewayReady e = true) as Hr.
    { rewrite (ev_eligible _ _ He), Ec in Ee. rewrite andb_false_r, orb_false_r in Ee. exact Ee. }
    destruct (ev_ready _ _ He gateway Hr Hg) as (? & ? & ?).
    apply finish_outcome; [apply He|apply He|]. intros. split; cbn; [|split; [lia|by rewrite Ec; intros [? [=]]]].
    right. split; [done|]. eexists gateway, _, selected. split; [|done]. split; try done. by apply (ev_selected _ _ He).
Qed.

(** The status that a pass over a live lease computes. *)
Definition desired_status (lease : PortForwardLease) : IO W (PortForwardLeaseStatus * duration) :=
  e ← evaluate authorizer lease; runtimeStatus r runtime lease e.

Lemma desired_outcome lease w : I w -> wp (desired_status lease) (outcome_of lease) w.
Proof.
  intros Hw. unfold desired_status. wp_step. wp_with evaluate_spec; [done|]. intros ? w1 (Hw1 & e & -> & He). by apply runtimeStatus_outcome.
Qed.

End Evaluated.

(** *** The controller's promises, whatever the runtime does *)

Section Promises.
Context `{ApiMeta} {W : Type} `{Clock W}.
Context `{Getter W VPNGateway} `{Getter W WorkloadAdapter}.
Context `{Getter W Service} `{Lister W EndpointSlice} `{Lister W VPNWorkloadBinding} `{Getter W Pod}.
Context `{Getter W PortReservation} `{Lister W PortReservation} `{Creator W PortReservation}.
Context `{Patcher W PortReservation} `{Deleter W PortReservation}.
Context (authorizer : string -> NamespacedObjectReference -> IO W GatewayResolution).
Context (r : PortForwardLeaseReconciler) (runtime : option (Runtime W)).

Notation desired lease := (desired_status authorizer r runtime lease).

(** C25: A lease is published as ready only on exact, fresh evidence, gathered in
    this very pass: in worlds that have every property [I] of the pass's first
    world that reading and reserving keep.  Whatever the API server, the
    authorizer and the runtime answer, a status with a current Ready was computed for an authorized gateway that is accepted, ready
    and advertises the feature, for an exact eligible backend of the lease whose
    Service and Pod are the ones the status already named, and with a ready
    adapter where the lease asks for one; the provider port was reserved for it;
    the runtime answered the intent of the persisted generation with an exact,
    fresh observation of a usable mapping, of its rules and its delivery, and of
    the acknowledgement where there is an adapter; and the endpoint and the
    mapping published are those. *)
Theorem lease_ready_sound lease w :
  wp (desired lease) (fun outcome w' => forall I, lease_keeps authorizer I -> I w -> forall status again, outcome = Ok (status, again) ->
    CurrentTrue (pls_Conditions status) ConditionReady (pls_ObservedGeneration status) (Generation (pl_Meta lease)) = true ->
    lease_served authorizer I r runtime lease status w') w.
Proof.
  apply wp_forall. intros I. do 2 (apply wp_given; intros ?).
  wp_with (desired_outcome authorizer I); [done..|]. intros ? w1 (status & again & -> & states & Hg & Hc & _ & Hready & _) ?? [= <- <-].
  rewrite Hc. intros (_ & _ & Ht)%Build_current_true; [|set_solver]. by apply Hready, state_true_spec.
Qed.

(** C23: The single active endpoint moves only through a confirmed handoff.  Every
    pass keeps the handoff generation or raises it by one; a raised generation
    comes with a freshly selected backend of a servable gateway; at the same
    generation the status never comes to name another Pod; and once a Pod is
    named, it is dropped or its generation replaced only after the runtime
    confirmed, exactly and freshly, the withdrawal of that generation and Pod. *)
Theorem lease_handoff_confirmed lease w :
  wp (desired lease) (fun outcome w' => forall I, lease_keeps authorizer I -> I w -> forall status again, outcome = Ok (status, again) ->
    handoff_moves authorizer I r runtime lease status w') w.
Proof.
  apply wp_forall. intros I. do 2 (apply wp_given; intros ?).
  wp_with (desired_outcome authorizer I); [done..|]. intros ? w1 (status & again & -> & states & _ & _ & _ & _ & Hm & _) ?? [= <- <-]. exact Hm.
Qed.

End Promises.

(** ** What the runtime is asked for *)

(** The lease, as it was read, already names what the runtime is asked for, and
    is protected by the finalizer. *)
Definition names_endpoint (lease : PortForwardLease) (leaseUID serviceUID podUID : string) (generation : Z) : bool :=
  contains_string (Finalizers (pl_Meta lease)) ProviderCleanupFinalizer &&
  String.eqb leaseUID (UID (pl_Meta lease)) && (generation =? pls_HandoffGeneration (pl_Status lease)) &&
  match pls_ActiveEndpoint (pl_Status lease) with
  | Some current => String.eqb serviceUID (ae_ServiceUID current) && String.eqb podUID (ae_PodUID current)
  | None => bool_decide (is_Some (DeletionTimestamp (pl_Meta lease)))
  end.

(** A runtime that refuses everything the lease does not name. *)
Definition guarded {W} (lease : PortForwardLease) (R : Runtime W) : Runtime W := {|
  rt_Reconcile gateway i :=
    if names_endpoint lease (in_LeaseUID i) (in_ServiceUID i) (in_PodUID i) (in_HandoffGeneration i) &&
       bool_decide (DeletionTimestamp (pl_Meta lease) = None)
    then rt_Reconcile gateway i else io_panic;
  rt_Withdraw gateway i :=
    if names_endpoint lease (wi_LeaseUID i) (wi_ServiceUID i) (wi_PodUID i) (wi_HandoffGeneration i) &&
       bool_decide (wi_ReleaseProvider i = true <-> is_Some (DeletionTimestamp (pl_Meta lease)))
    then rt_Withdraw gateway i else io_panic;
  rt_Quarantine gateway i until :=
    if names_endpoint lease (wi_LeaseUID i) (wi_ServiceUID i) (wi_PodUID i) (wi_HandoffGeneration i) &&
       bool_decide (is_Some (DeletionTimestamp (pl_Meta lease)))
    then rt_Quarantine gateway i until else io_panic
|}.

Section WriteAhead.
Context `{ApiMeta} {W : Type} `{Clock W}.
Context `{Getter W PortForwardLease} `{Patcher W PortForwardLease} `{StatusUpdater W PortForwardLease PortForwardLeaseStatus}.
Context `{Getter W VPNGateway} `{Getter W WorkloadAdapter}.
Context `{Getter W Service} `{Lister W EndpointSlice} `{Lister W VPNWorkloadBinding} `{Getter W Pod}.
Context `{Getter W PortReservation} `{Lister W PortReservation} `{Creator W PortReservation}.
Context `{Patcher W PortReservation} `{Deleter W PortReservation}.
Context (r : PortForwardLeaseReconciler) (authorizer : string -> NamespacedObjectReference -> IO W GatewayResolution).
Context (R : Runtime W).

Lemma names_current lease current :
  pls_ActiveEndpoint (pl_Status lease) = Some current ->
  contains_string (Finalizers (pl_Meta lease)) ProviderCleanupFinalizer = true ->
  names_endpoint lease (UID (pl_Meta lease)) (ae_ServiceUID current) (ae_PodUID current) (pls_HandoffGeneration (pl_Status lease)) = true.
Proof. intros Hc Hf. unfold names_endpoint. by rewrite Hf, Hc, !String.eqb_refl, Z.eqb_refl. Qed.

Lemma runtimeStatus_guarded lease e :
  DeletionTimestamp (pl_Meta lease) = None -> needs_finalizer (Some R) lease e = false ->
  forall w, runtimeStatus r (Some R) lease e w = runtimeStatus r (Some (guarded lease R)) lease e w.
Proof.
  intros Hlive Hf w. unfold runtimeStatus. destruct (le_runtimeEligible e) eqn:Ee; [|done].
  destruct (le_gateway e) as [gateway|]; [|done]. destruct (pls_ActiveEndpoint (pl_Status lease)) as [current|] eqn:Ec; [|done].
  assert (contains_string (Finalizers (pl_Meta lease)) ProviderCleanupFinalizer = true) as Hfin.
  { unfold needs_finalizer in Hf. rewrite Ee, Ec, orb_true_r in Hf. by apply negb_false_iff in Hf. }
  pose proof (names_current lease current Ec Hfin) as Hnames.
  destruct (handoffDrainReason current e) as [reason|] eqn:Ed.
  - unfold drainStatus, mbind, io_bind, io_try. destruct (Reserve _ _ w) as [[port|err] w1]; [|done].
    unfold guarded at 1, rt_Withdraw at 2. cbn. rewrite Ec. rewrite Hnames. rewrite bool_decide_true; [done|].
    rewrite Hlive. split; [done|by intros [? [=]]].
  - destruct (drain_none _ _ Ed) as (_ & _ & _ & selected & -> & Hsame). cbn [default].
    unfold programStatus, mbind, io_bind, io_try. destruct (Reserve _ _ w) as [[port|err] w1]; [|done].
    apply andb_true_iff in Hsame as [Hs%String.eqb_eq Hp%String.eqb_eq]. rewrite Hs, Hp in Hnames.
    unfold guarded at 1, rt_Reconcile at 2. cbn.
    destruct (le_providerAssignedApplicationPort e); cbn; by rewrite Hnames, (bool_decide_true _ Hlive).
Qed.

Lemma cleanup_guarded lease deletedAt w :
  DeletionTimestamp (pl_Meta lease) = Some deletedAt ->
  cleanup r (Some R) lease deletedAt w = cleanup r (Some (guarded lease R)) lease deletedAt w.
Proof.
  intros Hdel. unfold cleanup. destruct (contains_string _ _) eqn:Hfin; [|done]. cbn [negb].
  assert (forall gateway, let i := WithdrawalFor lease gateway in
    names_endpoint lease (wi_LeaseUID i) (wi_ServiceUID i) (wi_PodUID i) (wi_HandoffGeneration i) = true) as Hnames.
  { intros gateway. unfold names_endpoint. cbn. rewrite Hfin, !String.eqb_refl, Z.eqb_refl.
    destruct (pls_ActiveEndpoint (pl_Status lease)); [by rewrite !String.eqb_refl|]. by rewrite bool_decide_true by (rewrite Hdel; eauto). }
  unfold mbind, io_bind, io_try. destruct (k8s_Get _ w) as [read w1]. destruct (Recover _ _ w1) as [reservation w2].
  assert (release_confirmed r (Some (guarded lease R)) lease (cleanup_gateway lease read reservation) reservation w2 =
    release_confirmed r (Some R) lease (cleanup_gateway lease read reservation) reservation w2) as ->.
  { unfold release_confirmed. destruct (cleanup_gateway _ _ _) as [gateway|]; [|done]. destruct reservation as [reserved|]; [|done].
    destruct (str_empty _); [done|]. unfold mbind, io_bind, io_try, guarded at 1, rt_Withdraw at 1. cbn.
    pose proof (Hnames gateway) as Hn. cbn in Hn. rewrite Hn. rewrite bool_decide_true; [done|]. rewrite Hdel. split; eauto. }
  destruct (release_confirmed _ _ _ _ _ w2) as [[[|]|err] w3]; [done| |done]. unfold read_clock. destruct (_ && _); [done|].
  destruct (cleanup_gateway _ _ _) as [gateway|]; [|done]. cbn [negb].
  unfold guarded at 1, rt_Quarantine at 2. cbn. pose proof (Hnames gateway) as Hn. cbn in Hn. rewrite Hn.
  by rewrite bool_decide_true by (rewrite Hdel; eauto).
Qed.

(** C24: The runtime is asked only for what the lease already records.  A pass
    behaves in the same way against a runtime that refuses everything else: a
    request to program names the lease, the generation, the Service and the Pod
    of the status as it was read, of a lease that is not being deleted; a
    withdrawal and a quarantine name the same, and release the provider mapping
    exactly for a deleted lease; and nothing is asked before the cleanup
    finalizer protects the lease. *)
Theorem lease_write_ahead request w :
  match k8s_Get (T := PortForwardLease) request w with
  | (Ok lease, _) => lease_Reconcile r authorizer (Some R) request w = lease_Reconcile r authorizer (Some (guarded lease R)) request w
  | _ => True
  end.
Proof.
  destruct (k8s_Get request w) as [[lease|err] w1] eqn:Eget; [|done].
  unfold lease_Reconcile, reconcile_object, mbind, io_bind, io_try. rewrite Eget.
  destruct (DeletionTimestamp (pl_Meta lease)) as [deletedAt|] eqn:Ed; [by apply cleanup_guarded|].
  destruct (evaluate authorizer lease w1) as [[e|err] w2]; [|done].
  change (needs_finalizer (Some (guarded lease R)) lease e) with (needs_finalizer (Some R) lease e).
  destruct (needs_finalizer (Some R) lease e) eqn:Ef; [done|]. by rewrite runtimeStatus_guarded.
Qed.

End WriteAhead.

(** ** Cleanup *)

Section Cleanup.
Context `{ApiMeta} {W : Type} `{Clock W}.
Context `{Getter W VPNGateway}.
Context `{Lister W PortReservation} `{Patcher W PortReservation} `{Getter W PortReservation}.
Context (r : PortForwardLeaseReconciler) (runtime : option (Runtime W)).

(** The provider mapping of the lease is gone: nothing was ever acquired, or the
    runtime, asked in this world, confirmed the release exactly and freshly. *)
Definition release_proved (lease : PortForwardLease) (gateway : option ObjectMeta) (reservation : res ProviderReservationIdentity)
    (w : W) : Prop :=
  nothing_acquired lease reservation = true \/
  exists (R : Runtime W) g reserved observation w',
    let intent := wi_with_port (ri_Port reserved) (wi_with_release (WithdrawalFor lease g)) in
    runtime = Some R /\ gateway = Some g /\ reservation = Ok reserved /\ UID g <> "" /\
    rt_Withdraw g intent w = (Ok observation, w') /\ currentWithdrawal r observation intent (clock_now w') = true.

(** The reservations of the lease for this gateway were listed; there was none,
    or the one that there was has been put in quarantine until then. *)
Definition port_quarantined (lease : PortForwardLease) (g : ObjectMeta) (until : time) (w w' : W) : Prop :=
  exists listed w1,
    k8s_List (T := PortReservation) (MatchingLabels (Namespace g)
      (<[providerLeaseUIDLabel := identityLabelValue (UID (pl_Meta lease))]> (gateway_labels g))) w = (Ok listed, w1) /\
    match List.filter (fun x => String.eqb (annotation x providerGatewayUIDAnnotation) (UID g) &&
                                String.eqb (annotation x providerLeaseUIDAnnotation) (UID (pl_Meta lease))) listed with
    | [] => w' = w1
    | [x] => k8s_Patch x (in_quarantine until (clock_now w1) x) w1 = (Ok tt, w')
    | _ => False
    end.

Lemma Quarantine_done lease g until w w' : Quarantine (pl_Meta lease) g until w = (Ok tt, w') -> port_quarantined lease g until w w'.
Proof.
  unfold Quarantine. intros (now & w0 & Hnow & H1')%bind_ok. injection Hnow as _ <-. destruct (_ || _ || _); [done|].
  apply bind_ok in H1' as (listed & w1 & Hlist & H1'). exists listed, w1. split; [exact Hlist|].
  destruct (List.filter _ _) as [|x [|]]; [by injection H1'| |done]. apply bind_ok in H1' as (now' & w2 & Hnow' & H1'). injection Hnow' as <- <-.
  unfold io_wrap in H1'. by destruct (k8s_Patch _ _ _) as [[[]|e] w3]; [injection H1' as ->|].
Qed.

(** What lets the finalizer go, in the order the pass that starts in [w] does it.
    Where neither the gateway nor the reservation could be read, nothing is put
    in quarantine. *)
Definition released (lease : PortForwardLease) (deletedAt : time) (w : W) : Prop :=
  let ref := pl_GatewayRef (pl_Spec lease) in
  exists read w1 reservation w2 withdrawn w3,
    let gateway := cleanup_gateway lease read reservation in
    let until := clock_now w3 + cleanupTimeout r in
    k8s_Get (T := VPNGateway) (mkObjectKey (nor_Namespace ref) (nor_Name ref)) w = (read, w1) /\
    Recover (pl_Meta lease) (nor_Namespace ref) w1 = (reservation, w2) /\
    release_confirmed r runtime lease gateway reservation w2 = (Ok withdrawn, w3) /\
    (release_proved lease gateway reservation w2 \/ deletedAt + cleanupTimeout r <= clock_now w3) /\
    match gateway with
    | Some g => exists w4 w5,
        (if withdrawn then w4 = w3
         else forall R : Runtime W, runtime = Some R -> rt_Quarantine g (wi_with_release (WithdrawalFor lease g)) until w3 = (Ok tt, w4)) /\
        (runtime = None -> w4 = w3) /\ port_quarantined lease g until w4 w5
    | None => (exists e, read = Fail e) /\ exists e, reservation = Fail e
    end.

Lemma release_confirmed_proved lease gateway reservation w :
  wp (release_confirmed r runtime lease gateway reservation)
    (fun outcome _ => exists withdrawn, outcome = Ok withdrawn /\ (withdrawn = true -> release_proved lease gateway reservation w)) w.
Proof.
  assert (wp (mret (nothing_acquired lease reservation))
    (fun outcome _ => exists withdrawn, outcome = Ok withdrawn /\ (withdrawn = true -> release_proved lease gateway reservation w)) w) as Hnone.
  { wp_step. eexists. split; [done|]. by left. }
  unfold release_confirmed. destruct gateway as [g|]; [|apply Hnone]. destruct runtime as [R|] eqn:ER; [|apply Hnone].
  destruct reservation as [reserved|err]; [|apply Hnone]. destruct (str_empty (UID g)) eqn:Eu; [apply Hnone|].
  wp_step. wp_step. wp_run answer w1 Ew. wp_now. wp_step. eexists. split; [done|].
  destruct answer as [observation|]; [|done]. intros Hc. right. eexists R, g, reserved, observation, w1.
  split_and!; [done|done|done| |exact Ew|exact Hc]. intros E. by rewrite E in Eu.
Qed.

(** C26: A deleted lease keeps its finalizer until its release is settled.  A
    cleanup pass either does not write the lease at all, so that it goes the same
    way whatever the write would do, or in this very pass: nothing was ever
    acquired, the runtime confirmed the exact release, or the cleanup timeout has
    passed since the deletion; and, if the gateway could be read, or be recovered
    from the one reservation of the lease, first the runtime accepted to keep the
    mapping out of use where it had not confirmed the release, and then the
    reservation of the lease for this gateway, if one was listed, was patched into
    quarantine.  If neither could be read, the finalizer goes without a
    quarantine. *)
Theorem lease_cleanup_guarded lease deletedAt w (patch : Patcher W PortForwardLease) :
  (forall other : Patcher W PortForwardLease,
     cleanup (H2 := other) r runtime lease deletedAt w = cleanup (H2 := patch) r runtime lease deletedAt w) \/
  released lease deletedAt w.
Proof.
  unfold cleanup. destruct (negb _); [by left|]. unfold mbind, io_bind, io_try, read_clock.
  destruct (k8s_Get _ w) as [read w1] eqn:Eg. destruct (Recover _ _ w1) as [reservation w2] eqn:Er.
  destruct (release_confirmed _ _ _ _ _ w2) as [outcome w3] eqn:Ec.
  destruct (wp_elim _ _ _ _ _ (release_confirmed_proved _ _ _ _) Ec) as (withdrawn & -> & Hp).
  destruct (negb withdrawn && _) eqn:Ewait; [by left|].
  assert (release_proved lease (cleanup_gateway lease read reservation) reservation w2 \/
    deletedAt + cleanupTimeout r <= clock_now w3) as Hsettled.
  { destruct withdrawn; [left; by apply Hp|]. right. unfold time_Before in Ewait. cbn in Ewait. by apply Z.ltb_ge in Ewait. }
  destruct (cleanup_gateway lease read reservation) as [g|] eqn:Egw.
  2: { right. exists read, w1, reservation, w2, withdrawn, w3. rewrite Egw. split_and!; eauto; unfold cleanup_gateway in Egw; destruct read, reservation; eauto; done. }
  set (asked := match runtime with Some _ => _ | None => _ end). destruct (asked w3) as [[[]|err] w4] eqn:Eq1; [|by left].
  destruct (Quarantine _ g _ w4) as [[[]|err] w5] eqn:Eq; [|by left].
  right. exists read, w1, reservation, w2, withdrawn, w3. rewrite Egw. split_and!; [done..|].
  exists w4, w5. split_and!; [| |by apply Quarantine_done]; subst asked.
  - destruct withdrawn; cbn [negb] in Eq1; [destruct runtime; by injection Eq1|]. intros R ->. exact Eq1.
  - intros ->. by injection Eq1.
Qed.

End Cleanup.

(** No status the controller writes is rejected by the CRD rules on conditions. *)
Section LeaseStatus.
Context `{ApiMeta} {W : Type} `{!Clock W}.
Context `{!Getter W PortForwardLease} `{!Patcher W PortForwardLease} {A : StatusUpdater W PortForwardLease PortForwardLeaseStatus}.
Context `{!Getter W VPNGateway} `{!Getter W WorkloadAdapter}.
Context `{!Getter W Service} `{!Lister W EndpointSlice} `{!Lister W VPNWorkloadBinding} `{!Getter W Pod}.
Context `{!Getter W PortReservation} `{!Lister W PortReservation} `{!Creator W PortReservation}.
Context `{!Patcher W PortReservation} `{!Deleter W PortReservation}.
Context (r : PortForwardLeaseReconciler) (authorizer : string -> NamespacedObjectReference -> IO W GatewayResolution).
Context (runtime : option (Runtime W)).

(** The CRD rules on the conditions of a lease. *)
Definition lease_conditions_admitted (status : PortForwardLeaseStatus) : bool := LeaseConditions_valid (pls_Conditions status).

Lemma lease_never_rejected request w :
  lease_Reconcile (H3 := validating_update lease_conditions_admitted A) r authorizer runtime request w =
  lease_Reconcile r authorizer runtime request w.
Proof.
  unfold lease_Reconcile, reconcile_object, mbind, io_bind, io_try.
  destruct (k8s_Get request w) as [[lease|err] w1]; [|done]. destruct (DeletionTimestamp (pl_Meta lease)); [done|].
  destruct (evaluate authorizer lease w1) as [outcome w2] eqn:Ee.
  destruct (wp_elim _ _ _ _ _ (evaluate_spec authorizer (fun _ => True) ltac:(done) lease w1 Logic.I) Ee) as (_ & e & -> & He).
  destruct (needs_finalizer runtime lease e); [done|].
  destruct (runtimeStatus r runtime lease e w2) as [outcome w3] eqn:Es.
  destruct (wp_elim _ _ _ _ _ (runtimeStatus_outcome authorizer (fun _ => True) ltac:(done) r runtime lease e w2 Logic.I He) Es)
    as (status & again & -> & states & _ & Hc & Hst & _).
  cbn [fst]. case_decide; [done|]. unfold applyStatus, io_wrap, k8s_UpdateStatus, validating_update.
  assert (lease_conditions_admitted status = true) as ->; [|done].
  unfold lease_conditions_admitted. rewrite Hc.
  apply Build_types_admitted; [by apply (bool_decide_unpack _)|by apply (bool_decide_unpack _)|done|done].
Qed.

End LeaseStatus.
