(* ===== verification/AdapterController.v ===== *)
(** * The workload adapter controller (internal/portforward/adapter_controller.go)

    The controller finds the single Pod behind an adapter's Service, demands that
    it runs the registered image without a service account token, the host's
    namespaces and paths, or privileges, and publishes the adapter as ready on a
    fresh health observation of that Pod.  Secrets that are mounted otherwise, such
    as those of the application it adapts, are none of the controller's business. *)

From S2P Require Import Prelude Netip Api Conditions Kube PortRuntime PortResolver PortDelivery.

Definition FieldManagerAdapterController : string := "waycloak-adapter-controller".

Definition adapterConditionOrder : list string := [ConditionAccepted; ConditionResolvedRefs; ConditionProgrammed; ConditionReady].

(** ** The Pod, as far as the controller reads it *)

Record Volume := mkVolume {
  vo_HostPath : bool;
  vo_Projected : option (list bool)   (** the sources: whether each is a service account token *)
}.
Record Capabilities := mkCapabilities { cp_Add : list string; cp_Drop : list string }.
Record SecurityContext := mkSecurityContext {
  sc_Privileged : option bool;
  sc_AllowPrivilegeEscalation : option bool;
  sc_RunAsNonRoot : option bool;
  sc_ReadOnlyRootFilesystem : option bool;
  sc_Capabilities : option Capabilities;
  sc_SeccompProfile : option string   (** the type of the profile *)
}.
Record ContainerPort := mkContainerPort { cop_ContainerPort : Z; cop_Protocol : string }.
Record Container := mkContainer {
  co_Image : string;
  co_Ports : list ContainerPort;
  co_SecurityContext : option SecurityContext
}.
Record PodSpec := mkPodSpec {
  ps_HostNetwork : bool;
  ps_HostPID : bool;
  ps_HostIPC : bool;
  ps_ShareProcessNamespace : option bool;
  ps_AutomountServiceAccountToken : option bool;
  ps_InitContainers : list Container;
  ps_EphemeralContainers : list Container;
  ps_Containers : list Container;
  ps_Volumes : list Volume;
  ps_SeccompProfile : option string   (** of the Pod's own security context *)
}.
Record SpecifiedPod := mkSpecifiedPod { spod_Pod : Pod; spod_Spec : PodSpec }.

Definition SeccompProfileTypeRuntimeDefault : string := "RuntimeDefault".

(** A pointer to a boolean that is set, and that is set to true. *)
Definition set_true (b : option bool) : bool := match b with Some b => b | None => false end.

Definition projectedServiceAccountToken (sources : list bool) : bool := existsb id sources.
Definition containsCapability : list string -> string -> bool := contains_string.

Definition unsafe_volume (v : Volume) : bool :=
  vo_HostPath v || match vo_Projected v with Some sources => projectedServiceAccountToken sources | None => false end.

Definition safe_container (image : string) (container : Container) (podSeccomp : option string) : bool :=
  match co_SecurityContext container with
  | None => false
  | Some security =>
      String.eqb (co_Image container) image &&
      match co_Ports container with
      | [port] => (cop_ContainerPort port =? DefaultAdapterPort) && String.eqb (cop_Protocol port) ProtocolTCP
      | _ => false
      end &&
      negb (set_true (sc_Privileged security)) && bool_decide (sc_AllowPrivilegeEscalation security = Some false) &&
      set_true (sc_RunAsNonRoot security) && set_true (sc_ReadOnlyRootFilesystem security) &&
      match sc_Capabilities security with
      | Some capabilities => bool_decide (cp_Add capabilities = []) && containsCapability (cp_Drop capabilities) "ALL"
      | None => false
      end &&
      bool_decide ((match sc_SeccompProfile security with Some p => Some p | None => podSeccomp end) = Some SeccompProfileTypeRuntimeDefault)
  end.

Definition safeAdapterPod (pod : SpecifiedPod) (image : string) : bool :=
  let spec := spod_Spec pod in
  if ps_HostNetwork spec || ps_HostPID spec || ps_HostIPC spec || set_true (ps_ShareProcessNamespace spec) ||
     negb (bool_decide (ps_AutomountServiceAccountToken spec = Some false)) || negb (bool_decide (length (ps_InitContainers spec) = 0%nat)) ||
     negb (bool_decide (length (ps_EphemeralContainers spec) = 0%nat))
  then false
  else
    match ps_Containers spec with
    | [container] => negb (existsb unsafe_volume (ps_Volumes spec)) && safe_container image container (ps_SeccompProfile spec)
    | _ => false
    end.

(** ** The reconciler *)

Definition adapterSlicePort (slice : EndpointSlice) : bool :=
  existsb (fun port => bool_decide (ep_Port port = Some DefaultAdapterPort) &&
    match ep_Protocol port with Some p => String.eqb p ProtocolTCP | None => true end) (es_Ports slice).

Definition adapter_service (service : Service) : bool :=
  negb (str_empty (UID (sv_Meta service))) && negb (String.eqb (sv_Type service) ServiceTypeExternalName) &&
  match sv_Ports service with
  | [port] => String.eqb (sp_Protocol port) ProtocolTCP && (sp_Port port =? DefaultAdapterPort)
  | _ => false
  end.

Definition adapter_endpoint (endpoint : Endpoint) : option ObjectReference :=
  match en_TargetRef endpoint with
  | Some ref =>
      if eligibleEndpoint endpoint && String.eqb (ref_Kind ref) "Pod" && negb (str_empty (ref_Name ref)) && negb (str_empty (ref_UID ref))
      then Some ref else None
  | None => None
  end.

Definition running_as (ref : ObjectReference) (pod : SpecifiedPod) : bool :=
  String.eqb (UID (pod_Meta (spod_Pod pod))) (ref_UID ref) && String.eqb (pod_Phase (spod_Pod pod)) PodRunning &&
  not_deleting (pod_Meta (spod_Pod pod)).

Section AdapterController.
Context `{ApiMeta} {W : Type} `{Clock W}.
Context `{Getter W WorkloadAdapter} `{StatusApplier W WorkloadAdapterStatus}.
Context `{Getter W Service} `{Lister W EndpointSlice} `{Getter W SpecifiedPod}.
Context (Health : option (AdapterHealthChecker W)).

Notation pods := (gmap string SpecifiedPod).

Fixpoint adapter_pods (namespace : string) (endpoints : list Endpoint) (found : pods) : IO W pods :=
  match endpoints with
  | [] => mret found
  | endpoint :: rest =>
      match adapter_endpoint endpoint with
      | None => adapter_pods namespace rest found
      | Some ref =>
          pod ← k8s_Get (T := SpecifiedPod) (mkObjectKey namespace (ref_Name ref));
          adapter_pods namespace rest
            (if running_as ref pod then <[UID (pod_Meta (spod_Pod pod)) := pod]> found else found)
      end
  end.

Definition slice_endpoints (service : Service) (slice : EndpointSlice) : list Endpoint :=
  if ownedByService slice service && adapterSlicePort slice then es_Endpoints slice else [].

(** The one Pod that serves the adapter, if there is exactly one. *)
Definition resolvePod (adapter : WorkloadAdapter) : IO W (option SpecifiedPod) :=
  let namespace := Namespace (ad_Meta adapter) in
  got ← io_try (k8s_Get (T := Service) (mkObjectKey namespace (AdapterServiceName namespace (Name (ad_Meta adapter)))));
  match got with
  | Fail err => if IsNotFound err then mret None else io_fail err
  | Ok service =>
      if negb (adapter_service service) then mret None
      else
        slices ← k8s_List (T := EndpointSlice) (MatchingLabels namespace {[LabelServiceName := Name (sv_Meta service)]});
        found ← adapter_pods namespace (concat (map (slice_endpoints service) slices)) ∅;
        mret (match map_to_list found with [(_, pod)] => Some pod | _ => None end)
  end.

Definition adapter_initial : gmap string State :=
  <[ConditionAccepted := True_ ReasonAccepted "Adapter trust record is accepted"]>
  (<[ConditionResolvedRefs := False_ ReasonRefNotFound "Adapter Service endpoint is unresolved"]>
  (<[ConditionProgrammed := False_ ReasonPending "Adapter process is unavailable"]>
  (<[ConditionReady := False_ ReasonNotReady "Adapter protocol is not ready"]> ∅))).

Definition adapter_programmed : gmap string State :=
  <[ConditionProgrammed := True_ ReasonProgrammed "Unprivileged adapter process is available"]>
  (<[ConditionResolvedRefs := True_ ReasonResolvedRefs "Exact adapter Service endpoint is resolved"]> adapter_initial).

Definition protocol_unknown : State := Unknown "Adapter protocol observation is unavailable".

Definition adapter_unknown : gmap string State :=
  <[ConditionReady := protocol_unknown]>
  (<[ConditionProgrammed := Unknown "Adapter process observation is unavailable"]>
  (<[ConditionResolvedRefs := Unknown "Adapter endpoint observation is unavailable"]> adapter_initial)).

Definition adapter_states (adapter : WorkloadAdapter) (resolved : res (option SpecifiedPod)) : IO W (gmap string State) :=
  match resolved with
  | Fail _ => mret adapter_unknown
  | Ok None => mret adapter_initial
  | Ok (Some pod) =>
      if negb (safeAdapterPod pod (ad_Image (ad_Spec adapter))) then
        mret (<[ConditionResolvedRefs := False_ ReasonIncompatibleRef
          "Adapter Pod does not satisfy the credential-free runtime contract"]> adapter_initial)
      else
        match Health with
        | None => mret (<[ConditionReady := protocol_unknown]> adapter_programmed)
        | Some checker =>
            observation ← io_try (health_Observe (Namespace (ad_Meta adapter)) (Name (ad_Meta adapter)) (ad_Image (ad_Spec adapter)));
            now ← read_clock;
            now' ← read_clock;
            mret (match observation with
                  | Fail _ => <[ConditionReady := protocol_unknown]> adapter_programmed
                  | Ok o =>
                      if negb (String.eqb (ah_PodUID o) (UID (pod_Meta (spod_Pod pod)))) || negb (fresh_between (ah_ObservedAt o) now now')
                      then <[ConditionReady := protocol_unknown]> adapter_programmed
                      else if ah_Ready o then <[ConditionReady := True_ ReasonReady "Adapter protocol is ready"]> adapter_programmed
                      else adapter_programmed
                  end)
        end
  end.

Definition adapter_desiredStatus (adapter : WorkloadAdapter) : IO W WorkloadAdapterStatus :=
  resolved ← io_try (resolvePod adapter);
  states ← adapter_states adapter resolved;
  now ← read_clock;
  mret (mkWorkloadAdapterStatus (Generation (ad_Meta adapter))
    (Build (ad_Conditions (ad_Status adapter)) (Generation (ad_Meta adapter)) now adapterConditionOrder states)).

Definition adapter_Reconcile (request : ObjectKey) : IO W Result :=
  reconcile_object request (fun adapter =>
    status ← adapter_desiredStatus adapter;
    (if decide (ad_Status adapter = status) then mret tt
     else io_wrap "apply WorkloadAdapter status"
       (k8s_ApplyStatus (key_of (ad_Meta adapter)) status FieldManagerAdapterController)) ;;
    mret (mkResult (DefaultObservationFreshness / 2))).

Definition adaptersInNamespace `{Lister W WorkloadAdapter} (namespace : string) : IO W (list ObjectKey) :=
  listed ← io_try (k8s_List (T := WorkloadAdapter) (InNamespace namespace));
  mret (match listed with Ok adapters => map (fun a => key_of (ad_Meta a)) adapters | Fail _ => [] end).

End AdapterController.

(** ** What readiness means *)

(** The Pod runs the one registered container, which has none of the host's
    namespaces and paths, no service account token, no way to gain privileges and
    the runtime's default system call filter. *)
Record contained_pod (pod : SpecifiedPod) (image : string) : Prop := {
  cd_host : ps_HostNetwork (spod_Spec pod) = false /\ ps_HostPID (spod_Spec pod) = false /\ ps_HostIPC (spod_Spec pod) = false /\
    ps_ShareProcessNamespace (spod_Spec pod) <> Some true;
  cd_token : ps_AutomountServiceAccountToken (spod_Spec pod) = Some false;
  cd_volumes v : v ∈ ps_Volumes (spod_Spec pod) -> vo_HostPath v = false /\
    forall sources, vo_Projected v = Some sources -> true ∉ sources;
  cd_container : exists container port security capabilities,
    ps_InitContainers (spod_Spec pod) ++ ps_Containers (spod_Spec pod) ++ ps_EphemeralContainers (spod_Spec pod) = [container] /\
    co_Image container = image /\ co_Ports container = [port] /\ cop_ContainerPort port = DefaultAdapterPort /\ cop_Protocol port = ProtocolTCP /\
    co_SecurityContext container = Some security /\
    sc_Privileged security <> Some true /\ sc_AllowPrivilegeEscalation security = Some false /\
    sc_RunAsNonRoot security = Some true /\ sc_ReadOnlyRootFilesystem security = Some true /\
    sc_Capabilities security = Some capabilities /\ cp_Add capabilities = [] /\ "ALL" ∈ cp_Drop capabilities /\
    (sc_SeccompProfile security = Some SeccompProfileTypeRuntimeDefault \/
     sc_SeccompProfile security = None /\ ps_SeccompProfile (spod_Spec pod) = Some SeccompProfileTypeRuntimeDefault)
}.

Lemma set_true_spec b : set_true b = true <-> b = Some true.
Proof. destruct b as [[]|]; naive_solver. Qed.

Lemma unsafe_volume_spec v :
  unsafe_volume v = false -> vo_HostPath v = false /\ forall sources, vo_Projected v = Some sources -> true ∉ sources.
Proof.
  unfold unsafe_volume. intros [Hh Hp]%orb_false_iff. split; [done|]. intros sources Hs Hin. rewrite Hs in Hp.
  assert (projectedServiceAccountToken sources = true) as Ht; [|congruence].
  apply existsb_exists. exists true. by rewrite <- list_elem_of_In.
Qed.

Lemma safeAdapterPod_sound pod image : safeAdapterPod pod image = true -> contained_pod pod image.
Proof.
  unfold safeAdapterPod. destruct (_ || _) eqn:Eg; [done|]. rewrite !orb_false_iff, !negb_false_iff, !bool_decide_eq_true in Eg.
  destruct Eg as ((((((Hn & Hp) & Hi) & Hshare) & Ht) & Hinit) & Heph). apply length_zero_iff_nil in Hinit, Heph.
  destruct (ps_Containers _) as [|container [|? ?]] eqn:Ec; [done| |done]. intros [Hv Hc]%andb_true_iff.
  apply negb_true_iff in Hv. split; [split_and!; [done..|]; intros E; by rewrite E in Hshare|done| |].
  - intros v Hin. apply unsafe_volume_spec. destruct (unsafe_volume v) eqn:Ev; [|done].
    assert (existsb unsafe_volume (ps_Volumes (spod_Spec pod)) = true); [|congruence].
    apply existsb_exists. exists v. by rewrite <- list_elem_of_In.
  - unfold safe_container in Hc. destruct (co_SecurityContext container) as [security|] eqn:Es; [|done].
    destruct (sc_Capabilities security) as [capabilities|] eqn:Ecap; rewrite ?andb_true_iff in Hc; [|by destruct_and?].
    destruct (co_Ports container) as [|port [|? ?]] eqn:Ep; [by destruct_and?| |by destruct_and?].
    rewrite !set_true_spec, !bool_decide_eq_true, andb_true_iff, Z.eqb_eq, !String.eqb_eq, negb_true_iff in Hc.
    destruct Hc as (((((((Himage & Hport & Htcp) & Hpriv) & Hesc) & Hroot) & Hro) & Hadd & Hdrop) & Hseccomp).
    exists container, port, security, capabilities. rewrite Hinit, Heph, Ec. split_and!; try done.
    + intros Hp'. by rewrite Hp' in Hpriv.
    + apply existsb_exists in Hdrop as (x & Hx & ->%String.eqb_eq). by apply list_elem_of_In.
    + destruct (sc_SeccompProfile security); [by left|by right].
Qed.

Section AdapterReady.
Context `{ApiMeta} {W : Type} `{Clock W}.
Context `{Getter W WorkloadAdapter} `{StatusApplier W WorkloadAdapterStatus}.
Context `{Getter W Service} `{Lister W EndpointSlice} `{Getter W SpecifiedPod}.
Context (Health : option (AdapterHealthChecker W)).

(** What the controller's reads keep of the world. *)
Record adapter_keeps (I : W -> Prop) : Prop := {
  adk_service key : keeps I (k8s_Get (T := Service) key);
  adk_slices options : keeps I (k8s_List (T := EndpointSlice) options);
  adk_pod key : keeps I (k8s_Get (T := SpecifiedPod) key)
}.
Context (I : W -> Prop).

(** The Pod was read behind a ready endpoint that names its UID. *)
Definition serves_behind (namespace : string) (endpoints : list Endpoint) (pod : SpecifiedPod) : Prop :=
  exists endpoint ref, endpoint ∈ endpoints /\ adapter_endpoint endpoint = Some ref /\ running_as ref pod = true /\
    answered I (k8s_Get (T := SpecifiedPod) (mkObjectKey namespace (ref_Name ref))) (Ok pod).

Hypothesis kept : adapter_keeps I.

Lemma adapter_pods_exact namespace all endpoints found w :
  endpoints ⊆ all -> map_Forall (fun uid pod => UID (pod_Meta (spod_Pod pod)) = uid /\ serves_behind namespace all pod) found -> I w ->
  wp (adapter_pods namespace endpoints found)
    (fun r w' => I w' /\ forall found', r = Ok found' ->
       map_Forall (fun uid pod => UID (pod_Meta (spod_Pod pod)) = uid /\ serves_behind namespace all pod) found') w.
Proof.
  revert found w. induction endpoints as [|endpoint rest IH]; intros found w Hsub Hf Hw; cbn [adapter_pods].
  { wp_step. split; [done|]. by intros ? [= <-]. }
  assert (endpoint ∈ all /\ rest ⊆ all) as [Hin Hrest] by set_solver.
  destruct (adapter_endpoint endpoint) as [ref|] eqn:Ee; [|by apply IH].
  wp_step. apply (wp_asked I); [apply kept|done|]. intros got w1 Hw1 Hgot.
  destruct got as [pod|]; [|done]. apply IH; [done| |done]. destruct (running_as ref pod) eqn:Er; [|done].
  apply map_Forall_insert_2; [|done]. split; [done|]. unfold serves_behind. eauto 10.
Qed.

(** The single Pod behind the adapter's own Service. *)
Definition adapter_pod (adapter : WorkloadAdapter) (pod : SpecifiedPod) : Prop :=
  let namespace := Namespace (ad_Meta adapter) in
  exists service slices,
    answered I (k8s_Get (T := Service) (mkObjectKey namespace (AdapterServiceName namespace (Name (ad_Meta adapter))))) (Ok service) /\
    adapter_service service = true /\
    answered I (k8s_List (T := EndpointSlice) (MatchingLabels namespace {[LabelServiceName := Name (sv_Meta service)]})) (Ok slices) /\
    serves_behind namespace (concat (map (slice_endpoints service) slices)) pod.

Lemma resolvePod_exact adapter w :
  I w -> wp (resolvePod adapter) (fun r w' => I w' /\ forall pod, r = Ok (Some pod) -> adapter_pod adapter pod) w.
Proof.
  intros Hw. unfold resolvePod. wp_step. wp_step. apply (wp_asked I); [apply kept|done|]. intros got w1 Hw1 Hs.
  destruct got as [service|err]; [|by case_match; wp_step].
  destruct (adapter_service service) eqn:Ea; cbn [negb]; [|by wp_step]. wp_step. apply (wp_asked I); [apply kept|done|]. intros listed w2 Hw2 Hl.
  destruct listed as [slices|err]; [|done]. cbn [after]. wp_step.
  wp_with (adapter_pods_exact (Namespace (ad_Meta adapter)) (concat (map (slice_endpoints service) slices))); [done|apply map_Forall_empty|done|].
  intros [found|err] w3 [Hw3 Hfound]; cbn [after]; [|done]. wp_step. split; [done|]. intros pod [= Hpod].
  destruct (map_to_list found) as [|[uid p] [|? ?]] eqn:Em; [done| |done]. injection Hpod as ->.
  assert (found !! uid = Some pod) as Hf by (apply elem_of_map_to_list; rewrite Em; by left).
  destruct (Hfound found eq_refl uid pod Hf) as [_ Hb]. exists service, slices. eauto 10.
Qed.

(** What a ready adapter rests on, at the end of the pass. *)
Definition adapter_healthy (adapter : WorkloadAdapter) (w' : W) : Prop :=
  exists (checker : AdapterHealthChecker W) pod observation,
    Health = Some checker /\ adapter_pod adapter pod /\ contained_pod pod (ad_Image (ad_Spec adapter)) /\
    (exists w, I w /\ health_Observe (Namespace (ad_Meta adapter)) (Name (ad_Meta adapter)) (ad_Image (ad_Spec adapter)) w =
       (Ok observation, w')) /\
    ah_PodUID observation = UID (pod_Meta (spod_Pod pod)) /\ fresh_between (ah_ObservedAt observation) (clock_now w') (clock_now w') = true /\
    ah_Ready observation = true.

Lemma adapter_states_exact adapter resolved w :
  (forall pod, resolved = Ok (Some pod) -> adapter_pod adapter pod) -> I w ->
  wp (adapter_states Health adapter resolved)
    (fun r w' => exists states, r = Ok states /\ stable_states states /\ (state_true states ConditionReady = true -> adapter_healthy adapter w')) w.
Proof.
  intros Hpod Hw. assert (forall states (w : W), stable_states states -> state_true states ConditionReady = false ->
    wp (mret states) (fun r w' => exists states, r = Ok states /\ stable_states states /\
      (state_true states ConditionReady = true -> adapter_healthy adapter w')) w) as Hno.
  { intros states w0 Hs Hr. wp_step. exists states. split_and!; [done|done|congruence]. }
  assert (stable_states adapter_programmed) as Hprog by (unfold adapter_programmed, adapter_initial; solve_stable).
  assert (stable_states (<[ConditionReady := protocol_unknown]> adapter_programmed)) as Hunk
    by (apply stable_insert; [reflexivity|done]).
  unfold adapter_states. destruct resolved as [[pod|]|err].
  - destruct (safeAdapterPod pod _) eqn:Es; cbn [negb].
    2: { apply Hno; [|reflexivity]. unfold adapter_initial. solve_stable. }
    destruct Health as [checker|] eqn:Eh; [|by apply Hno]. wp_step. wp_step. wp_run answer w1 Eo. do 2 wp_now.
    destruct answer as [observation|err]; [|by apply Hno].
    destruct (negb _ || negb _) eqn:Ef; [by apply Hno|]. apply orb_false_iff in Ef as [Hu%negb_false_iff Hf%negb_false_iff].
    destruct (ah_Ready observation) eqn:Er; [|by apply Hno]. wp_step. eexists. split; [done|].
    split; [by apply stable_insert|]. intros _. exists checker, pod, observation.
    apply String.eqb_eq in Hu. split_and!; [done|by apply Hpod|by apply safeAdapterPod_sound|by eauto|done|done|done].
  - apply Hno; [|reflexivity]. unfold adapter_initial. solve_stable.
  - apply Hno; [|reflexivity]. unfold adapter_unknown, adapter_initial. solve_stable.
Qed.

Lemma adapter_desired adapter w :
  I w -> wp (adapter_desiredStatus Health adapter)
    (fun r w' => exists status states now, r = Ok status /\
       ad_Conditions status = Build (ad_Conditions (ad_Status adapter)) (Generation (ad_Meta adapter)) now adapterConditionOrder states /\
       stable_states states /\ (state_true states ConditionReady = true -> adapter_healthy adapter w')) w.
Proof.
  intros Hw. unfold adapter_desiredStatus. wp_step. wp_step. wp_with resolvePod_exact; [done|]. intros resolved w1 [Hw1 Hres]. cbn [after].
  wp_step. wp_with adapter_states_exact; [exact Hres|done|]. intros ? w2 (states & -> & Hst & Hr). cbn [after]. wp_now. wp_step.
  eexists _, states, _. split; [done|]. split; [reflexivity|done].
Qed.

End AdapterReady.

(** C29: An adapter is published as ready only for a safe, live Pod, read in
    this very pass: in worlds that have every property [I] of the pass's first
    world that the reads keep.  Whatever the API server and the adapter answer, a status with a current Ready was computed
    for a Pod behind a ready endpoint of the adapter's own Service, which was read,
    is the one the endpoint names by UID, runs and is not being deleted; the Pod
    has the one container of the registered image, with none of the host's
    namespaces or paths, without a service account token and unable to gain
    privileges; and the adapter answered a
    fresh health observation that names that very Pod and says it is ready. *)
Theorem adapter_ready_sound `{ApiMeta} {W : Type} `{Clock W} `{Getter W Service} `{Lister W EndpointSlice} `{Getter W SpecifiedPod}
    (Health : option (AdapterHealthChecker W)) adapter w :
  wp (adapter_desiredStatus Health adapter)
    (fun r w' => forall I, adapter_keeps I -> I w -> forall status, r = Ok status ->
       CurrentTrue (ad_Conditions status) ConditionReady (ad_ObservedGeneration status) (Generation (ad_Meta adapter)) = true ->
       adapter_healthy Health I adapter w') w.
Proof.
  apply wp_forall. intros I. do 2 (apply wp_given; intros ?).
  wp_with (adapter_desired Health I); [done..|]. intros ? w1 (status & states & now & -> & Hc & _ & Hr) ? [= <-]. rewrite Hc.
  intros (_ & _ & Ht)%Build_current_true; [|set_solver]. by apply Hr, state_true_spec.
Qed.

(** No status the controller writes is rejected for its conditions. *)
Lemma adapter_never_rejected `{ApiMeta} {W : Type} `{!Clock W, !Getter W WorkloadAdapter} {A : StatusApplier W WorkloadAdapterStatus}
    `{!Getter W Service, !Lister W EndpointSlice, !Getter W SpecifiedPod} (Health : option (AdapterHealthChecker W)) request w :
  adapter_Reconcile (H2 := validating (fun s => Conditions_valid (ad_Conditions s)) A) Health request w =
  adapter_Reconcile Health request w.
Proof.
  unfold adapter_Reconcile, reconcile_object, mbind, io_bind, io_try.
  destruct (k8s_Get request w) as [[adapter|err] w1]; [|done].
  destruct (adapter_desiredStatus Health adapter w1) as [outcome w2] eqn:Ed.
  destruct (wp_elim _ _ _ _ _ (adapter_desired Health (fun _ => True) ltac:(done) adapter w1 Logic.I) Ed) as (status & states & now & -> & Hc & Hst & _).
  case_decide; [done|]. unfold io_wrap. rewrite validating_admitted; [done|]. rewrite Hc.
  apply Build_types_admitted; [by apply (bool_decide_unpack _)|by apply (bool_decide_unpack _)|done|done].
Qed.
