(* ===== verification/StatusContract.v ===== *)
(** * The status contract of the controllers

    Every controller publishes a status through the API server, which checks
    it against the CRD rules of Api.  Here are two properties that several of
    them share: no status is rejected for its conditions, and a class, a route or
    a gateway that carries the status computed from the same observations is not
    written again. *)

From S2P Require Import Prelude Api Conditions Kube Reference ClassController RouteController.
From S2P Require Import GatewayController Reservation BindingController PortRuntime PortAllocation PortResolver LeaseController.
From S2P Require Import PortDelivery AdapterController.

(** The branch that writes is not taken. *)
Ltac no_write :=
  unfold mret, io_ret; cbn beta iota;
  match goal with |- context [@decide ?P ?H] => destruct (@decide P H) as [|Hne]; [done|exfalso; apply Hne] end.

Section Contract.
Context `{ApiMeta} {W : Type} `{!Clock W}.
Context `{!Getter W VPNGatewayClass, !Getter W VPNGateway, !Getter W VPNEgressRoute, !Getter W VPNWorkloadBinding}.
Context `{!Getter W ConfigMap, !Getter W SecretMetadata, !Getter W Lease, !Creator W Lease, !Patcher W Lease, !Deleter W Lease}.
Context `{!Patcher W VPNWorkloadBinding}.
Context `{!Getter W PortForwardLease, !Patcher W PortForwardLease, !Getter W WorkloadAdapter, !Getter W Service, !Lister W EndpointSlice}.
Context `{!Lister W VPNWorkloadBinding, !Getter W Pod, !Getter W SpecifiedPod, !Getter W PortReservation, !Lister W PortReservation}.
Context `{!Creator W PortReservation, !Patcher W PortReservation, !Deleter W PortReservation}.
Context {A1 : StatusApplier W VPNGatewayClassStatus} {A2 : StatusApplier W VPNEgressRouteStatus}.
Context {A3 : StatusApplier W VPNGatewayStatus} {A4 : StatusApplier W VPNWorkloadBindingStatus}.
Context {A5 : StatusUpdater W PortForwardLease PortForwardLeaseStatus} {A6 : StatusApplier W WorkloadAdapterStatus}.
Context (lr : PortForwardLeaseReconciler) (runtime : option (PortRuntime.Runtime W)) (Health : option (AdapterHealthChecker W)).
Context (cr : VPNGatewayClassReconciler) (gr : ReplacementVPNGatewayReconciler) (br : VPNWorkloadBindingReconciler).
Context (authorizer : string -> NamespacedObjectReference -> IO W GatewayResolution).
Context (Runtime : option (VPNGateway -> IO W GatewayRuntimeObservation)).

(** C40: No status is rejected for its conditions.  Each controller behaves in the
    same way whether or not the API server validates what it is sent: the
    conditions of every status that the class, route, gateway, binding, lease and
    adapter controllers write, on every path and for every answer of the server,
    have the types, the reasons, the number and the uniqueness that the rules on
    the condition lists demand.  A route's status also has one parent, and passes
    the rule on the change of the controller name against every stored status
    that only this controller has written.  The rules on the other fields of
    gateways, bindings and leases are not part of this. *)
Theorem conditions_never_rejected stored request w :
  route_status_ours stored = true ->
  class_Reconcile (H1 := validating (fun s => Conditions_valid (gc_Conditions s)) A1) cr request w =
    class_Reconcile cr request w /\
  route_Reconcile (H1 := validating (route_status_admitted stored) A2) authorizer request w =
    route_Reconcile authorizer request w /\
  gateway_Reconcile (H5 := validating gateway_conditions_admitted A3) gr Runtime request w =
    gateway_Reconcile gr Runtime request w /\
  binding_Reconcile (H3 := validating binding_conditions_admitted A4) br request w =
    binding_Reconcile br request w /\
  lease_Reconcile (H3 := validating_update lease_conditions_admitted A5) lr authorizer runtime request w =
    lease_Reconcile lr authorizer runtime request w /\
  adapter_Reconcile (H2 := validating (fun s => Conditions_valid (ad_Conditions s)) A6) Health request w =
    adapter_Reconcile Health request w.
Proof.
  intros Hours. split; [apply class_never_rejected|]. split; [by apply route_never_rejected|]. split; [apply gateway_never_rejected|].
  split; [apply binding_never_rejected|]. split; [apply lease_never_rejected|apply adapter_never_rejected].
Qed.

(** ** Settling

    The class, route or gateway that is read carries the status the controller
    computed for it at some earlier time, and the observations it depends on are
    the ones of that time: then reconciling writes nothing. *)

(** An object with its status replaced. *)
Definition class_with (class : VPNGatewayClass) (status : VPNGatewayClassStatus) : VPNGatewayClass :=
  mkVPNGatewayClass (gc_Meta class) (gc_Spec class) status.
Definition route_with (route : VPNEgressRoute) (status : VPNEgressRouteStatus) : VPNEgressRoute :=
  mkVPNEgressRoute (rt_Meta route) (rt_Spec route) status.

Lemma class_reconcile_settled request class t w w1 :
  k8s_Get request w = (Ok (class_with class (class_desiredStatus cr class t)), w1) ->
  class_Reconcile cr request w = (Ok NoRequeue, w1).
Proof.
  intros Hget. unfold class_Reconcile, reconcile_object, mbind, io_bind, io_try. rewrite Hget.
  destruct (negb _); [done|]. unfold read_clock.
  no_write. symmetry. apply class_settles.
Qed.

Lemma route_reconcile_settled request route parent rest answer t w w1 w2 :
  rt_ParentRefs (rt_Spec route) = parent :: rest ->
  k8s_Get request w = (Ok (route_with route (route_status route parent answer t)), w1) ->
  authorizer (Namespace (rt_Meta route)) (parent_reference parent) w1 = (answer, w2) ->
  route_Reconcile authorizer request w = (Ok NoRequeue, if not_deleting (rt_Meta route) then w2 else w1).
Proof.
  intros Hp Hget Ha. unfold route_Reconcile, reconcile_object, mbind, io_bind, io_try. rewrite Hget.
  cbn [rt_Meta route_with]. destruct (not_deleting (rt_Meta route)); [|done]. cbn [negb].
  unfold route_desiredStatus, mbind, io_bind, io_try. cbn [rt_Meta rt_Spec route_with]. rewrite Hp.
  unfold parent_reference in Ha. rewrite Ha. unfold read_clock.
  no_write. symmetry.
  apply (route_settles route parent answer t).
Qed.

Lemma gateway_reconcile_settled request gateway status {clock : Clock W} w w1 w2 :
  gateway_desiredStatus (H6 := clock) gr Runtime gateway w1 = (Ok status, w2) ->
  (forall reconcile, Runtime = Some reconcile -> reconcile (with_status gateway status) = reconcile gateway) ->
  k8s_Get request w = (Ok (with_status gateway status), w1) ->
  gateway_Reconcile gr Runtime request w = (Ok (mkResult (referenceCheckInterval gr)), w2).
Proof.
  intros Hd Hrt Hget. unfold gateway_Reconcile, reconcile_object, mbind, io_bind, io_try. rewrite Hget.
  rewrite (gateway_settles gr Runtime gateway status w1 w2 Hrt Hd).
  by no_write.
Qed.

End Contract.

(** ** A route that another status is stored for *)

Module ContractSample.

(** The world is the last status that was applied to the route. *)
Definition applied : Type := option VPNEgressRouteStatus.

Definition parent : GatewayParentReference := mkGatewayParentReference GroupName "VPNGateway" "vpn" "gateway".
Definition stored : VPNEgressRouteStatus := mkVPNEgressRouteStatus 1 [] [mkRouteParentStatus parent RouteControllerName []].
Definition route : VPNEgressRoute :=
  mkVPNEgressRoute (mkObjectMeta "media" "vpn" "route-1" 2 None ∅ ∅ [] []) (mkVPNEgressRouteSpec [parent] []) stored.
Definition absent (_ : string) (_ : NamespacedObjectReference) : IO applied GatewayResolution := mret (mkGatewayResolution true None).
Definition request : ObjectKey := mkObjectKey "media" "vpn".

#[local] Existing Instance first_condition.
#[local] Instance applied_clock : Clock applied := fun _ => 1000.
#[local] Instance applied_route : Getter applied VPNEgressRoute := fun _ => mret route.
#[local] Instance applied_apply : StatusApplier applied VPNEgressRouteStatus := fun _ status _ _ => (Ok tt, Some status).

(** Nothing else is there. *)
#[local] Instance no_get {T} : Getter applied T | 10 := fun _ => io_fail (EStatus ReasonNotFound).
#[local] Instance no_list {T} : Lister applied T := fun _ => mret [].
#[local] Instance no_create {T} : Creator applied T := fun object => mret object.
#[local] Instance no_patch {T} : Patcher applied T := fun _ _ => mret tt.
#[local] Instance no_delete {T} : Deleter applied T := fun _ => mret tt.
#[local] Instance no_apply {S} : StatusApplier applied S | 10 := fun _ _ _ => mret tt.
#[local] Instance no_update {T S} : StatusUpdater applied T S := fun _ _ => mret tt.

(** The new status replaces the stored one, with the gateway reported as absent. *)
Lemma conditions_never_rejected_witness :
  exists status, route_Reconcile (H1 := validating (route_status_admitted stored) applied_apply) absent request None = (Ok NoRequeue, Some status) /\
    map rps_ParentRef (rs_Parents status) = [parent] /\ rs_ObservedGeneration status = 2 /\ status <> stored.
Proof.
  destruct (conditions_never_rejected (mkPortForwardLeaseReconciler 0 0) None None (mkVPNGatewayClassReconciler "" (mkReleaseIdentity "" "") "" [])
    (mkReplacementVPNGatewayReconciler "" (mkReleaseIdentity "" "") "" [] [] [] 0) (mkVPNWorkloadBindingReconciler 0 0) absent None stored request
    None eq_refl) as (_ & Hroute & _).
  rewrite Hroute. eexists. split; [vm_compute; reflexivity|]. done.
Defined.

End ContractSample.
