(* ===== verification/PortPath.v ===== *)
(** * The port-forward path from the lease to the gateway's rules

    The lease controller (LeaseController), the runtime protocol (PortTransport)
    and the runtime manager of a gateway (PortManager) put together: the
    controller works on the API server and talks over a network that loses
    messages to a gateway process with its own state, clock and rule backend.
    What the controller publishes is related to the rules the gateway holds. *)

From Stdlib Require Import Ascii.
From S2P Require Import Prelude Netip Api Conditions Kube Reference Http PortRuntime PortManager PortTransport.
From S2P Require Import PortAllocation PortResolver LeaseController.

(** ** Two worlds side by side *)

Definition on_first {A B X} (m : IO A X) : IO (A * B) X := fun ab => let '(r, a) := m ab.1 in (r, (a, ab.2)).

Lemma keeps_first {A B X} (P : B -> Prop) (m : IO A X) : keeps (fun ab : A * B => P ab.2) (on_first m).
Proof. intros [a b] Hb. unfold on_first. cbn in *. by destruct (m a). Qed.

Lemma keeps_second {A B X} (P : B -> Prop) (m : IO B X) : keeps P m -> keeps (fun ab : A * B => P ab.2) (on_world m).
Proof. apply keeps_on_world. Qed.

Lemma on_world_ok {A B X} (m : IO B X) (ab ab' : A * B) x :
  on_world m ab = (Ok x, ab') -> m ab.2 = (Ok x, ab'.2).
Proof. unfold on_world. destruct (m ab.2) as [r b']. by intros [= -> <-]. Qed.

(** The clients of an API server, next to something else. *)
Section Beside.
Context {A B : Type}.
#[local] Instance beside_Getter {T} `{Getter A T} : Getter (A * B) T := fun key => on_first (k8s_Get key).
#[local] Instance beside_Lister {T} `{Lister A T} : Lister (A * B) T := fun option => on_first (k8s_List option).
#[local] Instance beside_Creator {T} `{Creator A T} : Creator (A * B) T := fun object => on_first (k8s_Create object).
#[local] Instance beside_Patcher {T} `{Patcher A T} : Patcher (A * B) T := fun before after => on_first (k8s_Patch before after).
#[local] Instance beside_Deleter {T} `{Deleter A T} : Deleter (A * B) T := fun object => on_first (k8s_Delete object).
#[local] Instance beside_StatusUpdater {T S} `{StatusUpdater A T S} : StatusUpdater (A * B) T S :=
  fun object status => on_first (k8s_UpdateStatus object status).
#[local] Instance beside_Clock `{Clock A} : Clock (A * B) := fun ab => clock_now ab.1.
End Beside.

#[local] Existing Instances beside_Getter beside_Lister beside_Creator beside_Patcher beside_Deleter beside_StatusUpdater beside_Clock.

(** ** The system *)

Section System.
Context `{ApiMeta} {A : Type} `{!Clock A}.
Context `{!Getter A PortForwardLease} `{!Patcher A PortForwardLease} `{!StatusUpdater A PortForwardLease PortForwardLeaseStatus}.
Context `{!Getter A VPNGateway} `{!Getter A WorkloadAdapter}.
Context `{!Getter A Service} `{!Lister A EndpointSlice} `{!Lister A VPNWorkloadBinding} `{!Getter A Pod}.
Context `{!Getter A PortReservation} `{!Lister A PortReservation} `{!Creator A PortReservation}.
Context `{!Patcher A PortReservation} `{!Deleter A PortReservation}.
Context {G : Type} `{!PortForwardCapability G} `{!RuleBackend G} `{!DeliveryBackend G} `{!Clock G}.
Context {installs : G -> list GatewayRule -> Prop} `{!GatewayRules G installs} `{!NoRuleAccess G installs}.
Context `{!Json Intent} `{!JsonLaws Intent} `{!Json WithdrawalIntent} `{!JsonLaws WithdrawalIntent} `{!Json Observation} `{!JsonLaws Observation}.
Context (h : RuntimeHandler) (host : string) `{!HttpClient (lease_states * G)}.
Hypothesis network_lossy : lossy h host.
Context (r : PortForwardLeaseReconciler) (router : RuntimeRouter).
Context (authorize : string -> NamespacedObjectReference -> IO A GatewayResolution).

Notation W := (A * (lease_states * G))%type.

Definition authorizer (namespace : string) (ref : NamespacedObjectReference) : IO W GatewayResolution :=
  on_first (authorize namespace ref).

(** The controller's runtime is the router, over the network. *)
Definition system_runtime : Runtime W := {|
  rt_Reconcile gateway intent := on_world (rt_Reconcile (Runtime := RuntimeRouter_Runtime router) gateway intent);
  rt_Withdraw gateway intent := on_world (rt_Withdraw (Runtime := RuntimeRouter_Runtime router) gateway intent);
  rt_Quarantine gateway intent until := on_world (rt_Quarantine (Runtime := RuntimeRouter_Runtime router) gateway intent until)
|}.

Definition gateway_inv (w : W) : Prop := manager_inv (installs := installs) w.2.

(** One pass of the controller, anything the clients of the API server do, and
    anything that happens at the gateway. *)
Inductive system_step : W -> W -> Prop :=
| step_lease request outcome w w' :
    lease_Reconcile r authorizer (Some system_runtime) request w = (outcome, w') -> system_step w w'
| step_api a a' sg : system_step (a, sg) (a', sg)
| step_gateway a sg sg' : manager_step (installs := installs) sg sg' -> system_step (a, sg) (a, sg').

(** ** What the controller's own work leaves alone *)

(** What the controller reads, and the reservations it writes, keep of the API
    server. *)
Record api_keeps (K : A -> Prop) : Prop := {
  ak_authorize namespace ref : keeps K (authorize namespace ref);
  ak_adapter key : keeps K (k8s_Get (T := WorkloadAdapter) key);
  ak_service key : keeps K (k8s_Get (T := Service) key);
  ak_slices options : keeps K (k8s_List (T := EndpointSlice) options);
  ak_bindings options : keeps K (k8s_List (T := VPNWorkloadBinding) options);
  ak_pod key : keeps K (k8s_Get (T := Pod) key);
  ak_reservation key : keeps K (k8s_Get (T := PortReservation) key);
  ak_reservations options : keeps K (k8s_List (T := PortReservation) options);
  ak_create object : keeps K (k8s_Create (T := PortReservation) object);
  ak_patch before after : keeps K (k8s_Patch (T := PortReservation) before after);
  ak_delete object : keeps K (k8s_Delete (T := PortReservation) object)
}.

Definition within (K : A -> Prop) (w : W) : Prop := K w.1 /\ gateway_inv w.

Lemma keeps_within {X} (K : A -> Prop) (m : IO A X) : keeps K m -> keeps (within K) (on_first m).
Proof. intros Hm [a sg] [Ha Hg]. specialize (Hm a Ha). unfold on_first, within, gateway_inv in *. cbn in *. by destruct (m a). Qed.

Section Within.
Context (K : A -> Prop) (kept : api_keeps K).

Ltac within_down := repeat (keeps_down; first [apply keeps_within; first [apply kept|destruct kept; done] | apply keeps_clock | apply keeps_IgnoreNotFound | done | idtac]).

Lemma scan_keeps lease gateway now occupied listed : keeps (within K) (scan_reservations lease gateway now occupied listed).
Proof. revert occupied. induction listed as [|x listed IH]; intros occupied; cbn [scan_reservations]; within_down. Qed.

Lemma claim_keeps lease gateway now occupied start remaining offset :
  keeps (within K) (claim_port lease gateway now occupied start remaining offset).
Proof. revert offset. induction remaining as [|remaining IH]; intros offset; cbn [claim_port]; within_down. Qed.

Lemma reserve_keeps lease gateway : keeps (within K) (Reserve lease gateway).
Proof. unfold Reserve. within_down; [apply scan_keeps|apply claim_keeps]. Qed.

Lemma lease_keeps_within : lease_keeps authorizer (within K).
Proof.
  split; [| |intros; apply keeps_within, kept|intros; apply reserve_keeps]; [intros; apply keeps_within, kept|].
  split; intros; apply keeps_within, kept.
Qed.
End Within.

Lemma api_keeps_any : api_keeps (fun _ => True).
Proof. done. Qed.

Lemma keeps_any {X} (m : IO W X) : keeps (within (fun _ => True)) m -> keeps gateway_inv m.
Proof. intros Hm w Hw. by destruct (Hm w (conj Logic.I Hw)). Qed.

Lemma keeps_api {X} (m : IO A X) : keeps gateway_inv (on_first m).
Proof. apply (keeps_first (manager_inv (installs := installs))). Qed.

Ltac kept := repeat (keeps_down; first [apply keeps_api | apply keeps_clock | apply keeps_IgnoreNotFound | done | idtac]).

Lemma evaluate_keeps lease : keeps gateway_inv (evaluate authorizer lease).
Proof.
  apply keeps_any. intros w Hw. pose proof (evaluate_spec _ _ (lease_keeps_within _ api_keeps_any) lease w Hw) as He.
  unfold wp in He. by destruct (evaluate authorizer lease w), He.
Qed.

Lemma runtime_keeps gateway :
  (forall intent, keeps gateway_inv (rt_Reconcile (Runtime := system_runtime) gateway intent)) /\
  (forall intent, keeps gateway_inv (rt_Withdraw (Runtime := system_runtime) gateway intent)).
Proof.
  destruct (router_keeps (installs := installs) h host router gateway network_lossy) as [Hr Hw].
  split; intros intent; apply (keeps_second (manager_inv (installs := installs))); [apply Hr|apply Hw].
Qed.

Lemma pass_keeps request : keeps gateway_inv (lease_Reconcile r authorizer (Some system_runtime) request).
Proof.
  assert (forall gateway intent, keeps gateway_inv (rt_Reconcile (Runtime := system_runtime) gateway intent)) as Hr
    by (intros; apply runtime_keeps).
  assert (forall gateway intent, keeps gateway_inv (rt_Withdraw (Runtime := system_runtime) gateway intent)) as Hw
    by (intros; apply runtime_keeps).
  assert (forall gateway intent until, keeps gateway_inv (rt_Quarantine (Runtime := system_runtime) gateway intent until)) as Hq.
  { intros. apply (keeps_second (manager_inv (installs := installs))). by intros sw. }
  unfold lease_Reconcile, reconcile_object. kept.
  - unfold cleanup, Recover, release_confirmed, PortAllocation.Quarantine. kept.
  - apply evaluate_keeps.
  - unfold runtimeStatus, drainStatus, programStatus, finish. kept; apply keeps_any, reserve_keeps, api_keeps_any.
  - unfold applyStatus. kept.
Qed.

Lemma system_reachable w w' : gateway_inv w -> rtc system_step w w' -> gateway_inv w'.
Proof.
  intros Hw Hsteps. induction Hsteps as [|w1 w2 w3 Hstep _ IH]; [done|]. apply IH. destruct Hstep as [request outcome w w' E|a a' sg|a sg sg' Hg].
  - pose proof (pass_keeps request w Hw) as Hp. by rewrite E in Hp.
  - done.
  - unfold gateway_inv in *. cbn in *. by eapply manager_step_inv.
Qed.

(** ** From the status to the rules *)

Definition pass_status (lease : PortForwardLease) : IO W (PortForwardLeaseStatus * duration) :=
  desired_status authorizer r (Some system_runtime) lease.

(** The gateway's one rule for the lease leads from the published port to the
    selected Pod. *)
Definition forwards_to (lease : PortForwardLease) (selected : Candidate) (status : PortForwardLeaseStatus) (sg : lease_states * G) : Prop :=
  exists s rs, sg.1 !! UID (pl_Meta lease) = Some s /\ installs sg.2 rs /\ ruleFor s ∈ rs /\
    (forall rule, rule ∈ rs -> gr_LeaseUID rule = UID (pl_Meta lease) -> rule = ruleFor s) /\
    gr_LeaseUID (ruleFor s) = UID (pl_Meta lease) /\
    gr_HandoffGeneration (ruleFor s) = pls_HandoffGeneration status /\
    gr_OverlayAddress (ruleFor s) = Addr_String (cd_OverlayAddress selected) /\
    gr_Protocols (ruleFor s) = pl_Protocols (pl_Spec lease) /\
    exists address expires, pls_Provider status = Some (mkProviderMappingStatus address (gr_IngressPort (ruleFor s)) expires).

(** C3: A ready lease forwards to its Pod.  In every state that the controller,
    the other clients of the API server, the gateway and a network that loses
    messages can reach, a pass that finds a lease ready has selected an exact,
    eligible backend at an authorized, ready gateway and publishes its Pod as the
    active endpoint, each read in a world that keeps whatever reading and
    reserving keep of the API server; and if that gateway is the one modelled here, its rules hold
    at that moment exactly one rule for the lease, of the published generation,
    from the published public port to the overlay address of that Pod. *)
Theorem ready_lease_forwards w0 w lease :
  gateway_inv w0 -> rtc system_step w0 w ->
  wp (pass_status lease) (fun outcome w' => forall K, api_keeps K -> K w.1 -> forall status again, outcome = Ok (status, again) ->
    CurrentTrue (pls_Conditions status) ConditionReady (pls_ObservedGeneration status) (Generation (pl_Meta lease)) = true ->
    exists gateway selected,
      servable authorizer (within K) lease gateway true selected /\
      pls_ActiveEndpoint status = Some (endpointFor selected EndpointPhaseActive) /\
      (connected h host router (gw_Meta gateway) -> forwards_to lease selected status w'.2)) w.
Proof.
  intros H0 Hsteps. pose proof (system_reachable _ _ H0 Hsteps) as Hw.
  apply wp_forall. intros K. do 2 (apply wp_given; intros ?).
  wp_with (desired_outcome authorizer (within K) (lease_keeps_within K ltac:(done))); [done|].
  intros ? w' (status & again & -> & states & Hg & Hc & _ & Hready & _) ?? [= <- <-]. rewrite Hc.
  intros (_ & _ & Ht)%Build_current_true; [|set_solver]. apply state_true_spec in Ht.
  destruct (Hready Ht) as (R & gateway & selected & current & mode & port & observation & mapping & HR & Hserve & _ & _ & _ & _ &
    (w1 & [_ Hw1] & Hcall) & _ & Hmapping & _ & Hrules & _ & _ & Hgen & Hendpoint & Hprovider).
  injection HR as <-. exists gateway, selected. split; [done|]. split; [done|]. intros Hconnected.
  apply on_world_ok in Hcall. eapply router_Reconcile_answered in Hcall; [|done|done].
  destruct w1 as [a1 [st g]]. destruct (wp_elim _ _ _ _ _ (Reconcile_spec _ _ st g Hw1) Hcall) as (obs & err & [= <- <-] & Hrec).
  destruct (rec_ready _ _ _ _ Hrec Hrules) as (s & rs & Hs & Hintent & _ & _ & _ & Hmap & Hinst & Hnodup & Hin).
  exists s, rs. rewrite Hmap in Hmapping. injection Hmapping as <-.
  split; [done|]. split; [done|]. split; [done|]. split; [intros rule Hr Hu; eapply same_lease_rule; [done..|]; cbn; by rewrite Hu, Hintent|].
  unfold ruleFor. cbn. rewrite Hintent, Hgen. cbn. split_and!; eauto.
Qed.

(** C13: An endpoint is given up only after its rules.  In every state that the
    system can reach, a pass that raises the handoff generation or comes to name
    another Pod or none, for a lease that names one, does so at a moment when the
    gateway that confirmed the withdrawal holds no rule of the lease; what its
    manager still keeps of the lease is drained. *)
Theorem moved_lease_drained w0 w lease :
  gateway_inv w0 -> rtc system_step w0 w ->
  wp (pass_status lease) (fun outcome w' => forall K, api_keeps K -> K w.1 -> forall status again, outcome = Ok (status, again) ->
    let pod (s : PortForwardLeaseStatus) := ae_PodUID <$> pls_ActiveEndpoint s in
    is_Some (pod (pl_Status lease)) ->
    pls_HandoffGeneration status <> pls_HandoffGeneration (pl_Status lease) \/ pod status <> pod (pl_Status lease) ->
    exists gateway, authorized authorizer (within K) lease gateway /\
      (connected h host router (gw_Meta gateway) ->
       (exists rs, installs w'.2.2 rs /\ ~ rules_of (UID (pl_Meta lease)) rs) /\
       forall s, w'.2.1 !! UID (pl_Meta lease) = Some s -> rs_drained s = true)) w.
Proof.
  intros H0 Hsteps. pose proof (system_reachable _ _ H0 Hsteps) as Hw.
  apply wp_forall. intros K. do 2 (apply wp_given; intros ?).
  wp_with (desired_outcome authorizer (within K) (lease_keeps_within K ltac:(done))); [done|].
  intros ? w' (status & again & -> & states & _ & _ & _ & _ & (_ & _ & Hmoved) & _) ?? [= <- <-] pod Hsome Hdiff.
  destruct (Hmoved Hsome Hdiff) as (R & gateway & withdrawal & observation & w1 & HR & Ha & [_ Hw1] & Hcall & Huid & Hdone & _).
  injection HR as <-. exists gateway. split; [done|]. intros Hconnected.
  apply on_world_ok in Hcall. eapply router_Withdraw_answered in Hcall; [|done|done].
  destruct w1 as [a1 [st g]]. destruct (wp_elim _ _ _ _ _ (Withdraw_spec _ _ st g Hw1) Hcall) as (obs & err & [= <- <-] & Hrec).
  destruct (wd_done _ _ _ _ Hrec Hdone) as (_ & _ & Hrules & Hstates). rewrite Huid in Hrules, Hstates.
  split; [done|]. intros s Hs. by apply Hstates.
Qed.

End System.

(** ** A lease that becomes ready, and one that loses its backend *)

Module PathSample.

Import ManagerSample TransportSample.

#[local] Existing Instance first_condition.

Definition meta (namespace name uid : string) : ObjectMeta :=
  mkObjectMeta namespace name uid 1 None ∅ ∅ [ProviderCleanupFinalizer] [].
Definition all_true (types : list string) : list Condition := map (fun t => mkCondition t ConditionTrue t "" 1 0) types.

Definition vpn : VPNGateway :=
  mkVPNGateway gateway
    (mkVPNGatewaySpec "class" [] [] [] (mkAllowedRoutes (mkRouteNamespaces RouteNamespaceAll None))
       (mkClusterTraffic ClusterTrafficTunnelAll []) DNSModeGateway (mkGatewayPlacement ∅ []))
    (mkVPNGatewayStatus 1 None [FeaturePortForwardSingleActive] [] (all_true [ConditionAccepted; ConditionReady])).

Definition lease_at (generation : Z) (podUID : string) (phase : EndpointHandoffPhase) : PortForwardLease :=
  mkPortForwardLease (meta "media" "torrent" "lease-1")
    (mkPortForwardLeaseSpec (mkNamespacedObjectReference "vpn" "gateway") (mkServiceBackendReference "" "Service" "torrent" (IntVal 8080))
       [ProtocolTCP] EndpointPolicySingleActive None)
    (mkPortForwardLeaseStatus 1 (Some (mkActiveLeaseEndpoint "service-uid" "slice-uid" podUID phase)) None generation []).
Definition lease : PortForwardLease := lease_at 1 "pod-uid" EndpointPhaseSelecting.

Definition service : Service := mkService (meta "media" "torrent" "service-uid") "ClusterIP" [mkServicePort "" ProtocolTCP 8080 (IntVal 8080)].
Definition pod : Pod :=
  mkPod (mkObjectMeta "media" "torrent-0" "pod-uid" 1 None {[EnrollmentLabel := "route"]} ∅ [] []) "node" PodRunning "10.0.0.9".
Definition slice : EndpointSlice :=
  mkEndpointSlice (mkObjectMeta "media" "torrent-slice" "slice-uid" 1 None ∅ ∅ [] [mkOwnerReference "v1" "Service" "torrent" "service-uid" (Some true)])
    AddressTypeIPv4 [mkEndpointPort None None (Some 8080)]
    [mkEndpoint ["10.0.0.9"] (Some true) None None (Some (mkObjectReference "Pod" "media" "torrent-0" "pod-uid"))].
Definition binding : VPNWorkloadBinding :=
  mkVPNWorkloadBinding (meta "media" "torrent-0" "binding-uid")
    (mkVPNWorkloadBindingSpec (mkLocalUIDReference "torrent-0" "pod-uid") (mkLocalUIDReference "route" "route-uid")
       (mkNamespacedUIDReference "vpn" "gateway" "gateway-uid") "node" (mkWorkloadAllocation "id" "10.10.0.2/32")
       (mkWorkloadNetworkIntent 1 "10.10.0.0/24" "10.10.0.1" "192.0.2.1:4789" 8080 77 1400 (mkClusterTraffic ClusterTrafficTunnelAll [])))
    (mkVPNWorkloadBindingStatus 1 1 "pod-uid" "gateway-uid" None (all_true [ConditionProgrammed; ConditionReady; ConditionNodeReady])).

(** The API server: whether the Service has endpoints. *)
#[local] Instance api_clock : Clock bool := fun _ => 1700000001 * Second.
#[local] Instance get_vpn : Getter bool VPNGateway := fun _ => mret vpn.
#[local] Instance get_adapter : Getter bool WorkloadAdapter := fun _ => io_fail (EStatus ReasonNotFound).
#[local] Instance get_service : Getter bool Service := fun _ => mret service.
#[local] Instance list_slices : Lister bool EndpointSlice := fun _ has => (Ok (if has then [slice] else []), has).
#[local] Instance list_bindings : Lister bool VPNWorkloadBinding := fun _ => mret [binding].
#[local] Instance get_pod : Getter bool Pod := fun _ => mret pod.
#[local] Instance get_reservation : Getter bool PortReservation := fun _ => io_fail (EStatus ReasonNotFound).
#[local] Instance list_reservations : Lister bool PortReservation :=
  fun _ => mret [desiredProviderReservation (pl_Meta lease) gateway 50000 0].
#[local] Instance create_reservation : Creator bool PortReservation := fun x => mret x.
#[local] Instance patch_reservation : Patcher bool PortReservation := fun _ _ => mret tt.
#[local] Instance delete_reservation : Deleter bool PortReservation := fun _ => mret tt.
#[local] Instance get_lease : Getter bool PortForwardLease := fun _ => mret lease.
#[local] Instance patch_lease : Patcher bool PortForwardLease := fun _ _ => mret tt.
#[local] Instance update_lease : StatusUpdater bool PortForwardLease PortForwardLeaseStatus := fun _ _ => mret tt.

Definition permit (_ : string) (_ : NamespacedObjectReference) : IO bool GatewayResolution := mret (mkGatewayResolution true (Some vpn)).
Definition reconciler : PortForwardLeaseReconciler := mkPortForwardLeaseReconciler 0 0.

Definition asked : Intent := with_provider_port 50000 (IntentFor lease gateway
  (mkCandidate "service-uid" "slice-uid" "torrent-0" "pod-uid" "torrent-0" "binding-uid" (Addr4 168427522) (Addr4 167772169) 8080) 1).
Definition withdrawn : WithdrawalIntent := wi_with_port 50000 (WithdrawalFor lease gateway).
Definition answered : Observation := (seen (Reconcile (gateway_with_uid "gateway-uid") asked) (fresh false true)).1.
Definition retired : Observation := (seen (Withdraw (gateway_with_uid "gateway-uid") withdrawn) served).1.

#[local] Instance intents : Json Intent := known_messages [asked].
#[local] Instance withdrawals : Json WithdrawalIntent := known_messages [withdrawn].
#[local] Instance observations : Json Observation := known_messages [answered; retired].
#[local] Instance wire : HttpClient (lease_states * World) := network handler origin.

Definition pass (w : bool * (lease_states * World)) := pass_status reconciler router permit lease w.
Definition published (w : bool * (lease_states * World)) : PortForwardLeaseStatus :=
  match (pass w).1 with Ok s => s.1 | Fail _ => pl_Status lease end.
Definition again (w : bool * (lease_states * World)) : duration := match (pass w).1 with Ok s => s.2 | Fail _ => 0 end.
Definition after_pass (w : bool * (lease_states * World)) : bool * (lease_states * World) := (pass w).2.

Lemma pass_seen w : res_ok (pass w).1 = true -> pass w = (Ok (published w, again w), after_pass w).
Proof. unfold published, again, after_pass. destruct (pass w) as [[[status soon]|e] w']; [done|discriminate]. Qed.

Lemma wire_lossy : lossy handler origin.
Proof. intros request sw. unfold http_Do, wire, network, delivered_to. destruct (String.eqb _ _); [by left|done]. Qed.

Lemma only_vpn I g : authorized (authorizer permit (G := World)) I lease g -> g = vpn.
Proof. intros ([a sg] & w' & _ & E). cbn in E. by injection E. Qed.

Lemma wire_connected : connected handler origin router (gw_Meta vpn).
Proof. split; [exact router_origin|reflexivity|reflexivity]. Qed.

Definition ready_before : bool * (lease_states * World) := (true, fresh false true).
Definition lost_before : bool * (lease_states * World) := (false, served).

Lemma ready_before_ok : res_ok (pass ready_before).1 = true.
Proof. vm_compute. reflexivity. Qed.
Lemma lost_before_ok : res_ok (pass lost_before).1 = true.
Proof. vm_compute. reflexivity. Qed.
Lemma ready_published :
  CurrentTrue (pls_Conditions (published ready_before)) ConditionReady (pls_ObservedGeneration (published ready_before)) 1 = true.
Proof. vm_compute. reflexivity. Qed.
Lemma lost_published : pls_ActiveEndpoint (published lost_before) = None.
Proof. vm_compute. reflexivity. Qed.

Lemma ready_lease_forwards_witness :
  exists selected, pls_ActiveEndpoint (published ready_before) = Some (endpointFor selected EndpointPhaseActive) /\
    forwards_to (installs := table_is) lease selected (published ready_before) (after_pass ready_before).2.
Proof.
  assert (gateway_inv (installs := table_is) ready_before) as Hinv by (apply manager_start_inv, fresh_start).
  destruct (wp_elim _ _ _ _ _ (ready_lease_forwards (installs := table_is) (JsonLaws0 := known_messages_laws _)
    (JsonLaws1 := known_messages_laws _) (JsonLaws2 := known_messages_laws _)
    handler origin wire_lossy reconciler router permit ready_before ready_before lease Hinv (rtc_refl _ _))
    (pass_seen ready_before ready_before_ok) (fun _ => True) (api_keeps_any permit) Logic.I _ _ eq_refl ready_published) as (g & selected & Hserve & Hendpoint & Hforwards).
  exists selected. split; [exact Hendpoint|]. apply Hforwards. destruct Hserve as [Ha _ _ _ _]. rewrite (only_vpn _ g Ha). exact wire_connected.
Defined.

Lemma moved_lease_drained_witness :
  exists rs, table_is (after_pass lost_before).2.2 rs /\ ~ rules_of "lease-1" rs.
Proof.
  assert (gateway_inv (installs := table_is) lost_before) as Hinv.
  { apply (manager_reachable_inv (fresh false true)); [apply fresh_start|exact served_reachable]. }
  destruct (wp_elim _ _ _ _ _ (moved_lease_drained (installs := table_is)
    (JsonLaws1 := known_messages_laws _) (JsonLaws2 := known_messages_laws _)
    handler origin wire_lossy reconciler router permit lost_before lost_before lease Hinv (rtc_refl _ _))
    (pass_seen lost_before lost_before_ok) (fun _ => True) (api_keeps_any permit) Logic.I _ _ eq_refl) as (g & Ha & Hdrained).
  - by eexists.
  - right. rewrite lost_published. done.
  - apply Hdrained. rewrite (only_vpn _ g Ha). exact wire_connected.
Defined.

(** A handoff that is interrupted between the status and the gateway.  The lease
    moves from an old Pod: the old generation is withdrawn and the status names
    generation 2.  Before the gateway accepts generation 2 the Service loses its
    endpoint.  From then on every pass asks to withdraw generation 2, which the
    manager, still holding generation 1, refuses, whether or not the endpoint is
    back: the lease stays in the draining phase. *)
Definition old_served : lease_states * World :=
  call (Reconcile gateway (mkIntent RuntimeAPIVersion "media" "lease-1" "gateway-uid" 1 "service-uid" "slice-uid" "old-pod"
    "binding-uid" 50000 0 (Addr4 168427522) (Addr4 168427522) 8080 8080 [ProtocolTCP] "" ApplicationPortFixed)) (fresh false true).

Definition old_withdrawal : WithdrawalIntent :=
  wi_with_retired true (wi_with_port 50000 (WithdrawalFor (lease_at 1 "old-pod" EndpointPhaseActive) gateway)).
Definition new_withdrawal : WithdrawalIntent :=
  wi_with_port 50000 (WithdrawalFor (lease_at 2 "pod-uid" EndpointPhaseSelecting) gateway).
Definition old_retired : Observation := (seen (Withdraw (gateway_with_uid "gateway-uid") old_withdrawal) old_served).1.

Definition handoff_pass (current : PortForwardLease) (w : bool * (lease_states * World)) :
    option (Z * option ActiveLeaseEndpoint) * (lease_states * World) :=
  let '(outcome, w') :=
    pass_status (Json0 := known_messages []) (Json1 := known_messages [old_withdrawal; new_withdrawal]) (Json2 := known_messages [old_retired])
      (HttpClient0 := network (H3 := known_messages []) (H5 := known_messages [old_withdrawal; new_withdrawal])
         (H7 := known_messages [old_retired]) handler origin)
      reconciler router permit current w in
  (match outcome with Ok s => Some (pls_HandoffGeneration s.1, pls_ActiveEndpoint s.1) | Fail _ => None end, w'.2).

Definition endpoint_in (phase : EndpointHandoffPhase) : ActiveLeaseEndpoint :=
  mkActiveLeaseEndpoint "service-uid" "slice-uid" "pod-uid" phase.

Lemma interrupted_handoff :
  let moved := handoff_pass (lease_at 1 "old-pod" EndpointPhaseActive) (true, old_served) in
  let lost := handoff_pass (lease_at 2 "pod-uid" EndpointPhaseSelecting) (false, moved.2) in
  moved.1 = Some (2, Some (endpoint_in EndpointPhaseSelecting)) /\
  lost.1 = Some (2, Some (endpoint_in EndpointPhaseDraining)) /\
  forall has, (handoff_pass (lease_at 2 "pod-uid" EndpointPhaseDraining) (has, lost.2)).1 = lost.1 /\
    (handoff_pass (lease_at 2 "pod-uid" EndpointPhaseDraining) (has, lost.2)).2.1 !! "lease-1" = lost.2.1 !! "lease-1".
Proof.
  split; [vm_compute; reflexivity|]. split; [vm_compute; reflexivity|].
  intros has. split; destruct has; vm_compute; reflexivity.
Qed.

End PathSample.
