(* ===== verification/Release.v ===== *)
(** * Exact releases (internal/waycloakctl/lifecycle.go, plan.go, install_layout.go)

    What a release is, what of it is installed, and the exact checkpoints that
    a release transition passes through.  The objects are those of the API
    server, as far as the source reads them; [encoding/json] is a parameter, and
    so are certificates.  A nil map and an empty one are the same here: where
    two maps are compared neither is empty. *)

From Stdlib Require Import Ascii.
From S2P Require Import Prelude Sha256 Netip Api Kube CniInstall.

(** ** Releases and plans *)

Record Artifact := mkArtifact { af_Repository : string; af_Digest : string }.
Record ReleaseSupportRow := mkReleaseSupportRow {
  rr_ID : string;
  rr_Kubernetes : string;
  rr_Distribution : string;
  rr_CNI : string;
  rr_Runtime : string;
  rr_Kernel : string;
  rr_Architecture : string;
  rr_Engine : string;
  rr_ProviderConfiguration : string;
  rr_Features : list string;
  rr_EvidenceSuites : list string
}.
Record ReleaseManifest := mkReleaseManifest {
  rm_APIVersion : string;
  rm_Version : string;
  rm_ManifestDigest : string;
  rm_Chart : Artifact;
  rm_KCL : option Artifact;
  rm_Images : gmap string Artifact;
  rm_Profiles : list string;
  rm_SupportMatrix : option (list ReleaseSupportRow)
}.

#[global] Instance Artifact_eq_dec : EqDecision Artifact.
Proof. solve_decision. Defined.
#[global] Instance ReleaseSupportRow_eq_dec : EqDecision ReleaseSupportRow.
Proof. solve_decision. Defined.
#[global] Instance ReleaseManifest_eq_dec : EqDecision ReleaseManifest.
Proof. solve_decision. Defined.

(** The exact reference of an image; an absent one is the zero artifact. *)
Definition artifact_ref (a : Artifact) : string := af_Repository a +:+ "@" +:+ af_Digest a.
Definition image_of (manifest : ReleaseManifest) (name : string) : Artifact :=
  default (mkArtifact "" "") (rm_Images manifest !! name).

Record NodeInstallLayout := mkNodeInstallLayout {
  nl_ConfigPath : string;
  nl_BinaryPath : string;
  nl_ReceiptPath : string;
  nl_SourceConfigPath : string;
  nl_InstallerNodeSelector : gmap string string;
  nl_AgentNodeSelector : gmap string string
}.
#[global] Instance NodeInstallLayout_eq_dec : EqDecision NodeInstallLayout.
Proof. solve_decision. Defined.

Definition installStateAbsent : string := "Absent".
Definition installStateDeployed : string := "Deployed".
Definition installReleaseOwnerKey : string := "install.waycloak.io/release".
Definition installInitialPlanKey : string := "install.waycloak.io/initial-plan-id".
Definition installTransitionPlanKey : string := "install.waycloak.io/transition-plan-id".
Definition observationRotationKey : string := "install.waycloak.io/observation-rotation-id".
Definition initialObservationRotation : string := "initial".

Definition installRuntimeImageNames : list string :=
  ["replacement-controller"; "waycloak-cni"; "waycloak-node-agent"; "waycloak-gateway-agent"; "gluetun"; "pause"].
Definition stateCRDNames : list string :=
  ["portforwardleases.networking.waycloak.io"; "vpnegressroutes.networking.waycloak.io"; "vpngatewayclasses.networking.waycloak.io";
   "vpngateways.networking.waycloak.io"; "vpnworkloadbindings.networking.waycloak.io"; "workloadadapters.networking.waycloak.io"].

Record InstalledReleaseObservation := mkInstalledReleaseObservation {
  rel_NodeLayout : option NodeInstallLayout;
  rel_State : string;
  rel_ObservationDigest : string;
  rel_HelmRevision : Z;
  rel_Version : string;
  rel_ManifestDigest : string;
  rel_Images : gmap string string;
  rel_GatewayClassUID : string;
  rel_GatewayClassGeneration : Z;
  rel_ObservationCAUID : string;
  rel_ObservationTLSUID : string;
  rel_ObservationCADigest : string;
  rel_ObservationServingDigest : string;
  rel_ObservationRotationID : string;
  rel_CRDIdentities : gmap string string
}.
#[global] Instance InstalledReleaseObservation_eq_dec : EqDecision InstalledReleaseObservation.
Proof. solve_decision. Defined.

Record PortForwardInstallIdentity := mkPortForwardInstallIdentity {
  pfi_ControllerTLSSecret : string;
  pfi_SecretUID : string;
  pfi_CADigest : string;
  pfi_CertificateDigest : string;
  pfi_AdapterProtocolEnabled : bool
}.
#[global] Instance PortForwardInstallIdentity_eq_dec : EqDecision PortForwardInstallIdentity.
Proof. solve_decision. Defined.

(** Without the texts that are only shown to the operator. *)
Record InstallPlan := mkInstallPlan {
  ip_PlanID : string;
  ip_Operation : string;
  ip_Source : InstalledReleaseObservation;
  ip_TargetCRDs : gmap string string;
  ip_PreflightDigest : string;
  ip_OverlayCIDR : string;
  ip_NodeArchitecture : string;
  ip_InstallSequence : string;
  ip_Namespace : string;
  ip_Release : string;
  ip_Manifest : string;
  ip_Target : ReleaseManifest;
  ip_Chart : Artifact;
  ip_Values : string;
  ip_PortForwarding : option PortForwardInstallIdentity
}.
#[global] Instance InstallPlan_eq_dec : EqDecision InstallPlan.
Proof. solve_decision. Defined.

Record deployedReleaseComponents := mkComponents {
  dc_NodeLayout : option NodeInstallLayout;
  dc_HelmRevision : Z;
  dc_ControllerVersion : string;
  dc_ControllerManifest : string;
  dc_ControllerTransitionPlanID : string;
  dc_ControllerTransitionSourceVersion : string;
  dc_ControllerTransitionSourceManifest : string;
  dc_CNIVersion : string;
  dc_CNIManifest : string;
  dc_NodeAgentVersion : string;
  dc_NodeAgentManifest : string;
  dc_Class : option VPNGatewayClass;      (** [ClassPresent] and the fields read from it *)
  dc_Images : gmap string string;
  dc_ObservationCAUID : string;
  dc_ObservationTLSUID : string;
  dc_ObservationCADigest : string;
  dc_ObservationServingDigest : string;
  dc_ObservationRotationID : string;
  dc_ObservationCapabilityHeld : bool;
  dc_ObservationCapabilityHoldID : string;
  dc_TransitionPlanID : string;
  dc_CRDIdentities : gmap string string
}.

Definition class_release (class : VPNGatewayClass) : ReleaseIdentity := gc_ReleaseIdentity (gc_Spec class).
Definition target_release (target : ReleaseManifest) : ReleaseIdentity := mkReleaseIdentity (rm_Version target) (rm_ManifestDigest target).
Definition source_release (source : InstalledReleaseObservation) : ReleaseIdentity :=
  mkReleaseIdentity (rel_Version source) (rel_ManifestDigest source).
Definition dc_ControllerRelease (c : deployedReleaseComponents) : ReleaseIdentity :=
  mkReleaseIdentity (dc_ControllerVersion c) (dc_ControllerManifest c).
Definition dc_CNIRelease (c : deployedReleaseComponents) : ReleaseIdentity := mkReleaseIdentity (dc_CNIVersion c) (dc_CNIManifest c).
Definition dc_NodeAgentRelease (c : deployedReleaseComponents) : ReleaseIdentity :=
  mkReleaseIdentity (dc_NodeAgentVersion c) (dc_NodeAgentManifest c).

(** ** Checkpoints of a transition *)

Definition sameTransitionTrust (c : deployedReleaseComponents) (source : InstalledReleaseObservation) : bool :=
  bool_decide (dc_NodeLayout c = rel_NodeLayout source) && String.eqb (dc_ObservationCAUID c) (rel_ObservationCAUID source) &&
  String.eqb (dc_ObservationTLSUID c) (rel_ObservationTLSUID source) && String.eqb (dc_ObservationCADigest c) (rel_ObservationCADigest source) &&
  String.eqb (dc_ObservationServingDigest c) (rel_ObservationServingDigest source).

(** The controller carries no authority of a transition. *)
Definition controller_unbound (c : deployedReleaseComponents) : bool :=
  str_empty (dc_ControllerTransitionPlanID c) && str_empty (dc_ControllerTransitionSourceVersion c) &&
  str_empty (dc_ControllerTransitionSourceManifest c).

(** The node agents hold the deny state of this plan. *)
Definition held_for (c : deployedReleaseComponents) (planID : string) : bool :=
  dc_ObservationCapabilityHeld c && String.eqb (dc_ObservationCapabilityHoldID c) planID && String.eqb (dc_TransitionPlanID c) planID.

(** Controller, CNI and node agent are of the source. *)
Definition source_releases (c : deployedReleaseComponents) (source : InstalledReleaseObservation) : bool :=
  bool_decide (dc_ControllerRelease c = source_release source) && bool_decide (dc_CNIRelease c = source_release source) &&
  bool_decide (dc_NodeAgentRelease c = source_release source).

Definition image_matches (c : deployedReleaseComponents) (name wanted : string) : bool :=
  String.eqb (map_get (dc_Images c) name) wanted.

(** The node agent is the successor's, every other image the source's. *)
Definition quiesced_image (plan : InstallPlan) (c : deployedReleaseComponents) (name : string) : bool :=
  if String.eqb name "waycloak-node-agent"
  then match rm_Images (ip_Target plan) !! name with Some artifact => image_matches c name (artifact_ref artifact) | None => false end
  else image_matches c name (map_get (rel_Images (ip_Source plan)) name).

Definition exactQuiescedRuntimeComponents (c : deployedReleaseComponents) (plan : InstallPlan) : bool :=
  let source := ip_Source plan in
  String.eqb (rel_State source) installStateDeployed && (dc_HelmRevision c =? rel_HelmRevision source) &&
  held_for c (ip_PlanID plan) && controller_unbound c && source_releases c source &&
  String.eqb (dc_ObservationRotationID c) (rel_ObservationRotationID source) && sameTransitionTrust c source &&
  bool_decide (dc_CRDIdentities c = rel_CRDIdentities source) && forallb (quiesced_image plan c) installRuntimeImageNames.

(** The class is that of the source, gone, or one of the target with a new UID. *)
Definition source_class (c : deployedReleaseComponents) (source : InstalledReleaseObservation) : bool :=
  match dc_Class c with
  | Some class => bool_decide (class_release class = source_release source) && String.eqb (UID (gc_Meta class)) (rel_GatewayClassUID source) &&
                  (Generation (gc_Meta class) =? rel_GatewayClassGeneration source)
  | None => false
  end.
Definition no_class (c : deployedReleaseComponents) : bool := match dc_Class c with Some _ => false | None => true end.
Definition replaced_class (c : deployedReleaseComponents) (source : InstalledReleaseObservation) (target : ReleaseManifest) : bool :=
  match dc_Class c with
  | Some class => bool_decide (class_release class = target_release target) && negb (str_empty (UID (gc_Meta class))) &&
                  negb (String.eqb (UID (gc_Meta class)) (rel_GatewayClassUID source)) && (1 <=? Generation (gc_Meta class))
  | None => false
  end.

Definition exactQuiescedComponents (c : deployedReleaseComponents) (plan : InstallPlan) (classWithdrawn : bool) : bool :=
  exactQuiescedRuntimeComponents c plan && if classWithdrawn then no_class c else source_class c (ip_Source plan).

Definition exactQuiescedClassReplacedComponents (c : deployedReleaseComponents) (plan : InstallPlan) : bool :=
  exactQuiescedRuntimeComponents c plan && replaced_class c (ip_Source plan) (ip_Target plan).

Definition exactSourceRuntimeComponents (c : deployedReleaseComponents) (source : InstalledReleaseObservation) : bool :=
  String.eqb (rel_State source) installStateDeployed && (dc_HelmRevision c =? rel_HelmRevision source) &&
  negb (dc_ObservationCapabilityHeld c) && str_empty (dc_ObservationCapabilityHoldID c) && str_empty (dc_TransitionPlanID c) &&
  controller_unbound c && source_releases c source && String.eqb (dc_ObservationRotationID c) (rel_ObservationRotationID source) &&
  bool_decide (dc_Images c = rel_Images source) && sameTransitionTrust c source && bool_decide (dc_CRDIdentities c = rel_CRDIdentities source).

Definition exactSourceComponents (c : deployedReleaseComponents) (source : InstalledReleaseObservation) (classWithdrawn : bool) : bool :=
  exactSourceRuntimeComponents c source && if classWithdrawn then no_class c else source_class c source.

Definition exactClassReplacedComponents (c : deployedReleaseComponents) (source : InstalledReleaseObservation) (target : ReleaseManifest) : bool :=
  exactSourceRuntimeComponents c source && replaced_class c source target.

Definition exactStagedComponents (c : deployedReleaseComponents) (plan : InstallPlan) (targetCRDs : gmap string string) : bool :=
  let source := ip_Source plan in
  let target := ip_Target plan in
  String.eqb (rel_State source) installStateDeployed && (rel_HelmRevision source <? dc_HelmRevision c) &&
  held_for c (ip_PlanID plan) && String.eqb (dc_ControllerTransitionPlanID c) (ip_PlanID plan) &&
  String.eqb (dc_ControllerTransitionSourceVersion c) (rel_Version source) &&
  String.eqb (dc_ControllerTransitionSourceManifest c) (rel_ManifestDigest source) &&
  bool_decide (dc_ControllerRelease c = target_release target) && bool_decide (dc_CNIRelease c = target_release target) &&
  bool_decide (dc_NodeAgentRelease c = source_release source) &&
  String.eqb (dc_ObservationRotationID c) (rel_ObservationRotationID source) &&
  match dc_Class c with
  | Some class => bool_decide (class_release class = target_release target) && negb (str_empty (UID (gc_Meta class))) &&
                  (1 <=? Generation (gc_Meta class))
  | None => false
  end &&
  sameTransitionTrust c source && bool_decide (dc_CRDIdentities c = targetCRDs) &&
  forallb (fun name => image_matches c name (artifact_ref (image_of target name))) installRuntimeImageNames.

Inductive checkpoint :=
| CheckpointSource
| CheckpointQuiesced
| CheckpointClassWithdrawn
| CheckpointQuiescedClassWithdrawn
| CheckpointClassReplaced
| CheckpointQuiescedClassReplaced
| CheckpointStaged
| CheckpointTarget.

(** The condition of each checkpoint; the target is not told from components. *)
Definition at_checkpoint (c : deployedReleaseComponents) (plan : InstallPlan) (point : checkpoint) : bool :=
  match point with
  | CheckpointSource => exactSourceComponents c (ip_Source plan) false
  | CheckpointQuiesced => exactQuiescedComponents c plan false
  | CheckpointClassWithdrawn => exactSourceComponents c (ip_Source plan) true
  | CheckpointQuiescedClassWithdrawn => exactQuiescedComponents c plan true
  | CheckpointClassReplaced => exactClassReplacedComponents c (ip_Source plan) (ip_Target plan)
  | CheckpointQuiescedClassReplaced => exactQuiescedClassReplacedComponents c plan
  | CheckpointStaged => exactStagedComponents c plan (ip_TargetCRDs plan)
  | CheckpointTarget => false
  end.

Definition transition_checkpoints : list checkpoint :=
  [CheckpointSource; CheckpointQuiesced; CheckpointClassWithdrawn; CheckpointQuiescedClassWithdrawn; CheckpointClassReplaced;
   CheckpointQuiescedClassReplaced; CheckpointStaged].

Definition classifyInstallTransitionCheckpoint (c : deployedReleaseComponents) (plan : InstallPlan) : res checkpoint :=
  match List.find (at_checkpoint c plan) transition_checkpoints with
  | Some point => Ok point
  | None => Fail (ENew "release state does not match a journal-bound exact transition checkpoint")
  end.

(** ** What is accepted as a release *)

(** [encoding/json] of what the digests are made of; the fields that a digest
    leaves out are empty in it. *)
Class ReleaseJson := {
  manifest_json : ReleaseManifest -> string;
  observation_json : InstalledReleaseObservation -> string;
  plan_json : InstallPlan -> string
}.

Definition distinct_nonempty (values : list string) : bool :=
  forallb (fun value => negb (str_empty value)) values && bool_decide (NoDup values).

Definition validateStringSet (values : list string) : res unit :=
  match values with
  | [] => Fail (ENew "must not be empty")
  | _ => if distinct_nonempty values then Ok tt else Fail (ENew "must contain unique non-empty values")
  end.

Definition row_complete (row : ReleaseSupportRow) : bool :=
  forallb (fun field => negb (str_empty field))
    [rr_ID row; rr_Kubernetes row; rr_Distribution row; rr_CNI row; rr_Runtime row; rr_Kernel row; rr_Architecture row; rr_Engine row;
     rr_ProviderConfiguration row].

Definition validateSupportMatrix (rows : list ReleaseSupportRow) : res unit :=
  match rows with
  | [] => Fail (ENew "release support matrix must contain at least one row")
  | _ => if forallb (fun row => row_complete row && res_ok (validateStringSet (rr_Features row)) &&
                                res_ok (validateStringSet (rr_EvidenceSuites row))) rows &&
            bool_decide (NoDup (map rr_ID rows))
         then Ok tt else Fail (ENew "release support matrix row is invalid")
  end.

Definition canonical_row (row : ReleaseSupportRow) : ReleaseSupportRow :=
  mkReleaseSupportRow (rr_ID row) (rr_Kubernetes row) (rr_Distribution row) (rr_CNI row) (rr_Runtime row) (rr_Kernel row)
    (rr_Architecture row) (rr_Engine row) (rr_ProviderConfiguration row) (sort_by id (rr_Features row)) (sort_by id (rr_EvidenceSuites row)).
Definition canonicalSupportMatrix (matrix : option (list ReleaseSupportRow)) : option (list ReleaseSupportRow) :=
  match matrix with Some rows => Some (sort_by rr_ID (map canonical_row rows)) | None => None end.

Definition requiredImages : list string :=
  ["replacement-controller"; "waycloak-cni"; "waycloak-node-agent"; "waycloak-gateway-agent"; "waycloak-gateway-runtime";
   "waycloak-qbittorrent-adapter"; "gluetun"; "coredns"; "pause"].

Definition BaselineProfile : string := "networking.waycloak.io/Core-v1".

Definition contains_at (s : string) : bool := match split_on "@"%char s with [_] => false | _ => true end.
Definition exact_artifact (a : Artifact) : bool :=
  negb (str_empty (af_Repository a)) && validDigest (af_Digest a) && negb (contains_at (af_Repository a)).

Definition validExactImageReference (reference : string) : bool :=
  match split_on "@"%char reference with
  | [repository; digest] => negb (str_empty repository) && validDigest digest
  | _ => false
  end.

Definition chartFullname (release : string) : string :=
  match String.index 0 "waycloak" release with Some _ => release | None => release +:+ "-waycloak" end.

Section Identities.
Context `{ReleaseJson}.

Definition IdentityDigest (manifest : ReleaseManifest) : string :=
  digest_of (manifest_json (mkReleaseManifest (rm_APIVersion manifest) (rm_Version manifest) "" (rm_Chart manifest) (rm_KCL manifest)
    (rm_Images manifest) (sort_by id (rm_Profiles manifest)) (canonicalSupportMatrix (rm_SupportMatrix manifest)))).

Definition manifest_Validate (manifest : ReleaseManifest) : res unit :=
  if negb (String.eqb (rm_APIVersion manifest) "release.waycloak.io/v1") || str_empty (rm_Version manifest) ||
     negb (validDigest (rm_ManifestDigest manifest))
  then Fail (ENew "release manifest identity is invalid")
  else if negb (distinct_nonempty (rm_Profiles manifest)) then Fail (ENew "release manifest profiles must be non-empty and unique")
  else if negb (contains_string (rm_Profiles manifest) BaselineProfile)
  then Fail (ENew "release manifest does not attest the baseline conformance suite")
  else if negb (length (rm_Profiles manifest) =? 1)%nat
  then Fail (ENew "release manifest profiles describe baseline conformance only")
  else if negb (match rm_SupportMatrix manifest with Some rows => res_ok (validateSupportMatrix rows) | None => true end)
  then Fail (ENew "release support matrix is invalid")
  else if negb (bool_decide (size (rm_Images manifest) = length requiredImages))
  then Fail (ENew "release manifest image inventory must contain exactly the complete Waycloak artifact set")
  else if negb (bool_decide (map_Forall (fun name _ => contains_string requiredImages name = true) (rm_Images manifest)))
  then Fail (ENew "release manifest contains unknown image")
  else if negb (forallb (fun name => match rm_Images manifest !! name with Some a => exact_artifact a | None => false end) requiredImages)
  then Fail (ENew "release manifest lacks exact image identity")
  else if negb (exact_artifact (rm_Chart manifest)) then Fail (ENew "release manifest lacks exact chart identity")
  else if negb (match rm_KCL manifest with Some a => exact_artifact a | None => true end)
  then Fail (ENew "release manifest has invalid KCL module identity")
  else if negb (String.eqb (rm_ManifestDigest manifest) (IdentityDigest manifest))
  then Fail (ENew "release manifest digest does not match canonical identity")
  else Ok tt.

Definition validateInstallCRDInventory (identities : gmap string string) : res unit :=
  if negb (bool_decide (size identities = length stateCRDNames))
  then Fail (ENew "target chart must contain the exact replacement CRD inventory")
  else if negb (forallb (fun name => validDigest (map_get identities name)) stateCRDNames)
  then Fail (ENew "target chart lacks exact CRD identity") else Ok tt.

(** The observation with its digest. *)
Definition with_digest (digest : string) (o : InstalledReleaseObservation) : InstalledReleaseObservation :=
  mkInstalledReleaseObservation (rel_NodeLayout o) (rel_State o) digest (rel_HelmRevision o) (rel_Version o) (rel_ManifestDigest o)
    (rel_Images o) (rel_GatewayClassUID o) (rel_GatewayClassGeneration o) (rel_ObservationCAUID o) (rel_ObservationTLSUID o)
    (rel_ObservationCADigest o) (rel_ObservationServingDigest o) (rel_ObservationRotationID o) (rel_CRDIdentities o).
Definition finalizeInstalledReleaseObservationWithoutValidation (o : InstalledReleaseObservation) : string :=
  digest_of (observation_json (with_digest "" o)).

Definition absent_clean (o : InstalledReleaseObservation) : bool :=
  (rel_HelmRevision o =? 0) && str_empty (rel_Version o) && str_empty (rel_ManifestDigest o) && bool_decide (rel_Images o = ∅) &&
  str_empty (rel_GatewayClassUID o) && str_empty (rel_ObservationCAUID o) && str_empty (rel_ObservationTLSUID o) &&
  str_empty (rel_ObservationRotationID o).
Definition deployed_complete (o : InstalledReleaseObservation) : bool :=
  String.eqb (rel_State o) installStateDeployed && (1 <=? rel_HelmRevision o) && negb (str_empty (rel_Version o)) &&
  validDigest (rel_ManifestDigest o) && negb (str_empty (rel_GatewayClassUID o)) && (1 <=? rel_GatewayClassGeneration o) &&
  negb (str_empty (rel_ObservationCAUID o)) && negb (str_empty (rel_ObservationTLSUID o)) && validDigest (rel_ObservationCADigest o) &&
  validDigest (rel_ObservationServingDigest o) &&
  (String.eqb (rel_ObservationRotationID o) initialObservationRotation || validDigest (rel_ObservationRotationID o)).

Definition observation_validate (o : InstalledReleaseObservation) : res unit :=
  if negb (validDigest (rel_ObservationDigest o)) then Fail (ENew "installed release observation lacks canonical identity")
  else if negb (String.eqb (finalizeInstalledReleaseObservationWithoutValidation o) (rel_ObservationDigest o))
  then Fail (ENew "installed release observation content does not match its digest")
  else if String.eqb (rel_State o) installStateAbsent then
    if negb (absent_clean o) then Fail (ENew "absent release observation contains deployed state")
    else if negb (bool_decide (rel_CRDIdentities o = ∅)) then validateInstallCRDInventory (rel_CRDIdentities o) else Ok tt
  else if negb (deployed_complete o) then Fail (ENew "deployed release observation is incomplete")
  else if negb (bool_decide (size (rel_Images o) = length installRuntimeImageNames))
  then Fail (ENew "deployed release observation has an incomplete image inventory")
  else if negb (forallb (fun name => validExactImageReference (map_get (rel_Images o) name)) installRuntimeImageNames)
  then Fail (ENew "deployed release observation lacks exact image")
  else validateInstallCRDInventory (rel_CRDIdentities o).

Definition finalizeInstalledReleaseObservation (o : InstalledReleaseObservation) : res InstalledReleaseObservation :=
  let o := with_digest (finalizeInstalledReleaseObservationWithoutValidation o) o in
  match observation_validate o with Ok _ => Ok o | Fail e => Fail e end.

(** The fields that the identity of a plan is made of. *)
Definition installPlanIdentity (plan : InstallPlan) : string :=
  digest_of (plan_json (mkInstallPlan "" (ip_Operation plan) (ip_Source plan) (ip_TargetCRDs plan) (ip_PreflightDigest plan)
    (ip_OverlayCIDR plan) (ip_NodeArchitecture plan) (ip_InstallSequence plan) (ip_Namespace plan) (ip_Release plan) "" (ip_Target plan)
    (mkArtifact "" "") (ip_Values plan) (ip_PortForwarding plan))).

End Identities.

Definition validateInstallCRDTransition (source : InstalledReleaseObservation) (target : gmap string string) : res unit :=
  match validateInstallCRDInventory target with
  | Fail e => Fail e
  | Ok _ => if negb (bool_decide (rel_CRDIdentities source = ∅)) && negb (bool_decide (rel_CRDIdentities source = target))
            then Fail (ENew "target CRD identity differs from the reviewed live v1beta1 contract") else Ok tt
  end.

Definition same_trust (source target : InstalledReleaseObservation) : bool :=
  String.eqb (rel_ObservationCAUID target) (rel_ObservationCAUID source) && String.eqb (rel_ObservationTLSUID target) (rel_ObservationTLSUID source) &&
  String.eqb (rel_ObservationCADigest target) (rel_ObservationCADigest source) &&
  String.eqb (rel_ObservationServingDigest target) (rel_ObservationServingDigest source).

Definition validateInstallTargetWithClassReplacement (source target : InstalledReleaseObservation) (manifest : ReleaseManifest)
    (targetCRDs : gmap string string) (classChanged : bool) : res unit :=
  if negb (String.eqb (rel_State target) installStateDeployed) || negb (bool_decide (source_release target = target_release manifest)) ||
     negb (bool_decide (rel_CRDIdentities target = targetCRDs))
  then Fail (ENew "helm completed without the exact target release and CRD identity")
  else if negb (forallb (fun name => String.eqb (map_get (rel_Images target) name) (artifact_ref (image_of manifest name))) installRuntimeImageNames)
  then Fail (ENew "helm completed with unexpected image")
  else if rel_HelmRevision target <=? rel_HelmRevision source then Fail (ENew "helm completed without advancing the deployed revision")
  else if String.eqb (rel_State source) installStateDeployed then
    if negb (bool_decide (rel_NodeLayout source = rel_NodeLayout target))
    then Fail (ENew "ordinary release transition changed installed CNI paths or node coverage")
    else if classChanged && String.eqb (rel_GatewayClassUID target) (rel_GatewayClassUID source)
    then Fail (ENew "release transition did not replace the immutable gateway class identity")
    else if negb classChanged && negb (String.eqb (rel_GatewayClassUID target) (rel_GatewayClassUID source))
    then Fail (ENew "same-release apply unexpectedly replaced the gateway class identity")
    else if negb (same_trust source target) || negb (String.eqb (rel_ObservationRotationID target) (rel_ObservationRotationID source))
    then Fail (ENew "ordinary release transition replaced stable observation certificate identity") else Ok tt
  else Ok tt.

Definition validateInstallTarget (source target : InstalledReleaseObservation) (manifest : ReleaseManifest)
    (targetCRDs : gmap string string) : res unit :=
  validateInstallTargetWithClassReplacement source target manifest targetCRDs
    (negb (String.eqb (rel_ManifestDigest source) (rm_ManifestDigest manifest))).

(** ** The objects of a release *)

Record VolumeMount := mkVolumeMount { vm_Name : string; vm_MountPath : string; vm_SubPath : string; vm_SubPathExpr : string }.
Record HostVolume := mkHostVolume { hv_Name : string; hv_HostPath : option string }.
Record ReleaseContainer := mkReleaseContainer {
  rc_Name : string;
  rc_Image : string;
  rc_Args : list string;
  rc_VolumeMounts : list VolumeMount
}.
Record PodTemplate := mkPodTemplate {
  pt_Annotations : gmap string string;
  pt_InitContainers : list ReleaseContainer;
  pt_Containers : list ReleaseContainer;
  pt_Volumes : list HostVolume;
  pt_NodeSelector : gmap string string
}.
Record Deployment := mkDeployment {
  dp_Meta : ObjectMeta;
  dp_Template : PodTemplate;
  dp_Replicas : option Z;
  dp_ObservedGeneration : Z;
  dp_UpdatedReplicas : Z;
  dp_AvailableReplicas : Z
}.
Record DaemonSet := mkDaemonSet {
  ds_Meta : ObjectMeta;
  ds_Template : PodTemplate;
  ds_ObservedGeneration : Z;
  ds_DesiredNumberScheduled : Z;
  ds_UpdatedNumberScheduled : Z;
  ds_NumberReady : Z;
  ds_NumberAvailable : Z;
  ds_NumberUnavailable : Z
}.
Record Secret := mkSecret { se_Meta : ObjectMeta; se_Type : string; se_Data : gmap string string }.
Definition SecretTypeOpaque : string := "Opaque".
Definition SecretTypeTLS : string := "kubernetes.io/tls".

(** The conversion of a CRD, with whether it has a webhook, and the rest. *)
Record CrdSpec := mkCrdSpec { cs_Conversion : option (string * bool); cs_Rest : string }.
Record CustomResourceDefinition := mkCrd { crd_Spec : CrdSpec }.

(** [encoding/json] of a CRD's spec, and what certificates are accepted. *)
Class ReleaseObjects := {
  crd_json : CrdSpec -> string;
  parseCABundle : string -> res unit;
  validateServingIdentity : Secret -> res unit
}.

Definition requiredContainer (containers : list ReleaseContainer) (name : string) : res ReleaseContainer :=
  match List.find (fun container => String.eqb (rc_Name container) name) containers with
  | Some container => Ok container
  | None => Fail (ENew "deployed release lacks container")
  end.

(** [strings.TrimPrefix] of a prefix that is there. *)
Definition argument_value (prefix argument : string) : string := drop_string (String.length prefix) argument.

Fixpoint requiredArgument (arguments : list string) (prefix : string) : res string :=
  match arguments with
  | [] => Fail (ENew "deployed release lacks argument")
  | argument :: rest =>
      if HasPrefix argument prefix && negb (str_empty (argument_value prefix argument)) then Ok (argument_value prefix argument)
      else requiredArgument rest prefix
  end.

(** At most one of the arguments has the prefix, with a value that is accepted. *)
Fixpoint singular_argument (accepted : string -> bool) (value : string) (arguments : list string) (prefix : string) : res string :=
  match arguments with
  | [] => Ok value
  | argument :: rest =>
      if negb (HasPrefix argument prefix) then singular_argument accepted value rest prefix
      else
        let candidate := argument_value prefix argument in
        if negb (str_empty value) || negb (accepted candidate) then Fail (ENew "deployed release has an invalid argument")
        else singular_argument accepted candidate rest prefix
  end.

Definition optionalSingularArgument (arguments : list string) (prefix : string) : res string :=
  singular_argument (fun candidate => negb (str_empty candidate)) "" arguments prefix.

Fixpoint held_argument (held : bool) (arguments : list string) : res bool :=
  match arguments with
  | [] => Ok held
  | argument :: rest =>
      if negb (HasPrefix argument "--observation-capability-hold=") then held_argument held rest
      else if negb (String.eqb argument "--observation-capability-hold=true") || held
      then Fail (ENew "deployed node agent has an invalid observation capability hold")
      else held_argument true rest
  end.
Definition observationCapabilityHeld (arguments : list string) : res bool := held_argument false arguments.

Definition observationCapabilityHoldID (arguments : list string) : res string :=
  singular_argument validDigest "" arguments "--observation-capability-hold-id=".

(** [path.Clean] of a rooted path. *)
Fixpoint clean_elements (stack : list string) (elements : list string) : list string :=
  match elements with
  | [] => rev stack
  | element :: rest =>
      if str_empty element || String.eqb element "." then clean_elements stack rest
      else if String.eqb element ".." then clean_elements (tail stack) rest
      else clean_elements (element :: stack) rest
  end.
Definition path_Clean (p : string) : string := "/" +:+ String.concat "/" (clean_elements [] (split_on "/"%char p)).
Definition canonical_path (p : string) : bool := IsAbs p && String.eqb (path_Clean p) p.
Definition path_Join (directory name : string) : string := path_Clean (directory +:+ "/" +:+ name).

Definition installerReleaseIdentity (container : ReleaseContainer) : res (string * string) :=
  let args := rc_Args container in
  if (length args <? 11)%nat || (13 <? length args)%nat || negb (String.eqb (nth 0 args "") "install")
  then Fail (ENew "CNI installer does not use the versioned install argument contract")
  else if (length args =? 13)%nat && negb (String.eqb (nth 12 args "") "migrate-legacy-source")
  then Fail (ENew "CNI installer has an unknown migration mode")
  else Ok (nth 9 args "", nth 10 args "").

(** The volumes of this name: exactly one, on a canonical path of the host. *)
Fixpoint host_volume (found : string) (name rest : string) (volumes : list HostVolume) : res string :=
  match volumes with
  | [] => Ok found
  | volume :: more =>
      if negb (String.eqb (hv_Name volume) name) then host_volume found name rest more
      else match hv_HostPath volume with
           | Some host =>
               if negb (canonical_path host) then Fail (ENew "CNI path lacks a canonical host mount")
               else if negb (str_empty found) then Fail (ENew "CNI path has duplicate host volumes")
               else host_volume (path_Join host rest) name rest more
           | None => Fail (ENew "CNI path lacks a canonical host mount")
           end
  end.

Fixpoint host_mount (found : string) (filename : string) (volumes : list HostVolume) (mounts : list VolumeMount) : res string :=
  match mounts with
  | [] => Ok found
  | mount :: more =>
      if negb (String.eqb filename (vm_MountPath mount)) && negb (HasPrefix filename (vm_MountPath mount +:+ "/"))
      then host_mount found filename volumes more
      else if negb (str_empty found) || negb (str_empty (vm_SubPath mount)) || negb (str_empty (vm_SubPathExpr mount))
      then Fail (ENew "CNI path has ambiguous or subpath mounts")
      else match host_volume "" (vm_Name mount) (argument_value (vm_MountPath mount) filename) volumes with
           | Ok found => host_mount found filename volumes more
           | Fail e => Fail e
           end
  end.

Definition mountedHostFile (pod : PodTemplate) (container : ReleaseContainer) (filename : string) : res string :=
  if negb (canonical_path filename) then Fail (ENew "CNI path is not canonical and absolute")
  else match host_mount "" filename (pt_Volumes pod) (rc_VolumeMounts container) with
       | Ok found => if str_empty found then Fail (ENew "CNI file has no host mount") else Ok found
       | Fail e => Fail e
       end.

#[global] Instance res_ret : MRet res := @Ok.
#[global] Instance res_bind : MBind res := fun A B k r => match r with Ok a => k a | Fail e => Fail e end.

(** One of the three files, which installer and agent must agree on. *)
Definition agreed_file (installer agent : PodTemplate) (ic ac : ReleaseContainer) (index : nat) (flag : string) : res string :=
  installed ← mountedHostFile installer ic (nth index (rc_Args ic) "");
  argument ← requiredArgument (rc_Args ac) flag;
  observed ← mountedHostFile agent ac argument;
  if negb (String.eqb installed observed) then Fail (ENew "installer and node-agent host CNI paths disagree") else Ok installed.

Definition observeNodeInstallLayout (installer agent : PodTemplate) : res NodeInstallLayout :=
  ic ← requiredContainer (pt_InitContainers installer) "install";
  _ ← installerReleaseIdentity ic;
  ac ← requiredContainer (pt_Containers agent) "node-agent";
  binary ← agreed_file installer agent ic ac 2 "--cni-binary-file=";
  config ← agreed_file installer agent ic ac 3 "--cni-config-file=";
  receipt ← agreed_file installer agent ic ac 4 "--cni-receipt-file=";
  source ← (if (12 <=? length (rc_Args ic))%nat then mountedHostFile installer ic (nth 11 (rc_Args ic) "") else Ok "");
  Ok (mkNodeInstallLayout config binary receipt source (pt_NodeSelector installer) (pt_NodeSelector agent)).

(** ** Reading the release *)

Section Observe.
Context `{ReleaseJson} `{ReleaseObjects}.

(** Absent conversion and the default one are the same. *)
Definition installCRDSpecDigest (spec : CrdSpec) : string :=
  let conversion :=
    match cs_Conversion spec with
    | Some (strategy, webhook) => if String.eqb strategy "None" && negb webhook then None else cs_Conversion spec
    | None => None
    end in
  digest_of (crd_json (mkCrdSpec conversion (cs_Rest spec))).

Definition validateInstallSecret (secret : Secret) (secretType : string) : res unit :=
  if negb (String.eqb (se_Type secret) secretType) || str_empty (map_get (se_Data secret) "ca.crt")
  then Fail (ENew "existing installation Secret has an invalid type or CA")
  else
    _ ← parseCABundle (map_get (se_Data secret) "ca.crt");
    if String.eqb secretType SecretTypeOpaque then
      if negb (bool_decide (size (se_Data secret) = 1%nat)) then Fail (ENew "installation CA Secret contains unexpected keys") else Ok tt
    else validateServingIdentity secret.

Definition validateReleaseOwnedInstallSecret (secret : Secret) (release secretType : string) : res unit :=
  if negb (String.eqb (map_get (Annotations (se_Meta secret)) installReleaseOwnerKey) release) ||
     negb (validDigest (map_get (Annotations (se_Meta secret)) installInitialPlanKey))
  then Fail (ENew "secret is not owned by release")
  else validateInstallSecret secret secretType.

Definition ca_digest (secret : Secret) (key : string) : string := digest_of (map_get (se_Data secret) key).

Definition rotation_of (agent : DaemonSet) : string :=
  let rotationID := map_get (pt_Annotations (ds_Template agent)) observationRotationKey in
  if str_empty rotationID then initialObservationRotation else rotationID.

(** What the objects say, where all of them were read. *)
Definition components_of (release : string) (crds : gmap string string) (revision : Z) (controller : Deployment) (cni agent : DaemonSet)
    (class : option VPNGatewayClass) (ca tls : Secret) : res deployedReleaseComponents :=
  _ ← validateReleaseOwnedInstallSecret ca release SecretTypeOpaque;
  _ ← validateReleaseOwnedInstallSecret tls release SecretTypeTLS;
  controllerContainer ← requiredContainer (pt_Containers (dp_Template controller)) "controller";
  cniContainer ← requiredContainer (pt_InitContainers (ds_Template cni)) "install";
  pauseContainer ← requiredContainer (pt_Containers (ds_Template cni)) "receipt-holder";
  agentContainer ← requiredContainer (pt_Containers (ds_Template agent)) "node-agent";
  let controllerArgs := rc_Args controllerContainer in
  let agentArgs := rc_Args agentContainer in
  controllerVersion ← requiredArgument controllerArgs "--release-version=";
  controllerManifest ← requiredArgument controllerArgs "--release-manifest-digest=";
  transitionPlanID ← optionalSingularArgument controllerArgs "--transition-plan-id=";
  transitionSourceVersion ← optionalSingularArgument controllerArgs "--transition-source-version=";
  transitionSourceManifest ← optionalSingularArgument controllerArgs "--transition-source-manifest-digest=";
  engineImage ← requiredArgument controllerArgs "--gateway-engine-image=";
  gatewayAgentImage ← requiredArgument controllerArgs "--gateway-agent-image=";
  nodeVersion ← requiredArgument agentArgs "--release-version=";
  nodeManifest ← requiredArgument agentArgs "--release-manifest-digest=";
  capabilityHeld ← observationCapabilityHeld agentArgs;
  capabilityHoldID ← observationCapabilityHoldID agentArgs;
  cniIdentity ← installerReleaseIdentity cniContainer;
  layout ← observeNodeInstallLayout (ds_Template cni) (ds_Template agent);
  let images := list_to_map [("replacement-controller", rc_Image controllerContainer); ("waycloak-cni", rc_Image cniContainer);
    ("waycloak-node-agent", rc_Image agentContainer); ("waycloak-gateway-agent", gatewayAgentImage); ("gluetun", engineImage);
    ("pause", rc_Image pauseContainer)] : gmap string string in
  if negb (forallb (fun name => validExactImageReference (map_get images name)) installRuntimeImageNames)
  then Fail (ENew "transition checkpoint image is not digest resolved")
  else Ok (mkComponents (Some layout) revision controllerVersion controllerManifest transitionPlanID transitionSourceVersion
    transitionSourceManifest cniIdentity.1 cniIdentity.2 nodeVersion nodeManifest class images (UID (se_Meta ca)) (UID (se_Meta tls))
    (ca_digest ca "ca.crt") (ca_digest tls "tls.crt") (rotation_of agent) capabilityHeld capabilityHoldID
    (map_get (pt_Annotations (ds_Template agent)) installTransitionPlanKey) crds).

(** The same for a release at rest, which carries no authority of a transition. *)
Definition observation_of (crds : gmap string string) (ca tls : Secret) (c : deployedReleaseComponents) : res InstalledReleaseObservation :=
  match dc_Class c with
  | None => Fail (ENew "observe default gateway class")
  | Some class =>
      if negb (String.eqb (map_get (se_Data ca) "ca.crt") (map_get (se_Data tls) "ca.crt"))
      then Fail (ENew "observation CA and serving identity do not share exact trust material")
      else if negb (controller_unbound c) then Fail (ENew "deployed controller retains release-transition authority")
      else if dc_ObservationCapabilityHeld c then Fail (ENew "deployed node agent retains an observation capability hold")
      else if negb (str_empty (dc_ObservationCapabilityHoldID c)) || negb (str_empty (dc_TransitionPlanID c))
      then Fail (ENew "deployed node agent retains release-transition authority")
      else if str_empty (dc_ControllerVersion c) || negb (validDigest (dc_ControllerManifest c)) ||
              negb (bool_decide (dc_NodeAgentRelease c = dc_ControllerRelease c)) || negb (bool_decide (dc_CNIRelease c = dc_ControllerRelease c)) ||
              negb (bool_decide (class_release class = dc_ControllerRelease c))
      then Fail (ENew "deployed controller, CNI, node agent, and gateway class release identities disagree")
      else finalizeInstalledReleaseObservation
        (mkInstalledReleaseObservation (dc_NodeLayout c) installStateDeployed "" (dc_HelmRevision c) (dc_ControllerVersion c)
          (dc_ControllerManifest c) (dc_Images c) (UID (gc_Meta class)) (Generation (gc_Meta class)) (dc_ObservationCAUID c)
          (dc_ObservationTLSUID c) (dc_ObservationCADigest c) (dc_ObservationServingDigest c) (dc_ObservationRotationID c) crds)
  end.

Context {W : Type} `{Getter W CustomResourceDefinition} `{Getter W Deployment} `{Getter W DaemonSet} `{Getter W VPNGatewayClass}
  `{Getter W Secret} `{Lister W Secret}.

(** The CRDs that are there, by name, and how many are missing. *)
Fixpoint live_crds (names : list string) : IO W (gmap string string * nat) :=
  match names with
  | [] => mret (∅, 0%nat)
  | name :: rest =>
      got ← io_try (k8s_Get (T := CustomResourceDefinition) (mkObjectKey "" name));
      match got with
      | Ok crd => more ← live_crds rest; mret (<[name := installCRDSpecDigest (crd_Spec crd)]> more.1, more.2)
      | Fail err => if IsNotFound err then more ← live_crds rest; mret (more.1, S more.2)
                    else io_fail (Errorf "observe replacement CRD" err)
      end
  end.

Definition optionalInstallCRDIdentities : IO W (gmap string string) :=
  found ← live_crds stateCRDNames;
  if (found.2 =? length stateCRDNames)%nat then mret ∅
  else if negb (found.2 =? 0)%nat then io_fail (ENew "partial replacement CRD inventory requires explicit repair before lifecycle planning")
  else mret found.1.

Definition DefaultClassName : string := "gluetun.waycloak.io".
Definition helm_selector (namespace release : string) : ListOption :=
  MatchingLabels namespace (list_to_map [("owner", "helm"); ("name", release); ("status", "deployed")]).

(** The revision of the one deployed Helm release. *)
Definition helm_revision (secret : Secret) : res Z :=
  match ParseInt 64 (map_get (Labels (se_Meta secret)) "version") with
  | Some revision => if revision <? 1 then Fail (ENew "deployed Helm revision is invalid") else Ok revision
  | None => Fail (ENew "deployed Helm revision is invalid")
  end.

Definition optional {A} (m : IO W A) : IO W (option A) :=
  got ← io_try m;
  match got with Ok a => mret (Some a) | Fail err => if IsNotFound err then mret None else io_fail err end.

(** The runtime objects of a release, with the class as it is read. *)
Definition read_release {T} (namespace release : string) (readClass : IO W (option VPNGatewayClass))
    (use : Deployment -> DaemonSet -> DaemonSet -> option VPNGatewayClass -> Secret -> Secret -> res T) : IO W T :=
  let name := chartFullname release in
  controller ← io_wrap "observe controller" (k8s_Get (T := Deployment) (mkObjectKey namespace (name +:+ "-controller")));
  cni ← io_wrap "observe CNI installer" (k8s_Get (T := DaemonSet) (mkObjectKey namespace (name +:+ "-cni-installer")));
  agent ← io_wrap "observe node agent" (k8s_Get (T := DaemonSet) (mkObjectKey namespace (name +:+ "-node-agent")));
  class ← io_wrap "observe gateway class" readClass;
  ca ← io_wrap "observe installation CA" (k8s_Get (T := Secret) (mkObjectKey namespace (release +:+ "-observation-ca")));
  tls ← io_wrap "observe serving identity" (k8s_Get (T := Secret) (mkObjectKey namespace (release +:+ "-observation-tls")));
  io_lift (use controller cni agent class ca tls).

Definition observeDeployedReleaseComponents (namespace release : string) : IO W deployedReleaseComponents :=
  crds ← optionalInstallCRDIdentities;
  if negb (bool_decide (size crds = length stateCRDNames))
  then io_fail (ENew "transition checkpoint lacks the exact replacement CRD inventory")
  else
    releases ← io_wrap "inspect transition Helm revision" (k8s_List (T := Secret) (helm_selector namespace release));
    match releases with
    | [secret] =>
        revision ← io_lift (helm_revision secret);
        read_release namespace release (optional (k8s_Get (T := VPNGatewayClass) (mkObjectKey "" DefaultClassName)))
          (components_of release crds revision)
    | _ => io_fail (ENew "transition checkpoint requires one unambiguous deployed Helm revision")
    end.

(** No runtime object without a deployed revision. *)
Definition must_be_absent {A} (m : IO W A) : IO W unit :=
  got ← io_try m;
  match got with
  | Ok _ => io_fail (ENew "release has runtime objects without one unambiguous deployed Helm revision")
  | Fail err => if IsNotFound err then mret tt else io_fail err
  end.

Definition refusePartialInstallState (namespace release : string) : IO W unit :=
  let name := chartFullname release in
  must_be_absent (k8s_Get (T := Deployment) (mkObjectKey namespace (name +:+ "-controller"))) ;;
  must_be_absent (k8s_Get (T := DaemonSet) (mkObjectKey namespace (name +:+ "-cni-installer"))) ;;
  must_be_absent (k8s_Get (T := DaemonSet) (mkObjectKey namespace (name +:+ "-node-agent"))) ;;
  must_be_absent (k8s_Get (T := Secret) (mkObjectKey namespace (release +:+ "-observation-ca"))) ;;
  must_be_absent (k8s_Get (T := Secret) (mkObjectKey namespace (release +:+ "-observation-tls"))) ;;
  must_be_absent (k8s_Get (T := VPNGatewayClass) (mkObjectKey "" DefaultClassName)).

Definition absent_release (crds : gmap string string) : InstalledReleaseObservation :=
  mkInstalledReleaseObservation None installStateAbsent "" 0 "" "" ∅ "" 0 "" "" "" "" "" crds.

Definition ObserveInstalledRelease (namespace release : string) : IO W InstalledReleaseObservation :=
  if str_empty namespace || str_empty release then io_fail (ENew "release observation requires namespace and release")
  else
    crds ← optionalInstallCRDIdentities;
    listed ← optional (k8s_List (T := Secret) (helm_selector namespace release));
    match default [] listed with
    | [] => refusePartialInstallState namespace release ;;
            io_lift (finalizeInstalledReleaseObservation (absent_release crds))
    | [secret] =>
        revision ← io_lift (helm_revision secret);
        if negb (bool_decide (size crds = length stateCRDNames))
        then io_fail (ENew "deployed release lacks the exact replacement CRD inventory")
        else read_release namespace release
          (class ← k8s_Get (T := VPNGatewayClass) (mkObjectKey "" DefaultClassName); mret (Some class))
          (fun controller cni agent class ca tls =>
             c ← components_of release crds revision controller cni agent class ca tls;
             observation_of crds ca tls c)
    | _ => io_fail (ENew "multiple deployed Helm revisions make release identity ambiguous")
    end.

End Observe.

(** ** Checkpoints are told apart *)

(** Whether the agents hold, which class there is, and how Helm's revision has
    moved, at a checkpoint. *)
Definition checkpoint_held (point : checkpoint) : bool :=
  match point with CheckpointSource | CheckpointClassWithdrawn | CheckpointClassReplaced => false | _ => true end.
Definition checkpoint_class (c : deployedReleaseComponents) (plan : InstallPlan) (point : checkpoint) : Prop :=
  match point with
  | CheckpointSource | CheckpointQuiesced => source_class c (ip_Source plan) = true
  | CheckpointClassWithdrawn | CheckpointQuiescedClassWithdrawn => no_class c = true
  | CheckpointClassReplaced | CheckpointQuiescedClassReplaced => replaced_class c (ip_Source plan) (ip_Target plan) = true
  | CheckpointStaged => True
  | CheckpointTarget => False
  end.
Definition checkpoint_moved (point : checkpoint) : bool := match point with CheckpointStaged => true | _ => false end.

Lemma quiesced_runtime c plan : exactQuiescedRuntimeComponents c plan = true ->
  held_for c (ip_PlanID plan) = true /\ dc_HelmRevision c = rel_HelmRevision (ip_Source plan).
Proof. unfold exactQuiescedRuntimeComponents. rewrite !andb_true_iff, Z.eqb_eq. tauto. Qed.
Lemma source_runtime c source : exactSourceRuntimeComponents c source = true ->
  dc_ObservationCapabilityHeld c = false /\ dc_HelmRevision c = rel_HelmRevision source.
Proof. unfold exactSourceRuntimeComponents. rewrite !andb_true_iff, Z.eqb_eq, negb_true_iff. tauto. Qed.
Lemma staged_runtime c plan crds : exactStagedComponents c plan crds = true ->
  held_for c (ip_PlanID plan) = true /\ rel_HelmRevision (ip_Source plan) < dc_HelmRevision c.
Proof. unfold exactStagedComponents. cbv zeta. rewrite !andb_true_iff, Z.ltb_lt. tauto. Qed.
Lemma held_for_held c planID : held_for c planID = true -> dc_ObservationCapabilityHeld c = true.
Proof. unfold held_for. rewrite !andb_true_iff. tauto. Qed.

Lemma checkpoint_facts c plan point : at_checkpoint c plan point = true ->
  dc_ObservationCapabilityHeld c = checkpoint_held point /\ checkpoint_class c plan point /\
  (if checkpoint_moved point then rel_HelmRevision (ip_Source plan) < dc_HelmRevision c
   else dc_HelmRevision c = rel_HelmRevision (ip_Source plan)).
Proof.
  destruct point; cbn; try done.
  1,3,5: unfold exactSourceComponents, exactClassReplacedComponents; intros [[]%source_runtime ?]%andb_true_iff; auto.
  1,2,3: unfold exactQuiescedComponents, exactQuiescedClassReplacedComponents; intros [[?%held_for_held ?]%quiesced_runtime ?]%andb_true_iff; auto.
  by intros [?%held_for_held ?]%staged_runtime.
Qed.

Lemma source_not_replaced c source target : source_class c source = true -> replaced_class c source target = true -> False.
Proof.
  unfold source_class, replaced_class. destruct (dc_Class c) as [class|]; [|done]. rewrite !andb_true_iff, negb_true_iff, !String.eqb_eq.
  intros [[_ ->] _] [[_ Hne] _]. by rewrite String.eqb_refl in Hne.
Qed.
Lemma absent_not_source c source : no_class c = true -> source_class c source = true -> False.
Proof. unfold no_class, source_class. by destruct (dc_Class c). Qed.
Lemma absent_not_replaced c source target : no_class c = true -> replaced_class c source target = true -> False.
Proof. unfold no_class, replaced_class. by destruct (dc_Class c). Qed.

Lemma checkpoints_distinct c plan p q : at_checkpoint c plan p = true -> at_checkpoint c plan q = true -> p = q.
Proof.
  intros (Hp & Cp & Rp)%checkpoint_facts (Hq & Cq & Rq)%checkpoint_facts. rewrite Hp in Hq.
  destruct p, q; cbn in *; try done; try lia; exfalso;
    (eapply source_not_replaced; eassumption) || (eapply absent_not_source; eassumption) || (eapply absent_not_replaced; eassumption).
Qed.

(** A transition is always at one exact checkpoint, or at none.  Whatever
    the components of the installed release are, the classification gives a
    checkpoint if and only if the components meet that checkpoint's own
    condition, so it does not depend on the order in which the checkpoints are
    tried: no state of the cluster counts as two checkpoints of one plan. *)
Theorem checkpoint_exact c plan point :
  classifyInstallTransitionCheckpoint c plan = Ok point <-> at_checkpoint c plan point = true.
Proof.
  unfold classifyInstallTransitionCheckpoint. split.
  - destruct (List.find _ _) as [p|] eqn:E; [|done]. intros [= ->]. by apply List.find_some in E as [_ ?].
  - intros Hat. destruct (List.find _ _) as [p|] eqn:E.
    + apply List.find_some in E as [_ Hp]. by rewrite (checkpoints_distinct c plan p point).
    + assert (at_checkpoint c plan point = false) as Hno; [|congruence]. apply (List.find_none _ _ E). destruct point; cbn in *; tauto || done.
Qed.

(** ** What was observed is valid *)

Section Observed.
Context `{ReleaseJson} `{ReleaseObjects}.
Context {W : Type} `{Getter W CustomResourceDefinition} `{Getter W Deployment} `{Getter W DaemonSet} `{Getter W VPNGatewayClass}
  `{Getter W Secret} `{Lister W Secret}.

Lemma finalized_valid o o' : finalizeInstalledReleaseObservation o = Ok o' -> observation_validate o' = Ok tt.
Proof.
  unfold finalizeInstalledReleaseObservation. cbv zeta. destruct (observation_validate _) as [[]|] eqn:E; [|done]. by intros [= <-].
Qed.

End Observed.
