(* ===== verification/GatewayCore.v ===== *)
(** * The gateway data plane's backend (internal/gatewaydataplane: config.go, backend_linux.go)

    The gateway's own namespace: the overlay link with its routes and policy
    rules, and the core rule table that forwards between overlay and tunnel
    only while the gateway is healthy.  The VPN engine (Gluetun) owns the
    [filter] table of the same namespace, in which the backend keeps rules of
    its own, found again by their markers.  The tables are those of the IPv4
    family. *)

From Stdlib Require Import Ascii.
From S2P Require Import Prelude Sha256 Netip Nft Dataplane Kernel PortRuntime PortManager PortRules.

(** ** Configuration (config.go) *)

Definition DNSListenPort : Z := 1053.

Record GatewayConfig := mkGatewayConfig {
  gd_GatewayUID : string;
  gd_OverlayCIDR : Prefix;
  gd_GatewayAddress : Addr;
  gd_OverlayInterface : string;
  gd_UnderlayInterface : string;
  gd_TunnelInterface : string;
  gd_VXLANPort : Z;
  gd_VNI : Z;
  gd_MTU : Z;
  gd_HealthPort : Z;
  gd_DNSUpstream : AddrPort;
  gd_ClusterDNSUpstream : AddrPort;
  gd_ClusterDomain : string
}.

Definition string_last (s : string) : option ascii := String.get (String.length s - 1) s.

(** A label character; every other byte of the UTF-8 text is part of a rune
    outside the ranges. *)
Definition label_char (c : ascii) : bool :=
  let n := Ascii.N_of_ascii c in
  ((97 <=? n)%N && (n <=? 122)%N) || ((48 <=? n)%N && (n <=? 57)%N) || Ascii.eqb c "-"%char.

Definition validLabel (label : string) : bool :=
  negb (str_empty label) && (Z.of_nat (String.length label) <=? 63) &&
  negb (bool_decide (String.get 0 label = Some "-"%char)) && negb (bool_decide (string_last label = Some "-"%char)) &&
  forallb label_char (String.list_ascii_of_string label).

Definition validDomain (value : string) : bool :=
  negb (str_empty value) && (Z.of_nat (String.length value) <=? 253) &&
  negb (bool_decide (String.get 0 value = Some "."%char)) && negb (bool_decide (string_last value = Some "."%char)) &&
  forallb validLabel (split_on "."%char value).

Definition GatewayConfig_Validate (config : GatewayConfig) : option error :=
  if str_empty (gd_GatewayUID config) || negb (Prefix_IsValid (gd_OverlayCIDR config)) ||
     negb (Addr_Is4 (Prefix_Addr (gd_OverlayCIDR config))) || (Prefix_Bits (gd_OverlayCIDR config) <? 16) ||
     (29 <? Prefix_Bits (gd_OverlayCIDR config)) || negb (Addr_Is4 (gd_GatewayAddress config)) ||
     negb (Prefix_Contains (gd_OverlayCIDR config) (gd_GatewayAddress config)) ||
     bool_decide (gd_GatewayAddress config = Prefix_Addr (Prefix_Masked (gd_OverlayCIDR config))) ||
     str_empty (gd_OverlayInterface config) || str_empty (gd_UnderlayInterface config) ||
     str_empty (gd_TunnelInterface config) || String.eqb (gd_OverlayInterface config) (gd_TunnelInterface config) ||
     (15 <? Z.of_nat (String.length (gd_OverlayInterface config))) ||
     (15 <? Z.of_nat (String.length (gd_UnderlayInterface config))) ||
     (15 <? Z.of_nat (String.length (gd_TunnelInterface config))) || (gd_VXLANPort config =? 0) ||
     (gd_HealthPort config =? 0) || (gd_VNI config =? 0) || (16777215 <? gd_VNI config) || (gd_MTU config <? 576) ||
     (9000 <? gd_MTU config) || negb (AddrPort_IsValid (gd_DNSUpstream config)) ||
     negb (Addr_IsLoopback (AddrPort_Addr (gd_DNSUpstream config))) || (AddrPort_Port (gd_DNSUpstream config) =? 0) ||
     negb (AddrPort_IsValid (gd_ClusterDNSUpstream config)) ||
     negb (Addr_Is4 (AddrPort_Addr (gd_ClusterDNSUpstream config))) ||
     Addr_IsLoopback (AddrPort_Addr (gd_ClusterDNSUpstream config)) ||
     Addr_IsUnspecified (AddrPort_Addr (gd_ClusterDNSUpstream config)) ||
     negb (AddrPort_Port (gd_ClusterDNSUpstream config) =? 53) || negb (validDomain (gd_ClusterDomain config))
  then Some (ENew "exact gateway identity, IPv4 overlay, interfaces, VNI, MTU, health, and loopback DNS upstream are required")
  else None.

(** ** The overlay (backend_linux.go) *)

Definition coreTableName : string := "waycloak_gateway_core".
Definition gatewayRouteProtocol : Z := 99.
Definition gatewayOverlayReturnPriority : Z := 90.
Definition gatewayClusterDNSPriority : Z := 89.
Definition gatewayClusterDNSTable : Z := 198.
Definition engineFilterTableName : string := "filter".
Definition engineInputChainName : string := "INPUT".
Definition engineForwardChainName : string := "FORWARD".
Definition engineOutputChainName : string := "OUTPUT".
Definition engineRuleMarkerPrefix : string := "waycloak:gluetun:".

(** The message test of the source; the kernel's refusal is the other failure. *)
Definition isLinkNotFound (err : error) : bool := errors_is err LinkNotFound.

Definition firstIPv4 (link : klink) : IO NS Addr :=
  addresses ← kcall (fun w => (Ok (List.filter (fun x => Addr_Is4 (Prefix_Addr x)) (kl_addrs link)), w));
  match addresses with
  | x :: _ => mret (Prefix_Addr x)
  | [] => io_fail (ENew "underlay has no IPv4 address")
  end.

Definition owner_alias (config : GatewayConfig) : string := "waycloak:" +:+ gd_GatewayUID config.

(** The existing overlay link if it can stay, after removing one that cannot. *)
Definition existing_overlay (config : GatewayConfig) (underlay : klink) (source : Addr) : IO NS (option klink) :=
  found ← io_try (LinkByName (gd_OverlayInterface config));
  match found with
  | Fail err => if isLinkNotFound err then mret None else io_fail err
  | Ok link =>
      match kl_vxlan link with
      | None => io_fail (ENew "overlay interface name is owned by foreign state")
      | Some v =>
          if negb (String.eqb (kl_alias link) (owner_alias config))
          then io_fail (ENew "overlay interface name is owned by foreign state")
          else if negb (vx_id v =? gd_VNI config) || negb (vx_port v =? gd_VXLANPort config) ||
                  negb (vx_vtep v =? kl_index underlay) ||
                  negb (bool_decide (Addr_Unmap (vx_src v) = Addr_Unmap source)) || negb (kl_mtu link =? gd_MTU config)
          then LinkDel (gd_OverlayInterface config) ;; mret None
          else mret (Some link)
      end
  end.

Definition ensureOverlayReturnRule (overlay : Prefix) : IO NS unit :=
  rules ← RuleList FAMILY_V4;
  io_each (fun r => if (ku_priority r =? gatewayOverlayReturnPriority) && (ku_protocol r =? gatewayRouteProtocol)
                    then tolerate ENOENT (RuleDel r) else mret tt) rules ;;
  addRule (mkKRule FAMILY_V4 gatewayOverlayReturnPriority RT_TABLE_MAIN gatewayRouteProtocol
             (Some (mkPrefix (Prefix_Addr (Prefix_Masked overlay)) (Prefix_Bits overlay))) 0 None).

Definition cluster_dns_rule (address : Addr) : krule :=
  mkKRule FAMILY_V4 gatewayClusterDNSPriority gatewayClusterDNSTable gatewayRouteProtocol (Some (mkPrefix address 32)) 0 None.

(** The loop keeps the exact rule and removes the program's others. *)
Fixpoint keep_exact_rule (address : Addr) (exact : bool) (rules : list krule) : IO NS bool :=
  match rules with
  | [] => mret exact
  | r :: rest =>
      if (ku_priority r =? gatewayClusterDNSPriority) && (ku_protocol r =? gatewayRouteProtocol) then
        if (ku_table r =? gatewayClusterDNSTable) && bool_decide (ku_dst r = Some (mkPrefix address 32))
        then keep_exact_rule address true rest
        else tolerate ENOENT (RuleDel r) ;; keep_exact_rule address exact rest
      else keep_exact_rule address exact rest
  end.

Definition ensureClusterDNSRule (address : Addr) : IO NS unit :=
  rules ← RuleList FAMILY_V4;
  exact ← keep_exact_rule address false rules;
  if exact : bool then mret tt else addRule (cluster_dns_rule address).

Definition isIPv4DefaultRoute (route : kroute) : bool :=
  match kr_dst route with
  | None => true
  | Some dst => Addr_Is4 (Prefix_Addr dst) && (Prefix_Bits dst =? 0)
  end.

Fixpoint keep_exact_route (underlay : klink) (destination : Prefix) (gateway : Addr) (exact : bool) (routes : list kroute) : IO NS bool :=
  match routes with
  | [] => mret exact
  | r :: rest =>
      if negb (kr_protocol r =? gatewayRouteProtocol) then keep_exact_route underlay destination gateway exact rest
      else if (kr_link r =? kl_index underlay) && bool_decide (kr_dst r = Some destination) &&
              bool_decide (Addr_Unmap (kr_gw r) = Addr_Unmap gateway)
      then keep_exact_route underlay destination gateway true rest
      else tolerate ENOENT (RouteDel r) ;; keep_exact_route underlay destination gateway exact rest
  end.

Definition ensureClusterDNSRoute (config : GatewayConfig) (underlay : klink) : IO NS unit :=
  mainRoutes ← RouteListFiltered FAMILY_V4 RT_TABLE_MAIN;
  let gateways := remove_dups (map kr_gw (List.filter (fun r =>
    (kr_link r =? kl_index underlay) && isIPv4DefaultRoute r && Addr_Is4 (Addr_Unmap (kr_gw r))) mainRoutes)) in
  match gateways with
  | [gateway] =>
      let destination := mkPrefix (AddrPort_Addr (gd_ClusterDNSUpstream config)) 32 in
      existing ← RouteListFiltered FAMILY_V4 gatewayClusterDNSTable;
      exact ← keep_exact_route underlay destination gateway false existing;
      if exact : bool then mret tt
      else RouteReplace (mkRoute FAMILY_V4 (kl_index underlay) gateway gatewayClusterDNSTable gatewayRouteProtocol
                           (Some destination))
  | _ => io_fail (ENew "underlay has no unique IPv4 default gateway")
  end.

Section Overlay.

(** [os.ReadFile] of the namespaced forwarding switch. *)
Variable read_ip_forward : IO NS string.

Definition requireIPv4Forwarding : IO NS unit :=
  value ← io_wrap "observe namespaced IPv4 forwarding" read_ip_forward;
  if negb (String.eqb (TrimSpace value) "1") then io_fail (ENew "namespaced IPv4 forwarding is disabled") else mret tt.

(** What follows the link; [LinkDel] of a link created here is the deferred
    clean-up of every error from its creation on. *)
Definition EnsureOverlay (config : GatewayConfig) : IO NS unit :=
  io_lift (of_error (GatewayConfig_Validate config)) ;;
  underlay ← io_wrap "resolve underlay" (LinkByName (gd_UnderlayInterface config));
  source ← firstIPv4 underlay;
  existing ← existing_overlay config underlay source;
  let name := gd_OverlayInterface config in
  let rest :=
    io_wrap "assign gateway overlay address"
      (AddrReplace name (mkPrefix (gd_GatewayAddress config) (Prefix_Bits (gd_OverlayCIDR config)))) ;;
    io_wrap "activate gateway overlay" (LinkSetUp name) ;;
    io_wrap "install gateway overlay return-path rule" (ensureOverlayReturnRule (gd_OverlayCIDR config)) ;;
    io_wrap "install reviewed cluster-DNS route" (ensureClusterDNSRoute config underlay) ;;
    io_wrap "install reviewed cluster-DNS route rule" (ensureClusterDNSRule (AddrPort_Addr (gd_ClusterDNSUpstream config))) ;;
    requireIPv4Forwarding in
  match existing with
  | Some _ => rest
  | None =>
      io_wrap "create gateway VXLAN"
        (LinkAdd name (gd_MTU config) (mkVxlan (gd_VNI config) (gd_VXLANPort config) (kl_index underlay) AddrZero source)) ;;
      done_ ← io_try (io_wrap "mark gateway VXLAN ownership" (LinkSetAlias (owner_alias config) name) ;; rest);
      match done_ with
      | Ok _ => mret tt
      | Fail err => io_ignore (LinkDel name) ;; io_fail err
      end
  end.

End Overlay.

(** ** The rules *)

Definition interfacePair (input output : string) (accept : bool) : list nexpr :=
  arrives input ++ leaves output ++ (if accept then [Verdict VerdictAccept] else []).

Definition markedPortForward (input output : string) : list nexpr :=
  interfacePair input output false ++
  [Meta MetaKeyMARK 1; CmpEq 1 (native32 PortForwardIngressMark); Verdict VerdictAccept].

(** The match on tracked connections is that of the port-forward rules. *)
Definition established : list nexpr := tracked_exprs.

Definition outputDNS (config : GatewayConfig) (protocol : Z) : list nexpr :=
  leaves (gd_UnderlayInterface config) ++ carried_by protocol ++
  [Payload 1 PayloadBaseNetworkHeader 16 4; CmpEq 1 (AsSlice (AddrPort_Addr (gd_ClusterDNSUpstream config)))] ++
  to_port (AddrPort_Port (gd_ClusterDNSUpstream config)) ++ [Verdict VerdictAccept].

Definition inputPort (input : string) (protocol port : Z) : list nexpr :=
  arrives input ++ carried_by protocol ++ to_port port ++ [Verdict VerdictAccept].

Definition core_forward_chain : nchain :=
  mkChain "forward" ChainTypeFilter ChainHookForward ChainPriorityFilter (Some VerdictDrop) [].
Definition core_postrouting_chain : nchain :=
  mkChain "postrouting" ChainTypeNAT ChainHookPostrouting ChainPriorityNATSource None [].

Definition core_forward_rules (config : GatewayConfig) (healthy : bool) : list nrule :=
  if healthy then
    [mkRule "waycloak:overlay-to-tunnel" (interfacePair (gd_OverlayInterface config) (gd_TunnelInterface config) true);
     mkRule "waycloak:tunnel-to-overlay-port-forward"
       (markedPortForward (gd_TunnelInterface config) (gd_OverlayInterface config));
     mkRule "waycloak:tunnel-to-overlay-established"
       (interfacePair (gd_TunnelInterface config) (gd_OverlayInterface config) false ++ established)]
  else [].

Definition core_postrouting_rules (config : GatewayConfig) (healthy : bool) : list nrule :=
  if healthy then
    [mkRule "waycloak:overlay-masquerade"
       (arrives (gd_OverlayInterface config) ++ leaves (gd_TunnelInterface config) ++ [Masq None])]
  else [].

(** *** What is installed already *)

(** The last element of a loop that remembers each match. *)
Definition last_match {A} (f : A -> bool) (l : list A) : option A :=
  fold_left (fun found x => if f x then Some x else found) l None.

Definition chain_of (chains : list (string * nchain)) (table name : string) : option nchain :=
  snd <$> last_match (fun tc => String.eqb tc.1 table && String.eqb (ch_name tc.2) name) chains.

Definition exactRuleMarkers (table chain prefix : string) (expected : list string) : IO NS bool :=
  rules ← nft_GetRules table chain;
  let markers := List.filter (fun m => HasPrefix m prefix) (map ru_userdata rules) in
  mret ((length (remove_dups markers) =? length expected)%nat &&
        forallb (fun m => (length (List.filter (String.eqb m) markers) =? 1)%nat) expected).

(** One row of the comparison: absent chains only matter where required. *)
Fixpoint check_markers (checks : list (string * option nchain * string * list string * bool)) : IO NS bool :=
  match checks with
  | [] => mret true
  | (table, chain, prefix, expected, required) :: rest =>
      match chain with
      | None => if required : bool then mret false else check_markers rest
      | Some c =>
          matches ← exactRuleMarkers table (ch_name c) prefix expected;
          if matches : bool then check_markers rest else mret false
      end
  end.

Definition gatewayRulesCurrent (config : GatewayConfig) (healthy : bool) : IO NS bool :=
  tables ← nft_ListTables;
  chains ← nft_ListChains;
  if negb (contains_string tables coreTableName) then mret false
  else
    match chain_of chains coreTableName "forward", chain_of chains coreTableName "postrouting" with
    | Some coreForward, Some corePostrouting =>
        if negb (bool_decide (ch_policy coreForward = Some VerdictDrop)) then mret false
        else
          let engine name := if contains_string tables engineFilterTableName
                             then chain_of chains engineFilterTableName name else None in
          let marked (names : list string) := map (fun n => engineRuleMarkerPrefix +:+ n) names in
          check_markers
            [(coreTableName, Some coreForward, "waycloak:",
              if healthy then ["waycloak:overlay-to-tunnel"; "waycloak:tunnel-to-overlay-port-forward";
                               "waycloak:tunnel-to-overlay-established"] else [], true);
             (coreTableName, Some corePostrouting, "waycloak:",
              if healthy then ["waycloak:overlay-masquerade"] else [], true);
             (engineFilterTableName, engine engineInputChainName, engineRuleMarkerPrefix,
              if healthy then marked ["health-input"; "dns-udp-input"; "dns-tcp-input"] else [], healthy);
             (engineFilterTableName, engine engineForwardChainName, engineRuleMarkerPrefix,
              if healthy then marked ["overlay-to-tunnel"; "tunnel-to-overlay-port-forward";
                                      "tunnel-to-overlay-established"] else [], healthy);
             (engineFilterTableName, engine engineOutputChainName, engineRuleMarkerPrefix,
              marked ["cluster-dns-udp-output"; "cluster-dns-tcp-output"], true)]
    | _, _ => mret false
    end.

(** *** The engine's filter table *)

(** The deletions of one chain: every rule that carries the program's marker. *)
Definition delete_marked (chain : option nchain) : IO NS (list nftop) :=
  match chain with
  | None => mret []
  | Some c =>
      rules ← nft_GetRules engineFilterTableName (ch_name c);
      mret (map (OpDelRule engineFilterTableName (ch_name c))
              (List.filter (fun r => HasPrefix (ru_userdata r) engineRuleMarkerPrefix) rules))
  end.

Definition engine_rule (chain marker : string) (exprs : list nexpr) : nftop :=
  OpAddRule engineFilterTableName chain (mkRule (engineRuleMarkerPrefix +:+ marker) exprs).

Definition engine_additions (config : GatewayConfig) (healthy : bool) : list nftop :=
  [engine_rule engineOutputChainName "cluster-dns-udp-output" (outputDNS config IPPROTO_UDP);
   engine_rule engineOutputChainName "cluster-dns-tcp-output" (outputDNS config IPPROTO_TCP)] ++
  if healthy then
    [engine_rule engineInputChainName "health-input" (inputPort (gd_OverlayInterface config) IPPROTO_TCP (gd_HealthPort config));
     engine_rule engineInputChainName "dns-udp-input" (inputPort (gd_OverlayInterface config) IPPROTO_UDP DNSListenPort);
     engine_rule engineInputChainName "dns-tcp-input" (inputPort (gd_OverlayInterface config) IPPROTO_TCP DNSListenPort);
     engine_rule engineForwardChainName "overlay-to-tunnel"
       (interfacePair (gd_OverlayInterface config) (gd_TunnelInterface config) true);
     engine_rule engineForwardChainName "tunnel-to-overlay-port-forward"
       (markedPortForward (gd_TunnelInterface config) (gd_OverlayInterface config));
     engine_rule engineForwardChainName "tunnel-to-overlay-established"
       (interfacePair (gd_TunnelInterface config) (gd_OverlayInterface config) false ++ established)]
  else [].

Definition is_none {A} (o : option A) : bool := match o with None => true | Some _ => false end.

Definition replaceEngineFilterRules (config : GatewayConfig) (healthy : bool) : IO NS (list nftop) :=
  tables ← nft_ListTables;
  chains ← nft_ListChains;
  if negb (contains_string tables engineFilterTableName) then
    if healthy then io_fail (ENew "gluetun filter table is unavailable") else mret []
  else
    let input := chain_of chains engineFilterTableName engineInputChainName in
    let forward := chain_of chains engineFilterTableName engineForwardChainName in
    let output := chain_of chains engineFilterTableName engineOutputChainName in
    if is_none output || healthy && (is_none input || is_none forward)
    then io_fail (ENew "required Gluetun filter chains are unavailable")
    else
      d1 ← delete_marked input;
      d2 ← delete_marked forward;
      d3 ← delete_marked output;
      mret (d1 ++ d2 ++ d3 ++ engine_additions config healthy).

Definition core_batch (config : GatewayConfig) (present healthy : bool) : list nftop :=
  (if present then [OpDelTable coreTableName] else []) ++
  [OpAddTable coreTableName; OpAddChain coreTableName core_forward_chain; OpAddChain coreTableName core_postrouting_chain] ++
  map (OpAddRule coreTableName "forward") (core_forward_rules config healthy) ++
  map (OpAddRule coreTableName "postrouting") (core_postrouting_rules config healthy).

Definition ReplaceRules (config : GatewayConfig) (healthy : bool) : IO NS unit :=
  io_lift (of_error (GatewayConfig_Validate config)) ;;
  current ← gatewayRulesCurrent config healthy;
  if current : bool then mret tt
  else
    tables ← nft_ListTables;
    engine ← replaceEngineFilterRules config healthy;
    io_wrap "replace gateway fail-closed rules"
      (nft_Flush (core_batch config (contains_string tables coreTableName) healthy ++ engine)).

(** ** The core table as the kernel ends up with it *)

Definition core_table (config : GatewayConfig) (healthy : bool) : list nchain :=
  [with_rules core_forward_chain (core_forward_rules config healthy);
   with_rules core_postrouting_chain (core_postrouting_rules config healthy)].

(** The table an operation works on. *)
Definition op_table (op : nftop) : string :=
  match op with
  | OpDelTable name | OpAddTable name | OpAddChain name _ | OpAddRule name _ _ | OpDelRule name _ _ => name
  end.

Lemma apply_op_other op tables tables' name :
  op_table op <> name -> apply_op tables op = Some tables' -> tables' !! name = tables !! name.
Proof.
  intros Hname. destruct op as [n|n|n c|n c r|n c r]; cbn in *.
  - destruct (decide _); [|done]. intros [= <-]. by rewrite lookup_delete_ne.
  - intros [= <-]. destruct (tables !! n); [done|]. by rewrite lookup_insert_ne.
  - destruct (tables !! n) as [t|]; [|done]. cbn. intros [= <-]. destruct (existsb _ t); [done|]. by rewrite lookup_insert_ne.
  - destruct (tables !! n) as [t|]; [|done]. cbn. destruct (append_rule c r t); [|done]. cbn. intros [= <-]. by rewrite lookup_insert_ne.
  - destruct (tables !! n) as [t|]; [|done]. cbn. destruct (delete_rule c r t); [|done]. cbn. intros [= <-]. by rewrite lookup_insert_ne.
Qed.

Lemma apply_batch_other ops tables tables' name :
  Forall (fun op => op_table op <> name) ops -> apply_batch ops tables = Some tables' -> tables' !! name = tables !! name.
Proof.
  intros Hops. revert tables. induction Hops as [|op ops Hop Hops IH]; intros tables; cbn; [by intros [= ->]|].
  destruct (apply_op tables op) as [t|] eqn:E; [|done]. cbn. intros H. rewrite (IH t H). by eapply apply_op_other.
Qed.

Lemma core_batch_applies config present healthy (tables : gmap string (list nchain)) :
  (present = true <-> is_Some (tables !! coreTableName)) ->
  apply_batch (core_batch config present healthy) tables = Some (<[coreTableName := core_table config healthy]> tables).
Proof.
  intros Hpresent. unfold core_batch. rewrite apply_batch_app.
  assert (apply_batch (if present then [OpDelTable coreTableName] else []) tables =
          Some (delete coreTableName tables)) as ->.
  { destruct present; cbn.
    - by rewrite decide_True by (by apply Hpresent).
    - rewrite delete_id; [done|]. destruct (tables !! coreTableName) eqn:E; [|done].
      assert (false = true) by (apply Hpresent; eauto). done. }
  cbn [mbind option_bind]. rewrite apply_batch_app. cbn [apply_batch apply_op].
  repeat (rewrite ?lookup_delete_eq, ?lookup_insert_eq; cbn [mbind option_bind existsb app ch_name core_forward_chain
    core_postrouting_chain String.eqb Ascii.eqb Bool.eqb orb]).
  rewrite !insert_insert_eq, insert_delete_eq.
  destruct healthy; cbn [core_forward_rules core_postrouting_rules map app apply_batch apply_op];
    repeat (rewrite ?lookup_insert_eq, ?insert_insert_eq; cbn [mbind option_bind append_rule with_rules ch_name core_forward_chain
      core_postrouting_chain String.eqb Ascii.eqb Bool.eqb ch_type ch_hook ch_priority ch_policy ch_rules app]);
    done.
Qed.

(** The program's own table: absent or as the program writes it. *)
Definition core_owned (config : GatewayConfig) (w : NS) : Prop :=
  ns_tables w !! coreTableName = None \/ exists healthy, ns_tables w !! coreTableName = Some (core_table config healthy).

Definition core_installed (config : GatewayConfig) (healthy : bool) (w : NS) : Prop :=
  ns_tables w !! coreTableName = Some (core_table config healthy).

(** A call that only reads. *)
Lemma wp_tables_read {A} (f : gmap string (list nchain) -> A) w (Q : res A -> NS -> Prop) :
  (forall w', ns_tables w' = ns_tables w -> Q (Ok (f (ns_tables w))) w' /\ Q (Fail errno) w') ->
  wp (kcall (fun w => (Ok (f (ns_tables w)), w))) Q w.
Proof.
  intros HQ. apply wp_kcall; intros w0 Ht; [|by apply HQ]. unfold wp. cbn. rewrite Ht. by apply HQ.
Qed.

Lemma GetRules_core config healthy w :
  core_installed config healthy w ->
  wp (nft_GetRules coreTableName "forward")
     (fun r w' => ns_tables w' = ns_tables w /\ (r = Ok (core_forward_rules config healthy) \/ r = Fail errno)) w.
Proof.
  intros Hc. unfold nft_GetRules. apply wp_kcall; [|by auto]. intros w0 Ht. unfold wp. cbn. rewrite Ht, Hc. cbn. auto.
Qed.

Definition forward_markers (healthy : bool) : list string :=
  if healthy then ["waycloak:overlay-to-tunnel"; "waycloak:tunnel-to-overlay-port-forward";
                   "waycloak:tunnel-to-overlay-established"] else [].

(** The markers of the table tell a healthy one from a closed one. *)
Lemma core_markers_exact config healthy healthy' w :
  core_installed config healthy' w ->
  wp (exactRuleMarkers coreTableName "forward" "waycloak:" (forward_markers healthy))
     (fun r w' => ns_tables w' = ns_tables w /\ (r = Ok true -> healthy' = healthy)) w.
Proof.
  intros Hc. unfold exactRuleMarkers. wp_step. wp_with GetRules_core; [done|].
  intros r w' [Ht [->| ->]]; cbn [after]; [|by split]. wp_step. split; [done|]. intros [= H]. revert H.
  by destruct healthy, healthy'; vm_compute.
Qed.

Lemma exactRuleMarkers_reads table chain prefix expected w :
  wp (exactRuleMarkers table chain prefix expected) (fun _ w' => ns_tables w' = ns_tables w) w.
Proof.
  unfold exactRuleMarkers, nft_GetRules. wp_step. apply wp_kcall; intros w0 Ht; [|done].
  unfold wp at 1. cbn [fst snd after]. by wp_step.
Qed.

Lemma check_markers_reads checks w : wp (check_markers checks) (fun _ w' => ns_tables w' = ns_tables w) w.
Proof.
  revert w. induction checks as [|[[[[table chain] prefix] expected] required] checks IH]; intros w; cbn [check_markers].
  { by wp_step. }
  destruct chain as [c|]; [|destruct required; [by wp_step|apply IH]]. wp_step. wp_with exactRuleMarkers_reads.
  intros [[|]|e] w' Ht; cbn [after]; [|by wp_step|done]. wp_with IH. intros r w2 Ht2. congruence.
Qed.

Lemma last_match_spec {A} (f : A -> bool) l x : last_match f l = Some x -> x ∈ l /\ f x = true.
Proof.
  unfold last_match.
  assert (forall found, fold_left (fun found x => if f x then Some x else found) l found = Some x ->
    (x ∈ l /\ f x = true) \/ found = Some x) as Hgen.
  { induction l as [|y l IH]; intros found; cbn; [by auto|]. intros [[Hx Hf]|Hy]%IH; [left; split; [by right|done]|].
    destruct (f y) eqn:Hfy; [|by right]. injection Hy as ->. left. split; [by left|done]. }
  intros [H|[=]]%Hgen. done.
Qed.

Lemma chain_of_name chains table name c : chain_of chains table name = Some c -> ch_name c = name.
Proof.
  unfold chain_of. destruct (last_match _ chains) as [[t c']|] eqn:E; [|done]. cbn. intros [= <-].
  apply last_match_spec in E as [_ Hf]. apply andb_true_iff in Hf as [_ Hf%String.eqb_eq]. done.
Qed.

Lemma gatewayRulesCurrent_spec config healthy w :
  core_owned config w ->
  wp (gatewayRulesCurrent config healthy)
     (fun r w' => ns_tables w' = ns_tables w /\ (r = Ok true -> core_installed config healthy w)) w.
Proof.
  intros Howned. unfold gatewayRulesCurrent, nft_ListTables, nft_ListChains. wp_step. apply wp_kcall; intros w1 Ht1; [|by split].
  unfold wp at 1. cbn [fst snd after]. wp_step. apply wp_kcall; intros w2 Ht2; [|by split; [congruence|]].
  unfold wp at 1. cbn [fst snd after]. set (tables := map fst _). set (chains := flat_map _ _).
  destruct (negb (contains_string tables coreTableName)) eqn:Hin; [by wp_step; split; [congruence|]|].
  destruct (chain_of chains coreTableName "forward") as [cf|] eqn:Hf; [|by wp_step; split; [congruence|]].
  destruct (chain_of chains coreTableName "postrouting") as [cp|]; [|by wp_step; split; [congruence|]].
  destruct (negb (bool_decide _)); [by wp_step; split; [congruence|]|]. cbv zeta.
  assert (is_Some (ns_tables w !! coreTableName)) as Hsome.
  { apply negb_false_iff, contains_string_spec in Hin. unfold tables in Hin. apply list_elem_of_fmap in Hin as ([n t] & Hn & Hin).
    cbn in Hn. subst n. apply elem_of_map_to_list in Hin. rewrite Ht1 in Hin. eauto. }
  apply chain_of_name in Hf.
  match goal with |- wp (check_markers (_ :: ?l)) _ _ => set (rest := l) end. cbn [check_markers]. rewrite Hf. fold (forward_markers healthy).
  destruct Howned as [Hnone|[h Hh]]; [rewrite Hnone in Hsome; by destruct Hsome|].
  wp_step. wp_with (core_markers_exact config healthy h); [by unfold core_installed; rewrite Ht2, Ht1|].
  intros [[|]|e] w3 [Ht3 Hex]; cbn [after]; [|by wp_step; split; [congruence|]|by split; [congruence|]].
  wp_with check_markers_reads. intros r w4 Ht4. split; [congruence|]. intros _. by rewrite <- (Hex eq_refl).
Qed.

(** *** Replacing the rules *)

Lemma delete_marked_spec chain w :
  wp (delete_marked chain)
     (fun r w' => ns_tables w' = ns_tables w /\
        forall ops, r = Ok ops -> Forall (fun op => op_table op = engineFilterTableName) ops) w.
Proof.
  unfold delete_marked. destruct chain as [c|]; [|wp_step; split; [done|]; intros ops [= <-]; by constructor].
  unfold nft_GetRules. wp_step. apply wp_kcall; intros w0 Ht; [|by split]. unfold wp at 1. cbn [fst snd after].
  wp_step. split; [done|]. intros ops [= <-]. apply Forall_forall. intros op Hop.
  apply list_elem_of_fmap in Hop as (r & -> & _). done.
Qed.

Lemma engine_additions_table config healthy :
  Forall (fun op => op_table op = engineFilterTableName) (engine_additions config healthy).
Proof. unfold engine_additions. destruct healthy; cbn [app]; repeat constructor. Qed.

Lemma replaceEngineFilterRules_spec config healthy w :
  wp (replaceEngineFilterRules config healthy)
     (fun r w' => ns_tables w' = ns_tables w /\
        forall ops, r = Ok ops -> Forall (fun op => op_table op = engineFilterTableName) ops) w.
Proof.
  unfold replaceEngineFilterRules, nft_ListTables, nft_ListChains. wp_step. apply wp_kcall; intros w1 Ht1; [|by split].
  unfold wp at 1. cbn [fst snd after]. wp_step. apply wp_kcall; intros w2 Ht2; [|by split; [congruence|]].
  unfold wp at 1. cbn [fst snd after]. destruct (negb (contains_string _ _)).
  { destruct healthy; wp_step; (split; [congruence|]); [done|]. intros ops [= <-]. by constructor. }
  destruct (_ || _); [wp_step; by split; [congruence|]|].
  wp_step. wp_with delete_marked_spec. intros [d1|e] w3 [Ht3 H1]; cbn [after]; [|by split; [congruence|]].
  wp_step. wp_with delete_marked_spec. intros [d2|e] w4 [Ht4 H2]; cbn [after]; [|by split; [congruence|]].
  wp_step. wp_with delete_marked_spec. intros [d3|e] w5 [Ht5 H3]; cbn [after]; [|by split; [congruence|]].
  wp_step. split; [congruence|]. intros ops [= <-]. rewrite !Forall_app.
  split_and!; [by apply H1|by apply H2|by apply H3|apply engine_additions_table].
Qed.

(** A successful replacement leaves the table of the given health; a failure
    changes no table; no other table but the engine's is touched. *)
Lemma ReplaceRules_spec config healthy w :
  core_owned config w ->
  wp (ReplaceRules config healthy)
     (fun r w' => match r with Ok _ => core_installed config healthy w' | Fail _ => ns_tables w' = ns_tables w end /\
        forall name, name <> coreTableName -> name <> engineFilterTableName -> ns_tables w' !! name = ns_tables w !! name) w.
Proof.
  intros Howned. unfold ReplaceRules. wp_step. wp_step. destruct (GatewayConfig_Validate config); cbn [of_error after]; [done|].
  wp_step. wp_with gatewayRulesCurrent_spec; [done|]. intros [[|]|e] w1 [Ht1 Hcur]; cbn [after]; [| |by rewrite Ht1].
  { wp_step. unfold core_installed. rewrite Ht1. split; [by apply Hcur|done]. }
  unfold nft_ListTables. wp_step. apply wp_kcall; intros w2 Ht2; [|cbn; by rewrite Ht2, Ht1].
  unfold wp at 1. cbn [fst snd after]. wp_step. wp_with replaceEngineFilterRules_spec.
  intros [engine|e] w3 [Ht3 Hengine]; cbn [after]; [|by rewrite Ht3, Ht2, Ht1].
  wp_step. unfold nft_Flush. apply wp_kcall; intros w4 Ht4; [|cbn; by rewrite Ht4, Ht3, Ht2, Ht1].
  unfold wp. rewrite apply_batch_app, core_batch_applies.
  2: { rewrite contains_string_spec, Ht4, Ht3. setoid_rewrite list_elem_of_fmap. split.
       - intros ([n t] & Hn & Hin%elem_of_map_to_list). cbn in Hn. subst. eauto.
       - intros [t Hin]. exists (coreTableName, t). split; [done|]. by apply elem_of_map_to_list. }
  cbn [mbind option_bind]. specialize (Hengine engine eq_refl).
  destruct (apply_batch engine _) as [t|] eqn:Eb; cbn; [|by rewrite Ht4, Ht3, Ht2, Ht1].
  assert (forall name, name <> engineFilterTableName ->
    t !! name = <[coreTableName := core_table config healthy]> (ns_tables w4) !! name) as Hother.
  { intros name Hname. eapply apply_batch_other; [|exact Eb]. eapply Forall_impl; [exact Hengine|]. intros op ->. congruence. }
  unfold core_installed. cbn. split.
  - by rewrite Hother, lookup_insert_eq.
  - intros name Hc He. by rewrite Hother, lookup_insert_ne, Ht4, Ht3, Ht2, Ht1.
Qed.

Lemma kt_keep_exact_rule address exact rules : keeps_tables (keep_exact_rule address exact rules).
Proof.
  revert exact. induction rules as [|r rules IH]; intros exact; cbn [keep_exact_rule]; [apply kt_ret|].
  unfold tolerate, RuleDel. kt_walk; apply IH.
Qed.

Lemma kt_keep_exact_route underlay destination gateway exact routes :
  keeps_tables (keep_exact_route underlay destination gateway exact routes).
Proof.
  revert exact. induction routes as [|r routes IH]; intros exact; cbn [keep_exact_route]; [apply kt_ret|].
  unfold tolerate, RouteDel. kt_walk; apply IH.
Qed.

(** Setting up the overlay leaves every rule table alone. *)
Lemma kt_EnsureOverlay read_ip_forward config :
  keeps_tables read_ip_forward -> keeps_tables (EnsureOverlay read_ip_forward config).
Proof.
  intros Hread. unfold EnsureOverlay, firstIPv4, existing_overlay, LinkByName, LinkDel, LinkAdd, AddrReplace, LinkSetUp, LinkSetAlias,
    alter_link, ensureOverlayReturnRule, ensureClusterDNSRoute, ensureClusterDNSRule, requireIPv4Forwarding, RuleList,
    RouteListFiltered, RouteReplace, addRule, tolerate, RuleAdd, RuleDel.
  assert (forall A (m : IO NS A), keeps_tables m -> keeps_tables (io_ignore m)) as kt_ignore.
  { intros A m Hm w. wp_step. eapply wp_mono; [apply Hm|]. done. }
  repeat (kt_walk; match goal with
          | |- keeps_tables (keep_exact_rule _ _ _) => apply kt_keep_exact_rule
          | |- keeps_tables (keep_exact_route _ _ _ _ _) => apply kt_keep_exact_route
          | |- keeps_tables (io_ignore _) => apply kt_ignore
          end); kt_walk.
Qed.

(** ** What the core table does to packets *)

Definition marked_ingress (p : packet) : bool := bool_decide (take 4 (pk_mark p) = native32 PortForwardIngressMark).

(** Healthy: out through the tunnel, and back in for tracked connections and
    for what the port-forward rules marked.  Otherwise nothing. *)
Definition core_allowed (config : GatewayConfig) (healthy : bool) (p : packet) : bool :=
  healthy &&
  (arrives_by p (gd_OverlayInterface config) && leaves_by p (gd_TunnelInterface config) ||
   arrives_by p (gd_TunnelInterface config) && leaves_by p (gd_OverlayInterface config) && (marked_ingress p || tracked p)).

Lemma core_forward_exact config healthy p :
  0 <= pk_ctstate p < 2 ^ 32 ->
  chain_accepts (with_rules core_forward_chain (core_forward_rules config healthy)) p = core_allowed config healthy p.
Proof.
  intros Hct. unfold chain_accepts, core_allowed. cbn [ch_rules with_rules ch_policy core_forward_chain].
  destruct healthy; [|done]. cbn [core_forward_rules eval_rules andb]. unfold eval_rule. cbn [ru_exprs].
  unfold markedPortForward, interfacePair, established. rewrite <- !app_assoc, !eval_arrives.
  destruct (arrives_by p (gd_OverlayInterface config)) eqn:Ho, (arrives_by p (gd_TunnelInterface config)) eqn:Ht;
    rewrite ?eval_leaves; cbn [andb orb].
  all: destruct (leaves_by p (gd_TunnelInterface config)) eqn:Lt, (leaves_by p (gd_OverlayInterface config)) eqn:Lo;
    cbn [app andb orb]; try done.
  all: cbn [eval_exprs meta_value length]; try (rewrite eval_tracked by done); unfold set_reg at 1; cbn [Z.eqb Pos.eqb].
  all: try (change (length (native32 PortForwardIngressMark)) with 4%nat; unfold marked_ingress, bytes_eqb;
            case_bool_decide; cbn [orb]; try done; by destruct (tracked p)).
  all: done.
Qed.
