(* ===== verification/GatewayService.v ===== *)
(** * The gateway data plane's service (internal/gatewaydataplane/service.go)

    The loop that opens the gateway's forwarding rules while the VPN engine and
    the split DNS are observed to work, and closes them otherwise, over any
    backend, engine and probe.  The three flags that the health endpoint reads
    are the state of the component.  Telemetry and the error hooks are left
    out. *)

From S2P Require Import Prelude Netip.

(** provider/engine.go *)
Record EngineObservation := mkEngineObservation {
  eo_TunnelReady : bool;
  eo_DNSReady : bool;
  eo_PublicIP : Addr
}.

(** ** Interfaces; the configuration is part of the implementation *)

Class GatewayBackend (W : Type) := {
  gb_EnsureOverlay : IO W unit;
  gb_ReplaceRules : bool -> IO W unit
}.
Class Engine (W : Type) := engine_Observe : IO W EngineObservation.
Class DNSProber (W : Type) := dns_Probe : IO W unit.

Record flags := mkFlags { f_healthy : bool; f_tunnelReady : bool; f_dnsReady : bool }.

Record HealthStatus := mkHealthStatus { hs_Ready : bool; hs_TunnelReady : bool; hs_DNSReady : bool }.

Definition health_status (f : flags) : HealthStatus := mkHealthStatus (f_healthy f) (f_tunnelReady f) (f_dnsReady f).

(** The health endpoint's answer: a status code, and the flags where asked for. *)
Definition healthHandler (f : flags) (path : string) : Z * option HealthStatus :=
  if String.eqb path "/v1/status" then (200, Some (health_status f))
  else if negb (String.eqb path "/readyz") then (404, None)
  else if negb (f_healthy f) then (503, None) else (200, None).

Section Service.
Context {W : Type} `{GatewayBackend W} `{Engine W} `{DNSProber W}.

Notation M A := (IO (flags * W) A).

(** [ReplaceRules(ctx, config, false)] with its error as a value. *)
Definition close_rules : M (option error) :=
  closed ← io_try (on_world (gb_ReplaceRules false));
  mret (match closed with Ok _ => None | Fail e => Some e end).

(** [return errors.Join(err, ...)] for an [err] that is not nil. *)
Definition fail_joined {A} (err : error) (closed : option error) : M A :=
  match errors_Join [Some err; closed] with Some e => io_fail e | None => io_fail err end.

Definition store_healthy (b : bool) : M unit :=
  f ← get_state; put_state (mkFlags b (f_tunnelReady f) (f_dnsReady f)).
Definition store_tunnel (b : bool) : M unit :=
  f ← get_state; put_state (mkFlags (f_healthy f) b (f_dnsReady f)).
Definition store_dns (b : bool) : M unit :=
  f ← get_state; put_state (mkFlags (f_healthy f) (f_tunnelReady f) b).

(** The split-DNS part of a pass, once the engine is ready. *)
Definition probe_and_open : M unit :=
  probed ← io_try (on_world dns_Probe);
  match probed with
  | Fail err =>
      store_healthy false ;; store_dns false ;;
      closed ← close_rules;
      fail_joined (Errorf "gateway split-DNS observation failed" err) closed
  | Ok _ =>
      store_dns true ;;
      opened ← io_try (on_world (gb_ReplaceRules true));
      match opened with
      | Fail err => store_healthy false ;; closed ← close_rules; fail_joined err closed
      | Ok _ => store_healthy true
      end
  end.

Definition Reconcile : M unit :=
  ensured ← io_try (on_world gb_EnsureOverlay);
  match ensured with
  | Fail err =>
      store_healthy false ;; store_tunnel false ;; store_dns false ;;
      closed ← close_rules;
      fail_joined err closed
  | Ok _ =>
      observed ← io_try (on_world engine_Observe);
      store_tunnel (match observed with Ok o => eo_TunnelReady o | Fail _ => false end) ;;
      match observed with
      | Ok o =>
          if negb (eo_TunnelReady o) || negb (eo_DNSReady o) then
            store_healthy false ;; store_dns false ;;
            closed ← close_rules;
            fail_joined (ENew "gateway engine tunnel or DNS is not ready") closed
          else
            f ← get_state;
            (if negb (f_healthy f) then on_world (gb_ReplaceRules false) else mret tt) ;;
            probe_and_open
      | Fail err =>
          store_healthy false ;; store_dns false ;;
          closed ← close_rules;
          fail_joined err closed
      end
  end.

(** The rounds of [Run] before it is cancelled, and the closing of the rules
    when it is. *)
Fixpoint run_rounds (rounds : nat) : M unit :=
  r ← io_try Reconcile;
  match r with Ok _ => mret tt | Fail _ => store_healthy false end ;;
  match rounds with
  | O => io_ignore (on_world (gb_ReplaceRules false))
  | S rounds' => run_rounds rounds'
  end.

(** [Run] up to a cancellation after some rounds; [listen] opens the health
    endpoint. *)
Definition Run (config_error : option error) (interval : duration) (listen : IO W unit) (rounds : nat) : M unit :=
  if interval <? Second then io_fail (ENew "gateway reconcile interval must be at least one second")
  else
    io_lift (of_error config_error) ;;
    on_world (gb_ReplaceRules false) ;;
    on_world gb_EnsureOverlay ;;
    io_wrap "listen gateway health endpoint" (on_world listen) ;;
    run_rounds rounds.

End Service.

(** ** The order of rule changes

    A backend that records, for each replacement of the rules, what was asked
    for and whether it succeeded. *)
Section Recorded.
Context {W : Type} `{GatewayBackend W} `{Engine W} `{DNSProber W}.

Notation log := (list (bool * bool)).

Definition silently {A} (m : IO W A) : IO (log * W) A := on_world m.
Definition recording (healthy : bool) (m : IO W unit) : IO (log * W) unit := fun lw =>
  let '(r, w') := m lw.2 in (r, (lw.1 ++ [(healthy, res_ok r)], w')).

#[local] Instance recorded_backend : GatewayBackend (log * W) := {
  gb_EnsureOverlay := silently gb_EnsureOverlay;
  gb_ReplaceRules healthy := recording healthy (gb_ReplaceRules healthy)
}.
#[local] Instance recorded_engine : Engine (log * W) := silently engine_Observe.
#[local] Instance recorded_prober : DNSProber (log * W) := silently dns_Probe.

(** What a pass did to the rules, seen from the flags before it. *)
Definition pass_ok (before after : flags) (changes : log) : Prop :=
  after = mkFlags true true true /\
  changes = (if f_healthy before then [(true, true)] else [(false, true); (true, true)]).
Definition pass_failed (before after : flags) (changes : log) : Prop :=
  f_healthy after = false /\ exists done closed, changes = done ++ [(false, closed)].

Definition pass (before : flags) (l : log) (r : res unit) (s : flags * (log * W)) : Prop :=
  exists changes, s.2.1 = l ++ changes /\
    match r with Ok _ => pass_ok before s.1 changes | Fail _ => pass_failed before s.1 changes end.

Lemma wp_silent {A} (m : IO W A) Q (f : flags) (l : log) (w : W) :
  (forall r w', Q r (f, (l, w'))) -> wp (on_world (silently m)) Q (f, (l, w)).
Proof. intros HQ. do 2 apply wp_on_world. wp_run r w' E. apply HQ. Qed.

Lemma wp_recording healthy m Q (f : flags) (l : log) (w : W) :
  (forall r w', Q r (f, (l ++ [(healthy, res_ok r)], w'))) -> wp (on_world (recording healthy m)) Q (f, (l, w)).
Proof.
  intros HQ. apply wp_on_world. unfold wp, recording. cbn. destruct (m w) as [r w']. apply HQ.
Qed.

(** Closing is the last change of a failing pass. *)
Lemma wp_closing err Q (f : flags) (l : log) (w : W) :
  (forall e closed w', Q (Fail e) (f, (l ++ [(false, closed)], w'))) ->
  wp (closed ← close_rules; fail_joined (A := unit) err closed) Q (f, (l, w)).
Proof.
  intros HQ. wp_step. unfold close_rules. do 2 wp_step. cbn [gb_ReplaceRules recorded_backend].
  apply wp_recording. intros r w'. cbn [after]. wp_step. unfold fail_joined.
  destruct (errors_Join _); wp_step; apply HQ.
Qed.

Lemma wp_store_healthy b Q (f : flags) (x : log * W) :
  Q (Ok tt) (mkFlags b (f_tunnelReady f) (f_dnsReady f), x) -> wp (store_healthy b) Q (f, x).
Proof. done. Qed.
Lemma wp_store_tunnel b Q (f : flags) (x : log * W) :
  Q (Ok tt) (mkFlags (f_healthy f) b (f_dnsReady f), x) -> wp (store_tunnel b) Q (f, x).
Proof. done. Qed.
Lemma wp_store_dns b Q (f : flags) (x : log * W) :
  Q (Ok tt) (mkFlags (f_healthy f) (f_tunnelReady f) b, x) -> wp (store_dns b) Q (f, x).
Proof. done. Qed.

Ltac s_store :=
  wp_step; first [apply wp_store_healthy | apply wp_store_tunnel | apply wp_store_dns]; cbn [after].

Lemma failed_closing before l f closed prefix changes (w : W) e :
  f_healthy f = false -> l ++ prefix = changes ->
  pass before l (Fail e) (f, (changes ++ [(false, closed)], w)).
Proof. intros Hf <-. exists (prefix ++ [(false, closed)]). split; [by rewrite app_assoc|]. split; [done|]. eauto. Qed.

Lemma probe_and_open_spec before l changes f (w : W) :
  f_healthy f = f_healthy before -> f_tunnelReady f = true ->
  changes = (if f_healthy before then [] else [(false, true)]) ->
  wp probe_and_open (pass before l) (f, (l ++ changes, w)).
Proof.
  intros Hh Ht Hc. unfold probe_and_open. do 2 wp_step. apply wp_silent. intros [[]|e] w1; cbn [after].
  - s_store. do 2 wp_step. cbn [gb_ReplaceRules recorded_backend]. apply wp_recording. intros [[]|e] w2; cbn [after res_ok].
    + apply wp_store_healthy. exists (changes ++ [(true, true)]). cbn. rewrite app_assoc. split; [done|]. split; [by rewrite Ht|].
      rewrite Hc. by destruct (f_healthy before).
    + s_store. apply wp_closing. intros e' closed w3. eapply failed_closing; [done|by rewrite app_assoc].
  - do 2 s_store. apply wp_closing. intros e' closed w2. by eapply failed_closing.
Qed.

Lemma pass_spec before l (w : W) : wp Reconcile (pass before l) (before, (l, w)).
Proof.
  unfold Reconcile. do 2 wp_step. apply wp_silent. intros [[]|e] w1; cbn [after].
  2: { do 3 s_store. apply wp_closing. intros e' closed w2. eapply (failed_closing _ _ _ _ []); [done|apply app_nil_r]. }
  do 2 wp_step. apply wp_silent. intros [o|e] w2; cbn [after]; s_store.
  2: { do 2 s_store. apply wp_closing. intros e' closed w3. eapply (failed_closing _ _ _ _ []); [done|apply app_nil_r]. }
  destruct (eo_TunnelReady o) eqn:Ht, (eo_DNSReady o) eqn:Hd; cbn [negb orb].
  2,3,4: do 2 s_store; apply wp_closing; intros e' closed w3; eapply (failed_closing _ _ _ _ []); [done|apply app_nil_r].
  do 2 wp_step. cbn [f_healthy]. destruct (f_healthy before) eqn:Hh; cbn [negb]; wp_step.
  - wp_step. rewrite <- (app_nil_r l) at 2. by apply probe_and_open_spec; rewrite ?Hh.
  - cbn [gb_ReplaceRules recorded_backend]. apply wp_recording. intros [[]|e] w3; cbn [after res_ok].
    + by apply probe_and_open_spec; rewrite ?Hh.
    + exists [(false, false)]. split; [done|]. split; [done|]. by exists [], false.
Qed.

(** C31: Every pass that fails ends with closing the rules and reports not
    ready; a pass that succeeds opens them as its last change, reports ready,
    and does not touch a healthy path in between. *)
Theorem Reconcile_closes_last before l (w : W) :
  let '(r, s) := Reconcile (before, (l, w)) in pass before l r s.
Proof. pose proof (pass_spec before l w) as Hp. unfold wp in Hp. by destruct (Reconcile _). Qed.

End Recorded.
