(* ===== verification/Gluetun.v ===== *)
(** * Gluetun (internal/provider/gluetun)

    The VPN engine behind its control server on the loopback: whether tunnel and
    DNS are up, the forwarded port and the public address, and the credential
    that the gateway makes for the control server.  The HTTP client and the JSON
    decoder are parameters; the credential is read from the disk. *)

From Stdlib Require Import Ascii.
From S2P Require Import Prelude Sha256 Netip Api Kube Files Http PortRuntime GatewayService.

(** ** The control server *)

Record ControlRequest := mkControlRequest { cq_URL : string; cq_Accept : string; cq_APIKey : option string }.

Class ControlClient (W : Type) := {
  control_Do : ControlRequest -> IO W HttpResponse;
  control_CloseIdleConnections : IO W unit
}.

(** The first JSON value of a text: the port and the ports, the address, the
    status; missing fields are zero. *)
Class ControlJson := {
  forwarded_json : string -> res (Z * list Z);
  public_ip_json : string -> res string;
  dns_status_json : string -> res string
}.

(** What a reader limited to this many bytes gives. *)
Definition limited (limit : nat) (body : string) : string := String.substring 0 limit body.

Definition readControlAPIKey (f : string * string) : IO FS string :=
  contents ← io_try (os_ReadFile f);
  match contents with
  | Fail _ => io_fail (ENew "read gluetun control identity")
  | Ok apiKey =>
      let key := TrimSpace apiKey in
      if str_empty key || several_lines key then io_fail (ENew "gluetun control identity is invalid") else mret key
  end.

(** ** The forwarded port (portforward.go) *)

Definition PortForwardCapabilityNative : string := "gluetun.waycloak.io/native-port-forward".
Definition observationValidity : duration := 15 * Second.
Definition observationRefresh : duration := 5 * Second.
Definition controlResponseLimit : nat := 16384.

(** [strings.ToLower] as far as it can give a text of the letters below: no other
    rune is mapped to one of them. *)
Definition ascii_lower (c : ascii) : ascii :=
  let n := byte_of c in if (65 <=? n) && (n <=? 90) then char_of (n + 32) else c.
Definition ToLower (s : string) : string := String.string_of_list_ascii (map ascii_lower (String.list_ascii_of_string s)).

Definition PortForwardCapabilityForConfig (config : gmap string string) : res string :=
  let field name := ToLower (TrimSpace (default "" (config !! name))) in
  if String.eqb (field "VPN_SERVICE_PROVIDER") "protonvpn" && String.eqb (field "VPN_TYPE") "openvpn"
  then Ok PortForwardCapabilityNative
  else Fail (ENew "gluetun native configuration does not expose the qualified port-forward capability").

Record NativePortForward := mkNativePortForward {
  np_Client : bool;                              (** an HTTP client is configured *)
  np_ControlURL : string;
  np_APIKeyFile : option (string * string)
}.

(** Duplicates are refused, so there are at most two. *)
Fixpoint native_protocols (seen protocols : list string) : bool :=
  match protocols with
  | [] => true
  | protocol :: rest =>
      if negb (String.eqb protocol ProtocolTCP) && negb (String.eqb protocol ProtocolUDP) then false
      else if contains_string seen protocol then false
      else native_protocols (protocol :: seen) rest
  end.
Definition supportedNativeProtocols (protocols : list string) : bool :=
  if (length protocols =? 0)%nat || (2 <? length protocols)%nat then false else native_protocols [] protocols.

Section Native.
Context {A : Type} `{ControlClient (FS * A)} `{ControlJson} `{Clock (FS * A)}.
Context (c : NativePortForward).

Notation W := (FS * A)%type.

Definition native_ObserveCapabilities : IO W PortForwardCapabilities :=
  mret (mkPortForwardCapabilities [ProtocolTCP; ProtocolUDP] 1 true false observationValidity).

Definition native_getJSON {T} (decode : string -> res T) (path : string) : IO W T :=
  match np_APIKeyFile c with
  | Some file =>
      if negb (np_Client c) || str_empty (np_ControlURL c) then io_fail (ENew "gluetun native client is not configured")
      else
        key ← on_file (readControlAPIKey file);
        response ← control_Do (mkControlRequest (np_ControlURL c +:+ path) "application/json" (Some key));
        if negb (rs_StatusCode response =? StatusOK)
        then io_fail (ENew ("gluetun control returned status " +:+ itoa (rs_StatusCode response)))
        else
          match decode (limited controlResponseLimit (rs_Body response)) with
          | Fail _ => io_fail (ENew "gluetun control response is invalid")
          | Ok output => mret output
          end
  | None => io_fail (ENew "gluetun native client is not configured")
  end.

(** The one port that is forwarded, if there is exactly one. *)
Definition shared_port (forwarded : Z * list Z) : option Z :=
  match forwarded.2 with
  | [port] => if (port =? 0) || (negb (forwarded.1 =? 0) && negb (forwarded.1 =? port)) then None else Some port
  | _ => None
  end.

Definition EnsureLease (request : PortForwardLeaseRequest) : IO W PortForwardLeaseObservation :=
  if str_empty (pr_Identity request) || (pr_InternalPort request =? 0) || negb (supportedNativeProtocols (pr_Protocols request))
  then io_fail (ENew "gluetun native port-forward request is invalid")
  else
    forwarded ← io_wrap "observe gluetun forwarded port" (native_getJSON forwarded_json "/v1/portforward");
    match shared_port forwarded with
    | None => io_fail (ENew "gluetun reports no exact shared forwarded port")
    | Some port =>
        publicIP ← io_wrap "observe gluetun public address" (native_getJSON public_ip_json "/v1/publicip/ip");
        match ParseAddr (TrimSpace publicIP) with
        | Some address =>
            if negb (Addr_IsGlobalUnicast address) then io_fail (ENew "gluetun public address observation is invalid")
            else
              now ← read_clock;
              mret (mkPortForwardLeaseObservation address port now (now + observationRefresh) (now + observationValidity))
        | None => io_fail (ENew "gluetun public address observation is invalid")
        end
    end.

Definition ReleaseLease (_ : PortForwardLeaseRequest) : IO W unit := mret tt.

(** The provider that the port-forward manager is given. *)
Definition NativePortForward_Capability : PortForwardCapability W := {|
  pf_ObserveCapabilities := native_ObserveCapabilities;
  pf_EnsureLease := EnsureLease;
  pf_ReleaseLease := ReleaseLease
|}.

End Native.

(** ** The engine (engine.go) *)

Definition ErrTunnelUnhealthy : string := "gluetun tunnel health check failed".
Definition ErrDNSUnhealthy : string := "gluetun DNS is not running".

(** Errors of the transport: the contexts' and the readers' sentinels, and a
    [url.Error] around the error of the network, which may be a timeout. *)
Definition context_Canceled : string := "context canceled".
Definition context_DeadlineExceeded : string := "context deadline exceeded".
Definition io_EOF : string := "EOF".
Definition io_ErrUnexpectedEOF : string := "unexpected EOF".
Definition network_Timeout : string := "i/o timeout".
Definition url_Error : string := "url.Error".

Definition http_status : string := "unexpected HTTP status ".
Definition httpStatusError (code : Z) : error := ESentinel (http_status +:+ itoa code).

(** The first error of a tree that satisfies a test: [errors.As]. *)
Fixpoint errors_as (test : error -> bool) (e : error) : option error :=
  if test e then Some e
  else
    match e with
    | EWrap _ es =>
        (fix first (l : list error) : option error :=
           match l with
           | [] => None
           | e' :: l' => match errors_as test e' with Some found => Some found | None => first l' end
           end) es
    | _ => None
    end.

Definition is_status (e : error) : bool := match e with ESentinel n => HasPrefix n http_status | _ => false end.
Definition is_url_error (e : error) : bool := match e with EWrap msg _ => String.eqb msg url_Error | _ => false end.
Definition inner_times_out (e : error) : bool :=
  match e with EWrap _ es => existsb (fun e' => errors_is e' network_Timeout) es | _ => false end.

Definition transientTransportError (e : error) : bool :=
  if errors_is e context_Canceled || errors_is e context_DeadlineExceeded then false
  else if bool_decide (is_Some (errors_as is_status e)) then false
  else if errors_is e io_EOF || errors_is e io_ErrUnexpectedEOF then true
  else match errors_as is_url_error e with
       | None => false
       | Some requestErr => negb (inner_times_out requestErr)
       end.

Record GluetunEngine := mkGluetunEngine {
  ge_HealthURL : string;
  ge_ControlURL : string;
  ge_APIKeyFile : option (string * string)
}.

(** [New]. *)
Definition New : GluetunEngine := mkGluetunEngine "http://127.0.0.1:9999/" "http://127.0.0.1:8000" None.

Section Observing.
Context {A : Type} `{ControlClient (FS * A)} `{ControlJson}.
Context (engine : GluetunEngine).

Notation W := (FS * A)%type.

Definition requireOK (url : string) : IO W unit :=
  response ← control_Do (mkControlRequest url "" None);
  if negb (rs_StatusCode response =? StatusOK) then io_fail (httpStatusError (rs_StatusCode response)) else mret tt.

Definition engine_getJSON {T} (decode : string -> res T) (url : string) : IO W T :=
  key ← (match ge_APIKeyFile engine with
         | None => mret None
         | Some file => key ← on_file (readControlAPIKey file); mret (Some key)
         end);
  response ← control_Do (mkControlRequest url "application/json" key);
  if negb (rs_StatusCode response =? StatusOK) then io_fail (httpStatusError (rs_StatusCode response))
  else io_lift (decode (limited 4096 (rs_Body response))).

(** A transport error is looked at once more. *)
Definition verifyTransport {T} (observe : IO W T) : IO W T :=
  first ← io_try observe;
  match first with
  | Ok value => mret value
  | Fail firstErr =>
      if negb (transientTransportError firstErr) then io_fail firstErr
      else io_ignore control_CloseIdleConnections ;; observe
  end.

Definition gluetun_Observe : IO W EngineObservation :=
  tunnel ← io_try (verifyTransport (requireOK (ge_HealthURL engine)));
  match tunnel with
  | Fail _ => io_fail (EWrap "engine" [ESentinel ErrTunnelUnhealthy])
  | Ok _ =>
      status ← io_try (verifyTransport (engine_getJSON dns_status_json (ge_ControlURL engine +:+ "/v1/dns/status")));
      match status with
      | Fail _ => io_fail (ESentinel ErrDNSUnhealthy)
      | Ok status =>
          if negb (String.eqb status "running") then io_fail (ESentinel ErrDNSUnhealthy)
          else
            publicIP ← io_try (engine_getJSON public_ip_json (ge_ControlURL engine +:+ "/v1/publicip/ip"));
            let address :=
              match publicIP with
              | Ok text => match ParseAddr (TrimSpace text) with
                           | Some address => if Addr_IsGlobalUnicast address then address else AddrZero
                           | None => AddrZero
                           end
              | Fail _ => AddrZero
              end in
            mret (mkEngineObservation true true address)
      end
  end.

(** The engine that the gateway service is given. *)
Definition GluetunEngine_Engine : Engine W := gluetun_Observe.

End Observing.

(** ** The control credential (controlauth.go) *)

Definition quoted (s : string) : string := String "034" s +:+ String "034" "".
Definition newline : string := String "010" "".
Definition authenticatedControlRoutes : list string := ["GET /v1/dns/status"; "GET /v1/publicip/ip"; "GET /v1/portforward"].

(** The key that a source makes. *)
Definition control_key (source : string) : string :=
  EncodeToString (Sum256 (bytes_of_string ("waycloak/gluetun-control/v1" +:+ String "000" "" +:+ source))).

(** No character of these texts is escaped in quotes. *)
Definition control_config (apiKey : string) : string :=
  "[[roles]]" +:+ newline +:+ "name = " +:+ quoted "waycloak-gateway" +:+ newline +:+
  "routes = [" +:+ String.concat ", " (map quoted authenticatedControlRoutes) +:+ "]" +:+ newline +:+
  "auth = " +:+ quoted "apikey" +:+ newline +:+ "apikey = " +:+ quoted apiKey +:+ newline.

Definition credential_prefix : string := ".waycloak-gluetun-control-".

Definition writeCredentialFile (f : string * string) (contents : string) : IO FS unit :=
  replace_file credential_prefix f 256 (fun temporary => file_Write temporary contents).

Definition WriteControlAuthentication (sourceKeyPath configPath apiKeyPath : option (string * string)) : IO FS unit :=
  match sourceKeyPath, configPath, apiKeyPath with
  | Some sourceKey, Some config, Some apiKey =>
      if bool_decide (config = apiKey) then io_fail (ENew "exact Gluetun control credential paths are required")
      else
        source ← io_try (os_ReadFile sourceKey);
        match source with
        | Ok source =>
            if str_empty source then io_fail (ENew "read gateway runtime control identity source")
            else
              let key := control_key source in
              os_MkdirAll config.1 ;;
              os_MkdirAll apiKey.1 ;;
              writeCredentialFile config (control_config key) ;;
              writeCredentialFile apiKey (key +:+ newline)
        | Fail _ => io_fail (ENew "read gateway runtime control identity source")
        end
  | _, _, _ => io_fail (ENew "exact Gluetun control credential paths are required")
  end.

(** ** What an observation has seen *)

Section Seen.
Context {A : Type} `{ControlClient (FS * A)} `{ControlJson}.

Notation W := (FS * A)%type.
Context (I : W -> Prop).

(** The disk, which only holds the credential, does not matter; the control
    server leaves [I] alone. *)
Record control_keeps : Prop := {
  co_disk d d' a : I (d, a) -> I (d', a);
  co_do request : keeps I (control_Do request);
  co_close : keeps I control_CloseIdleConnections
}.
Context (Hkeeps : control_keeps).

(** A request to the control server was answered with this value. *)
Definition told {T} (url accept : string) (decode : string -> res T) (limit : nat) (value : T) : Prop :=
  exists key response, answered I (control_Do (mkControlRequest url accept key)) (Ok response) /\
    rs_StatusCode response = StatusOK /\ decode (limited limit (rs_Body response)) = Ok value.

Lemma on_file_keeps {X} (m : IO FS X) : keeps I (on_file m).
Proof. intros [d a] HI. unfold on_file. cbn. destruct (m d). by apply (co_disk Hkeeps d). Qed.

Lemma wp_control request Q (w : W) :
  I w -> (forall r w', I w' -> answered I (control_Do request) r -> Q r w') -> wp (control_Do request) Q w.
Proof. intros HI HQ. apply (wp_asked I); [apply (co_do Hkeeps)|done|done]. Qed.

Lemma native_getJSON_told {T} c (decode : string -> res T) path w :
  I w -> wp (native_getJSON c decode path) (fun r w' => I w' /\ forall value, r = Ok value ->
    told (np_ControlURL c +:+ path) "application/json" decode controlResponseLimit value) w.
Proof.
  intros HI. unfold native_getJSON. destruct (np_APIKeyFile c) as [file|]; [|by wp_step]. destruct (_ || _); [by wp_step|].
  wp_step. eapply wp_mono; [by apply wp_keeps; [apply on_file_keeps|]|]. intros [key|e] w1 HI1; cbn [after]; [|done].
  wp_step. apply wp_control; [done|]. intros [response|e] w2 HI2 Ha; cbn [after]; [|done].
  destruct (rs_StatusCode response =? StatusOK) eqn:Es; cbn [negb]; [|by wp_step].
  destruct (decode _) as [value|e] eqn:Ed; wp_step; [|done]. split; [done|]. intros value' [= <-].
  exists (Some key), response. split; [done|]. split; [by apply Z.eqb_eq|done].
Qed.

(** What a lease of the native provider says is what the control server told: one
    forwarded port, and the public address, at this time. *)
Lemma EnsureLease_told `{Clock W} c request w :
  I w -> wp (EnsureLease c request) (fun r w' => I w' /\ forall lease, r = Ok lease ->
    exists forwarded publicIP,
      told (np_ControlURL c +:+ "/v1/portforward") "application/json" forwarded_json controlResponseLimit forwarded /\
      shared_port forwarded = Some (plo_PublicPort lease) /\
      told (np_ControlURL c +:+ "/v1/publicip/ip") "application/json" public_ip_json controlResponseLimit publicIP /\
      ParseAddr (TrimSpace publicIP) = Some (plo_PublicAddress lease) /\ Addr_IsGlobalUnicast (plo_PublicAddress lease) = true /\
      plo_IssuedAt lease = clock_now w' /\ plo_RenewAfter lease = clock_now w' + observationRefresh /\
      plo_ExpiresAt lease = clock_now w' + observationValidity) w.
Proof.
  intros HI. unfold EnsureLease. destruct (_ || _); [by wp_step|]. do 2 wp_step. eapply wp_mono; [by apply native_getJSON_told|cbn beta].
  intros [forwarded|e] w1 [HI1 Hf]; cbn [after]; [|done]. destruct (shared_port forwarded) as [port|] eqn:Ep; [|by wp_step].
  do 2 wp_step. eapply wp_mono; [by apply native_getJSON_told|cbn beta]. intros [publicIP|e] w2 [HI2 Hp]; cbn [after]; [|done].
  destruct (ParseAddr (TrimSpace publicIP)) as [address|] eqn:Ea; [|by wp_step].
  destruct (Addr_IsGlobalUnicast address) eqn:Eg; cbn [negb]; [|by wp_step]. wp_now. wp_step. split; [done|]. intros lease [= <-].
  exists forwarded, publicIP. cbn. split_and!; auto.
Qed.

Lemma requireOK_told url w : I w -> wp (requireOK url) (fun r w' => I w' /\ (r = Ok tt -> told url "" Ok 0 "")) w.
Proof.
  intros HI. unfold requireOK. wp_step. apply wp_control; [done|]. intros [response|e] w1 HI1 Ha; cbn [after]; [|done].
  destruct (rs_StatusCode response =? StatusOK) eqn:Es; cbn [negb]; wp_step; [|done]. split; [done|]. intros _.
  exists None, response. split; [done|]. split; [by apply Z.eqb_eq|]. unfold limited. by destruct (rs_Body response).
Qed.

Lemma engine_getJSON_told {T} engine (decode : string -> res T) url w :
  I w -> wp (engine_getJSON engine decode url) (fun r w' => I w' /\ forall value, r = Ok value -> told url "application/json" decode 4096 value) w.
Proof.
  intros HI. unfold engine_getJSON. wp_step.
  apply (wp_mono _ (fun _ w' => I w')); [|intros [key|e] w1 HI1; cbn [after]; [|done]].
  { destruct (ge_APIKeyFile engine); [|by wp_step]. apply wp_keeps; [|done]. apply keeps_bind; [apply on_file_keeps|]. intros key. apply keeps_ret. }
  wp_step. apply wp_control; [done|]. intros [response|e] w2 HI2 Ha; cbn [after]; [|done].
  destruct (rs_StatusCode response =? StatusOK) eqn:Es; cbn [negb]; wp_step; [|done]. split; [done|]. intros value Hv.
  exists key, response. split; [done|]. split; [by apply Z.eqb_eq|done].
Qed.

Lemma verifyTransport_seen {T} (P : T -> Prop) (m : IO W T) w :
  (forall w, I w -> wp m (fun r w' => I w' /\ forall v, r = Ok v -> P v) w) -> I w ->
  wp (verifyTransport m) (fun r w' => I w' /\ forall v, r = Ok v -> P v) w.
Proof.
  intros Hm HI. unfold verifyTransport. do 2 wp_step. eapply wp_mono; [by apply Hm|]. intros [v|e] w1 [HI1 Hv]; cbn [after].
  - wp_step. split; [done|]. intros v' [= <-]. by apply Hv.
  - destruct (negb _); [by wp_step|]. do 2 wp_step. eapply wp_mono; [by apply wp_keeps; [apply (co_close Hkeeps)|]|]. intros r w2 HI2. by apply Hm.
Qed.

(** The engine counts as ready only where the tunnel's health check answered well
    and the control server told that DNS is running. *)
Lemma gluetun_Observe_told engine w :
  I w -> wp (gluetun_Observe engine) (fun r w' => I w' /\ forall observation, r = Ok observation ->
    eo_TunnelReady observation = true /\ eo_DNSReady observation = true /\ told (ge_HealthURL engine) "" Ok 0 "" /\
    told (ge_ControlURL engine +:+ "/v1/dns/status") "application/json" dns_status_json 4096 "running") w.
Proof.
  intros HI. unfold gluetun_Observe. do 2 wp_step.
  eapply wp_mono; [apply (verifyTransport_seen (fun _ => told (ge_HealthURL engine) "" Ok 0 "")); [|done]|].
  { intros w' HI'. eapply wp_mono; [by apply requireOK_told|]. intros [[]|e] w1 [HI1 Ht]; split; auto; discriminate. }
  intros [[]|e] w1 [HI1 Ht]; cbn [after]; [|by wp_step]. do 2 wp_step.
  wp_with (verifyTransport_seen (told (ge_ControlURL engine +:+ "/v1/dns/status") "application/json" dns_status_json 4096)); [by intros; apply engine_getJSON_told|done|].
  intros [status|e] w2 [HI2 Hs]; cbn [after]; [|by wp_step]. destruct (String.eqb status "running") eqn:Es; cbn [negb]; [|by wp_step].
  apply String.eqb_eq in Es as ->. do 2 wp_step. eapply wp_mono; [by apply engine_getJSON_told|cbn beta]. intros publicIP w3 [HI3 _]. cbn [after]. wp_step.
  split; [done|]. intros observation [= <-]. cbn. split_and!; [done|done|by apply (Ht tt)|by apply Hs].
Qed.

End Seen.

(** What the control server says with its status is final. *)
Lemma status_final code : transientTransportError (httpStatusError code) = false.
Proof.
  unfold transientTransportError, httpStatusError. cbn [errors_is errors_as is_status].
  unfold HasPrefix. rewrite prefix_app. by destruct (_ || _).
Qed.

(** ** The credential *)

Definition hex_char (c : ascii) : bool := existsb (Ascii.eqb c) (String.list_ascii_of_string "0123456789abcdef").

Lemma hex_digit_char n : 0 <= n < 16 -> hex_char (hex_digit n) = true.
Proof.
  intros Hn. assert (n ∈ map Z.of_nat (seq 0 16)) as Hin.
  { apply list_elem_of_In, in_map_iff. exists (Z.to_nat n). split; [lia|]. apply in_seq. lia. }
  revert Hin. apply (Forall_forall (fun n => hex_char (hex_digit n) = true)). by apply (bool_decide_unpack _).
Qed.

Lemma EncodeToString_hex l : Forall is_byte l -> forallb hex_char (String.list_ascii_of_string (EncodeToString l)) = true.
Proof.
  induction 1 as [|b l Hb _ IH]; [done|]. cbn [EncodeToString String.list_ascii_of_string forallb]. unfold is_byte in Hb.
  rewrite !hex_digit_char, IH by (split; [apply Z.div_pos|apply Z.div_lt_upper_bound] || apply Z.mod_pos_bound; lia). done.
Qed.

(** No white space begins or ends with such a character. *)
Lemma hex_char_cases c (P : ascii -> Prop) : Forall P (String.list_ascii_of_string "0123456789abcdef") -> hex_char c = true -> P c.
Proof.
  intros HP [x [Hx ->%Ascii.eqb_eq]]%existsb_exists. rewrite Forall_forall in HP. apply HP. by apply list_elem_of_In.
Qed.

Lemma hex_no_space c rest : hex_char c = true ->
  leading_space space_encodings (String c rest) = None /\ leading_space (map string_rev space_encodings) (String c rest) = None.
Proof.
  apply (hex_char_cases c (fun c => leading_space space_encodings (String c rest) = None /\
    leading_space (map string_rev space_encodings) (String c rest) = None)).
  cbn [String.list_ascii_of_string]. repeat (apply Forall_cons_2; [split; vm_compute; reflexivity|]). apply Forall_nil_2.
Qed.

Lemma trim_hex encodings fuel c rest : leading_space encodings (String c rest) = None -> trim_left_with encodings fuel (String c rest) = String c rest.
Proof. intros Hl. destruct fuel; [done|]. cbn [trim_left_with]. by rewrite Hl. Qed.

Lemma string_rev_involutive s : string_rev (string_rev s) = s.
Proof. unfold string_rev. by rewrite String.list_ascii_of_string_of_list_ascii, rev_involutive, String.string_of_list_ascii_of_string. Qed.

Lemma TrimSpace_hex key : forallb hex_char (String.list_ascii_of_string key) = true -> key <> "" -> TrimSpace (key +:+ newline) = key.
Proof.
  intros Hhex Hne. unfold TrimSpace.
  assert (trim_left_with space_encodings (String.length (key +:+ newline)) (key +:+ newline) = key +:+ newline) as ->.
  { destruct key as [|c rest]; [done|]. cbn in Hhex. apply andb_true_iff in Hhex as [Hc _].
    change (String c rest +:+ newline) with (String c (rest +:+ newline)). exact (trim_hex _ _ _ _ (proj1 (hex_no_space c _ Hc))). }
  rewrite string_rev_app. change (string_rev newline +:+ string_rev key) with (String "010" (string_rev key)).
  destruct (String.length (key +:+ newline)) as [|n] eqn:El; [by destruct key|]. cbn [trim_left_with].
  assert (leading_space (map string_rev space_encodings) (String "010" (string_rev key)) = Some 1%nat) as ->
    by (by destruct (string_rev key); vm_compute).
  assert (drop_string 1 (String "010" (string_rev key)) = string_rev key) as ->.
  { exact (drop_string_app (String "010" "") (string_rev key)). }
  assert (trim_left_with (map string_rev space_encodings) n (string_rev key) = string_rev key) as ->; [|apply string_rev_involutive].
  destruct (string_rev key) as [|c rest] eqn:Er; [by destruct n|]. assert (hex_char c = true) as Hc; [|exact (trim_hex _ _ _ _ (proj2 (hex_no_space c rest Hc)))].
  rewrite forallb_forall in Hhex. apply Hhex. rewrite <- (string_rev_involutive key), Er. unfold string_rev.
  rewrite String.list_ascii_of_string_of_list_ascii, <- in_rev. by left.
Qed.

Lemma control_key_hex source : forallb hex_char (String.list_ascii_of_string (control_key source)) = true /\ control_key source <> "".
Proof.
  split; [apply EncodeToString_hex, Sum256_bytes|]. unfold control_key. pose proof (Sum256_length (bytes_of_string ("waycloak/gluetun-control/v1" +:+ String "000" "" +:+ source))) as Hl.
  by destruct (Sum256 _).
Qed.

Lemma hex_one_line key : forallb hex_char (String.list_ascii_of_string key) = true -> several_lines key = false.
Proof.
  unfold several_lines. induction (String.list_ascii_of_string key) as [|c l IH]; [done|]. cbn [forallb].
  intros [Hc Hl]%andb_true_iff. change (existsb ?f (c :: l)) with (f c || existsb f l). rewrite (IH Hl), orb_false_r. revert Hc.
  apply (hex_char_cases c (fun c => existsb (Ascii.eqb c) ["013"; "010"; "000"]%char = false)). by apply (bool_decide_unpack _).
Qed.

(** A file with a key and a newline is read as that key. *)
Lemma read_key source f d :
  healthy d -> files d !! f = Some (control_key source +:+ newline) -> readControlAPIKey f d = (Ok (control_key source), d).
Proof.
  intros Hh Hf. destruct (control_key_hex source) as [Hhex Hne]. unfold readControlAPIKey, mbind, io_bind, io_try, os_ReadFile.
  rewrite syscall_healthy, Hf by done. rewrite TrimSpace_hex by done. rewrite hex_one_line, orb_false_r by done.
  destruct (str_empty _) eqn:E; [by apply str_empty_spec in E|done].
Qed.

Lemma writeCredentialFile_spec f contents g d :
  HasPrefix f.2 credential_prefix = false -> HasPrefix g.2 credential_prefix = false ->
  wp (writeCredentialFile f contents) (replaced f (eq contents) g d) d.
Proof.
  intros Hf Hg. apply replace_file_spec; [|done|done]. intros t d' g' Htg Ht.
  eapply wp_mono; [by apply (wp_Write_at g')|]. rewrite Ht. intros [u|e] d2 Hd; [|done]. destruct Hd as [Hs Hd]. split; [done|]. by eexists.
Qed.

(** A file as it was, or with all of the new contents. *)
Definition old_or_new (f : string * string) (contents : string) (d d' : FS) : Prop :=
  files d' !! f = files d !! f \/ files d' !! f = Some contents.

(** The gateway and Gluetun agree on the control key.  When the credential is
    made from a source key, in whichever system call it fails or dies, each of
    the two files is as it was or complete; when it succeeds, the configuration
    gives access with the key that the digest of the source makes, to the three
    routes alone, and reading the key file, on a disk that works, gives that very
    key. *)
Theorem control_key_agreed sourceKey config apiKey d source :
  HasPrefix config.2 credential_prefix = false -> HasPrefix apiKey.2 credential_prefix = false ->
  files d !! sourceKey = Some source ->
  wp (WriteControlAuthentication (Some sourceKey) (Some config) (Some apiKey))
    (fun r d' =>
       old_or_new config (control_config (control_key source)) d (restart d') /\
       old_or_new apiKey (control_key source +:+ newline) d (restart d') /\
       (r = Ok tt ->
          files (restart d') !! config = Some (control_config (control_key source)) /\
          readControlAPIKey apiKey (restart d') = (Ok (control_key source), restart d'))) d.
Proof.
  intros Hc Ha Hs. unfold WriteControlAuthentication. case_bool_decide as Hne; [wp_step; by split; [left|split; [left|]]|].
  set (key := control_key source). do 2 wp_step.
  apply wp_ReadFile; [intros source' d1 Hs' [Hf1 _]|intros e d1 [Hf1 _] _]; cbn [after]; [|wp_step; by split; [left; cbn; by rewrite Hf1|split; [left; cbn; by rewrite Hf1|]]].
  assert (source' = source) as -> by congruence.
  destruct (str_empty source); [wp_step; by split; [left; cbn; by rewrite Hf1|split; [left; cbn; by rewrite Hf1|]]|]. cbv zeta. fold key.
  wp_step. apply wp_MkdirAll; intros d2 [Hf2 _]; cbn [after]; [|by split; [left; cbn; congruence|split; [left; cbn; congruence|]]].
  wp_step. apply wp_MkdirAll; intros d3 [Hf3 _]; cbn [after]; [|by split; [left; cbn; congruence|split; [left; cbn; congruence|]]].
  assert (files d3 = files d) as Hd3 by congruence. wp_step.
  eapply wp_mono; [apply wp_and; [by apply (writeCredentialFile_spec config _ config)|by apply (writeCredentialFile_spec config _ apiKey)]|].
  intros r d4 [Hcfg Hkey]. unfold replaced in Hcfg, Hkey. rewrite decide_True in Hcfg by done. rewrite decide_False in Hkey by congruence.
  destruct Hkey as [Hkey _]. rewrite Hd3 in Hkey. destruct r as [[]|e]; cbn [after].
  2: { destruct Hcfg as [Hcfg _]. rewrite Hd3 in Hcfg. split; [by left|]. split; [by left|done]. }
  destruct Hcfg as (data & Hcfg & <-).
  eapply wp_mono; [apply wp_and; [by apply (writeCredentialFile_spec apiKey _ config)|by apply (writeCredentialFile_spec apiKey _ apiKey)]|].
  intros r d5 [Hcfg5 Hkey5]. unfold replaced in Hcfg5, Hkey5. rewrite decide_False in Hcfg5 by congruence. rewrite decide_True in Hkey5 by done.
  destruct Hcfg5 as [Hcfg5 _]. rewrite Hcfg in Hcfg5. split; [by right|]. destruct r as [[]|e].
  - destruct Hkey5 as (data & Hkey5 & <-). split; [by right|]. intros _. split; [done|]. by apply read_key.
  - destruct Hkey5 as [Hkey5 _]. split; [left; cbn; congruence|done].
Qed.

(** ** A sample credential *)

Module GluetunSample.

Definition vault : FS := mkFS {[("/keys", "tls.key") := "secret"]} ∅ ∅ {["/keys"; "/gluetun"]} 0 [] false.
Definition written : res unit * FS :=
  WriteControlAuthentication (Some ("/keys", "tls.key")) (Some ("/gluetun", "config.toml")) (Some ("/gluetun", "api.key")) vault.

Lemma written_ok : written.1 = Ok tt.
Proof. vm_compute. reflexivity. Qed.

Lemma control_key_agreed_witness :
  readControlAPIKey ("/gluetun", "api.key") (restart written.2) = (Ok (control_key "secret"), restart written.2).
Proof.
  pose proof (control_key_agreed ("/keys", "tls.key") ("/gluetun", "config.toml") ("/gluetun", "api.key") vault "secret"
    eq_refl eq_refl eq_refl) as Hw. unfold wp in Hw. destruct Hw as (_ & _ & Hw). exact (proj2 (Hw written_ok)).
Defined.

End GluetunSample.
