(* ===== verification/DnsProbe.v ===== *)
(** * The DNS probe of the gateway (internal/gatewaydataplane/dns_probe.go)

    Whether the gateway's DNS answers: six questions over UDP and TCP to its own
    listener, each with a bounded number of attempts, each answer checked
    against its question.  The network and the DNS codec
    (golang.org/x/net/dns/dnsmessage) are parameters. *)

From S2P Require Import Prelude Netip CniTypes GatewayCore GatewayService.

(** ** Messages *)

Definition maximumDNSMessage : Z := 65535.
Definition dnsExchangeTimeout : duration := 3 * Second.
Definition dnsProbeAttemptTimeout : duration := Second.
Definition dnsProbeMaximumAttempts : nat := 3.

(** The query types and response codes that the probe tells apart. *)
Definition TypeA : Z := 1.
Definition TypeAAAA : Z := 28.
Definition ClassINET : Z := 1.
Definition RCodeSuccess : Z := 0.
Definition RCodeServerFailure : Z := 2.

Record Header := mkHeader { h_ID : Z; h_Response : bool; h_Truncated : bool; h_RCode : Z }.
Record Question := mkQuestion { q_Name : string; q_Type : Z; q_Class : Z }.

#[global] Instance Question_eq_dec : EqDecision Question.
Proof. solve_decision. Defined.

Record dnsIdentity := mkDnsIdentity { di_id : Z; di_question : Question }.

(** [dnsmessage]: a request with recursion desired, this question and an OPT
    record, where the name is one; a message's header and questions. *)
Class DnsCodec := {
  dns_Build : Z -> Question -> res (list Z);
  dns_Unpack : list Z -> option (Header * list Question)
}.

(** Connections: the context's deadline is that of the dial. *)
Class DnsNetwork (Conn W : Type) := {
  dns_Dial : option time -> string -> string -> IO W Conn;
  dns_SetDeadline : Conn -> time -> IO W unit;
  dns_Write : Conn -> list Z -> IO W unit;
  dns_Read : Conn -> Z -> IO W (list Z);
  dns_ReadFull : Conn -> Z -> IO W (list Z);
  dns_Close : Conn -> IO W unit;
  dns_Canceled : W -> bool
}.

Definition parseDNSMessage `{DnsCodec} (message : list Z) : res (Header * list Question) :=
  if (Z.of_nat (length message) <? 12) || (maximumDNSMessage <? Z.of_nat (length message))
  then Fail (ENew "DNS message size is invalid")
  else match dns_Unpack message with Some parsed => Ok parsed | None => Fail (ENew "DNS message is invalid") end.

Definition validateDNSResponse `{DnsCodec} (response : list Z) (identity : dnsIdentity) : res Header :=
  match parseDNSMessage response with
  | Ok (header, [question]) =>
      if negb (h_Response header) || negb (h_ID header =? di_id identity) || negb (bool_decide (question = di_question identity))
      then Fail (ENew "DNS response does not match the exact query") else Ok header
  | _ => Fail (ENew "DNS response does not match the exact query")
  end.

Definition dnsTypeName (typeCode : Z) : string :=
  if typeCode =? TypeA then "A" else if typeCode =? TypeAAAA then "AAAA" else "TYPE" +:+ itoa typeCode.

Definition dnsRCodeName (rcode : Z) : string :=
  if rcode =? 0 then "NoError" else if rcode =? 1 then "FormErr" else if rcode =? 2 then "ServFail"
  else if rcode =? 3 then "NXDomain" else if rcode =? 4 then "NotImp" else if rcode =? 5 then "Refused" else "RCODE" +:+ itoa rcode.

(** The latency is left out of the text. *)
Definition dnsProbeFailure (network name : string) (typeCode : Z) (phase rcode : string) (err : option error) : error :=
  let message := "dns_probe network=" +:+ network +:+ " qname=" +:+ name +:+ " qtype=" +:+ dnsTypeName typeCode +:+ " phase=" +:+ phase +:+
    (if str_empty rcode then "" else " rcode=" +:+ rcode) in
  match err with Some e => Errorf message e | None => ENew message end.

Definition dnsListenAddress (config : GatewayConfig) : string := Addr_String (gd_GatewayAddress config) +:+ ":" +:+ itoa DNSListenPort.

(** ** Contexts *)

(** [context.WithTimeout] of a context with this deadline. *)
Definition WithTimeout (deadline : option time) (now : time) (timeout : duration) : option time :=
  Some (match deadline with Some d => Z.min d (now + timeout) | None => now + timeout end).

(** ** Frames *)

Section Exchanges.
Context {Conn W : Type} `{DnsNetwork Conn W} `{Timer W} `{DnsCodec}.

Definition ctx_Err (deadline : option time) : IO W bool := fun w =>
  (Ok (dns_Canceled w || match deadline with Some d => d <=? Now w | None => false end), w).

Definition now_of : IO W time := fun w => (Ok (Now w), w).

Definition readDNSFrame (connection : Conn) : IO W (list Z) :=
  bytes ← dns_ReadFull connection 2;
  let size := match bytes with [high; low] => high * 256 + low | _ => 0 end in
  if (size <? 12) || (maximumDNSMessage <? size) then io_fail (ENew "DNS TCP frame size is invalid")
  else dns_ReadFull connection size.

Definition writeDNSFrame (connection : Conn) (message : list Z) : IO W unit :=
  let size := Z.of_nat (length message) in
  if (size <? 12) || (maximumDNSMessage <? size) then io_fail (ENew "DNS TCP frame size is invalid")
  else dns_Write connection [size / 256; size mod 256] ;; dns_Write connection message.

Definition setDNSDeadline (connection : Conn) (deadline : option time) (maximum : duration) : IO W unit :=
  now ← now_of;
  io_ignore (dns_SetDeadline connection
    (match deadline with Some d => if time_Before d (now + maximum) then d else now + maximum | None => now + maximum end)).

(** The connection is closed in any case. *)
Definition with_connection {X} (connection : Conn) (m : IO W X) : IO W X :=
  result ← io_try m;
  io_ignore (dns_Close connection) ;;
  io_lift result.

Definition exchangeDNSUDP (deadline : option time) (address : string) (request : list Z) : IO W (list Z) :=
  connection ← dns_Dial deadline "udp4" address;
  with_connection connection (
    setDNSDeadline connection deadline dnsExchangeTimeout ;;
    dns_Write connection request ;;
    dns_Read connection maximumDNSMessage).

Definition exchangeDNSTCP (deadline : option time) (address : string) (request : list Z) : IO W (list Z) :=
  connection ← dns_Dial deadline "tcp4" address;
  with_connection connection (
    setDNSDeadline connection deadline dnsExchangeTimeout ;;
    writeDNSFrame connection request ;;
    readDNSFrame connection).

Definition exchange (network : string) : option time -> string -> list Z -> IO W (list Z) :=
  if String.eqb network "udp4" then exchangeDNSUDP else exchangeDNSTCP.

(** The attempts from this one on, [more] of them; the answer, if there is one,
    with the number of attempts that were made. *)
Fixpoint attempts_from (probeDeadline : option time) (network address : string) (request : list Z) (made more : nat)
    (last : option error) : IO W (nat * res (list Z)) :=
  match more with
  | O => mret (made, match last with Some err => Fail err | None => Ok [] end)
  | S more =>
      now ← now_of;
      answer ← io_try (exchange network (WithTimeout probeDeadline now dnsProbeAttemptTimeout) address request);
      match answer with
      | Ok response => mret (S made, Ok response)
      | Fail err =>
          over ← ctx_Err probeDeadline;
          if (over : bool) then mret (S made, Fail err) else attempts_from probeDeadline network address request (S made) more (Some err)
      end
  end.

Definition exchangeDNSProbeAttempts (deadline : option time) (network address : string) (request : list Z) (maximumAttempts : nat) :
    IO W (nat * res (list Z)) :=
  now ← now_of;
  attempts_from (WithTimeout deadline now dnsExchangeTimeout) network address request 0 maximumAttempts None.

Definition exchangeDNSProbe (deadline : option time) (network address : string) (request : list Z) : IO W (nat * res (list Z)) :=
  exchangeDNSProbeAttempts deadline network address request dnsProbeMaximumAttempts.

(** ** The probe *)

Context (config : GatewayConfig).

(** The loop of [probe]: a server failure is asked again while attempts are left.
    Every round makes at least one attempt, so the attempts are enough fuel. *)
Fixpoint probe_loop (fuel : nat) (probeDeadline : option time) (network name : string) (typeCode : Z) (request : list Z)
    (identity : dnsIdentity) (remaining : nat) : IO W Header :=
  match fuel with
  | O => io_fail (ENew "unreachable: the attempts are bounded")
  | S fuel =>
      exchanged ← exchangeDNSProbeAttempts probeDeadline network (dnsListenAddress config) request remaining;
      let remaining := (remaining - exchanged.1)%nat in
      match exchanged.2 with
      | Fail err => io_fail (dnsProbeFailure network name typeCode "exchange" "" (Some (Errorf "attempts" err)))
      | Ok response =>
          match validateDNSResponse response identity with
          | Fail err => io_fail (dnsProbeFailure network name typeCode "response_validation" "" (Some err))
          | Ok header =>
              over ← ctx_Err probeDeadline;
              if negb (h_RCode header =? RCodeServerFailure) || (remaining =? 0)%nat || over then mret header
              else probe_loop fuel probeDeadline network name typeCode request identity remaining
          end
      end
  end.

(** The identifiers are counted at 32 bits and sent at 16. *)
Definition probeRequest (name : string) (typeCode : Z) : IO (Z * W) (list Z * dnsIdentity) :=
  ids ← get_state;
  let ids := (ids + 1) mod 2 ^ 32 in
  put_state ids ;;
  let identity := mkDnsIdentity (ids mod 2 ^ 16) (mkQuestion name typeCode ClassINET) in
  request ← io_lift (dns_Build (di_id identity) (di_question identity));
  mret (request, identity).

(** After a truncated answer over UDP, once more over TCP. *)
Definition retry_truncated (name : string) (typeCode : Z) (request : list Z) (identity : dnsIdentity) : IO W unit :=
  exchanged ← exchangeDNSProbe None "tcp4" (dnsListenAddress config) request;
  match exchanged.2 with
  | Fail err => io_fail (dnsProbeFailure "tcp4" name typeCode "truncated_retry_exchange" "" (Some (Errorf "attempts" err)))
  | Ok response =>
      match validateDNSResponse response identity with
      | Fail err => io_fail (dnsProbeFailure "tcp4" name typeCode "truncated_retry_validation" "" (Some err))
      | Ok header =>
          if h_Truncated header
          then io_fail (dnsProbeFailure "tcp4" name typeCode "truncated_retry_validation" "" (Some (ENew "response remained truncated")))
          else if negb (h_RCode header =? RCodeSuccess)
          then io_fail (dnsProbeFailure "tcp4" name typeCode "truncated_retry_rcode" (dnsRCodeName (h_RCode header)) None)
          else mret tt
      end
  end.

Definition probe (network name : string) (typeCode : Z) : IO (Z * W) unit :=
  built ← io_try (probeRequest name typeCode);
  match built with
  | Fail err => io_fail (dnsProbeFailure network name typeCode "request_build" "" (Some err))
  | Ok (request, identity) =>
      on_world (
        now ← now_of;
        let probeDeadline := WithTimeout None now dnsExchangeTimeout in
        header ← probe_loop dnsProbeMaximumAttempts probeDeadline network name typeCode request identity dnsProbeMaximumAttempts;
        if negb (h_RCode header =? RCodeSuccess)
        then io_fail (dnsProbeFailure network name typeCode "rcode" (dnsRCodeName (h_RCode header)) None)
        else if String.eqb network "udp4" && h_Truncated header then retry_truncated name typeCode request identity
        else mret tt)
  end.

Definition probe_checks : list (string * string * Z) :=
  let clusterName := "kubernetes.default.svc." +:+ gd_ClusterDomain config +:+ "." in
  [("udp4", clusterName, TypeA); ("tcp4", clusterName, TypeA); ("udp4", "example.com.", TypeA); ("tcp4", "example.com.", TypeA);
   ("udp4", "example.com.", TypeAAAA); ("tcp4", "example.com.", TypeAAAA)].

Definition Probe : IO (Z * W) unit := io_each (fun check => probe check.1.1 check.1.2 check.2) probe_checks.

(** The probe that the gateway service is given. *)
Definition DNSProbe_Prober : DNSProber (Z * W) := Probe.

End Exchanges.

(** ** What an answer has shown *)

Section Answers.
Context {Conn W : Type} `{DnsNetwork Conn W} `{Timer W} `{DnsCodec}.
Context (config : GatewayConfig) (I : W -> Prop).
Context (exchange_keeps : forall network deadline address request, keeps I (exchange network deadline address request)).

(** The request was exchanged for this response with the gateway's listener. *)
Definition exchanged_for (network : string) (request response : list Z) : Prop :=
  exists deadline, answered I (exchange network deadline (dnsListenAddress config) request) (Ok response).

Lemma attempts_seen probeDeadline network request more : forall made last w,
  I w -> (more = O -> is_Some last) ->
  wp (attempts_from probeDeadline network (dnsListenAddress config) request made more last)
    (fun r w' => I w' /\ exists n answer, r = Ok (n, answer) /\ (made <= n <= made + more)%nat /\ ((0 < more)%nat -> (made < n)%nat) /\
       forall response, answer = Ok response -> exchanged_for network request response) w.
Proof.
  induction more as [|more IH]; intros made last w HI Hlast; cbn [attempts_from].
  - wp_step. split; [done|]. destruct Hlast as [err ->]; [done|]. exists made, (Fail err). split; [done|]. split; [lia|]. split; [lia|done].
  - wp_step. unfold now_of at 1, wp at 1. cbn [after fst snd]. do 2 wp_step.
    apply (wp_asked I); [apply exchange_keeps|done|]. intros [response|err] w1 HI1 Ha; cbn [after].
    + wp_step. split; [done|]. exists (S made), (Ok response). split; [done|]. split; [lia|]. split; [lia|]. intros r [= <-]. by eexists.
    + wp_step. unfold ctx_Err at 1, wp at 1. cbn [after fst snd]. destruct (_ || _).
      * wp_step. split; [done|]. exists (S made), (Fail err). split; [done|]. split; [lia|]. split; [lia|done].
      * eapply wp_mono; [apply IH; [done|by eexists]|]. intros r w2 (HI2 & n & answer & -> & Hn & _ & Hr). split; [done|].
        exists n, answer. split; [done|]. split; [lia|]. split; [lia|done].
Qed.

(** The attempts of one call are at least one and at most what it is given. *)
Lemma exchange_attempts_seen deadline network request maximumAttempts w :
  I w -> (0 < maximumAttempts)%nat ->
  wp (exchangeDNSProbeAttempts deadline network (dnsListenAddress config) request maximumAttempts)
    (fun r w' => I w' /\ exists n answer, r = Ok (n, answer) /\ (0 < n <= maximumAttempts)%nat /\
       forall response, answer = Ok response -> exchanged_for network request response) w.
Proof.
  intros HI Hmax. unfold exchangeDNSProbeAttempts. wp_step. unfold now_of at 1, wp at 1. cbn [after fst snd].
  eapply wp_mono; [apply attempts_seen; [done|lia]|]. intros r w' (HI' & n & answer & -> & Hn & Hpos & Hr). split; [done|].
  exists n, answer. split; [done|]. split; [lia|done].
Qed.

(** A response was validated for the identity. *)
Definition valid_answer (network : string) (request : list Z) (identity : dnsIdentity) (header : Header) : Prop :=
  exists response, exchanged_for network request response /\ validateDNSResponse response identity = Ok header.

Lemma probe_loop_seen fuel : forall probeDeadline network name typeCode request identity remaining w,
  I w -> (0 < remaining)%nat ->
  wp (probe_loop config fuel probeDeadline network name typeCode request identity remaining)
    (fun r w' => I w' /\ forall header, r = Ok header -> valid_answer network request identity header) w.
Proof.
  induction fuel as [|fuel IH]; intros probeDeadline network name typeCode request identity remaining w HI Hrem; cbn [probe_loop]; [by wp_step|].
  wp_step. eapply wp_mono; [by apply exchange_attempts_seen|]. intros r w1 (HI1 & n & answer & -> & Hn & Hr). cbn [after fst snd].
  destruct answer as [response|err]; [|by wp_step]. destruct (validateDNSResponse response identity) as [header|err] eqn:Ev; [|by wp_step].
  wp_step. unfold ctx_Err at 1, wp at 1. cbn [after fst snd]. destruct (_ || _) eqn:Estop.
  - wp_step. split; [done|]. intros h [= <-]. exists response. auto.
  - apply IH; [done|]. apply orb_false_iff in Estop as [Estop _]. apply orb_false_iff in Estop as [_ Estop]. apply Nat.eqb_neq in Estop. lia.
Qed.

(** The loop does not run out of fuel: more of it changes nothing. *)
Lemma probe_loop_enough extra fuel : forall probeDeadline network name typeCode request identity remaining w,
  I w -> (0 < remaining <= fuel)%nat ->
  probe_loop config (fuel + extra) probeDeadline network name typeCode request identity remaining w =
  probe_loop config fuel probeDeadline network name typeCode request identity remaining w.
Proof.
  induction fuel as [|fuel IH]; intros probeDeadline network name typeCode request identity remaining w HI Hrem; [lia|]. cbn [probe_loop Nat.add].
  unfold mbind, io_bind. pose proof (exchange_attempts_seen probeDeadline network request remaining w HI ltac:(lia)) as Hx.
  destruct (exchangeDNSProbeAttempts probeDeadline network (dnsListenAddress config) request remaining w) as [r w1] eqn:E.
  destruct (wp_elim _ _ _ _ _ Hx E) as (HI1 & n & answer & -> & Hn & _). cbn [fst snd]. destruct answer as [response|err]; [|done].
  destruct (validateDNSResponse response identity) as [header|err]; [|done]. unfold ctx_Err. destruct (_ || _) eqn:Estop; [done|].
  apply IH; [done|]. apply orb_false_iff in Estop as [Estop _]. apply orb_false_iff in Estop as [_ Estop]. apply Nat.eqb_neq in Estop. lia.
Qed.

(** The gateway's listener answered this question well: without an error, to
    exactly it, and over UDP either in full or, when asked again over TCP, in
    full. *)
Definition answered_well (network name : string) (typeCode : Z) : Prop :=
  exists request identity header, dns_Build (di_id identity) (di_question identity) = Ok request /\
    di_question identity = mkQuestion name typeCode ClassINET /\ h_RCode header = RCodeSuccess /\
    (valid_answer network request identity header /\ (network = "udp4" -> h_Truncated header = false) \/
     network = "udp4" /\ valid_answer "tcp4" request identity header /\ h_Truncated header = false).

Lemma retry_truncated_seen name typeCode request identity w :
  I w -> wp (retry_truncated config name typeCode request identity) (fun r w' => I w' /\ (r = Ok tt ->
    exists header, valid_answer "tcp4" request identity header /\ h_Truncated header = false /\ h_RCode header = RCodeSuccess)) w.
Proof.
  intros HI. unfold retry_truncated, exchangeDNSProbe. wp_step. eapply wp_mono; [apply exchange_attempts_seen; [done|unfold dnsProbeMaximumAttempts; lia]|].
  intros r w1 (HI1 & n & answer & -> & Hn & Hr). cbn [after fst snd]. destruct answer as [response|err]; [|by wp_step].
  destruct (validateDNSResponse response identity) as [header|err] eqn:Ev; [|by wp_step]. destruct (h_Truncated header) eqn:Et; [by wp_step|].
  destruct (h_RCode header =? RCodeSuccess) eqn:Er; cbn [negb]; wp_step; [|done]. split; [done|]. intros _. exists header.
  split; [exists response; auto|]. split; [done|by apply Z.eqb_eq].
Qed.

Lemma probe_seen network name typeCode ids w :
  I w -> wp (probe config network name typeCode) (fun r sw' => I sw'.2 /\ (r = Ok tt -> answered_well network name typeCode)) (ids, w).
Proof.
  intros HI. unfold probe. do 2 wp_step. unfold probeRequest. wp_step. apply wp_get_state. cbn [after]. cbv zeta. wp_step. apply wp_put_state. cbn [after].
  set (identity := mkDnsIdentity _ _). do 2 wp_step. destruct (dns_Build (di_id identity) (di_question identity)) as [request|err] eqn:Eb; cbn [after]; [|by wp_step].
  wp_step. apply wp_on_world. wp_step. unfold now_of at 1, wp at 1. cbn [after fst snd]. wp_step.
  eapply wp_mono; [apply probe_loop_seen; [done|unfold dnsProbeMaximumAttempts; lia]|]. intros [header|e] w1 [HI1 Hh]; cbn [after]; [|done].
  specialize (Hh header eq_refl). destruct (h_RCode header =? RCodeSuccess) eqn:Er; cbn [negb]; [|by wp_step]. apply Z.eqb_eq in Er.
  destruct (String.eqb network "udp4" && h_Truncated header) eqn:Et.
  - apply andb_true_iff in Et as [->%String.eqb_eq _]. eapply wp_mono; [by apply retry_truncated_seen|]. intros r w2 [HI2 Hr]. split; [done|].
    intros Hok. destruct (Hr Hok) as (header' & Hv & Ht & Hc). exists request, identity, header'. auto 8.
  - wp_step. split; [done|]. intros _. exists request, identity, header. split; [done|]. split; [done|]. split; [done|]. left. split; [done|].
    intros ->. by apply andb_false_iff in Et as [|].
Qed.

(** A successful probe: all six questions were answered well. *)
Lemma Probe_seen ids w :
  I w -> wp (Probe config) (fun r sw' => I sw'.2 /\
    (r = Ok tt -> Forall (fun check => answered_well check.1.1 check.1.2 check.2) (probe_checks config))) (ids, w).
Proof.
  intros HI. unfold Probe. generalize (probe_checks config). intros checks. revert ids w HI.
  induction checks as [|check checks IH]; intros ids w HI; cbn [io_each]; [by wp_step|].
  wp_step. eapply wp_mono; [by apply probe_seen|]. intros [[]|e] [ids1 w1] [HI1 Hc]; cbn [after]; [|done].
  eapply wp_mono; [by apply IH|]. intros r sw2 [HI2 Hr]. split; [done|]. intros Hok. constructor; auto.
Qed.

End Answers.

(** ** How much is asked *)

Section Tally.
Context {Conn W : Type} `{DnsNetwork Conn W} `{Timer W} `{DnsCodec}.
Context (config : GatewayConfig) (tally : W -> Z).
Context (exchange_tally : forall network deadline address request w, tally (exchange network deadline address request w).2 <= tally w + 1).

Lemma attempts_tally probeDeadline network address request more : forall made last w,
  wp (attempts_from probeDeadline network address request made more last)
    (fun r w' => exists n answer, r = Ok (n, answer) /\ (made <= n <= made + more)%nat /\
       tally w' <= tally w + Z.of_nat (n - made)) w.
Proof.
  induction more as [|more IH]; intros made last w; cbn [attempts_from].
  - wp_step. eexists made, _. split; [done|]. split; [lia|]. lia.
  - wp_step. unfold now_of at 1, wp at 1. cbn [after fst snd]. do 2 wp_step.
    pose proof (exchange_tally network (WithTimeout probeDeadline (Now w) dnsProbeAttemptTimeout) address request w) as Ht.
    wp_run answer w1 E. cbn in Ht. destruct answer as [response|err]; cbn [after].
    + wp_step. eexists (S made), _. split; [done|]. split; [lia|]. lia.
    + wp_step. unfold ctx_Err at 1, wp at 1. cbn [after fst snd]. destruct (_ || _).
      * wp_step. eexists (S made), _. split; [done|]. split; [lia|]. lia.
      * eapply wp_mono; [apply IH|]. intros r w2 (n & answer & -> & Hn & Hw2). exists n, answer. split; [done|]. split; [lia|]. lia.
Qed.

Lemma exchange_attempts_tally deadline network address request maximumAttempts w :
  wp (exchangeDNSProbeAttempts deadline network address request maximumAttempts)
    (fun r w' => exists n answer, r = Ok (n, answer) /\ (n <= maximumAttempts)%nat /\ tally w' <= tally w + Z.of_nat n) w.
Proof.
  unfold exchangeDNSProbeAttempts. wp_step. unfold now_of at 1, wp at 1. cbn [after fst snd].
  eapply wp_mono; [apply attempts_tally|]. intros r w' (n & answer & -> & Hn & Ht). exists n, answer. split; [done|]. split; [lia|].
  by rewrite Nat.sub_0_r in Ht.
Qed.

Lemma probe_loop_tally fuel : forall probeDeadline network name typeCode request identity remaining w,
  wp (probe_loop config fuel probeDeadline network name typeCode request identity remaining)
    (fun _ w' => tally w' <= tally w + Z.of_nat remaining) w.
Proof.
  induction fuel as [|fuel IH]; intros probeDeadline network name typeCode request identity remaining w; cbn [probe_loop]; [wp_step; lia|].
  wp_step. eapply wp_mono; [apply exchange_attempts_tally|]. intros r w1 (n & answer & -> & Hn & Ht). cbn [after fst snd].
  destruct answer as [response|err]; [|wp_step; lia]. destruct (validateDNSResponse response identity) as [header|err]; [|wp_step; lia].
  wp_step. unfold ctx_Err at 1, wp at 1. cbn [after fst snd]. destruct (_ || _); [wp_step; lia|].
  eapply wp_mono; [apply IH|]. intros r' w2 Ht2. cbn in Ht2. lia.
Qed.

Lemma probe_tally network name typeCode ids w :
  wp (probe config network name typeCode) (fun _ sw' => tally sw'.2 <= tally w + (if String.eqb network "udp4" then 6 else 3)) (ids, w).
Proof.
  assert (0 <= (if String.eqb network "udp4" then 6 else 3) <= 6) as Hc by (destruct (String.eqb network "udp4"); lia).
  unfold probe. do 2 wp_step. unfold probeRequest. wp_step. apply wp_get_state. cbn [after]. cbv zeta. wp_step. apply wp_put_state. cbn [after].
  do 2 wp_step. destruct (dns_Build _ _) as [request|err]; cbn [after]; [|wp_step; cbn; lia].
  wp_step. apply wp_on_world. wp_step. unfold now_of at 1, wp at 1. cbn [after fst snd]. wp_step.
  eapply wp_mono; [apply probe_loop_tally|]. intros r w1 Ht. unfold dnsProbeMaximumAttempts in Ht. cbn in Ht.
  destruct r as [header|e]; cbn [after snd]; [|destruct (String.eqb _ _); lia].
  destruct (negb _); [wp_step; cbn; destruct (String.eqb _ _); lia|]. destruct (String.eqb network "udp4"); cbn [andb]; [|wp_step; cbn; lia].
  destruct (h_Truncated header); [|wp_step; cbn; lia]. unfold retry_truncated, exchangeDNSProbe. wp_step.
  eapply wp_mono; [apply exchange_attempts_tally|]. intros r w2 (n & answer & -> & Hn & Ht2). unfold dnsProbeMaximumAttempts in Hn. cbn [after fst snd].
  destruct answer as [response|err]; [|wp_step; cbn; lia]. destruct (validateDNSResponse _ _) as [h2|err]; [|wp_step; cbn; lia].
  destruct (h_Truncated h2); [wp_step; cbn; lia|]. destruct (negb _); wp_step; cbn; lia.
Qed.

Definition budget : list (string * string * Z) -> Z := fold_right (fun check n => (if String.eqb check.1.1 "udp4" then 6 else 3) + n) 0.

Lemma each_tally checks : forall ids w,
  wp (io_each (fun check => probe config check.1.1 check.1.2 check.2) checks) (fun _ sw' => tally sw'.2 <= tally w + budget checks) (ids, w).
Proof.
  assert (forall l, 0 <= budget l) as Hpos by (unfold budget; induction l as [|c l IH]; cbn; [lia|destruct (String.eqb _ _); lia]).
  induction checks as [|check checks IH]; intros ids w; cbn [io_each budget fold_right]; [wp_step; cbn; lia|].
  fold (budget checks). specialize (Hpos checks). wp_step. eapply wp_mono; [apply probe_tally|].
  intros [[]|e] [ids1 w1] Ht; cbn [after snd] in *; [|lia]. eapply wp_mono; [apply IH|]. intros r sw2 Ht2. cbn beta in *. lia.
Qed.

(** A pass of the probe makes at most 27 exchanges, whatever the answers are. *)
Lemma Probe_bounded ids w : wp (Probe config) (fun _ sw' => tally sw'.2 <= tally w + 27) (ids, w).
Proof. exact (each_tally (probe_checks config) ids w). Qed.

End Tally.

(** ** Frames *)

Section Frames.

(** A connection whose other end is the same: what is written can be read. *)
#[local] Instance loopback : DnsNetwork unit (list Z) := {|
  dns_Dial _ _ _ := mret tt;
  dns_SetDeadline _ _ := mret tt;
  dns_Write _ bytes := fun pipe => (Ok tt, pipe ++ bytes);
  dns_Read _ size := fun pipe => (Ok (take (Z.to_nat size) pipe), drop (Z.to_nat size) pipe);
  dns_ReadFull _ size := fun pipe =>
    if Z.of_nat (length pipe) <? size then (Fail (ESentinel "unexpected EOF"), [])
    else (Ok (take (Z.to_nat size) pipe), drop (Z.to_nat size) pipe);
  dns_Close _ := mret tt;
  dns_Canceled _ := false
|}.

(** A message that can be framed at all is read back as it was written, with
    what follows it left for the next frame. *)
Lemma frame_roundtrip message rest :
  12 <= Z.of_nat (length message) <= maximumDNSMessage ->
  exists pipe, writeDNSFrame tt message [] = (Ok tt, pipe) /\ readDNSFrame tt (pipe ++ rest) = (Ok message, rest).
Proof.
  intros Hl. unfold writeDNSFrame. set (size := Z.of_nat (length message)) in *.
  destruct (_ || _) eqn:E; [apply orb_true_iff in E as [?%Z.ltb_lt|?%Z.ltb_lt]; lia|].
  exists ([size / 256; size mod 256] ++ message). split; [done|]. unfold readDNSFrame, mbind, io_bind. cbn [dns_ReadFull loopback].
  rewrite (proj2 (Z.ltb_ge _ 2)) by (rewrite !length_app; cbn; lia). change (Z.to_nat 2) with 2%nat. cbn [app take drop]. rewrite take_0, drop_0.
  assert (size / 256 * 256 + size mod 256 = size) as -> by (pose proof (Z.div_mod size 256); lia).
  destruct (_ || _) eqn:E2; [congruence|]. rewrite (proj2 (Z.ltb_ge _ _)) by (rewrite length_app; lia).
  unfold size. by rewrite Nat2Z.id, take_app_length, drop_app_length.
Qed.

End Frames.
