(* ===== verification/GatewayReady.v ===== *)
(** * The gateway opens on evidence

    The gateway service with Gluetun as its engine and the DNS probe: what has
    been seen whenever it asks its backend to forward. *)

From S2P Require Import Prelude Sha256 Netip CniTypes Files Http GatewayCore GatewayService Gluetun DnsProbe.

(** ** Any engine and any probe *)

Section Guarded.
Context {W : Type} `{GatewayBackend W} `{Engine W} `{DNSProber W}.
Context (J : W -> Prop) (E P : Prop).

Record service_guard : Prop := {
  sg_overlay : keeps J gb_EnsureOverlay;
  sg_rules healthy : keeps J (gb_ReplaceRules healthy);
  sg_engine w : J w -> wp engine_Observe (fun r w' => J w' /\ forall o, r = Ok o -> eo_TunnelReady o = true -> eo_DNSReady o = true -> E) w;
  sg_probe w : J w -> wp dns_Probe (fun r w' => J w' /\ (r = Ok tt -> P)) w
}.
Context (Hguard : service_guard).

Notation log := (list (bool * bool)).
#[local] Existing Instance recorded_backend.
#[local] Existing Instance recorded_engine.
#[local] Existing Instance recorded_prober.

(** The backend was asked to open. *)
Definition opening (changes : log) : Prop := exists done, (true, done) ∈ changes.

(** What the backend was asked for beyond [l], opening only with both. *)
Definition guarded (l : log) (r : res unit) (s : flags * (log * W)) : Prop :=
  J s.2.2 /\ exists changes, s.2.1 = l ++ changes /\ (opening changes -> E /\ P).

Lemma opening_app c c' : opening (c ++ c') <-> opening c \/ opening c'.
Proof. unfold opening. setoid_rewrite elem_of_app. split; [intros [d [?|?]]; eauto|intros [[d ?]|[d ?]]; eauto]. Qed.
Lemma opening_false b : ~ opening [(false, b)].
Proof. intros [d Hd%list_elem_of_singleton]. discriminate. Qed.

Lemma wp_unlogged {A} (m : IO W A) Q (f : flags) (l : log) (w : W) :
  wp m (fun r w' => Q r (f, (l, w'))) w -> wp (on_world (silently m)) Q (f, (l, w)).
Proof. intros Hm. by do 2 apply wp_on_world. Qed.

Lemma wp_change healthy Q (f : flags) (l : log) (w : W) :
  J w -> (forall r w', J w' -> Q r (f, (l ++ [(healthy, res_ok r)], w'))) -> wp (on_world (gb_ReplaceRules healthy)) Q (f, (l, w)).
Proof.
  intros HJ HQ. apply wp_on_world. unfold wp. cbn [gb_ReplaceRules recorded_backend]. unfold recording. cbn [fst snd].
  pose proof (sg_rules Hguard healthy w HJ) as HJ'. destruct (gb_ReplaceRules healthy w) as [r w']. by apply HQ.
Qed.

(** Closing adds no opening. *)
Lemma wp_shut err l changes (f : flags) (w : W) :
  J w -> (opening changes -> E /\ P) -> wp (closed ← close_rules; fail_joined (A := unit) err closed) (guarded l) (f, (l ++ changes, w)).
Proof.
  intros HJ Hc. wp_step. unfold close_rules. do 2 wp_step. apply wp_change; [done|]. intros r w' HJ'. cbn [after]. wp_step. unfold fail_joined.
  assert (guarded l (Fail err) (f, ((l ++ changes) ++ [(false, res_ok r)], w'))) as Hg.
  { split; [done|]. exists (changes ++ [(false, res_ok r)]). split; [by rewrite app_assoc|]. intros [Ho|Ho]%opening_app; [by apply Hc|by apply opening_false in Ho]. }
  by destruct (errors_Join _); wp_step.
Qed.

Lemma no_opening : opening [] -> E /\ P.
Proof. by intros [d Hd%elem_of_nil]. Qed.

Lemma wp_shut_at_once err l (f : flags) (w : W) :
  J w -> wp (closed ← close_rules; fail_joined (A := unit) err closed) (guarded l) (f, (l, w)).
Proof. intros HJ. pose proof (wp_shut err l [] f w HJ no_opening) as Hs. by rewrite app_nil_r in Hs. Qed.

Lemma wp_store b m (Q : res unit -> flags * (log * W) -> Prop) (f : flags) (x : log * W) :
  In (m b) [store_healthy b; store_tunnel b; store_dns b] -> (forall f', Q (Ok tt) (f', x)) -> wp (m b) Q (f, x).
Proof. intros Hm HQ. destruct Hm as [<-|[<-|[<-|[]]]]; apply HQ. Qed.

Ltac g_store := wp_step; (apply (wp_store _ store_healthy) || apply (wp_store _ store_tunnel) || apply (wp_store _ store_dns)); [cbn; tauto|];
  intros ?; cbn [after].

Lemma probe_and_open_guarded l changes f (w : W) :
  J w -> E -> (opening changes -> E /\ P) -> wp probe_and_open (guarded l) (f, (l ++ changes, w)).
Proof.
  intros HJ HE Hc. unfold probe_and_open. do 2 wp_step. apply wp_unlogged. eapply wp_mono; [by apply (sg_probe Hguard)|].
  intros [[]|e] w1 [HJ1 HP]; cbn [after].
  - specialize (HP eq_refl). g_store. do 2 wp_step. apply wp_change; [done|]. intros [[]|e] w2 HJ2; cbn [after res_ok].
    + apply (wp_store _ store_healthy); [cbn; tauto|]. intros f2. split; [done|]. exists (changes ++ [(true, true)]). split; [by rewrite <- app_assoc|]. by intros _.
    + g_store. rewrite <- app_assoc. apply wp_shut; [done|]. by intros _.
  - do 2 g_store. by apply wp_shut.
Qed.

(** Every request to open the rules comes after both. *)
Lemma Reconcile_guarded before l (w : W) : J w -> wp Reconcile (guarded l) (before, (l, w)).
Proof.
  intros HJ. unfold Reconcile. do 2 wp_step. apply wp_unlogged. eapply wp_mono; [apply wp_keeps; [apply (sg_overlay Hguard)|done]|].
  intros [[]|e] w1 HJ1; cbn [after]; [|do 3 g_store; by apply wp_shut_at_once].
  do 2 wp_step. apply wp_unlogged. eapply wp_mono; [by apply (sg_engine Hguard)|]. intros [o|e] w2 [HJ2 HE]; cbn [after]; g_store.
  2: { do 2 g_store. by apply wp_shut_at_once. }
  destruct (eo_TunnelReady o) eqn:Ht, (eo_DNSReady o) eqn:Hd; cbn [negb orb].
  2,3,4: do 2 g_store; by apply wp_shut_at_once.
  specialize (HE o eq_refl eq_refl eq_refl) || specialize (HE o eq_refl Ht Hd). wp_step. apply wp_get_state. cbn [after]. wp_step. destruct (negb _).
  - apply wp_change; [done|]. intros [[]|e] w3 HJ3; cbn [after res_ok].
    + apply probe_and_open_guarded; [done|done|]. by intros ?%opening_false.
    + split; [done|]. eexists. split; [done|]. by intros ?%opening_false.
  - wp_step. match goal with |- wp _ _ (?f, _) => pose proof (probe_and_open_guarded l [] f w2 HJ2 HE no_opening) as Hp end.
    by rewrite app_nil_r in Hp.
Qed.

End Guarded.

(** ** Gluetun and the DNS probe *)

Section Evidence.
Context {Conn A : Type} `{ControlClient (FS * A)} `{ControlJson} `{DnsNetwork Conn (FS * A)} `{Timer (FS * A)} `{DnsCodec}.
Context `{GatewayBackend (Z * (FS * A))} (engine : GluetunEngine) (config : GatewayConfig).

Notation W := (FS * A)%type.

#[local] Existing Instance recorded_backend.
#[local] Existing Instance recorded_engine.
#[local] Existing Instance recorded_prober.
#[local] Instance gluetun_engine : Engine (Z * W) := on_world (gluetun_Observe engine).
#[local] Instance dns_prober : DNSProber (Z * W) := Probe config.

(** What everything that a pass asks leaves alone. *)
Record gateway_keeps (I : W -> Prop) : Prop := {
  gk_control : control_keeps I;
  gk_exchange network deadline address request : keeps I (exchange (Conn := Conn) network deadline address request);
  gk_overlay : keeps (fun zw : Z * W => I zw.2) gb_EnsureOverlay;
  gk_rules healthy : keeps (fun zw : Z * W => I zw.2) (gb_ReplaceRules healthy)
}.

(** The health check of the tunnel answered well, and the control server told
    that DNS is running. *)
Definition engine_up (I : W -> Prop) : Prop :=
  told I (ge_HealthURL engine) "" Ok 0 "" /\
  told I (ge_ControlURL engine +:+ "/v1/dns/status") "application/json" dns_status_json 4096 "running".

Definition dns_up (I : W -> Prop) : Prop :=
  Forall (fun check => answered_well (Conn := Conn) config I check.1.1 check.1.2 check.2) (probe_checks config).

Lemma evidence_guard I : gateway_keeps I -> service_guard (fun zw => I zw.2) (engine_up I) (dns_up I).
Proof.
  intros HI. split; [apply (gk_overlay _ HI)|apply (gk_rules _ HI)| |].
  - intros [ids w] HIw. apply wp_on_world. eapply wp_mono; [by apply (gluetun_Observe_told I (gk_control _ HI))|].
    intros r w' [HI' Hr]. split; [done|]. intros o Ho _ _. split; by apply (Hr o Ho).
  - intros [ids w] HIw. eapply wp_mono; [by apply (Probe_seen config I (gk_exchange _ HI))|]. by intros r sw'.
Qed.

(** C30: The gateway forwards only on evidence.  A pass of the gateway's service
    asks its backend to open the rules only after, within this pass, the health
    check of Gluetun's tunnel answered well, its control server told that DNS is
    running, and the gateway's own DNS listener answered each of the six
    questions, for a cluster name and for addresses of both families, over UDP
    and TCP, with a response that is to exactly that question and without an
    error; a truncated one over UDP does not count, but the full one to the same
    request over TCP does. *)
Theorem opens_on_evidence before l ids w :
  wp Reconcile
    (fun _ s => exists changes, s.2.1 = l ++ changes /\ forall I, gateway_keeps I -> I w -> opening changes -> engine_up I /\ dns_up I)
    (before, (l, (ids, w))).
Proof.
  assert (wp Reconcile (fun _ s => exists changes, s.2.1 = l ++ changes) (before, (l, (ids, w)))) as Hlog.
  { pose proof (pass_spec before l (ids, w)) as Hp. eapply wp_mono; [exact Hp|]. intros r s (changes & Hs & _). eauto. }
  eapply wp_mono; [apply wp_and; [exact Hlog|]|].
  - apply (wp_forall (B := W -> Prop)). intros I. apply wp_given. intros HI. apply wp_given. intros HIw.
    by apply (Reconcile_guarded (fun zw => I zw.2) (engine_up I) (dns_up I) (evidence_guard I HI) before l (ids, w)).
  - cbn beta. intros r s [[changes Hs] Hall]. exists changes. split; [done|]. intros I HI HIw Hopen.
    destruct (Hall I HI HIw) as (_ & changes' & Hs' & Hev). rewrite Hs in Hs'. apply app_inv_head in Hs' as ->. by apply Hev.
Qed.

End Evidence.

(** ** A gateway that answers *)

Module ReadySample.

(** A message is the identifier, the type, ten bytes and the name; the peer
    sends back what it got, which is then read as a response. *)
#[local] Instance codec : DnsCodec := {|
  dns_Build id question := Ok ([id; q_Type question] ++ repeat 0 10 ++ bytes_of_string (q_Name question));
  dns_Unpack message :=
    match message with
    | id :: typeCode :: rest => Some (mkHeader id true false RCodeSuccess, [mkQuestion (string_of_bytes (drop 10 rest)) typeCode ClassINET])
    | _ => None
    end
|}.

Notation W := (FS * list Z)%type.

#[local] Instance network : DnsNetwork unit W := {|
  dns_Dial _ _ _ := fun w => (Ok tt, (w.1, []));
  dns_SetDeadline _ _ := mret tt;
  dns_Write _ bytes := fun w => (Ok tt, (w.1, w.2 ++ bytes));
  dns_Read _ size := fun w => (Ok w.2, (w.1, []));
  dns_ReadFull _ size := fun w => (Ok (take (Z.to_nat size) w.2), (w.1, drop (Z.to_nat size) w.2));
  dns_Close _ := mret tt;
  dns_Canceled _ := false
|}.

#[local] Instance timer : Timer W := {| Now _ := 0; Select _ _ := mret false |}.
#[local] Instance json : ControlJson := {| forwarded_json _ := Ok (0, []); public_ip_json := Ok; dns_status_json := Ok |}.
#[local] Instance backend : GatewayBackend (Z * W) := {| gb_EnsureOverlay := mret tt; gb_ReplaceRules _ := mret tt |}.

(** A control server that gives this status. *)
Definition control (status : string) : ControlClient W := {|
  control_Do request := mret (mkHttpResponse 200 (if String.eqb (cq_Accept request) "" then "" else status));
  control_CloseIdleConnections := mret tt
|}.

Definition config : GatewayConfig :=
  mkGatewayConfig "gateway-uid" (mkPrefix (Addr4 (ipv4_value 10 88 0 0)) 24) (Addr4 (ipv4_value 10 88 0 1)) "wcgw" "eth0" "tun0"
    4789 7 1400 8080 (mkAddrPort (Addr4 (ipv4_value 127 0 0 1)) 53) (mkAddrPort (Addr4 (ipv4_value 10 96 0 10)) 53) "cluster.local".

Definition pass (status : string) : res unit * (flags * (list (bool * bool) * (Z * W))) :=
  let engine := gluetun_engine (H := control status) New in
  let prober := dns_prober (Conn := unit) config in
  Reconcile (H := recorded_backend) (H0 := recorded_engine) (H1 := recorded_prober)
    (mkFlags false false false, ([], (0, (mkFS ∅ ∅ ∅ ∅ 0 [] false, [])))).

(** With everything up the rules are opened, after six identifiers; with DNS
    stopped they stay closed. *)
Lemma ready_opens : (pass "running").1 = Ok tt /\ (pass "running").2.2.1 = [(false, true); (true, true)] /\ (pass "running").2.2.2.1 = 6.
Proof. by vm_compute. Qed.
Lemma stopped_stays : res_ok (pass "stopped").1 = false /\ (pass "stopped").2.2.1 = [(false, true)].
Proof. by vm_compute. Qed.

End ReadySample.
