(* ===== verification/GatewayPath.v ===== *)
(** * The gateway as a whole

    Two processes share the gateway's network namespace: the data plane's
    service, which owns the core table, and the port-forward runtime, whose
    manager owns the table of the leases.  Here both run over the modelled
    kernel, interleaved in any order and with any kernel call failing, and the
    theorems say which packets from the VPN tunnel can reach the overlay. *)

From S2P Require Import Prelude Sha256 Netip Api Kube Nft Dataplane Kernel PortRuntime PortManager PortRules GatewayCore GatewayService.

(** ** Packets through both tables *)

(** The packet on its way out, once routed. *)
Definition out_by (name : string) (p : packet) : packet :=
  mkPacket (pk_iif p) name (pk_nfproto p) (pk_l4proto p) (pk_network p) (pk_transport p) (pk_mark p) (pk_ctstate p).

(** Every forward chain of every table accepts it. *)
Definition passes_forward (tables : gmap string (list nchain)) (p : packet) : bool :=
  forallb (fun nt => table_passes_at ChainHookForward nt.2 p) (map_to_list tables).

(** The translation rules of the leases; no other table of the gateway
    translates packets that come in. *)
Definition prerouting_rules (tables : gmap string (list nchain)) : list nrule :=
  match tables !! gatewayRuleTable with
  | Some t => flat_map ch_rules (List.filter (fun c => bool_decide (ch_type c = ChainTypeNAT) && bool_decide (ch_hook c = ChainHookPrerouting)) t)
  | None => []
  end.

(** A packet from outside is forwarded through this interface. *)
Definition forwarded (tables : gmap string (list nchain)) (name : string) (p : packet) : bool :=
  passes_forward tables (out_by name (translate (prerouting_rules tables) p)).

(** A new packet from the tunnel: no tracked connection, no mark. *)
Definition fresh_from (tunnel : string) (p : packet) : Prop :=
  ipv4_packet p /\ arrives_by p tunnel = true /\ tracked p = false /\ marked_ingress p = false.

Definition lease_backend (config : GatewayConfig) : LinuxRuleBackend :=
  mkLinuxRuleBackend (gd_TunnelInterface config) (gd_OverlayInterface config).

(** *** Rewritten headers *)

Lemma splice_length off data l : (off + length data <= length l)%nat -> length (splice off data l) = length l.
Proof. intros H. unfold splice. rewrite !length_app, length_take, length_drop. lia. Qed.

Lemma splice_slice off data l :
  (off <= length l)%nat -> take (length data) (drop off (splice off data l)) = data.
Proof.
  intros H. unfold splice. rewrite drop_app_length' by (rewrite length_take; lia). by rewrite take_app_length.
Qed.

Lemma splice_bytes off data l : Forall is_byte data -> Forall is_byte l -> Forall is_byte (splice off data l).
Proof. intros Hd Hl. unfold splice. rewrite !Forall_app. split_and!; [by apply Forall_take|done|by apply Forall_drop]. Qed.

Lemma delivered_ipv4 rp p : ipv4_packet p -> valid_rule rp.1 -> ipv4_packet (delivered_to rp p).
Proof.
  intros ((Hn & Ht) & Hf & Hln & Hlt & Hct) (v & Hv & _)%valid_target. unfold delivered_to. rewrite Hv. cbn [AsSlice].
  unfold ipv4_packet, well_formed. cbn [pk_nfproto pk_network pk_transport pk_ctstate rewrite_destination set_mark].
  split_and!; try done.
  - apply splice_bytes; [apply be_bytes_range|done].
  - apply splice_bytes; [apply be_bytes_range|done].
  - rewrite splice_length; [done|]. rewrite be_bytes_length. lia.
  - rewrite splice_length; [done|]. unfold portBytes. rewrite be_bytes_length. lia.
  - apply Hct.
  - apply Hct.
Qed.

Lemma delivered_destination rp p :
  ipv4_packet p -> valid_rule rp.1 ->
  destination (delivered_to rp p) = Some (overlay_target rp.1) /\
  destination_port (delivered_to rp p) = Some (u16 (gr_TargetPort rp.1)).
Proof.
  intros ((Hn & Ht) & Hf & Hln & Hlt & _) (v & Hv & Hr)%valid_target. unfold delivered_to. rewrite Hv. cbn [AsSlice]. split.
  - unfold destination. cbn [pk_nfproto rewrite_destination set_mark pk_network]. rewrite Hf.
    change (NFPROTO_IPV4 =? NFPROTO_IPV4) with true. cbv iota.
    pose proof (splice_slice 16 (be_bytes 4 v) (pk_network p) ltac:(lia)) as Hs. rewrite be_bytes_length in Hs.
    rewrite Hs, be_bytes_length. cbn [Nat.eqb]. do 2 f_equal.
    apply (be_bytes_eq 4 (be_bytes 4 v) v); [apply be_bytes_range|apply be_bytes_length|done|done].
  - unfold destination_port. cbn [rewrite_destination set_mark pk_transport].
    pose proof (splice_slice 2 (portBytes (gr_TargetPort rp.1)) (pk_transport p) ltac:(lia)) as Hs.
    rewrite portBytes_u16, be_bytes_length in Hs. rewrite portBytes_u16, Hs, be_bytes_length. cbn [Nat.eqb]. f_equal.
    apply (be_bytes_eq 2 (be_bytes 2 _) (u16 (gr_TargetPort rp.1))); [apply be_bytes_range|apply be_bytes_length|apply u16_range|done].
Qed.

(** *** Both tables *)

Lemma core_table_passes config healthy p :
  0 <= pk_ctstate p < 2 ^ 32 -> table_passes_at ChainHookForward (core_table config healthy) p = core_allowed config healthy p.
Proof.
  intros Hct. unfold table_passes_at, core_table. cbn [forallb].
  change (hook_filter ChainHookForward (with_rules core_forward_chain _)) with true.
  change (hook_filter ChainHookForward (with_rules core_postrouting_chain _)) with false.
  cbn [negb orb]. by rewrite core_forward_exact, !andb_true_r.
Qed.

Lemma gateway_table_passes b rules p :
  ipv4_packet p -> Forall valid_rule rules ->
  table_passes_at ChainHookForward (gateway_table b rules) p = forward_allowed b (pairs rules) p.
Proof.
  intros Hp Hrules. unfold table_passes_at, gateway_table. cbv zeta. cbn [forallb].
  change (hook_filter ChainHookForward (with_rules prerouting_chain _)) with false.
  change (hook_filter ChainHookForward (with_rules forward_chain _)) with true.
  change (hook_filter ChainHookForward (with_rules postrouting_chain _)) with false.
  cbn [negb orb andb]. rewrite andb_true_r. apply forward_chain_exact; [done|]. by apply pairs_valid.
Qed.

Lemma gateway_prerouting b rules (tables : gmap string (list nchain)) :
  tables !! gatewayRuleTable = Some (gateway_table b rules) ->
  prerouting_rules tables = map (fun rp => dnat_rule b rp.1 rp.2) (pairs rules).
Proof. intros Ht. unfold prerouting_rules. rewrite Ht. cbn. apply app_nil_r. Qed.

Section Path.
Variable config : GatewayConfig.
Hypothesis distinct_names : interfaceName (gd_OverlayInterface config) <> interfaceName (gd_TunnelInterface config).

Notation b := (lease_backend config).

(** What a fresh packet looks like after translation. *)
Definition translated (rules : list GatewayRule) (p : packet) : packet :=
  match List.find (ingress_match b p) (pairs rules) with Some rp => delivered_to rp p | None => p end.

Lemma fresh_not_overlay p : fresh_from (gd_TunnelInterface config) p -> arrives_by p (gd_OverlayInterface config) = false.
Proof.
  intros (_ & Ha & _). apply bool_decide_eq_false. apply bool_decide_eq_true in Ha. congruence.
Qed.

(** The packet the core table sees is marked exactly if it was for a lease. *)
Lemma fresh_core healthy rules name p :
  Forall valid_rule rules -> fresh_from (gd_TunnelInterface config) p ->
  table_passes_at ChainHookForward (core_table config healthy) (out_by name (translated rules p)) =
  healthy && bool_decide (interfaceName name = interfaceName (gd_OverlayInterface config)) &&
  existsb (ingress_match b p) (pairs rules).
Proof.
  intros Hrules Hfresh. pose proof (fresh_not_overlay p Hfresh) as Hno. destruct Hfresh as (Hp & Ha & Ht & Hm).
  unfold translated. destruct (List.find (ingress_match b p) (pairs rules)) as [rp|] eqn:Ef.
  - apply List.find_some in Ef as [Hin Hmatch].
    assert (existsb (ingress_match b p) (pairs rules) = true) as -> by (apply existsb_exists; eauto).
    set (p' := out_by name (delivered_to rp p)). rewrite core_table_passes by apply Hp. unfold core_allowed.
    change (arrives_by p' (gd_OverlayInterface config)) with (arrives_by p (gd_OverlayInterface config)).
    change (arrives_by p' (gd_TunnelInterface config)) with (arrives_by p (gd_TunnelInterface config)).
    change (leaves_by p' (gd_OverlayInterface config)) with
      (bool_decide (interfaceName name = interfaceName (gd_OverlayInterface config))).
    rewrite Hno, Ha. change (marked_ingress p') with true. cbn [orb andb]. by destruct healthy, (bool_decide _).
  - assert (existsb (ingress_match b p) (pairs rules) = false) as ->.
    { apply not_true_iff_false. rewrite existsb_exists. intros (rp & Hin & Hmatch). by rewrite (List.find_none _ _ Ef rp Hin) in Hmatch. }
    rewrite andb_false_r, core_table_passes by apply Hp. unfold core_allowed.
    change (arrives_by (out_by name p) (gd_OverlayInterface config)) with (arrives_by p (gd_OverlayInterface config)).
    change (marked_ingress (out_by name p)) with (marked_ingress p). change (tracked (out_by name p)) with (tracked p).
    rewrite Hno, Hm, Ht. cbn [orb andb]. by rewrite !andb_false_r.
Qed.

(** A packet of a lease passes the leases' table towards the overlay. *)
Lemma fresh_leases rules rp name p :
  Forall valid_rule rules -> fresh_from (gd_TunnelInterface config) p ->
  List.find (ingress_match b p) (pairs rules) = Some rp ->
  table_passes_at ChainHookForward (gateway_table b rules) (out_by name (translated rules p)) =
    bool_decide (interfaceName name = interfaceName (gd_OverlayInterface config)) /\
  destination (translated rules p) = Some (overlay_target rp.1) /\
  destination_port (translated rules p) = Some (u16 (gr_TargetPort rp.1)).
Proof.
  intros Hrules (Hp & Ha & _) Ef. unfold translated. rewrite Ef. apply List.find_some in Ef as [Hin Hmatch].
  assert (valid_rule rp.1) as Hv.
  { pose proof (pairs_valid _ Hrules) as Hps. rewrite Forall_forall in Hps. apply Hps. by apply list_elem_of_In. }
  destruct (delivered_destination rp p Hp Hv) as [Hd Hdp]. split; [|done]. set (p' := out_by name (delivered_to rp p)).
  assert (ipv4_packet p') as Hp' by exact (delivered_ipv4 rp p Hp Hv). rewrite gateway_table_passes by done.
  assert (existsb (target_match p') (pairs rules) = true) as Htarget.
  { apply existsb_exists. exists rp. split; [done|]. unfold target_match.
    change (destination p') with (destination (delivered_to rp p)).
    change (destination_port p') with (destination_port (delivered_to rp p)). rewrite Hd, Hdp, !bool_decide_true by done.
    unfold ingress_match in Hmatch. apply andb_true_iff in Hmatch as [Hmatch _].
    apply andb_true_iff in Hmatch as [_ Hproto]. change (pk_l4proto p') with (pk_l4proto p). by rewrite Hproto. }
  unfold forward_allowed. rewrite Htarget. change (arrives_by p' (lb_TunnelInterface b)) with (arrives_by p (gd_TunnelInterface config)).
  rewrite Ha. cbn [orb]. by rewrite andb_true_r.
Qed.

(** New connections from the tunnel.  With the core table of the given
    health and the table of the given rules, a packet that belongs to no
    tracked connection passes both towards an interface exactly if the gateway
    is healthy, the interface is the overlay, and its protocol and port are
    those of a lease; and it then goes to the target of the first such lease. *)
Theorem inbound_exact healthy rules name p :
  Forall valid_rule rules -> fresh_from (gd_TunnelInterface config) p ->
  let p' := translate (map (fun rp => dnat_rule b rp.1 rp.2) (pairs rules)) p in
  table_passes_at ChainHookForward (core_table config healthy) (out_by name p') &&
  table_passes_at ChainHookForward (gateway_table b rules) (out_by name p') =
    healthy && bool_decide (interfaceName name = interfaceName (gd_OverlayInterface config)) &&
    existsb (ingress_match b p) (pairs rules) /\
  forall rp, List.find (ingress_match b p) (pairs rules) = Some rp ->
    destination p' = Some (overlay_target rp.1) /\ destination_port p' = Some (u16 (gr_TargetPort rp.1)).
Proof.
  intros Hrules Hfresh p'. assert (p' = translated rules p) as ->.
  { unfold p', translated. apply prerouting_effect. apply Hfresh. }
  rewrite fresh_core by done. split; [|intros rp Hrp; by eapply fresh_leases].
  destruct (List.find (ingress_match b p) (pairs rules)) as [rp|] eqn:Ef.
  - destruct (fresh_leases rules rp name p Hrules Hfresh Ef) as [-> _]. destruct healthy, (bool_decide _), (existsb _ _); done.
  - assert (existsb (ingress_match b p) (pairs rules) = false) as ->; [|by rewrite andb_false_r].
    apply not_true_iff_false. rewrite existsb_exists. intros (rp & Hin & Hmatch). by rewrite (List.find_none _ _ Ef rp Hin) in Hmatch.
Qed.

End Path.

(** ** The two processes *)

Section Gateway.
Variable config : GatewayConfig.
Hypothesis distinct_names : interfaceName (gd_OverlayInterface config) <> interfaceName (gd_TunnelInterface config).
Variable read_ip_forward : IO NS string.
Context `{Engine NS} `{DNSProber NS} `{PortForwardCapability NS} `{DeliveryBackend NS} `{Clock NS}.

(** What the engine, the probe, the provider and the application do, and the
    reading of a file, touches no rule table: they are requests to other
    processes. *)
Record outside_tables : Prop := {
  out_read : keeps_tables read_ip_forward;
  out_engine : keeps_tables engine_Observe;
  out_probe : keeps_tables dns_Probe;
  out_capabilities : keeps_tables pf_ObserveCapabilities;
  out_ensure request : keeps_tables (pf_EnsureLease request);
  out_release request : keeps_tables (pf_ReleaseLease request);
  out_deliver intent mapping : keeps_tables (dl_Reconcile intent mapping);
  out_retire intent : keeps_tables (dl_Withdraw intent)
}.
Hypothesis Hout : outside_tables.

Notation b := (lease_backend config).

#[local] Instance Linux_GatewayBackend : GatewayBackend NS := {
  gb_EnsureOverlay := EnsureOverlay read_ip_forward config;
  gb_ReplaceRules := ReplaceRules config
}.
#[local] Instance gateway_rules : RuleBackend NS := Linux_RuleBackend b.

Record gateway := mkGateway { gy_flags : flags; gy_leases : gmap string runtimeState; gy_ns : NS }.

(** One call of either process, or a change outside of the two tables. *)
Inductive gateway_step : gateway -> gateway -> Prop :=
| gy_service f states w r f' w' :
    GatewayService.Reconcile (f, w) = (r, (f', w')) -> gateway_step (mkGateway f states w) (mkGateway f' states w')
| gy_reconcile f states w meta intent r states' w' :
    PortManager.Reconcile meta intent (states, w) = (r, (states', w')) ->
    gateway_step (mkGateway f states w) (mkGateway f states' w')
| gy_withdraw f states w meta intent r states' w' :
    PortManager.Withdraw meta intent (states, w) = (r, (states', w')) ->
    gateway_step (mkGateway f states w) (mkGateway f states' w')
| gy_outside f states w w' :
    ns_tables w' !! coreTableName = ns_tables w !! coreTableName ->
    ns_tables w' !! gatewayRuleTable = ns_tables w !! gatewayRuleTable ->
    gateway_step (mkGateway f states w) (mkGateway f states w').

(** A fresh gateway, from where [Run] has closed the rules: not healthy, no
    lease, no table of leases. *)
Definition gateway_start (g : gateway) : Prop :=
  f_healthy (gy_flags g) = false /\ gy_leases g = ∅ /\
  core_installed config false (gy_ns g) /\ ns_tables (gy_ns g) !! gatewayRuleTable = None.

(** *** Frames *)

Lemma keeps_of_tables {A} (P : gmap string (list nchain) -> Prop) (m : IO NS A) :
  keeps_tables m -> keeps (fun w => P (ns_tables w)) m.
Proof. intros Hm w Hw. specialize (Hm w). unfold wp in Hm. by rewrite Hm. Qed.

Lemma Linux_NoRuleAccess : NoRuleAccess NS (installs b).
Proof.
  assert (forall A (m : IO NS A), keeps_tables m -> keeps_rules (installs b) m) as Hk.
  { intros A m Hm w rs. apply installs_tables. apply Hm. }
  split; intros; apply Hk; apply Hout.
Qed.
#[local] Existing Instance Linux_NoRuleAccess.

(** The core table, through the manager's operations. *)
Lemma manager_keeps_core (t : option (list nchain)) :
  let P := fun w => ns_tables w !! coreTableName = t in
  (forall meta intent, keeps (fun sw : gmap string runtimeState * NS => P sw.2) (PortManager.Reconcile meta intent)) /\
  (forall meta intent, keeps (fun sw : gmap string runtimeState * NS => P sw.2) (PortManager.Withdraw meta intent)).
Proof.
  intros P. pose proof (fun A => keeps_of_tables (A := A) (fun tables => tables !! coreTableName = t)) as Hk.
  assert (forall rules, keeps P (rules_Replace rules)) as Hreplace.
  { intros rules w Hw. destruct (Replace_spec b rules w) as [_ Hothers]. unfold P. cbn in *. by rewrite Hothers. }
  assert (forall rule, keeps P (rules_Ready rule)) as Hready.
  { intros rule. apply Hk. intros w. exact (proj1 (Ready_spec b rule w)). }
  assert (forall uid generation, keeps P (rules_Withdrawn uid generation)) as Hwithdrawn.
  { intros uid generation. apply Hk. intros w. exact (Withdrawn_spec uid generation w). }
  split; intros meta intent; [apply Reconcile_frame|apply Withdraw_frame]; try done; intros; apply Hk; apply Hout.
Qed.

(** What the service keeps: its own table is one it wrote, the leases' table is
    untouched, and healthy means open. *)
Record service_inv (leases : option (list nchain)) (f : flags) (w : NS) : Prop := {
  sv_owned : exists healthy, core_installed config healthy w;
  sv_leases : ns_tables w !! gatewayRuleTable = leases;
  sv_healthy : f_healthy f = true -> core_installed config true w
}.

Lemma service_inv_tables leases f w w' : ns_tables w' = ns_tables w -> service_inv leases f w -> service_inv leases f w'.
Proof. intros Ht [Ho Hl Hh]. unfold core_installed in *. split; unfold core_installed; by rewrite Ht. Qed.

Lemma service_inv_flags leases f f' w : f_healthy f' = false \/ f_healthy f' = f_healthy f -> service_inv leases f w -> service_inv leases f' w.
Proof. intros Hf [Ho Hl Hh]. split; [done|done|]. intros Hf'. apply Hh. destruct Hf; congruence. Qed.

Lemma wp_kept {A} (m : IO NS A) Q f leases w :
  keeps_tables m -> service_inv leases f w -> (forall r w', service_inv leases f w' -> Q r (f, w')) -> wp (on_world m) Q (f, w).
Proof.
  intros Hm Hinv HQ. apply wp_on_world. wp_with Hm. intros r w' Ht. apply HQ. by eapply service_inv_tables.
Qed.

(** Replacing the rules while not healthy, or opening them. *)
Lemma wp_replaced healthy Q f leases w :
  service_inv leases f w -> f_healthy f = false \/ healthy = true ->
  (forall r w', service_inv leases f w' -> (r = Ok tt -> core_installed config healthy w') -> Q r (f, w')) ->
  wp (on_world (ReplaceRules config healthy)) Q (f, w).
Proof.
  intros [Ho Hl Hh] Hf HQ. apply wp_on_world. wp_with ReplaceRules_spec; [by right|]. intros r w' [Hr Hothers].
  apply HQ; [|by intros ->]. destruct r as [[]|e].
  - split; [eauto|by rewrite Hothers|]. intros Hf'. destruct Hf as [Hf| ->]; [congruence|done].
  - eapply service_inv_tables; [exact Hr|]. by split.
Qed.

Ltac s_flag :=
  wp_step; unfold store_healthy, store_tunnel, store_dns; do 2 wp_step; wp_step.

Lemma wp_closed leases err Q f w :
  service_inv leases f w -> f_healthy f = false ->
  (forall e w', service_inv leases f w' -> Q (Fail e) (f, w')) ->
  wp (closed ← close_rules; fail_joined (A := unit) err closed) Q (f, w).
Proof.
  intros Hinv Hf HQ. wp_step. unfold close_rules. do 2 wp_step. eapply wp_replaced; [done|by left|].
  intros r w' Hinv' _. cbn [after]. wp_step. unfold fail_joined. destruct (errors_Join _); wp_step; by apply HQ.
Qed.

Lemma service_spec leases f w :
  service_inv leases f w ->
  wp GatewayService.Reconcile (fun r s => service_inv leases s.1 s.2) (f, w).
Proof.
  intros Hinv. unfold GatewayService.Reconcile.
  assert (forall f' w', f_healthy f' = false \/ f_healthy f' = f_healthy f -> service_inv leases f w' -> service_inv leases f' w') as Hflag
    by (intros; by eapply service_inv_flags).
  do 2 wp_step. eapply wp_kept; [apply kt_EnsureOverlay, Hout|done|]. intros [[]|e] w1 Hinv1; cbn [after].
  2: { do 3 s_flag. eapply wp_closed; [apply Hflag; [by left|done]|done|done]. }
  do 2 wp_step. eapply wp_kept; [apply Hout|done|]. intros [o|e] w2 Hinv2; cbn [after]; s_flag.
  2: { do 2 s_flag. eapply wp_closed; [apply Hflag; [by left|done]|done|done]. }
  destruct (negb (eo_TunnelReady o) || negb (eo_DNSReady o)).
  { do 2 s_flag. eapply wp_closed; [apply Hflag; [by left|done]|done|done]. }
  do 2 wp_step. cbn [f_healthy]. set (f2 := mkFlags _ _ _).
  assert (forall w3, service_inv leases f2 w3 -> wp probe_and_open (fun _ s => service_inv leases s.1 s.2) (f2, w3)) as Hprobe.
  { intros w3 Hinv3. unfold probe_and_open. do 2 wp_step. eapply wp_kept; [apply Hout|exact Hinv3|].
    intros [[]|e] w4 Hinv4; cbn [after].
    2: { do 2 s_flag. eapply wp_closed; [eapply service_inv_flags; [by left|exact Hinv4]|done|done]. }
    s_flag. do 2 wp_step. eapply wp_replaced; [apply (service_inv_flags leases f2); [by right|exact Hinv4]|by right|].
    intros [[]|e] w5 Hinv5 Hopen; cbn [after].
    - unfold store_healthy. do 2 wp_step. wp_step. cbn [fst snd]. destruct Hinv5 as [Ho Hl _]. split; [done|done|]. intros _.
      by apply Hopen.
    - s_flag. eapply wp_closed; [eapply service_inv_flags; [by left|exact Hinv5]|done|done]. }
  assert (forall w3, service_inv leases f w3 -> service_inv leases f2 w3) as Hf2 by (intros; by apply Hflag; [right|]).
  destruct (f_healthy f) eqn:Hh; cbn [negb]; wp_step; [wp_step; by apply Hprobe, Hf2|].
  eapply wp_replaced; [by apply Hf2|by left|]. intros [[]|e] w3 Hinv3 _; cbn [after]; [by apply Hprobe|done].
Qed.

(** *** The invariant *)

Definition gateway_inv (g : gateway) : Prop :=
  service_inv (ns_tables (gy_ns g) !! gatewayRuleTable) (gy_flags g) (gy_ns g) /\
  manager_inv (installs := installs b) (gy_leases g, gy_ns g).

Lemma installs_same w w' rs :
  ns_tables w' !! gatewayRuleTable = ns_tables w !! gatewayRuleTable -> installs b w rs -> installs b w' rs.
Proof. unfold installs. by intros ->. Qed.

Lemma gateway_reachable_inv g g' : gateway_start g -> rtc gateway_step g g' -> gateway_inv g'.
Proof.
  intros (Hf & Hl & Hc & Hp) Hsteps. assert (gateway_inv g) as Hinv.
  { split; [split; [eauto|done|congruence]|]. exists []. split; [by right|]. rewrite Hl.
    split; [by intros ? ?|by constructor|by intros ? ?]. }
  clear Hf Hl Hc Hp. induction Hsteps as [g|g1 g2 g3 Hstep _ IH]; [done|]. apply IH. clear IH. destruct Hinv as [Hs Hm].
  destruct Hstep as [f st w r f' w' E|f st w meta intent r st' w' E|f st w meta intent r st' w' E|f st w w' E1 E2];
    cbn [gy_flags gy_leases gy_ns] in *.
  - pose proof (wp_elim _ _ _ _ _ (service_spec _ f w Hs) E) as [Ho Hl Hh]. cbn [fst snd] in *.
    split; [split; [done|done|done]|]. destruct Hm as (rs & Hrs & Hi). exists rs. split; [|done].
    eapply installs_same; [|exact Hrs]. exact Hl.
  - destruct (wp_elim _ _ _ _ _ (PortManager.Reconcile_spec meta intent st w Hm) E) as (obs & err & _ & Hrec).
    split; [|apply Hrec]. pose proof (proj1 (manager_keeps_core (ns_tables w !! coreTableName)) meta intent (st, w) eq_refl) as Hcore.
    rewrite E in Hcore. cbn in Hcore. destruct Hs as [Ho _ Hh]. unfold core_installed in *.
    split; unfold core_installed; cbn [gy_flags gy_leases gy_ns]; [by rewrite Hcore|done|by rewrite Hcore].
  - destruct (wp_elim _ _ _ _ _ (PortManager.Withdraw_spec meta intent st w Hm) E) as (obs & err & _ & Hrec).
    split; [|apply Hrec]. pose proof (proj2 (manager_keeps_core (ns_tables w !! coreTableName)) meta intent (st, w) eq_refl) as Hcore.
    rewrite E in Hcore. cbn in Hcore. destruct Hs as [Ho _ Hh]. unfold core_installed in *.
    split; unfold core_installed; cbn [gy_flags gy_leases gy_ns]; [by rewrite Hcore|done|by rewrite Hcore].
  - destruct Hs as [Ho _ Hh]. unfold core_installed in *. split.
    + split; unfold core_installed; cbn; [by rewrite E1|done|by rewrite E1].
    + destruct Hm as (rs & Hrs & Hi). exists rs. split; [|done]. by eapply installs_same.
Qed.

(** C12: The gateway's inbound path.  In every state the two processes can
    reach, whichever kernel calls fail, a packet from the tunnel that belongs
    to no tracked connection is forwarded only while the core table is open,
    only to the overlay, and only if its protocol and port are those of an
    installed lease that is not drained, to whose target it then goes. *)
Theorem gateway_inbound g0 g name p :
  gateway_start g0 -> rtc gateway_step g0 g -> fresh_from (gd_TunnelInterface config) p ->
  forwarded (ns_tables (gy_ns g)) name p = true ->
  core_installed config true (gy_ns g) /\ interfaceName name = interfaceName (gd_OverlayInterface config) /\
  exists rs rule protocol,
    installs b (gy_ns g) rs /\ NoDup (map gr_LeaseUID rs) /\ rule ∈ rs /\ protocol ∈ gr_Protocols rule /\
    pk_l4proto p = transport_number protocol /\ destination_port p = Some (u16 (gr_IngressPort rule)) /\
    (forall s, gy_leases g !! gr_LeaseUID rule = Some s -> rs_drained s = false) /\
    let p' := translate (prerouting_rules (ns_tables (gy_ns g))) p in
    destination p' = Some (overlay_target rule) /\ destination_port p' = Some (u16 (gr_TargetPort rule)).
Proof.
  intros Hstart Hreach Hfresh Hfwd. destruct (gateway_reachable_inv g0 g Hstart Hreach) as [[[h Hcore] _ _] (rs & Hrs & Hinv)].
  cbn [fst snd] in *. destruct g as [f st w]. cbn [gy_ns gy_leases gy_flags] in *.
  unfold forwarded, passes_forward in Hfwd. rewrite forallb_forall in Hfwd. set (p' := translate _ _) in *.
  assert (table_passes_at ChainHookForward (core_table config h) (out_by name p') = true) as Hpass.
  { apply (Hfwd (coreTableName, core_table config h)). by apply list_elem_of_In, elem_of_map_to_list. }
  assert (exists rules, Forall valid_rule rules /\ p' = translated config rules p /\ (forall r, r ∈ rules -> r ∈ rs)) as (rules & Hvalid & Hp' & Hsub).
  { destruct Hrs as [[Ht Hv]|[Ht ->]].
    - exists (sort_by gr_LeaseUID rs). split; [by rewrite sort_by_perm|]. split; [|intros r; by rewrite sort_by_perm].
      unfold p', translated. rewrite (gateway_prerouting b (sort_by gr_LeaseUID rs)) by done. apply prerouting_effect, Hfresh.
    - exists []. split; [by constructor|]. split; [|by intros r ?%elem_of_nil]. unfold p', prerouting_rules. by rewrite Ht. }
  rewrite Hp', fresh_core in Hpass by done. apply andb_true_iff in Hpass as [Hpass Hex].
  apply andb_true_iff in Hpass as [-> Hname%bool_decide_eq_true]. split; [done|]. split; [done|].
  destruct (List.find (ingress_match b p) (pairs rules)) as [rp|] eqn:Ef.
  2: { apply existsb_exists in Hex as (rp & Hin & Hmatch). by rewrite (List.find_none _ _ Ef rp Hin) in Hmatch. }
  destruct (fresh_leases config rules rp name p Hvalid Hfresh Ef) as (_ & Hd & Hdp).
  apply List.find_some in Ef as [Hin Hmatch]. destruct rp as [rule protocol]. cbn [fst snd] in *.
  apply in_flat_map in Hin as (rule' & Hrule' & Hin). apply in_map_iff in Hin as (protocol' & [= <- <-] & Hprot).
  apply list_elem_of_In in Hrule', Hprot. unfold ingress_match in Hmatch. cbn [fst snd] in Hmatch.
  apply andb_true_iff in Hmatch as [Hmatch Hport%bool_decide_eq_true]. apply andb_true_iff in Hmatch as [_ Hproto%Z.eqb_eq].
  exists rs, rule', protocol'. cbv zeta. rewrite Hp'. split_and!; try done; [apply Hinv|by apply Hsub|].
  intros s Hs. destruct (rs_drained s) eqn:Hdr; [|done]. destruct (inv_drained _ _ Hinv _ s Hs Hdr).
  exists rule'. split; [by apply Hsub|done].
Qed.

End Gateway.

(** ** A concrete gateway

    With the engine's filter table and an underlay; the engine, the probe, the
    provider and the application answer at once. *)
Module GatewaySample.

Definition config : GatewayConfig :=
  mkGatewayConfig "gateway-uid" (mkPrefix (Addr4 (ipv4_value 10 88 0 0)) 24) (Addr4 (ipv4_value 10 88 0 1)) "wcgw" "eth0" "tun0"
    4789 4242 1320 9808 (mkAddrPort (Addr4 (ipv4_value 127 0 0 1)) 53) (mkAddrPort (Addr4 (ipv4_value 10 96 0 10)) 53)
    "cluster.local".

Definition engine_chain (name : string) (hook : chain_hook) : nchain :=
  mkChain name ChainTypeFilter hook ChainPriorityFilter (Some VerdictDrop) [].
Definition space : NS :=
  mkNS {[coreTableName := core_table config false;
         engineFilterTableName := [engine_chain "INPUT" ChainHookInput; engine_chain "FORWARD" ChainHookForward;
                                   engine_chain "OUTPUT" ChainHookOutput]]}
    {["eth0" := mkLink 2 true 1450 [mkPrefix (Addr4 (ipv4_value 192 0 2 20)) 24] None ""]} 3
    [mkRoute FAMILY_V4 2 (Addr4 (ipv4_value 192 0 2 1)) RT_TABLE_MAIN 3 None] [] (fun _ => None) (fun _ => true) [].

#[export] Instance sample_engine : Engine NS := mret (mkEngineObservation true true (Addr4 3405803777)).
#[export] Instance sample_prober : DNSProber NS := mret tt.
#[export] Instance sample_clock : Clock NS := fun _ => 1700000000 * Second.
#[export] Instance sample_provider : PortForwardCapability NS := {
  pf_ObserveCapabilities := mret (mkPortForwardCapabilities [ProtocolTCP; ProtocolUDP] 4 true false (60 * Second));
  pf_EnsureLease request :=
    mret (mkPortForwardLeaseObservation (Addr4 3405803777) (pr_InternalPort request - 10000) (1700000000 * Second)
            (1700000030 * Second) (1700000060 * Second));
  pf_ReleaseLease request := mret tt
}.
#[export] Instance sample_delivery : DeliveryBackend NS := {
  dl_Reconcile intent mapping := mret (true, true);
  dl_Withdraw intent := mret true
}.

Definition read_ip_forward : IO NS string := mret "1".

Lemma outside : outside_tables read_ip_forward.
Proof. split; intros; by intros w. Qed.
Lemma distinct : interfaceName (gd_OverlayInterface config) <> interfaceName (gd_TunnelInterface config).
Proof. by vm_compute. Qed.

Definition intent : Intent :=
  mkIntent RuntimeAPIVersion "media" "lease-1" "gateway-uid" 1 "service-uid" "slice-uid" "pod-uid" "binding-uid" 50000 0
    (Addr4 (ipv4_value 10 88 0 7)) (Addr4 (ipv4_value 10 0 0 7)) 8080 8080 [ProtocolTCP] "" ApplicationPortFixed.
Definition meta : ObjectMeta := mkObjectMeta "vpn" "gateway" "gateway-uid" 1 None ∅ ∅ [] [].

#[local] Existing Instance Linux_GatewayBackend.

Definition start : gateway := mkGateway (mkFlags false false false) ∅ space.
Definition pass1 := GatewayService.Reconcile (H := Linux_GatewayBackend config read_ip_forward) (gy_flags start, gy_ns start).
Definition open : gateway := mkGateway pass1.2.1 ∅ pass1.2.2.
Definition pass2 := PortManager.Reconcile (H0 := gateway_rules config) meta intent (gy_leases open, gy_ns open).
Definition serving_one : gateway := mkGateway (gy_flags open) pass2.2.1 pass2.2.2.

(** A first segment to the mapped port. *)
Definition inbound : packet :=
  mkPacket "tun0" "" NFPROTO_IPV4 6 (repeat 0 16 ++ [203; 0; 113; 1]) ([200; 0; 156; 64] ++ repeat 0 16) [0; 0; 0; 0] 0.

Lemma start_ok : gateway_start config start.
Proof. unfold gateway_start, core_installed. by vm_compute. Qed.

Lemma nested_pairs {A B C} (x : A * (B * C)) : x = (x.1, (x.2.1, x.2.2)).
Proof. by destruct x as [? []]. Qed.

Lemma serving_one_reachable : rtc (gateway_step config read_ip_forward) start serving_one.
Proof.
  eapply rtc_l; [exact (gy_service _ _ _ _ _ _ _ _ (nested_pairs pass1))|].
  apply rtc_once. exact (gy_reconcile _ _ _ _ _ meta intent _ _ _ (nested_pairs pass2)).
Qed.

Lemma inbound_fresh : fresh_from (gd_TunnelInterface config) inbound.
Proof.
  split_and!; [|by vm_compute..]. unfold ipv4_packet, well_formed.
  split_and!; try done; try (cbn; lia); cbn; repeat (constructor; [unfold is_byte; lia|]); constructor.
Qed.

Lemma inbound_forwarded : forwarded (ns_tables (gy_ns serving_one)) "wcgw" inbound = true.
Proof. by vm_compute. Qed.

(** The segment reaches the lease's target. *)
Lemma gateway_inbound_witness : core_installed config true (gy_ns serving_one).
Proof.
  exact (proj1 (gateway_inbound config distinct read_ip_forward outside start serving_one "wcgw" inbound start_ok
    serving_one_reachable inbound_fresh inbound_forwarded)).
Defined.

Definition rule : GatewayRule := mkGatewayRule "lease-1" 1 40000 "10.88.0.7" 8080 [ProtocolTCP].

Lemma rule_valid : Forall valid_rule [rule].
Proof. constructor; [|constructor]. by vm_compute. Qed.

Lemma inbound_exact_witness :
  destination (translate (map (fun rp => dnat_rule (lease_backend config) rp.1 rp.2) (pairs [rule])) inbound) =
  Some (Addr4 (ipv4_value 10 88 0 7)).
Proof.
  destruct (inbound_exact config distinct true [rule] "wcgw" inbound rule_valid inbound_fresh) as [_ Hfind].
  exact (proj1 (Hfind (rule, ProtocolTCP) ltac:(vm_compute; reflexivity))).
Defined.

End GatewaySample.
