(* ===== verification/NodeAgent.v ===== *)
(** * The node agent (internal/nodeagent/service.go)

    The service that resolves caller identities from Kubernetes state and
    programs, verifies, withdraws and repairs attachments, over any
    implementation of the programmer, store and client it is given.  Its
    observations and health flags are the state [SvcState]; everything else is
    the world [W]. *)

From S2P Require Import Prelude Netip Api Kube Reservation CniTypes CniPlugin Dataplane.

Definition routeLabel : string := "networking.waycloak.io/egress-route".
Definition lockedDownReconcileDelay : duration := 45 * Second.
Definition ReportAPIVersion : string := "node-observations.waycloak.io/v1".

Definition ErrPodIdentityInvalid : string := "pod identity is invalid".
Definition ErrPodLookupFailed : string := "kubernetes Pod observation failed".
Definition ErrPodUIDMismatch : string := "pod UID does not match API observation".
Definition ErrPodNodeMismatch : string := "pod node does not match local authority".
Definition ErrSandboxAmbiguous : string := "multiple live sandboxes exist for one Pod UID".

(** ** Interfaces *)

Class Programmer (W : Type) := {
  prog_Identity : string -> IO W string;
  prog_InstallLockdown : string -> string -> IO W unit;
  prog_Configure : string -> Config -> IO W unit;
  prog_Verify : string -> Config -> IO W unit;
  prog_Cleanup : string -> string -> IO W unit
}.

Class AttachmentStore (W : Type) := {
  as_ListAll : IO W (list Attachment);
  as_Save : Attachment -> IO W unit;
  as_Delete : Key -> IO W unit
}.

(** ** Data *)

Record Observation := mkObservation {
  ob_BindingNamespace : string;
  ob_BindingName : string;
  ob_BindingUID : string;
  ob_Generation : Z;
  ob_PodUID : string;
  ob_GatewayUID : string;
  ob_NodeName : string;
  ob_NodeBootID : string;
  ob_InstanceID : string;
  ob_ObservedAt : time;
  ob_Ready : bool
}.

#[global] Instance Observation_eq_dec : EqDecision Observation.
Proof. solve_decision. Defined.

Record NodeReport := mkNodeReport {
  nr_NodeName : string;
  nr_NodeBootID : string;
  nr_InstanceID : string;
  nr_ObservedAt : time;
  nr_Ready : bool;
  nr_Capabilities : list string;
  nr_ReleaseIdentity : ReleaseIdentity;
  nr_ConformanceProfile : string
}.

Record Report := mkReport {
  rep_APIVersion : string;
  rep_Node : NodeReport;
  rep_Observations : list Observation
}.

Record AgentStatus := mkAgentStatus {
  as_NodeName : string;
  as_NodeBootID : string;
  as_InstanceID : string;
  as_Capabilities : list string;
  as_Ready : bool
}.

(** The configured part of [Service]; the clients are the classes above, and
    the publisher an argument of the operations that use it. *)
Record Service := mkService {
  s_NodeName : string;
  s_NodeBootID : string;
  s_InstanceID : string;
  s_RequireRelay : bool;
  s_CapabilityHeld : bool;
  s_TransitionHeld : bool;
  s_Capabilities : list string;
  s_ReleaseIdentity : ReleaseIdentity;
  s_ConformanceProfile : string
}.

(** The part of [Service] that changes. *)
Record SvcState := mkSvcState {
  st_observations : gmap string Observation;
  st_relayHealthy : bool;
  st_backendHealthy : bool
}.

Definition set_observations (m : gmap string Observation) (st : SvcState) : SvcState :=
  mkSvcState m (st_relayHealthy st) (st_backendHealthy st).

(** ** Pure parts *)

Definition exactPodAbsent (err : error) : bool := IsNotFound err || errors_is err ErrPodUIDMismatch.

Definition attachmentIsYoung (attachment : Attachment) (now : time) : bool :=
  let age := time_Sub now (a_UpdatedAt attachment) in
  negb (time_IsZero (a_UpdatedAt attachment)) && (age <? lockedDownReconcileDelay).

Definition bindingReference (binding : VPNWorkloadBinding) : Binding :=
  mkBinding (UID (wb_Meta binding)) (Generation (wb_Meta binding)) (lur_UID (wb_PodRef (wb_Spec binding)))
    (nur_UID (wb_GatewayRef (wb_Spec binding))).

Definition parsed {A} (msg : string) (o : option A) : res A :=
  match o with Some a => Ok a | None => Fail (Errorf msg (ENew "parse")) end.

Definition res_bind {A B} (r : res A) (k : A -> res B) : res B :=
  match r with Ok a => k a | Fail e => Fail e end.

Fixpoint parse_prefixes (texts : list string) : res (list Prefix) :=
  match texts with
  | [] => Ok []
  | text :: rest =>
      res_bind (parsed "parse projected bypass CIDR" (ParsePrefix text)) (fun prefix =>
      res_bind (parse_prefixes rest) (fun prefixes => Ok (prefix :: prefixes)))
  end.

Definition ConfigFromBinding (binding : VPNWorkloadBinding) : res Config :=
  if Generation (wb_Meta binding) <? 1 then Fail (ENew "current binding is required")
  else
    let network := wb_Network (wb_Spec binding) in
    res_bind (parsed "parse projected overlay CIDR" (ParsePrefix (wn_OverlayCIDR network))) (fun overlay =>
    res_bind (parsed "parse allocated address" (ParsePrefix (wa_Address (wb_Allocation (wb_Spec binding))))) (fun allocated =>
    res_bind (parsed "parse projected gateway address" (ParseAddr (wn_GatewayAddress network))) (fun gateway =>
    res_bind (parsed "parse projected gateway endpoint" (ParseAddrPort (wn_GatewayEndpoint network))) (fun endpoint =>
    let mode := match ct_Mode (wn_ClusterTraffic network) with
                | ClusterTrafficBypassCluster => ClusterTrafficPreserve
                | ClusterTrafficTunnelAll => ClusterTrafficGateway
                end in
    res_bind (parse_prefixes (ct_BypassCIDRs (wn_ClusterTraffic network))) (fun clusterCIDRs =>
    let config := mkConfig (lur_UID (wb_PodRef (wb_Spec binding))) (Generation (wb_Meta binding))
      (wn_GatewayGeneration network) (PrefixFrom (Prefix_Addr allocated) (Prefix_Bits overlay)) overlay gateway endpoint
      (wn_GatewayHealthPort network `mod` 2 ^ 16) (wn_VNI network `mod` 2 ^ 32) (wn_MTU network) mode clusterCIDRs
      "" "" [] in
    match Config_Validate config with None => Ok config | Some e => Fail e end))))).

(** The order of [sort.Slice] in a group: network, container, interface. *)
Definition key_lt (left right : Key) : bool :=
  if negb (String.eqb (k_Network left) (k_Network right)) then str_ltb (k_Network left) (k_Network right)
  else if negb (String.eqb (k_ContainerID left) (k_ContainerID right))
  then str_ltb (k_ContainerID left) (k_ContainerID right)
  else str_ltb (k_IfName left) (k_IfName right).

Definition attachment_le (a b : Attachment) : Prop := key_lt (Attachment_Key b) (Attachment_Key a) = false.

#[global] Instance attachment_le_dec : RelDecision attachment_le.
Proof. intros a b. unfold attachment_le. apply _. Defined.

Definition sort_group (l : list Attachment) : list Attachment := merge_sort attachment_le l.

(** ** The service *)

Section Service.
Context {W : Type} `{Getter W Pod} `{Getter W VPNWorkloadBinding} `{Lister W VPNWorkloadBinding}.
Context `{Programmer W} `{AttachmentStore W} `{Clock W}.
Variable s : Service.
Variable publisher : option (Report -> IO W unit).

Notation M A := (IO (SvcState * W) A).

Definition Ready (st : SvcState) : bool :=
  negb (s_TransitionHeld s) && st_backendHealthy st && (negb (s_RequireRelay s) || st_relayHealthy st).

Definition SetRelayHealthy (healthy : bool) : M unit :=
  st ← get_state; put_state (mkSvcState (st_observations st) healthy (st_backendHealthy st)).
Definition SetBackendHealthy (healthy : bool) : M unit :=
  st ← get_state; put_state (mkSvcState (st_observations st) (st_relayHealthy st) healthy).

Definition observation_of (binding : VPNWorkloadBinding) (now : time) (ready : bool) : Observation :=
  mkObservation (Namespace (wb_Meta binding)) (Name (wb_Meta binding)) (UID (wb_Meta binding))
    (Generation (wb_Meta binding)) (lur_UID (wb_PodRef (wb_Spec binding))) (nur_UID (wb_GatewayRef (wb_Spec binding)))
    (s_NodeName s) (s_NodeBootID s) (s_InstanceID s) now ready.

Definition observe (binding : VPNWorkloadBinding) (ready : bool) : M Observation :=
  now ← on_world read_clock;
  let observation := observation_of binding now ready in
  st ← get_state;
  put_state (set_observations (<[ob_PodUID observation := observation]> (st_observations st)) st) ;;
  mret observation.

Definition forgetObservation (podUID : string) : M unit :=
  st ← get_state; put_state (set_observations (delete podUID (st_observations st)) st).

(** The order of a Go map's values is unspecified; any order is a result. *)
Definition Observations (st : SvcState) : list Observation := map snd (map_to_list (st_observations st)).

Definition Status (st : SvcState) : AgentStatus :=
  mkAgentStatus (s_NodeName s) (s_NodeBootID s) (s_InstanceID s) (s_Capabilities s) (Ready st).

Definition MakeReport : M Report :=
  now ← on_world read_clock;
  st ← get_state;
  mret (mkReport ReportAPIVersion
    (mkNodeReport (s_NodeName s) (s_NodeBootID s) (s_InstanceID s) now (Ready st && negb (s_CapabilityHeld s))
       (s_Capabilities s) (s_ReleaseIdentity s) (s_ConformanceProfile s)) (Observations st)).

(** *** Identity and authority *)

Definition exact_pod (identity : PodIdentity) : IO W Pod :=
  match PodIdentity_Validate identity with
  | Some _ => io_fail (EWrap "" [ESentinel ErrPodIdentityInvalid])
  | None =>
      if str_empty (s_NodeName s)
      then io_fail (EWrap "node agent dependencies are incomplete" [ESentinel ErrPodIdentityInvalid])
      else
        got ← io_try (k8s_Get (T := Pod) (mkObjectKey (pi_Namespace identity) (pi_Name identity)));
        match got with
        | Fail err => io_fail (EWrap "" [ESentinel ErrPodLookupFailed; err])
        | Ok pod =>
            if negb (String.eqb (UID (pod_Meta pod)) (pi_UID identity)) then io_fail (ESentinel ErrPodUIDMismatch)
            else if negb (String.eqb (pod_NodeName pod) (s_NodeName s)) then io_fail (ESentinel ErrPodNodeMismatch)
            else mret pod
        end
  end.

Definition rawBinding (namespace podUID : string) : IO W VPNWorkloadBinding :=
  got ← io_try (k8s_Get (T := VPNWorkloadBinding) (mkObjectKey namespace (BindingName podUID)));
  match got with
  | Fail err => if IsNotFound err then io_fail (ESentinel ErrBindingNotReady) else io_fail err
  | Ok binding =>
      if negb (String.eqb (lur_UID (wb_PodRef (wb_Spec binding))) podUID) then io_fail (ESentinel ErrBindingNotReady)
      else mret binding
  end.

Definition exact_binding (pod : Pod) : IO W VPNWorkloadBinding :=
  binding ← rawBinding (Namespace (pod_Meta pod)) (UID (pod_Meta pod));
  if negb (not_deleting (wb_Meta binding)) ||
     negb (String.eqb (lur_Name (wb_PodRef (wb_Spec binding))) (Name (pod_Meta pod))) ||
     negb (String.eqb (wb_NodeName (wb_Spec binding)) (s_NodeName s)) || str_empty (UID (wb_Meta binding))
  then io_fail (ESentinel ErrBindingNotReady)
  else mret binding.

Definition withdrawalBinding (namespace podUID : string) : IO W (option VPNWorkloadBinding) :=
  got ← io_try (k8s_Get (T := VPNWorkloadBinding) (mkObjectKey namespace (BindingName podUID)));
  match got with
  | Fail err => if IsNotFound err then mret None
                else io_fail (Errorf "resolve exact binding for withdrawal" err)
  | Ok binding =>
      if negb (String.eqb (lur_UID (wb_PodRef (wb_Spec binding))) podUID)
      then io_fail (ENew "withdrawal binding Pod UID does not match durable attachment")
      else mret (Some binding)
  end.

Definition authority (identity : PodIdentity) (requested : Binding) : IO W (Pod * VPNWorkloadBinding * Config) :=
  check_error (Binding_Validate requested (pi_UID identity)) ;;
  pod ← exact_pod identity;
  binding ← exact_binding pod;
  if negb (bool_decide (bindingReference binding = requested))
  then io_fail (ENew "requested binding identity or generation is stale")
  else
    cfg ← io_lift (ConfigFromBinding binding);
    mret (pod, binding, cfg).

Definition Resolve (identity : PodIdentity) : M Resolution :=
  pod ← on_world (exact_pod identity);
  mret (mkResolution (UID (pod_Meta pod)) (negb (str_empty (map_get (Labels (pod_Meta pod)) routeLabel)))
          (negb (not_deleting (pod_Meta pod)))).

Definition Binding_ (identity : PodIdentity) : M Binding :=
  pod ← on_world (exact_pod identity);
  if str_empty (map_get (Labels (pod_Meta pod)) routeLabel) then io_fail (ESentinel ErrBindingNotReady)
  else
    binding ← on_world (exact_binding pod);
    mret (bindingReference binding).

(** *** Programming *)

Definition prepare (identity : PodIdentity) (requested : Binding) : M unit :=
  granted ← on_world (authority identity requested);
  let '(_, binding, cfg) := granted in
  let lockdown := prog_InstallLockdown (pi_NetNS identity) (pi_UID identity) in
  io_wrap "re-establish deny-first state" (on_world lockdown) ;;
  configured ← io_try (on_world (prog_Configure (pi_NetNS identity) cfg));
  match configured with
  | Fail err =>
      io_ignore (on_world lockdown) ;;
      observe binding false ;;
      io_fail (Errorf "program protected path with deny retained" err)
  | Ok _ =>
      verified ← io_try (on_world (prog_Verify (pi_NetNS identity) cfg));
      match verified with
      | Fail err =>
          io_ignore (on_world lockdown) ;;
          observe binding false ;;
          io_fail (Errorf "verify protected path before startup" err)
      | Ok _ => observe binding true ;; mret tt
      end
  end.

Definition Prepare (identity : PodIdentity) (requested : Binding) : M unit :=
  st ← get_state;
  if negb (Ready st) then io_fail (ENew "node backend or controller observation relay is unavailable")
  else prepare identity requested.

Definition check (identity : PodIdentity) (requested : Binding) : M unit :=
  let lockdown := prog_InstallLockdown (pi_NetNS identity) (pi_UID identity) in
  granted ← io_try (on_world (authority identity requested));
  match granted with
  | Fail err => io_ignore (on_world lockdown) ;; io_fail err
  | Ok (_, binding, cfg) =>
      verified ← io_try (on_world (prog_Verify (pi_NetNS identity) cfg));
      match verified with
      | Ok _ => observe binding true ;; mret tt
      | Fail _ =>
          locked ← io_try (on_world lockdown);
          match locked with
          | Fail err => observe binding false ;; io_fail (Errorf "restore deny-first state after drift" err)
          | Ok _ =>
              configured ← io_try (on_world (prog_Configure (pi_NetNS identity) cfg));
              match configured with
              | Fail err => observe binding false ;; io_fail (Errorf "repair protected path" err)
              | Ok _ =>
                  reverified ← io_try (on_world (prog_Verify (pi_NetNS identity) cfg));
                  match reverified with
                  | Fail err =>
                      io_ignore (on_world lockdown) ;;
                      observe binding false ;;
                      io_fail (Errorf "verify repaired protected path" err)
                  | Ok _ => observe binding true ;; mret tt
                  end
              end
          end
      end
  end.

Definition Check (identity : PodIdentity) (requested : Binding) : M unit :=
  st ← get_state;
  if negb (Ready st) then
    io_ignore (on_world (prog_InstallLockdown (pi_NetNS identity) (pi_UID identity))) ;;
    io_fail (ENew "node backend or controller observation relay is unavailable")
  else check identity requested.

(** *** Withdrawal *)

(** A step's error as a value, for [errors.Join]. *)
Definition outcome (m : M unit) : M (option error) :=
  r ← io_try m; mret (match r with Ok _ => None | Fail e => Some e end).

Definition join (errs : list (option error)) : M unit := check_error (errors_Join errs).

Definition observeNotReady (namespace podUID : string) : M unit :=
  got ← io_try (on_world (rawBinding namespace podUID));
  match got with
  | Ok binding => observe binding false ;; mret tt
  | Fail _ => mret tt
  end.

(** Whether the namespace at the path is still the attachment's: [None] when
    it could not be observed. *)
Definition exact_namespace (msg : string) (attachment : Attachment) : M (res bool) :=
  identity ← io_try (on_world (prog_Identity (pi_NetNS (a_Pod attachment))));
  mret (match identity with
        | Ok namespaceIdentity => Ok (String.eqb namespaceIdentity (a_NamespaceIdentity attachment))
        | Fail identityErr => if errors_is identityErr ErrNotExist then Ok false else Fail (Errorf msg identityErr)
        end).

Definition publish_withdrawal (binding : VPNWorkloadBinding) : M unit :=
  match publisher with
  | None => io_fail (ENew "synchronous withdrawal publisher is unavailable")
  | Some publish =>
      observation ← observe binding false;
      report ← MakeReport;
      io_wrap "publish exact attachment withdrawal"
        (on_world (publish (mkReport (rep_APIVersion report) (rep_Node report) [observation])))
  end.

Definition withdrawAttachment (attachment : Attachment) : M unit :=
  let identity := a_Pod attachment in
  podResult ← io_try (on_world (exact_pod identity));
  match podResult with
  | Fail podErr => if exactPodAbsent podErr then mret tt else io_fail podErr
  | Ok _ => mret tt
  end ;;
  exact ← exact_namespace "observe exact attachment namespace for withdrawal" attachment;
  exactNamespace ← io_lift exact;
  (if (exactNamespace : bool) then
     match podResult with
     | Ok pod =>
         if not_deleting (pod_Meta pod)
         then io_wrap "withdraw allow path while retaining deny"
                (on_world (prog_InstallLockdown (pi_NetNS identity) (pi_UID identity)))
         else io_wrap "clean terminating exact attachment" (on_world (prog_Cleanup (pi_NetNS identity) (pi_UID identity)))
     | Fail _ =>
         io_wrap "clean terminating exact attachment" (on_world (prog_Cleanup (pi_NetNS identity) (pi_UID identity)))
     end
   else mret tt) ;;
  binding ← on_world (withdrawalBinding (pi_Namespace identity) (pi_UID identity));
  match binding with
  | None => forgetObservation (pi_UID identity)
  | Some b => publish_withdrawal b ;; forgetObservation (pi_UID identity)
  end.

Definition exactAttachment (identity : PodIdentity) : M Attachment :=
  attachments ← io_wrap "list durable attachments for withdrawal" (on_world as_ListAll);
  match List.find (fun a => bool_decide (a_Pod a = identity)) attachments with
  | Some attachment => mret attachment
  | None => io_fail (ENew "exact durable attachment is unavailable")
  end.

Definition Withdraw (identity : PodIdentity) : M unit :=
  check_error (PodIdentity_Validate identity) ;;
  attachment ← exactAttachment identity;
  withdrawAttachment attachment.

(** *** Lockdown of everything *)

Definition lockdown_one (attachment : Attachment) : M unit :=
  exact ← exact_namespace "observe durable attachment namespace" attachment;
  exactNamespace ← io_lift exact;
  if negb exactNamespace then mret tt
  else
    on_world (prog_InstallLockdown (pi_NetNS (a_Pod attachment)) (pi_UID (a_Pod attachment))) ;;
    observeNotReady (pi_Namespace (a_Pod attachment)) (pi_UID (a_Pod attachment)).

(** A binding of this node that the agent may report on. *)
Definition reportable (binding : VPNWorkloadBinding) : bool :=
  String.eqb (wb_NodeName (wb_Spec binding)) (s_NodeName s) && (1 <=? Generation (wb_Meta binding)) &&
  negb (str_empty (UID (wb_Meta binding))) && negb (str_empty (lur_UID (wb_PodRef (wb_Spec binding)))) &&
  negb (str_empty (nur_UID (wb_GatewayRef (wb_Spec binding)))).

Definition LockdownAll : M unit :=
  attachments ← on_world as_ListAll;
  errs ← io_collect lockdown_one attachments;
  listed ← io_try (on_world (k8s_List (T := VPNWorkloadBinding) ListAll));
  match listed with
  | Fail listErr => join (map Some errs ++ [Some (Errorf "list node bindings for withdrawal" listErr)])
  | Ok bindings =>
      io_each (fun binding => if reportable binding then observe binding false ;; mret tt else mret tt) bindings ;;
      join (map Some errs)
  end.

(** *** Reconciliation *)

(** The attachments whose namespace is still theirs, and the errors met. *)
Fixpoint liveAttachments (attachments : list Attachment) : M (list Attachment * list error) :=
  match attachments with
  | [] => mret ([], [])
  | attachment :: rest =>
      exact ← exact_namespace "observe durable attachment namespace" attachment;
      found ← liveAttachments rest;
      mret (match exact with
            | Ok true => (attachment :: found.1, found.2)
            | Ok false => found
            | Fail e => (found.1, e :: found.2)
            end)
  end.

Definition lockdownAttachments (attachments : list Attachment) : M (option error) :=
  errs ← io_collect (fun attachment =>
    on_world (prog_InstallLockdown (pi_NetNS (a_Pod attachment)) (pi_UID (a_Pod attachment)))) attachments;
  mret (errors_Join (map Some errs)).

Definition quarantineAttachmentGroup (attachments : list Attachment) (cause : error) : M unit :=
  found ← liveAttachments attachments;
  io_each (fun attachment => observeNotReady (pi_Namespace (a_Pod attachment)) (pi_UID (a_Pod attachment))) attachments ;;
  lockErr ← lockdownAttachments found.1;
  join [Some cause; errors_Join (map Some found.2); lockErr].

Definition withdrawAttachmentGroup (canonical : PodIdentity) (attachments : list Attachment) : M unit :=
  found ← liveAttachments attachments;
  check_error (errors_Join (map Some found.2)) ;;
  cleanupErrs ← io_collect (fun attachment =>
    on_world (prog_Cleanup (pi_NetNS (a_Pod attachment)) (pi_UID (a_Pod attachment)))) found.1;
  check_error (errors_Join (map Some cleanupErrs)) ;;
  binding ← on_world (withdrawalBinding (pi_Namespace canonical) (pi_UID canonical));
  match binding with
  | Some b => publish_withdrawal b
  | None => mret tt
  end ;;
  deleteErrs ← io_collect (fun attachment =>
    io_wrap "delete withdrawn Pod attachment" (on_world (as_Delete (Attachment_Key attachment)))) attachments;
  check_error (errors_Join (map Some deleteErrs)) ;;
  forgetObservation (pi_UID canonical).

(** Remove the records of old failed attempts. *)
Definition clean_group (current : Key) (attachments : list Attachment) : M unit :=
  errs ← io_collect (fun attachment =>
    now ← on_world read_clock;
    if bool_decide (Attachment_Key attachment = current) ||
       (String.eqb (a_Phase attachment) PhaseLockedDown && attachmentIsYoung attachment now)
    then mret tt
    else io_wrap "delete quarantined Pod attachment" (on_world (as_Delete (Attachment_Key attachment)))) attachments;
  join (map Some errs).

(** The one live Ready sandbox of a Pod: check or reprogram it, adopt a new
    binding generation, then clean the group. *)
Definition reconcile_ready (canonical : PodIdentity) (pod : Pod) (current : Attachment) (attachments : list Attachment) : M unit :=
  let lockdown := on_world (prog_InstallLockdown (pi_NetNS (a_Pod current)) (pi_UID (a_Pod current))) in
  let revoked (readErr : option error) (note : M unit) :=
    lockErr ← outcome lockdown;
    note ;;
    join [Some (ENew "durable attachment binding was revoked or replaced"); readErr; lockErr] in
  read ← io_try (on_world (exact_binding pod));
  match read with
  | Fail readErr => revoked (Some readErr) (observeNotReady (pi_Namespace canonical) (pi_UID canonical))
  | Ok binding =>
      if negb (String.eqb (UID (wb_Meta binding)) (a_BindingUID current)) ||
         negb (String.eqb (nur_UID (wb_GatewayRef (wb_Spec binding))) (a_GatewayUID current))
      then revoked None (observe binding false ;; mret tt)
      else
        let requested := bindingReference binding in
        let adopt := negb (a_BindingGeneration current =? b_Generation requested) in
        programmed ← io_try (if adopt then prepare (a_Pod current) requested else check (a_Pod current) requested);
        match programmed with
        | Fail programErr => observe binding false ;; io_fail programErr
        | Ok _ =>
            saved ← (if adopt then
                       now ← on_world read_clock;
                       io_try (on_world (as_Save (mkAttachment (a_Network current) (a_Pod current)
                         (a_NamespaceIdentity current) (a_Phase current) (a_BindingUID current)
                         (b_Generation requested) (a_GatewayUID current) now)))
                     else mret (Ok tt));
            match saved with
            | Fail saveErr =>
                lockErr ← outcome lockdown;
                observe binding false ;;
                join [Some (Errorf "persist adopted binding generation" saveErr); lockErr]
            | Ok _ => clean_group (Attachment_Key current) attachments
            end
        end
  end.

(** What is done with the live attachments of a Pod that exists. *)
Definition reconcile_live (canonical : PodIdentity) (pod : Pod) (attachments live : list Attachment) : M unit :=
  let notReady := observeNotReady (pi_Namespace canonical) (pi_UID canonical) in
  match live with
  | [] => notReady
  | [current] =>
      if String.eqb (a_Phase current) PhaseLockedDown then
        notReady ;;
        now ← on_world read_clock;
        if attachmentIsYoung current now then mret tt
        else on_world (prog_InstallLockdown (pi_NetNS (a_Pod current)) (pi_UID (a_Pod current)))
      else reconcile_ready canonical pod current attachments
  | _ =>
      notReady ;;
      lockErr ← lockdownAttachments live;
      join [Some (ESentinel ErrSandboxAmbiguous); lockErr]
  end.

Definition reconcileAttachmentGroup (unsorted : list Attachment) : M unit :=
  let attachments := sort_group unsorted in
  match attachments with
  | [] => mret tt
  | first :: rest =>
      let canonical := a_Pod first in
      if existsb (fun a => negb (String.eqb (pi_Namespace (a_Pod a)) (pi_Namespace canonical)) ||
                           negb (String.eqb (pi_Name (a_Pod a)) (pi_Name canonical))) rest
      then quarantineAttachmentGroup attachments (ENew "durable attachments disagree on Pod namespace or name")
      else
        podResult ← io_try (on_world (exact_pod canonical));
        match podResult with
        | Fail podErr =>
            if exactPodAbsent podErr then withdrawAttachmentGroup canonical attachments
            else observeNotReady (pi_Namespace canonical) (pi_UID canonical) ;; io_fail podErr
        | Ok pod =>
            if negb (not_deleting (pod_Meta pod)) then withdrawAttachmentGroup canonical attachments
            else
              found ← liveAttachments attachments;
              match found.2 with
              | [] => reconcile_live canonical pod attachments found.1
              | errs =>
                  observeNotReady (pi_Namespace canonical) (pi_UID canonical) ;;
                  lockErr ← lockdownAttachments found.1;
                  join [errors_Join (map Some errs); lockErr]
              end
        end
  end.

Definition group_of (podUID : string) (attachments : list Attachment) : list Attachment :=
  List.filter (fun a => String.eqb (pi_UID (a_Pod a)) podUID) attachments.

Definition ReconcileAll : M unit :=
  if s_TransitionHeld s then LockdownAll
  else
    listed ← io_wrap "list durable CNI attachments" (on_world as_ListAll);
    let attachments := List.filter (fun a => negb (str_empty (pi_UID (a_Pod a))) && negb (str_empty (pi_NetNS (a_Pod a)))) listed in
    let podUIDs := sort_by id (remove_dups (map (fun a => pi_UID (a_Pod a)) attachments)) in
    errs ← io_collect (fun podUID => io_wrap "reconcile Pod UID" (reconcileAttachmentGroup (group_of podUID attachments))) podUIDs;
    join (map Some errs).

End Service.

(** ** The deny policy under the service *)

(** What the service relies on: installing the lockdown and a successful
    verification leave the namespace confined, and no operation it uses opens
    a confined namespace. *)
Class ProgrammerContract (W : Type) `{Getter W Pod} `{Getter W VPNWorkloadBinding} `{Lister W VPNWorkloadBinding}
    `{Programmer W} `{AttachmentStore W} := {
  pgood : W -> Prop;
  pdenied : string -> W -> Prop;
  prog_lockdown_denies netns uid w : pgood w ->
    wp (prog_InstallLockdown netns uid) (fun r w' => r = Ok tt -> pdenied netns w') w;
  prog_verify_denies netns cfg w : pgood w ->
    wp (prog_Verify netns cfg) (fun r w' => r = Ok tt -> pdenied netns w') w;
  prog_identity_keeps path : keeps_denied pgood pdenied (prog_Identity path);
  prog_lockdown_keeps netns uid : keeps_denied pgood pdenied (prog_InstallLockdown netns uid);
  prog_configure_keeps netns cfg : keeps_denied pgood pdenied (prog_Configure netns cfg);
  prog_verify_keeps netns cfg : keeps_denied pgood pdenied (prog_Verify netns cfg);
  prog_cleanup_keeps netns uid : keeps_denied pgood pdenied (prog_Cleanup netns uid);
  get_pod_keeps key : keeps_denied pgood pdenied (k8s_Get (T := Pod) key);
  get_binding_keeps key : keeps_denied pgood pdenied (k8s_Get (T := VPNWorkloadBinding) key);
  list_bindings_keeps opt : keeps_denied pgood pdenied (k8s_List (T := VPNWorkloadBinding) opt);
  as_list_keeps : keeps_denied pgood pdenied as_ListAll;
  as_save_keeps a : keeps_denied pgood pdenied (as_Save a);
  as_delete_keeps key : keeps_denied pgood pdenied (as_Delete key)
}.

Section ServiceContract.
Context {W : Type} `{ProgrammerContract W} `{Clock W}.
Variable s : Service.
Variable publisher : option (Report -> IO W unit).
Context (publisher_keeps : forall publish report, publisher = Some publish -> keeps_denied pgood pdenied (publish report)).

Definition sgood (sw : SvcState * W) : Prop := pgood sw.2.
Definition sdenied (n : string) (sw : SvcState * W) : Prop := pdenied n sw.2.
Notation skeeps := (keeps_denied sgood sdenied).

Lemma on_world_keeps {A} (m : IO W A) : keeps_denied pgood pdenied m -> skeeps (on_world m).
Proof.
  intros Hm [st w] Hg. specialize (Hm w Hg). unfold wp, on_world in *. cbn. by destruct (m w) as [r w'].
Qed.

Lemma read_clock_keeps : keeps_denied pgood pdenied read_clock.
Proof. by apply keeps_pure. Qed.
Lemma get_state_keeps : skeeps get_state.
Proof. by apply keeps_pure. Qed.
Lemma put_state_keeps st : skeeps (put_state st).
Proof. intros [st0 w] Hg. by split. Qed.

#[local] Hint Resolve on_world_keeps read_clock_keeps get_state_keeps put_state_keeps prog_identity_keeps prog_lockdown_keeps
  prog_configure_keeps prog_verify_keeps prog_cleanup_keeps get_pod_keeps get_binding_keeps list_bindings_keeps
  as_list_keeps as_save_keeps as_delete_keeps publisher_keeps : core.
Ltac svc_walk := keeps_walk ltac:(first [apply on_world_keeps | solve [eauto]]).

Lemma exact_pod_keeps identity : keeps_denied pgood pdenied (exact_pod s identity).
Proof. unfold exact_pod. svc_walk. Qed.
Lemma rawBinding_keeps namespace podUID : keeps_denied pgood pdenied (rawBinding namespace podUID).
Proof. unfold rawBinding. svc_walk. Qed.
Lemma exact_binding_keeps pod : keeps_denied pgood pdenied (exact_binding s pod).
Proof. unfold exact_binding. svc_walk. apply rawBinding_keeps. Qed.
Lemma withdrawalBinding_keeps namespace podUID : keeps_denied pgood pdenied (withdrawalBinding namespace podUID).
Proof. unfold withdrawalBinding. svc_walk. Qed.
#[local] Hint Resolve exact_pod_keeps rawBinding_keeps exact_binding_keeps withdrawalBinding_keeps : core.

Lemma authority_keeps identity requested : keeps_denied pgood pdenied (authority s identity requested).
Proof. unfold authority. svc_walk. Qed.
Lemma observe_keeps binding ready : skeeps (observe s binding ready).
Proof. unfold observe. svc_walk. Qed.
Lemma forgetObservation_keeps podUID : skeeps (forgetObservation podUID).
Proof. unfold forgetObservation. svc_walk. Qed.
#[local] Hint Resolve authority_keeps observe_keeps forgetObservation_keeps : core.

Lemma svc_prepare_keeps identity requested : skeeps (prepare s identity requested).
Proof. unfold prepare. svc_walk. Qed.
Lemma svc_check_keeps identity requested : skeeps (check s identity requested).
Proof. unfold check. svc_walk. Qed.
Lemma observeNotReady_keeps namespace podUID : skeeps (observeNotReady s namespace podUID).
Proof. unfold observeNotReady. svc_walk. Qed.
Lemma exact_namespace_keeps msg attachment : skeeps (exact_namespace msg attachment).
Proof. unfold exact_namespace. svc_walk. Qed.
Lemma publish_keeps binding : skeeps (publish_withdrawal s publisher binding).
Proof. unfold publish_withdrawal, MakeReport. destruct publisher eqn:E; svc_walk. Qed.
#[local] Hint Resolve svc_prepare_keeps svc_check_keeps observeNotReady_keeps exact_namespace_keeps publish_keeps : core.

Lemma liveAttachments_keeps attachments : skeeps (liveAttachments attachments).
Proof. induction attachments; cbn [liveAttachments]; svc_walk. Qed.
Lemma lockdownAttachments_keeps attachments : skeeps (lockdownAttachments attachments).
Proof. unfold lockdownAttachments. svc_walk. Qed.
Lemma LockdownAll_keeps : skeeps (LockdownAll s).
Proof. unfold LockdownAll, lockdown_one, join. svc_walk. Qed.
#[local] Hint Resolve liveAttachments_keeps lockdownAttachments_keeps LockdownAll_keeps : core.

Lemma quarantine_keeps attachments cause : skeeps (quarantineAttachmentGroup s attachments cause).
Proof. unfold quarantineAttachmentGroup, join. svc_walk. Qed.
Lemma withdrawGroup_keeps canonical attachments : skeeps (withdrawAttachmentGroup s publisher canonical attachments).
Proof. unfold withdrawAttachmentGroup. svc_walk. Qed.
Lemma reconcile_ready_keeps canonical pod current attachments : skeeps (reconcile_ready s canonical pod current attachments).
Proof. unfold reconcile_ready, outcome, clean_group, join. svc_walk. Qed.
#[local] Hint Resolve quarantine_keeps withdrawGroup_keeps reconcile_ready_keeps : core.
Lemma reconcile_live_keeps canonical pod attachments live : skeeps (reconcile_live s canonical pod attachments live).
Proof. unfold reconcile_live, join. svc_walk. Qed.
#[local] Hint Resolve reconcile_live_keeps : core.
Lemma group_keeps attachments : skeeps (reconcileAttachmentGroup s publisher attachments).
Proof. unfold reconcileAttachmentGroup, join. svc_walk. Qed.
#[local] Hint Resolve group_keeps : core.

Lemma Prepare_keeps identity requested : skeeps (Prepare s identity requested).
Proof. unfold Prepare. svc_walk. Qed.
Lemma Check_keeps identity requested : skeeps (Check s identity requested).
Proof. unfold Check. svc_walk. Qed.
Lemma Withdraw_keeps identity : skeeps (Withdraw s publisher identity).
Proof. unfold Withdraw, exactAttachment, withdrawAttachment. svc_walk. Qed.
Lemma ReconcileAll_keeps : skeeps (ReconcileAll s publisher).
Proof. unfold ReconcileAll, join. svc_walk. Qed.
Lemma Resolve_keeps identity : skeeps (Resolve s identity).
Proof. unfold Resolve. svc_walk. Qed.
Lemma Binding_keeps identity : skeeps (Binding_ s identity).
Proof. unfold Binding_. svc_walk. Qed.

(** *** A ready observation follows a verified path *)

(** Nothing is reported ready in [after] that was not reported so before. *)
Definition no_new_ready (before after : SvcState) : Prop :=
  forall uid o, st_observations after !! uid = Some o -> ob_Ready o = true -> st_observations before !! uid = Some o.

(** The observation is ready and of exactly this binding. *)
Definition ready_for (requested : Binding) (st : SvcState) : Prop :=
  exists o, st_observations st !! b_PodUID requested = Some o /\ ob_Ready o = true /\
    ob_BindingUID o = b_UID requested /\ ob_Generation o = b_Generation requested /\
    ob_GatewayUID o = b_GatewayUID requested /\ ob_PodUID o = b_PodUID requested.

(** What a programming call may leave behind. *)
Definition programmed (netns : string) (requested : Binding) (before : SvcState) (r : res unit) (sw : SvcState * W) : Prop :=
  match r with
  | Ok _ => sdenied netns sw /\ ready_for requested sw.1
  | Fail _ => no_new_ready before sw.1
  end.

Lemma no_new_ready_refl st : no_new_ready st st.
Proof. by intros uid o. Qed.

Lemma observe_run binding ready st w :
  observe s binding ready (st, w) =
    (Ok (observation_of s binding (clock_now w) ready),
     (set_observations (<[lur_UID (wb_PodRef (wb_Spec binding)) := observation_of s binding (clock_now w) ready]>
        (st_observations st)) st, w)).
Proof. reflexivity. Qed.

Lemma wp_observe_false binding before st w (Q : res Observation -> SvcState * W -> Prop) :
  no_new_ready before st ->
  (forall o st', no_new_ready before st' -> Q (Ok o) (st', w)) -> wp (observe s binding false) Q (st, w).
Proof.
  intros Hn HQ. apply (wp_intro _ _ _ _ _ (observe_run binding false st w)). apply HQ. intros uid o Hl Hr. cbn in Hl. destruct (decide (uid = lur_UID (wb_PodRef (wb_Spec binding)))) as [->|Hne].
  - rewrite lookup_insert_eq in Hl. injection Hl as <-. done.
  - rewrite lookup_insert_ne in Hl by done. by apply Hn.
Qed.

Lemma wp_observe_true binding st w (Q : res Observation -> SvcState * W -> Prop) :
  (forall o st', ready_for (bindingReference binding) st' -> Q (Ok o) (st', w)) -> wp (observe s binding true) Q (st, w).
Proof.
  intros HQ. apply (wp_intro _ _ _ _ _ (observe_run binding true st w)). apply HQ. eexists. cbn. rewrite lookup_insert_eq. split_and!; reflexivity.
Qed.

Lemma authority_exact identity requested w :
  pgood w ->
  wp (authority s identity requested) (fun r w' => pgood w' /\
    forall pod binding cfg, r = Ok (pod, binding, cfg) -> bindingReference binding = requested) w.
Proof.
  intros Hg. eapply wp_mono; [apply wp_and; [by apply authority_keeps|]|].
  - unfold wp. instantiate (1 := fun r _ => forall pod binding cfg, r = Ok (pod, binding, cfg) -> bindingReference binding = requested).
    intros pod binding cfg Hr. destruct (authority s identity requested w) as [r w'] eqn:E. cbn in Hr. subst r.
    unfold authority in E. apply bind_ok in E as (u & w1 & _ & E). apply bind_ok in E as (p & w2 & _ & E).
    apply bind_ok in E as (b & w3 & _ & E). destruct (bool_decide_reflect (bindingReference b = requested)); [|done].
    apply bind_ok in E as (c & w4 & _ & E). by injection E as <- <- <- _.
  - intros r w' [[Hg' _] Hr]. by split.
Qed.

Lemma wp_lockdown_ignored netns uid (Q : res unit -> SvcState * W -> Prop) st w :
  pgood w -> (forall w', pgood w' -> Q (Ok tt) (st, w')) ->
  wp (io_ignore (on_world (prog_InstallLockdown netns uid))) Q (st, w).
Proof.
  intros Hg HQ. wp_step. apply wp_on_world. eapply wp_mono; [by apply prog_lockdown_keeps|]. intros r w' [Hg' _]. auto.
Qed.

Lemma wp_verify netns cfg w :
  pgood w -> wp (prog_Verify netns cfg) (fun r w' => pgood w' /\ (r = Ok tt -> pdenied netns w')) w.
Proof.
  intros Hg. eapply wp_mono; [apply wp_and; [by apply prog_verify_keeps|by apply prog_verify_denies]|].
  intros r w' [[Hg' _] Hd]. auto.
Qed.

Lemma prepare_programmed identity requested st w :
  pgood w -> wp (prepare s identity requested) (programmed (pi_NetNS identity) requested st) (st, w).
Proof.
  intros Hg. unfold prepare. wp_step. apply wp_on_world. eapply wp_mono; [by apply authority_exact|].
  intros [[[pod binding] cfg]|e] w1 [Hg1 Href]; cbn [after]; [|apply no_new_ready_refl].
  specialize (Href pod binding cfg eq_refl). wp_step. wp_step. apply wp_on_world.
  eapply wp_mono; [by apply prog_lockdown_keeps|]. intros [[]|e] w2 [Hg2 _]; cbn [after]; [|apply no_new_ready_refl].
  wp_step. wp_step. apply wp_on_world. eapply wp_mono; [by apply prog_configure_keeps|]. intros [[]|e] w3 [Hg3 _].
  - wp_step. wp_step. apply wp_on_world. eapply wp_mono; [by apply wp_verify|]. intros [[]|e] w4 [Hg4 Hd].
    + wp_step. apply wp_observe_true. intros o st' Hr. cbn [after]. wp_step. rewrite Href in Hr. split; [by apply Hd|done].
    + wp_step. apply wp_lockdown_ignored; [done|]. intros w5 Hg5. cbn [after].
      wp_step. apply (wp_observe_false _ st); [apply no_new_ready_refl|]. intros o st' Hn. cbn [after]. by wp_step.
  - wp_step. apply wp_lockdown_ignored; [done|]. intros w5 Hg5. cbn [after].
    wp_step. apply (wp_observe_false _ st); [apply no_new_ready_refl|]. intros o st' Hn. cbn [after]. by wp_step.
Qed.

Lemma check_programmed identity requested st w :
  pgood w -> wp (check s identity requested) (programmed (pi_NetNS identity) requested st) (st, w).
Proof.
  intros Hg. unfold check. wp_step. wp_step. apply wp_on_world. eapply wp_mono; [by apply authority_exact|].
  intros [[[pod binding] cfg]|e] w1 [Hg1 Href].
  2: { wp_step. apply wp_lockdown_ignored; [done|]. intros w2 Hg2. cbn [after]. wp_step. apply no_new_ready_refl. }
  specialize (Href pod binding cfg eq_refl).
  assert (forall w' msg e, pgood w' ->
    wp (observe s binding false ;; io_fail (Errorf msg e)) (programmed (pi_NetNS identity) requested st) (st, w')) as Hfailed.
  { intros w' msg e Hg'. wp_step. apply (wp_observe_false _ st); [apply no_new_ready_refl|]. intros o st' Hn. cbn [after]. by wp_step. }
  assert (forall w', pgood w' -> pdenied (pi_NetNS identity) w' ->
    wp (observe s binding true ;; mret tt) (programmed (pi_NetNS identity) requested st) (st, w')) as Hdone.
  { intros w' Hg' Hd. wp_step. apply wp_observe_true. intros o st' Hr. cbn [after]. wp_step. rewrite Href in Hr. by split. }
  wp_step. wp_step. apply wp_on_world. eapply wp_mono; [by apply wp_verify|]. intros [[]|e] w2 [Hg2 Hd]; [by auto|].
  wp_step. wp_step. apply wp_on_world. eapply wp_mono; [by apply prog_lockdown_keeps|]. intros [[]|e'] w3 [Hg3 _]; [|by auto].
  wp_step. wp_step. apply wp_on_world. eapply wp_mono; [by apply prog_configure_keeps|]. intros [[]|e'] w4 [Hg4 _]; [|by auto].
  wp_step. wp_step. apply wp_on_world. eapply wp_mono; [by apply wp_verify|]. intros [[]|e'] w5 [Hg5 Hd']; [by auto|].
  wp_step. apply wp_lockdown_ignored; [done|]. intros w6 Hg6. cbn [after]. by apply Hfailed.
Qed.

Lemma Prepare_programmed identity requested st w :
  pgood w -> wp (Prepare s identity requested) (programmed (pi_NetNS identity) requested st) (st, w).
Proof.
  intros Hg. unfold Prepare. wp_step. change (wp get_state ?Q (st, w)) with (Q (Ok st) (st, w)). cbn [after].
  destruct (Ready s st); cbn [negb]; [by apply prepare_programmed|]. wp_step. apply no_new_ready_refl.
Qed.

Lemma Check_programmed identity requested st w :
  pgood w -> wp (Check s identity requested) (programmed (pi_NetNS identity) requested st) (st, w).
Proof.
  intros Hg. unfold Check. wp_step. change (wp get_state ?Q (st, w)) with (Q (Ok st) (st, w)). cbn [after].
  destruct (Ready s st); cbn [negb]; [by apply check_programmed|].
  wp_step. apply wp_lockdown_ignored; [done|]. intros w1 Hg1. cbn [after]. wp_step. apply no_new_ready_refl.
Qed.

(** Success means a verified path.  When [Prepare] or [Check] succeeds,
    the Pod's namespace is confined and the agent reports the exact requested
    binding, UID, generation and gateway, as ready; when it fails, for
    whatever reason, it reports nothing ready that it did not report before. *)
Theorem programming_observed identity requested st w :
  pgood w ->
  wp (Prepare s identity requested) (programmed (pi_NetNS identity) requested st) (st, w) /\
  wp (Check s identity requested) (programmed (pi_NetNS identity) requested st) (st, w).
Proof. intros Hw. split; [by apply Prepare_programmed|by apply Check_programmed]. Qed.

(** *** The lockdown of everything *)

(** At some point the path of the attachment did not lead to its namespace. *)
Definition gone (attachment : Attachment) : Prop :=
  exists w0, pgood w0 /\
             match (prog_Identity (pi_NetNS (a_Pod attachment)) w0).1 with
             | Ok ident => ident <> a_NamespaceIdentity attachment
             | Fail e => errors_is e ErrNotExist = true
             end.

Definition locked (attachment : Attachment) (sw : SvcState * W) : Prop :=
  sdenied (pi_NetNS (a_Pod attachment)) sw \/ gone attachment.

(** The agent reports the binding's Pod as not ready. *)
Definition withdrawn (binding : VPNWorkloadBinding) (sw : SvcState * W) : Prop :=
  exists o, st_observations sw.1 !! lur_UID (wb_PodRef (wb_Spec binding)) = Some o /\ ob_Ready o = false.

Lemma keeps_locked {A} (m : IO (SvcState * W) A) a sw :
  skeeps m -> sgood sw -> wp m (fun _ sw' => sgood sw' /\ (locked a sw -> locked a sw')) sw.
Proof.
  intros Hm Hg. eapply wp_mono; [by apply Hm|]. intros r sw' [Hg' Hd]. split; [done|].
  intros [Hl|Hgone]; [left; by apply Hd|by right].
Qed.

Lemma wp_exact_namespace msg a sw :
  sgood sw -> wp (exact_namespace msg a) (fun r sw' => sgood sw' /\ forall b, r = Ok (Ok b) -> b = true \/ gone a) sw.
Proof.
  destruct sw as [st w]. intros Hg. unfold exact_namespace. wp_step. wp_step. apply wp_on_world.
  eapply wp_mono; [apply wp_and; [by apply prog_identity_keeps|]|].
  { instantiate (1 := fun r _ => r = (prog_Identity (pi_NetNS (a_Pod a)) w).1). done. }
  intros r w' [[Hg' _] Hr]. wp_step. split; [done|]. intros b Hb.
  destruct r as [ident|e]; [|destruct (errors_is e ErrNotExist) eqn:Ee; [|done]].
  - injection Hb as <-. destruct (String.eqb_spec ident (a_NamespaceIdentity a)); [by left|].
    right. exists w. by rewrite <- Hr.
  - injection Hb as <-. right. exists w. by rewrite <- Hr.
Qed.

Lemma lockdown_one_locks a sw :
  sgood sw -> wp (lockdown_one s a) (fun r sw' => sgood sw' /\ (r = Ok tt -> locked a sw')) sw.
Proof.
  intros Hg. unfold lockdown_one. wp_step. eapply wp_mono; [by apply wp_exact_namespace|].
  intros [exact|e] sw1 [Hg1 He]; cbn [after]; [|done]. wp_step. wp_step.
  destruct exact as [b|e]; cbn [after]; [|done]. destruct b; cbn [negb].
  2: { wp_step. split; [done|]. intros _. right. by destruct (He false eq_refl). }
  wp_step. destruct sw1 as [st1 w1]. apply wp_on_world.
  eapply wp_mono; [apply wp_and; [by apply prog_lockdown_keeps|by apply prog_lockdown_denies]|].
  intros [[]|e] w2 [[Hg2 _] Hd]; cbn [after]; [|done].
  eapply wp_mono; [apply (keeps_locked _ a); [apply observeNotReady_keeps|done]|].
  intros r sw3 [Hg3 Hl]. split; [done|]. intros _. apply Hl. left. by apply Hd.
Qed.

Lemma observe_withdraws binding sw :
  sgood sw ->
  wp (if reportable s binding then observe s binding false ;; mret tt else mret tt)
    (fun r sw' => sgood sw' /\ (r = Ok tt -> reportable s binding = true -> withdrawn binding sw') /\
       (forall b, (reportable s b = true -> withdrawn b sw) -> reportable s b = true -> withdrawn b sw')) sw.
Proof.
  intros Hg. destruct (reportable s binding); [|by wp_step; split_and!]. destruct sw as [st w].
  wp_step. apply (wp_intro _ _ _ _ _ (observe_run binding false st w)). cbn [after]. wp_step. split_and!; [done| |].
  - intros _ _. eexists. cbn. by rewrite lookup_insert_eq.
  - intros b Hb Hr. destruct (Hb Hr) as (o & Ho & Hn). unfold withdrawn. cbn in *.
    destruct (decide (lur_UID (wb_PodRef (wb_Spec b)) = lur_UID (wb_PodRef (wb_Spec binding)))) as [->|Hne].
    + rewrite lookup_insert_eq. by eexists.
    + rewrite lookup_insert_ne by done. by exists o.
Qed.

(** The namespace of every attachment that was on record in [w] is confined,
    unless its path no longer leads to that namespace, and every binding of this
    node that the API server listed is reported as not ready, attachment or
    not. *)
Definition locked_down (w : W) (sw : SvcState * W) : Prop :=
  (exists attachments, (as_ListAll w).1 = Ok attachments /\ forall a, a ∈ attachments -> locked a sw) /\
  (exists bindings w1, pgood w1 /\ (k8s_List (T := VPNWorkloadBinding) ListAll w1).1 = Ok bindings /\
     forall b, b ∈ bindings -> reportable s b = true -> withdrawn b sw).

(** A successful lockdown withdraws everything. *)
Lemma LockdownAll_withdraws st w :
  pgood w -> wp (LockdownAll s) (fun r sw' => r = Ok tt -> locked_down w sw') (st, w).
Proof.
  intros Hg. unfold LockdownAll. wp_step. apply wp_on_world. pose proof (as_list_keeps w Hg) as Hl.
  wp_run listed w1 El. destruct (wp_elim _ _ _ _ _ Hl El) as [Hg1 _]. destruct listed as [attachments|e]; cbn [after]; [|done].
  wp_step. eapply wp_mono; [apply (wp_collect_each sgood locked)|].
  { intros a sw _ Hsg. eapply wp_mono; [apply wp_and; [by apply lockdown_one_locks|]|].
    - unfold wp. instantiate (1 := fun _ sw' => forall y, locked y sw -> locked y sw'). intros y.
      apply (keeps_locked (lockdown_one s a) y sw); [unfold lockdown_one; svc_walk|done].
    - intros r sw' [[Hsg' Hlock] Hkeep]. auto. }
  { done. }
  intros ? [st2 w2] (Hg2 & _ & errs & -> & Hall). cbn [after]. wp_step. wp_step. apply wp_on_world.
  pose proof (list_bindings_keeps ListAll w2 Hg2) as Hlb. wp_run bindings w3 Eb.
  destruct (wp_elim _ _ _ _ _ Hlb Eb) as [Hg3 Hd3]. destruct bindings as [bindings|e]; unfold join.
  2: { apply wp_check. intros Hr. destruct errs; done. }
  wp_step. eapply wp_mono; [apply wp_and; [apply (wp_each_all sgood (fun b sw' => reportable s b = true -> withdrawn b sw'))|]|].
  { intros b sw _ Hsg. by apply observe_withdraws. }
  { done. }
  { unfold wp. instantiate (1 := fun _ sw' => forall a, locked a (st2, w3) -> locked a sw'). intros a.
    apply (keeps_locked (io_each _ bindings) a (st2, w3)); [svc_walk|done]. }
  intros [[]|e] sw4 [(Hg4 & _ & Hw) Hkeep]; cbn [after]; [|done]. apply wp_check. intros Hr.
  destruct errs as [|e errs]; [|done]. split.
  - exists attachments. split; [by rewrite El|]. intros a Ha. apply Hkeep.
    destruct (Hall eq_refl a Ha) as [Hden|Hgone]; [left; by apply Hd3|by right].
  - exists bindings, w2. split; [done|]. split; [by rewrite Eb|]. intros b Hb. by apply Hw.
Qed.

End ServiceContract.
