(* ===== verification/AgentLoop.v ===== *)
(** * The loop of the node agent

    internal/nodeagent/reporter.go, which posts the agent's report to the
    observation relay, and the parts of cmd/waycloak-node-agent/main_linux.go
    that decide when the node is offered: the checks at the start, the recovery
    of retained attachments, and the passes of [reconcileLoop].  What a pass
    logs is its result.

    The service of NodeAgent.v runs over any world in which the installation of
    the plugin can be validated and the relay can be asked. *)

From S2P Require Import Prelude Netip Api Kube Http Files CniTypes CniPlugin CniInstall NodeAgent.

(** ** The reporter *)

(** The URL as host and path; none where it is empty.  The client of the record,
    its certificate pool and dialer are the transport. *)
Record Reporter := mkReporter { rp_URL : option (string * string); rp_TokenFile : string }.

(** [os.ReadFile] of the projected token, and [http.Client.Do] with the header
    that carries it. *)
Class TokenSource (W : Type) := read_token : string -> IO W string.
Class RelayTransport (W : Type) := relay_Do : string -> HttpRequest -> IO W HttpResponse.

(** [validateInstallation] with the files of the node's flags. *)
Class InstallationCheck (W : Type) := validateInstallation : ReleaseIdentity -> bool -> IO W unit.

Definition Reporter_Report {W} `{TokenSource W} `{RelayTransport W} `{Json Report} (r : Reporter) (report : Report) : IO W unit :=
  match rp_URL r with
  | None => io_fail (ENew "observation relay URL and token file are required")
  | Some (host, path) =>
      if str_empty (rp_TokenFile r) then io_fail (ENew "observation relay URL and token file are required")
      else
        token ← io_wrap "read projected observation token" (read_token (rp_TokenFile r));
        match Marshal report with
        | None => io_fail (ENew "unsupported value")
        | Some body =>
            response ← io_wrap "publish node observation"
              (relay_Do ("Bearer " +:+ TrimSpace token) (mkHttpRequest MethodPost host path "" "application/json" body));
            if negb (rs_StatusCode response =? StatusNoContent) then io_fail (ENew "observation relay returned HTTP status") else mret tt
        end
  end.

(** ** The start *)

Record Flags := mkFlags {
  fl_socketPath : path;
  fl_keyFile : path;
  fl_nodeName : string;
  fl_relayURL : option (string * string);
  fl_releaseIdentity : ReleaseIdentity;
  fl_conformanceProfile : string;
  fl_cniReleaseIdentity : ReleaseIdentity;
  fl_capabilityHoldID : string;
  fl_capabilityHold : bool;
  fl_interval : duration
}.

Definition validReleaseIdentity (version digest : string) : bool :=
  negb (str_empty version || (128 <? String.length version)%nat) && validDigest digest.

Definition flags_refused (f : Flags) : option error :=
  if str_empty (fl_nodeName f) || negb (bool_decide (is_Some (fl_relayURL f))) || (fl_interval f <? Second) ||
     negb (String.eqb (fl_socketPath f).1 (fl_keyFile f).1)
  then Some (ENew "node name, observation relay, bounded reconcile interval, and one protected local protocol directory are required")
  else if negb (validReleaseIdentity (ri_Version (fl_releaseIdentity f)) (ri_ManifestDigest (fl_releaseIdentity f))) ||
          str_empty (fl_conformanceProfile f)
  then Some (ENew "exact release identity and conformance profile are required")
  else if (negb (fl_capabilityHold f) && negb (str_empty (fl_capabilityHoldID f))) ||
          (negb (str_empty (fl_capabilityHoldID f)) && negb (validReleaseIdentity "transition" (fl_capabilityHoldID f)))
  then Some (ENew "capability hold has an invalid transition plan identity")
  else if negb (validReleaseIdentity (ri_Version (fl_cniReleaseIdentity f)) (ri_ManifestDigest (fl_cniReleaseIdentity f)))
  then Some (ENew "exact installed CNI release identity is required")
  else None.

(** The service that [run] makes; the instance identity is the held plan or a
    random one. *)
Definition new_service (f : Flags) (bootID random : string) : Service :=
  mkService (fl_nodeName f) bootID (if str_empty (fl_capabilityHoldID f) then random else fl_capabilityHoldID f) true
    (fl_capabilityHold f) (negb (str_empty (fl_capabilityHoldID f))) ["nftables"; "netlink"; "vxlan"; "ipv4"; "dns-udp-tcp"]
    (fl_releaseIdentity f) (fl_conformanceProfile f).
Definition new_state : SvcState := mkSvcState ∅ false false.

(** ** The passes *)

(** What [publishObservation] reports: the publication, or the lockdown that
    followed its loss. *)
Inductive publication := Published | Unpublished (lockdown : res unit).
Definition is_published (p : publication) : bool := match p with Published => true | Unpublished _ => false end.

Record pass_log := mkPassLog {
  lg_installation : res unit;
  lg_invalid_lockdown : option (res unit);
  lg_first : publication;
  lg_reconcile : option (res unit);
  lg_second : option publication
}.

Section Loop.
Context {W : Type} `{Getter W Pod} `{Getter W VPNWorkloadBinding} `{Lister W VPNWorkloadBinding}.
Context `{Programmer W} `{AttachmentStore W} `{Clock W} `{TokenSource W} `{RelayTransport W} `{InstallationCheck W} `{Json Report}.
Variable s : Service.
Variable reporter : Reporter.
Notation M := (IO (SvcState * W)).

(** The reporter is also the service's withdrawal publisher. *)
Definition withdrawal_publisher : option (Report -> IO W unit) := Some (Reporter_Report reporter).

Definition recoverInstalledState (releaseIdentity : ReleaseIdentity) : M unit :=
  io_wrap "CNI installation invalid" (on_world (validateInstallation releaseIdentity (s_TransitionHeld s))) ;;
  io_wrap "restore deny-first state before serving CNI" (LockdownAll s).

(** [run] between its flags and the listener. *)
Definition start (f : Flags) : M unit :=
  io_lift (of_error (flags_refused f)) ;;
  io_wrap "CNI installation is not eligible for fail-closed readiness"
    (on_world (validateInstallation (fl_cniReleaseIdentity f) (negb (str_empty (fl_capabilityHoldID f))))) ;;
  recovered ← io_try (recoverInstalledState (fl_releaseIdentity f));
  SetBackendHealthy (match recovered with Ok _ => true | Fail _ => false end).

Definition publishObservation : M publication :=
  report ← MakeReport s;
  answer ← io_try (on_world (Reporter_Report reporter report));
  match answer with
  | Ok _ => SetRelayHealthy true ;; mret Published
  | Fail _ => SetRelayHealthy false ;; lockdown ← io_try (LockdownAll s); mret (Unpublished lockdown)
  end.

(** One round of [reconcileLoop], up to its wait. *)
Definition reconcilePass (releaseIdentity : ReleaseIdentity) : M pass_log :=
  installation ← io_try (on_world (validateInstallation releaseIdentity (s_TransitionHeld s)));
  invalid ← match installation with
            | Fail _ => SetBackendHealthy false ;; lockdown ← io_try (LockdownAll s); mret (Some lockdown)
            | Ok _ => mret None
            end;
  first ← publishObservation;
  if is_published first && match installation with Ok _ => true | Fail _ => false end then
    reconciled ← io_try (ReconcileAll s withdrawal_publisher);
    SetBackendHealthy (match reconciled with Ok _ => true | Fail _ => false end) ;;
    second ← publishObservation;
    mret (mkPassLog installation invalid first (Some reconciled) (Some second))
  else mret (mkPassLog installation invalid first None None).

End Loop.

(** ** What the passes leave of the service's flags *)

Section Flags.
Context {W : Type} `{Getter W Pod} `{Getter W VPNWorkloadBinding} `{Lister W VPNWorkloadBinding}.
Context `{Programmer W} `{AttachmentStore W} `{Clock W}.
Variable s : Service.
Variable publisher : option (Report -> IO W unit).

(** The flags are these. *)
Definition flags_are (relay backend : bool) (sw : SvcState * W) : Prop :=
  st_relayHealthy sw.1 = relay /\ st_backendHealthy sw.1 = backend.
Notation fkeeps relay backend := (keeps_denied (flags_are relay backend) (fun (_ : string) _ => True)).

Lemma flags_world {A} (m : IO W A) a b : fkeeps a b (on_world m).
Proof. intros [st w] [Ha Hb]. unfold wp, on_world, flags_are in *. cbn in *. destruct (m w). by cbn. Qed.
Lemma flags_get a b : fkeeps a b get_state.
Proof. by apply keeps_pure. Qed.
Lemma flags_observe binding ready a b : fkeeps a b (observe s binding ready).
Proof. intros [st w] Hf. by apply (wp_intro _ _ _ _ _ (observe_run s binding ready st w)). Qed.
Lemma flags_forget podUID a b : fkeeps a b (forgetObservation podUID).
Proof. by intros [st w] Hf. Qed.

Ltac flags_step := first [apply flags_world | apply flags_get | apply flags_observe | apply flags_forget].

Lemma flags_live attachments a b : fkeeps a b (liveAttachments attachments).
Proof.
  induction attachments as [|x rest IH]; cbn [liveAttachments]; unfold exact_namespace; keeps_walk ltac:(first [flags_step|exact IH]).
Qed.

Lemma flags_LockdownAll a b : fkeeps a b (LockdownAll s).
Proof. unfold LockdownAll, lockdown_one, exact_namespace, observeNotReady, join. keeps_walk ltac:(flags_step). Qed.

Lemma flags_group attachments a b : fkeeps a b (reconcileAttachmentGroup s publisher attachments).
Proof.
  unfold reconcileAttachmentGroup, quarantineAttachmentGroup, withdrawAttachmentGroup, reconcile_live, reconcile_ready, prepare, check,
    clean_group, publish_withdrawal, MakeReport, lockdownAttachments, observeNotReady, outcome, join.
  keeps_walk ltac:(first [flags_step|apply flags_live]).
Qed.

Lemma flags_ReconcileAll a b : fkeeps a b (ReconcileAll s publisher).
Proof. unfold ReconcileAll, join. keeps_walk ltac:(first [flags_step|apply flags_LockdownAll|apply flags_group]). Qed.

End Flags.

(** ** What a pass shows and what it leaves behind *)

Section Passes.
Context {W : Type} `{Getter W Pod} `{Getter W VPNWorkloadBinding} `{Lister W VPNWorkloadBinding}.
Context `{Programmer W} `{AttachmentStore W} `{Clock W} `{TokenSource W} `{RelayTransport W} `{InstallationCheck W} `{Json Report}.
Variable s : Service.
Variable reporter : Reporter.

Lemma wp_SetRelay b st (w : W) (Q : res unit -> SvcState * W -> Prop) :
  Q (Ok tt) (mkSvcState (st_observations st) b (st_backendHealthy st), w) -> wp (SetRelayHealthy b) Q (st, w).
Proof. done. Qed.
Lemma wp_SetBackend b st (w : W) (Q : res unit -> SvcState * W -> Prop) :
  Q (Ok tt) (mkSvcState (st_observations st) (st_relayHealthy st) b, w) -> wp (SetBackendHealthy b) Q (st, w).
Proof. done. Qed.

Lemma wp_MakeReport st (w : W) (Q : res Report -> SvcState * W -> Prop) :
  (forall report, Q (Ok report) (st, w)) -> wp (MakeReport s) Q (st, w).
Proof. intros HQ. apply HQ. Qed.

(** A publication records its own success and leaves the backend's flag. *)
Lemma publish_flags sw :
  wp (publishObservation s reporter) (fun r sw' => exists p, r = Ok p /\ st_relayHealthy sw'.1 = is_published p /\
    st_backendHealthy sw'.1 = st_backendHealthy sw.1) sw.
Proof.
  destruct sw as [st w]. unfold publishObservation. wp_step. apply wp_MakeReport. intros report. cbn [after]. wp_step. wp_step. apply wp_on_world.
  wp_run answer w1 E. destruct answer as [[]|e].
  - wp_step. apply wp_SetRelay. cbn [after]. wp_step. by exists Published.
  - wp_step. apply wp_SetRelay. cbn [after]. wp_step. wp_step.
    eapply wp_mono; [apply (flags_LockdownAll s false (st_backendHealthy st)); by split|]. intros r sw2 [[Hr Hb] _]. wp_step.
    exists (Unpublished r). by split_and!.
Qed.

(** Both flags are set only after a pass in which nothing went wrong. *)
Lemma pass_flags release st w :
  wp (reconcilePass s reporter release) (fun r sw' => exists log, r = Ok log /\
    lg_installation log = (validateInstallation release (s_TransitionHeld s) w).1 /\
    (st_relayHealthy sw'.1 && st_backendHealthy sw'.1 = true ->
     lg_installation log = Ok tt /\ lg_first log = Published /\ lg_reconcile log = Some (Ok tt) /\ lg_second log = Some Published)) (st, w).
Proof.
  unfold reconcilePass. wp_step. wp_step. apply wp_on_world. wp_run installation w1 E. wp_step.
  destruct installation as [[]|e].
  2: { wp_step. apply wp_SetBackend. cbn [after]. wp_step. wp_step.
       eapply wp_mono; [apply (flags_LockdownAll s (st_relayHealthy st) false); by split|]. intros r [st2 w2] [[_ Hb] _]. wp_step. cbn [after].
       wp_step. wp_with publish_flags. intros ? [st3 w3] (p & -> & _ & Hb3). cbn [after] in *. rewrite andb_false_r.
       wp_step. eexists. split; [done|]. split; [done|]. cbn in *. rewrite Hb3, Hb, andb_false_r. done. }
  wp_step. cbn [after]. wp_step. wp_with publish_flags. intros ? [st2 w2] (p & -> & Hr2 & Hb2). cbn [after] in *.
  destruct p as [|lockdown]; cbn [is_published andb].
  2: { wp_step. eexists. split; [done|]. split; [done|]. cbn in *. by rewrite Hr2. }
  wp_step. wp_step. wp_run reconciled sw3 Er. destruct sw3 as [st3 w3]. wp_step. apply wp_SetBackend. cbn [after]. wp_step.
  wp_with publish_flags. intros ? [st4 w4] (p & -> & Hr4 & Hb4). cbn [after] in *. wp_step. eexists. split; [done|].
  split; [done|]. cbn in *. rewrite Hr4, Hb4. intros [Hp Hok]%andb_true_iff. split_and!; [done|done| |by destruct p].
  by destruct reconciled as [[]|].
Qed.

(** *** Lockdowns *)

(** The lockdown that ends the pass, if one does. *)
Definition last_lockdown (log : pass_log) : option (res unit) :=
  match lg_second log with
  | Some (Unpublished lockdown) => Some lockdown
  | Some Published => None
  | None => match lg_first log with Unpublished lockdown => Some lockdown | Published => None end
  end.

(** The Pod with this UID is reported as not ready. *)
Definition uid_withdrawn (uid : string) (sw : SvcState * W) : Prop :=
  exists o, st_observations sw.1 !! uid = Some o /\ ob_Ready o = false.
Notation ukeeps := (keeps_denied (fun _ => True) uid_withdrawn).

Lemma uid_world {A} (m : IO W A) : ukeeps (on_world m).
Proof. intros [st w] _. unfold wp, on_world. cbn. by destruct (m w). Qed.
Lemma uid_get : ukeeps get_state.
Proof. by apply keeps_pure. Qed.
Lemma uid_observe binding : ukeeps (observe s binding false).
Proof.
  intros [st w] _. apply (wp_intro _ _ _ _ _ (observe_run s binding false st w)). split; [done|]. intros uid (o & Ho & Hn).
  unfold uid_withdrawn. cbn in *. destruct (decide (uid = lur_UID (wb_PodRef (wb_Spec binding)))) as [->|Hne].
  - rewrite lookup_insert_eq. by eexists.
  - rewrite lookup_insert_ne by done. by exists o.
Qed.
Lemma uid_relay b : ukeeps (SetRelayHealthy b).
Proof. by intros [st w] _. Qed.

Ltac uid_step := first [apply uid_world | apply uid_get | apply uid_observe | apply uid_relay].

Lemma uid_publish : ukeeps (publishObservation s reporter).
Proof.
  unfold publishObservation, MakeReport, LockdownAll, lockdown_one, exact_namespace, observeNotReady, join. keeps_walk ltac:(uid_step).
Qed.

End Passes.

Section PassContract.
Context {W : Type} `{ProgrammerContract W} `{Clock W} `{TokenSource W} `{RelayTransport W} `{InstallationCheck W} `{Json Report}.
Variable s : Service.
Variable reporter : Reporter.
Notation wkeeps := (keeps_denied pgood pdenied).
Notation skeeps := (keeps_denied sgood sdenied).
Context (token_keeps : forall file, wkeeps (read_token file)) (relay_keeps : forall token request, wkeeps (relay_Do token request)).
Context (installation_keeps : forall release held, wkeeps (validateInstallation release held)).

Lemma Reporter_keeps report : wkeeps (Reporter_Report reporter report).
Proof. unfold Reporter_Report. keeps_walk ltac:(first [apply token_keeps|apply relay_keeps]). Qed.

Lemma flag_keeps b : skeeps (SetRelayHealthy b) /\ skeeps (SetBackendHealthy b).
Proof. split; by intros [st w] Hg. Qed.

Ltac pass_step := first [apply on_world_keeps | apply get_state_keeps | apply read_clock_keeps | apply Reporter_keeps | apply installation_keeps
  | apply (flag_keeps _) | apply LockdownAll_keeps | apply ReconcileAll_keeps].

Lemma publishObservation_keeps : skeeps (publishObservation s reporter).
Proof using token_keeps relay_keeps. unfold publishObservation, MakeReport. keeps_walk ltac:(pass_step). Qed.

Lemma reconcilePass_keeps release : skeeps (reconcilePass s reporter release).
Proof using token_keeps relay_keeps installation_keeps.
  unfold reconcilePass. keeps_walk ltac:(first [pass_step|apply publishObservation_keeps]). match goal with Hp : _ = Some _ |- _ => injection Hp as <- end. apply Reporter_keeps.
Qed.

Lemma start_keeps f : skeeps (start s f).
Proof using installation_keeps. unfold start, recoverInstalledState. keeps_walk ltac:(pass_step). Qed.

End PassContract.
