(* ===== verification/Scheduling.v ===== *)
(** * Node capability labels (internal/scheduling)

    The publisher that turns the authenticated report of a node agent into the
    labels that admit enrolled Pods to a node, and the reconciler that takes
    stale labels away.  Both run against the server of Kube, which other clients
    change between any two requests. *)

From S2P Require Import Prelude Netip Api Kube NodeAgent.

Definition CNIReadyLabel : string := "networking.waycloak.io.node-restriction.kubernetes.io/cni-ready".
Definition CapabilityEpochLabel : string := "networking.waycloak.io.node-restriction.kubernetes.io/capability-epoch".
Definition ObservationEpochLabel : string := "networking.waycloak.io.node-restriction.kubernetes.io/observation-epoch".
Definition NodeFieldManager : string := "waycloak-node-capability-controller".
Definition DefaultFreshness : duration := 20 * Second.
Definition DefaultClockSkew : duration := Minute.
Definition BaselineCapabilities : list string := ["dns-udp-tcp"; "ipv4"; "netlink"; "nftables"; "vxlan"].

(** ** Data *)

(** A corev1.Node: its name, its labels, and which labels the publisher's field
    manager owns on the server. *)
Record NodeObject := mkNodeObject {
  nd_Meta : ObjectMeta;
  nd_Managed : gset string
}.
Definition node_label (node : NodeObject) (key : string) : string := map_get (Labels (nd_Meta node)) key.

Definition with_labels (labels : gmap string string) (m : ObjectMeta) : ObjectMeta :=
  mkObjectMeta (Namespace m) (Name m) (UID m) (Generation m) (DeletionTimestamp m) labels (Annotations m) (Finalizers m)
    (OwnerReferences m).
Definition set_labels (labels : gmap string string) (node : NodeObject) : NodeObject :=
  mkNodeObject (with_labels labels (nd_Meta node)) (nd_Managed node).

(** The Pod of a node agent, as far as its authority is read from it. *)
Record AgentPod := mkAgentPod {
  ap_Meta : ObjectMeta;
  ap_NodeName : string;
  ap_ServiceAccountName : string
}.

Record Publisher := mkPublisher {
  pb_ReleaseIdentity : ReleaseIdentity;
  pb_TransitionPlanID : string;
  pb_TransitionReleaseIdentity : ReleaseIdentity;
  pb_ConformanceProfile : string;
  pb_Required : list string;
  pb_ClockSkew : duration
}.

Record NodeCapabilityReconciler := mkNodeCapabilityReconciler { nc_Freshness : duration }.

(** ** Integers and times *)

(** Arithmetic of int64. *)
Definition int64 (z : Z) : Z := (z + 2 ^ 63) mod 2 ^ 64 - 2 ^ 63.

(** [time.Unix(sec, 0)], which counts from year 1 in an int64, [t.Unix()] and
    [t.UnixNano()]. *)
Definition unixToInternal : Z := 62135596800.
Definition time_Unix (sec : Z) : time := (int64 (sec + unixToInternal) - unixToInternal) * Second.
Definition UnixSeconds (t : time) : Z := t / Second.
Definition UnixNano (t : time) : Z := int64 t.

(** ** The publisher *)

Definition containsAll (actual required : list string) : bool := forallb (contains_string actual) required.

Definition clockSkew (p : Publisher) : duration := if 0 <? pb_ClockSkew p then pb_ClockSkew p else DefaultClockSkew.
Definition required (p : Publisher) : list string :=
  match pb_Required p with [] => BaselineCapabilities | l => l end.

Definition supportsReleaseIdentity (p : Publisher) (report : NodeReport) : bool :=
  if decide (nr_ReleaseIdentity report = pb_ReleaseIdentity p) then true
  else negb (str_empty (pb_TransitionPlanID p)) && String.eqb (nr_InstanceID report) (pb_TransitionPlanID p) &&
       negb (nr_Ready report) && bool_decide (nr_ReleaseIdentity report = pb_TransitionReleaseIdentity p).

(** [client.Apply] of a Node with labels: a server-side apply with forced
    ownership. *)
Class NodeLabelApplier (W : Type) := k8s_ApplyLabels : string -> gmap string string -> string -> IO W unit.

Section Publisher.
Context {W : Type} `{Clock W} `{Getter W NodeObject} `{Patcher W NodeObject} `{NodeLabelApplier W}.
Variable p : Publisher.

Definition withdraw (nodeName : string) : IO W unit :=
  if str_empty nodeName then io_fail (ENew "node capability publisher and node name are required")
  else
    got ← io_try (k8s_Get (T := NodeObject) (mkObjectKey "" nodeName));
    match got with
    | Fail err => if IsNotFound err then mret tt else io_fail err
    | Ok node =>
        if str_empty (node_label node CNIReadyLabel) && str_empty (node_label node CapabilityEpochLabel) then mret tt
        else
          let labels := delete CapabilityEpochLabel (delete CNIReadyLabel (Labels (nd_Meta node))) in
          io_wrap "withdraw authenticated node capability" (k8s_Patch node (set_labels labels node))
    end.

Definition published_labels (report : NodeReport) (now : time) : gmap string string :=
  let labels := {[ ObservationEpochLabel := format_int (UnixNano now) ]} in
  if nr_Ready report
  then <[CapabilityEpochLabel := format_int (UnixSeconds now)]> (<[CNIReadyLabel := "true"]> labels)
  else labels.

Definition publisher_Apply (agentPod : AgentPod) (report : NodeReport) : IO W unit :=
  if str_empty (ap_NodeName agentPod) then io_fail (ENew "node capability publisher and exact agent Pod are required")
  else if negb (String.eqb (nr_NodeName report) (ap_NodeName agentPod)) || str_empty (nr_NodeBootID report) ||
          str_empty (nr_InstanceID report)
  then io_fail (ENew "node capability report does not match the authenticated agent Pod")
  else
    now ← read_clock;
    let skew := clockSkew p in
    if time_IsZero (nr_ObservedAt report) || time_Before (nr_ObservedAt report) (now - skew) ||
       time_After (nr_ObservedAt report) (now + skew)
    then
      io_ignore (withdraw (nr_NodeName report)) ;;
      io_fail (ENew "node capability observation time is outside the accepted window")
    else if negb (supportsReleaseIdentity p report) ||
            negb (String.eqb (nr_ConformanceProfile report) (pb_ConformanceProfile p)) ||
            negb (containsAll (nr_Capabilities report) (required p))
    then
      io_ignore (withdraw (nr_NodeName report)) ;;
      io_fail (ENew "node capability or immutable release identity is unsupported")
    else
      k8s_Get (T := NodeObject) (mkObjectKey "" (nr_NodeName report)) ;;
      io_wrap "publish authenticated node capability"
        (k8s_ApplyLabels (nr_NodeName report) (published_labels report now) NodeFieldManager) ;;
      if negb (nr_Ready report) then withdraw (nr_NodeName report) else mret tt.

(** ** The reconciler *)

Definition Stale (node : NodeObject) (now : time) (freshness : duration) : bool :=
  if negb (String.eqb (node_label node CNIReadyLabel) "true") then false
  else match ParseInt 64 (node_label node CapabilityEpochLabel) with
       | None => true
       | Some epoch =>
           let observed := time_Unix epoch in
           time_After observed (now + DefaultClockSkew) || (freshness <? time_Sub now observed)
       end.

Definition node_freshness (r : NodeCapabilityReconciler) : duration :=
  if 0 <? nc_Freshness r then nc_Freshness r else DefaultFreshness.

(** When the reconciler looks at a node again. *)
Definition next_look (node : NodeObject) (now : time) (freshness : duration) : duration :=
  let epoch := default 0 (ParseInt 64 (node_label node CapabilityEpochLabel)) in
  int64 (freshness - time_Sub now (time_Unix epoch)).

Definition node_Reconcile (r : NodeCapabilityReconciler) (request : ObjectKey) : IO W Result :=
  reconcile_object request (fun node : NodeObject =>
    if negb (String.eqb (node_label node CNIReadyLabel) "true") then mret NoRequeue
    else
      now ← read_clock;
      let freshness := node_freshness r in
      if Stale node now freshness then withdraw (Name (nd_Meta node)) ;; mret NoRequeue
      else mret (mkResult (next_look node now freshness))).

End Publisher.

(** ** The server *)

(** A merge patch: the labels in which the two versions differ. *)
Definition merge_labels (base modified current : gmap string string) : gmap string string :=
  merge (fun change stored => match change with
                              | Some (old, new) => if decide (old = new) then stored else new
                              | None => stored
                              end)
    (merge (fun old new => Some (old, new)) base modified) current.

Definition stored_labels (labels : gmap string string) (managed : gset string) (node : NodeObject) : NodeObject :=
  mkNodeObject (with_labels labels (nd_Meta node)) managed.

(** What an apply of labels makes of a node: the given ones, without those the
    manager owned and no longer names; a missing node is created. *)
Definition apply_labels (name : string) (config : gmap string string) (o : option NodeObject) : NodeObject :=
  match o with
  | Some node => stored_labels (config ∪ filter (fun kv => kv.1 ∉ nd_Managed node) (Labels (nd_Meta node))) (dom config) node
  | None => mkNodeObject (mkObjectMeta "" name "" 1 None config ∅ [] []) (dom config)
  end.

#[global] Instance api_node_get : Getter (api NodeObject) NodeObject := api_get.
#[global] Instance api_node_patch : Patcher (api NodeObject) NodeObject := fun base modified =>
  api_call (fun w => let key := key_of (nd_Meta modified) in
    match api_objs w !! key with
    | Some current =>
        let labels := merge_labels (Labels (nd_Meta base)) (Labels (nd_Meta modified)) (Labels (nd_Meta current)) in
        (Ok tt, set_objs (<[key := stored_labels labels (nd_Managed current ∩ dom labels) current]> (api_objs w)) w)
    | None => (Fail (EStatus ReasonNotFound), w)
    end).
#[global] Instance api_node_apply : NodeLabelApplier (api NodeObject) := fun name config _ =>
  api_call (fun w => let key := mkObjectKey "" name in
    (Ok tt, set_objs (<[key := apply_labels name config (api_objs w !! key)]> (api_objs w)) w)).

(** ** Labels rest on accepted reports *)

(** A report that admits Pods to the node of the agent that sent it. *)
Definition acceptable (p : Publisher) (agentPod : AgentPod) (report : NodeReport) (now : time) : Prop :=
  nr_Ready report = true /\ ap_NodeName agentPod <> "" /\ nr_NodeName report = ap_NodeName agentPod /\
  nr_NodeBootID report <> "" /\ nr_InstanceID report <> "" /\
  nr_ObservedAt report <> zero_time /\ now - clockSkew p <= nr_ObservedAt report <= now + clockSkew p /\
  nr_ReleaseIdentity report = pb_ReleaseIdentity p /\ nr_ConformanceProfile report = pb_ConformanceProfile p /\
  forall capability, capability ∈ required p -> capability ∈ nr_Capabilities report.

(** The two labels come and go together, and a node that says it is ready has
    evidence for its epoch. *)
Definition node_ok (evidence : string -> string -> Prop) (name : string) (node : NodeObject) : Prop :=
  (CNIReadyLabel ∈ dom (Labels (nd_Meta node)) <-> CapabilityEpochLabel ∈ dom (Labels (nd_Meta node))) /\
  (CNIReadyLabel ∈ nd_Managed node <-> CapabilityEpochLabel ∈ nd_Managed node) /\
  (node_label node CNIReadyLabel = "true" -> evidence name (node_label node CapabilityEpochLabel)).

Definition nodes_ok (evidence : string -> string -> Prop) (nodes : gmap ObjectKey NodeObject) : Prop :=
  map_Forall (fun key node => node_ok evidence (key_Name key) node) nodes.

Lemma containsAll_spec actual wanted : containsAll actual wanted = true <-> forall c, c ∈ wanted -> c ∈ actual.
Proof.
  unfold containsAll. rewrite forallb_forall. setoid_rewrite <- list_elem_of_In. by setoid_rewrite contains_string_spec.
Qed.

Lemma lookup_merge_labels base modified current key :
  merge_labels base modified current !! key =
  if decide (base !! key = modified !! key) then current !! key else modified !! key.
Proof.
  unfold merge_labels. rewrite !lookup_merge. unfold diag_None.
  destruct (base !! key), (modified !! key), (current !! key); cbn; repeat case_decide; congruence.
Qed.

(** The patch of a withdrawal removes both labels, if the node it was computed
    from had them. *)
Lemma lookup_withdrawn node current key :
  let labels := delete CapabilityEpochLabel (delete CNIReadyLabel (Labels (nd_Meta node))) in
  merge_labels (Labels (nd_Meta node)) labels (Labels (nd_Meta current)) !! key =
  if decide ((key = CNIReadyLabel \/ key = CapabilityEpochLabel) /\ is_Some (Labels (nd_Meta node) !! key)) then None
  else Labels (nd_Meta current) !! key.
Proof.
  cbv zeta. rewrite lookup_merge_labels. destruct (decide (key = CNIReadyLabel \/ key = CapabilityEpochLabel)) as [Hk|Hk].
  - assert (delete CapabilityEpochLabel (delete CNIReadyLabel (Labels (nd_Meta node))) !! key = None) as Hn.
    { destruct Hk as [-> | ->]; [rewrite lookup_delete_ne by done; apply lookup_delete_eq|apply lookup_delete_eq]. }
    rewrite Hn. destruct (Labels (nd_Meta node) !! key) as [v|].
    + rewrite decide_False by done. by rewrite decide_True by (split; [done|by exists v]).
    + rewrite decide_True by done. rewrite decide_False; [done|]. by intros [_ []].
  - rewrite !lookup_delete_ne by naive_solver. rewrite decide_True by done. by rewrite decide_False by tauto.
Qed.

Section Labels.
Context (evidence : string -> string -> Prop) (p : Publisher).
Notation ok := (api_inv (nodes_ok evidence)).

Lemma nodes_ok_store key node w : ok w -> node_ok evidence (key_Name key) node -> ok (set_objs (<[key := node]> (api_objs w)) w).
Proof. intros Hw Hn. apply api_inv_set; [done|]. apply map_Forall_insert_2; [done|apply Hw]. Qed.

Lemma withdrawn_node_ok base current n name :
  node_ok evidence n base -> node_ok evidence name current ->
  let labels := delete CapabilityEpochLabel (delete CNIReadyLabel (Labels (nd_Meta base))) in
  let merged := merge_labels (Labels (nd_Meta base)) labels (Labels (nd_Meta current)) in
  node_ok evidence name (stored_labels merged (nd_Managed current ∩ dom merged) current).
Proof.
  intros (Hb & _ & _) (Hc & Hm & He) labels merged. rewrite !elem_of_dom in Hb, Hc.
  assert (forall key, merged !! key =
    if decide ((key = CNIReadyLabel \/ key = CapabilityEpochLabel) /\ is_Some (Labels (nd_Meta base) !! CNIReadyLabel)) then None
    else Labels (nd_Meta current) !! key) as Hl.
  { intros key. unfold merged, labels. rewrite lookup_withdrawn. repeat case_decide; naive_solver. }
  assert (CNIReadyLabel ∈ dom merged <-> CapabilityEpochLabel ∈ dom merged) as Hd.
  { rewrite !elem_of_dom, !Hl. repeat case_decide; naive_solver. }
  unfold node_ok, stored_labels, node_label, map_get. cbn [nd_Meta nd_Managed with_labels Labels].
  split_and!; [done|set_solver|]. rewrite !Hl.
  destruct (decide (is_Some (Labels (nd_Meta base) !! CNIReadyLabel))) as [Hs|Hs];
    repeat case_decide; try naive_solver; exact He.
Qed.

Lemma withdraw_ok nodeName : keeps ok (withdraw nodeName).
Proof.
  apply keeps_wp. intros w Hw. unfold withdraw. destruct (str_empty nodeName); [by wp_step|]. do 2 wp_step.
  apply (wp_api_inv (nodes_ok evidence)); [done|intros w1 Hw1 _|intros w1 e Hw1 _; destruct (IsNotFound e); by wp_step].
  unfold wp at 1. cbn [fst snd]. destruct (api_objs w1 !! mkObjectKey "" nodeName) as [node|] eqn:En; [|done].
  destruct (_ && _); [by wp_step|]. wp_step. eapply (wp_mono _ (fun _ => ok)); [|by intros []].
  apply (wp_api_inv (nodes_ok evidence)); [done|intros w2 Hw2 _|done]. unfold wp. cbn [set_labels nd_Meta].
  destruct (api_objs w2 !! _) as [current|] eqn:Ec; [|done]. apply nodes_ok_store; [done|].
  eapply withdrawn_node_ok; [exact (proj1 Hw1 _ _ En)|exact (proj1 Hw2 _ _ Ec)].
Qed.

Lemma applied_ok name report now o :
  (nr_Ready report = true -> evidence name (format_int (UnixSeconds now))) ->
  (forall node, o = Some node -> node_ok evidence name node) ->
  node_ok evidence name (apply_labels name (published_labels report now) o).
Proof.
  intros Hready Ho. set (config := published_labels report now).
  assert (CNIReadyLabel ∈ dom config <-> CapabilityEpochLabel ∈ dom config) as Hd.
  { unfold config, published_labels. destruct (nr_Ready report); [set_solver|].
    rewrite dom_singleton_L, !elem_of_singleton. done. }
  assert (node_ok evidence name (mkNodeObject (mkObjectMeta "" name "" 1 None config ∅ [] []) (dom config))) as Hnew.
  { split_and!; [done|done|]. unfold node_label, map_get, config, published_labels. cbn [nd_Meta Labels].
    destruct (nr_Ready report); [|by rewrite lookup_singleton_ne].
    rewrite lookup_insert_eq. intros _. by apply Hready. }
  destruct o as [node|]; [|done]. destruct (Ho node eq_refl) as (Hdom & Hman & Hev).
  destruct Hnew as (_ & _ & Hnew).
  assert (forall key, (config ∪ filter (fun kv => kv.1 ∉ nd_Managed node) (Labels (nd_Meta node))) !! key =
    match config !! key with Some v => Some v | None => if decide (key ∈ nd_Managed node) then None else Labels (nd_Meta node) !! key end) as Hl.
  { intros key. rewrite lookup_union. destruct (config !! key) eqn:Ek; [by destruct (filter _ _ !! _)|].
    rewrite map_lookup_filter. destruct (Labels (nd_Meta node) !! key); cbn; repeat case_decide; try done; by rewrite ?left_id_L. }
  rewrite !elem_of_dom in Hdom. pose proof Hd as Hd'. rewrite !elem_of_dom in Hd'.
  unfold node_ok, apply_labels, stored_labels, node_label, map_get. cbn [nd_Meta nd_Managed with_labels Labels].
  split_and!; [|done|].
  - rewrite !elem_of_dom, !Hl. destruct (config !! CNIReadyLabel), (config !! CapabilityEpochLabel); repeat case_decide; naive_solver.
  - rewrite !Hl. unfold node_label, map_get in Hnew, Hev. cbn [nd_Meta Labels] in Hnew.
    destruct (config !! CNIReadyLabel) as [v|], (config !! CapabilityEpochLabel) as [v'|].
    + exact Hnew.
    + by destruct (proj1 Hd' (ex_intro _ v eq_refl)).
    + by destruct (proj2 Hd' (ex_intro _ v' eq_refl)).
    + destruct (decide (CNIReadyLabel ∈ nd_Managed node)) as [Hin|Hin]; [done|].
      rewrite decide_False by tauto. exact Hev.
Qed.

Lemma refused_time report now :
  time_IsZero (nr_ObservedAt report) || time_Before (nr_ObservedAt report) (now - clockSkew p) ||
  time_After (nr_ObservedAt report) (now + clockSkew p) = false ->
  nr_ObservedAt report <> zero_time /\ now - clockSkew p <= nr_ObservedAt report <= now + clockSkew p.
Proof.
  unfold time_IsZero, time_Before, time_After. rewrite !orb_false_iff, Z.eqb_neq, !Z.ltb_ge. tauto.
Qed.

Lemma refused_identity report :
  negb (supportsReleaseIdentity p report) || negb (String.eqb (nr_ConformanceProfile report) (pb_ConformanceProfile p)) ||
  negb (containsAll (nr_Capabilities report) (required p)) = false -> nr_Ready report = true ->
  nr_ReleaseIdentity report = pb_ReleaseIdentity p /\ nr_ConformanceProfile report = pb_ConformanceProfile p /\
  forall capability, capability ∈ required p -> capability ∈ nr_Capabilities report.
Proof.
  rewrite !orb_false_iff, !negb_false_iff, String.eqb_eq, containsAll_spec. intros [[Hs Hp] Hc] Hr.
  split_and!; [|done|done]. unfold supportsReleaseIdentity in Hs. case_decide as Hi; [done|].
  rewrite Hr, andb_false_r in Hs. discriminate.
Qed.

Lemma refused_names agentPod report :
  str_empty (ap_NodeName agentPod) = false ->
  negb (String.eqb (nr_NodeName report) (ap_NodeName agentPod)) || str_empty (nr_NodeBootID report) ||
    str_empty (nr_InstanceID report) = false ->
  ap_NodeName agentPod <> "" /\ nr_NodeName report = ap_NodeName agentPod /\ nr_NodeBootID report <> "" /\ nr_InstanceID report <> "".
Proof.
  unfold str_empty. rewrite !orb_false_iff, negb_false_iff, String.eqb_eq, !String.eqb_neq. tauto.
Qed.

Lemma publisher_Apply_ok agentPod report w :
  (acceptable p agentPod report (api_clock w) -> evidence (ap_NodeName agentPod) (format_int (UnixSeconds (api_clock w)))) ->
  ok w -> ok (publisher_Apply p agentPod report w).2.
Proof.
  intros Hev Hw. change (wp (publisher_Apply p agentPod report) (fun _ => ok) w).
  assert (forall w1, ok w1 -> wp (withdraw (nr_NodeName report)) (fun _ => ok) w1) as Hwd by (intros; by apply withdraw_ok).
  unfold publisher_Apply. destruct (str_empty (ap_NodeName agentPod)) eqn:En; [by wp_step|].
  destruct (negb _ || _ || _) eqn:Enames; [by wp_step|]. wp_now.
  destruct (time_IsZero _ || _ || _) eqn:Et; [do 2 wp_step; wp_with Hwd; [done|intros _ w1 Hw1; by wp_step]|].
  destruct (negb (supportsReleaseIdentity _ _) || _ || _) eqn:Ei; [do 2 wp_step; wp_with Hwd; [done|intros _ w1 Hw1; by wp_step]|].
  wp_step. apply (wp_api_inv (nodes_ok evidence)); [done|intros w1 Hw1 Hc1|done].
  unfold wp at 1. cbn [fst snd]. destruct (api_objs w1 !! _) as [node|]; [|done]. cbn [after]. do 2 wp_step.
  apply (wp_api_inv (nodes_ok evidence)); [done|intros w2 Hw2 Hc2|done]. unfold wp at 1. cbn [fst snd after].
  assert (ok (set_objs (<[mkObjectKey "" (nr_NodeName report) := apply_labels (nr_NodeName report)
    (published_labels report (clock_now w)) (api_objs w2 !! mkObjectKey "" (nr_NodeName report))]> (api_objs w2)) w2)) as Hw3.
  { apply nodes_ok_store; [done|]. apply applied_ok; [|intros n Hn; exact (proj1 Hw2 _ _ Hn)].
    intros Hr. destruct (refused_names _ _ En Enames) as (? & Hname & ? & ?). rewrite Hname. apply Hev.
    destruct (refused_time _ _ Et) as (? & ? & ?). destruct (refused_identity _ Ei Hr) as (? & ? & ?). by split_and!. }
  destruct (negb (nr_Ready report)); [by wp_with Hwd|by wp_step].
Qed.

Lemma node_Reconcile_ok r request : keeps ok (node_Reconcile r request).
Proof.
  unfold node_Reconcile, reconcile_object. apply keeps_bind.
  { apply keeps_try, keeps_wp. intros w Hw. apply (wp_api_inv (nodes_ok evidence)); [done|by intros|done]. }
  intros [node|e]; [|destruct (IsNotFound e); [apply keeps_ret|apply keeps_fail]].
  destruct (negb _); [apply keeps_ret|]. apply keeps_bind; [by intros w|]. intros now.
  destruct (Stale _ _ _); [|apply keeps_ret]. apply keeps_bind; [apply withdraw_ok|]. intros. apply keeps_ret.
Qed.

(** C18: A node admits enrolled Pods only on evidence.  Take any meaning of
    evidence that an accepted report provides: one that says ready, comes from
    the agent authenticated for that very node, was observed within the clock
    skew, has the exact release identity and conformance profile and all
    required capabilities.  If every node labelled ready has evidence for its
    epoch and the other clients of the server keep that, then it still holds
    after any report, accepted or refused, and after any reconciliation,
    whichever requests fail or are overtaken. *)
Theorem node_capability_sound r agentPod report request w :
  (acceptable p agentPod report (api_clock w) -> evidence (ap_NodeName agentPod) (format_int (UnixSeconds (api_clock w)))) ->
  ok w -> ok (publisher_Apply p agentPod report w).2 /\ ok (node_Reconcile r request w).2.
Proof. intros Hev Hw. split; [by apply publisher_Apply_ok|by apply node_Reconcile_ok]. Qed.

End Labels.

(** ** Refused reports take the labels away *)

(** The node is not offered to enrolled Pods. *)
Definition unlabelled (name : string) (w : api NodeObject) : Prop :=
  forall node, api_objs w !! mkObjectKey "" name = Some node ->
    Labels (nd_Meta node) !! CNIReadyLabel = None \/ node_label node CNIReadyLabel = "".

(** Nodes are stored under their own names. *)
Definition well_keyed (w : api NodeObject) : Prop :=
  map_Forall (fun key node => key_of (nd_Meta node) = key) (api_objs w).

Lemma wp_quiet_get name Q (w : api NodeObject) :
  api_env w = [] ->
  Q (match api_objs w !! mkObjectKey "" name with Some node => Ok node | None => Fail (EStatus ReasonNotFound) end) w ->
  wp (k8s_Get (T := NodeObject) (mkObjectKey "" name)) Q w.
Proof. intros Hq HQ. unfold wp, k8s_Get, api_node_get, api_get, api_call, api_enter. by rewrite Hq. Qed.

Lemma withdraw_quiet name w :
  api_env w = [] -> well_keyed w -> name <> "" ->
  wp (withdraw name) (fun res w' => res = Ok tt /\ unlabelled name w') w.
Proof.
  intros Hq Hk Hn. unfold withdraw. destruct (str_empty name) eqn:Es; [by apply str_empty_spec in Es|].
  do 2 wp_step. apply wp_quiet_get; [done|]. destruct (api_objs w !! mkObjectKey "" name) as [node|] eqn:En.
  2: { rewrite (eq_refl : IsNotFound (EStatus ReasonNotFound) = true). wp_step. split; [done|]. intros node. by rewrite En. }
  destruct (_ && _) eqn:Ee.
  { wp_step. split; [done|]. intros node'. rewrite En. intros [= <-]. right.
    apply andb_true_iff in Ee as [Ee _]. by apply str_empty_spec. }
  wp_step. unfold wp, k8s_Patch, api_node_patch, api_call, api_enter. rewrite Hq. cbn [set_labels nd_Meta].
  change (key_of (with_labels _ (nd_Meta node))) with (key_of (nd_Meta node)). rewrite (Hk _ _ En), En. cbn [fst snd after].
  split; [done|]. intros node'. cbn [set_objs api_objs]. rewrite lookup_insert_eq. intros [= <-]. left.
  unfold stored_labels. cbn [nd_Meta with_labels Labels]. rewrite lookup_withdrawn.
  case_decide as Hd; [done|]. apply eq_None_not_Some. tauto.
Qed.

(** A report that is not accepted withdraws the node.  On a server that
    answers, after any report of an agent about its own node that is late or
    early, has another release, profile or fewer capabilities, or says that the
    node is not ready, the node does not carry the ready label; and the report
    is refused unless saying so was all that it did. *)
Theorem refused_report_withdraws p agentPod report w :
  api_env w = [] -> well_keyed w ->
  ap_NodeName agentPod <> "" -> nr_NodeName report = ap_NodeName agentPod ->
  nr_NodeBootID report <> "" -> nr_InstanceID report <> "" ->
  ~ acceptable p agentPod report (api_clock w) ->
  unlabelled (ap_NodeName agentPod) (publisher_Apply p agentPod report w).2 /\
  ((publisher_Apply p agentPod report w).1 = Ok tt -> nr_Ready report = false).
Proof.
  intros Hq Hk Hname Hsame Hboot Hinst Hnot.
  change (wp (publisher_Apply p agentPod report)
    (fun res w' => unlabelled (ap_NodeName agentPod) w' /\ (res = Ok tt -> nr_Ready report = false)) w).
  pose proof Hname as Hown. unfold publisher_Apply. rewrite <- Hsame. rewrite <- Hsame in Hown.
  destruct (str_empty (nr_NodeName report)) eqn:En; [by apply str_empty_spec in En|].
  assert (negb (String.eqb (nr_NodeName report) (nr_NodeName report)) || str_empty (nr_NodeBootID report) ||
    str_empty (nr_InstanceID report) = false) as Enames.
  { unfold str_empty. rewrite !orb_false_iff, negb_false_iff, String.eqb_eq, !String.eqb_neq. done. }
  rewrite Enames. wp_now.
  assert (forall e, wp (io_ignore (withdraw (nr_NodeName report)) ;; io_fail e)
    (fun res w' => unlabelled (nr_NodeName report) w' /\ (res = Ok tt -> nr_Ready report = false)) w) as Hrefuse.
  { intros e. do 2 wp_step. wp_with withdraw_quiet; [done|done|done|]. intros _ w1 [_ Hu]. by wp_step. }
  destruct (time_IsZero _ || _ || _) eqn:Et; [apply Hrefuse|].
  destruct (negb (supportsReleaseIdentity _ _) || _ || _) eqn:Ei; [apply Hrefuse|].
  destruct (nr_Ready report) eqn:Er.
  { exfalso. apply Hnot. destruct (refused_time _ _ _ Et) as (? & ? & ?). destruct (refused_identity _ _ Ei Er) as (? & ? & ?).
    by split_and!. }
  wp_step. apply wp_quiet_get; [done|]. destruct (api_objs w !! _) as [node|] eqn:Eo; cbn [after].
  2: { split; [|done]. intros node. unfold unlabelled. congruence. }
  do 2 wp_step. unfold wp at 1, k8s_ApplyLabels, api_node_apply, api_call, api_enter. rewrite Hq. cbn [fst snd after negb].
  wp_with withdraw_quiet; [done| |done|by intros ? w1 [_ Hu]].
  apply map_Forall_insert_2; [|done]. rewrite Eo. exact (Hk _ _ Eo).
Qed.

(** ** The lifetime of a label *)

(** C20: A label lives no longer than the freshness allows.  For a node labelled
    ready and not stale, the reconciler comes back after a delay between 0 and
    the freshness plus the clock skew, after which the label is stale unless it
    was renewed; without skew the delay never exceeds the freshness.  The delay
    is 0, which the work queue takes as never, exactly when the label is as old
    as the freshness allows; such a label is not looked at again. *)
Theorem label_lifetime node now freshness :
  0 < freshness -> freshness + DefaultClockSkew <= max_int64 ->
  node_label node CNIReadyLabel = "true" -> Stale node now freshness = false ->
  exists epoch, ParseInt 64 (node_label node CapabilityEpochLabel) = Some epoch /\
    0 <= next_look node now freshness <= freshness + DefaultClockSkew /\
    (time_Unix epoch <= now -> next_look node now freshness <= freshness) /\
    (forall later, now + next_look node now freshness < later -> Stale node later freshness = true) /\
    (next_look node now freshness = 0 <-> now - time_Unix epoch = freshness).
Proof.
  intros Hf Hmax Hl. unfold Stale, next_look. rewrite Hl, String.eqb_refl. cbn [negb].
  destruct (ParseInt 64 (node_label node CapabilityEpochLabel)) as [epoch|]; [|done]. cbn [default id from_option]. intros Hs.
  exists epoch. split; [done|]. set (observed := time_Unix epoch) in *.
  unfold time_After, time_Sub, DefaultClockSkew, max_int64, min_int64, Minute, Second, Millisecond in *.
  rewrite orb_false_iff, !Z.ltb_ge in Hs. destruct Hs as [Hfuture Hage].
  assert (Z.max (-2 ^ 63) (Z.min (2 ^ 63 - 1) (now - observed)) = now - observed) as -> by lia.
  assert (int64 (freshness - (now - observed)) = freshness - (now - observed)) as ->.
  { unfold int64. rewrite Z.mod_small by lia. lia. }
  split; [lia|]. split; [lia|]. split; [|lia]. intros later Hlater. rewrite orb_true_iff, !Z.ltb_lt. right. lia.
Qed.

(** ** A node and its agent *)

Module NodeSample.

Definition release : ReleaseIdentity := mkReleaseIdentity "v1.0.0" "sha256:00".
Definition publisher : Publisher := mkPublisher release "" release "core" [] 0.
Definition agent : AgentPod := mkAgentPod (mkObjectMeta "waycloak-system" "agent" "agent-uid" 1 None ∅ ∅ [] []) "node-a" "node-agent".
Definition ready_report (at_ : time) (ready : bool) : NodeReport :=
  mkNodeReport "node-a" "boot" "instance" at_ ready BaselineCapabilities release "core".

Definition labelled (at_ : time) : NodeObject :=
  mkNodeObject (mkObjectMeta "" "node-a" "node-uid" 1 None
    {[ CNIReadyLabel := "true"; CapabilityEpochLabel := format_int (UnixSeconds at_) ]} ∅ [] [])
    {[ CNIReadyLabel; CapabilityEpochLabel ]}.
Definition world (at_ now : time) : api NodeObject := mkApi {[ mkObjectKey "" "node-a" := labelled at_ ]} [] now.

Definition start : time := 2000 * Second.

(** Evidence: there was an accepted report in that second. *)
Definition reported (name epoch : string) : Prop :=
  exists agentPod report now, acceptable publisher agentPod report now /\ ap_NodeName agentPod = name /\
    epoch = format_int (UnixSeconds now).

Lemma accepted_at_start : acceptable publisher agent (ready_report start true) start.
Proof. split_and!; try done. Qed.

Lemma world_ok : api_inv (nodes_ok reported) (world start (start + Second)).
Proof.
  split; [|done]. apply map_Forall_singleton. split_and!.
  - by vm_compute.
  - by vm_compute.
  - intros _. exists agent, (ready_report start true), start. split; [apply accepted_at_start|]. by vm_compute.
Qed.

Lemma node_capability_sound_witness :
  let w := world start (start + Second) in
  api_inv (nodes_ok reported) (publisher_Apply publisher agent (ready_report (start + Second) true) w).2 /\
  api_inv (nodes_ok reported) (node_Reconcile (mkNodeCapabilityReconciler 0) (mkObjectKey "" "node-a") w).2.
Proof.
  apply (node_capability_sound reported publisher (mkNodeCapabilityReconciler 0)); [|apply world_ok].
  intros Hok. exists agent, (ready_report (start + Second) true), (start + Second). by split_and!.
Defined.

Lemma refused_report_withdraws_witness :
  unlabelled "node-a" (publisher_Apply publisher agent (ready_report start false) (world start start)).2.
Proof.
  apply (refused_report_withdraws publisher agent (ready_report start false) (world start start)); try done.
  - by apply map_Forall_singleton.
  - by intros [Hr _].
Defined.

Lemma label_lifetime_witness : Stale (labelled start) (start + 20 * Second + 1) DefaultFreshness = true.
Proof.
  destruct (label_lifetime (labelled start) (start + 5 * Second) DefaultFreshness) as (epoch & _ & _ & _ & Hlater & _);
    [done|done|by vm_compute|by vm_compute|]. apply Hlater.
  assert (next_look (labelled start) (start + 5 * Second) DefaultFreshness = 15 * Second) as -> by by vm_compute.
  unfold start, Second, Millisecond in *. lia.
Defined.

(** The label is exactly as old as it may be: the pass neither withdraws it nor
    asks for another one. *)
Lemma boundary_not_revisited :
  let pass := node_Reconcile (mkNodeCapabilityReconciler 0) (mkObjectKey "" "node-a") (world start (start + DefaultFreshness)) in
  (pass.1, (fun node => node_label node CNIReadyLabel) <$> api_objs pass.2 !! mkObjectKey "" "node-a") = (Ok NoRequeue, Some "true").
Proof. vm_compute. reflexivity. Qed.

End NodeSample.
