(* ===== verification/Relay.v ===== *)
(** * The observation relay (internal/observationrelay/relay.go)

    The controller's endpoint for the reports of node agents: it authenticates
    the token of the caller as the Pod of a current node agent, publishes the
    node's capability and writes each observation to the status of its binding,
    with up to eight workers.  The workers are a state machine whose next move is
    chosen by an arbitrary scheduler; each request to the API server is one
    move. *)

From Stdlib Require Import Ascii.
From S2P Require Import Prelude Netip Api Kube BindingController Http NodeAgent Scheduling.

Definition MaxObservations : Z := 256.
Definition ReportPath : string := "/node-observations/v1/report".
Definition kubernetesAudience : string := "https://kubernetes.default.svc".
Definition maxConcurrentObservationWrites : nat := 8.

(** ** Interfaces *)

(** The status of a TokenReview. *)
Record TokenReviewStatus := mkTokenReviewStatus {
  tr_Authenticated : bool;
  tr_Audiences : list string;
  tr_Username : string;
  tr_Extra : gmap string (list string)
}.

Class TokenReviewer (W : Type) := review_Create : string -> list string -> IO W TokenReviewStatus.
Class NodePublisher (W : Type) := publisher_apply : AgentPod -> NodeReport -> IO W unit.

(** [client.Status().Patch] of the difference between two versions. *)
Class StatusPatcher (W T : Type) := k8s_PatchStatus : T -> T -> string -> IO W unit.

Record Relay := mkRelay { rl_AgentNamespace : string; rl_AgentServiceAccount : string }.

(** ** Texts *)

Definition TrimPrefix (s prefix : string) : string :=
  if HasPrefix s prefix then drop_string (String.length prefix) s else s.

(** [strings.ContainsAny(token, " \t\r\n")]. *)
Definition has_space (s : string) : bool :=
  existsb (fun c => existsb (fun n => byte_of c =? n) [32; 9; 13; 10]) (String.list_ascii_of_string s).

Definition firstExtra (extra : gmap string (list string)) (key : string) : string :=
  match extra !! key with Some [value] => value | _ => "" end.

Definition serviceAccountPrefix : string := "system:serviceaccount:".
Definition serviceAccountNamespace (username : string) : string :=
  if negb (HasPrefix username serviceAccountPrefix) then ""
  else match split_on ":" (TrimPrefix username serviceAccountPrefix) with
       | [namespace; name] => if str_empty namespace || str_empty name then "" else namespace
       | _ => ""
       end.

(** [io.LimitReader(body, 1<<20)]. *)
Definition limited_body (body : string) : string :=
  if Z.of_nat (String.length body) <=? 2 ^ 20 then body else String.substring 0 (Z.to_nat (2 ^ 20)) body.

(** The status that an observation gives a binding. *)
Definition observed_status (binding : VPNWorkloadBinding) (observation : Observation) (now : time) : VPNWorkloadBindingStatus :=
  let spec := wb_Spec binding in
  let status := wb_Status binding in
  mkVPNWorkloadBindingStatus (wbs_ObservedGeneration status)
    (if ob_Ready observation then Generation (wb_Meta binding) else 0)
    (lur_UID (wb_PodRef spec)) (nur_UID (wb_GatewayRef spec))
    (Some (mkNodeAgentObservation (wb_NodeName spec) (ob_NodeBootID observation) (ob_InstanceID observation) now))
    (wbs_Conditions status).

Definition observed_binding (binding : VPNWorkloadBinding) (observation : Observation) (now : time) : VPNWorkloadBinding :=
  mkVPNWorkloadBinding (wb_Meta binding) (wb_Spec binding) (observed_status binding observation now).

(** ** The workers *)

Inductive worker :=
| Idle
| Reading (observation : Observation)
| Writing (observation : Observation) (base updated : VPNWorkloadBinding)
| Exited.

(** [applyReport] on the way: observations not sent yet, whether the jobs are
    closed, the workers, whether the node's capability is published, the errors
    sent, whether the request's context is done; and, for the theorems, the
    observations whose write went through or was not needed. *)
Record transaction := mkTransaction {
  tx_pending : list Observation;
  tx_closed : bool;
  tx_workers : list worker;
  tx_node : bool;
  tx_errs : list error;
  tx_cancelled : bool;
  tx_settled : list Observation
}.

Definition begin (report : Report) : transaction :=
  let observations := rep_Observations report in
  mkTransaction observations false (replicate (min maxConcurrentObservationWrites (length observations)) Idle) false [] false [].

Inductive move :=
| Cancel
| PublishNode
| Send (i : nat)
| Break
| Close
| Read (i : nat)
| Write (i : nat)
| Exit (i : nat).

(** The moves that a worker waits for. *)
Definition worker_moves (tx : transaction) (i : nat) (w : worker) : list move :=
  match w with
  | Idle => match tx_closed tx, tx_pending tx with
            | true, _ => [Exit i]
            | false, _ :: _ => [Send i]
            | false, [] => []
            end
  | Reading _ => [Read i]
  | Writing _ _ _ => [Write i]
  | Exited => []
  end.

Definition sender_moves (tx : transaction) : list move :=
  if tx_closed tx then []
  else match tx_pending tx with
       | [] => [Close]
       | _ :: _ => if tx_cancelled tx || negb (bool_decide (tx_errs tx = [])) then [Break] else []
       end.

Definition program_moves (tx : transaction) : list move :=
  (if tx_node tx then [] else [PublishNode]) ++ sender_moves tx ++
  concat (imap (worker_moves tx) (tx_workers tx)).

(** What can happen next: a move of the program, or the end of the request. *)
Definition enabled (tx : transaction) : list move :=
  program_moves tx ++ (if tx_cancelled tx then [] else [Cancel]).

Definition finished (tx : transaction) : bool := bool_decide (program_moves tx = []).

Definition set_worker (i : nat) (w : worker) (tx : transaction) : transaction :=
  mkTransaction (tx_pending tx) (tx_closed tx) (<[i := w]> (tx_workers tx)) (tx_node tx) (tx_errs tx) (tx_cancelled tx) (tx_settled tx).
Definition set_pending (pending : list Observation) (tx : transaction) : transaction :=
  mkTransaction pending (tx_closed tx) (tx_workers tx) (tx_node tx) (tx_errs tx) (tx_cancelled tx) (tx_settled tx).
Definition add_error (e : error) (tx : transaction) : transaction :=
  mkTransaction (tx_pending tx) (tx_closed tx) (tx_workers tx) (tx_node tx) (tx_errs tx ++ [e]) (tx_cancelled tx) (tx_settled tx).
Definition settle (o : Observation) (tx : transaction) : transaction :=
  mkTransaction (tx_pending tx) (tx_closed tx) (tx_workers tx) (tx_node tx) (tx_errs tx) (tx_cancelled tx) (tx_settled tx ++ [o]).

(** A scheduler's next move among the enabled ones. *)
Definition pick_move (choice : nat) (moves : list move) : move := nth (choice mod length moves) moves Cancel.

(** How many moves are left at most. *)
Definition worker_weight (w : worker) : nat :=
  match w with Idle => 1 | Reading _ => 3 | Writing _ _ _ => 2 | Exited => 0 end.
Definition weight (tx : transaction) : nat :=
  (if tx_closed tx then 0 else 1 + 3 * length (tx_pending tx)) + sum_list_with worker_weight (tx_workers tx) +
  (if tx_node tx then 0 else 1) + (if tx_cancelled tx then 0 else 1).

Section Relay.
Context {W : Type} `{Clock W} `{TokenReviewer W} `{NodePublisher W}.
Context `{Getter W AgentPod} `{Getter W VPNWorkloadBinding} `{StatusPatcher W VPNWorkloadBinding}.
Variable r : Relay.

Definition authenticate (token : string) : IO W AgentPod :=
  reviewed ← io_try (review_Create token [kubernetesAudience]);
  match reviewed with
  | Fail _ => io_fail (ENew "token is not authenticated")
  | Ok review =>
      if negb (tr_Authenticated review) || negb (contains_string (tr_Audiences review) kubernetesAudience)
      then io_fail (ENew "token is not authenticated")
      else
        let podName := firstExtra (tr_Extra review) "authentication.kubernetes.io/pod-name" in
        let podUID := firstExtra (tr_Extra review) "authentication.kubernetes.io/pod-uid" in
        let podNamespace := serviceAccountNamespace (tr_Username review) in
        if str_empty podName || str_empty podUID || str_empty podNamespace ||
           negb (String.eqb podNamespace (rl_AgentNamespace r)) ||
           negb (String.eqb (tr_Username review) (serviceAccountPrefix +:+ rl_AgentNamespace r +:+ ":" +:+ rl_AgentServiceAccount r))
        then io_fail (ENew "token is not bound to a Pod")
        else
          pod ← k8s_Get (T := AgentPod) (mkObjectKey podNamespace podName);
          if negb (String.eqb (UID (ap_Meta pod)) podUID) || str_empty (ap_NodeName pod) ||
             negb (String.eqb (ap_ServiceAccountName pod) (rl_AgentServiceAccount r)) ||
             negb (String.eqb (map_get (Labels (ap_Meta pod)) "app.kubernetes.io/component") "node-agent")
          then io_fail (ENew "token Pod is not a current node agent")
          else mret pod
  end.

(** [apply] up to its write: the binding as read and as it is to be, or nothing
    to write. *)
Definition apply_read (agentPod : AgentPod) (observation : Observation) : IO W (option (VPNWorkloadBinding * VPNWorkloadBinding)) :=
  if str_empty (ob_BindingNamespace observation) || str_empty (ob_BindingName observation) ||
     str_empty (ob_BindingUID observation) || (ob_Generation observation <? 1) || str_empty (ob_PodUID observation) ||
     str_empty (ob_GatewayUID observation) || negb (String.eqb (ob_NodeName observation) (ap_NodeName agentPod)) ||
     str_empty (ob_NodeBootID observation) || str_empty (ob_InstanceID observation)
  then io_fail (ENew "observation identity is incomplete")
  else
    got ← io_try (k8s_Get (T := VPNWorkloadBinding) (mkObjectKey (ob_BindingNamespace observation) (ob_BindingName observation)));
    match got with
    | Fail err => if IsNotFound err then mret None else io_fail err
    | Ok binding =>
        if negb (String.eqb (UID (wb_Meta binding)) (ob_BindingUID observation)) ||
           (Generation (wb_Meta binding) <? ob_Generation observation) ||
           negb (String.eqb (lur_UID (wb_PodRef (wb_Spec binding))) (ob_PodUID observation)) ||
           negb (String.eqb (wb_NodeName (wb_Spec binding)) (ap_NodeName agentPod))
        then io_fail (ENew "observation does not match current node-scoped binding")
        else if ob_Generation observation <? Generation (wb_Meta binding) then mret None
        else if negb (String.eqb (nur_UID (wb_GatewayRef (wb_Spec binding))) (ob_GatewayUID observation)) ||
                (negb (not_deleting (wb_Meta binding)) && ob_Ready observation)
        then io_fail (ENew "observation does not match current node-scoped binding")
        else
          now ← read_clock;
          mret (Some (binding, observed_binding binding observation now))
    end.

Definition apply_write (base updated : VPNWorkloadBinding) : IO W unit :=
  patched ← io_try (k8s_PatchStatus base updated FieldManagerBindingController);
  match patched with
  | Ok _ => mret tt
  | Fail err => if IsNotFound err then mret tt else io_fail (Errorf "relay authenticated node observation" err)
  end.

(** A worker's error ends it and cancels the others. *)
Definition worker_failed (i : nat) (e : error) (tx : transaction) : transaction := add_error e (set_worker i Exited tx).

Definition make_move (agentPod : AgentPod) (report : Report) (m : move) (tx : transaction) : IO W transaction :=
  match m with
  | Cancel => mret (mkTransaction (tx_pending tx) (tx_closed tx) (tx_workers tx) (tx_node tx) (tx_errs tx) true (tx_settled tx))
  | PublishNode =>
      published ← io_try (publisher_apply agentPod (rep_Node report));
      let done := mkTransaction (tx_pending tx) (tx_closed tx) (tx_workers tx) true (tx_errs tx) (tx_cancelled tx) (tx_settled tx) in
      mret (match published with Ok _ => done | Fail e => add_error e done end)
  | Send i =>
      match tx_pending tx with
      | observation :: pending => mret (set_pending pending (set_worker i (Reading observation) tx))
      | [] => mret tx
      end
  | Break | Close =>
      mret (mkTransaction (tx_pending tx) true (tx_workers tx) (tx_node tx) (tx_errs tx) (tx_cancelled tx) (tx_settled tx))
  | Read i =>
      match tx_workers tx !! i with
      | Some (Reading observation) =>
          read ← io_try (apply_read agentPod observation);
          mret (match read with
                | Ok (Some (base, updated)) => set_worker i (Writing observation base updated) tx
                | Ok None => settle observation (set_worker i Idle tx)
                | Fail e => worker_failed i e tx
                end)
      | _ => mret tx
      end
  | Write i =>
      match tx_workers tx !! i with
      | Some (Writing observation base updated) =>
          written ← io_try (apply_write base updated);
          mret (match written with
                | Ok _ => settle observation (set_worker i Idle tx)
                | Fail e => worker_failed i e tx
                end)
      | _ => mret tx
      end
  | Exit i => mret (set_worker i Exited tx)
  end.

(** Run the moves that a scheduler chooses until nothing is left to do. *)
Fixpoint run_moves (agentPod : AgentPod) (report : Report) (fuel : nat) (choices : nat -> nat) (tx : transaction) : IO W transaction :=
  if finished tx then mret tx
  else match fuel with
       | O => mret tx
       | S fuel' =>
           next ← make_move agentPod report (pick_move (choices O) (enabled tx)) tx;
           run_moves agentPod report fuel' (fun n => choices (S n)) next
       end.

Definition transact (choices : nat -> nat) (agentPod : AgentPod) (report : Report) : IO W transaction :=
  run_moves agentPod report (weight (begin report)) choices (begin report).

Definition applyReport (choices : nat -> nat) (agentPod : AgentPod) (report : Report) : IO W unit :=
  tx ← transact choices agentPod report;
  match tx_errs tx with
  | [] => mret tt
  | e :: _ => io_fail e
  end.

(** [serve] up to the transaction: the answer, or the agent and its report. *)
Definition receive `{Json Report} (authorization : string) (request : HttpRequest) : IO W (Z + AgentPod * Report) :=
  if negb (String.eqb (rq_Method request) MethodPost) || negb (bool_decide (unescape (rq_Path request) = Some ReportPath))
  then mret (inl StatusNotFound)
  else
    let token := TrimPrefix authorization "Bearer " in
    if str_empty token || has_space token then mret (inl StatusUnauthorized)
    else
      authenticated ← io_try (authenticate token);
      match authenticated with
      | Fail _ => mret (inl StatusUnauthorized)
      | Ok agentPod =>
          match decodeStrict (limited_body (rq_Body request)) with
          | Fail _ => mret (inl StatusBadRequest)
          | Ok report =>
              if negb (String.eqb (rep_APIVersion report) ReportAPIVersion) ||
                 (MaxObservations <? Z.of_nat (length (rep_Observations report)))
              then mret (inl StatusBadRequest)
              else mret (inr (agentPod, report))
          end
      end.

Definition relay_serve `{Json Report} (choices : nat -> nat) (authorization : string) (request : HttpRequest) : IO W Z :=
  received ← receive authorization request;
  match received with
  | inl status => mret status
  | inr (agentPod, report) =>
      applied ← io_try (applyReport choices agentPod report);
      mret (match applied with Ok _ => StatusNoContent | Fail _ => StatusForbidden end)
  end.

End Relay.

(** ** Moves *)

Lemma elem_worker_moves tx m :
  m ∈ concat (imap (worker_moves tx) (tx_workers tx)) <->
  exists i w, tx_workers tx !! i = Some w /\ m ∈ worker_moves tx i w.
Proof.
  rewrite list_elem_of_In, in_concat. split.
  - intros (l & Hl & Hm). apply list_elem_of_In, elem_of_lookup_imap in Hl as (i & w & -> & Hw).
    exists i, w. by rewrite list_elem_of_In.
  - intros (i & w & Hw & Hm). exists (worker_moves tx i w). rewrite <- !list_elem_of_In. split; [|done].
    apply elem_of_lookup_imap. eauto.
Qed.

(** What an enabled move says of the transaction. *)
Definition allowed (m : move) (tx : transaction) : Prop :=
  match m with
  | Cancel => tx_cancelled tx = false
  | PublishNode => tx_node tx = false
  | Send i => tx_closed tx = false /\ tx_workers tx !! i = Some Idle /\ tx_pending tx <> []
  | Break => tx_closed tx = false /\ tx_pending tx <> [] /\ (tx_cancelled tx = true \/ tx_errs tx <> [])
  | Close => tx_closed tx = false /\ tx_pending tx = []
  | Read i => exists o, tx_workers tx !! i = Some (Reading o)
  | Write i => exists o b u, tx_workers tx !! i = Some (Writing o b u)
  | Exit i => tx_closed tx = true /\ tx_workers tx !! i = Some Idle
  end.

Lemma enabled_allowed tx m : m ∈ enabled tx -> allowed m tx.
Proof.
  unfold enabled, program_moves. rewrite !elem_of_app, elem_worker_moves.
  intros [[Hn|[Hs|(i & w & Hw & Hm)]]|Hc].
  - destruct (tx_node tx) eqn:E; [set_solver|]. by apply list_elem_of_singleton in Hn as ->.
  - unfold sender_moves in Hs. destruct (tx_closed tx) eqn:Ec; [set_solver|]. destruct (tx_pending tx) as [|o rest] eqn:Ep.
    + by apply list_elem_of_singleton in Hs as ->.
    + destruct (_ || _) eqn:Eb; [|set_solver]. apply list_elem_of_singleton in Hs as ->. cbn. rewrite Ep.
      split_and!; [done|done|]. apply orb_true_iff in Eb as [?|Hb]; [by left|right].
      by rewrite negb_true_iff, bool_decide_eq_false in Hb.
  - destruct w; cbn [worker_moves] in Hm.
    + destruct (tx_closed tx) eqn:Ec; [by apply list_elem_of_singleton in Hm as ->|].
      destruct (tx_pending tx) eqn:Ep; [set_solver|]. apply list_elem_of_singleton in Hm as ->. cbn. by rewrite Ep.
    + apply list_elem_of_singleton in Hm as ->. cbn. eauto.
    + apply list_elem_of_singleton in Hm as ->. cbn. eauto.
    + set_solver.
  - destruct (tx_cancelled tx) eqn:E; [set_solver|]. by apply list_elem_of_singleton in Hc as ->.
Qed.

Lemma pick_enabled choice tx : finished tx = false -> pick_move choice (enabled tx) ∈ enabled tx.
Proof.
  unfold finished. rewrite bool_decide_eq_false. intros Hp. apply list_elem_of_In, nth_In.
  apply Nat.mod_upper_bound. unfold enabled. rewrite length_app. destruct (program_moves tx); [done|cbn; lia].
Qed.

Lemma weight_insert workers i w w' :
  workers !! i = Some w ->
  (sum_list_with worker_weight (<[i := w']> workers) + worker_weight w = sum_list_with worker_weight workers + worker_weight w')%nat.
Proof.
  revert i. induction workers as [|v workers IH]; intros [|i]; intros Hi; try done.
  - injection Hi as ->. change (<[0%nat := w']> (w :: workers)) with (w' :: workers). cbn [sum_list_with]. lia.
  - specialize (IH i Hi). change (<[S i := w']> (v :: workers)) with (v :: <[i := w']> workers). cbn [sum_list_with]. lia.
Qed.

(** Every move brings the transaction closer to its end. *)
Section Progress.
Context {W : Type} `{Clock W} `{NodePublisher W} `{Getter W VPNWorkloadBinding} `{StatusPatcher W VPNWorkloadBinding}.
Context (agentPod : AgentPod) (report : Report).

Lemma set_worker_weight i w w' tx :
  tx_workers tx !! i = Some w -> (worker_weight w' < worker_weight w)%nat -> (weight (set_worker i w' tx) < weight tx)%nat.
Proof. intros Hi Hw. pose proof (weight_insert _ _ _ w' Hi). unfold weight. cbn. lia. Qed.

Lemma make_move_weight m tx w :
  allowed m tx -> wp (make_move agentPod report m tx) (fun answer _ => exists tx', answer = Ok tx' /\ (weight tx' < weight tx)%nat) w.
Proof.
  destruct m; cbn [allowed make_move].
  - intros Hc. wp_step. eexists. split; [done|]. unfold weight. rewrite Hc. cbn. lia.
  - intros Hn. do 2 wp_step. wp_run published w1 E. wp_step. eexists. split; [done|].
    unfold weight. rewrite Hn. destruct published; cbn; lia.
  - intros (Hc & Hi & Hp). destruct (tx_pending tx) as [|o pending] eqn:Ep; [done|]. wp_step. eexists. split; [done|].
    pose proof (weight_insert _ _ _ (Reading o) Hi) as Hsum. change (worker_weight Idle) with 1%nat in Hsum.
    change (worker_weight (Reading o)) with 3%nat in Hsum. unfold weight. cbn. rewrite Hc, Ep. cbn [length]. lia.
  - intros (Hc & _). wp_step. eexists. split; [done|]. unfold weight. rewrite Hc. cbn. lia.
  - intros (Hc & _). wp_step. eexists. split; [done|]. unfold weight. rewrite Hc. cbn. lia.
  - intros (o & Hi). rewrite Hi. do 2 wp_step. wp_run read w1 E. wp_step. eexists. split; [done|].
    destruct read as [[[base updated]|]|e].
    + eapply set_worker_weight; [done|cbn; lia].
    + eapply (set_worker_weight i _ Idle); [done|cbn; lia].
    + eapply (set_worker_weight i _ Exited); [done|cbn; lia].
  - intros (o & b & u & Hi). rewrite Hi. do 2 wp_step. wp_run written w1 E. wp_step. eexists. split; [done|].
    destruct written as [[]|e].
    + eapply (set_worker_weight i _ Idle); [done|cbn; lia].
    + eapply (set_worker_weight i _ Exited); [done|cbn; lia].
  - intros (_ & Hi). wp_step. eexists. split; [done|]. eapply set_worker_weight; [done|cbn; lia].
Qed.

(** An invariant of the moves holds when the transaction is over, and it is
    over within its weight. *)
Lemma run_moves_inv (Inv : transaction -> W -> Prop) fuel choices tx w :
  (forall m tx w, allowed m tx -> Inv tx w ->
     wp (make_move agentPod report m tx) (fun answer w' => forall tx', answer = Ok tx' -> Inv tx' w') w) ->
  Inv tx w -> (weight tx <= fuel)%nat ->
  wp (run_moves agentPod report fuel choices tx) (fun answer w' => exists tx', answer = Ok tx' /\ Inv tx' w' /\ finished tx' = true) w.
Proof.
  intros Hstep. revert choices tx w. induction fuel as [|fuel IH]; intros choices tx w Hinv Hw; cbn [run_moves];
    destruct (finished tx) eqn:Ef; try (wp_step; by exists tx).
  - pose proof (enabled_allowed _ _ (pick_enabled O tx Ef)) as Ha.
    destruct (make_move_weight _ _ w Ha) as (tx' & _ & Hlt). lia.
  - pose proof (enabled_allowed _ _ (pick_enabled (choices O) tx Ef)) as Ha. wp_step.
    eapply wp_mono; [apply wp_and; [by apply make_move_weight|by apply Hstep]|].
    intros answer w1 [(tx' & -> & Hlt) Hnext]. cbn [after]. apply IH; [by apply Hnext|lia].
Qed.

End Progress.

(** ** Bookkeeping *)

Definition in_flight (w : worker) : option Observation :=
  match w with Reading o | Writing o _ _ => Some o | Idle | Exited => None end.

(** Without an error every observation is settled, waiting or with a worker;
    nothing is left behind unless the request is over. *)
Record books (report : Report) (tx : transaction) : Prop := mkBooks {
  books_all : tx_errs tx = [] -> rep_Observations report ≡ₚ tx_settled tx ++ tx_pending tx ++ omap in_flight (tx_workers tx);
  books_closed : tx_closed tx = true -> tx_errs tx = [] -> tx_cancelled tx = false -> tx_pending tx = [];
  books_workers : tx_closed tx = false -> tx_errs tx = [] -> Exited ∉ tx_workers tx;
  books_staff : tx_pending tx <> [] -> tx_workers tx <> []
}.

Lemma omap_insert_worker (workers : list worker) i w w' :
  workers !! i = Some w ->
  option_list (in_flight w) ++ omap in_flight (<[i := w']> workers) ≡ₚ option_list (in_flight w') ++ omap in_flight workers.
Proof.
  revert i. induction workers as [|v workers IH]; intros [|i] Hi; try done.
  - injection Hi as ->. change (<[0%nat := w']> (w :: workers)) with (w' :: workers). cbn [omap list_omap].
    destruct (in_flight w), (in_flight w'); cbn; [apply perm_swap|done..].
  - change (<[S i := w']> (v :: workers)) with (v :: <[i := w']> workers). specialize (IH i Hi). cbn [omap list_omap].
    destruct (in_flight v) as [o|]; [|exact IH]. rewrite <- !Permutation_middle. by f_equiv.
Qed.

Lemma begin_books report : books report (begin report).
Proof.
  split; cbn.
  - intros _. assert (forall n, omap in_flight (replicate n Idle) = []) as Hidle by (intros n; by induction n).
    by rewrite Hidle, app_nil_r.
  - done.
  - intros _ _ Hin. by apply elem_of_replicate in Hin as [? _].
  - destruct (rep_Observations report); [done|]. cbn. done.
Qed.

Lemma finished_idle tx : finished tx = true -> tx_node tx = true /\ sender_moves tx = [] /\
  forall i w, tx_workers tx !! i = Some w -> worker_moves tx i w = [].
Proof.
  unfold finished. rewrite bool_decide_eq_true. unfold program_moves. intros [Hn [Hs Hw]%app_nil]%app_nil.
  split; [by destruct (tx_node tx)|]. split; [done|]. intros i w Hi. apply elem_of_nil_inv. intros m Hm.
  assert (m ∈ concat (imap (worker_moves tx) (tx_workers tx))) as Hin by (apply elem_worker_moves; eauto).
  rewrite Hw in Hin. set_solver.
Qed.

(** How a transaction ends: everything was joined, and without an error and
    with the request still there, everything was settled. *)
Lemma finished_books report tx :
  books report tx -> finished tx = true ->
  tx_node tx = true /\ tx_closed tx = true /\ Forall (eq Exited) (tx_workers tx) /\
  (tx_errs tx = [] -> tx_cancelled tx = false -> rep_Observations report ≡ₚ tx_settled tx).
Proof.
  intros Hb (Hn & Hs & Hw)%finished_idle.
  assert (tx_closed tx = true) as Hc.
  { destruct (tx_closed tx) eqn:Ec; [done|exfalso]. unfold sender_moves in Hs. rewrite Ec in Hs.
    destruct (tx_pending tx) as [|o rest] eqn:Ep; [done|]. destruct (_ || _) eqn:Eo; [done|].
    apply orb_false_iff in Eo as [_ He]. rewrite negb_false_iff, bool_decide_eq_true in He.
    pose proof (books_staff _ _ Hb ltac:(by rewrite Ep)) as Hstaff. pose proof (books_workers _ _ Hb Ec He) as Hexit.
    destruct (tx_workers tx) as [|w ws] eqn:Ews; [done|]. specialize (Hw O w eq_refl).
    destruct w; cbn in Hw; rewrite ?Ec, ?Ep in Hw; try done. set_solver. }
  assert (Forall (eq Exited) (tx_workers tx)) as Hexit.
  { apply Forall_lookup. intros i w Hi. specialize (Hw i w Hi). destruct w; cbn in Hw; rewrite ?Hc in Hw; done. }
  split_and!; [done|done|done|]. intros He Hcan. rewrite (books_all _ _ Hb He), (books_closed _ _ Hb Hc He Hcan).
  assert (omap in_flight (tx_workers tx) = []) as ->; [|by rewrite app_nil_r].
  revert Hexit. generalize (tx_workers tx). induction 1 as [|w ws <- _ IH]; [done|]. exact IH.
Qed.

Lemma staffed_insert (workers : list worker) i w : workers <> [] -> <[i := w]> workers <> [].
Proof. intros Hne Hnil. apply (f_equal length) in Hnil. rewrite length_insert in Hnil. by apply Hne, length_zero_iff_nil. Qed.

Lemma not_exited_insert (workers : list worker) i w : w <> Exited -> Exited ∉ workers -> Exited ∉ <[i := w]> workers.
Proof.
  intros Hw Hn (j & Hj)%list_elem_of_lookup. apply list_lookup_insert_Some in Hj as [(_ & -> & _)|[_ Hj]]; [done|].
  by apply Hn, (list_elem_of_lookup_2 _ j).
Qed.

Section Books.
Context {W : Type} `{Clock W} `{NodePublisher W} `{Getter W VPNWorkloadBinding} `{StatusPatcher W VPNWorkloadBinding}.
Context (agentPod : AgentPod) (report : Report).

(** A worker is done with its observation. *)
Lemma settle_books i w o tx :
  books report tx -> tx_workers tx !! i = Some w -> in_flight w = Some o -> books report (settle o (set_worker i Idle tx)).
Proof.
  intros [Ha Hc Hw Hs] Hi Ho. pose proof (omap_insert_worker _ _ _ Idle Hi) as Hp. rewrite Ho in Hp. cbn in Hp.
  split; cbn.
  - intros He. rewrite (Ha He), <- Hp. solve_Permutation.
  - done.
  - intros ? ?. by apply not_exited_insert; [|apply Hw].
  - intros Hne. by apply staffed_insert, Hs.
Qed.

Lemma failed_books i e tx : books report tx -> books report (worker_failed i e tx).
Proof.
  intros [Ha Hc Hw Hs]. split; cbn.
  - by destruct (tx_errs tx).
  - by destruct (tx_errs tx).
  - by destruct (tx_errs tx).
  - intros Hne. by apply staffed_insert, Hs.
Qed.

(** A worker goes on with its observation. *)
Lemma writing_books i o base updated tx :
  books report tx -> tx_workers tx !! i = Some (Reading o) -> books report (set_worker i (Writing o base updated) tx).
Proof.
  intros [Ha Hcl Hw Hs] Hi. pose proof (omap_insert_worker _ _ _ (Writing o base updated) Hi) as Hom.
  cbn in Hom. apply Permutation_cons_inv in Hom. split; cbn.
  - intros He. by rewrite (Ha He), Hom.
  - done.
  - intros ? ?. by apply not_exited_insert; [|apply Hw].
  - intros Hne. by apply staffed_insert, Hs.
Qed.

Lemma make_move_books m tx w :
  allowed m tx -> books report tx ->
  wp (make_move agentPod report m tx) (fun answer _ => forall tx', answer = Ok tx' -> books report tx') w.
Proof.
  intros Hm Hb. destruct m; cbn [allowed make_move] in *.
  - wp_step. intros ? [= <-]. destruct Hb as [Ha Hc Hw Hs]. by split.
  - do 2 wp_step. wp_run published w1 E. wp_step. intros ? [= <-]. destruct Hb as [Ha Hc Hw Hs].
    destruct published as [[]|e]; [by split|]. split; cbn; [by destruct (tx_errs tx)..|done].
  - destruct Hm as (Hc & Hi & Hp). destruct (tx_pending tx) as [|o pending] eqn:Ep; [done|]. wp_step. intros ? [= <-].
    pose proof (omap_insert_worker _ _ _ (Reading o) Hi) as Hom. cbn in Hom. destruct Hb as [Ha Hcl Hw Hs]. split; cbn.
    + intros He. rewrite (Ha He), Hom, Ep. solve_Permutation.
    + by rewrite Hc.
    + intros ? ?. by apply not_exited_insert; [|apply Hw].
    + intros _. apply staffed_insert, Hs. by rewrite Ep.
  - destruct Hm as (Hc & Hp & Hwhy). wp_step. intros ? [= <-]. destruct Hb as [Ha Hcl Hw Hs]. split; cbn; try done.
    intros _ He Hcan. destruct Hwhy; congruence.
  - destruct Hm as (Hc & Hp). wp_step. intros ? [= <-]. destruct Hb as [Ha Hcl Hw Hs]. by split.
  - destruct Hm as (o & Hi). rewrite Hi. do 2 wp_step. wp_run read w1 E. wp_step. intros ? [= <-].
    destruct read as [[[base updated]|]|e]; [by apply writing_books|by eapply settle_books|by apply failed_books].
  - destruct Hm as (o & b & u & Hi). rewrite Hi. do 2 wp_step. wp_run written w1 E. wp_step. intros ? [= <-].
    destruct written; [by eapply settle_books|by apply failed_books].
  - destruct Hm as (Hc & Hi). wp_step. intros ? [= <-]. pose proof (omap_insert_worker _ _ _ Exited Hi) as Hom. cbn in Hom.
    destruct Hb as [Ha Hcl Hw Hs]. split; cbn.
    + intros He. by rewrite (Ha He), Hom.
    + done.
    + by rewrite Hc.
    + intros Hne. by apply staffed_insert, Hs.
Qed.

End Books.

(** ** What is written, and for whom *)

(** The Pod of a current node agent. *)
Definition current_agent (r : Relay) (pod : AgentPod) : Prop :=
  ap_NodeName pod <> "" /\ ap_ServiceAccountName pod = rl_AgentServiceAccount r /\
  map_get (Labels (ap_Meta pod)) "app.kubernetes.io/component" = "node-agent".

(** The observation is of exactly this binding, and of a Pod on the agent's
    own node; nothing that is being deleted becomes ready. *)
Definition authorized (agentPod : AgentPod) (o : Observation) (binding : VPNWorkloadBinding) : Prop :=
  UID (wb_Meta binding) = ob_BindingUID o /\ Generation (wb_Meta binding) = ob_Generation o /\ 1 <= ob_Generation o /\
  lur_UID (wb_PodRef (wb_Spec binding)) = ob_PodUID o /\ nur_UID (wb_GatewayRef (wb_Spec binding)) = ob_GatewayUID o /\
  wb_NodeName (wb_Spec binding) = ap_NodeName agentPod /\ (ob_Ready o = true -> not_deleting (wb_Meta binding) = true).

Section Reads.
Context {W : Type} `{Clock W} `{TokenReviewer W} `{Getter W AgentPod} `{Getter W VPNWorkloadBinding}.

Lemma authenticate_spec r token w :
  wp (authenticate r token) (fun answer _ => forall pod, answer = Ok pod -> current_agent r pod) w.
Proof.
  unfold authenticate. do 2 wp_step. wp_run reviewed w1 E1. destruct reviewed as [review|e]; [|by wp_step].
  destruct (_ || _); [by wp_step|]. destruct (_ || _); [by wp_step|]. wp_step. wp_run got w2 E2.
  destruct got as [pod|e]; cbn [after]; [|done].
  destruct (_ || negb (String.eqb (map_get _ _) _)) eqn:Ep; wp_step; [done|]. intros ? [= <-].
  unfold str_empty in Ep. rewrite !orb_false_iff, !negb_false_iff, !String.eqb_eq, String.eqb_neq in Ep. unfold current_agent. tauto.
Qed.

(** The read of an observation: what it decides rests on the binding that the
    server returned. *)
Lemma apply_read_spec agentPod o (Q : res (option (VPNWorkloadBinding * VPNWorkloadBinding)) -> W -> Prop) w :
  (forall e, Q (Fail e) w) ->
  wp (k8s_Get (T := VPNWorkloadBinding) (mkObjectKey (ob_BindingNamespace o) (ob_BindingName o)))
    (fun got w' => (forall e, Q (Fail e) w') /\ match got with
       | Fail e => IsNotFound e = true -> Q (Ok None) w'
       | Ok b => (UID (wb_Meta b) = ob_BindingUID o -> ob_Generation o < Generation (wb_Meta b) -> Q (Ok None) w') /\
                 (authorized agentPod o b -> Q (Ok (Some (b, observed_binding b o (clock_now w')))) w')
       end) w ->
  wp (apply_read agentPod o) Q w.
Proof.
  intros Hfail Hget. unfold apply_read. destruct (_ || str_empty (ob_InstanceID o)) eqn:Ei; [wp_step; apply Hfail|]. do 2 wp_step.
  eapply wp_mono; [exact Hget|]. clear Hfail.
  intros [b|e] w1 [Hfail Hq]; [|destruct (IsNotFound e); wp_step; auto]. destruct Hq as [Hold Hnew].
  destruct (_ || negb (String.eqb (wb_NodeName _) _)) eqn:Em; [wp_step; apply Hfail|].
  rewrite !orb_false_iff, !negb_false_iff, !String.eqb_eq, Z.ltb_ge in Em. destruct Em as (((Hu & Hg) & Hp) & Hn).
  destruct (ob_Generation o <? Generation (wb_Meta b)) eqn:Eg; [wp_step; apply Hold; [done|lia]|].
  destruct (_ || (_ && ob_Ready o)) eqn:Ed; [wp_step; apply Hfail|]. wp_now. wp_step. apply Hnew.
  rewrite orb_false_iff, negb_false_iff, String.eqb_eq, andb_false_iff, negb_false_iff in Ed. destruct Ed as [Hgw Hdel].
  rewrite !orb_false_iff in Ei. unfold authorized. split_and!; [done|lia|lia|done|done|done|].
  intros Hr. destruct Hdel as [?|Hr']; [done|congruence].
Qed.

End Reads.
