(* ===== verification/RelayPath.v ===== *)
(** * From the node agent's report to a ready binding

    The observation relay and the two binding controllers on the API server of
    Addressing, with the tokens and Pods of node agents.  Requests may come from
    anyone, tokens may be stolen from any node, requests to the server may fail
    before or after they took effect, and the reads and writes of all reports
    that are being applied interleave in any order. *)

From S2P Require Import Prelude Netip Api Conditions Kube Reservation BindingController Addressing Http NodeAgent Scheduling Relay.

(** ** The world *)

Record Desk := mkDesk {
  dk_agents : gmap ObjectKey AgentPod;
  dk_tokens : gmap string TokenReviewStatus;
  dk_nodes : api NodeObject
}.
Notation Control := (Cluster * Desk)%type.

(** A request to the server that reads the desk. *)
Definition desk_request {A} (look : Desk -> res A) : IO Control A := fun w =>
  match api_request (fun c => (Ok tt, c)) w.1 with
  | (Ok _, c) => (look w.2, (c, w.2))
  | (Fail e, c) => (Fail e, (c, w.2))
  end.

Definition on_cluster {A} (m : IO Cluster A) : IO Control A := fun w => let '(answer, c) := m w.1 in (answer, (c, w.2)).

Definition no_review : TokenReviewStatus := mkTokenReviewStatus false [] "" ∅.

(** A merge patch of the agent's observation and of the status. *)
Definition merge_agent (base updated current : option NodeAgentObservation) : option NodeAgentObservation :=
  match base, updated with
  | Some b, Some u =>
      let c := default (mkNodeAgentObservation "" "" "" zero_time) current in
      if decide (b = u) then current
      else Some (mkNodeAgentObservation (pick (nao_NodeName b) (nao_NodeName u) (nao_NodeName c))
                   (pick (nao_NodeBootID b) (nao_NodeBootID u) (nao_NodeBootID c))
                   (pick (nao_InstanceID b) (nao_InstanceID u) (nao_InstanceID c))
                   (pick (nao_ObservedAt b) (nao_ObservedAt u) (nao_ObservedAt c)))
  | None, None => current
  | _, _ => updated
  end.

Definition merge_status (base updated current : VPNWorkloadBindingStatus) : VPNWorkloadBindingStatus :=
  let p {T} `{EqDecision T} (f : VPNWorkloadBindingStatus -> T) := pick (f base) (f updated) (f current) in
  mkVPNWorkloadBindingStatus (p wbs_ObservedGeneration) (p wbs_AppliedGeneration) (p wbs_ObservedPodUID)
    (p wbs_ObservedGatewayUID) (merge_agent (wbs_Agent base) (wbs_Agent updated) (wbs_Agent current)) (p wbs_Conditions).

Definition patched (base updated current : VPNWorkloadBinding) : VPNWorkloadBinding :=
  with_binding_status (merge_status (wb_Status base) (wb_Status updated) (wb_Status current)) current.

#[global] Instance control_clock : Clock Control := fun w => cl_clock w.1.
#[global] Instance control_review : TokenReviewer Control := fun token _ =>
  desk_request (fun d => Ok (default no_review (dk_tokens d !! token))).
#[global] Instance control_agent : Getter Control AgentPod := fun key => desk_request (fun d => found (dk_agents d !! key)).
#[global] Instance control_binding : Getter Control VPNWorkloadBinding := fun key => on_cluster (k8s_Get key).
#[global] Instance control_patch : StatusPatcher Control VPNWorkloadBinding := fun base updated _ =>
  on_cluster (api_request (fun c => let key := key_of (wb_Meta updated) in
    match cl_bindings c !! key with
    | Some current => (Ok tt, set_bindings (<[key := patched base updated current]> (cl_bindings c)) c)
    | None => (Fail (EStatus ReasonNotFound), c)
    end)).

Definition observed_key (o : Observation) : ObjectKey := mkObjectKey (ob_BindingNamespace o) (ob_BindingName o).

(** ** What the relay was told *)

(** An observation that the relay took: the agent, the observation and the time. *)
Notation entry := (AgentPod * Observation * time)%type.

(** Somewhere in the log there is an entry about this binding with [P]. *)
Definition told (log : list entry) (key : ObjectKey) (P : AgentPod -> Observation -> time -> Prop) : Prop :=
  exists pod o at_, (pod, o, at_) ∈ log /\ observed_key o = key /\ P pod o at_.

(** Each field of the status that says what an agent observed was told. *)
Record vouched (log : list entry) (key : ObjectKey) (status : VPNWorkloadBindingStatus) : Prop := {
  v_applied : wbs_AppliedGeneration status = 0 \/
    told log key (fun _ o _ => ob_Ready o = true /\ ob_Generation o = wbs_AppliedGeneration status);
  v_gateway : wbs_ObservedGatewayUID status = "" \/ told log key (fun _ o _ => ob_GatewayUID o = wbs_ObservedGatewayUID status);
  v_time a : wbs_Agent status = Some a -> nao_ObservedAt a = zero_time \/ told log key (fun _ _ at_ => at_ = nao_ObservedAt a)
}.

Lemma told_more log log' key P : told log key P -> told (log ++ log') key P.
Proof. intros (pod & o & at_ & Hin & Hrest). exists pod, o, at_. split; [|done]. apply elem_of_app. by left. Qed.

Lemma vouched_more log log' key status : vouched log key status -> vouched (log ++ log') key status.
Proof.
  intros [Ha Hg Ht]. split.
  - destruct Ha as [Ha|Ha]; [by left|right; by apply told_more].
  - destruct Hg as [Hg|Hg]; [by left|right; by apply told_more].
  - intros a Ea. destruct (Ht a Ea) as [Hz|Hz]; [by left|right; by apply told_more].
Qed.

(** A status whose fields come from vouched ones. *)
Definition recalled (versions : VPNWorkloadBindingStatus -> Prop) (status : VPNWorkloadBindingStatus) : Prop :=
  (wbs_AppliedGeneration status = 0 \/ exists v, versions v /\ wbs_AppliedGeneration v = wbs_AppliedGeneration status) /\
  (wbs_ObservedGatewayUID status = "" \/ exists v, versions v /\ wbs_ObservedGatewayUID v = wbs_ObservedGatewayUID status) /\
  (wbs_Agent status = None \/ exists v, versions v /\ wbs_Agent v = wbs_Agent status).

Lemma recalled_vouched log key versions status :
  (forall v, versions v -> vouched log key v) -> recalled versions status -> vouched log key status.
Proof.
  intros Hall (Ha & Hg & Ht). split.
  - destruct Ha as [Ha|(v & Hv & Ea)]; [by left|]. destruct (Hall v Hv) as [Hva _ _]. by rewrite Ea in Hva.
  - destruct Hg as [Hg|(v & Hv & Ea)]; [by left|]. destruct (Hall v Hv) as [_ Hvg _]. by rewrite Ea in Hvg.
  - intros a Ea. destruct Ht as [Ht|(v & Hv & Ev)]; [congruence|]. destruct (Hall v Hv) as [_ _ Hvt]. apply Hvt. congruence.
Qed.

(** ** The controllers leave observations alone *)

Section Controllers.
Context `{ApiMeta} (log : list entry).
(** The Pod that the binding of this name is for, and its node.  A Pod never
    moves, and the name is derived from its UID. *)
Context (home : ObjectKey -> string * string).

Definition pods_home (pods : gmap ObjectKey Pod) : Prop :=
  map_Forall (fun _ pod => pod_NodeName pod <> "" ->
    home (mkObjectKey (Namespace (pod_Meta pod)) (BindingName (UID (pod_Meta pod)))) = (UID (pod_Meta pod), pod_NodeName pod)) pods.

Definition at_home (key : ObjectKey) (b : VPNWorkloadBinding) : Prop :=
  key_of (wb_Meta b) = key /\ home key = (lur_UID (wb_PodRef (wb_Spec b)), wb_NodeName (wb_Spec b)).

Definition bindings_home (bindings : gmap ObjectKey VPNWorkloadBinding) : Prop :=
  map_Forall (fun key b => at_home key b /\ vouched log key (wb_Status b)) bindings.

Definition tidy (c : Cluster) : Prop := pods_home (cl_pods c) /\ bindings_home (cl_bindings c).

Lemma tidy_insert c key b : tidy c -> at_home key b -> vouched log key (wb_Status b) -> tidy (set_bindings (<[key := b]> (cl_bindings c)) c).
Proof. intros [Hp Hb] Hh Hv. split; [done|]. by apply map_Forall_insert_2. Qed.

Lemma tidy_delete c key : tidy c -> tidy (set_bindings (delete key (cl_bindings c)) c).
Proof. intros [Hp Hb]. split; [done|]. by apply map_Forall_delete. Qed.

(** A request, given what it does whatever failures are to come. *)
Lemma keeps_request {A} (act : IO Cluster A) : (forall c, tidy c -> tidy (act c).2) -> keeps tidy (api_request act).
Proof. intros Hact c Hc. unfold api_request. destruct (cl_faults c) as [|[[e|e]|] rest]; cbn; auto. Qed.

Lemma keeps_patch base modified : keeps tidy (k8s_Patch (W := Cluster) (T := VPNWorkloadBinding) base modified).
Proof.
  apply keeps_request. intros c Hc. cbn beta zeta. destruct (cl_bindings c !! _) as [current|] eqn:E; [|done]. cbn [snd].
  destruct (_ && _); [by apply tidy_delete|]. destruct (proj2 Hc _ _ E). by apply tidy_insert.
Qed.

Lemma keeps_delete_binding b : keeps tidy (k8s_Delete (W := Cluster) (T := VPNWorkloadBinding) b).
Proof.
  apply keeps_request. intros c Hc. cbn beta zeta. destruct (cl_bindings c !! _) as [current|] eqn:E; [|done]. cbn [snd].
  destruct (proj2 Hc _ _ E). destruct (Finalizers _); [by apply tidy_delete|]. by apply tidy_insert.
Qed.

Lemma keeps_create_binding b :
  at_home (key_of (wb_Meta b)) b -> vouched log (key_of (wb_Meta b)) (wb_Status b) ->
  keeps tidy (k8s_Create (W := Cluster) (T := VPNWorkloadBinding) b).
Proof.
  intros Hh Hv. apply keeps_request. intros c Hc. cbn beta zeta. destruct (cl_bindings c !! _) as [current|] eqn:E; [done|].
  by apply tidy_insert.
Qed.

(** Requests about other kinds. *)
Ltac other_kind := let x := fresh in let Hx := fresh in apply keeps_request; intros x Hx; cbn beta zeta; repeat case_match; exact Hx.

Lemma keeps_grew {A} (m : IO Cluster A) : (forall c, wp m (fun _ c' => grew c c') c) -> keeps tidy m.
Proof. intros Hm c Hc. destruct (Hm c) as (leases & faults & E & _). by rewrite E. Qed.

Ltac tidy_walk :=
  repeat first
    [ progress keeps_down | apply keeps_clock | apply keeps_IgnoreNotFound
    | apply keeps_patch | apply keeps_delete_binding
    | apply keeps_grew; intros ?; apply Ensure_grew
    | apply keeps_grew; intros ?; eapply wp_mono; [apply Reserve_spec|]; by intros ?? [Hg _]
    | case_match
    | solve [other_kind] ].

Lemma blank_vouched key : vouched log key (mkVPNWorkloadBindingStatus 0 0 "" "" None []).
Proof. split; [by left|by left|done]. Qed.

Lemma pod_Reconcile_tidy fuel request : keeps tidy (pod_Reconcile fuel request).
Proof.
  apply keeps_wp. intros c Hc. unfold pod_Reconcile, reconcile_object. do 2 wp_step.
  apply (wp_read (fun c => cl_pods c !! request) found); [done|intros f|intros f e; destruct (IsNotFound e); by wp_step].
  destruct (cl_pods c !! request) as [pod|] eqn:Ep; cbn [found]; [|by destruct (IsNotFound _); wp_step].
  destruct (_ || _) eqn:Eg; [by wp_step|]. rewrite !orb_false_iff in Eg. destruct Eg as [[_ Hnode] _].
  assert (pod_NodeName pod <> "") as Hne by (intros E; by rewrite E in Hnode). pose proof (proj1 Hc _ _ Ep Hne) as Hhome. cbn in Hhome.
  apply wp_keeps; [|exact Hc]. unfold pod_with_route, pod_existing, pod_create. tidy_walk.
  apply keeps_create_binding; [|apply blank_vouched]. split; [done|exact Hhome].
Qed.

(** The status is written from the binding as it was read, which may be any
    earlier version. *)
Lemma apply_status_tidy b conditions : at_home (key_of (wb_Meta b)) b -> vouched log (key_of (wb_Meta b)) (wb_Status b) ->
  keeps tidy (binding_applyStatus (W := Cluster) b (with_conditions b conditions)).
Proof.
  intros Hh [Ha Hg Ht]. unfold binding_applyStatus. keeps_down. apply keeps_request. intros c Hc. cbn beta zeta.
  destruct (cl_bindings c !! _) as [current|] eqn:E; [|done]. destruct (proj2 Hc _ _ E). by apply tidy_insert.
Qed.

Lemma binding_Reconcile_tidy r request : keeps tidy (binding_Reconcile r request).
Proof.
  apply keeps_wp. intros c Hc. unfold binding_Reconcile, reconcile_object. do 2 wp_step.
  apply (wp_read (fun c => cl_bindings c !! request) found); [done|intros f|intros f e; destruct (IsNotFound e); by wp_step].
  destruct (cl_bindings c !! request) as [b|] eqn:Eb; cbn [found]; [|by destruct (IsNotFound _); wp_step].
  destruct (proj2 Hc _ _ Eb) as [Hh Hv]. pose proof Hh as [Hkey _]. rewrite <- Hkey in Hh, Hv.
  apply wp_keeps; [|exact Hc]. destruct (DeletionTimestamp (wb_Meta b)) as [t|].
  - unfold reconcileDeletion, Release, Quarantine, removeFinalizer, ReservationForBinding, deletingStatus.
    tidy_walk; by apply apply_status_tidy.
  - unfold observeGateway, binding_desiredStatus. tidy_walk; by apply apply_status_tidy.
Qed.

End Controllers.

Section Control.
Context `{ApiMeta} `{Json Report} (rb : VPNWorkloadBindingReconciler) (rl : Relay) (publisher : Publisher).
Context (home : ObjectKey -> string * string).

#[local] Instance control_publisher : NodePublisher Control := fun pod report w =>
  let '(answer, nodes) := publisher_Apply publisher pod report
    (mkApi (api_objs (dk_nodes w.2)) (api_env (dk_nodes w.2)) (cl_clock w.1)) in
  (answer, (w.1, mkDesk (dk_agents w.2) (dk_tokens w.2) nodes)).

(** ** The system *)

(** The world, the reports that are being applied, what the relay was told, and
    the bindings of all earlier states. *)
Record system := mkSystem {
  sy_world : Control;
  sy_open : list (AgentPod * Report * transaction);
  sy_log : list entry;
  sy_past : list (gmap ObjectKey VPNWorkloadBinding)
}.

Definition opened (answer : res (Z + AgentPod * Report)) : list (AgentPod * Report * transaction) :=
  match answer with Ok (inr (pod, report)) => [(pod, report, begin report)] | _ => [] end.

(** The observation that a worker has just matched to its binding. *)
Definition taken (pod : AgentPod) (m : move) (tx : transaction) (now : time) : list entry :=
  match m with
  | Read i => match tx_workers tx !! i with Some (Writing o _ _) => [(pod, o, now)] | _ => [] end
  | _ => []
  end.

Definition seen (key : ObjectKey) (current : gmap ObjectKey VPNWorkloadBinding) (past : list (gmap ObjectKey VPNWorkloadBinding))
    (b : VPNWorkloadBinding) : Prop := exists m, m ∈ current :: past /\ m !! key = Some b.

(** Requests are served side by side: a step is one move of one open
    transaction, the authentication of a new request, a pass of a controller or
    only its late write of a status from a binding that it read at any earlier
    time.  Others change Pods, create, change and remove bindings, tokens and
    agents, and move the clock; they write only status that they have read. *)
Inductive control_step : system -> system -> Prop :=
| control_pod fuel request c d open log past :
    control_step (mkSystem (c, d) open log past) (mkSystem ((pod_Reconcile fuel request c).2, d) open log (cl_bindings c :: past))
| control_reconcile request c d open log past :
    control_step (mkSystem (c, d) open log past) (mkSystem ((binding_Reconcile rb request c).2, d) open log (cl_bindings c :: past))
| control_late key b conditions c d open log past : seen key (cl_bindings c) past b ->
    control_step (mkSystem (c, d) open log past)
      (mkSystem ((binding_applyStatus b (with_conditions b conditions) c).2, d) open log (cl_bindings c :: past))
| control_receive authorization request w open log past :
    control_step (mkSystem w open log past)
      (mkSystem (receive rl authorization request w).2 (open ++ opened (receive rl authorization request w).1) log (cl_bindings w.1 :: past))
| control_move i pod report tx m tx' w w' open log past :
    open !! i = Some (pod, report, tx) -> m ∈ enabled tx -> make_move pod report m tx w = (Ok tx', w') ->
    control_step (mkSystem w open log past)
      (mkSystem w' (<[i := (pod, report, tx')]> open) (log ++ taken pod m tx' (cl_clock w.1)) (cl_bindings w.1 :: past))
| control_env w w' open log past : pods_home home (cl_pods w'.1) ->
    map_Forall (fun key b => at_home home key b /\
      recalled (fun status => exists b0, seen key (cl_bindings w.1) past b0 /\ status = wb_Status b0) (wb_Status b)) (cl_bindings w'.1) ->
    control_step (mkSystem w open log past) (mkSystem w' open log (cl_bindings w.1 :: past)).

(** A worker that is about to write has an observation of the log. *)
Definition worker_told (log : list entry) (pod : AgentPod) (v : worker) : Prop :=
  forall o base updated, v = Writing o base updated -> exists at_, (pod, o, at_) ∈ log /\ authorized pod o base /\
    key_of (wb_Meta base) = observed_key o /\ updated = observed_binding base o at_.

(** Who reports on a binding is an agent of its node, about its Pod. *)
Definition entry_home (e : entry) : Prop :=
  current_agent rl e.1.1 /\ home (observed_key e.1.2) = (ob_PodUID e.1.2, ap_NodeName e.1.1).

Record system_inv (s : system) : Prop := {
  si_tidy : tidy (sy_log s) home (sy_world s).1;
  si_past m : m ∈ sy_past s -> bindings_home (sy_log s) home m;
  si_open pod report tx : (pod, report, tx) ∈ sy_open s -> current_agent rl pod /\ Forall (worker_told (sy_log s) pod) (tx_workers tx);
  si_log : Forall entry_home (sy_log s)
}.

(** ** A transaction *)

(** Failures that do not pretend that an object is missing. *)
Definition honest (faults : list (option fault)) : Prop :=
  Forall (fun f => match f with Some (FailBefore e) | Some (FailAfter e) => IsNotFound e = false | None => True end) faults.

Lemma wp_on_cluster {A} (m : IO Cluster A) Q c d : wp m (fun answer c' => Q answer (c', d)) c -> wp (on_cluster m) Q (c, d).
Proof. unfold wp, on_cluster. cbn. by destruct (m c). Qed.

Lemma wp_honest_request {A} (act : IO Cluster A) Q c :
  honest (cl_faults c) ->
  (forall f, honest f -> Q (act (set_faults f c)).1 (act (set_faults f c)).2) ->
  (forall f e, honest f -> IsNotFound e = false -> Q (Fail e) (set_faults f c)) ->
  (forall f e, honest f -> IsNotFound e = false -> Q (Fail e) (act (set_faults f c)).2) -> wp (api_request act) Q c.
Proof.
  intros Hh Hdone Hlost Hreply. unfold wp, api_request. destruct (cl_faults c) as [|[[e|e]|] rest] eqn:E.
  - specialize (Hdone []). assert (set_faults [] c = c) as Hw by (rewrite <- E; by destruct c). rewrite Hw in Hdone. by apply Hdone, Forall_nil.
  - apply Forall_cons in Hh as [He Hr]. by apply Hlost.
  - apply Forall_cons in Hh as [He Hr]. by apply Hreply.
  - apply Forall_cons in Hh as [He Hr]. by apply Hdone.
Qed.

(** The status was written at this time, by the agent of the binding's node and
    for its Pod and gateway. *)
Definition touched (now : time) (b : VPNWorkloadBinding) : Prop :=
  wbs_ObservedPodUID (wb_Status b) = lur_UID (wb_PodRef (wb_Spec b)) /\
  wbs_ObservedGatewayUID (wb_Status b) = nur_UID (wb_GatewayRef (wb_Spec b)) /\
  exists a, wbs_Agent (wb_Status b) = Some a /\ nao_NodeName a = wb_NodeName (wb_Spec b) /\ nao_ObservedAt a = now.

(** What may have become of a binding since it was read. *)
Definition since (now : time) (base current : VPNWorkloadBinding) : Prop :=
  wb_Meta current = wb_Meta base /\ wb_Spec current = wb_Spec base /\
  (wb_Status current = wb_Status base \/ touched now current).

Lemma pick_same {T} `{EqDecision T} (base updated : T) : pick base updated base = updated.
Proof. unfold pick. by case_decide. Qed.
Lemma pick_target {T} `{EqDecision T} (base updated : T) : pick base updated updated = updated.
Proof. unfold pick. by case_decide. Qed.

Lemma merge_agent_same base updated : merge_agent base updated base = updated.
Proof.
  destruct base as [b|], updated as [u|]; cbn; [|done..]. case_decide as E; [by rewrite E|].
  rewrite !pick_same. by destruct u.
Qed.

Lemma patched_unchanged base o now :
  patched base (observed_binding base o now) base = observed_binding base o now.
Proof.
  unfold patched, merge_status, with_binding_status, observed_binding. cbn [wb_Meta wb_Spec wb_Status].
  rewrite !pick_same, merge_agent_same. by destruct (observed_status base o now).
Qed.

Lemma patched_since o now base current :
  since now base current ->
  let m := patched base (observed_binding base o now) current in
  touched now m /\
  (wbs_AppliedGeneration (wb_Status m) = (if ob_Ready o then Generation (wb_Meta base) else 0) \/
   touched now current /\ wbs_AppliedGeneration (wb_Status m) = wbs_AppliedGeneration (wb_Status current)).
Proof.
  intros (Hm & Hs & [Hst|Ht]); cbv zeta.
  - assert (current = base) as ->. { destruct current, base. cbn in *. congruence. }
    rewrite patched_unchanged. split; [|by left]. split_and!; [done|done|]. by eexists.
  - destruct Ht as (Hp & Hg & a & Ha & Hn & Hat). unfold patched, merge_status, with_binding_status. cbn [wb_Meta wb_Spec wb_Status wbs_AppliedGeneration
      wbs_ObservedPodUID wbs_ObservedGatewayUID wbs_Agent observed_binding observed_status]. split.
    + unfold touched. cbn [wb_Spec wb_Status wbs_ObservedPodUID wbs_ObservedGatewayUID wbs_Agent].
      rewrite Hp, Hg, Hs, !pick_target. split_and!; [done|done|]. rewrite Ha. unfold merge_agent.
      destruct (wbs_Agent (wb_Status base)) as [b|]; [|by eexists].
      case_decide as E; [exists a; by rewrite <- Hs|]. eexists. split; [done|]. cbn. by rewrite Hn, Hat, Hs, !pick_target.
    + unfold pick. case_decide; [right; split; [split_and!; [done|done|by exists a]|done]|by left].
Qed.

Section Transaction.
Context (pod : AgentPod) (report : Report) (now : time).
(** The bindings as the transaction found them, and what its writes keep. *)
Context (before : gmap ObjectKey VPNWorkloadBinding) (good : ObjectKey -> VPNWorkloadBinding -> Prop).
Context (good_patched : forall o base current, o ∈ rep_Observations report -> authorized pod o base ->
  key_of (wb_Meta base) = observed_key o -> since now base current -> good (observed_key o) current ->
  good (observed_key o) (patched base (observed_binding base o now) current)).

(** Bindings are where they were, good ones, and those of other nodes as they
    were. *)
Definition bindings_ok (bindings : gmap ObjectKey VPNWorkloadBinding) : Prop :=
  map_Forall (fun key b => key_of (wb_Meta b) = key /\ good key b) bindings /\
  forall key, option_Forall2 (fun b0 b => wb_Meta b = wb_Meta b0 /\ wb_Spec b = wb_Spec b0 /\
    (wb_NodeName (wb_Spec b0) <> ap_NodeName pod -> b = b0)) (before !! key) (bindings !! key).

Definition worker_ok (bindings : gmap ObjectKey VPNWorkloadBinding) (w : worker) : Prop :=
  match w with
  | Idle | Exited => True
  | Reading o => o ∈ rep_Observations report
  | Writing o base updated =>
      o ∈ rep_Observations report /\ authorized pod o base /\ key_of (wb_Meta base) = observed_key o /\
      updated = observed_binding base o now /\
      exists current, bindings !! observed_key o = Some current /\ since now base current
  end.

Definition transaction_ok (tx : transaction) (w : Control) : Prop :=
  cl_clock w.1 = now /\ bindings_ok (cl_bindings w.1) /\ Forall (worker_ok (cl_bindings w.1)) (tx_workers tx) /\
  tx_pending tx ⊆ rep_Observations report.

(** The write of an authorized observation keeps the bindings in order. *)
Lemma patched_ok bindings o base current :
  bindings_ok bindings -> o ∈ rep_Observations report -> authorized pod o base -> key_of (wb_Meta base) = observed_key o ->
  bindings !! observed_key o = Some current -> since now base current ->
  bindings_ok (<[observed_key o := patched base (observed_binding base o now) current]> bindings).
Proof.
  intros [Hall Hbefore] Ho Hauth Hkey Hc Hsince. destruct (Hall _ _ Hc) as [Hk Hgood]. split.
  - apply map_Forall_insert_2; [|done]. split; [done|]. by apply good_patched.
  - destruct Hsince as (Hm & Hs & _). destruct Hauth as (_ & _ & _ & _ & _ & Hn & _).
    intros key. destruct (decide (key = observed_key o)) as [->|Hne]; [|by rewrite lookup_insert_ne].
    rewrite lookup_insert_eq. specialize (Hbefore (observed_key o)). rewrite Hc in Hbefore.
    destruct (before !! observed_key o) as [b0|]; [|by inversion Hbefore]. inversion Hbefore as [? ? (B1 & B2 & B3)|]; subst.
    constructor. split_and!; [exact B1|exact B2|]. intros Hother. exfalso. apply Hother. congruence.
Qed.

Lemma since_patched o base current base2 now' :
  since now' base current -> since now' base2 current ->
  since now' base2 (patched base (observed_binding base o now') current).
Proof.
  intros H1 (Hm & Hs & _). destruct (patched_since o now' base current H1) as [Ht _]. by split_and!; [..|right].
Qed.

Lemma worker_ok_patched bindings o base current w :
  bindings !! observed_key o = Some current -> since now base current -> worker_ok bindings w ->
  worker_ok (<[observed_key o := patched base (observed_binding base o now) current]> bindings) w.
Proof.
  intros Hc Hsince. destruct w as [|o2|o2 base2 updated2|]; cbn; [done|done| |done].
  intros (Ho2 & Ha2 & Hk2 & Hu2 & cur2 & Hc2 & Hs2). split_and!; try done.
  destruct (decide (observed_key o2 = observed_key o)) as [E|E].
  - rewrite E, lookup_insert_eq. eexists. split; [done|]. rewrite E, Hc in Hc2. injection Hc2 as <-. by apply since_patched.
  - rewrite lookup_insert_ne by congruence. eauto.
Qed.

(** A request of the transaction that only reads. *)
Lemma ok_faults tx c d f : transaction_ok tx (c, d) -> transaction_ok tx (set_faults f c, d).
Proof. done. Qed.

Lemma worker_lookup tx w i v : transaction_ok tx w -> tx_workers tx !! i = Some v -> worker_ok (cl_bindings w.1) v.
Proof. intros (_ & _ & Hw & _) Hi. by eapply Forall_lookup_1. Qed.

Lemma ok_set_worker i v tx w :
  transaction_ok tx w -> worker_ok (cl_bindings w.1) v -> transaction_ok (set_worker i v tx) w.
Proof. intros (Hc & Hb & Hw & Hp) Hv. split_and!; [done|done|by apply Forall_insert|done]. Qed.

Lemma make_move_ok m tx w :
  allowed m tx -> transaction_ok tx w ->
  wp (make_move pod report m tx) (fun answer w' => forall tx', answer = Ok tx' -> transaction_ok tx' w') w.
Proof.
  intros Hm Hok. destruct w as [c d]. destruct m; cbn [allowed make_move] in *.
  - wp_step. by intros ? [= <-].
  - do 2 wp_step. unfold wp, publisher_apply, control_publisher. cbn [fst snd].
    destruct (publisher_Apply _ _ _ _) as [[[]|e] nodes]; cbn; by intros ? [= <-].
  - destruct Hm as (Hc & Hi & Hp). destruct (tx_pending tx) as [|o pending] eqn:Ep; [done|]. wp_step. intros ? [= <-].
    destruct Hok as (Hck & Hb & Hw & Hsub). rewrite Ep in Hsub. split_and!; [done|done| |set_solver].
    apply Forall_insert; [done|]. cbn. set_solver.
  - wp_step. by intros ? [= <-].
  - wp_step. by intros ? [= <-].
  - destruct Hm as (o & Hi). rewrite Hi. pose proof (worker_lookup _ _ _ _ Hok Hi) as Ho. cbn in Ho. do 2 wp_step.
    apply apply_read_spec; [intros e; wp_step; intros ? [= <-]; by apply (ok_set_worker i Exited)|].
    apply wp_on_cluster, (wp_read (fun c => cl_bindings c !! _) found); [done|intros f|intros f e];
      assert (transaction_ok tx (set_faults f c, d)) as Hf by (by apply ok_faults);
      (split; [intros e'; wp_step; intros ? [= <-]; by apply (ok_set_worker i Exited)|]).
    2: { intros _. wp_step. intros ? [= <-]. by apply (ok_set_worker i Idle). }
    destruct (cl_bindings c !! _) as [b|] eqn:Eb; cbn [found].
    2: { intros _. wp_step. intros ? [= <-]. by apply (ok_set_worker i Idle). }
    split; [intros _ _; wp_step; intros ? [= <-]; by apply (ok_set_worker i Idle)|].
    intros Hauth. wp_step. intros ? [= <-]. apply ok_set_worker; [done|]. cbn. pose proof Hok as (Hck & [Hall _] & _).
    split_and!; [done|done|by apply (Hall _ _ Eb)|unfold clock_now, control_clock; cbn in *; by rewrite Hck|].
    exists b. split; [exact Eb|]. split_and!; [done|done|by left].
  - destruct Hm as (o & base & updated & Hi). rewrite Hi. pose proof (worker_lookup _ _ _ _ Hok Hi) as Hw. cbn in Hw.
    destruct Hw as (Ho & Hauth & Hkey & -> & current & Hcur & Hsince). unfold apply_write. do 4 wp_step.
    assert (forall f, transaction_ok tx (set_bindings (<[observed_key o := patched base (observed_binding base o now) current]> (cl_bindings c)) (set_faults f c), d)) as Hact.
    { intros f. destruct Hok as (Hck & Hb & Hws & Hsub). split_and!; [done|by apply patched_ok| |done].
      eapply Forall_impl; [exact Hws|]. intros v Hv. by apply worker_ok_patched. }
    apply wp_on_cluster, wp_api_request; intros f; [| |intros e]; cbn beta zeta;
      change (key_of (wb_Meta (observed_binding base o now))) with (key_of (wb_Meta base));
      change (cl_bindings (set_faults f c)) with (cl_bindings c); rewrite ?Hkey, ?Hcur; cbn [fst snd]; intros.
    + do 2 wp_step. intros ? [= <-]. by apply (ok_set_worker i Idle).
    + destruct (IsNotFound _); do 2 wp_step; intros ? [= <-]; [by apply (ok_set_worker i Idle)|by apply (ok_set_worker i Exited)].
    + destruct (IsNotFound _); do 2 wp_step; intros ? [= <-]; [by apply (ok_set_worker i Idle)|by apply (ok_set_worker i Exited)].
  - wp_step. intros ? [= <-]. by apply (ok_set_worker i Exited).
Qed.

End Transaction.

(** ** Requests *)

Definition reads (w w' : Control) : Prop := exists f, w' = (set_faults f w.1, w.2).

Lemma wp_desk_request {A} (look : Desk -> res A) Q w :
  (forall w', reads w w' -> Q (look w.2) w') -> (forall w' e, reads w w' -> Q (Fail e) w') -> wp (desk_request look) Q w.
Proof.
  intros Hok Hfail. unfold wp, desk_request. destruct w as [c d]. cbn [fst snd].
  assert (reads (c, d) (c, d)) as Hrefl by (exists (cl_faults c); by destruct c).
  unfold api_request. destruct (cl_faults c) as [|[[e|e]|] rest]; cbn [fst snd];
    [by apply Hok|apply Hfail; by eexists|apply Hfail; by eexists|apply Hok; by eexists].
Qed.

Lemma reads_trans w1 w2 w3 : reads w1 w2 -> reads w2 w3 -> reads w1 w3.
Proof. intros [f ->] [f' ->]. by exists f'. Qed.

Lemma receive_spec authorization request w :
  wp (receive rl authorization request)
    (fun answer w' => reads w w' /\ forall pod report, answer = Ok (inr (pod, report)) -> current_agent rl pod) w.
Proof.
  assert (reads w w) as Hrefl by (exists (cl_faults w.1); by destruct w as [[] ?]).
  unfold receive. destruct (_ || _); [by wp_step|]. destruct (_ || _); [by wp_step|]. do 2 wp_step.
  eapply wp_mono; [apply wp_and; [apply authenticate_spec|]|].
  { instantiate (1 := fun _ w' => reads w w'). unfold authenticate. do 2 wp_step. apply wp_desk_request; [intros w1 H1|intros; by wp_step].
    cbv zeta. destruct (_ || _); [by wp_step|]. destruct (_ || _); [by wp_step|]. wp_step.
    apply wp_desk_request; [intros w2 H2|intros w2 e H2; by eapply reads_trans].
    assert (reads w w2) by by eapply reads_trans.
    destruct (found _) as [pod|e]; cbn [after]; [|done]. destruct (_ || _); by wp_step. }
  intros [pod|e] w1 [Hagent Hr]; [|by wp_step]. destruct (decodeStrict _) as [report|e]; [|by wp_step].
  destruct (_ || _); wp_step; [done|]. split; [done|]. intros ? ? [= <- <-]. by apply Hagent.
Qed.

Section Ends.
Context (pod : AgentPod) (report : Report) (c : Cluster) (d : Desk) (good : ObjectKey -> VPNWorkloadBinding -> Prop).
Context (good_patched : forall o base current, o ∈ rep_Observations report -> authorized pod o base ->
  key_of (wb_Meta base) = observed_key o -> since (cl_clock c) base current -> good (observed_key o) current ->
  good (observed_key o) (patched base (observed_binding base o (cl_clock c)) current)).
Context (all_good : map_Forall (fun key b => key_of (wb_Meta b) = key /\ good key b) (cl_bindings c)).
Notation ok := (transaction_ok pod report (cl_clock c) (cl_bindings c) good).

Lemma begin_ok : ok (begin report) (c, d).
Proof.
  split_and!; [done| | |done].
  - split; [done|]. intros key. cbn [fst]. destruct (cl_bindings c !! key); by constructor.
  - apply Forall_replicate. done.
Qed.

(** How a transaction ends. *)
Lemma transact_ok choices :
  wp (transact choices pod report) (fun answer w' => exists tx, answer = Ok tx /\
    (books report tx /\ ok tx w') /\ finished tx = true) (c, d).
Proof.
  apply (run_moves_inv pod report (fun tx w => books report tx /\ ok tx w)).
  - intros m tx w Ha [Hb Ht]. eapply wp_mono; [apply wp_and; [by apply make_move_books|by eapply make_move_ok]|].
    intros answer w' [H1 H2] tx' E. auto.
  - split; [apply begin_books|apply begin_ok].
  - done.
Qed.

Lemma applyReport_ok choices : wp (applyReport choices pod report) (fun _ w' => exists tx, ok tx w') (c, d).
Proof.
  unfold applyReport. wp_step. eapply wp_mono; [apply transact_ok|]. intros ? w' (tx & -> & [_ Hok] & _). cbn [after].
  destruct (tx_errs tx); wp_step; by exists tx.
Qed.

End Ends.

Lemma relay_serve_run choices authorization request w :
  relay_serve rl choices authorization request w =
  match receive rl authorization request w with
  | (Ok (inl status), w1) => (Ok status, w1)
  | (Ok (inr (pod, report)), w1) =>
      (applied ← io_try (applyReport choices pod report);
       mret (match applied with Ok _ => StatusNoContent | Fail _ => StatusForbidden end)) w1
  | (Fail e, w1) => (Fail e, w1)
  end.
Proof.
  unfold relay_serve. set (k := fun received : Z + AgentPod * Report => _). unfold mbind, io_bind.
  by destruct (receive rl authorization request w) as [[[status|[pod report]]|e] w1].
Qed.

(** *** One step *)

Lemma bindings_more log log' m : bindings_home log home m -> bindings_home (log ++ log') home m.
Proof. intros Hm. eapply map_Forall_impl; [exact Hm|]. intros key b [Hh Hv]. split; [done|]. by apply vouched_more. Qed.

Lemma told_worker log log' pod v : worker_told log pod v -> worker_told (log ++ log') pod v.
Proof.
  intros Hv o base updated E. destruct (Hv o base updated E) as (at_ & Hin & Hrest). exists at_. split; [|done]. apply elem_of_app. by left.
Qed.

(** A late merge patch takes each field from what is stored or from what is
    written. *)
Lemma patched_vouched log pod o at_ base current :
  (pod, o, at_) ∈ log -> authorized pod o base -> vouched log (observed_key o) (wb_Status current) ->
  vouched log (observed_key o) (wb_Status (patched base (observed_binding base o at_) current)).
Proof.
  intros Hin (Hu & Hg & H1' & Hp & Hgw & Hn & Hr) [Ha Hgt Ht]. unfold patched, merge_status, with_binding_status, pick.
  split; cbn [wb_Status wbs_AppliedGeneration wbs_ObservedGatewayUID wbs_Agent observed_binding observed_status].
  - case_decide; [done|]. destruct (ob_Ready o) eqn:Er; [right|by left]. exists pod, o, at_. split_and!; done.
  - case_decide; [done|]. right. exists pod, o, at_. split_and!; done.
  - assert (told log (observed_key o) (fun _ _ t => t = at_)) as Htold by by exists pod, o, at_.
    intros a. unfold merge_agent. destruct (wbs_Agent (wb_Status base)) as [b|]; [|intros [= <-]; by right].
    case_decide; [by apply Ht|]. intros [= <-]. cbn [nao_ObservedAt]. unfold pick. case_decide; [|by right].
    destruct (wbs_Agent (wb_Status current)) as [c|]; cbn [default]; [by apply Ht|by left].
Qed.

Lemma receive_inv authorization request w open log past : system_inv (mkSystem w open log past) ->
  system_inv (mkSystem (receive rl authorization request w).2 (open ++ opened (receive rl authorization request w).1) log (cl_bindings w.1 :: past)).
Proof.
  intros [Htidy Hpast Hopen Hlog]. pose proof (receive_spec authorization request w) as Hspec. unfold wp in Hspec.
  destruct (receive rl authorization request w) as [answer w1]. cbn [fst snd] in *. destruct Hspec as [[f ->] Hagent].
  split; cbn [sy_world sy_open sy_log sy_past] in *; [done| | |done].
  - intros m [->|Hm]%elem_of_cons; [apply Htidy|by apply Hpast].
  - intros pod report tx [Hin|Hin]%elem_of_app; [by apply (Hopen pod report)|].
    destruct answer as [[status|[pod' report']]|e]; cbn in Hin; [by apply elem_of_nil in Hin| |by apply elem_of_nil in Hin].
    apply list_elem_of_singleton in Hin as [= -> -> ->]. split; [by apply (Hagent pod' report')|]. apply Forall_replicate. by intros ???.
Qed.

(** What one move does, whatever else is going on. *)
Lemma make_move_told log pod report m tx c d :
  allowed m tx -> tidy log home c -> Forall (worker_told log pod) (tx_workers tx) -> current_agent rl pod ->
  wp (make_move pod report m tx) (fun answer w' => forall tx', answer = Ok tx' ->
    let log' := log ++ taken pod m tx' (cl_clock c) in
    tidy log' home w'.1 /\ Forall (worker_told log' pod) (tx_workers tx') /\ Forall entry_home (taken pod m tx' (cl_clock c))) (c, d).
Proof.
  intros Hm Htidy Hworkers Hagent.
  assert (forall v i c', worker_told log pod v -> tidy log home c' ->
    tidy (log ++ []) home c' /\ Forall (worker_told (log ++ []) pod) (<[i := v]> (tx_workers tx)) /\ Forall entry_home []) as Hquiet.
  { intros v i c' Hv Hc'. rewrite app_nil_r. split_and!; [done|by apply Forall_insert|constructor]. }
  destruct m; cbn [allowed make_move] in *.
  - wp_step. intros ? [= <-]. cbn. rewrite app_nil_r. by split_and!.
  - do 2 wp_step. unfold wp, publisher_apply, control_publisher. cbn [fst snd].
    destruct (publisher_Apply _ _ _ _) as [[[]|e] nodes]; cbn; intros ? [= <-]; cbn; rewrite app_nil_r; by split_and!.
  - destruct Hm as (Hcl & Hi & Hp). destruct (tx_pending tx) as [|o pending]; [done|]. wp_step. intros ? [= <-]. cbn [taken].
    by apply Hquiet.
  - wp_step. intros ? [= <-]. cbn. rewrite app_nil_r. by split_and!.
  - wp_step. intros ? [= <-]. cbn. rewrite app_nil_r. by split_and!.
  - destruct Hm as (o & Hi). rewrite Hi. do 2 wp_step.
    assert (forall v (w' : Control), w'.1 = c \/ (exists f, w'.1 = set_faults f c) -> match v with Writing _ _ _ => False | _ => True end ->
      let tx' := set_worker i v tx in forall log', log' = log ++ taken pod (Read i) tx' (cl_clock c) ->
      tidy log' home w'.1 /\ Forall (worker_told log' pod) (tx_workers tx') /\ Forall entry_home (taken pod (Read i) tx' (cl_clock c))) as Hread.
    { intros v w' Hw' Hv tx' log' ->. assert (tidy log home w'.1) as Htw by (destruct Hw' as [->|[f ->]]; done).
      assert (taken pod (Read i) tx' (cl_clock c) = []) as ->.
      { cbn. rewrite list_lookup_insert_eq by by eapply lookup_lt_Some. by destruct v. }
      cbn. apply Hquiet; [|done]. intros ??? ->. done. }
    apply apply_read_spec; [intros e; wp_step; intros ? [= <-]; apply (Hread Exited (c, d)); auto|].
    apply wp_on_cluster, (wp_read (fun c => cl_bindings c !! _) found); [done|intros f|intros f e];
      (split; [intros e'; wp_step; intros ? [= <-]; apply (Hread Exited (set_faults f c, d)); eauto|]).
    2: { intros _. wp_step. intros ? [= <-]. apply (Hread Idle (set_faults f c, d)); eauto. }
    destruct (cl_bindings c !! _) as [b|] eqn:Eb; cbn [found].
    2: { intros _. wp_step. intros ? [= <-]. apply (Hread Idle (set_faults f c, d)); eauto. }
    split; [intros _ _; wp_step; intros ? [= <-]; apply (Hread Idle (set_faults f c, d)); eauto|].
    intros Hauth. wp_step. intros ? [= <-]. cbn [taken tx_workers set_worker]. rewrite list_lookup_insert_eq by by eapply lookup_lt_Some.
    destruct (proj2 Htidy _ _ Eb) as [[Hkey Hhome] _]. split_and!.
    + destruct Htidy as [Hp Hb]. split; [done|]. by apply bindings_more.
    + apply Forall_insert; [eapply Forall_impl; [exact Hworkers|]; intros v; apply told_worker|].
      intros ? ? ? [= <- <- <-]. exists (cl_clock c). split_and!; [apply elem_of_app; right; by apply list_elem_of_singleton|done|done|done].
    + apply Forall_singleton. split; [done|]. cbn. destruct Hauth as (_ & _ & _ & Hpu & _ & Hn & _). unfold observed_key. by rewrite Hhome, Hpu, Hn.
  - destruct Hm as (o & base & updated & Hi). rewrite Hi. destruct (Forall_lookup_1 _ _ _ _ Hworkers Hi o base updated eq_refl) as (at_ & Hin & Hauth & Hkey & ->).
    assert (forall v, match v with Writing _ _ _ => False | _ => True end -> worker_told log pod v) as Hplain by (intros v Hv ??? ->; done).
    assert (forall f current, cl_bindings c !! observed_key o = Some current ->
      tidy log home (set_bindings (<[observed_key o := patched base (observed_binding base o at_) current]> (cl_bindings c)) (set_faults f c))) as Hact.
    { intros f current Hc. destruct (proj2 Htidy _ _ Hc) as [Hh Hv]. apply (tidy_insert log home (set_faults f c)); [done|done|]. by eapply patched_vouched. }
    unfold apply_write. do 4 wp_step.
    apply wp_on_cluster, wp_api_request; intros f; [| |intros e]; cbn beta zeta;
      change (key_of (wb_Meta (observed_binding base o at_))) with (key_of (wb_Meta base));
      change (cl_bindings (set_faults f c)) with (cl_bindings c); rewrite ?Hkey; cbn [fst snd]; intros.
    + destruct (cl_bindings c !! observed_key o) as [current|] eqn:Ec; cbn [fst snd]; [|destruct (IsNotFound _)]; do 2 wp_step;
        intros ? [= <-]; (apply Hquiet; [by apply Hplain|first [by apply Hact|done]]).
    + destruct (IsNotFound _); do 2 wp_step; intros ? [= <-]; (apply Hquiet; [by apply Hplain|first [by apply Hact|done]]).
    + destruct (cl_bindings c !! observed_key o) as [current|] eqn:Ec; cbn [fst snd]; destruct (IsNotFound e); do 2 wp_step;
        intros ? [= <-]; (apply Hquiet; [by apply Hplain|first [by apply Hact|done]]).
  - wp_step. intros ? [= <-]. cbn [taken]. apply Hquiet; [|done]. by intros ???.
Qed.

Lemma control_step_inv s s' : control_step s s' -> system_inv s -> system_inv s'.
Proof.
  intros Hstep Hinv. destruct Hstep as [fuel request c d open log past|request c d open log past|key b conditions c d open log past (m & Hm & Hb)
    |authorization request w open log past|i pod report tx m tx' w w' open log past Hi Hm Hmove|w w' open log past Hpods Hnew].
  4: by apply receive_inv.
  all: destruct Hinv as [Htidy Hpast Hopen Hlog]; cbn [sy_world sy_open sy_log sy_past fst snd] in *.
  all: assert (forall m0, m0 ∈ (cl_bindings _ :: past) -> bindings_home log home m0) as Hseen by (intros m0 [->|Hm0]%elem_of_cons; [apply Htidy|by apply Hpast]).
  - split; cbn; [by apply pod_Reconcile_tidy|done|done|done].
  - split; cbn; [by apply binding_Reconcile_tidy|done|done|done].
  - destruct (Hseen m Hm key b Hb) as [Hh Hv]. pose proof Hh as [Hkey _]. rewrite <- Hkey in Hh, Hv.
    split; cbn; [by apply apply_status_tidy|done|done|done].
  - destruct w as [c d]. cbn [fst snd] in *. pose proof (list_elem_of_lookup_2 _ _ _ Hi) as Hin. destruct (Hopen _ _ _ Hin) as [Hagent Hworkers].
    pose proof (make_move_told log pod report m tx c d (enabled_allowed _ _ Hm) Htidy Hworkers Hagent) as Hspec. unfold wp in Hspec. rewrite Hmove in Hspec.
    destruct (Hspec tx' eq_refl) as (Ht & Hw & He). split; cbn [sy_world sy_open sy_log sy_past].
    + done.
    + intros m0 Hm0. by apply bindings_more, Hseen.
    + intros pod0 report0 tx0 Hin0. apply list_elem_of_lookup in Hin0 as [j Hj]. apply list_lookup_insert_Some in Hj as [(_ & [= <- <- <-] & _)|[_ Hj]]; [done|].
      destruct (Hopen pod0 report0 tx0) as [Ha Hf]; [by eapply list_elem_of_lookup_2|]. split; [done|].
      eapply Forall_impl; [exact Hf|]. intros v. apply told_worker.
    + by apply Forall_app.
  - split; cbn [sy_world sy_open sy_log sy_past]; [|done|done|done]. split; [done|]. intros key b Hb. destruct (Hnew key b Hb) as [Hh Hr]. split; [done|].
    eapply recalled_vouched; [|exact Hr]. intros v (b0 & (m & Hm & Hb0) & ->). by apply (Hseen m Hm key b0).
Qed.

(** Before the first report no binding has a status, and Pods and bindings are
    where they belong. *)
Definition control_initial (s : system) : Prop :=
  sy_log s = [] /\ sy_open s = [] /\ sy_past s = [] /\ pods_home home (cl_pods (sy_world s).1) /\
  map_Forall (fun key b => at_home home key b /\ wb_Status b = mkVPNWorkloadBindingStatus 0 0 "" "" None []) (cl_bindings (sy_world s).1).

Lemma reachable_system_inv s0 s : control_initial s0 -> rtc control_step s0 s -> system_inv s.
Proof.
  intros (Hlog & Hopen & Hpast & Hpods & Hall) Hsteps.
  assert (system_inv s0) as Hs0.
  { split; rewrite ?Hlog, ?Hopen, ?Hpast.
    - split; [done|]. eapply map_Forall_impl; [exact Hall|]. intros key b [Hh Hs]. split; [done|]. rewrite Hs. apply blank_vouched.
    - intros m Hm. by apply elem_of_nil in Hm.
    - intros pod report tx Hin. by apply elem_of_nil in Hin.
    - constructor. }
  clear Hlog Hopen Hpast Hpods Hall. induction Hsteps as [|s1 s2 s3 Hstep _ IH]; [done|]. apply IH. by eapply control_step_inv.
Qed.

(** The relay was told this of the binding, by a current agent of its own node
    and for its own Pod. *)
Definition told_by_node (log : list entry) (key : ObjectKey) (b : VPNWorkloadBinding) (P : Observation -> time -> Prop) : Prop :=
  told log key (fun pod o at_ => current_agent rl pod /\ ap_NodeName pod = wb_NodeName (wb_Spec b) /\
    ob_PodUID o = lur_UID (wb_PodRef (wb_Spec b)) /\ P o at_).



(** ** Acknowledged reports *)

(** The binding carries exactly what the agent observed. *)
Definition carries (pod : AgentPod) (o : Observation) (now : time) (b : VPNWorkloadBinding) : Prop :=
  let status := wb_Status b in
  authorized pod o b /\ wbs_AppliedGeneration status = (if ob_Ready o then ob_Generation o else 0) /\
  wbs_ObservedPodUID status = ob_PodUID o /\ wbs_ObservedGatewayUID status = ob_GatewayUID o /\
  wbs_Agent status = Some (mkNodeAgentObservation (ap_NodeName pod) (ob_NodeBootID o) (ob_InstanceID o) now).

(** The observation is in the status, or there is nothing left to tell. *)
Definition acknowledged (pod : AgentPod) (now : time) (bindings : gmap ObjectKey VPNWorkloadBinding) (o : Observation) : Prop :=
  forall b, bindings !! observed_key o = Some b ->
    UID (wb_Meta b) = ob_BindingUID o /\ (ob_Generation o < Generation (wb_Meta b) \/ carries pod o now b).

Lemma carries_observed pod o now base : authorized pod o base -> carries pod o now (observed_binding base o now).
Proof.
  intros Hauth. pose proof Hauth as (Hu & Hg & H1' & Hp & Hgw & Hn & Hr). split; [done|].
  cbn. rewrite Hg, Hp, Hgw, Hn. done.
Qed.

(** Two workers, or a worker and a settled observation, are about different
    bindings if the report is. *)
Lemma in_flight_distinct (workers : list worker) i j v v' o o' :
  NoDup (observed_key <$> omap in_flight workers) -> i <> j -> workers !! i = Some v -> workers !! j = Some v' ->
  in_flight v = Some o -> in_flight v' = Some o' -> observed_key o <> observed_key o'.
Proof.
  revert i j. induction workers as [|x workers IH]; [done|]. cbn [omap list_omap]. intros i j Hnd Hij Hi Hj Ho Ho'.
  assert (forall k u q, workers !! k = Some u -> in_flight u = Some q -> observed_key q ∈ observed_key <$> omap in_flight workers) as Hmem.
  { intros k u q Hk Hq. apply list_elem_of_fmap. exists q. split; [done|]. apply list_elem_of_omap. exists u. split; [by eapply list_elem_of_lookup_2|done]. }
  assert (NoDup (observed_key <$> omap in_flight workers)) as Hnd'.
  { destruct (in_flight x); [|done]. cbn in Hnd. by apply NoDup_cons in Hnd as [_ ?]. }
  destruct i as [|i], j as [|j]; [done| | |by eapply (IH i j); [|congruence|..]]; cbn in Hi, Hj.
  - injection Hi as ->. rewrite Ho in Hnd. apply NoDup_cons in Hnd as [Hnin _]. intros E. apply Hnin. rewrite E. by eapply Hmem.
  - injection Hj as ->. rewrite Ho' in Hnd. apply NoDup_cons in Hnd as [Hnin _]. intros E. apply Hnin. rewrite <- E. by eapply Hmem.
Qed.

Section Acknowledged.
Context (pod : AgentPod) (report : Report) (now : time) (d0 : Desk).
Context (distinct : NoDup (observed_key <$> rep_Observations report)).

Definition published (w : Control) (d : Desk) (answer : res unit) : Prop :=
  publisher_Apply publisher pod (rep_Node report) (mkApi (api_objs (dk_nodes d)) (api_env (dk_nodes d)) now) = (answer, dk_nodes w.2).

Definition writing_now (bindings : gmap ObjectKey VPNWorkloadBinding) (v : worker) : Prop :=
  forall o base updated, v = Writing o base updated ->
    authorized pod o base /\ updated = observed_binding base o now /\ key_of (wb_Meta base) = observed_key o /\
    bindings !! observed_key o = Some base.

Definition acknowledging (tx : transaction) (w : Control) : Prop :=
  cl_clock w.1 = now /\ honest (cl_faults w.1) /\ map_Forall (fun key b => key_of (wb_Meta b) = key) (cl_bindings w.1) /\
  (tx_node tx = false -> w.2 = d0) /\
  (tx_errs tx = [] -> books report tx /\ Forall (acknowledged pod now (cl_bindings w.1)) (tx_settled tx) /\
     Forall (writing_now (cl_bindings w.1)) (tx_workers tx) /\ (tx_node tx = true -> published w d0 (Ok tt))).

Lemma distinct_books tx :
  books report tx -> tx_errs tx = [] ->
  NoDup (observed_key <$> tx_settled tx ++ tx_pending tx ++ omap in_flight (tx_workers tx)).
Proof. intros Hb He. by rewrite <- (books_all _ _ Hb He). Qed.

(** A worker's step that leaves the bindings alone. *)
Lemma ack_worker i v tx w :
  acknowledging tx w -> writing_now (cl_bindings w.1) v -> (tx_errs tx = [] -> books report (set_worker i v tx)) ->
  acknowledging (set_worker i v tx) w.
Proof.
  intros (Hc & Hh & Hk & Hd & Hall) Hv Hb. split_and!; [done..|]. intros He. destruct (Hall He) as (_ & Hs & Hw & Hn).
  split_and!; [by apply Hb|done|by apply Forall_insert|done].
Qed.

Lemma ack_failed i e tx w : acknowledging tx w -> acknowledging (worker_failed i e tx) w.
Proof. intros (Hc & Hh & Hk & Hd & _). split_and!; [done..|]. intros He. by apply app_eq_nil in He as [_ ?]. Qed.

Lemma ack_faults f tx c d : honest f -> acknowledging tx (c, d) -> acknowledging tx (set_faults f c, d).
Proof. intros Hf (Hc & _ & Hk & Hd & Hall). by split_and!. Qed.

Lemma ack_settled i v o tx w :
  acknowledging tx w -> tx_workers tx !! i = Some v -> in_flight v = Some o -> acknowledged pod now (cl_bindings w.1) o ->
  acknowledging (settle o (set_worker i Idle tx)) w.
Proof.
  intros (Hc & Hh & Hk & Hd & Hall) Hi Ho Hack. split_and!; [done..|]. intros He. destruct (Hall He) as (Hb & Hs & Hw & Hn).
  split_and!; [by eapply settle_books| |by apply Forall_insert|done]. apply Forall_app. split; [done|]. by apply Forall_singleton.
Qed.

(** The write of a worker's observation, as long as nothing failed. *)
Lemma ack_written i o base tx c d f :
  acknowledging tx (c, d) -> tx_errs tx = [] -> honest f ->
  tx_workers tx !! i = Some (Writing o base (observed_binding base o now)) ->
  authorized pod o base -> key_of (wb_Meta base) = observed_key o ->
  acknowledging (settle o (set_worker i Idle tx))
    (set_bindings (<[observed_key o := observed_binding base o now]> (cl_bindings c)) (set_faults f c), d).
Proof.
  intros (Hc & _ & Hk & Hd & Hall) He Hf Hi Hauth Hkey. destruct (Hall He) as (Hb & Hs & Hw & Hn).
  pose proof (distinct_books tx Hb He) as Hnd. rewrite !fmap_app in Hnd. apply NoDup_app in Hnd as (_ & Hsep & (_ & _ & Hfl)%NoDup_app).
  assert (observed_key o ∈ observed_key <$> omap in_flight (tx_workers tx)) as Hin.
  { apply list_elem_of_fmap. exists o. split; [done|]. apply list_elem_of_omap. eexists. split; [by eapply list_elem_of_lookup_2|done]. }
  split_and!; [done|done|by apply map_Forall_insert_2|done|]. intros _. split_and!; [by eapply settle_books| | |exact Hn].
  - apply Forall_app. split.
    + apply Forall_forall. intros o' Ho' b. cbn. rewrite lookup_insert_ne; [by apply (proj1 (Forall_forall _ _) Hs o' Ho')|].
      intros E. apply (Hsep (observed_key o')); [apply list_elem_of_fmap; by exists o'|]. rewrite <- E. apply elem_of_app. by right.
    + apply Forall_singleton. intros b. cbn. rewrite lookup_insert_eq. intros [= <-]. split; [by apply Hauth|]. right.
      by apply carries_observed.
  - apply Forall_lookup. intros j v Hj o2 base2 updated2 ->. cbn in Hj. apply list_lookup_insert_Some in Hj as [(_ & ? & _)|[Hne Hj]]; [done|].
    destruct (Forall_lookup_1 _ _ _ _ Hw Hj o2 base2 updated2 eq_refl) as (A2 & U2 & K2 & B2). split_and!; [done..|].
    cbn. rewrite lookup_insert_ne; [done|]. by eapply (in_flight_distinct _ i j); [exact Hfl|done|exact Hi|exact Hj|..].
Qed.

(** Once something failed, a write may do what it likes to a status. *)
Lemma ack_after_error tx base updated owner c d :
  acknowledging tx (c, d) ->
  wp (k8s_PatchStatus base updated owner) (fun _ w' => forall tx', tx_errs tx' <> [] -> tx_node tx' = tx_node tx -> acknowledging tx' w') (c, d).
Proof.
  intros (Hc & Hh & Hk & Hd & _).
  assert (forall c' tx', cl_clock c' = now -> honest (cl_faults c') -> map_Forall (fun key b => key_of (wb_Meta b) = key) (cl_bindings c') ->
    tx_errs tx' <> [] -> tx_node tx' = tx_node tx -> acknowledging tx' (c', d)) as Hvac.
  { intros c' tx' H1 H2 H3 Hne Hnode. split_and!; [done..|by rewrite Hnode|done]. }
  apply wp_on_cluster, wp_honest_request; [done|intros f Hf|intros f e Hf Hne; intros; by apply Hvac|intros f e Hf Hne];
    cbn beta zeta; change (cl_bindings (set_faults f c)) with (cl_bindings c);
    (destruct (cl_bindings c !! key_of (wb_Meta updated)) as [cur|] eqn:Ec; cbn [fst snd]; intros; apply Hvac; try done);
    (apply map_Forall_insert_2; [exact (Hk _ _ Ec)|done]).
Qed.

Lemma make_move_ack m tx w :
  allowed m tx -> acknowledging tx w ->
  wp (make_move pod report m tx) (fun answer w' => forall tx', answer = Ok tx' -> acknowledging tx' w') w.
Proof.
  intros Hm Hack. pose proof Hack as (Hc & Hh & Hk & Hd & Hall). destruct w as [c d]. cbn [fst snd] in *.
  assert (forall tx1, make_move pod report m tx (c, d) = (Ok tx1, (c, d)) -> tx_errs tx = [] -> books report tx1) as Hbooks.
  { intros tx1 E He. destruct (Hall He) as [Hb _]. pose proof (make_move_books pod report m tx (c, d) Hm Hb) as H3.
    unfold wp in H3. rewrite E in H3. by apply H3. }
  destruct m; cbn [allowed make_move] in *.
  - wp_step. intros ? [= <-]. split_and!; [done..|]. intros He. destruct (Hall He) as (_ & Hs & Hw & Hn). split_and!; [by apply Hbooks|done..].
  - do 2 wp_step. unfold wp, publisher_apply, control_publisher. cbn [fst snd].
    destruct (publisher_Apply publisher pod (rep_Node report) _) as [answer nodes] eqn:Ep. specialize (Hd Hm). subst d.
    destruct answer as [[]|e]; intros ? [= <-]; (split_and!; [done..|]).
    + intros He. destruct (Hall He) as (Hb & Hs & Hw & Hn). split_and!; [|done..|].
      * destruct Hb as [B1 B2 B3 B4]. by split.
      * intros _. unfold published. cbn [fst snd dk_nodes]. by rewrite <- Hc.
    + intros He. by apply app_eq_nil in He as [_ ?].
  - destruct Hm as (Hcl & Hi & Hp). destruct (tx_pending tx) as [|o pending] eqn:Ep; [done|]. wp_step. intros ? [= <-].
    split_and!; [done..|]. intros He. destruct (Hall He) as (_ & Hs & Hw & Hn). split_and!; [by apply Hbooks|done| |done].
    by apply Forall_insert.
  - wp_step. intros ? [= <-]. split_and!; [done..|]. intros He. destruct (Hall He) as (_ & Hs & Hw & Hn). split_and!; [by apply Hbooks|done..].
  - wp_step. intros ? [= <-]. split_and!; [done..|]. intros He. destruct (Hall He) as (_ & Hs & Hw & Hn). split_and!; [by apply Hbooks|done..].
  - destruct Hm as (o & Hi). clear Hbooks. rewrite Hi. do 2 wp_step.
    apply apply_read_spec; [intros e; wp_step; intros ? [= <-]; by apply ack_failed|].
    apply wp_on_cluster, wp_honest_request; [done|intros f Hf|intros f e Hf He|intros f e Hf He];
      assert (acknowledging tx (set_faults f c, d)) as Hackf by (by apply ack_faults);
      (split; [intros e'; wp_step; intros ? [= <-]; by apply ack_failed|]); [|by rewrite He..].
    change (cl_bindings (set_faults f c)) with (cl_bindings c). cbn [fst snd].
    destruct (cl_bindings c !! mkObjectKey (ob_BindingNamespace o) (ob_BindingName o)) as [b|] eqn:Eb; cbn [found].
    2: { intros _. wp_step. intros ? [= <-]. eapply ack_settled; [done|done|done|]. intros b. cbn. unfold observed_key. by rewrite Eb. }
    split.
    + intros Hu Hg. wp_step. intros ? [= <-]. eapply ack_settled; [done|done|done|]. intros b'. cbn. unfold observed_key.
      rewrite Eb. intros [= <-]. auto.
    + intros Hauth. wp_step. intros ? [= <-]. apply ack_worker; [done| |].
      * intros ? ? ? [= <- <- <-]. split_and!; [done| |by apply Hk|done]. unfold clock_now, control_clock. cbn. by rewrite Hc.
      * intros He. apply writing_books; [by apply Hall|done].
  - destruct Hm as (o & base & updated & Hi). clear Hbooks. rewrite Hi. unfold apply_write. do 4 wp_step.
    destruct (decide (tx_errs tx = [])) as [He|He].
    2: { wp_with ack_after_error; [done|]. intros answer w' Hvac.
         destruct answer as [[]|e]; [|destruct (IsNotFound e)]; do 2 wp_step; intros ? [= <-]; apply Hvac; cbn; try done.
         by destruct (tx_errs tx). }
    destruct (Hall He) as (Hb & Hs & Hw & Hn).
    destruct (Forall_lookup_1 _ _ _ _ Hw Hi o base updated eq_refl) as (Hauth & -> & Hkey & Hbase).
    assert (forall f, honest f -> acknowledging (settle o (set_worker i Idle tx))
      (set_bindings (<[observed_key o := observed_binding base o now]> (cl_bindings c)) (set_faults f c), d)) as Hwritten.
    { intros f Hf. by apply ack_written. }
    apply wp_on_cluster, wp_honest_request; [done|intros f Hf|intros f e Hf Hne|intros f e Hf Hne]; cbn beta zeta;
      change (key_of (wb_Meta (observed_binding base o now))) with (key_of (wb_Meta base));
      change (cl_bindings (set_faults f c)) with (cl_bindings c); rewrite ?Hkey, ?Hbase, ?patched_unchanged; cbn [fst snd].
    + do 2 wp_step. intros ? [= <-]. by apply Hwritten.
    + rewrite Hne. do 2 wp_step. intros ? [= <-]. apply ack_failed. by apply ack_faults.
    + rewrite Hne. do 2 wp_step. intros ? [= <-]. destruct (Hwritten f Hf) as (A1 & A2 & A3 & A4 & _). split_and!; [done..|].
      intros Hx. by apply app_eq_nil in Hx as [_ ?].
  - wp_step. intros ? [= <-]. apply ack_worker; [done|done|]. intros He. by apply Hbooks.
Qed.

End Acknowledged.

(** C19: An acknowledged report is on record.  For a report that names each
    binding at most once, and failures that do not pretend that an object is
    missing, every schedule of the workers ends.  If it ends without an error,
    so that the relay answers 204, the node's capability was published as
    reported, and unless the request itself was cancelled every single
    observation was settled: its binding is gone, has moved on to a later
    generation, or carries exactly what the agent observed and when. *)
Theorem acknowledged_report_recorded choices pod report c d :
  NoDup (observed_key <$> rep_Observations report) -> honest (cl_faults c) ->
  map_Forall (fun key b => key_of (wb_Meta b) = key) (cl_bindings c) ->
  wp (transact choices pod report) (fun answer w' => exists tx, answer = Ok tx /\ finished tx = true /\
    (tx_errs tx = [] -> published pod report (cl_clock c) w' d (Ok tt) /\
      (tx_cancelled tx = false -> Forall (acknowledged pod (cl_clock c) (cl_bindings w'.1)) (rep_Observations report)))) (c, d).
Proof.
  intros Hnd Hh Hk. eapply wp_mono; [apply (run_moves_inv pod report (acknowledging pod report (cl_clock c) d))|].
  - intros m tx w Ha Hack. by apply make_move_ack.
  - split_and!; [done..|]. intros _. split_and!; [apply begin_books|done|by apply Forall_replicate|done].
  - done.
  - intros answer w' (tx & -> & (_ & _ & _ & _ & Hall) & Hf). exists tx. split_and!; [done|done|]. intros He.
    destruct (Hall He) as (Hb & Hs & _ & Hn). destruct (finished_books _ _ Hb Hf) as (Hnode & _ & _ & Hset).
    split; [by apply Hn|]. intros Hcan. by rewrite (Hset He Hcan).
Qed.

End Control.

(** ** Runs *)

Module RelaySample.
Import NodeSample.

#[local] Existing Instance first_condition.

(** A binding that nothing was reported of yet, on the node of the agent. *)
Definition unreported (b : VPNWorkloadBinding) : VPNWorkloadBinding :=
  with_binding_status (mkVPNWorkloadBindingStatus 0 0 "" "" None []) b.
Definition binding : VPNWorkloadBinding := unreported BindingSample.binding.
Definition binding_key : ObjectKey := mkObjectKey "media" "pod-x".

Definition observation (ready : bool) : Observation :=
  mkObservation "media" "pod-x" "binding-uid" 1 "pod-uid" "gw-uid" "node-a" "boot" "instance" start ready.
Definition report (ready : bool) : Report := mkReport ReportAPIVersion (ready_report start true) [observation ready].

(** The body of a request names the report. *)
#[local] Instance reports : Json Report := {|
  Marshal _ := None;
  Decode s := if String.eqb s "ready" then Some (report true, "")
              else if String.eqb s "unready" then Some (report false, "") else None
|}.

Definition relay : Relay := mkRelay "waycloak-system" "node-agent".
Definition agent_pod : AgentPod :=
  mkAgentPod (mkObjectMeta "waycloak-system" "agent" "agent-uid" 1 None {["app.kubernetes.io/component" := "node-agent"]} ∅ [] [])
    "node-a" "node-agent".
Definition token_status : TokenReviewStatus :=
  mkTokenReviewStatus true [kubernetesAudience] "system:serviceaccount:waycloak-system:node-agent"
    {["authentication.kubernetes.io/pod-name" := ["agent"]; "authentication.kubernetes.io/pod-uid" := ["agent-uid"]]}.
Definition desk : Desk :=
  mkDesk {[mkObjectKey "waycloak-system" "agent" := agent_pod]} {["secret" := token_status]} (NodeSample.world start start).
Definition cluster (b : VPNWorkloadBinding) (now : time) : Cluster := mkCluster ∅ ∅ ∅ {[binding_key := b]} ∅ [] now.
Definition reconciler : VPNWorkloadBindingReconciler := mkVPNWorkloadBindingReconciler 0 0.

#[local] Instance node_publisher : NodePublisher Control := control_publisher publisher.

Definition post (body : string) : HttpRequest := mkHttpRequest MethodPost "" ReportPath "" "application/json" body.
Definition first (n : nat) : nat := O.

(** *** Two reports that overlap *)

#[local] Instance move_eq_dec : EqDecision move.
Proof. solve_decision. Defined.

(** The binding is for this Pod, on this node. *)
Definition home (key : ObjectKey) : string * string := ("pod-uid", "node-a").

Notation sample_step := (control_step reconciler relay publisher home).

Definition take (body : string) (s : system) : system :=
  let received := receive relay "Bearer secret" (post body) (sy_world s) in
  mkSystem received.2 (sy_open s ++ opened received.1) (sy_log s) (cl_bindings (sy_world s).1 :: sy_past s).

Definition tick (s : system) : system :=
  let c := (sy_world s).1 in
  mkSystem (mkCluster ∅ ∅ ∅ (cl_bindings c) ∅ [] (cl_clock c + Second), (sy_world s).2) (sy_open s) (sy_log s) (cl_bindings c :: sy_past s).

Definition go (i : nat) (m : move) (s : system) : system :=
  match sy_open s !! i with
  | Some (pod, report, tx) =>
      match make_move pod report m tx (sy_world s) with
      | (Ok tx', w') => mkSystem w' (<[i := (pod, report, tx')]> (sy_open s)) (sy_log s ++ taken pod m tx' (cl_clock (sy_world s).1))
                          (cl_bindings (sy_world s).1 :: sy_past s)
      | (Fail _, _) => s
      end
  | None => s
  end.
Definition can_go (i : nat) (m : move) (s : system) : bool :=
  match sy_open s !! i with Some (_, _, tx) => bool_decide (m ∈ enabled tx) | None => false end.

Lemma go_step i m s s1 : can_go i m s1 = true -> rtc sample_step s s1 -> rtc sample_step s (go i m s1).
Proof.
  intros Hc Hs. transitivity s1; [exact Hs|]. destruct s1 as [w open log past]. unfold can_go, go in *. cbn [sy_open sy_world sy_log sy_past] in *.
  destruct (open !! i) as [[[pod report] tx]|] eqn:Ei; [|done]. apply bool_decide_eq_true in Hc.
  destruct (make_move pod report m tx w) as [[tx'|e] w'] eqn:Em; [|done]. apply rtc_once. by eapply control_move.
Qed.

Lemma take_step body s s1 : rtc sample_step s s1 -> rtc sample_step s (take body s1).
Proof. intros Hs. eapply rtc_r; [exact Hs|]. destruct s1 as [w open log past]. apply control_receive. Qed.

(** The clock moves, while nothing else is done. *)
Lemma tick_step s s1 : bindings_home (sy_log s1) home (cl_bindings (sy_world s1).1) -> rtc sample_step s s1 -> rtc sample_step s (tick s1).
Proof.
  intros Hh Hs. eapply rtc_r; [exact Hs|]. destruct s1 as [w open log past]. apply control_env; [apply map_Forall_empty|].
  intros key b Hb. cbn [fst cl_bindings] in Hb. destruct (Hh key b Hb) as [Ha _]. split; [done|].
  assert (seen key (cl_bindings w.1) past b) as Hseen by (exists (cl_bindings w.1); split; [left|done]).
  split_and!; right; exists (wb_Status b); (split; [|done]); by exists b.
Qed.

(** The first report says ready, the second, later one, that the path is locked
    down; both have read the binding before either writes. *)
Definition s0 : system := mkSystem (cluster binding start, desk) [] [] [].
Definition s1 : system := take "unready" (take "ready" s0).
Definition s2 : system := go 0 (Read 0) (go 0 (Send 0) s1).
Definition s3 : system := go 1 (Read 0) (go 1 (Send 0) (tick s2)).
Definition s4 : system := go 1 (Write 0) (go 0 (Write 0) s3).
Definition binding4 : VPNWorkloadBinding := default binding (cl_bindings (sy_world s4).1 !! binding_key).

(** The status then has the generation of the first report and the time of the
    second, which the binding controller takes for a fresh confirmation. *)
Lemma stale_ready_survives :
  (fun b => (wbs_AppliedGeneration (wb_Status b), nao_ObservedAt <$> wbs_Agent (wb_Status b))) <$>
    cl_bindings (sy_world s4).1 !! binding_key = Some (1, Some (start + Second)).
Proof. vm_compute. reflexivity. Qed.

Lemma starts : control_initial home s0.
Proof. split_and!; try done. by apply map_Forall_singleton. Qed.

Lemma runs : rtc sample_step s0 s4.
Proof.
  assert (rtc sample_step s0 s2) as H2.
  { unfold s2, s1. do 2 (apply go_step; [vm_compute; reflexivity|]). do 2 apply take_step. apply rtc_refl. }
  unfold s4, s3. do 4 (apply go_step; [vm_compute; reflexivity|]). apply tick_step; [|exact H2].
  pose proof (reachable_system_inv reconciler relay publisher home s0 s2 starts H2) as [[_ Hh] _ _ _]. exact Hh.
Qed.

Lemma binding4_stored : cl_bindings (sy_world s4).1 !! binding_key = Some binding4.
Proof. vm_compute. reflexivity. Qed.

(** So it is published as ready for the whole lifetime of the second report. *)
Lemma binding4_ready :
  let status := (binding_desiredStatus reconciler binding4 (mkBindingGatewayObservation (mkState ConditionTrue ReasonAccepted "")
    (mkState ConditionTrue ReasonAccepted "")) (start + observationTTL reconciler)).1 in
  CurrentTrue (wbs_Conditions status) ConditionReady (wbs_ObservedGeneration status) (Generation (wb_Meta binding4)) = true.
Proof. vm_compute. reflexivity. Qed.


(** The same report about a binding of another node. *)
Definition foreign : VPNWorkloadBinding :=
  mkVPNWorkloadBinding (wb_Meta binding)
    (mkVPNWorkloadBindingSpec (wb_PodRef (wb_Spec binding)) (wb_RouteRef (wb_Spec binding)) (wb_GatewayRef (wb_Spec binding)) "node-b"
       (wb_Allocation (wb_Spec binding)) (wb_Network (wb_Spec binding))) (wb_Status binding).

Lemma authenticated : (receive relay "Bearer secret" (post "ready") (cluster foreign start, desk)).1 = Ok (inr (agent_pod, report true)).
Proof. vm_compute. reflexivity. Qed.


Lemma acknowledged_report_recorded_witness :
  wp (transact first agent_pod (report true)) (fun answer w' => exists tx, answer = Ok tx /\ finished tx = true /\
    (tx_errs tx = [] -> published publisher agent_pod (report true) start w' desk (Ok tt) /\
      (tx_cancelled tx = false -> Forall (acknowledged agent_pod start (cl_bindings w'.1)) [observation true])))
    (cluster binding start, desk).
Proof.
  apply (acknowledged_report_recorded publisher first agent_pod (report true) (cluster binding start) desk).
  - apply NoDup_singleton.
  - apply Forall_nil. done.
  - by apply map_Forall_singleton.
Defined.

(** The request is cancelled before its only observation is sent: nothing fails,
    the relay answers 204, and nothing was written. *)
Definition cancel_first (n : nat) : nat := match n with O => 2 | S O => 1 | _ => 0 end%nat.

Lemma cancelled_acknowledged :
  let served := relay_serve relay cancel_first "Bearer secret" (post "ready") (cluster binding start, desk) in
  (served.1, wb_Status <$> cl_bindings served.2.1 !! binding_key) = (Ok StatusNoContent, Some (wb_Status binding)).
Proof. vm_compute. reflexivity. Qed.

(** A report that says ready is read, the binding is deleted and a second report
    says that it is withdrawn; then the first one is written: the deleting
    binding is said to be applied again. *)
Definition withdrawn_binding : VPNWorkloadBinding := mark_deleted start (observed_binding binding (observation false) start).
Definition late_write : IO Control unit :=
  a ← make_move agent_pod (report true) (Send 0) (begin (report true));
  a ← make_move agent_pod (report true) (Read 0) a;
  ((fun w => make_move agent_pod (report true) (Write 0) a (cluster withdrawn_binding (cl_clock w.1), w.2)) : IO Control transaction) ;;
  mret tt.

Lemma withdrawal_reverted :
  withdrawalConfirmed reconciler withdrawn_binding start = true /\
  (fun b => (not_deleting (wb_Meta b), withdrawalConfirmed reconciler b start, wbs_AppliedGeneration (wb_Status b))) <$>
    cl_bindings (late_write (cluster binding start, desk)).2.1 !! binding_key = Some (false, false, 1).
Proof. by vm_compute. Qed.

End RelaySample.
