(* ===== verification/AgentProtocol.v ===== *)
(** * The local agent protocol (internal/nodeagent/handler.go, internal/cni/agent_client.go)

    The node agent's HTTP handler and the CNI plugin's client, over decoded
    messages: a message that does not decode, or that has trailing data, is
    [None].  The transport between them, with its socket, peer check and
    message authentication, is the interface [Transport]; the authentication
    itself is in ProtocolAuth.v. *)

From S2P Require Import Prelude Api Kube Http CniTypes CniPlugin NodeAgent.

Definition resolvePath : string := "/cni-node/v1/resolve".
Definition bindingPath : string := "/cni-node/v1/binding".
Definition preparePath : string := "/cni-node/v1/prepare".
Definition checkPath : string := "/cni-node/v1/check".
Definition withdrawPath : string := "/cni-node/v1/withdraw".
Definition statusPath : string := "/cni-node/v1/status".

Definition AgentErrorInvalidRequest : string := "InvalidRequest".
Definition AgentErrorPodIdentityMismatch : string := "PodIdentityMismatch".
Definition AgentErrorPodNotFound : string := "PodNotFound".
Definition AgentErrorBindingNotReady : string := "BindingNotReady".
Definition DeadlineExceeded : string := "context.DeadlineExceeded".

Record AgentRequest := mkAgentRequest {
  areq_APIVersion : string;
  areq_Pod : PodIdentity;
  areq_Binding : option Binding
}.

Record AgentError := mkAgentError {
  aerr_Code : string;
  aerr_Retryable : bool;
  aerr_Message : string
}.

Record AgentResponse := mkAgentResponse {
  aresp_APIVersion : string;
  aresp_Resolution : option CniTypes.Resolution;
  aresp_Binding : option Binding;
  aresp_Status : option AgentStatus;
  aresp_Error : option AgentError
}.

(** An HTTP status and the body, [None] when it is empty or no message. *)
Definition Reply : Type := Z * option AgentResponse.


(** ** The handler *)

Definition writeFailure (status : Z) (code : string) (retryable : bool) (message : string) : Reply :=
  (status, Some (mkAgentResponse AgentAPIVersion None None None (Some (mkAgentError code retryable message)))).

(** The loop over the identity errors runs in map order; they differ in the
    message only. *)
Definition writeServiceError (err : error) : Reply :=
  if errors_is err ErrBindingNotReady
  then writeFailure StatusConflict AgentErrorBindingNotReady true "Binding is not ready"
  else if errors_is err ErrPodLookupFailed then
    if IsNotFound err then writeFailure StatusNotFound AgentErrorPodNotFound false "Exact Kubernetes Pod is absent"
    else
      let message :=
        if IsForbidden err then "Kubernetes Pod read is unauthorized"
        else if IsUnauthorized err then "Kubernetes API identity is unauthorized"
        else if errors_is err DeadlineExceeded then "Kubernetes Pod observation timed out"
        else "Kubernetes Pod observation failed" in
      writeFailure StatusForbidden AgentErrorPodIdentityMismatch false message
  else
    let message :=
      if errors_is err ErrPodIdentityInvalid then "Pod identity is invalid"
      else if errors_is err ErrPodUIDMismatch then "Pod UID does not match API observation"
      else if errors_is err ErrPodNodeMismatch then "Pod node does not match local authority"
      else "Exact local authority check failed" in
    writeFailure StatusForbidden AgentErrorPodIdentityMismatch false message.

Definition no_content : Reply := (StatusNoContent, None).
Definition invalid_request (message : string) : Reply :=
  writeFailure StatusBadRequest AgentErrorInvalidRequest false message.

Section Handler.
Context {W : Type} `{Getter W Pod} `{Getter W VPNWorkloadBinding} `{Programmer W} `{AttachmentStore W} `{Clock W}.
Variable s : Service.
Variable publisher : option (Report -> IO W unit).

(** An operation of the service and the reply for its result. *)
Definition serve {A} (op : IO (SvcState * W) A) (reply : A -> Reply) : IO (SvcState * W) Reply :=
  r ← io_try op;
  mret (match r with Ok a => reply a | Fail err => writeServiceError err end).

Definition operation (kind : string) (body : option AgentRequest) : IO (SvcState * W) Reply :=
  match body with
  | None => mret (invalid_request "Local request is invalid")
  | Some input =>
      let with_binding op :=
        match areq_Binding input with
        | None => mret (invalid_request "Binding identity is required")
        | Some b => serve (op b) (fun _ => no_content)
        end in
      if negb (String.eqb (areq_APIVersion input) AgentAPIVersion)
      then mret (invalid_request "Local request is invalid")
      else if String.eqb kind "resolve" then
        serve (NodeAgent.Resolve s (areq_Pod input))
          (fun r => (StatusOK, Some (mkAgentResponse AgentAPIVersion (Some r) None None None)))
      else if String.eqb kind "binding" then
        serve (NodeAgent.Binding_ s (areq_Pod input))
          (fun b => (StatusOK, Some (mkAgentResponse AgentAPIVersion None (Some b) None None)))
      else if String.eqb kind "prepare" then with_binding (NodeAgent.Prepare s (areq_Pod input))
      else if String.eqb kind "check" then with_binding (NodeAgent.Check s (areq_Pod input))
      else serve (NodeAgent.Withdraw s publisher (areq_Pod input)) (fun _ => no_content)
  end.

Definition status_handler : IO (SvcState * W) Reply :=
  st ← get_state;
  mret (if str_empty (s_NodeName s) || negb (NodeAgent.Ready s st)
        then writeFailure StatusServiceUnavailable "AgentUnavailable" true "Node agent is not ready"
        else (StatusOK, Some (mkAgentResponse AgentAPIVersion None None (Some (NodeAgent.Status s st)) None))).

(** The mux; an unknown route answers in plain text. *)
Definition Handler (method path : string) (body : option AgentRequest) : IO (SvcState * W) Reply :=
  if String.eqb method "GET" && String.eqb path statusPath then status_handler
  else if String.eqb method "POST" then
    if String.eqb path resolvePath then operation "resolve" body
    else if String.eqb path bindingPath then operation "binding" body
    else if String.eqb path preparePath then operation "prepare" body
    else if String.eqb path checkPath then operation "check" body
    else if String.eqb path withdrawPath then operation "withdraw" body
    else mret (StatusNotFound, None)
  else mret (StatusNotFound, None).

End Handler.

(** ** The client *)

(** One authenticated exchange over the agent's socket. *)
Class Transport (W : Type) := exchange : string -> string -> option AgentRequest -> IO W Reply.

(** An [agentStatusError] with its reason, which is all that is read of it. *)
Definition agentStatusError (reason : string) : error := ESentinel ("agent status: " +:+ reason).
Definition isAgentError (err : error) (reason : string) : bool := errors_is err ("agent status: " +:+ reason).

Definition decodeAgentResponse (body : option AgentResponse) : res AgentResponse :=
  match body with
  | None => Fail (ENew "decode")
  | Some r => if String.eqb (aresp_APIVersion r) AgentAPIVersion then Ok r
              else Fail (ENew "local agent protocol version is unsupported")
  end.

Section Client.
Context {W : Type} `{Transport W}.
Variable SocketPath : string.

(** [call]; with [output] the decoded response of a success that has one. *)
Definition call (output : bool) (method path : string) (body : option AgentRequest) : IO W (option AgentResponse) :=
  if str_empty SocketPath then io_fail (ENew "local agent socket path is required")
  else
    reply ← io_wrap "call local agent" (exchange method path body);
    let '(status, responseBody) := reply in
    if (status <? 200) || (300 <=? status) then
      failure ← io_wrap "decode authenticated local protocol error" (io_lift (decodeAgentResponse responseBody));
      match aresp_Error failure with
      | Some e => if str_empty (aerr_Code e) || str_empty (aerr_Message e)
                  then io_fail (ENew "authenticated local protocol error omitted its stable code")
                  else io_fail (agentStatusError (aerr_Code e))
      | None => io_fail (ENew "authenticated local protocol error omitted its stable code")
      end
    else if negb output || (status =? StatusNoContent) then mret None
    else
      response ← io_wrap "decode local agent response" (io_lift (decodeAgentResponse responseBody));
      mret (Some response).

Definition client_Resolve (pod : PodIdentity) : IO W CniTypes.Resolution :=
  r ← io_try (call true "POST" resolvePath (Some (mkAgentRequest AgentAPIVersion pod None)));
  match r with
  | Fail err => if isAgentError err AgentErrorPodNotFound then io_fail (EWrap "" [ESentinel ErrPodNotFound])
                else io_fail err
  | Ok response =>
      match response ≫= aresp_Resolution with
      | Some resolution => mret resolution
      | None => io_fail (ENew "local agent omitted enrollment resolution")
      end
  end.

Definition client_Binding (pod : PodIdentity) : IO W Binding :=
  r ← io_try (call true "POST" bindingPath (Some (mkAgentRequest AgentAPIVersion pod None)));
  match r with
  | Fail err => if isAgentError err AgentErrorBindingNotReady then io_fail (ESentinel ErrBindingNotReady)
                else io_fail err
  | Ok response =>
      match response ≫= aresp_Binding with
      | Some binding => mret binding
      | None => io_fail (ESentinel ErrBindingNotReady)
      end
  end.

Definition client_unit (method path : string) (body : option AgentRequest) : IO W unit :=
  call false method path body ;; mret tt.

Definition client_Prepare (pod : PodIdentity) (binding : Binding) : IO W unit :=
  client_unit "POST" preparePath (Some (mkAgentRequest AgentAPIVersion pod (Some binding))).
Definition client_Check (pod : PodIdentity) (binding : Binding) : IO W unit :=
  client_unit "POST" checkPath (Some (mkAgentRequest AgentAPIVersion pod (Some binding))).
Definition client_Withdraw (pod : PodIdentity) : IO W unit :=
  client_unit "POST" withdrawPath (Some (mkAgentRequest AgentAPIVersion pod None)).
Definition client_Status : IO W unit := client_unit "GET" statusPath None.

(** The plugin's agent is this client. *)
#[export] Instance UnixAgentClient : Agent W := {
  agent_Resolve := client_Resolve;
  agent_Binding := client_Binding;
  agent_Prepare := client_Prepare;
  agent_Check := client_Check;
  agent_Withdraw := client_Withdraw;
  agent_Status := client_Status
}.

End Client.

(** ** Handler and client together *)

(** The code of a service error on the wire. *)
Definition wire_code (err : error) : string :=
  if errors_is err ErrBindingNotReady then AgentErrorBindingNotReady
  else if errors_is err ErrPodLookupFailed && IsNotFound err then AgentErrorPodNotFound
  else AgentErrorPodIdentityMismatch.

(** How a service error arrives at the caller of an operation. *)
Definition received {A} (special : string) (as_error : error) (r : res A) : res A :=
  match r with
  | Ok a => Ok a
  | Fail e => Fail (if String.eqb (wire_code e) special then as_error else agentStatusError (wire_code e))
  end.

Definition through {W A} (f : res A -> res A) (m : IO W A) : IO W A := fun w => let '(r, w') := m w in (f r, w').

Lemma writeServiceError_code err :
  exists status retryable message, writeServiceError err = writeFailure status (wire_code err) retryable message /\
    ((status <? 200) || (300 <=? status)) = true /\ str_empty message = false.
Proof.
  unfold writeServiceError, wire_code.
  destruct (errors_is err ErrBindingNotReady); [by do 3 eexists|]. destruct (errors_is err ErrPodLookupFailed); cbn [andb].
  - destruct (IsNotFound err); [by do 3 eexists|].
    destruct (IsForbidden err), (IsUnauthorized err), (errors_is err DeadlineExceeded); by do 3 eexists.
  - destruct (errors_is err ErrPodIdentityInvalid), (errors_is err ErrPodUIDMismatch), (errors_is err ErrPodNodeMismatch);
      by do 3 eexists.
Qed.

Section Direct.
Context {W : Type} `{Getter W Pod} `{Getter W VPNWorkloadBinding} `{Programmer W} `{AttachmentStore W} `{Clock W}.
Variable s : Service.
Variable publisher : option (Report -> IO W unit).

(** Every request reaches the handler and every reply comes back. *)
#[local] Instance direct : Transport (SvcState * W) := Handler s publisher.

Variable SocketPath : string.

(** The error of a failed operation, once received. *)
Lemma call_failure output method path body sw err sw' :
  SocketPath <> "" -> exchange method path body sw = (Ok (writeServiceError err), sw') ->
  call SocketPath output method path body sw = (Fail (agentStatusError (wire_code err)), sw').
Proof.
  intros Hs Hx. unfold call. destruct (str_empty SocketPath) eqn:E; [by apply str_empty_spec in E|].
  destruct (writeServiceError_code err) as (status & retryable & message & Hw & Hstatus & Hm). rewrite Hw in Hx.
  erewrite bind_run by (apply wrap_run; exact Hx). unfold writeFailure. cbv beta iota. rewrite Hstatus.
  erewrite bind_run by reflexivity. cbn [aresp_Error aerr_Code aerr_Message]. rewrite Hm, orb_false_r.
  replace (str_empty _) with false; [done|]. unfold wire_code.
  by destruct (errors_is err ErrBindingNotReady), (errors_is err ErrPodLookupFailed && IsNotFound err).
Qed.

Lemma call_success output method path body sw reply sw' :
  SocketPath <> "" -> exchange method path body sw = (Ok reply, sw') ->
  reply = no_content \/ (exists r, reply = (StatusOK, Some r) /\ aresp_APIVersion r = AgentAPIVersion) ->
  call SocketPath output method path body sw = (Ok (if output then reply.2 else None), sw').
Proof.
  intros Hs Hx Hr. unfold call. destruct (str_empty SocketPath) eqn:E; [by apply str_empty_spec in E|].
  erewrite bind_run by (apply wrap_run; exact Hx). destruct Hr as [->|(r & -> & Hv)].
  - cbn. by destruct output.
  - cbn -[AgentAPIVersion]. destruct output; cbn -[AgentAPIVersion]; [|done].
    unfold mbind, io_bind, io_wrap, io_lift, decodeAgentResponse. by rewrite Hv, String.eqb_refl.
Qed.

Lemma serve_run {A} (op : IO (SvcState * W) A) reply sw :
  serve op reply sw =
    match op sw with
    | (Ok a, sw') => (Ok (reply a), sw')
    | (Fail e, sw') => (Ok (writeServiceError e), sw')
    end.
Proof. unfold serve, mbind, io_bind, io_try, mret, io_ret. by destruct (op sw) as [[a|e] sw']. Qed.

(** The error of a unit operation: never one of the two special codes. *)
Lemma client_unit_through method path body (op : IO (SvcState * W) unit) sw :
  SocketPath <> "" -> exchange method path body sw = serve op (fun _ => no_content) sw ->
  client_unit SocketPath method path body sw = through (received "" (ENew "")) op sw.
Proof.
  intros Hs Hx. rewrite serve_run in Hx. unfold client_unit, through, mbind, io_bind.
  destruct (op sw) as [[[]|e] sw'].
  - erewrite call_success; [done|done|exact Hx|by left].
  - erewrite call_failure; [|done|exact Hx]. unfold received. f_equal. f_equal. unfold wire_code.
    by destruct (errors_is e ErrBindingNotReady), (errors_is e ErrPodLookupFailed && IsNotFound e).
Qed.

(** The agent as the plugin sees it is the service, up to the error values. *)
Lemma client_through pod b sw :
  SocketPath <> "" ->
  client_Resolve SocketPath pod sw =
    through (received AgentErrorPodNotFound (EWrap "" [ESentinel ErrPodNotFound])) (NodeAgent.Resolve s pod) sw /\
  client_Binding SocketPath pod sw =
    through (received AgentErrorBindingNotReady (ESentinel ErrBindingNotReady)) (NodeAgent.Binding_ s pod) sw /\
  client_Prepare SocketPath pod b sw = through (received "" (ENew "")) (NodeAgent.Prepare s pod b) sw /\
  client_Check SocketPath pod b sw = through (received "" (ENew "")) (NodeAgent.Check s pod b) sw /\
  client_Withdraw SocketPath pod sw = through (received "" (ENew "")) (NodeAgent.Withdraw s publisher pod) sw.
Proof.
  intros Hs. split_and!.
  - unfold client_Resolve, through, mbind, io_bind, io_try.
    pose proof (serve_run (NodeAgent.Resolve s pod)
      (fun r => (StatusOK, Some (mkAgentResponse AgentAPIVersion (Some r) None None None))) sw) as Hx.
    destruct (NodeAgent.Resolve s pod sw) as [[r|e] sw'].
    + erewrite call_success; [|done|exact Hx|right; by eexists]. reflexivity.
    + erewrite call_failure; [|done|exact Hx]. unfold received, wire_code.
      by destruct (errors_is e ErrBindingNotReady), (errors_is e ErrPodLookupFailed && IsNotFound e).
  - unfold client_Binding, through, mbind, io_bind, io_try.
    pose proof (serve_run (NodeAgent.Binding_ s pod)
      (fun r => (StatusOK, Some (mkAgentResponse AgentAPIVersion None (Some r) None None))) sw) as Hx.
    destruct (NodeAgent.Binding_ s pod sw) as [[r|e] sw'].
    + erewrite call_success; [|done|exact Hx|right; by eexists]. reflexivity.
    + erewrite call_failure; [|done|exact Hx]. unfold received, wire_code.
      by destruct (errors_is e ErrBindingNotReady), (errors_is e ErrPodLookupFailed && IsNotFound e).
  - by apply client_unit_through.
  - by apply client_unit_through.
  - by apply client_unit_through.
Qed.

(** Absence is exact.  The plugin's agent reports a Pod as absent, which
    is what lets DEL detach and forget it, exactly when the API server
    answered that no Pod of that namespace and name exists: an unreachable or
    refusing API server, a malformed identity, another Pod under the same
    name, or a Pod of another node never look like absence. *)
Lemma absence_exact pod st w :
  SocketPath <> "" ->
  (exists e sw', client_Resolve SocketPath pod (st, w) = (Fail e, sw') /\ errors_is e ErrPodNotFound = true) <->
  PodIdentity_Validate pod = None /\ s_NodeName s <> "" /\
  exists e w', k8s_Get (T := Pod) (mkObjectKey (pi_Namespace pod) (pi_Name pod)) w = (Fail e, w') /\
    IsNotFound e = true /\ errors_is e ErrBindingNotReady = false.
Proof.
  intros Hs. destruct (client_through pod (mkBinding "" 0 "" "") (st, w) Hs) as [-> _].
  unfold through, NodeAgent.Resolve, exact_pod, on_world, mbind, io_bind. cbn [fst snd].
  destruct (PodIdentity_Validate pod) as [e0|]; [split; [by intros (e & sw' & [= <- _] & He)|by intros [? _]]|].
  destruct (String.eqb_spec (s_NodeName s) "") as [Hn|Hn]; unfold str_empty.
  { rewrite Hn, String.eqb_refl. split; [by intros (e & sw' & [= <- _] & He)|by intros (_ & ? & _)]. }
  rewrite (proj2 (String.eqb_neq _ _) Hn). unfold io_try.
  destruct (k8s_Get _ w) as [[p|e] w1].
  - split; [|by intros (_ & _ & e & w' & [=] & _)].
    destruct (negb (String.eqb (UID (pod_Meta p)) _)); [by intros (e & sw' & [= <- _] & He)|].
    destruct (negb (String.eqb (pod_NodeName p) _)); [by intros (e & sw' & [= <- _] & He)|].
    by intros (e & sw' & ? & He).
  - assert (forall t, errors_is (EWrap "" [ESentinel ErrPodLookupFailed; e]) t =
      String.eqb ErrPodLookupFailed t || errors_is e t) as His by (intros t; cbn; by rewrite orb_false_r).
    assert (IsNotFound (EWrap "" [ESentinel ErrPodLookupFailed; e]) = IsNotFound e) as Hnf.
    { unfold IsNotFound, has_reason. cbn. by destruct (reason_for_error e). }
    unfold io_fail, received, wire_code. rewrite !His, Hnf.
    change (String.eqb ErrPodLookupFailed ErrBindingNotReady) with false.
    change (String.eqb ErrPodLookupFailed ErrPodLookupFailed) with true. cbn [orb andb]. split.
    + intros (e' & sw' & [= <- _] & He). split_and!; [done|done|]. exists e, w1. split; [done|].
      destruct (errors_is e ErrBindingNotReady); [done|]. by destruct (IsNotFound e).
    + intros (_ & _ & e' & w' & [= <- <-] & -> & ->). eexists _, _. split; [reflexivity|done].
Qed.

End Direct.
