(* ===== verification/Node.v ===== *)
(** * A node: kernel, disk, agent and plugin together (internal/cni/enforcer_linux.go)

    The Linux enforcer runs the data-plane backend inside the network
    namespace at a path.  This file puts the pieces of a node into one world:
    namespaces with their kernel state, the attachment directory, what the API
    server answers, and the node agent's state; instantiates every interface
    of the plugin and the agent in it; and discharges their contracts.  API
    requests, system calls, kernel calls and the exchanges between plugin and
    agent may all fail. *)

From Stdlib Require Import Ascii.
From S2P Require Import Prelude Sha256 Netip Api Kube Reservation Http Files CniTypes CniPlugin CniStore Nft Dataplane Kernel.
From S2P Require Import NodeAgent AgentProtocol AgentLoop.

(** How an exchange with the agent goes wrong: before it or after it. *)
Inductive wire_fault := LostRequest | LostReply.

Record Node := mkNode {
  nd_paths : gmap string string;            (** network namespace files and their identities *)
  nd_spaces : gmap string NS;
  nd_disk : FS;
  nd_pods : gmap ObjectKey Pod;
  nd_bindings : gmap ObjectKey VPNWorkloadBinding;
  nd_api_faults : list (option error);
  nd_wire : list (option wire_fault);
  nd_now : time
}.

Definition set_spaces (m : gmap string NS) (nd : Node) : Node :=
  mkNode (nd_paths nd) m (nd_disk nd) (nd_pods nd) (nd_bindings nd) (nd_api_faults nd) (nd_wire nd) (nd_now nd).
Definition set_disk (d : FS) (nd : Node) : Node :=
  mkNode (nd_paths nd) (nd_spaces nd) d (nd_pods nd) (nd_bindings nd) (nd_api_faults nd) (nd_wire nd) (nd_now nd).
Definition set_api_faults (l : list (option error)) (nd : Node) : Node :=
  mkNode (nd_paths nd) (nd_spaces nd) (nd_disk nd) (nd_pods nd) (nd_bindings nd) l (nd_wire nd) (nd_now nd).
Definition set_wire (l : list (option wire_fault)) (nd : Node) : Node :=
  mkNode (nd_paths nd) (nd_spaces nd) (nd_disk nd) (nd_pods nd) (nd_bindings nd) (nd_api_faults nd) l (nd_now nd).
Definition set_now (t : time) (nd : Node) : Node :=
  mkNode (nd_paths nd) (nd_spaces nd) (nd_disk nd) (nd_pods nd) (nd_bindings nd) (nd_api_faults nd) (nd_wire nd) t.

(** ** The Linux enforcer *)

Definition no_such_file : error := ESentinel ErrNotExist.

Definition LinuxEnforcer_Identity (path : string) : IO Node string := fun nd =>
  if str_empty path then (Fail no_such_file, nd)
  else match nd_paths nd !! path with
       | Some identity => (Ok identity, nd)
       | None => (Fail no_such_file, nd)
       end.

(** [ns.WithNetNSPath]: run the operation inside the namespace at the path. *)
Definition inNamespace (path : string) (operation : IO NS unit) : IO Node unit := fun nd =>
  match nd_paths nd !! path with
  | Some identity =>
      match nd_spaces nd !! identity with
      | Some space =>
          let '(r, space') := operation space in (r, set_spaces (<[identity := space']> (nd_spaces nd)) nd)
      | None => (Fail no_such_file, nd)
      end
  | None => (Fail no_such_file, nd)
  end.

Definition LinuxEnforcer_InstallLockdown (path podUID : string) : IO Node unit :=
  inNamespace path (Kernel.InstallLockdown podUID).
Definition LinuxEnforcer_Configure (path : string) (cfg : Config) : IO Node unit :=
  inNamespace path (Kernel.Configure cfg).
Definition LinuxEnforcer_Verify (path : string) (cfg : Config) : IO Node unit :=
  inNamespace path (Kernel.Verify cfg).
Definition LinuxEnforcer_Cleanup (path podUID : string) : IO Node unit :=
  inNamespace path (Kernel.Agent_Cleanup podUID None).

#[global] Instance Node_Programmer : Programmer Node := {
  prog_Identity := LinuxEnforcer_Identity;
  prog_InstallLockdown := LinuxEnforcer_InstallLockdown;
  prog_Configure := LinuxEnforcer_Configure;
  prog_Verify := LinuxEnforcer_Verify;
  prog_Cleanup := LinuxEnforcer_Cleanup
}.

(** ** The API server as this node sees it *)

Definition api_request {A} (answer : Node -> res A) : IO Node A := fun nd =>
  match nd_api_faults nd with
  | Some e :: rest => (Fail e, set_api_faults rest nd)
  | None :: rest => (answer nd, set_api_faults rest nd)
  | [] => (answer nd, nd)
  end.

Definition found {A} (o : option A) : res A := match o with Some a => Ok a | None => Fail (EStatus ReasonNotFound) end.

#[global] Instance Node_Pods : Getter Node Pod := fun key => api_request (fun nd => found (nd_pods nd !! key)).
#[global] Instance Node_Bindings : Getter Node VPNWorkloadBinding := fun key =>
  api_request (fun nd => found (nd_bindings nd !! key)).
#[global] Instance Node_ListBindings : Lister Node VPNWorkloadBinding := fun opt =>
  api_request (fun nd => Ok (List.filter (list_selects wb_Meta opt) (map snd (map_to_list (nd_bindings nd))))).
#[global] Instance Node_Clock : Clock Node := nd_now.

(** ** Disk *)

Definition on_disk {A} (m : IO FS A) : IO Node A := fun nd => let '(r, d) := m (nd_disk nd) in (r, set_disk d nd).

Section Node.
Variable Marshal : Attachment -> res string.
Variable Unmarshal : string -> res Attachment.
Variable Directory : string.
Variable service : Service.
Variable publisher : option (Report -> IO Node unit).
Variable SocketPath : string.

#[local] Instance Node_AttachmentStore : AttachmentStore Node := {
  as_ListAll := on_disk (FileStore_ListAll Unmarshal Directory);
  as_Save a := on_disk (FileStore_Save Marshal Directory a);
  as_Delete k := on_disk (FileStore_Delete Directory k)
}.

(** ** The plugin's side *)

Notation World := (SvcState * Node)%type.

#[local] Instance World_Enforcer : Enforcer World := {
  enf_Identity path := on_world (LinuxEnforcer_Identity path);
  enf_InstallLockdown path uid := on_world (LinuxEnforcer_InstallLockdown path uid);
  enf_Cleanup path uid := on_world (LinuxEnforcer_Cleanup path uid)
}.

#[local] Instance World_Store : Store World := {
  store_Load key := on_world (on_disk (FileStore_Load Unmarshal Directory key));
  store_Save a := on_world (on_disk (FileStore_Save Marshal Directory a));
  store_Delete key := on_world (on_disk (FileStore_Delete Directory key));
  store_List network := on_world (on_disk (FileStore_List Unmarshal Directory network))
}.

(** Waiting for the earlier of a deadline and a timer. *)
#[local] Instance World_Timer : Timer World := {
  Now w := nd_now w.2;
  Select deadline timer := fun w =>
    (Ok (deadline <=? timer), (w.1, set_now (Z.max (nd_now w.2) (Z.min deadline timer)) w.2))
}.

Definition lost : error := ENew "connection reset".

#[local] Instance World_Transport : Transport World := fun method path body w =>
  match nd_wire w.2 with
  | Some LostRequest :: rest => (Fail lost, (w.1, set_wire rest w.2))
  | Some LostReply :: rest =>
      let '(_, w') := Handler service publisher method path body (w.1, set_wire rest w.2) in (Fail lost, w')
  | None :: rest => Handler service publisher method path body (w.1, set_wire rest w.2)
  | [] => Handler service publisher method path body w
  end.

#[local] Instance World_Agent : Agent World := UnixAgentClient SocketPath.

(** ** The contracts hold *)

(** In every namespace the tables with the backend's names are the backend's. *)
Definition node_good (nd : Node) : Prop := forall ident space, nd_spaces nd !! ident = Some space -> owned space.

(** The namespace at the path exists and has a Pod's policy installed. *)
Definition node_denied (path : string) (nd : Node) : Prop :=
  exists ident space, nd_paths nd !! path = Some ident /\ nd_spaces nd !! ident = Some space /\ guarded space.

Notation nkeeps := (keeps_denied node_good node_denied).

(** Computations that leave the namespaces alone. *)
Lemma keeps_elsewhere {A} (m : IO Node A) :
  (forall nd, nd_paths (m nd).2 = nd_paths nd /\ nd_spaces (m nd).2 = nd_spaces nd) -> nkeeps m.
Proof.
  intros Hm nd Hg. unfold wp. destruct (Hm nd) as [Hp Hs]. split.
  - intros ident space Hl. rewrite Hs in Hl. by eapply Hg.
  - intros n (ident & space & H1 & H2 & H3). exists ident, space. by rewrite Hp, Hs.
Qed.

Lemma on_disk_keeps {A} (m : IO FS A) : nkeeps (on_disk m).
Proof. apply keeps_elsewhere. intros nd. unfold on_disk. by destruct (m (nd_disk nd)). Qed.

Lemma api_request_keeps {A} (f : Node -> res A) : nkeeps (api_request f).
Proof. apply keeps_elsewhere. intros nd. unfold api_request. by destruct (nd_api_faults nd) as [|[e|] rest]. Qed.

Lemma identity_node_keeps path : nkeeps (LinuxEnforcer_Identity path).
Proof.
  apply keeps_elsewhere. intros nd. unfold LinuxEnforcer_Identity. destruct (str_empty path); [done|].
  by destruct (nd_paths nd !! path).
Qed.

(** An operation that changes the rule set only by installing policies. *)
Lemma inNamespace_keeps path op :
  (forall w, wp op (fun _ w' => policy_step w w') w) -> nkeeps (inNamespace path op).
Proof.
  intros Hop nd Hg. unfold wp, inNamespace. destruct (nd_paths nd !! path) as [ident|] eqn:Ep; [|by split].
  destruct (nd_spaces nd !! ident) as [space|] eqn:Es; [|by split].
  specialize (Hop space). unfold wp in Hop. destruct (op space) as [r space'] eqn:E. cbn in *. split.
  - intros ident' sp Hl. cbn in Hl. apply lookup_insert_Some in Hl as [[<- <-]|[_ Hl]]; [|by eapply Hg].
    by eapply policy_step_owned, Hg.
  - intros n (ident' & sp & H1 & H2 & H3). destruct (decide (ident' = ident)) as [->|Hne].
    + exists ident, space'. cbn. rewrite lookup_insert_eq. split_and!; [done|done|].
      rewrite Es in H2. injection H2 as <-. by eapply policy_step_guarded.
    + exists ident', sp. cbn. by rewrite lookup_insert_ne.
Qed.

(** An operation whose success leaves its namespace confined. *)
Lemma inNamespace_denies path op nd :
  (forall w, owned w -> wp op (fun r w' => r = Ok tt -> guarded w') w) -> node_good nd ->
  wp (inNamespace path op) (fun r nd' => r = Ok tt -> node_denied path nd') nd.
Proof.
  intros Hop Hg. unfold wp, inNamespace. destruct (nd_paths nd !! path) as [ident|] eqn:Ep; [|done].
  destruct (nd_spaces nd !! ident) as [space|] eqn:Es; [|done].
  specialize (Hop space (Hg _ _ Es)). unfold wp in Hop. destruct (op space) as [r space'] eqn:E. cbn in *.
  intros Hr. exists ident, space'. cbn. rewrite lookup_insert_eq. auto.
Qed.

Lemma Agent_Cleanup_step podUID cfg w : wp (Agent_Cleanup podUID cfg) (fun _ w' => policy_step w w') w.
Proof. unfold Agent_Cleanup. destruct (str_empty podUID); [wp_step; by left|apply Cleanup_step]. Qed.

#[local] Instance node_programmer_contract : ProgrammerContract Node.
Proof.
  refine {| pgood := node_good; pdenied := node_denied |}.
  - intros netns uid nd. apply inNamespace_denies. intros w _. eapply wp_mono; [apply InstallLockdown_step|]. by intros r w' [_ ?].
  - intros netns cfg nd. apply inNamespace_denies. intros w Ho. wp_run r w' E. intros ->. by eapply Verify_guarded.
  - apply identity_node_keeps.
  - intros netns uid. apply inNamespace_keeps. intros w. eapply wp_mono; [apply InstallLockdown_step|]. by intros r w' [? _].
  - intros netns cfg. apply inNamespace_keeps. intros w. apply Configure_step.
  - intros netns cfg. apply inNamespace_keeps. intros w. apply Verify_step.
  - intros netns uid. apply inNamespace_keeps. intros w. apply Agent_Cleanup_step.
  - intros key. apply api_request_keeps.
  - intros key. apply api_request_keeps.
  - intros opt. apply api_request_keeps.
  - apply on_disk_keeps.
  - intros a. apply on_disk_keeps.
  - intros key. apply on_disk_keeps.
Defined.

Context (publisher_keeps : forall publish report, publisher = Some publish -> nkeeps (publish report)).

Notation wkeeps := (keeps_denied (sgood (W := Node)) (sdenied (W := Node))).

Lemma Handler_keeps method path body : wkeeps (Handler service publisher method path body).
Proof using publisher_keeps.
  unfold Handler, operation, serve, status_handler.
  keeps_walk ltac:(first [apply get_state_keeps | apply Resolve_keeps | apply Binding_keeps | apply Prepare_keeps
    | apply Check_keeps | apply Withdraw_keeps; exact publisher_keeps]).
Qed.

Lemma set_wire_same rest (w : World) n :
  (sgood w <-> sgood (w.1, set_wire rest w.2)) /\ (sdenied n w <-> sdenied n (w.1, set_wire rest w.2)).
Proof. by destruct w. Qed.

Lemma exchange_keeps method path body : wkeeps (exchange method path body).
Proof using publisher_keeps.
  intros w Hg. unfold exchange, World_Transport, wp. destruct (nd_wire w.2) as [|[[|]|] rest].
  - by apply Handler_keeps.
  - by split.
  - destruct (Handler_keeps method path body (w.1, set_wire rest w.2) Hg) as [Hg' Hd].
    destruct (Handler _ _ _ _ _ _) as [r w']. by split.
  - exact (Handler_keeps method path body (w.1, set_wire rest w.2) Hg).
Qed.

Lemma call_keeps output method path body : wkeeps (call SocketPath output method path body).
Proof using publisher_keeps. unfold call. keeps_walk ltac:(apply exchange_keeps). Qed.

Lemma client_keeps :
  (forall pod, wkeeps (client_Resolve SocketPath pod)) /\ (forall pod, wkeeps (client_Binding SocketPath pod)) /\
  (forall method path body, wkeeps (client_unit SocketPath method path body)).
Proof using publisher_keeps.
  unfold client_Resolve, client_Binding, client_unit. split_and!; keeps_walk ltac:(apply call_keeps).
Qed.

(** The world in which the agent serves an exchange that comes back. *)
Definition served_from (w w0 : World) : Prop := exists rest, w0 = w \/ w0 = (w.1, set_wire rest w.2).

Lemma exchange_ok method path body w reply w' :
  exchange method path body w = (Ok reply, w') ->
  exists w0, served_from w w0 /\ Handler service publisher method path body w0 = (Ok reply, w').
Proof.
  unfold exchange, World_Transport. destruct (nd_wire w.2) as [|[[|]|] rest]; try done.
  - intros Hh. exists w. split; [by exists []; left|done].
  - by destruct (Handler _ _ _ _ _ _).
  - intros Hh. exists (w.1, set_wire rest w.2). split; [by exists rest; right|done].
Qed.

(** A check that succeeds at the plugin has succeeded at the agent. *)
Lemma client_Check_ok pod b w w' :
  client_Check SocketPath pod b w = (Ok tt, w') ->
  exists w0, served_from w w0 /\ NodeAgent.Check service pod b w0 = (Ok tt, w').
Proof.
  unfold client_Check, client_unit. intros (resp & w1 & Hcall & [= <-])%bind_ok. unfold call in Hcall.
  destruct (str_empty SocketPath); [done|]. apply bind_ok in Hcall as ([status body] & w2 & Hx%wrap_ok & Hcall).
  assert (w1 = w2 /\ ((status <? 200) || (300 <=? status)) = false) as [-> Hstatus].
  { destruct ((status <? 200) || (300 <=? status)).
    - apply bind_ok in Hcall as (f & w3 & _ & Hcall). destruct (aresp_Error f) as [e|]; [|done].
      by destruct (_ || _).
    - cbn in Hcall. by injection Hcall as _ <-. }
  apply exchange_ok in Hx as (w0 & Hw0 & Hh). exists w0. split; [done|].
  change (serve (NodeAgent.Check service pod b) (fun _ => no_content) w0 = (Ok (status, body), w2)) in Hh.
  rewrite serve_run in Hh. destruct (NodeAgent.Check service pod b w0) as [[[]|e] w3]; [by injection Hh as _ _ <-|].
  destruct (writeServiceError_code e) as (st & rt & m & Hw & Hst & _). rewrite Hw in Hh. injection Hh as Hs _ _. congruence.
Qed.

(** A resolution that the plugin gets is the agent's. *)
Lemma client_Resolve_ok pod resolution w w' :
  client_Resolve SocketPath pod w = (Ok resolution, w') ->
  exists w0, served_from w w0 /\ NodeAgent.Resolve service pod w0 = (Ok resolution, w').
Proof.
  unfold client_Resolve. intros (r & w1 & (r0 & Hcall & [= ->])%try_inv & Hr)%bind_ok.
  destruct r0 as [response|e]; [|by destruct (isAgentError _ _)].
  destruct (response ≫= aresp_Resolution) as [res|] eqn:Eres; [|done]. injection Hr as -> <-.
  unfold call in Hcall. destruct (str_empty SocketPath); [done|]. apply bind_ok in Hcall as ([status body] & w2 & Hx%wrap_ok & Hcall).
  destruct ((status <? 200) || (300 <=? status)) eqn:Es.
  { apply bind_ok in Hcall as (f & w3 & _ & Hcall). destruct (aresp_Error f) as [e|]; [|done]. by destruct (str_empty _ || _). }
  cbn [negb orb] in Hcall. destruct (status =? StatusNoContent); [apply ret_inv in Hcall as [[= ->] _]; done|].
  apply bind_ok in Hcall as (read & w3 & Hd%wrap_ok & Hcall). injection Hcall as <- <-.
  unfold io_lift in Hd. injection Hd as Hd <-. unfold decodeAgentResponse in Hd. destruct body as [body|]; [|done].
  destruct (String.eqb _ _); [|done]. injection Hd as ->. cbn in Eres.
  apply exchange_ok in Hx as (w0 & Hw0 & Hh). exists w0. split; [done|].
  change (serve (NodeAgent.Resolve service pod)
    (fun r => (StatusOK, Some (mkAgentResponse AgentAPIVersion (Some r) None None None))) w0 = (Ok (status, Some read), w2)) in Hh.
  rewrite serve_run in Hh. destruct (NodeAgent.Resolve service pod w0) as [[answer|e] w4].
  - injection Hh as _ <- <-. cbn in Eres. by injection Eres as ->.
  - destruct (writeServiceError_code e) as (st & rt & m & Hw & Hst & _). rewrite Hw in Hh. injection Hh as Hs _ _. congruence.
Qed.

#[local] Instance node_contract : DenyContract World.
Proof using publisher_keeps.
  refine {| good := sgood (W := Node); denied := sdenied (W := Node) |}.
  - intros netns uid [st nd] Hg. apply wp_on_world. exact (prog_lockdown_denies (W := Node) netns uid nd Hg).
  - intros pod b w Hg. unfold wp. destruct (agent_Check pod b w) as [r w'] eqn:E. cbn. intros ->.
    apply client_Check_ok in E as ([st nd] & [rest Hw] & E).
    assert (node_good nd) as Hnd by by destruct Hw as [<-|Hw]; [|injection Hw as -> ->].
    exact (proj1 (wp_elim _ _ _ _ _ (Check_programmed service pod b st nd Hnd) E)).
  - intros path. exact (on_world_keeps _ (prog_identity_keeps (W := Node) path)).
  - intros netns uid. exact (on_world_keeps _ (prog_lockdown_keeps (W := Node) netns uid)).
  - intros netns uid. exact (on_world_keeps _ (prog_cleanup_keeps (W := Node) netns uid)).
  - intros pod. apply client_keeps.
  - intros pod. apply client_keeps.
  - intros pod b. apply client_keeps.
  - intros pod b. apply client_keeps.
  - intros pod. apply client_keeps.
  - intros key. apply on_world_keeps, on_disk_keeps.
  - intros a. apply on_world_keeps, on_disk_keeps.
  - intros key. apply on_world_keeps, on_disk_keeps.
  - intros network. apply on_world_keeps, on_disk_keeps.
  - intros d t [st nd] Hg. by split.
Defined.

(** The namespace at the path exists and its traffic is confined. *)
Definition node_confined (path : string) (nd : Node) : Prop :=
  exists ident space, nd_paths nd !! path = Some ident /\ nd_spaces nd !! ident = Some space /\ confined space.

(** *** What the reads of ADD see *)

(** The Pods and the attachment records are those of the node as it was. *)
Definition view (nd0 nd : Node) : Prop := nd_pods nd = nd_pods nd0 /\ same_disk (nd_disk nd0) (nd_disk nd).

Lemma view_on_disk {A} (m : IO FS A) nd0 : keeps (same_disk (nd_disk nd0)) m -> keeps (view nd0) (on_disk m).
Proof.
  intros Hm nd [Hp Hd]. specialize (Hm (nd_disk nd) Hd). unfold on_disk. destruct (m (nd_disk nd)) as [r d]. by split.
Qed.

Lemma view_api {A} (f : Node -> res A) nd0 : keeps (view nd0) (api_request f).
Proof. intros nd Hv. unfold api_request. by destruct (nd_api_faults nd) as [|[e|] rest]. Qed.

Lemma view_Resolve pod nd0 : keeps (fun w : World => view nd0 w.2) (client_Resolve SocketPath pod).
Proof.
  assert (keeps (fun w : World => view nd0 w.2) (NodeAgent.Resolve service pod)) as Hresolve.
  { unfold NodeAgent.Resolve, exact_pod. keeps_down. apply view_api. }
  unfold client_Resolve, call. keeps_down. intros w Hw. unfold exchange, World_Transport.
  set (body := Some (mkAgentRequest AgentAPIVersion pod None)).
  assert (forall w : World, view nd0 w.2 -> view nd0 (Handler service publisher "POST" resolvePath body w).2.2) as Hhandler.
  { intros w0 Hw0. change (view nd0 (serve (NodeAgent.Resolve service pod)
      (fun r => (StatusOK, Some (mkAgentResponse AgentAPIVersion (Some r) None None None))) w0).2.2).
    rewrite serve_run. specialize (Hresolve w0 Hw0). by destruct (NodeAgent.Resolve service pod w0) as [[answer|e] w4]. }
  destruct (nd_wire w.2) as [|[[|]|] rest]; [by apply Hhandler|done| |by apply Hhandler].
  specialize (Hhandler (w.1, set_wire rest w.2) Hw). by destruct (Handler _ _ _ _ _ _).
Qed.

Lemma view_reads nd0 : reads_keep (fun w : World => view nd0 w.2).
Proof using.
  split.
  - intros path. apply (keeps_on_world (view nd0)). intros nd Hv. unfold LinuxEnforcer_Identity.
    destruct (str_empty path); [done|]. by destruct (nd_paths nd !! path).
  - intros key. apply (keeps_on_world (view nd0)), view_on_disk, Load_reads.
  - intros network. apply (keeps_on_world (view nd0)), view_on_disk, List_reads.
  - intros pod. apply view_Resolve.
  - intros d t' [st nd] Hv. exact Hv.
Qed.

(** The Pod of the request exists with this UID and carries no route label, and
    the disk holds neither a record of this attachment nor one of this Pod in
    this network. *)
Record node_unenrolled (request : Request) (nd : Node) : Prop := {
  nu_pod : exists pod, nd_pods nd !! mkObjectKey (pi_Namespace (rq_Pod request)) (pi_Name (rq_Pod request)) = Some pod /\
    UID (pod_Meta pod) = pi_UID (rq_Pod request) /\ map_get (Labels (pod_Meta pod)) routeLabel = "";
  nu_record : files (nd_disk nd) !! record_path Directory (Request_Key request) = None;
  nu_prior a : on_record Unmarshal Directory (nd_disk nd) a -> a_Network a = rq_Network request ->
    ~ (pi_Namespace (a_Pod a) = pi_Namespace (rq_Pod request) /\ pi_Name (a_Pod a) = pi_Name (rq_Pod request) /\
       pi_UID (a_Pod a) = pi_UID (rq_Pod request))
}.

Lemma prior_enrollment_false l request a :
  prior_enrollment l request = false -> a ∈ l ->
  ~ (pi_Namespace (a_Pod a) = pi_Namespace (rq_Pod request) /\ pi_Name (a_Pod a) = pi_Name (rq_Pod request) /\
     pi_UID (a_Pod a) = pi_UID (rq_Pod request)).
Proof.
  intros Hp Hin (H1 & H2 & H3). induction l as [|x l IH]; [by apply not_elem_of_nil in Hin|]. cbn in Hp.
  apply elem_of_cons in Hin as [->|Hin]; [|apply IH; [by destruct (_ && _)|done]].
  by rewrite H1, H2, H3, !String.eqb_refl in Hp.
Qed.

Lemma same_record d d' a : same_disk d d' -> on_record Unmarshal Directory d a -> on_record Unmarshal Directory d' a.
Proof. intros (Hf & _ & _ & Hd & _). unfold on_record. by rewrite Hf, Hd. Qed.

(** [encoding/json] does not report missing files. *)
Definition json_errors : Prop := forall data e, Unmarshal data = Fail e -> errors_is e ErrNotExist = false.

Lemma view_unenrolled request nd :
  json_errors -> unenrolled (fun w : World => view nd w.2) request -> node_unenrolled request nd.
Proof.
  intros Hjson ((err & ([st1 nd1] & w1' & [_ Hd1] & Hload) & Hne) & (l & ([st2 nd2] & w2' & [_ Hd2] & Hlist) & Hprior) &
    (resolution & ([st3 nd3] & w3' & [Hp3 _] & Hresolve) & Huid & Hen)). split.
  - apply client_Resolve_ok in Hresolve as (w0 & [rest Hw0] & Hr). unfold NodeAgent.Resolve in Hr.
    assert (nd_pods w0.2 = nd_pods nd) as Hpods by by destruct Hw0 as [->| ->].
    apply bind_ok in Hr as (pod & w1 & Hpod & [= <- <-]). cbn in Huid, Hen. apply negb_false_iff, str_empty_spec in Hen.
    unfold on_world, exact_pod in Hpod. destruct (PodIdentity_Validate _); [done|]. destruct (str_empty _); [done|].
    unfold mbind, io_bind, io_try, k8s_Get, Node_Pods, api_request, found in Hpod. rewrite Hpods in Hpod.
    exists pod. split; [|done].
    destruct (nd_api_faults w0.2) as [|[e|] faults]; try done; (destruct (nd_pods nd !! _) as [p|]; [|done]); f_equal;
      cbn in Hpod; repeat (destruct (negb _); [done|]); by injection Hpod as ->.
  - unfold store_Load, World_Store, on_world, on_disk in Hload. cbn in Hload.
    destruct (FileStore_Load Unmarshal Directory (Request_Key request) (nd_disk nd1)) as [r d'] eqn:E. injection Hload as -> _.
    destruct Hd1 as [<- _]. exact (wp_elim _ _ _ _ _ (Load_absent Unmarshal Directory _ _ Hjson) E err eq_refl Hne).
  - intros a Ha Hnet. apply (same_record _ _ _ Hd2) in Ha.
    unfold store_List, World_Store, on_world, on_disk, FileStore_List in Hlist. cbn in Hlist. destruct (str_empty _); [done|].
    destruct (list_records _ _ _ (nd_disk nd2)) as [r d'] eqn:E. injection Hlist as -> _.
    apply (prior_enrollment_false l); [done|].
    apply (proj2 (wp_elim _ _ _ _ _ (list_records_complete Unmarshal Directory _ _) E l eq_refl a Ha)).
    by apply String.eqb_eq.
Qed.

(** C1: A started Pod is confined, end to end.  On a node where only Waycloak
    writes tables with Waycloak's names, when ADD succeeds through the real
    agent protocol, node agent, file store and Linux backend, the Pod's network
    namespace holds a Pod's policy table, for a lockdown or for a validated
    configuration, and every packet that leaves the namespace leaves by a link
    that this policy uses and, where the policy's ranges and endpoint are ones
    the rules can express, is traffic that it allows; or else the Pod that the API server holds under this name
    and UID carries no route label, and the disk holds no record of the
    attachment and none of the Pod.  This holds with any pattern of failing API
    requests, lost agent exchanges, failing system calls and failing kernel
    calls. *)
Theorem node_Add_confines p request st nd :
  json_errors -> node_good nd ->
  wp (CniPlugin.Add p request)
    (fun r w' => r = Ok tt -> node_confined (pi_NetNS (rq_Pod request)) w'.2 \/ node_unenrolled request nd) (st, nd).
Proof using publisher_keeps.
  intros Hjson Hg. eapply wp_mono; [apply (Add_outcome (W := World) p (fun w => view nd w.2)); [apply view_reads|done|by split]|].
  intros r w' [_ H] Hr. destruct (H Hr) as [(ident & space & H1 & H2 & H3)|Hu]; [left|right; by apply view_unenrolled].
  exists ident, space. auto using guarded_confined.
Qed.

(** C2: Nothing on the node opens a confined namespace.  Every CNI command and
    every pass of the node agent, whatever its outcome and whichever of its
    API requests, agent exchanges, system calls and kernel calls fail, leaves
    each network namespace with a policy installed that had one before; in
    particular withdrawal, rollback and cleanup keep the deny policy. *)
Theorem node_keeps_deny p st nd path :
  node_good nd -> node_denied path nd ->
  let safe (m : IO World unit) := wp m (fun _ w' => node_denied path w'.2) (st, nd) in
  (forall request, safe (CniPlugin.Add p request)) /\ (forall request, safe (CniPlugin.Check request)) /\
  (forall key netns, safe (CniPlugin.Delete key netns)) /\ (forall network valid, safe (CniPlugin.GC network valid)) /\
  safe (NodeAgent.LockdownAll service) /\ safe (NodeAgent.ReconcileAll service publisher).
Proof using publisher_keeps.
  intros Hg Hd safe. destruct (commands_keep_deny (W := World) p) as (Ha & Hc & Hdel & Hgc).
  assert (forall m : IO World unit, keeps_denied (sgood (W := Node)) (sdenied (W := Node)) m -> safe m) as Hsafe.
  { intros m Hm. unfold safe. eapply wp_mono; [by apply Hm|]. intros r w' [_ Hk]. by apply Hk. }
  split_and!; intros; apply Hsafe.
  - apply Ha.
  - apply Hc.
  - apply Hdel.
  - apply Hgc.
  - exact (@LockdownAll_keeps Node _ _ _ _ _ node_programmer_contract _ service).
  - exact (@ReconcileAll_keeps Node _ _ _ _ _ node_programmer_contract _ service publisher publisher_keeps).
Qed.

End Node.

(** ** One enrolled Pod *)

Module NodeSample.

(** A record as text, field by field. *)
Definition marshal (a : Attachment) : res string :=
  let p := a_Pod a in
  Ok (String.concat "|" [a_Network a; pi_Namespace p; pi_Name p; pi_UID p; pi_ContainerID p; pi_IfName p; pi_NetNS p;
        a_NamespaceIdentity a; a_Phase a; a_BindingUID a; itoa (a_BindingGeneration a); a_GatewayUID a; itoa (a_UpdatedAt a)]).
Definition unmarshal (d : string) : res Attachment :=
  match split_on "|"%char d with
  | [network; ns; name; uid; cid; ifname; netns; ident; phase; buid; gen; guid; updated] =>
      match parse_decimal gen, parse_decimal updated with
      | Some g, Some u => Ok (mkAttachment network (mkPodIdentity ns name uid cid ifname netns) ident phase buid g guid u)
      | _, _ => Fail (ENew "decode")
      end
  | _ => Fail (ENew "decode")
  end.

Definition service : Service := mkService "node-a" "boot-1" "instance-1" false false false [] (mkReleaseIdentity "" "") "".
Definition state : SvcState := mkSvcState ∅ true true.

Definition identity : PodIdentity := mkPodIdentity "media" "client" "uid-1" "container-1" "eth0" "/run/netns/a".
Definition request : Request := mkRequest "podnet" identity.
Definition plugin : Plugin := mkPlugin 0 0 0.

Definition meta (ns name uid : string) (generation : Z) (labels : gmap string string) : ObjectMeta :=
  mkObjectMeta ns name uid generation None labels ∅ [] [].

Definition pod : Pod := mkPod (meta "media" "client" "uid-1" 0 {[routeLabel := "vpn"]}) "node-a" "Pending" "".
Definition binding : VPNWorkloadBinding :=
  mkVPNWorkloadBinding (meta "media" (BindingName "uid-1") "binding-1" 1 ∅)
    (mkVPNWorkloadBindingSpec (mkLocalUIDReference "client" "uid-1") (mkLocalUIDReference "vpn" "route-1")
       (mkNamespacedUIDReference "vpn" "gateway" "gateway-1") "node-a" (mkWorkloadAllocation "alloc-1" "10.90.0.5/32")
       (mkWorkloadNetworkIntent 1 "10.90.0.0/24" "10.90.0.1" "192.0.2.7:4789" 9402 100 1400
          (mkClusterTraffic ClusterTrafficTunnelAll [])))
    (mkVPNWorkloadBindingStatus 0 0 "" "" None []).

(** The first exchange with the agent loses its reply. *)
Definition node : Node :=
  mkNode {["/run/netns/a" := "4:1"]} {["4:1" := KernelSample.space]} (mkFS ∅ ∅ ∅ ∅ 0 [] false)
    {[mkObjectKey "media" "client" := pod]} {[mkObjectKey "media" (BindingName "uid-1") := binding]} [] [Some LostReply] 1000.

Lemma node_is_good : node_good node.
Proof.
  intros ident space Hl. cbn [node nd_spaces] in Hl. apply lookup_singleton_Some in Hl as [_ <-].
  intros podUID t Ht. cbn [KernelSample.space ns_tables] in Ht. by rewrite lookup_empty in Ht.
Qed.

Lemma unmarshal_errors : json_errors unmarshal.
Proof. intros d e. unfold unmarshal. by repeat (case_match; try done); intros [= <-]. Qed.

Lemma no_publisher (publish : Report -> IO Node unit) (report : Report) :
  None = Some publish -> keeps_denied node_good node_denied (publish report).
Proof. done. Qed.

#[local] Existing Instance World_Enforcer.
#[local] Existing Instance World_Timer.
#[local] Instance store : Store (SvcState * Node) := World_Store marshal unmarshal "/state".
#[local] Instance attachments : AttachmentStore Node := Node_AttachmentStore marshal unmarshal "/state".
#[local] Instance transport : Transport (SvcState * Node) := World_Transport marshal unmarshal "/state" service None.
#[local] Instance agent : Agent (SvcState * Node) := World_Agent marshal unmarshal "/state" service None "/run/agent.sock".
#[local] Instance contract : DenyContract (SvcState * Node) :=
  node_contract marshal unmarshal "/state" service None "/run/agent.sock" no_publisher.

(** The run succeeds. *)
Lemma Add_succeeds : res_ok (CniPlugin.Add plugin request (state, node)).1 = true.
Proof. vm_compute. reflexivity. Qed.

Lemma node_Add_confines_witness : node_confined "/run/netns/a" (CniPlugin.Add plugin request (state, node)).2.2.
Proof.
  pose proof (node_Add_confines marshal unmarshal "/state" service None "/run/agent.sock" no_publisher plugin request state node
    unmarshal_errors node_is_good) as H.
  pose proof Add_succeeds as Hok. unfold wp in H. destruct (CniPlugin.Add plugin request (state, node)) as [[[]|e] w']; [|done].
  destruct (H eq_refl) as [Hc|[(found & Hpod & _ & Hlabel) _ _]]; [exact Hc|exfalso].
  change (Some pod = Some found) in Hpod. injection Hpod as <-. discriminate Hlabel.
Defined.

#[local] Instance programmer_contract : ProgrammerContract Node := node_programmer_contract marshal unmarshal "/state".

(** The node after the namespace was locked down. *)
Definition locked_node : Node := set_spaces {["4:1" := KernelSample.locked_space]} node.

Lemma locked_space_content : policy_content (policy_table "uid-1" lockdown_policy).
Proof. by apply lockdown_content. Qed.

Lemma node_keeps_deny_witness :
  wp (CniPlugin.Delete (Request_Key request) "/run/netns/a") (fun _ w' => node_denied "/run/netns/a" w'.2) (state, locked_node).
Proof.
  refine (proj1 (proj2 (proj2 (node_keeps_deny marshal unmarshal "/state" service None "/run/agent.sock" no_publisher plugin
    state locked_node "/run/netns/a" _ _))) (Request_Key request) "/run/netns/a").
  - intros ident space Hl. cbn [locked_node set_spaces nd_spaces] in Hl. apply lookup_singleton_Some in Hl as [_ <-].
    intros podUID t Ht. cbn [KernelSample.locked_space set_ns_faults set_tables ns_tables] in Ht.
    apply lookup_singleton_Some in Ht as [_ <-]. exact locked_space_content.
  - exists "4:1", KernelSample.locked_space. split; [reflexivity|]. split; [reflexivity|].
    exists (policyTableName "uid-1"), (policy_table "uid-1" lockdown_policy).
    split; [apply lookup_singleton_eq|exact locked_space_content].
Defined.

Lemma programming_observed_witness :
  wp (NodeAgent.Prepare service identity (bindingReference binding))
    (programmed (W := Node) "/run/netns/a" (bindingReference binding) state) (state, node).
Proof.
  destruct (@programming_observed Node _ _ _ _ _ programmer_contract _ service identity (bindingReference binding) state node node_is_good) as [H _].
  exact H.
Defined.

(** The Pod is gone from the API server. *)
Definition podless : Node :=
  mkNode (nd_paths node) (nd_spaces node) (nd_disk node) ∅ ∅ [] [] 1000.

#[local] Instance wire : Transport (SvcState * Node) := direct service None.

Lemma absence_exact_witness :
  exists e sw', client_Resolve "/run/agent.sock" identity (state, podless) = (Fail e, sw') /\
    errors_is e ErrPodNotFound = true.
Proof.
  apply (absence_exact service None "/run/agent.sock" identity state podless).
  - discriminate.
  - split; [reflexivity|]. split; [discriminate|]. eexists _, podless. split; [vm_compute; reflexivity|]. by split.
Defined.

End NodeSample.
