(* ===== verification/NodeLoop.v ===== *)
(** * The agent's loop on a node (cmd/waycloak-node-agent/main_linux.go)

    The passes of AgentLoop.v on the node of Node.v, with the installation
    validated on the node's own disk.  The projected token and the relay at the
    other end are parameters: they are outside the node and do not touch its
    network namespaces. *)

From Stdlib Require Import Ascii.
From S2P Require Import Prelude Netip Api Kube Reservation Http Files CniTypes CniPlugin CniStore Kernel CniInstall.
From S2P Require Import NodeAgent AgentLoop Node.

Section NodeLoop.
Variable Marshal : Attachment -> res string.
Variable Unmarshal : string -> res Attachment.
Variable Directory : string.
Context `{CniJson} `{Json Report} `{TokenSource Node} `{RelayTransport Node}.
Variable receiptFile binaryFile configFile : path.
Variable reporter : Reporter.

#[local] Instance Node_InstallationCheck : InstallationCheck Node := fun releaseIdentity transitionHeld =>
  on_disk (if transitionHeld then ValidateCNIInstallationForDenyHold receiptFile binaryFile configFile releaseIdentity
           else ValidateCNIInstallation receiptFile binaryFile configFile releaseIdentity).

#[local] Instance attachment_store : AttachmentStore Node := Node_AttachmentStore Marshal Unmarshal Directory.

Notation World := (SvcState * Node)%type.
Notation nkeeps := (keeps_denied node_good node_denied).

(** What a lockdown has to reach, as the node was in [nd]: the namespace of every
    attachment on record whose path leads to that namespace, and every binding of
    the node, attachment or not. *)
Record all_withdrawn (s : Service) (nd : Node) (w : World) : Prop := {
  aw_namespaces a : on_record Unmarshal Directory (nd_disk nd) a ->
    nd_paths nd !! pi_NetNS (a_Pod a) = Some (a_NamespaceIdentity a) -> node_denied (pi_NetNS (a_Pod a)) w.2;
  aw_bindings key b : nd_bindings nd !! key = Some b -> reportable s b = true ->
    uid_withdrawn (lur_UID (wb_PodRef (wb_Spec b))) w
}.

(** ** The lockdown of a node *)

(** The paths and the bindings are those of the node as it was. *)
Definition anchored (nd0 nd : Node) : Prop := nd_paths nd = nd_paths nd0 /\ nd_bindings nd = nd_bindings nd0.
Definition anchored_good (nd0 nd : Node) : Prop := node_good nd /\ anchored nd0 nd.

Lemma keeps_anchored {A} nd0 (m : IO Node A) :
  nkeeps m -> (forall nd, nd_paths (m nd).2 = nd_paths nd /\ nd_bindings (m nd).2 = nd_bindings nd) ->
  keeps_denied (anchored_good nd0) node_denied m.
Proof.
  intros Hm Hs nd [Hg [Hp Hb]]. destruct (Hm nd Hg) as [Hg' Hd]. destruct (Hs nd) as [Hp' Hb'].
  split; [|done]. split; [done|]. unfold anchored. by rewrite Hp', Hb'.
Qed.

Lemma in_namespace_elsewhere path op nd :
  nd_paths (inNamespace path op nd).2 = nd_paths nd /\ nd_bindings (inNamespace path op nd).2 = nd_bindings nd.
Proof. unfold inNamespace. repeat (case_match; try done). Qed.
Lemma api_elsewhere {A} (f : Node -> res A) nd :
  nd_paths (api_request f nd).2 = nd_paths nd /\ nd_bindings (api_request f nd).2 = nd_bindings nd.
Proof. unfold api_request. by repeat case_match. Qed.
Lemma disk_elsewhere {A} (m : IO FS A) nd :
  nd_paths (on_disk m nd).2 = nd_paths nd /\ nd_bindings (on_disk m nd).2 = nd_bindings nd.
Proof. unfold on_disk. by destruct (m (nd_disk nd)). Qed.

Notation base := (node_programmer_contract Marshal Unmarshal Directory).

#[local] Instance anchored_contract (nd0 : Node) : ProgrammerContract Node.
Proof.
  refine {| pgood := anchored_good nd0; pdenied := node_denied |}.
  - intros netns uid nd [Hg _]. exact (prog_lockdown_denies (ProgrammerContract := base) netns uid nd Hg).
  - intros netns cfg nd [Hg _]. exact (prog_verify_denies (ProgrammerContract := base) netns cfg nd Hg).
  - intros path. apply keeps_anchored; [apply identity_node_keeps|]. intros nd. cbn. unfold LinuxEnforcer_Identity.
    destruct (str_empty path); [done|]. by destruct (nd_paths nd !! path).
  - intros netns uid. apply keeps_anchored; [|apply in_namespace_elsewhere].
    exact (prog_lockdown_keeps (ProgrammerContract := base) netns uid).
  - intros netns cfg. apply keeps_anchored; [|apply in_namespace_elsewhere].
    exact (prog_configure_keeps (ProgrammerContract := base) netns cfg).
  - intros netns cfg. apply keeps_anchored; [|apply in_namespace_elsewhere].
    exact (prog_verify_keeps (ProgrammerContract := base) netns cfg).
  - intros netns uid. apply keeps_anchored; [|apply in_namespace_elsewhere].
    exact (prog_cleanup_keeps (ProgrammerContract := base) netns uid).
  - intros key. apply keeps_anchored; [apply api_request_keeps|apply api_elsewhere].
  - intros key. apply keeps_anchored; [apply api_request_keeps|apply api_elsewhere].
  - intros opt. apply keeps_anchored; [apply api_request_keeps|apply api_elsewhere].
  - apply keeps_anchored; [apply on_disk_keeps|apply disk_elsewhere].
  - intros a. apply keeps_anchored; [apply on_disk_keeps|apply disk_elsewhere].
  - intros key. apply keeps_anchored; [apply on_disk_keeps|apply disk_elsewhere].
Defined.

(** A lockdown leaves the disk alone. *)
Notation dkeeps d := (keeps_denied (fun w : World => same_disk d (nd_disk w.2)) (fun (_ : string) _ => True)).

Lemma disk_world {A} (m : IO Node A) d :
  (forall nd, same_disk d (nd_disk nd) -> same_disk d (nd_disk (m nd).2)) -> dkeeps d (on_world m).
Proof. intros Hm [st nd] Hd. specialize (Hm nd Hd). unfold wp, on_world. cbn in *. by destruct (m nd). Qed.

Lemma disk_LockdownAll s d : dkeeps d (LockdownAll s).
Proof.
  assert (dkeeps d get_state) as Hget by by intros [st nd] Hd.
  assert (forall b ready, dkeeps d (observe s b ready)) as Hobserve.
  { intros b ready [st nd] Hd. by apply (wp_intro _ _ _ _ _ (observe_run s b ready st nd)). }
  assert (dkeeps d (on_world as_ListAll)) as Hlist.
  { apply disk_world. intros nd Hd. pose proof (ListAll_reads Unmarshal Directory d (nd_disk nd) Hd) as Hl. cbn. unfold on_disk.
    by destruct (FileStore_ListAll _ _ _). }
  assert (forall A (f : Node -> res A), dkeeps d (on_world (api_request f))) as Hapi.
  { intros A f. apply disk_world. intros nd Hd. unfold api_request. by repeat case_match. }
  assert (forall path uid, dkeeps d (on_world (prog_InstallLockdown path uid))) as Hlock.
  { intros path uid. apply disk_world. intros nd Hd. cbn. unfold LinuxEnforcer_InstallLockdown, inNamespace. repeat (case_match; try done). }
  assert (forall path, dkeeps d (on_world (prog_Identity path))) as Hident.
  { intros path. apply disk_world. intros nd Hd. cbn. unfold LinuxEnforcer_Identity. by repeat case_match. }
  assert (forall ns uid, dkeeps d (on_world (rawBinding (W := Node) ns uid))) as Hraw.
  { intros ns uid. apply disk_world. intros nd Hd. unfold rawBinding, mbind, io_bind, io_try, k8s_Get, Node_Bindings, api_request.
    repeat (case_match; simplify_eq; try done). }
  unfold LockdownAll, lockdown_one, exact_namespace, observeNotReady, join.
  keeps_walk ltac:(first [apply Hget|apply Hobserve|apply Hlist|apply Hapi|apply Hlock|apply Hident|apply Hraw]).
Qed.

Lemma validated_path a : Attachment_Validate a = None -> str_empty (pi_NetNS (a_Pod a)) = false.
Proof.
  unfold Attachment_Validate, PodIdentity_Validate. destruct (str_empty (a_Network a)); [done|].
  destruct (_ || _ || str_empty (pi_UID _)); [done|]. destruct (_ || str_empty (pi_NetNS _)) eqn:E; [done|].
  by apply orb_false_iff in E as [_ ?].
Qed.

Lemma node_LockdownAll s st nd :
  node_good nd ->
  wp (LockdownAll s) (fun r w' => node_good w'.2 /\ anchored nd w'.2 /\ same_disk (nd_disk nd) (nd_disk w'.2) /\
    (r = Ok tt -> all_withdrawn s nd w')) (st, nd).
Proof.
  intros Hg. assert (anchored_good nd nd) as Ha by done.
  eapply wp_mono; [apply wp_and; [apply wp_and; [exact (LockdownAll_keeps (H4 := anchored_contract nd) s (st, nd) Ha)|]|]|].
  { exact (LockdownAll_withdraws (H4 := anchored_contract nd) s st nd Ha). }
  { by apply (disk_LockdownAll s (nd_disk nd)). }
  intros r w' [[[[Hg' Hanchor] _] Hlocked] [Hdisk _]]. split_and!; [done|done|done|]. intros Hr.
  destruct (Hlocked Hr) as [(attachments & Hlist & Hall) (bindings & nd1 & [_ [_ Hb]] & Hlistb & Hw)]. split.
  - intros a Hrec Hpath. cbn in Hlist. unfold on_disk, FileStore_ListAll in Hlist.
    destruct (list_records Unmarshal Directory (fun _ => true) (nd_disk nd)) as [listed d'] eqn:El. cbn in Hlist. subst listed.
    destruct (wp_elim _ _ _ _ _ (list_records_complete Unmarshal Directory (fun _ => true) (nd_disk nd)) El attachments eq_refl a Hrec) as [Hv Hin].
    destruct (Hall a (Hin eq_refl)) as [Hden|(nd2 & [_ [Hp _]] & Hid)]; [exact Hden|].
    cbn in Hid. unfold LinuxEnforcer_Identity in Hid. by rewrite (validated_path a Hv), Hp, Hpath in Hid.
  - intros key b Hk Hrep. cbn in Hlistb. unfold k8s_List, Node_ListBindings, api_request in Hlistb.
    assert (bindings = List.filter (list_selects wb_Meta ListAll) (map snd (map_to_list (nd_bindings nd)))) as ->.
    { rewrite <- Hb. destruct (nd_api_faults nd1) as [|[e|] rest]; cbn in Hlistb; [by injection Hlistb|done|by injection Hlistb]. }
    apply Hw; [|done]. apply list_elem_of_In, filter_In. split; [|done]. apply in_map_iff. exists (key, b). split; [done|].
    by apply list_elem_of_In, elem_of_map_to_list.
Qed.

(** ** The passes *)

Lemma all_withdrawn_same s nd nd1 w :
  anchored nd nd1 -> same_disk (nd_disk nd) (nd_disk nd1) -> all_withdrawn s nd1 w -> all_withdrawn s nd w.
Proof.
  intros [Hp Hb] Hd [Hn Hw]. split.
  - intros a Hrec Hpath. apply Hn; [by eapply same_record|by rewrite Hp].
  - intros key b Hk. apply (Hw key). by rewrite Hb.
Qed.

Lemma all_withdrawn_kept s nd w w' :
  (forall path, node_denied path w.2 -> node_denied path w'.2) -> (forall uid, uid_withdrawn uid w -> uid_withdrawn uid w') ->
  all_withdrawn s nd w -> all_withdrawn s nd w'.
Proof. intros Hd Hu [Hn Hw]. split; eauto. Qed.

Context (token_keeps : forall file, nkeeps (read_token file)) (relay_keeps : forall token request, nkeeps (relay_Do token request)).

Lemma installation_node_keeps release held : nkeeps (validateInstallation release held).
Proof. apply on_disk_keeps. Qed.

Lemma installation_reads release held nd r nd1 :
  node_good nd -> validateInstallation release held nd = (r, nd1) ->
  node_good nd1 /\ (forall path, node_denied path nd -> node_denied path nd1) /\ anchored nd nd1 /\ same_disk (nd_disk nd) (nd_disk nd1).
Proof.
  intros Hg E. destruct (wp_elim _ _ _ _ _ (installation_node_keeps release held nd Hg) E) as [Hg1 Hd1].
  unfold validateInstallation, Node_InstallationCheck in E. pose proof (f_equal snd E) as E2. cbn in E2. subst nd1.
  split_and!; [done|done|apply disk_elsewhere|]. unfold on_disk.
  assert (keeps (same_disk (nd_disk nd)) (if held then ValidateCNIInstallationForDenyHold receiptFile binaryFile configFile release
    else ValidateCNIInstallation receiptFile binaryFile configFile release)) as Hreads by (destruct held; apply validate_reads).
  specialize (Hreads (nd_disk nd)). destruct (_ (nd_disk nd)) as [r' d]. by apply Hreads.
Qed.

Lemma node_publish s w :
  node_good w.2 ->
  wp (publishObservation s reporter) (fun r w' => exists p, r = Ok p /\ node_good w'.2 /\ (forall path, node_denied path w.2 -> node_denied path w'.2) /\
    (forall uid, uid_withdrawn uid w -> uid_withdrawn uid w') /\ (p = Unpublished (Ok tt) -> all_withdrawn s w'.2 w')) w.
Proof using token_keeps relay_keeps.
  intros Hg. eapply wp_mono; [apply wp_and; [apply wp_and; [apply wp_and|]|]|].
  - apply (publish_flags s reporter).
  - exact (publishObservation_keeps (H4 := base) s reporter token_keeps relay_keeps w Hg).
  - by apply (uid_publish s reporter).
  - instantiate (1 := fun r w' => r = Ok (Unpublished (Ok tt)) -> all_withdrawn s w'.2 w').
    destruct w as [st nd]. unfold publishObservation. wp_step. apply wp_MakeReport. intros report. cbn [after]. wp_step. wp_step.
    apply wp_on_world. eapply wp_mono; [exact (Reporter_keeps (H4 := base) reporter token_keeps relay_keeps report nd Hg)|].
    intros [[]|e] nd1 [Hg1 _].
    + wp_step. apply wp_SetRelay. cbn [after]. by wp_step.
    + wp_step. apply wp_SetRelay. cbn [after]. wp_step. wp_step. wp_with node_LockdownAll; [done|].
      intros r w2 (_ & [Hp Hb] & (Hf & Hm & Ho & Hd & Ht) & Hall). wp_step. intros [= ->].
      apply (all_withdrawn_same s _ nd1); [by split|by split_and!|by apply Hall].
  - intros r w' [[[(p & -> & _) [Hg' Hd]] [_ Hu]] Hl]. exists p. split_and!; [done|done|done|done|]. intros ->. by apply Hl.
Qed.

(** What a pass leaves behind, whatever it met. *)
Record pass_leaves (s : Service) (release : ReleaseIdentity) (nd : Node) (log : pass_log) (w' : World) : Prop := {
  pl_denied path : node_denied path nd -> node_denied path w'.2;
  pl_invalid e : (validateInstallation release (s_TransitionHeld s) nd).1 = Fail e ->
    exists lockdown, lg_invalid_lockdown log = Some lockdown /\ lg_reconcile log = None /\ (lockdown = Ok tt -> all_withdrawn s nd w');
  pl_unpublished : last_lockdown log = Some (Ok tt) -> all_withdrawn s w'.2 w'
}.

(** C4: A pass fails closed.  One round of the agent's loop, whatever the relay,
    the API server, the disk and the kernel do, opens no namespace.  If the
    installation of the plugin is not valid, the round locks down and reconciles
    nothing; if that lockdown succeeds, then at the end of the round the namespace
    of every attachment on record is confined and every binding of the node is
    reported as not ready.  The same holds when a report could not be published
    and the lockdown that follows succeeds. *)
Theorem pass_fails_closed s release st nd :
  node_good nd ->
  wp (reconcilePass s reporter release) (fun r w' => exists log, r = Ok log /\ pass_leaves s release nd log w') (st, nd).
Proof using token_keeps relay_keeps.
  intros Hg. unfold reconcilePass. wp_step. wp_step. apply wp_on_world. wp_run installation nd1 E.
  destruct (installation_reads _ _ _ _ _ Hg E) as (Hg1 & Hd1 & Ha1 & Hdisk1).
  wp_step. destruct installation as [[]|e].
  - wp_step. cbn [after]. wp_step. wp_with node_publish; [exact Hg1|]. intros ? [st2 nd2] (first & -> & Hg2 & Hd2 & _ & Hl2). cbn [after].
    destruct first as [|lockdown]; cbn [is_published andb].
    2: { wp_step. eexists. split; [done|]. split; cbn in *; [by auto|by rewrite E|]. intros [= ->]. by apply Hl2. }
    wp_step. wp_step. eapply wp_mono.
    { apply (ReconcileAll_keeps (H4 := base) s (withdrawal_publisher reporter)); [|exact Hg2].
      intros publish report [= <-]. exact (Reporter_keeps (H4 := base) reporter token_keeps relay_keeps report). }
    intros reconciled [st3 nd3] [Hg3 Hd3]. wp_step. apply wp_SetBackend. cbn [after]. wp_step. wp_with node_publish; [exact Hg3|].
    intros ? [st4 nd4] (second & -> & Hg4 & Hd4 & _ & Hl4). cbn [after]. wp_step. eexists. split; [done|]. split; cbn in *.
    + intros path Hp. by apply Hd4, Hd3, Hd2, Hd1.
    + by rewrite E.
    + destruct second as [|lockdown]; [done|]. intros [= ->]. by apply Hl4.
  - wp_step. apply wp_SetBackend. cbn [after]. wp_step. wp_step.
    eapply wp_mono; [apply wp_and; [by apply node_LockdownAll|apply (LockdownAll_keeps (H4 := base) s); exact Hg1]|].
    intros lockdown [st2 nd2] [(Hg2 & _ & _ & Hall) [_ Hd2]]. wp_step. cbn [after]. wp_step. wp_with node_publish; [exact Hg2|].
    intros ? [st3 nd3] (first & -> & Hg3 & Hd3 & Hu3 & Hl3). cbn [after]. rewrite andb_false_r. wp_step.
    eexists. split; [done|]. split; cbn in *.
    + intros path Hp. by apply Hd3, Hd2, Hd1.
    + intros e' _. exists lockdown. split_and!; [done|done|]. intros ->.
      apply (all_withdrawn_kept s nd (st2, nd2)); [done|done|]. apply (all_withdrawn_same s nd nd1); [done|done|]. by apply Hall.
    + destruct first as [|l]; [done|]. intros [= ->]. by apply Hl3.
Qed.

(** *** Readiness *)

Lemma installation_valid release held nd nd1 :
  validateInstallation release held nd = (Ok tt, nd1) ->
  described receiptFile binaryFile configFile release (nd_disk nd) /\ (held = false -> CniInstall.guarded configFile.1 (nd_disk nd)) /\
  same_names (nd_disk nd) (nd_disk nd1).
Proof.
  unfold validateInstallation, Node_InstallationCheck, on_disk. intros E.
  destruct held.
  - destruct (ValidateCNIInstallationForDenyHold _ _ _ _ _) as [r d] eqn:Ev. injection E as -> <-.
    destruct (wp_elim _ _ _ _ _ (validateCNIInstallation_spec _ _ _ _ _ _) Ev) as [Hs Hd]. destruct (Hd eq_refl) as [? _]. by split_and!.
  - destruct (ValidateCNIInstallation _ _ _ _ _) as [r d] eqn:Ev. injection E as -> <-.
    destruct (wp_elim _ _ _ _ _ (validated_guarded _ _ _ _ _) Ev) as [Hs Hd]. destruct (Hd eq_refl) as [? ?]. by split_and!.
Qed.

(** C5: An advertised node has the plugin in its path.  After a round of the loop
    the agent that [run] makes counts as ready, so that it admits CNI commands and
    offers the node to the scheduler, only if in this round the receipt, the
    binary and the configuration on the disk were found to be those of the
    release, with the runtime's first configuration a chain that runs the plugin
    after the primary one; the relay accepted the report before the attachments
    were reconciled; all of them reconciled; and the relay accepted the report
    after. *)
Theorem pass_ready_sound f bootID random release st nd :
  let s := new_service f bootID random in
  wp (reconcilePass s reporter release) (fun r w' => forall log, r = Ok log -> Ready s w'.1 = true ->
    described receiptFile binaryFile configFile release (nd_disk nd) /\ CniInstall.guarded configFile.1 (nd_disk nd) /\
    lg_first log = Published /\ lg_reconcile log = Some (Ok tt) /\ lg_second log = Some Published) (st, nd).
Proof.
  intros s. wp_with pass_flags. intros ? w' (log & -> & Hinst & Hflags) ? [= <-] Hready.
  unfold Ready in Hready. cbn [s_RequireRelay new_service s negb orb] in Hready.
  rewrite !andb_true_iff, negb_true_iff in Hready. destruct Hready as [[Hheld Hb] Hr].
  destruct Hflags as (Hok & Hfirst & Hrec & Hsecond); [by rewrite Hb, Hr|]. rewrite Hok in Hinst.
  destruct (validateInstallation release (s_TransitionHeld s) nd) as [r nd1] eqn:E. cbn in Hinst. subst r.
  destruct (installation_valid _ _ _ _ E) as (? & Hg & _). split_and!; [done|by apply Hg|done|done|done].
Qed.

(** ** The start *)

Lemma recover_spec s release st nd :
  node_good nd ->
  wp (recoverInstalledState s release) (fun r w' => st_relayHealthy w'.1 = st_relayHealthy st /\
    (r = Ok tt -> described receiptFile binaryFile configFile release (nd_disk nd) /\ all_withdrawn s nd w')) (st, nd).
Proof.
  intros Hg. unfold recoverInstalledState. wp_step. wp_step. apply wp_on_world. wp_run installed nd1 E.
  destruct (installation_reads _ _ _ _ _ Hg E) as (Hg1 & _ & Ha1 & Hdisk1). destruct installed as [[]|]; cbn [after]; [|done].
  destruct (installation_valid _ _ _ _ E) as (Hdesc & _). wp_step.
  eapply wp_mono; [apply wp_and; [by apply node_LockdownAll|apply (flags_LockdownAll s (st_relayHealthy st) (st_backendHealthy st)); by split]|].
  intros [[]|] w2 [(_ & _ & _ & Hall) [[Hr _] _]]; [|done]. split; [done|]. intros _. split; [done|].
  apply (all_withdrawn_same s nd nd1); [done|done|]. by apply Hall.
Qed.

Lemma described_release r1 r2 d1 d2 :
  same_names d1 d2 -> described receiptFile binaryFile configFile r1 d1 -> described receiptFile binaryFile configFile r2 d2 -> r1 = r2.
Proof.
  intros [Hf _] (bytes & receipt & rest & binary & config & Hb & Hd & _ & _ & <- & _)
    (bytes' & receipt' & rest' & binary' & config' & Hb' & Hd' & _ & _ & <- & _). rewrite Hf in Hb'. congruence.
Qed.

(** C35: The agent starts to serve closed.  When the start succeeds, the flags are
    in order and the installed plugin is that of the configured CNI release; the
    agent is not ready yet; and if its backend counts as healthy, the release it
    reports is the release of the installed plugin and everything on record has
    been locked down and withdrawn. *)
Theorem start_serves_closed f bootID random nd :
  node_good nd ->
  let s := new_service f bootID random in
  wp (start s f) (fun r w' => r = Ok tt ->
    flags_refused f = None /\ described receiptFile binaryFile configFile (fl_cniReleaseIdentity f) (nd_disk nd) /\ Ready s w'.1 = false /\
    (st_backendHealthy w'.1 = true -> fl_releaseIdentity f = fl_cniReleaseIdentity f /\ all_withdrawn s nd w')) (new_state, nd).
Proof.
  intros Hg s. unfold start. wp_step. wp_step. destruct (flags_refused f); [done|]. cbn [after of_error]. wp_step. wp_step.
  apply wp_on_world. wp_run installed nd1 E1. destruct installed as [[]|]; cbn [after]; [|done].
  destruct (installation_reads _ _ _ _ _ Hg E1) as (Hg1 & _ & Ha1 & Hdisk1). destruct (installation_valid _ _ _ _ E1) as (Hdesc & _ & Hnames).
  wp_step. wp_step. wp_with recover_spec; [done|]. intros recovered [st2 nd2] [Hrelay Hrec]. cbn in Hrelay.
  apply wp_SetBackend. intros _. split_and!; [done|done| |].
  { unfold Ready. cbn. rewrite Hrelay. apply andb_false_r. }
  destruct recovered as [[]|]; [|done]. intros _. destruct (Hrec eq_refl) as [Hdesc2 Hall]. split.
  - symmetry. exact (described_release _ _ _ _ Hnames Hdesc Hdesc2).
  - apply (all_withdrawn_kept s nd (st2, nd2)); [done|done|]. by apply (all_withdrawn_same s nd nd1).
Qed.

End NodeLoop.

(** ** A node whose plugin is not installed, and one where it is *)

Module LoopSample.

Import NodeSample InstallSample.

#[local] Existing Instance InstallSample.sample_json.
#[local] Instance sample_reports : Json Report := {| Http.Marshal _ := Some "{}"; Http.Decode _ := None |}.
#[local] Instance sample_token : TokenSource Node := fun _ => mret "token".

(** A relay that cannot be reached, and one that accepts. *)
Definition unreachable : RelayTransport Node := fun _ _ => io_fail (ENew "connection refused").
Definition accepting : RelayTransport Node := fun _ _ => mret (mkHttpResponse StatusNoContent "").

Definition receipt : path := op_ReceiptPath (options false).
Definition binary : path := op_BinaryPath (options false).
Definition config : path := op_ConfigPath (options false).
Definition relay : Reporter := mkReporter (Some ("relay", "/report")) "/var/run/token".
Definition flags : Flags :=
  mkFlags ("/run/waycloak", "agent.sock") ("/run/waycloak", "key") "node-a" (Some ("relay", "/report")) InstallSample.release "profile"
    InstallSample.release "" false Second.

Lemma token_ok file : keeps_denied node_good node_denied (read_token (W := Node) file).
Proof. by apply keeps_pure. Qed.
Lemma unreachable_ok token request : keeps_denied node_good node_denied (unreachable token request).
Proof. by apply keeps_pure. Qed.

(** The plugin is not on the disk and the relay is away. *)
Definition blind_pass : res pass_log * (SvcState * Node) :=
  reconcilePass (H3 := attachment_store marshal unmarshal "/state") (H6 := unreachable) (H7 := Node_InstallationCheck receipt binary config)
    NodeSample.service relay InstallSample.release (NodeSample.state, NodeSample.node).
Definition blind_log : pass_log :=
  match blind_pass.1 with Ok log => log | Fail _ => mkPassLog (Ok tt) None Published None None end.

Lemma blind_seen : blind_pass = (Ok blind_log, blind_pass.2).
Proof.
  assert (res_ok blind_pass.1 = true) as Hok by (vm_compute; reflexivity). unfold blind_log. revert Hok.
  generalize blind_pass. intros [[log|e] w'] Hok; [reflexivity|discriminate Hok].
Qed.
Lemma blind_first : lg_invalid_lockdown blind_log = Some (Ok tt).
Proof. vm_compute. reflexivity. Qed.
Lemma blind_last : last_lockdown blind_log = Some (Ok tt).
Proof. vm_compute. reflexivity. Qed.
Lemma blind_invalid : exists e, (validateInstallation (InstallationCheck := Node_InstallationCheck receipt binary config) InstallSample.release
  (s_TransitionHeld NodeSample.service) NodeSample.node).1 = Fail e.
Proof. eexists. vm_compute. reflexivity. Qed.

Lemma pass_fails_closed_witness :
  all_withdrawn unmarshal "/state" NodeSample.service NodeSample.node blind_pass.2 /\
  all_withdrawn unmarshal "/state" NodeSample.service blind_pass.2.2 blind_pass.2.
Proof.
  pose proof blind_first as Hfirst. pose proof blind_last as Hlast. destruct blind_invalid as [e He].
  pose proof blind_seen as Hseen. unfold blind_pass at 1 in Hseen.
  pose proof (wp_elim _ _ _ _ _ (pass_fails_closed (H2 := unreachable) marshal unmarshal "/state" receipt binary config relay token_ok unreachable_ok
    NodeSample.service InstallSample.release NodeSample.state NodeSample.node node_is_good) Hseen) as Hpass.
  cbv beta in Hpass. clear Hseen. revert Hpass Hfirst Hlast. generalize blind_log as log. generalize blind_pass as result.
  intros result log (log' & Hlog & [_ Hl Hu]) Hfirst Hlast. injection Hlog as <-.
  split; [|by apply Hu]. destruct (Hl e He) as (lockdown & Hsome & _ & Hall). apply Hall. congruence.
Defined.

(** The node once the plugin is installed, with a Pod's attachment on record. *)
Definition installed : Node :=
  set_disk (restart (Install (options false) (plain_disk [])).2) NodeSample.node.
Definition attachment : Attachment := mkAttachment "podnet" identity "4:1" PhaseReady "binding-1" 1 "gateway-1" 900.
Definition attached : Node := (on_disk (FileStore_Save marshal "/state" attachment) installed).2.

Lemma set_disk_good d nd : node_good nd -> node_good (set_disk d nd).
Proof. done. Qed.
Lemma disk_good {A} (m : IO FS A) nd : node_good nd -> node_good (on_disk m nd).2.
Proof. unfold on_disk, node_good. by destruct (m (nd_disk nd)). Qed.
Lemma attached_is_good : node_good attached.
Proof. apply disk_good, set_disk_good, node_is_good. Qed.

(** The agent starts there. *)
Notation agent := (new_service flags "boot-1" "instance-1").
Notation started :=
  (start (H3 := attachment_store marshal unmarshal "/state") (H7 := Node_InstallationCheck receipt binary config) agent flags
    (new_state, attached)).

Lemma started_ok : started.1 = Ok tt /\ st_backendHealthy started.2.1 = true.
Proof. split; vm_compute; reflexivity. Qed.
Lemma started_seen : started = (Ok tt, started.2).
Proof. rewrite <- (proj1 started_ok). generalize started. by intros []. Qed.

Lemma attached_on_record : on_record unmarshal "/state" (nd_disk attached) attachment.
Proof.
  eexists _, _. split; [|split; [|split]].
  2: instantiate (1 := (record_path "/state" (Attachment_Key attachment)).2); vm_compute; reflexivity.
  all: vm_compute; reflexivity.
Qed.

Lemma attached_path : nd_paths attached !! pi_NetNS (a_Pod attachment) = Some (a_NamespaceIdentity attachment).
Proof. vm_compute. reflexivity. Qed.

Lemma start_serves_closed_witness :
  started.1 = Ok tt /\ Ready agent started.2.1 = false /\ st_backendHealthy started.2.1 = true /\
  described receipt binary config InstallSample.release (nd_disk attached) /\ node_denied "/run/netns/a" started.2.2.
Proof.
  pose proof started_seen as Hseen.
  pose proof (start_serves_closed marshal unmarshal "/state" receipt binary config flags "boot-1" "instance-1" attached
    attached_is_good) as Hwp. cbv zeta in Hwp.
  pose proof (wp_elim _ _ _ _ _ Hwp Hseen) as Hstart. clear Hwp. cbv beta in Hstart. specialize (Hstart eq_refl). clear Hseen. destruct started_ok as [Hok Hbackend]. pose proof attached_on_record as Hrecord.
  revert Hstart Hok Hbackend. generalize started. intros [r w'] Hstart Hok Hbackend. cbn [fst snd] in Hok, Hbackend, Hstart |- *.
  destruct Hstart as (_ & Hdesc & Hready & Hwithdrawn). split_and!; [done|done|done|exact Hdesc|].
  destruct (Hwithdrawn Hbackend) as [_ [Hnames _]]. exact (Hnames attachment Hrecord attached_path).
Defined.

(** Once the plugin is installed and the relay accepts, one round makes the node
    ready. *)
Lemma installed_becomes_ready :
  let s := new_service flags "boot-1" "instance-1" in
  Ready s (reconcilePass (H3 := attachment_store marshal unmarshal "/state") (H6 := accepting) (H7 := Node_InstallationCheck receipt binary config)
    s relay InstallSample.release (new_state, installed)).2.1 = true.
Proof. vm_compute. reflexivity. Qed.

End LoopSample.
