(* ===== verification/Transition.v ===== *)
(** * Release transitions (internal/waycloakctl)

    How the runtime moves from one exact release to another without ever opening
    a workload in between: the hold of the node agents (install_quiescence.go),
    the rollout of the gateway Pods (install_gateway_rollout.go) and the phases
    of a native installation (native_install.go).  The API server, Helm behind
    [InstallRuntime], and the preflight are parameters. *)

From S2P Require Import Prelude Netip Api Kube CniTypes CniPlugin CniInstall Enrollment Scheduling Release.

(** ** Objects and requests *)

Record StatefulSet := mkStatefulSet { ss_Meta : ObjectMeta; ss_Template : PodTemplate; ss_UpdateRevision : string }.
Record RuntimePod := mkRuntimePod {
  rp_Pod : Pod;
  rp_Containers : list ReleaseContainer;
  rp_ContainerStatuses : list (string * bool)      (** the names and whether each is ready *)
}.
Record ClusterNode := mkClusterNode { cn_Node : NodeObject; cn_Conditions : list (string * string) }.

(** [Update], which the server refuses for an object that changed since it was
    read; [Delete] with a UID as precondition; [List] of nodes by labels. *)
Class Updater (W T : Type) := k8s_Update : T -> IO W unit.
Class UidDeleter (W T : Type) := k8s_DeleteUID : ObjectKey -> string -> IO W unit.

Class InstallRuntime (W : Type) := {
  runtime_CRDIdentities : Artifact -> IO W (gmap string string);
  runtime_Apply : InstallPlan -> string -> IO W unit
}.

(** ** Polling *)

Section Poll.
Context {W : Type} `{Timer W}.

(** [wait.PollUntilContextTimeout], with the condition tried at once: an error
    of the condition ends it. *)
Definition PollUntilContextTimeout (interval timeout : duration) (condition : IO W bool) : IO W unit :=
  polled ← bounded_wait "context deadline exceeded" timeout interval (
    met ← io_try condition;
    match met with
    | Ok true => mret (Ok tt)
    | Ok false => io_fail (ENew "condition is not met")
    | Fail err => mret (Fail err)
    end);
  io_lift polled.

Lemma wp_poll (I : W -> Prop) (P : Prop) interval timeout (condition : IO W bool) w :
  (forall w, I w -> wp condition (fun r w' => I w' /\ (r = Ok true -> P)) w) -> (forall d t, keeps I (Select d t)) -> I w ->
  wp (PollUntilContextTimeout interval timeout condition) (fun r w' => I w' /\ (r = Ok tt -> P)) w.
Proof.
  intros Hc Hs HI. unfold PollUntilContextTimeout. wp_step.
  eapply wp_mono; [apply (wp_retry I (fun polled _ => polled = Ok tt -> P)); [|by intros d t w1; apply Hs|done]|].
  - intros w1 HI1. do 2 wp_step. eapply wp_mono; [by apply Hc|]. intros [[|]|e] w2 [HI2 HP]; cbn [after]; wp_step; (split; [done|]); intros v [= <-]; auto; done.
  - intros [polled|e] w1 [HI1 HP]; cbn [after]; [|done]. wp_step. split; [done|]. by apply HP.
Qed.

End Poll.

(** A poll with a variable of its own. *)
Definition with_local {S W A} (s : S) (m : IO (S * W) A) : IO W A := fun w => let '(r, (_, w')) := m (s, w) in (r, w').
#[global] Instance local_timer {S W} `{Timer W} : Timer (S * W) := {|
  Now sw := Now sw.2;
  Select deadline tick := on_world (Select deadline tick)
|}.

Lemma wp_local {S W A} (s : S) (m : IO (S * W) A) Q (w : W) : wp m (fun r sw' => Q r sw'.2) (s, w) -> wp (with_local s m) Q w.
Proof. unfold wp, with_local. by destruct (m (s, w)) as [r [s' w']]. Qed.

(** ** The hold of the node agents (install_quiescence.go) *)

(** A missing generation is 0 in the typed object, and is not one. *)
Definition bindingAcknowledgesTransitionDeny (binding : VPNWorkloadBinding) (planID : string) : bool :=
  let status := wb_Status binding in
  let tracked kind := List.filter (fun condition => String.eqb (c_Type condition) kind) (wbs_Conditions status) in
  let denied kind :=
    match tracked kind with
    | [] => false
    | conditions => forallb (fun condition => negb (bool_decide (c_Status condition = ConditionTrue))) conditions
    end in
  negb (wbs_ObservedGeneration status =? 0) && (wbs_ObservedGeneration status =? Generation (wb_Meta binding)) &&
  (wbs_AppliedGeneration status =? 0) &&
  match wbs_Agent status with Some agent => String.eqb (nao_InstanceID agent) planID | None => false end &&
  denied ConditionProgrammed && denied ConditionReady && denied ConditionNodeReady.

(** Every scheduled agent runs the current template. *)
Definition agents_rolled_out (agent : DaemonSet) : bool :=
  (1 <=? ds_DesiredNumberScheduled agent) && (Generation (ds_Meta agent) <=? ds_ObservedGeneration agent) &&
  (ds_UpdatedNumberScheduled agent =? ds_DesiredNumberScheduled agent) && (ds_NumberReady agent =? ds_DesiredNumberScheduled agent) &&
  (ds_NumberAvailable agent =? ds_DesiredNumberScheduled agent) && (ds_NumberUnavailable agent =? 0).

(** The held agent's template: the image of the successor, the release it still
    reports, the hold and the plan. *)
Fixpoint with_identity (args : list string) (identities : list (string * string)) : res (list string) :=
  match identities with
  | [] => Ok args
  | (prefix, value) :: rest =>
      match optionalSingularArgument args prefix with
      | Fail e => Fail e
      | Ok existing =>
          if negb (str_empty existing) && negb (String.eqb existing value) then Fail (ENew "source node agent has a foreign argument")
          else with_identity (if str_empty existing then args ++ [prefix +:+ value] else args) rest
      end
  end.

Definition held_args (args : list string) (plan : InstallPlan) : res (list string) :=
  match with_identity args [("--cni-release-version=", rel_Version (ip_Source plan));
                            ("--cni-release-manifest-digest=", rel_ManifestDigest (ip_Source plan))] with
  | Ok args => Ok (args ++ ["--observation-capability-hold=true"; "--observation-capability-hold-id=" +:+ ip_PlanID plan])
  | Fail e => Fail e
  end.

Fixpoint replace_container (containers : list ReleaseContainer) (name : string) (change : ReleaseContainer -> ReleaseContainer) : list ReleaseContainer :=
  match containers with
  | [] => []
  | container :: rest =>
      if String.eqb (rc_Name container) name then change container :: rest else container :: replace_container rest name change
  end.

Definition set_template (template : PodTemplate) (agent : DaemonSet) : DaemonSet :=
  mkDaemonSet (ds_Meta agent) template (ds_ObservedGeneration agent) (ds_DesiredNumberScheduled agent) (ds_UpdatedNumberScheduled agent)
    (ds_NumberReady agent) (ds_NumberAvailable agent) (ds_NumberUnavailable agent).

Definition held_agent (agent : DaemonSet) (plan : InstallPlan) : res DaemonSet :=
  let template := ds_Template agent in
  container ← requiredContainer (pt_Containers template) "node-agent";
  held ← observationCapabilityHeld (rc_Args container);
  if held : bool then Fail (ENew "source node agent already contains an unbound transition hold")
  else
    match rm_Images (ip_Target plan) !! "waycloak-node-agent" with
    | None => Fail (ENew "reviewed target lacks an exact node-agent image")
    | Some artifact =>
        if str_empty (af_Repository artifact) || negb (validDigest (af_Digest artifact))
        then Fail (ENew "reviewed target lacks an exact node-agent image")
        else
          args ← held_args (rc_Args container) plan;
          let existing := map_get (pt_Annotations template) installTransitionPlanKey in
          if negb (str_empty existing) && negb (String.eqb existing (ip_PlanID plan))
          then Fail (ENew "source node agent contains a foreign transition hold")
          else Ok (set_template (mkPodTemplate (<[installTransitionPlanKey := ip_PlanID plan]> (pt_Annotations template))
                 (pt_InitContainers template)
                 (replace_container (pt_Containers template) "node-agent"
                    (fun container => mkReleaseContainer (rc_Name container) (artifact_ref artifact) args (rc_VolumeMounts container)))
                 (pt_Volumes template) (pt_NodeSelector template)) agent)
    end.

Section Quiescence.
Context `{ReleaseJson} `{ReleaseObjects} {W : Type} `{Timer W}.
Context `{Getter W CustomResourceDefinition} `{Getter W Deployment} `{Getter W DaemonSet} `{Getter W VPNGatewayClass}
  `{Getter W Secret} `{Lister W Secret} `{Updater W DaemonSet} `{Lister W VPNWorkloadBinding}.

Definition agent_key (plan : InstallPlan) : ObjectKey := mkObjectKey (ip_Namespace plan) (chartFullname (ip_Release plan) +:+ "-node-agent").

(** The checkpoint that is waited for is the quiesced one of its kind. *)
Definition quiesced_at (c : deployedReleaseComponents) (plan : InstallPlan) (expected : checkpoint) : bool :=
  match expected with
  | CheckpointQuiescedClassWithdrawn => exactQuiescedComponents c plan true
  | CheckpointQuiescedClassReplaced => exactQuiescedClassReplacedComponents c plan
  | _ => exactQuiescedComponents c plan false
  end.

Definition quiescent (plan : InstallPlan) (expected : checkpoint) : IO W bool :=
  observed ← io_try (observeDeployedReleaseComponents (ip_Namespace plan) (ip_Release plan));
  match observed with
  | Fail _ => mret false
  | Ok c =>
      if negb (quiesced_at c plan expected) then mret false
      else
        agent ← k8s_Get (T := DaemonSet) (agent_key plan);
        if negb (agents_rolled_out agent) then mret false
        else
          bindings ← k8s_List (T := VPNWorkloadBinding) ListAll;
          mret (forallb (fun binding => bindingAcknowledgesTransitionDeny binding (ip_PlanID plan)) bindings)
  end.

Definition waitForTransitionQuiescence (plan : InstallPlan) (expected : checkpoint) : IO W unit :=
  io_wrap "wait for every node attachment to acknowledge transition deny"
    (PollUntilContextTimeout (250 * Millisecond) (2 * Minute) (quiescent plan expected)).

(** Which quiesced checkpoint follows, whether it is already reached, and
    whether the components are those of the checkpoint before it. *)
Definition quiescence_goal (c : deployedReleaseComponents) (plan : InstallPlan) : checkpoint * bool * bool :=
  let source := ip_Source plan in
  match dc_Class c with
  | None => (CheckpointQuiescedClassWithdrawn, exactQuiescedComponents c plan true, exactSourceComponents c source true)
  | Some _ =>
      if exactClassReplacedComponents c source (ip_Target plan) || exactQuiescedClassReplacedComponents c plan
      then (CheckpointQuiescedClassReplaced, exactQuiescedClassReplacedComponents c plan,
            exactClassReplacedComponents c source (ip_Target plan))
      else (CheckpointQuiesced, exactQuiescedComponents c plan false, exactSourceComponents c source false)
  end.

Definition ensureTransitionQuiescence (plan : InstallPlan) : IO W unit :=
  c ← io_wrap "observe pre-transition quiescence boundary" (observeDeployedReleaseComponents (ip_Namespace plan) (ip_Release plan));
  let '(expected, alreadyQuiesced, validSource) := quiescence_goal c plan in
  if alreadyQuiesced : bool then waitForTransitionQuiescence plan expected
  else if negb validSource then io_fail (ENew "refusing transition quiescence outside the exact journal-bound source checkpoint")
  else
    agent ← io_wrap "read exact source node agent for transition hold" (k8s_Get (T := DaemonSet) (agent_key plan));
    held ← io_lift (held_agent agent plan);
    io_wrap "install exact transition deny hold" (k8s_Update held) ;;
    waitForTransitionQuiescence plan expected.

End Quiescence.

(** ** The rollout of the gateways (install_gateway_rollout.go) *)

Definition gatewayRolloutTimeout : duration := 5 * Minute.

Definition resourceCurrentReady (conditions : list Condition) (generation : Z) : bool :=
  existsb (fun condition => String.eqb (c_Type condition) ConditionReady && bool_decide (c_Status condition = ConditionTrue) &&
                            (c_ObservedGeneration condition =? generation)) conditions.
Definition gatewayCurrentReady (gateway : VPNGateway) : bool :=
  resourceCurrentReady (gw_Conditions (gw_Status gateway)) (Generation (gw_Meta gateway)).

(** The last container of a name counts. *)
Definition last_values {V} (entries : list (string * V)) : gmap string V := foldl (fun m entry => <[entry.1 := entry.2]> m) ∅ entries.

Definition gatewayContainersMatch (containers : list ReleaseContainer) (engine agent : string) : bool :=
  let images := last_values (map (fun container => (rc_Name container, rc_Image container)) containers) in
  String.eqb (map_get images "vpn-engine") engine && String.eqb (map_get images "gateway-agent") agent.

Definition release_annotations (annotations : gmap string string) (version manifestDigest : string) : bool :=
  String.eqb (map_get annotations "runtime.networking.waycloak.io/release-version") version &&
  String.eqb (map_get annotations "runtime.networking.waycloak.io/release-manifest-digest") manifestDigest.

Definition gatewayTemplateIsTarget (template : PodTemplate) (engine agent version manifestDigest : string) : bool :=
  gatewayContainersMatch (pt_Containers template) engine agent && release_annotations (pt_Annotations template) version manifestDigest.

Definition StatefulSetRevisionLabel : string := "controller-revision-hash".

Definition gatewayPodIsTarget (pod : RuntimePod) (statefulSet : StatefulSet) (engine agent version manifestDigest : string) : bool :=
  let meta := pod_Meta (rp_Pod pod) in
  let ready := last_values (rp_ContainerStatuses pod) in
  not_deleting meta && gatewayContainersMatch (rp_Containers pod) engine agent && release_annotations (Annotations meta) version manifestDigest &&
  negb (str_empty (ss_UpdateRevision statefulSet)) && String.eqb (map_get (Labels meta) StatefulSetRevisionLabel) (ss_UpdateRevision statefulSet) &&
  default false (ready !! "vpn-engine") && default false (ready !! "gateway-agent").

(** Whether the object is controlled by exactly this owner. *)
Definition owned_by (meta : ObjectMeta) (apiVersion kind name uid : string) : list OwnerReference :=
  List.filter (fun owner => String.eqb (or_APIVersion owner) apiVersion && String.eqb (or_Kind owner) kind && String.eqb (or_Name owner) name &&
                            String.eqb (or_UID owner) uid && match or_Controller owner with Some b => b | None => false end)
    (OwnerReferences meta).

(** The one object that has the owner, counted once for each reference to it. *)
Definition the_owned {T} (meta : T -> ObjectMeta) (apiVersion kind name uid : string) (items : list T) : res (option T) :=
  match concat (map (fun item => map (fun _ => item) (owned_by (meta item) apiVersion kind name uid)) items) with
  | [] => Ok None
  | [item] => Ok (Some item)
  | _ => Fail (ENew "multiple objects belong to the exact owner UID")
  end.

Section Rollout.
Context {W : Type} `{Timer W}.
Context `{Lister W VPNGateway} `{Getter W VPNGateway} `{Lister W StatefulSet} `{Lister W RuntimePod} `{UidDeleter W RuntimePod}.

Definition reobserveGateway (gateway : VPNGateway) : IO W (option VPNGateway) :=
  got ← io_try (k8s_Get (T := VPNGateway) (key_of (gw_Meta gateway)));
  match got with
  | Fail err => if IsNotFound err then io_fail (ENew "gateway was removed during exact release rollout") else mret None
  | Ok current => if negb (String.eqb (UID (gw_Meta current)) (UID (gw_Meta gateway)))
                  then io_fail (ENew "gateway UID changed during exact release rollout") else mret (Some current)
  end.

Definition exactGatewayStatefulSet (gateway : VPNGateway) : IO W (option StatefulSet) :=
  items ← k8s_List (T := StatefulSet) (InNamespace (Namespace (gw_Meta gateway)));
  io_lift (the_owned ss_Meta "networking.waycloak.io/v1beta1" "VPNGateway" (Name (gw_Meta gateway)) (UID (gw_Meta gateway)) items).

Definition exactStatefulSetPod (statefulSet : StatefulSet) : IO W (option RuntimePod) :=
  items ← k8s_List (T := RuntimePod) (InNamespace (Namespace (ss_Meta statefulSet)));
  io_lift (the_owned (fun pod => pod_Meta (rp_Pod pod)) "apps/v1" "StatefulSet" (Name (ss_Meta statefulSet)) (UID (ss_Meta statefulSet)) items).

(** Whether the gateway, as it is now, is ready or not as [wanted]. *)
Definition observed_ready (gateway : VPNGateway) (wanted : bool) : IO W bool :=
  current ← reobserveGateway gateway;
  mret (match current with Some current => Bool.eqb (gatewayCurrentReady current) wanted | None => false end).

(** The variables of the poll: the UID of the Pod that was deleted, if one was. *)
Definition gateway_rolled (gateway : VPNGateway) (target : ReleaseManifest) (engine agent : string) : IO (option string * W) bool :=
  statefulSet ← on_world (exactGatewayStatefulSet gateway);
  match statefulSet with
  | None => on_world (observed_ready gateway false)
  | Some statefulSet =>
      if negb (gatewayTemplateIsTarget (ss_Template statefulSet) engine agent (rm_Version target) (rm_ManifestDigest target)) then mret false
      else
        found ← on_world (exactStatefulSetPod statefulSet);
        rolled ← get_state;
        match found with
        | None => mret false
        | Some pod =>
            let meta := pod_Meta (rp_Pod pod) in
            let isTarget := gatewayPodIsTarget pod statefulSet engine agent (rm_Version target) (rm_ManifestDigest target) in
            match rolled with
            | None =>
                if negb isTarget then
                  io_wrap "delete exact stale gateway Pod"
                    (on_world (IgnoreNotFound (k8s_DeleteUID (T := RuntimePod) (key_of meta) (UID meta)))) ;;
                  put_state (Some (UID meta)) ;;
                  mret false
                else on_world (observed_ready gateway true)
            | Some oldUID =>
                if String.eqb (UID meta) oldUID then mret false
                else if negb isTarget then mret false
                else on_world (observed_ready gateway true)
            end
        end
  end.

Definition ensureTargetGatewayPod (target : ReleaseManifest) (gateway : VPNGateway) : IO W unit :=
  let engine := artifact_ref (image_of target "gluetun") in
  let agent := artifact_ref (image_of target "waycloak-gateway-agent") in
  if negb (validExactImageReference engine) || negb (validExactImageReference agent)
  then io_fail (ENew "target gateway image identity is incomplete")
  else io_wrap "wait for exact target gateway Pod and current Ready observation"
    (with_local None (PollUntilContextTimeout (250 * Millisecond) gatewayRolloutTimeout (gateway_rolled gateway target engine agent))).

Definition ensureTargetGatewayPods (target : ReleaseManifest) : IO W unit :=
  gateways ← io_wrap "inventory gateways for exact release rollout" (k8s_List (T := VPNGateway) ListAll);
  io_each (fun gateway => io_wrap "roll gateway to exact release" (ensureTargetGatewayPod target gateway))
    (sort_by (fun gateway => ObjectKey_String (key_of (gw_Meta gateway))) gateways).

End Rollout.

(** ** The native installation (native_install.go) *)

Definition NativePhaseHold : string := "Holding".
Definition NativePhaseClass : string := "WithdrawingClass".
Definition NativePhaseStage : string := "Staging".
Definition NativePhaseGateways : string := "ReplacingGateways".
Definition NativePhaseActivate : string := "Activating".
Definition NativePhaseVerify : string := "Verifying".
Definition NativePhaseComplete : string := "Complete".

Record NativeInstallPlan := mkNativeInstallPlan {
  ni_Plan : InstallPlan;
  ni_ClusterUID : string;
  ni_CAUID : string;
  ni_TLSUID : string;
  ni_CADigest : string;
  ni_ServingDigest : string;
  ni_Layout : NodeInstallLayout
}.
#[global] Instance NativeInstallPlan_eq_dec : EqDecision NativeInstallPlan.
Proof. solve_decision. Defined.

(** The report of the preflight, as far as a transition reads it. *)
Record PreflightReport := mkPreflightReport { pr_Compatible : bool; pr_ClusterUIDFingerprint : string }.

(** Checks of the same package that only read: no rotation of certificates and
    no repair is under way, the cluster is suitable, the identity of the
    port-forward controller. *)
Class InstallChecks (W : Type) := {
  ensureNoCertificateRotation : string -> string -> IO W unit;
  ensureNoInstallRepair : string -> string -> IO W unit;
  Preflight : string -> IO W PreflightReport;
  observePortForwardInstallIdentity : string -> string -> bool -> IO W PortForwardInstallIdentity
}.

(** [strconv.Quote]. *)
Class GoQuote := go_quote : string -> string.

Definition line (indent text : string) : string := indent +:+ text +:+ newline.

Definition controllerFirstBootstrapValues : string :=
  line "" "cniInstaller:" +:+ line "  " "enabled: false" +:+ line "" "nodeAgent:" +:+ line "  " "enabled: false" +:+
  line "" "defaultGatewayClass:" +:+ line "  " "enabled: false".

Definition nodeAgentTransitionHoldValues `{GoQuote} (plan : InstallPlan) : res string :=
  match rm_Images (ip_Target plan) !! "waycloak-node-agent" with
  | Some artifact =>
      if str_empty (af_Repository artifact) || negb (validDigest (af_Digest artifact)) || negb (validDigest (ip_PlanID plan))
      then Fail (ENew "reviewed transition lacks an exact successor node-agent hold identity")
      else Ok (line "" "nodeAgent:" +:+ line "  " "observationCapabilityHold: true" +:+
        line "  " ("transitionPlanID: " +:+ go_quote (ip_PlanID plan)) +:+ line "  " "image:" +:+
        line "    " ("repository: " +:+ go_quote (af_Repository artifact)) +:+ line "    " ("digest: " +:+ go_quote (af_Digest artifact)) +:+
        line "  " "releaseIdentity:" +:+ line "    " ("version: " +:+ go_quote (rel_Version (ip_Source plan))) +:+
        line "    " ("manifestDigest: " +:+ go_quote (rel_ManifestDigest (ip_Source plan))))
  | None => Fail (ENew "reviewed transition lacks an exact successor node-agent hold identity")
  end.

Definition with_layout (layout : NodeInstallLayout) (o : InstalledReleaseObservation) : InstalledReleaseObservation :=
  mkInstalledReleaseObservation (Some layout) (rel_State o) (rel_ObservationDigest o) (rel_HelmRevision o) (rel_Version o)
    (rel_ManifestDigest o) (rel_Images o) (rel_GatewayClassUID o) (rel_GatewayClassGeneration o) (rel_ObservationCAUID o)
    (rel_ObservationTLSUID o) (rel_ObservationCADigest o) (rel_ObservationServingDigest o) (rel_ObservationRotationID o) (rel_CRDIdentities o).

(** The phases in their order. *)
Definition native_phases : list string :=
  [NativePhaseHold; NativePhaseClass; NativePhaseStage; NativePhaseGateways; NativePhaseActivate; NativePhaseVerify; NativePhaseComplete].
Definition phase_rank (phase : string) : nat := match list_find (eq phase) native_phases with Some (rank, _) => rank | None => 0 end.

Definition deployed_source (plan : InstallPlan) : bool := String.eqb (rel_State (ip_Source plan)) installStateDeployed.

(** The components of the held target. *)
Definition staged_components (c : deployedReleaseComponents) (snapshot : NativeInstallPlan) : bool :=
  let plan := ni_Plan snapshot in
  let source := ip_Source plan in
  let target := ip_Target plan in
  sameTransitionTrust c (with_layout (ni_Layout snapshot) source) &&
  match dc_Class c with
  | Some class => negb (String.eqb (UID (gc_Meta class)) (rel_GatewayClassUID source)) && bool_decide (class_release class = target_release target)
  | None => false
  end &&
  held_for c (ip_PlanID plan) && bool_decide (dc_NodeAgentRelease c = source_release source) &&
  bool_decide (dc_ControllerRelease c = target_release target) && bool_decide (dc_CNIRelease c = target_release target) &&
  bool_decide (dc_CRDIdentities c = ip_TargetCRDs plan) &&
  (if negb (String.eqb (rel_ManifestDigest source) (rm_ManifestDigest target))
   then String.eqb (dc_ControllerTransitionPlanID c) (ip_PlanID plan) && String.eqb (dc_ControllerTransitionSourceVersion c) (rel_Version source) &&
        String.eqb (dc_ControllerTransitionSourceManifest c) (rel_ManifestDigest source)
   else controller_unbound c) &&
  forallb (fun name => image_matches c name (artifact_ref (image_of target name))) installRuntimeImageNames.

Definition NodeReadyCondition : string := "Ready".
Definition nativeNodesReady (nodes : list ClusterNode) (now : time) : bool :=
  match nodes with
  | [] => false
  | _ => forallb (fun node => String.eqb (node_label (cn_Node node) CNIReadyLabel) "true" && negb (Stale (cn_Node node) now DefaultFreshness) &&
                              existsb (fun condition => String.eqb condition.1 NodeReadyCondition && String.eqb condition.2 "True") (cn_Conditions node))
           nodes
  end.

Definition controller_rolled_out (controller : Deployment) : bool :=
  match dp_Replicas controller with
  | Some replicas => (1 <=? replicas) && (Generation (dp_Meta controller) <=? dp_ObservedGeneration controller) &&
                     (dp_UpdatedReplicas controller =? replicas) && (dp_AvailableReplicas controller =? replicas)
  | None => false
  end.
Definition daemons_rolled_out (ds : DaemonSet) : bool :=
  (1 <=? ds_DesiredNumberScheduled ds) && (Generation (ds_Meta ds) <=? ds_ObservedGeneration ds) &&
  (ds_UpdatedNumberScheduled ds =? ds_DesiredNumberScheduled ds) && (ds_NumberReady ds =? ds_DesiredNumberScheduled ds) &&
  (ds_NumberUnavailable ds =? 0).

Definition PodSucceeded : string := "Succeeded".
Definition PodFailed : string := "Failed".
Definition live_pod (pod : RuntimePod) : bool :=
  not_deleting (pod_Meta (rp_Pod pod)) && negb (String.eqb (pod_Phase (rp_Pod pod)) PodSucceeded) &&
  negb (String.eqb (pod_Phase (rp_Pod pod)) PodFailed).
Definition selected_pod (pod : RuntimePod) : bool :=
  live_pod pod && negb (str_empty (pod_NodeName (rp_Pod pod))) && negb (str_empty (map_get (Labels (pod_Meta (rp_Pod pod))) RouteLabel)).
Definition pod_uids (pods : list RuntimePod) : list string := map (fun pod => UID (pod_Meta (rp_Pod pod))) pods.
Definition bound_uid (binding : VPNWorkloadBinding) : string := lur_UID (wb_PodRef (wb_Spec binding)).
Definition binding_ready (binding : VPNWorkloadBinding) : bool :=
  resourceCurrentReady (wbs_Conditions (wb_Status binding)) (Generation (wb_Meta binding)).

(** Every binding of a live Pod is ready, and every enrolled Pod on a node has a
    binding. *)
Definition workloads_ready (pods : list RuntimePod) (bindings : list VPNWorkloadBinding) : bool :=
  forallb (fun binding => negb (contains_string (pod_uids (List.filter live_pod pods)) (bound_uid binding)) || binding_ready binding) bindings &&
  forallb (contains_string (map bound_uid bindings)) (pod_uids (List.filter selected_pod pods)).

Section Native.
Context `{ReleaseJson} `{ReleaseObjects} `{GoQuote} {W : Type} `{Timer W}.
Context `{Getter W CustomResourceDefinition} `{Getter W Deployment} `{Getter W DaemonSet} `{Getter W VPNGatewayClass}
  `{Getter W Secret} `{Lister W Secret} `{Updater W DaemonSet} `{Lister W VPNWorkloadBinding}.
Context `{Lister W VPNGateway} `{Getter W VPNGateway} `{Lister W StatefulSet} `{Lister W RuntimePod} `{UidDeleter W RuntimePod}.
Context `{Lister W ClusterNode} `{UidDeleter W VPNGatewayClass} `{InstallChecks W} `{InstallRuntime W}.

Definition check_crd (absentSource : bool) (entry : string * string) : IO W unit :=
  got ← io_try (k8s_Get (T := CustomResourceDefinition) (mkObjectKey "" entry.1));
  match got with
  | Ok live => if negb (String.eqb (installCRDSpecDigest (crd_Spec live)) entry.2)
               then io_fail (ENew "networking API migration is not supported by this transition") else mret tt
  | Fail err => if IsNotFound err && absentSource then mret tt else io_fail err
  end.

Definition validateNativeInstall (snapshot : NativeInstallPlan) : IO W unit :=
  let plan := ni_Plan snapshot in
  if negb (validDigest (ip_PlanID plan)) || negb (String.eqb (ip_PlanID plan) (installPlanIdentity plan)) || negb (validDigest (ni_ClusterUID snapshot))
  then io_fail (ENew "installation journal identity is invalid")
  else
    io_lift (manifest_Validate (ip_Target plan)) ;;
    if negb (bool_decide (ip_Chart plan = rm_Chart (ip_Target plan))) || negb (String.eqb (ip_Manifest plan) (rm_ManifestDigest (ip_Target plan)))
    then io_fail (ENew "installation artifact identity is inconsistent")
    else
      io_lift (observation_validate (ip_Source plan)) ;;
      ensureNoCertificateRotation (ip_Namespace plan) (ip_Release plan) ;;
      ensureNoInstallRepair (ip_Namespace plan) (ip_Release plan) ;;
      report ← Preflight (ip_OverlayCIDR plan);
      if negb (pr_Compatible report) || negb (String.eqb (pr_ClusterUIDFingerprint report) (ni_ClusterUID snapshot))
      then io_fail (ENew "installation no longer targets the same compatible cluster")
      else
        crds ← runtime_CRDIdentities (ip_Chart plan);
        if negb (bool_decide (crds = ip_TargetCRDs plan)) then io_fail (ENew "verified chart networking API identity changed")
        else
          io_each (check_crd (String.eqb (rel_State (ip_Source plan)) installStateAbsent)) (map_to_list crds) ;;
          ca ← k8s_Get (T := Secret) (mkObjectKey (ip_Namespace plan) (ip_Release plan +:+ "-observation-ca"));
          tls ← k8s_Get (T := Secret) (mkObjectKey (ip_Namespace plan) (ip_Release plan +:+ "-observation-tls"));
          if negb (String.eqb (UID (se_Meta ca)) (ni_CAUID snapshot)) || negb (String.eqb (UID (se_Meta tls)) (ni_TLSUID snapshot)) ||
             negb (String.eqb (ca_digest ca "ca.crt") (ni_CADigest snapshot)) || negb (String.eqb (ca_digest tls "tls.crt") (ni_ServingDigest snapshot))
          then io_fail (ENew "stable observation certificate identity changed")
          else
            match ip_PortForwarding plan with
            | None => mret tt
            | Some expected =>
                identity ← observePortForwardInstallIdentity (ip_Namespace plan) (pfi_ControllerTLSSecret expected) (pfi_AdapterProtocolEnabled expected);
                if negb (bool_decide (identity = expected)) then io_fail (ENew "port-forward trust changed during transition") else mret tt
            end.

Definition nativeStaged (snapshot : NativeInstallPlan) : IO W unit :=
  let plan := ni_Plan snapshot in
  c ← observeDeployedReleaseComponents (ip_Namespace plan) (ip_Release plan);
  if negb (staged_components c snapshot) then io_fail (ENew "runtime has not reached the exact held target")
  else
    bindings ← k8s_List (T := VPNWorkloadBinding) ListAll;
    if negb (forallb (fun binding => bindingAcknowledgesTransitionDeny binding (ip_PlanID plan)) bindings)
    then io_fail (ENew "held target is waiting for authenticated attachment denial") else mret tt.

Definition now_of_world : IO W time := fun w => (Ok (Now w), w).

Definition installed_ready (snapshot : NativeInstallPlan) : IO W bool :=
  let plan := ni_Plan snapshot in
  let name := chartFullname (ip_Release plan) in
  nodes ← k8s_List (T := ClusterNode) (MatchingLabels "" (nl_AgentNodeSelector (ni_Layout snapshot)));
  now ← now_of_world;
  if negb (nativeNodesReady nodes now) then mret false
  else
    controller ← k8s_Get (T := Deployment) (mkObjectKey (ip_Namespace plan) (name +:+ "-controller"));
    if negb (controller_rolled_out controller) then mret false
    else
      agent ← k8s_Get (T := DaemonSet) (mkObjectKey (ip_Namespace plan) (name +:+ "-node-agent"));
      if negb (daemons_rolled_out agent) then mret false
      else
        installer ← k8s_Get (T := DaemonSet) (mkObjectKey (ip_Namespace plan) (name +:+ "-cni-installer"));
        if negb (daemons_rolled_out installer) then mret false
        else
          bindings ← k8s_List (T := VPNWorkloadBinding) ListAll;
          pods ← k8s_List (T := RuntimePod) ListAll;
          mret (workloads_ready pods bindings).

Definition VerifyNativeInstall (snapshot : NativeInstallPlan) : IO W unit :=
  let plan := ni_Plan snapshot in
  target ← ObserveInstalledRelease (ip_Namespace plan) (ip_Release plan);
  io_lift (validateInstallTargetWithClassReplacement (with_layout (ni_Layout snapshot) (ip_Source plan)) target (ip_Target plan)
             (ip_TargetCRDs plan) (deployed_source plan)) ;;
  if negb (bool_decide (rel_NodeLayout target = Some (ni_Layout snapshot))) then io_fail (ENew "target changed owned CNI layout or node coverage")
  else if negb (String.eqb (rel_ObservationCAUID target) (ni_CAUID snapshot)) || negb (String.eqb (rel_ObservationTLSUID target) (ni_TLSUID snapshot)) ||
          negb (String.eqb (rel_ObservationCADigest target) (ni_CADigest snapshot)) ||
          negb (String.eqb (rel_ObservationServingDigest target) (ni_ServingDigest snapshot))
  then io_fail (ENew "target changed stable observation trust")
  else
    ensureTargetGatewayPods (ip_Target plan) ;;
    PollUntilContextTimeout Second (2 * Minute) (installed_ready snapshot).

(** Withdrawing the class: its deletion is observed by the next round. *)
Definition withdraw_class (plan : InstallPlan) : IO W string :=
  got ← io_try (k8s_Get (T := VPNGatewayClass) (mkObjectKey "" DefaultClassName));
  match got with
  | Fail err => if IsNotFound err then mret NativePhaseStage else io_fail err
  | Ok class =>
      if negb (String.eqb (UID (gc_Meta class)) (rel_GatewayClassUID (ip_Source plan)))
      then io_fail (ENew "foreign gateway class appeared during withdrawal")
      else
        waitForTransitionQuiescence plan CheckpointQuiesced ;;
        IgnoreNotFound (k8s_DeleteUID (T := VPNGatewayClass) (key_of (gc_Meta class)) (UID (gc_Meta class))) ;;
        mret NativePhaseClass
  end.

Definition AdvanceNativeInstall (snapshot : NativeInstallPlan) (phase : string) : IO W string :=
  let plan := ni_Plan snapshot in
  let deployed := deployed_source plan in
  validateNativeInstall snapshot ;;
  if String.eqb phase NativePhaseHold then
    if negb deployed then mret NativePhaseStage else ensureTransitionQuiescence plan ;; mret NativePhaseClass
  else if String.eqb phase NativePhaseClass then withdraw_class plan
  else if String.eqb phase NativePhaseStage then
    overrides ← io_lift (if deployed then nodeAgentTransitionHoldValues plan else Ok controllerFirstBootstrapValues);
    runtime_Apply plan overrides ;;
    if negb deployed then mret NativePhaseActivate else nativeStaged snapshot ;; mret NativePhaseGateways
  else if String.eqb phase NativePhaseGateways then
    nativeStaged snapshot ;; ensureTargetGatewayPods (ip_Target plan) ;; mret NativePhaseActivate
  else if String.eqb phase NativePhaseActivate then
    (if deployed then ensureTargetGatewayPods (ip_Target plan) else mret tt) ;;
    runtime_Apply plan "" ;;
    mret NativePhaseVerify
  else if String.eqb phase NativePhaseVerify then VerifyNativeInstall snapshot ;; mret NativePhaseComplete
  else io_fail (ENew "unknown installation phase").

End Native.

(** ** What a phase has seen *)

Section Seen.
Context `{ReleaseJson} `{ReleaseObjects} `{GoQuote} {W : Type} `{Timer W}.
Context `{Getter W CustomResourceDefinition} `{Getter W Deployment} `{Getter W DaemonSet} `{Getter W VPNGatewayClass}
  `{Getter W Secret} `{Lister W Secret} `{Updater W DaemonSet} `{Lister W VPNWorkloadBinding}.
Context `{Lister W VPNGateway} `{Getter W VPNGateway} `{Lister W StatefulSet} `{Lister W RuntimePod} `{UidDeleter W RuntimePod}.
Context `{Lister W ClusterNode} `{UidDeleter W VPNGatewayClass} `{InstallChecks W} `{InstallRuntime W}.
Context (I : W -> Prop).

(** The components are those of a quiesced checkpoint, every agent runs the held
    template, and every binding acknowledges the deny of the plan. *)
Definition denial_seen (planID : string) : Prop :=
  exists bindings, answered I (k8s_List (T := VPNWorkloadBinding) ListAll) (Ok bindings) /\
    Forall (fun binding => bindingAcknowledgesTransitionDeny binding planID = true) bindings.
Definition components_seen (plan : InstallPlan) (P : deployedReleaseComponents -> bool) : Prop :=
  exists c, answered I (observeDeployedReleaseComponents (ip_Namespace plan) (ip_Release plan)) (Ok c) /\ P c = true.
Definition quiesced_seen (plan : InstallPlan) (expected : checkpoint) : Prop :=
  components_seen plan (fun c => quiesced_at c plan expected) /\
  (exists agent, answered I (k8s_Get (T := DaemonSet) (agent_key plan)) (Ok agent) /\ agents_rolled_out agent = true) /\
  denial_seen (ip_PlanID plan).

(** The held target is in place and every binding still acknowledges. *)
Definition staged_seen (snapshot : NativeInstallPlan) : Prop :=
  components_seen (ni_Plan snapshot) (fun c => staged_components c snapshot) /\ denial_seen (ip_PlanID (ni_Plan snapshot)).

(** The gateway runs the target and is ready, or it has no runtime and does not
    claim to be ready. *)
Definition gateway_seen (target : ReleaseManifest) (gateway : VPNGateway) : Prop :=
  exists current, answered I (k8s_Get (T := VPNGateway) (key_of (gw_Meta gateway))) (Ok current) /\ UID (gw_Meta current) = UID (gw_Meta gateway) /\
    if gatewayCurrentReady current
    then exists statefulSet pod, answered I (exactGatewayStatefulSet gateway) (Ok (Some statefulSet)) /\
           answered I (exactStatefulSetPod statefulSet) (Ok (Some pod)) /\
           gatewayPodIsTarget pod statefulSet (artifact_ref (image_of target "gluetun")) (artifact_ref (image_of target "waycloak-gateway-agent"))
             (rm_Version target) (rm_ManifestDigest target) = true
    else answered I (exactGatewayStatefulSet gateway) (Ok None).
Definition gateways_seen (target : ReleaseManifest) : Prop :=
  exists gateways, answered I (k8s_List (T := VPNGateway) ListAll) (Ok gateways) /\ forall gateway, gateway ∈ gateways -> gateway_seen target gateway.

(** The target is installed as a whole and carries the workloads again. *)
Definition installed_seen (snapshot : NativeInstallPlan) : Prop :=
  let plan := ni_Plan snapshot in
  (exists target, answered I (ObserveInstalledRelease (ip_Namespace plan) (ip_Release plan)) (Ok target) /\
     source_release target = target_release (ip_Target plan) /\ rel_NodeLayout target = Some (ni_Layout snapshot)) /\
  gateways_seen (ip_Target plan) /\
  exists bindings pods, answered I (k8s_List (T := VPNWorkloadBinding) ListAll) (Ok bindings) /\
    answered I (k8s_List (T := RuntimePod) ListAll) (Ok pods) /\ workloads_ready pods bindings = true.

(** What the phases before this one have seen. *)
Definition phase_seen (snapshot : NativeInstallPlan) (phase : string) : Prop :=
  let plan := ni_Plan snapshot in
  (deployed_source plan = true ->
    ((1 <= phase_rank phase)%nat -> exists expected, quiesced_seen plan expected) /\
    ((3 <= phase_rank phase)%nat -> staged_seen snapshot) /\
    ((4 <= phase_rank phase)%nat -> gateways_seen (ip_Target plan))) /\
    ((6 <= phase_rank phase)%nat -> installed_seen snapshot).

(** The runtime may be asked for the plan of the journal.  Where a deployed
    source is replaced, it may be asked for the held target once the agents of
    the source hold, and for the target itself once the held one and the
    gateways were seen. *)
Definition apply_allowed (snapshot : NativeInstallPlan) (plan : InstallPlan) (overrides : string) : Prop :=
  plan = ni_Plan snapshot /\
    (deployed_source plan = true -> (exists expected, quiesced_seen plan expected) /\
    (nodeAgentTransitionHoldValues plan = Ok overrides \/ staged_seen snapshot /\ gateways_seen (ip_Target plan))).

(** The class may be deleted where the agents hold the deny of the plan. *)
Definition withdrawal_allowed (snapshot : NativeInstallPlan) (uid : string) : Prop :=
  uid = rel_GatewayClassUID (ip_Source (ni_Plan snapshot)) /\ quiesced_seen (ni_Plan snapshot) CheckpointQuiesced.

Record transition_keeps (snapshot : NativeInstallPlan) : Prop := {
  tk_select deadline tick : keeps I (Select deadline tick);
  tk_crd key : keeps I (k8s_Get (T := CustomResourceDefinition) key);
  tk_deployment key : keeps I (k8s_Get (T := Deployment) key);
  tk_daemonset key : keeps I (k8s_Get (T := DaemonSet) key);
  tk_class key : keeps I (k8s_Get (T := VPNGatewayClass) key);
  tk_secret key : keeps I (k8s_Get (T := Secret) key);
  tk_secrets opt : keeps I (k8s_List (T := Secret) opt);
  tk_hold agent : keeps I (k8s_Update (T := DaemonSet) agent);
  tk_bindings opt : keeps I (k8s_List (T := VPNWorkloadBinding) opt);
  tk_gateways opt : keeps I (k8s_List (T := VPNGateway) opt);
  tk_gateway key : keeps I (k8s_Get (T := VPNGateway) key);
  tk_statefulsets opt : keeps I (k8s_List (T := StatefulSet) opt);
  tk_pods opt : keeps I (k8s_List (T := RuntimePod) opt);
  tk_roll key uid : keeps I (k8s_DeleteUID (T := RuntimePod) key uid);
  tk_nodes opt : keeps I (k8s_List (T := ClusterNode) opt);
  tk_withdraw key uid : withdrawal_allowed snapshot uid -> keeps I (k8s_DeleteUID (T := VPNGatewayClass) key uid);
  tk_rotation namespace release : keeps I (ensureNoCertificateRotation namespace release);
  tk_repair namespace release : keeps I (ensureNoInstallRepair namespace release);
  tk_preflight cidr : keeps I (Preflight cidr);
  tk_trust namespace name adapter : keeps I (observePortForwardInstallIdentity namespace name adapter);
  tk_chart chart : keeps I (runtime_CRDIdentities chart);
  tk_apply plan overrides : apply_allowed snapshot plan overrides -> keeps I (runtime_Apply plan overrides)
}.

Context (snapshot : NativeInstallPlan) (Hkeeps : transition_keeps snapshot).

Notation plan := (ni_Plan snapshot).

Create HintDb transition.
#[local] Hint Resolve tk_select tk_crd tk_deployment tk_daemonset tk_class tk_secret tk_secrets tk_hold tk_bindings tk_gateways tk_gateway
  tk_statefulsets tk_pods tk_roll tk_nodes tk_rotation tk_repair tk_preflight tk_trust tk_chart : transition.

(** Walk down to the requests, which keep the invariant. *)
Ltac t_keeps := keeps_down; try solve [eauto 2 with transition].

Lemma live_crds_keeps names : keeps I (live_crds names).
Proof. induction names as [|name names IH]; cbn [live_crds]; t_keeps. Qed.
#[local] Hint Resolve live_crds_keeps : transition.

Lemma components_keeps namespace release : keeps I (observeDeployedReleaseComponents namespace release).
Proof. unfold observeDeployedReleaseComponents, optionalInstallCRDIdentities, read_release, optional. t_keeps. Qed.
Lemma installed_keeps namespace release : keeps I (ObserveInstalledRelease namespace release).
Proof.
  unfold ObserveInstalledRelease, optionalInstallCRDIdentities, refusePartialInstallState, must_be_absent, read_release, optional. t_keeps.
Qed.
Lemma statefulset_keeps gateway : keeps I (exactGatewayStatefulSet gateway).
Proof. unfold exactGatewayStatefulSet. t_keeps. Qed.
Lemma pod_keeps statefulSet : keeps I (exactStatefulSetPod statefulSet).
Proof. unfold exactStatefulSetPod. t_keeps. Qed.
Lemma check_crd_keeps absent entry : keeps I (check_crd absent entry).
Proof. unfold check_crd. t_keeps. Qed.
Lemma each_keeps {A} (f : A -> IO W unit) xs : (forall x, keeps I (f x)) -> keeps I (io_each f xs).
Proof. intros Hf. induction xs as [|x xs IH]; cbn [io_each]; t_keeps. Qed.
#[local] Hint Resolve components_keeps installed_keeps statefulset_keeps pod_keeps check_crd_keeps each_keeps : transition.

Lemma validate_keeps : keeps I (validateNativeInstall snapshot).
Proof. unfold validateNativeInstall. t_keeps. Qed.

(** Ask, and know the answer. *)
Ltac t_ask w HI a Ha := eapply wp_asked; [solve [eauto 2 with transition]|exact HI|clear HI; intros a w HI Ha; cbn [after]].
(** Ask, and go on with the value of the answer. *)
Ltac t_get w HI a Ha := wp_step; t_ask w HI a Ha; destruct a as [a|?]; cbn [after]; [|by split].

Lemma quiescent_seen expected w : I w -> wp (quiescent plan expected) (fun r w' => I w' /\ (r = Ok true -> quiesced_seen plan expected)) w.
Proof.
  intros HI. unfold quiescent. do 2 wp_step. t_ask w1 HI observed Hobs. destruct observed as [c|e]; [|by wp_step].
  destruct (quiesced_at c plan expected) eqn:Eq; cbn [negb]; [|by wp_step].
  t_get w2 HI agent Hagent. destruct (agents_rolled_out agent) eqn:Er; cbn [negb]; [|by wp_step].
  t_get w3 HI bindings Hb. wp_step. split; [done|]. intros [= Hack].
  split; [by exists c|]. split; [by exists agent|]. exists bindings. split; [done|]. apply list.Forall_forall. intros b Hb'%list_elem_of_In. by apply (proj1 (forallb_forall _ _) Hack).
Qed.

Lemma wait_seen expected w : I w -> wp (waitForTransitionQuiescence plan expected) (fun r w' => I w' /\ (r = Ok tt -> quiesced_seen plan expected)) w.
Proof.
  intros HI. unfold waitForTransitionQuiescence. wp_step. eapply wp_mono; [apply (wp_poll I (quiesced_seen plan expected))|].
  - intros w1 HI1. by apply quiescent_seen.
  - apply (tk_select _ Hkeeps).
  - done.
  - by intros [[]|e] w1 Hr; cbn [after]; [|destruct Hr].
Qed.

Lemma hold_seen w : I w -> wp (ensureTransitionQuiescence plan) (fun r w' => I w' /\ (r = Ok tt -> exists expected, quiesced_seen plan expected)) w.
Proof.
  assert (forall expected w, I w -> wp (waitForTransitionQuiescence plan expected) (fun r w' => I w' /\ (r = Ok tt -> exists expected, quiesced_seen plan expected)) w) as Hwait.
  { intros expected w' HI. eapply wp_mono; [by apply wait_seen|]. intros r w1 [HI1 Hr]. split; [done|]. eauto. }
  intros HI. unfold ensureTransitionQuiescence. do 2 wp_step. t_ask w1 HI c Hc. destruct c as [c|e]; cbn [after]; [|by split].
  destruct (quiescence_goal c plan) as [[expected alreadyQuiesced] validSource]. destruct alreadyQuiesced; [by apply Hwait|].
  destruct validSource; cbn [negb]; [|by wp_step]. do 2 wp_step. t_ask w2 HI agent Ha. destruct agent as [agent|e]; cbn [after]; [|by split].
  do 2 wp_step. destruct (held_agent agent plan) as [held|e]; cbn [after]; [|by split]. do 2 wp_step.
  t_ask w3 HI updated Hu. destruct updated as [updated|e]; cbn [after]; [|by split]. by apply Hwait.
Qed.

Lemma observed_ready_seen gateway wanted (w : W) : I w ->
  wp (observed_ready gateway wanted) (fun r w' => I w' /\ (r = Ok true -> exists current,
    answered I (k8s_Get (T := VPNGateway) (key_of (gw_Meta gateway))) (Ok current) /\ UID (gw_Meta current) = UID (gw_Meta gateway) /\
    gatewayCurrentReady current = wanted)) w.
Proof.
  intros HI. unfold observed_ready, reobserveGateway. do 3 wp_step. t_ask w1 HI got Hg. destruct got as [current|e].
  - destruct (String.eqb _ _) eqn:Eu; cbn [negb]; wp_step; [|by split]. wp_step. split; [done|]. intros [= Hr]. exists current.
    split; [done|]. split; [by apply String.eqb_eq|]. by apply Bool.eqb_prop.
  - destruct (IsNotFound e); wp_step; [by split|]. by wp_step.
Qed.

Lemma roll_keeps key uid : keeps I (IgnoreNotFound (k8s_DeleteUID (T := RuntimePod) key uid)).
Proof. apply keeps_IgnoreNotFound, (tk_roll _ Hkeeps). Qed.

Lemma gateway_rolled_seen target gateway rolled (w : W) : I w ->
  wp (gateway_rolled gateway target (artifact_ref (image_of target "gluetun")) (artifact_ref (image_of target "waycloak-gateway-agent")))
    (fun r sw' => I sw'.2 /\ (r = Ok true -> gateway_seen target gateway)) (rolled, w).
Proof.
  intros HI. unfold gateway_rolled. wp_step. apply wp_on_world. t_ask w1 HI set Hset. destruct set as [[set|]|e]; cbn [after]; [| |by split].
  2: { apply wp_on_world. eapply wp_mono; [by apply observed_ready_seen|]. intros r w2 [HI2 Hr]. split; [done|]. intros Hok.
       destruct (Hr Hok) as (current & Hc & Hu & Hf). exists current. by rewrite Hf. }
  destruct (gatewayTemplateIsTarget _ _ _ _ _); cbn [negb]; [|by wp_step].
  wp_step. apply wp_on_world. t_ask w2 HI found Hfound. destruct found as [found|e]; cbn [after]; [|by split].
  wp_step. apply wp_get_state. cbn [after]. destruct found as [pod|]; [|by wp_step].
  assert (forall s, gatewayPodIsTarget pod set (artifact_ref (image_of target "gluetun")) (artifact_ref (image_of target "waycloak-gateway-agent"))
      (rm_Version target) (rm_ManifestDigest target) = true ->
    wp (on_world (observed_ready gateway true)) (fun r sw' => I sw'.2 /\ (r = Ok true -> gateway_seen target gateway)) (s : option string, w2)) as Hready.
  { intros s Ht. apply wp_on_world. eapply wp_mono; [by apply observed_ready_seen|]. intros r w3 [HI3 Hr]. split; [done|]. intros Hok.
    destruct (Hr Hok) as (current & Hc & Hu & Hf). exists current. rewrite Hf. split; [done|]. split; [done|]. by exists set, pod. }
  cbv zeta. destruct rolled as [oldUID|].
  - destruct (String.eqb _ _); [by wp_step|]. destruct (gatewayPodIsTarget _ _ _ _ _ _) eqn:Et; cbn [negb]; [by apply Hready|by wp_step].
  - destruct (gatewayPodIsTarget _ _ _ _ _ _) eqn:Et; cbn [negb]; [by apply Hready|]. do 2 wp_step. apply wp_on_world.
    eapply wp_mono; [apply wp_keeps; [apply roll_keeps|exact HI]|]. intros [[]|e] w3 HI3; cbn [after]; [|by split].
    wp_step. apply wp_put_state. cbn [after]. by wp_step.
Qed.

Lemma gateway_pod_seen target gateway w : I w ->
  wp (ensureTargetGatewayPod target gateway) (fun r w' => I w' /\ (r = Ok tt -> gateway_seen target gateway)) w.
Proof.
  intros HI. unfold ensureTargetGatewayPod. destruct (_ || _); [by wp_step|]. wp_step. apply wp_local.
  eapply wp_mono; [apply (wp_poll (fun sw : option string * W => I sw.2) (gateway_seen target gateway))|].
  - intros [s w1] HI1. by apply gateway_rolled_seen.
  - intros d t. apply (keeps_on_world I), (tk_select _ Hkeeps).
  - done.
  - intros [[]|e] sw Hr; cbn [after]; [done|]. by destruct Hr.
Qed.

Lemma gateways_rolled_seen target w : I w -> wp (ensureTargetGatewayPods target) (fun r w' => I w' /\ (r = Ok tt -> gateways_seen target)) w.
Proof.
  intros HI. unfold ensureTargetGatewayPods. do 2 wp_step. t_ask w1 HI gateways Hg. destruct gateways as [gateways|e]; cbn [after]; [|by split].
  eapply wp_mono; [apply (wp_each_all I (fun gateway _ => gateway_seen target gateway)); [|exact HI]|].
  - intros gateway w2 _ HI2. wp_step. eapply wp_mono; [by apply gateway_pod_seen|]. intros [[]|e] w3 [HI3 Hs]; cbn [after]; auto. done.
  - intros r w2 (HI2 & _ & Hall). split; [done|]. intros Hok. exists gateways. split; [done|]. intros gateway Hin. apply (Hall Hok).
    by rewrite sort_by_perm.
Qed.

Lemma nativeStaged_seen w : I w -> wp (nativeStaged snapshot) (fun r w' => I w' /\ (r = Ok tt -> staged_seen snapshot)) w.
Proof.
  intros HI. unfold nativeStaged. t_get w1 HI c Hc. destruct (staged_components c snapshot) eqn:Es; cbn [negb]; [|by wp_step].
  t_get w2 HI bindings Hb. destruct (forallb _ bindings) eqn:Eb; cbn [negb]; wp_step; [|by split]. split; [done|]. intros _.
  split; [by exists c|]. exists bindings. split; [done|]. apply list.Forall_forall. intros b Hin%list_elem_of_In. by apply (proj1 (forallb_forall _ _) Eb).
Qed.

Lemma installed_ready_seen w : I w -> wp (installed_ready snapshot) (fun r w' => I w' /\ (r = Ok true -> exists bindings pods,
  answered I (k8s_List (T := VPNWorkloadBinding) ListAll) (Ok bindings) /\ answered I (k8s_List (T := RuntimePod) ListAll) (Ok pods) /\
  workloads_ready pods bindings = true)) w.
Proof.
  intros HI. unfold installed_ready. t_get w1 HI nodes Hn. wp_step. unfold now_of_world at 1, wp at 1. cbn [after fst snd].
  destruct (negb _); [by wp_step|]. t_get w2 HI controller Hc. destruct (negb _); [by wp_step|].
  t_get w3 HI agent Ha. destruct (negb _); [by wp_step|]. t_get w4 HI installer Hi. destruct (negb _); [by wp_step|].
  t_get w5 HI bindings Hb. t_get w6 HI pods Hp. wp_step. split; [done|]. intros [= Hr]. by exists bindings, pods.
Qed.

Lemma target_release_of source target manifest crds changed :
  validateInstallTargetWithClassReplacement source target manifest crds changed = Ok tt -> source_release target = target_release manifest.
Proof.
  unfold validateInstallTargetWithClassReplacement. destruct (_ || _) eqn:E; [done|]. intros _.
  apply orb_false_iff in E as [[_ E]%orb_false_iff _]. apply negb_false_iff, bool_decide_eq_true in E. done.
Qed.

Lemma Verify_seen w : I w -> wp (VerifyNativeInstall snapshot) (fun r w' => I w' /\ (r = Ok tt -> installed_seen snapshot)) w.
Proof.
  intros HI. unfold VerifyNativeInstall. cbv zeta. t_get w1 HI target Ht. do 2 wp_step.
  destruct (validateInstallTargetWithClassReplacement _ _ _ _ _) as [[]|e] eqn:Ev; cbn [after]; [|by split].
  destruct (bool_decide (rel_NodeLayout target = Some (ni_Layout snapshot))) eqn:El; cbn [negb]; [|by wp_step].
  destruct (_ || _); [by wp_step|]. wp_step. eapply wp_mono; [by apply gateways_rolled_seen|].
  intros [[]|e] w2 [HI2 Hg]; cbn [after]; [|by split]. specialize (Hg eq_refl).
  eapply wp_mono; [eapply (wp_poll I); [|apply (tk_select _ Hkeeps)|done]; intros; by apply installed_ready_seen|].
  intros r w3 [HI3 Hr]. split; [done|]. intros Hok. split; [|split; [done|by apply Hr]].
  exists target. split; [done|]. split; [by eapply target_release_of|by apply bool_decide_eq_true in El].
Qed.

Lemma withdraw_seen w : I w -> wp (withdraw_class plan) (fun r w' => I w' /\ forall next, r = Ok next -> next = NativePhaseClass \/ next = NativePhaseStage) w.
Proof.
  intros HI. unfold withdraw_class. do 2 wp_step. t_ask w1 HI got Hg. destruct got as [class|e].
  - destruct (String.eqb _ _) eqn:Eu; cbn [negb]; [|by wp_step]. apply String.eqb_eq in Eu. wp_step. eapply wp_mono; [by apply wait_seen|].
    intros [[]|e] w2 [HI2 Hq]; cbn [after]; [|by split]. wp_step.
    eapply wp_mono; [apply wp_keeps; [apply keeps_IgnoreNotFound, (tk_withdraw _ Hkeeps); split; [done|by apply Hq]|exact HI2]|].
    intros [[]|e] w3 HI3; cbn [after]; [|by split]. wp_step. split; [done|]. intros next [= <-]. auto.
  - destruct (IsNotFound e); wp_step; split; [done| |done|done]. intros next [= <-]. auto.
Qed.

(** A phase has seen more than those before it. *)
Lemma phase_seen_le phase next : (phase_rank next <= phase_rank phase)%nat -> phase_seen snapshot phase -> phase_seen snapshot next.
Proof. intros Hle [Hd Hc]. split; [|intros; apply Hc; lia]. intros Hdep. destruct (Hd Hdep) as (? & ? & ?). split_and!; intros; auto with lia. Qed.

(** Name the phase, and end in the next one. *)
Ltac t_phase E := match goal with |- context [String.eqb ?phase ?name] => destruct (String.eqb phase name) eqn:E; [apply String.eqb_eq in E as ->|clear E] end.
Ltac t_known := unfold native_phases; by repeat (apply list_elem_of_here || apply list_elem_of_further).
Ltac t_rank :=
  lazymatch goal with
  | |- (_ <= _)%nat => solve [vm_compute; lia]
  | |- (_ <= _)%nat -> _ => let Hr := fresh in intros Hr; exfalso; vm_compute in Hr; solve [lia]
  end.
Ltac t_next := wp_step; split; [done|]; intros next [= <-]; split; [|split; [t_rank|t_known]]; split; [intros Hdep|try t_rank].
Ltac t_run lem := wp_step; eapply wp_mono; [by apply lem|]; cbn beta.

(** One round of the installation: the phase does not go back, and what the new
    phase stands for was seen, if that of the old one was. *)
Lemma Advance_seen phase w : I w -> phase_seen snapshot phase ->
  wp (AdvanceNativeInstall snapshot phase) (fun r w' => I w' /\ forall next, r = Ok next ->
    phase_seen snapshot next /\ (phase_rank phase <= phase_rank next)%nat /\ next ∈ native_phases) w.
Proof.
  intros HI Hseen. unfold AdvanceNativeInstall. cbv zeta. wp_step. eapply wp_mono; [apply wp_keeps; [apply validate_keeps|exact HI]|].
  clear w HI. intros [[]|e] w HI; cbn [after]; [|by split]. destruct Hseen as [Hd Hc].
  t_phase E. { destruct (deployed_source plan) eqn:Ed; cbn [negb].
    - t_run hold_seen. intros [[]|e] w1 [HI1 Hq]; cbn [after]; [|by split]. t_next. split; [auto|split; t_rank].
    - t_next. congruence. }
  t_phase E. { eapply wp_mono; [by apply withdraw_seen|]. intros r w1 [HI1 Hr]. split; [done|]. intros next Hok.
    destruct (Hr next Hok) as [->| ->]; (split; [|split; [t_rank|t_known]]); (split; [intros Hdep|t_rank]); destruct (Hd Hdep) as (Hq & _);
      (split; [intros _; apply Hq; t_rank|split; t_rank]). }
  t_phase E. { wp_step. wp_step. destruct (if deployed_source plan then _ else _) as [overrides|e] eqn:Ev; cbn [after]; [|by split].
    wp_step. eapply wp_mono; [apply wp_keeps; [apply (tk_apply _ Hkeeps)|exact HI]|].
    { split; [done|]. intros Hdep. rewrite Hdep in Ev. destruct (Hd Hdep) as (Hq & _). split; [apply Hq; t_rank|by left]. }
    intros [[]|e] w1 HI1; cbn [after]; [|by split]. destruct (deployed_source plan) eqn:Ed; cbn [negb].
    - t_run nativeStaged_seen. intros [[]|e] w2 [HI2 Hs]; cbn [after]; [|by split]. t_next. destruct (Hd eq_refl) as (Hq & _).
      split; [intros _; apply Hq; t_rank|]. split; [auto|t_rank].
    - t_next. congruence. }
  t_phase E. { t_run nativeStaged_seen. intros [[]|e] w1 [HI1 Hs]; cbn [after]; [|by split].
    t_run gateways_rolled_seen. intros [[]|e] w2 [HI2 Hg]; cbn [after]; [|by split]. t_next. destruct (Hd Hdep) as (Hq & _).
    split; [intros _; apply Hq; t_rank|auto]. }
  t_phase E. { wp_step. apply (wp_mono _ (fun r w' => I w')).
    { destruct (deployed_source plan); [|by wp_step]. eapply wp_mono; [by apply gateways_rolled_seen|]. by intros r w1 [? _]. }
    intros [[]|e] w1 HI1; cbn [after]; [|by split]. wp_step. eapply wp_mono; [apply wp_keeps; [apply (tk_apply _ Hkeeps)|exact HI1]|].
    { split; [done|]. intros Hdep. destruct (Hd Hdep) as (Hq & Hs & Hg). split; [apply Hq; t_rank|right; split; [apply Hs; t_rank|apply Hg; t_rank]]. }
    intros [[]|e] w2 HI2; cbn [after]; [|by split]. t_next. destruct (Hd Hdep) as (Hq & Hs & Hg).
    split; [intros _; apply Hq; t_rank|split; [intros _; apply Hs; t_rank|intros _; apply Hg; t_rank]]. }
  t_phase E. { t_run Verify_seen. intros [[]|e] w1 [HI1 Hv]; cbn [after]; [|by split]. t_next; [|auto]. destruct (Hd Hdep) as (Hq & Hs & Hg).
    split; [intros _; apply Hq; t_rank|split; [intros _; apply Hs; t_rank|intros _; apply Hg; t_rank]]. }
  by wp_step.
Qed.

End Seen.

(** ** The hold makes the quiesced checkpoint *)

Section Hold.
Context `{ReleaseJson} `{ReleaseObjects}.

Lemma required_replaced containers name change container : (forall c, rc_Name (change c) = rc_Name c) ->
  requiredContainer containers name = Ok container -> requiredContainer (replace_container containers name change) name = Ok (change container).
Proof.
  intros Hname. unfold requiredContainer. induction containers as [|c rest IH]; cbn [List.find replace_container]; [done|].
  destruct (String.eqb (rc_Name c) name) eqn:E; cbn [List.find]; [rewrite Hname, E; by intros [= ->]|by rewrite E].
Qed.

Lemma requiredArgument_app args extra prefix value : requiredArgument args prefix = Ok value -> requiredArgument (args ++ extra) prefix = Ok value.
Proof. induction args as [|argument rest IH]; cbn [requiredArgument app]; [done|]. by destruct (_ && _). Qed.

Lemma singular_app accepted args extra prefix : forall value, singular_argument accepted value (args ++ extra) prefix =
  match singular_argument accepted value args prefix with Ok v => singular_argument accepted v extra prefix | Fail e => Fail e end.
Proof.
  induction args as [|argument rest IH]; intros value; cbn [singular_argument app]; [done|]. destruct (negb _); [by apply IH|]. by destruct (_ || _).
Qed.

Lemma held_app args extra : forall held, held_argument held (args ++ extra) =
  match held_argument held args with Ok h => held_argument h extra | Fail e => Fail e end.
Proof.
  induction args as [|argument rest IH]; intros held; cbn [held_argument app]; [done|]. destruct (negb _); [by apply IH|]. by destruct (_ || _).
Qed.

(** The arguments that the identity adds do not touch the hold. *)
Lemma with_identity_extra args identities args' : with_identity args identities = Ok args' ->
  exists extra, args' = args ++ extra /\ Forall (fun argument => exists prefix value, (prefix, value) ∈ identities /\ argument = prefix +:+ value) extra.
Proof.
  revert args. induction identities as [|[prefix value] rest IH]; intros args; cbn [with_identity].
  - intros [= <-]. exists []. by rewrite app_nil_r.
  - destruct (optionalSingularArgument args prefix) as [existing|]; [|done]. destruct (_ && _); [done|]. intros Hw%IH.
    destruct Hw as (extra & -> & Hextra).
    assert (Forall (fun argument => exists p v, (p, v) ∈ (prefix, value) :: rest /\ argument = p +:+ v) extra) as Hmore.
    { eapply Forall_impl; [exact Hextra|]. intros argument (p & v & Hin & ->). exists p, v. split; [by right|done]. }
    destruct (str_empty existing); [|by exists extra]. exists ((prefix +:+ value) :: extra). split; [by rewrite <- app_assoc|].
    constructor; [|done]. exists prefix, value. split; [by left|done].
Qed.

(** The added arguments: the two identities and the hold. *)
Definition hold_suffix (plan : InstallPlan) : list string :=
  ["--observation-capability-hold=true"; "--observation-capability-hold-id=" +:+ ip_PlanID plan].

Lemma held_args_app args plan args' : held_args args plan = Ok args' ->
  exists extra, args' = args ++ extra ++ hold_suffix plan /\
    Forall (fun argument => exists value, argument = "--cni-release-version=" +:+ value \/ argument = "--cni-release-manifest-digest=" +:+ value) extra.
Proof.
  unfold held_args. destruct (with_identity _ _) as [found|] eqn:Ew; [|done]. intros [= <-]. apply with_identity_extra in Ew as (extra & -> & Hextra).
  exists extra. split; [by rewrite <- app_assoc|]. eapply Forall_impl; [exact Hextra|]. intros argument (p & v & Hin & ->). exists v.
  apply elem_of_cons in Hin as [[= -> ->]|[[= -> ->]|Hin]%elem_of_cons]; [auto|auto|]. by apply elem_of_nil in Hin.
Qed.

Lemma extra_not_held held extra :
  Forall (fun argument => exists value, argument = "--cni-release-version=" +:+ value \/ argument = "--cni-release-manifest-digest=" +:+ value) extra ->
  held_argument held extra = Ok held.
Proof. induction 1 as [|argument rest [value [-> | ->]] _ IH]; done. Qed.

Lemma extra_no_hold_id accepted value0 extra :
  Forall (fun argument => exists value, argument = "--cni-release-version=" +:+ value \/ argument = "--cni-release-manifest-digest=" +:+ value) extra ->
  singular_argument accepted value0 extra "--observation-capability-hold-id=" = Ok value0.
Proof. induction 1 as [|argument rest [value [-> | ->]] _ IH]; done. Qed.

Lemma held_args_held args plan args' : observationCapabilityHeld args = Ok false -> held_args args plan = Ok args' ->
  observationCapabilityHeld args' = Ok true.
Proof.
  intros Hh (extra & -> & Hextra)%held_args_app. unfold observationCapabilityHeld in *. by rewrite held_app, Hh, held_app, extra_not_held.
Qed.

Lemma held_args_id args plan args' : observationCapabilityHoldID args = Ok "" -> validDigest (ip_PlanID plan) = true -> held_args args plan = Ok args' ->
  observationCapabilityHoldID args' = Ok (ip_PlanID plan).
Proof.
  intros Hh Hd (extra & -> & Hextra)%held_args_app. unfold observationCapabilityHoldID in *. rewrite singular_app, Hh, singular_app, extra_no_hold_id by done.
  cbn [hold_suffix singular_argument]. change (HasPrefix "--observation-capability-hold=true" "--observation-capability-hold-id=") with false. cbn [negb].
  assert (HasPrefix ("--observation-capability-hold-id=" +:+ ip_PlanID plan) "--observation-capability-hold-id=" = true) as ->.
  { by destruct (ip_PlanID plan). }
  assert (argument_value "--observation-capability-hold-id=" ("--observation-capability-hold-id=" +:+ ip_PlanID plan) = ip_PlanID plan) as ->.
  { apply drop_string_app. }
  cbn. by rewrite Hd.
Qed.

Lemma res_bind_Ok {X Y} (m : res X) (k : X -> res Y) y : m ≫= k = Ok y -> exists x, m = Ok x /\ k x = Ok y.
Proof. destruct m as [x|e]; cbn; [eauto|done]. Qed.

(** The template of the held agent. *)
Definition held_container (container : ReleaseContainer) (image : string) (args : list string) : ReleaseContainer :=
  mkReleaseContainer (rc_Name container) image args (rc_VolumeMounts container).

Lemma held_agent_spec agent plan held : held_agent agent plan = Ok held ->
  exists container args artifact, requiredContainer (pt_Containers (ds_Template agent)) "node-agent" = Ok container /\
    requiredContainer (pt_Containers (ds_Template held)) "node-agent" = Ok (held_container container (artifact_ref artifact) args) /\
    observationCapabilityHeld (rc_Args container) = Ok false /\ held_args (rc_Args container) plan = Ok args /\
    rm_Images (ip_Target plan) !! "waycloak-node-agent" = Some artifact /\
    pt_Annotations (ds_Template held) = <[installTransitionPlanKey := ip_PlanID plan]> (pt_Annotations (ds_Template agent)) /\
    pt_Volumes (ds_Template held) = pt_Volumes (ds_Template agent) /\ pt_NodeSelector (ds_Template held) = pt_NodeSelector (ds_Template agent).
Proof.
  unfold held_agent. cbv zeta. intros (container & Hc & Hrest)%res_bind_Ok. apply res_bind_Ok in Hrest as (h & Hh & Hrest).
  destruct h; [done|]. destruct (rm_Images (ip_Target plan) !! _) as [artifact|]; [|done]. destruct (_ || _); [done|].
  apply res_bind_Ok in Hrest as (args & Ha & Hrest). destruct (_ && _); [done|]. injection Hrest as <-.
  exists container, args, artifact. split_and!; try done. cbn [ds_Template set_template pt_Containers].
  by apply (required_replaced _ _ (fun c => held_container c (artifact_ref artifact) args)).
Qed.

Lemma agreed_file_held installer agent agent' ic ac ac' extra index flag file :
  pt_Volumes agent' = pt_Volumes agent -> rc_VolumeMounts ac' = rc_VolumeMounts ac -> rc_Args ac' = rc_Args ac ++ extra ->
  agreed_file installer agent ic ac index flag = Ok file -> agreed_file installer agent' ic ac' index flag = Ok file.
Proof.
  intros Hv Hm Ha. unfold agreed_file. intros (installed & Hi & Hrest)%res_bind_Ok. apply res_bind_Ok in Hrest as (argument & Harg & Hrest).
  rewrite Hi. cbn [mbind res_bind]. rewrite Ha, (requiredArgument_app _ _ _ _ Harg). cbn [mbind res_bind].
  unfold mountedHostFile in *. by rewrite Hv, Hm.
Qed.

Lemma layout_held installer agent agent' ac ac' extra layout :
  requiredContainer (pt_Containers agent) "node-agent" = Ok ac -> requiredContainer (pt_Containers agent') "node-agent" = Ok ac' ->
  pt_Volumes agent' = pt_Volumes agent -> pt_NodeSelector agent' = pt_NodeSelector agent -> rc_VolumeMounts ac' = rc_VolumeMounts ac ->
  rc_Args ac' = rc_Args ac ++ extra -> observeNodeInstallLayout installer agent = Ok layout -> observeNodeInstallLayout installer agent' = Ok layout.
Proof.
  intros Hc Hc' Hv Hn Hm Ha. unfold observeNodeInstallLayout.
  intros (ic & Hic & Hrest)%res_bind_Ok. apply res_bind_Ok in Hrest as (identity & Hid & Hrest). rewrite Hc in Hrest. cbn [mbind res_bind] in Hrest.
  apply res_bind_Ok in Hrest as (binary & Hb & Hrest). apply res_bind_Ok in Hrest as (config & Hcf & Hrest).
  apply res_bind_Ok in Hrest as (receipt & Hr & Hrest).
  rewrite Hic. cbn [mbind res_bind]. rewrite Hid. cbn [mbind res_bind]. rewrite Hc'. cbn [mbind res_bind].
  by rewrite (agreed_file_held _ _ _ _ _ _ _ _ _ _ Hv Hm Ha Hb), (agreed_file_held _ _ _ _ _ _ _ _ _ _ Hv Hm Ha Hcf),
    (agreed_file_held _ _ _ _ _ _ _ _ _ _ Hv Hm Ha Hr), Hn.
Qed.

Notation node_agent := "waycloak-node-agent" (only parsing).

(** What is observed once the hold is written: the hold, its plan and the image
    of the agent, and otherwise what was observed before. *)
Definition held_components (c : deployedReleaseComponents) (planID : string) (images : gmap string string) : deployedReleaseComponents :=
  mkComponents (dc_NodeLayout c) (dc_HelmRevision c) (dc_ControllerVersion c) (dc_ControllerManifest c) (dc_ControllerTransitionPlanID c)
    (dc_ControllerTransitionSourceVersion c) (dc_ControllerTransitionSourceManifest c) (dc_CNIVersion c) (dc_CNIManifest c)
    (dc_NodeAgentVersion c) (dc_NodeAgentManifest c) (dc_Class c) images (dc_ObservationCAUID c) (dc_ObservationTLSUID c)
    (dc_ObservationCADigest c) (dc_ObservationServingDigest c) (dc_ObservationRotationID c) true planID planID (dc_CRDIdentities c).

Ltac next_bind H x Hx := apply res_bind_Ok in H as (x & Hx & H).

Lemma components_held release crds revision controller cni agent class ca tls c plan held :
  components_of release crds revision controller cni agent class ca tls = Ok c ->
  dc_ObservationCapabilityHoldID c = "" -> held_agent agent plan = Ok held -> validDigest (ip_PlanID plan) = true ->
  (forall artifact, rm_Images (ip_Target plan) !! node_agent = Some artifact -> validExactImageReference (artifact_ref artifact) = true) ->
  exists images artifact, rm_Images (ip_Target plan) !! node_agent = Some artifact /\
    Forall (fun name => map_get images name = if String.eqb name node_agent then artifact_ref artifact else map_get (dc_Images c) name) installRuntimeImageNames /\
    components_of release crds revision controller cni held class ca tls = Ok (held_components c (ip_PlanID plan) images).
Proof.
  intros Hof Hid (container & args & artifact & Hc & Hc' & Hheld & Hargs & Hart & Hann & Hvol & Hsel)%held_agent_spec Hplan Hexact.
  specialize (Hexact _ Hart). pose proof (held_args_app _ _ _ Hargs) as (extra & Happ & _). revert Hof. unfold components_of.
  rewrite Hc, Hc'. unfold rotation_of. rewrite Hann.
  assert (map_get (<[installTransitionPlanKey:=ip_PlanID plan]> (pt_Annotations (ds_Template agent))) observationRotationKey =
    map_get (pt_Annotations (ds_Template agent)) observationRotationKey) as -> by (unfold map_get; by rewrite lookup_insert_ne).
  assert (map_get (<[installTransitionPlanKey:=ip_PlanID plan]> (pt_Annotations (ds_Template agent))) installTransitionPlanKey = ip_PlanID plan)
    as -> by (unfold map_get; by rewrite lookup_insert_eq).
  cbn [mbind res_bind rc_Args rc_Image held_container]. intros Hof.
  next_bind Hof u1 H1. next_bind Hof u2 H2. next_bind Hof cc H3. next_bind Hof ic H4. next_bind Hof pc H5.
  next_bind Hof cv H6. next_bind Hof cm H7. next_bind Hof tp H8. next_bind Hof tv H9. next_bind Hof tm H10. next_bind Hof ei H11.
  next_bind Hof gi H12. next_bind Hof nv H13. next_bind Hof nm H14. next_bind Hof ch Hch. next_bind Hof hid Hhid. next_bind Hof ident H15.
  next_bind Hof layout H16. cbv zeta in Hof. destruct (negb _) eqn:Eimages in Hof; [done|]. injection Hof as <-. cbn [dc_ObservationCapabilityHoldID] in Hid. subst hid.
  rewrite H1, H2. cbn [mbind res_bind]. rewrite H3, H4, H5. cbn [mbind res_bind]. rewrite H6, H7, H8, H9, H10, H11, H12. cbn [mbind res_bind].
  apply (requiredArgument_app _ (extra ++ hold_suffix plan)) in H13, H14. rewrite <- Happ in H13, H14. rewrite H13, H14. cbn [mbind res_bind].
  rewrite (held_args_held _ _ _ Hheld Hargs), (held_args_id _ _ _ Hhid Hplan Hargs), H15. cbn [mbind res_bind].
  rewrite (layout_held _ _ _ _ _ (extra ++ hold_suffix plan) _ Hc Hc' Hvol Hsel eq_refl Happ H16). cbn [mbind res_bind].
  eexists _, artifact. split; [done|]. split; [|destruct (negb _) eqn:E in |- *; [exfalso|reflexivity]].
  - repeat constructor.
  - apply negb_true_iff in E. apply negb_false_iff in Eimages. revert E. apply not_false_iff_true, forallb_forall.
    intros name Hin. apply (proj1 (forallb_forall _ _)) with (x := name) in Eimages; [|done].
    repeat (destruct Hin as [<-|Hin]; [first [exact Hexact|exact Eimages]|]). destruct Hin.
Qed.

(** The deny state that is written over a release at rest is the quiesced
    checkpoint of the plan, with the class left as it was. *)
Theorem hold_quiesces release crds revision controller cni agent class ca tls c plan held :
  components_of release crds revision controller cni agent class ca tls = Ok c ->
  exactSourceRuntimeComponents c (ip_Source plan) = true -> held_agent agent plan = Ok held -> validDigest (ip_PlanID plan) = true ->
  (forall artifact, rm_Images (ip_Target plan) !! node_agent = Some artifact -> validExactImageReference (artifact_ref artifact) = true) ->
  exists c', components_of release crds revision controller cni held class ca tls = Ok c' /\
    exactQuiescedRuntimeComponents c' plan = true /\ dc_Class c' = dc_Class c.
Proof.
  intros Hof Hsource Hheld Hplan Hexact. unfold exactSourceRuntimeComponents in Hsource.
  rewrite !andb_true_iff in Hsource. destruct Hsource as [[[[[[[[[[Hstate Hrev] Hnot] Hhid] Hpid] Hunbound] Hrel] Hrot] Himg] Htrust] Hcrd].
  apply str_empty_spec in Hhid. apply bool_decide_eq_true in Himg.
  destruct (components_held _ _ _ _ _ _ _ _ _ _ _ _ Hof Hhid Hheld Hplan Hexact) as (images & artifact & Hart & Hnames & Hof').
  eexists. split; [exact Hof'|]. split; [|done]. unfold exactQuiescedRuntimeComponents. cbv zeta.
  rewrite !andb_true_iff. split_and!; try done.
  - unfold held_for. cbn. by rewrite String.eqb_refl.
  - apply forallb_forall. intros name Hin. rewrite Forall_forall in Hnames. specialize (Hnames name).
    unfold quiesced_image, image_matches. cbn [dc_Images held_components]. rewrite Hnames by by apply list_elem_of_In.
    destruct (String.eqb name node_agent) eqn:E; [|by rewrite Himg, String.eqb_refl]. apply String.eqb_eq in E as ->. by rewrite Hart, String.eqb_refl.
Qed.

End Hold.

(** ** A release under its hold *)

Module HoldSample.

#[local] Instance json : ReleaseJson := {| manifest_json := rm_Version; observation_json := rel_State; plan_json := ip_Operation |}.
#[local] Instance objects : ReleaseObjects := {| crd_json := cs_Rest; parseCABundle _ := Ok tt; validateServingIdentity _ := Ok tt |}.

Definition meta (name uid : string) : ObjectMeta :=
  mkObjectMeta "waycloak-system" name uid 1 None ∅ (list_to_map [(installReleaseOwnerKey, "waycloak"); (installInitialPlanKey, digest_of "plan")]) [] [].
Definition image (name : string) : string := "registry.example/" +:+ name +:+ "@" +:+ digest_of "source".
Definition manifest : string := digest_of "v1.0.2".

Definition controller : Deployment :=
  mkDeployment (meta "waycloak-controller" "controller-uid")
    (mkPodTemplate ∅ [] [mkReleaseContainer "controller" (image "controller")
       ["--release-version=v1.0.2"; "--release-manifest-digest=" +:+ manifest; "--gateway-engine-image=" +:+ image "gluetun";
        "--gateway-agent-image=" +:+ image "gateway-agent"] []] [] ∅) (Some 1) 1 1 1.

Definition host : list HostVolume := [mkHostVolume "bin" (Some "/opt/cni/bin"); mkHostVolume "net" (Some "/etc/cni/net.d")].
Definition mounts : list VolumeMount := [mkVolumeMount "bin" "/host/bin" "" ""; mkVolumeMount "net" "/host/net" "" ""].
Definition daemon (name uid : string) (template : PodTemplate) : DaemonSet := mkDaemonSet (meta name uid) template 1 1 1 1 1 0.
Definition installer : DaemonSet :=
  daemon "waycloak-cni-installer" "installer-uid"
    (mkPodTemplate ∅ [mkReleaseContainer "install" (image "cni")
       ["install"; "/plugin"; "/host/bin/waycloak-cni"; "/host/net/05.conflist"; "/host/net/receipt"; ""; ""; ""; ""; "v1.0.2"; manifest] mounts]
       [mkReleaseContainer "receipt-holder" (image "pause") [] []] host ∅).
Definition agent : DaemonSet :=
  daemon "waycloak-node-agent" "agent-uid"
    (mkPodTemplate ∅ [] [mkReleaseContainer "node-agent" (image "node-agent")
       ["--release-version=v1.0.2"; "--release-manifest-digest=" +:+ manifest; "--cni-binary-file=/host/bin/waycloak-cni";
        "--cni-config-file=/host/net/05.conflist"; "--cni-receipt-file=/host/net/receipt"] mounts] host ∅).
Definition ca : Secret := mkSecret (meta "waycloak-observation-ca" "ca-uid") SecretTypeOpaque {["ca.crt" := "ca"]}.
Definition tls : Secret := mkSecret (meta "waycloak-observation-tls" "tls-uid") SecretTypeTLS (list_to_map [("ca.crt", "ca"); ("tls.crt", "crt")]).

Definition observed (agent : DaemonSet) : res deployedReleaseComponents :=
  components_of "waycloak" ∅ 3 controller installer agent None ca tls.

Definition at_rest : InstalledReleaseObservation :=
  mkInstalledReleaseObservation
    (Some (mkNodeInstallLayout "/etc/cni/net.d/05.conflist" "/opt/cni/bin/waycloak-cni" "/etc/cni/net.d/receipt" "" ∅ ∅)) installStateDeployed
    "" 3 "v1.0.2" manifest
    (list_to_map [("replacement-controller", image "controller"); ("waycloak-cni", image "cni"); ("waycloak-node-agent", image "node-agent");
       ("waycloak-gateway-agent", image "gateway-agent"); ("gluetun", image "gluetun"); ("pause", image "pause")])
    "class-uid" 1 "ca-uid" "tls-uid" (digest_of "ca") (digest_of "crt") initialObservationRotation ∅.
Definition successor : ReleaseManifest :=
  mkReleaseManifest "release.waycloak.io/v1" "v1.0.3" (digest_of "v1.0.3") (mkArtifact "" "") None
    {["waycloak-node-agent" := mkArtifact "registry.example/node-agent" (digest_of "successor")]} [] None.
Definition upgrade : InstallPlan :=
  mkInstallPlan (digest_of "Upgrade") "Upgrade" at_rest ∅ "" "" "" "" "waycloak-system" "waycloak" (digest_of "v1.0.3") successor
    (mkArtifact "" "") "" None.

Notation components := (mkComponents (rel_NodeLayout at_rest) 3 "v1.0.2" manifest "" "" "" "v1.0.2" manifest "v1.0.2" manifest None
  (rel_Images at_rest) "ca-uid" "tls-uid" (digest_of "ca") (digest_of "crt") "initial" false "" "" ∅) (only parsing).
Definition held : DaemonSet := match held_agent agent upgrade with Ok held => held | Fail _ => agent end.

Lemma hold_quiesces_witness : exists c', observed held = Ok c' /\ exactQuiescedRuntimeComponents c' upgrade = true /\ dc_Class c' = None.
Proof.
  apply (hold_quiesces "waycloak" ∅ 3 controller installer agent None ca tls components upgrade held); [by vm_compute..|].
  intros artifact Ha. assert (Some (mkArtifact "registry.example/node-agent" (digest_of "successor")) = Some artifact) as [= <-] by exact Ha.
  by vm_compute.
Defined.

End HoldSample.
