(* ===== verification/Installation.v ===== *)
(** * The installation controller (internal/installation)

    WaycloakInstallation asks for one exact release.  The controller writes a
    prepared transition into an immutable journal, a ConfigMap, before it touches
    the runtime, moves it from phase to phase on the observations of its backend,
    and publishes the release as ready once it is verified.  Journals and owners
    are ConfigMaps of the server of Kube, shared with other clients; the backend
    is the interface [NativeBackend], and [Backend] implements it with the phases
    of Transition. *)

From S2P Require Import Prelude Sha256 Netip Api Conditions Kube CniTypes CniInstall Release Transition.

(** ** Data (api/installation/v1alpha1) *)

Record InstallationSpec := mkInstallationSpec {
  is_Version : string;
  is_Namespace : string;
  is_Release : string;
  is_OverlayCIDR : string;
  is_NodeArchitecture : string;
  is_Config : string;                     (** the configuration, as it is encoded *)
  is_AdoptExisting : bool;
  is_Suspend : bool
}.
Record InstallationStatus := mkInstallationStatus {
  ist_ObservedGeneration : Z;
  ist_ReadyGeneration : Z;
  ist_AppliedVersion : string;
  ist_AppliedManifestDigest : string;
  ist_AppliedIntentDigest : string;
  ist_ActiveGeneration : Z;
  ist_ActivePlanID : string;
  ist_Phase : string;
  ist_Conditions : list Condition
}.
Record WaycloakInstallation := mkWaycloakInstallation {
  wi_Meta : ObjectMeta;
  wi_Spec : InstallationSpec;
  wi_Status : InstallationStatus
}.
#[global] Instance InstallationStatus_eq_dec : EqDecision InstallationStatus.
Proof. solve_decision. Defined.

(** A ConfigMap with the version that the server gives it. *)
Record ConfigMap := mkConfigMap {
  cm_Meta : ObjectMeta;
  cm_ResourceVersion : Z;
  cm_Immutable : option bool;
  cm_Data : gmap string string
}.

Definition journalName : string := "waycloak-installation-active".
Definition ownerName : string := "waycloak-installation-owner".
Definition ownerKey : string := "installation.waycloak.io/owner-uid".
Definition phaseKey : string := "installation.waycloak.io/phase".
Definition journalData : string := "journal.json".
Definition journalLimit : nat := 512 * 1024.

Record journal := mkJournal {
  j_InstallationUID : string;
  j_Generation : Z;
  j_IntentDigest : string;
  j_Snapshot : NativeInstallPlan
}.

(** [encoding/json] of the specification and of a journal. *)
Class InstallationJson := {
  spec_json : InstallationSpec -> string;
  journal_json : journal -> string;
  journal_Unmarshal : string -> option journal
}.

(** [meta.SetStatusCondition]: afterwards the condition of the type is the given
    one but for the time, and the others are as they were. *)
Class ConditionSetter := {
  SetStatusCondition : time -> list Condition -> Condition -> list Condition;
  set_condition_in now cs c c' : NoDup (map c_Type cs) -> c' ∈ SetStatusCondition now cs c ->
    (c_Type c' = c_Type c /\ c_Status c' = c_Status c /\ c_ObservedGeneration c' = c_ObservedGeneration c) \/ (c_Type c' <> c_Type c /\ c' ∈ cs)
}.

Class NativeBackend (A : Type) := {
  nb_Prepare : InstallationSpec -> IO A NativeInstallPlan;
  nb_Advance : string -> NativeInstallPlan -> string -> IO A string;
  nb_Verify : NativeInstallPlan -> IO A unit
}.

Record Reconciler := mkReconciler { rc_Namespace : string }.

Definition with_control (adopt suspend : bool) (spec : InstallationSpec) : InstallationSpec :=
  mkInstallationSpec (is_Version spec) (is_Namespace spec) (is_Release spec) (is_OverlayCIDR spec) (is_NodeArchitecture spec)
    (is_Config spec) adopt suspend.

Definition intentDigest `{InstallationJson} (spec : InstallationSpec) : string := digest_of (spec_json (with_control false false spec)).

(** [regexpDigest]: lower-case hexadecimal digits only. *)
Definition lower_hex (c : Ascii.ascii) : bool := existsb (Ascii.eqb c) (String.list_ascii_of_string "0123456789abcdef").
Definition regexpDigest (s : string) : bool :=
  String.prefix "sha256:" s && (String.length s =? 71)%nat && forallb lower_hex (String.list_ascii_of_string (drop_string 7 s)).

Definition cm_phase (record : ConfigMap) : string := map_get (Annotations (cm_Meta record)) phaseKey.
Definition immutable (record : ConfigMap) : bool := match cm_Immutable record with Some b => b | None => false end.

Definition set_annotations (annotations : gmap string string) (m : ObjectMeta) : ObjectMeta :=
  mkObjectMeta (Namespace m) (Name m) (UID m) (Generation m) (DeletionTimestamp m) (Labels m) annotations (Finalizers m) (OwnerReferences m).
Definition set_uid (uid : string) (m : ObjectMeta) : ObjectMeta :=
  mkObjectMeta (Namespace m) (Name m) uid (Generation m) (DeletionTimestamp m) (Labels m) (Annotations m) (Finalizers m) (OwnerReferences m).
Definition with_phase (phase : string) (record : ConfigMap) : ConfigMap :=
  mkConfigMap (set_annotations (<[phaseKey := phase]> (Annotations (cm_Meta record))) (cm_Meta record)) (cm_ResourceVersion record)
    (cm_Immutable record) (cm_Data record).
Definition map_meta (namespace name : string) (annotations : gmap string string) : ObjectMeta :=
  mkObjectMeta namespace name "" 0 None ∅ annotations [] [].

(** ** The ConfigMaps of the server *)

Section Maps.
Context {A : Type} (assigned : gmap ObjectKey ConfigMap -> string).   (** the UID of the next object *)

Notation maps := (api ConfigMap).
Definition on_maps {X} (m : IO maps X) : IO (maps * A) X := fun w => let '(r, maps') := m w.1 in (r, (maps', w.2)).

Definition map_Get (namespace name : string) : IO (maps * A) ConfigMap := on_maps (api_get (mkObjectKey namespace name)).

Definition map_Create (o : ConfigMap) : IO (maps * A) unit :=
  on_maps (api_call (fun w =>
    match api_objs w !! key_of (cm_Meta o) with
    | Some _ => (Fail (EStatus ReasonAlreadyExists), w)
    | None => (Ok tt, set_objs (<[key_of (cm_Meta o) := mkConfigMap (set_uid (assigned (api_objs w)) (cm_Meta o)) 1 (cm_Immutable o) (cm_Data o)]>
                                  (api_objs w)) w)
    end)).

(** Refused for an object that changed since it was read; the data of an
    immutable one cannot change. *)
Definition map_Update (o : ConfigMap) : IO (maps * A) unit :=
  on_maps (api_call (fun w =>
    match api_objs w !! key_of (cm_Meta o) with
    | None => (Fail (EStatus ReasonNotFound), w)
    | Some stored =>
        if negb (cm_ResourceVersion stored =? cm_ResourceVersion o) || negb (String.eqb (UID (cm_Meta stored)) (UID (cm_Meta o)))
        then (Fail (EStatus ReasonConflict), w)
        else if immutable stored && negb (bool_decide (cm_Data stored = cm_Data o)) then (Fail (EStatus ReasonOther), w)
        else (Ok tt, set_objs (<[key_of (cm_Meta o) := mkConfigMap (cm_Meta o) (cm_ResourceVersion o + 1) (cm_Immutable o) (cm_Data o)]>
                                  (api_objs w)) w)
    end)).

Definition map_Delete (namespace name uid : string) : IO (maps * A) unit :=
  on_maps (api_call (fun w =>
    match api_objs w !! mkObjectKey namespace name with
    | None => (Fail (EStatus ReasonNotFound), w)
    | Some stored =>
        if negb (String.eqb (UID (cm_Meta stored)) uid) then (Fail (EStatus ReasonConflict), w)
        else (Ok tt, set_objs (delete (mkObjectKey namespace name) (api_objs w)) w)
    end)).

End Maps.

(** ** Reconciliation (reconciler.go) *)

Section Reconcile.
Context `{InstallationJson} `{ConditionSetter} {A : Type} `{NativeBackend A} `{Clock A}.
Context `{Getter A WaycloakInstallation} `{StatusUpdater A WaycloakInstallation InstallationStatus}.
Context (error_text : error -> string) (assigned : gmap ObjectKey ConfigMap -> string) (r : Reconciler).

Notation W := (api ConfigMap * A)%type.

(** The change is made to what is stored now. *)
Definition setStatus (expected : WaycloakInstallation) (change : time -> WaycloakInstallation -> InstallationStatus) : IO A unit :=
  current ← k8s_Get (T := WaycloakInstallation) (mkObjectKey "" (Name (wi_Meta expected)));
  if negb (String.eqb (UID (wi_Meta current)) (UID (wi_Meta expected))) then io_fail (ENew "installation UID changed during reconciliation")
  else
    now ← read_clock;
    let status := change now current in
    if bool_decide (status = wi_Status current) then mret tt
    else io_wrap "record installation status" (k8s_UpdateStatus current status).

Definition ready_condition (status : ConditionStatus) (reason message : string) (generation : Z) (now : time) : Condition :=
  mkCondition ConditionReady status reason message generation now.
Definition set_ready (now : time) (status : InstallationStatus) (ready : ConditionStatus) (reason message : string) (generation : Z) : list Condition :=
  SetStatusCondition now (ist_Conditions status) (ready_condition ready reason message generation now).

Definition failed_status (message : string) (now : time) (current : WaycloakInstallation) : InstallationStatus :=
  let s := wi_Status current in
  let generation := Generation (wi_Meta current) in
  mkInstallationStatus generation (ist_ReadyGeneration s) (ist_AppliedVersion s) (ist_AppliedManifestDigest s) (ist_AppliedIntentDigest s)
    (ist_ActiveGeneration s) (ist_ActivePlanID s) (ist_Phase s) (set_ready now s ConditionFalse "ReconciliationFailed" message generation).

Definition suspended_status (now : time) (current : WaycloakInstallation) : InstallationStatus :=
  let s := wi_Status current in
  let generation := Generation (wi_Meta current) in
  mkInstallationStatus generation (ist_ReadyGeneration s) (ist_AppliedVersion s) (ist_AppliedManifestDigest s) (ist_AppliedIntentDigest s)
    (ist_ActiveGeneration s) (ist_ActivePlanID s) "Suspended"
    (set_ready now s ConditionFalse "Suspended" "New installation intent is suspended; existing runtime is retained" generation).

Definition active_status (snapshot : journal) (phase : string) (now : time) (current : WaycloakInstallation) : InstallationStatus :=
  let s := wi_Status current in
  let generation := Generation (wi_Meta current) in
  mkInstallationStatus generation (ist_ReadyGeneration s) (ist_AppliedVersion s) (ist_AppliedManifestDigest s) (ist_AppliedIntentDigest s)
    (j_Generation snapshot) (ip_PlanID (ni_Plan (j_Snapshot snapshot))) phase
    (set_ready now s ConditionFalse "Reconciling" "Reconciling immutable installation intent; newer generations wait for this transition" generation).

(** A late response for an older generation does not report the new intent. *)
Definition ready_status (snapshot : journal) (now : time) (current : WaycloakInstallation) : InstallationStatus :=
  let s := wi_Status current in
  let generation := Generation (wi_Meta current) in
  let target := ip_Target (ni_Plan (j_Snapshot snapshot)) in
  if negb (String.eqb (intentDigest (wi_Spec current)) (j_IntentDigest snapshot)) then s
  else mkInstallationStatus generation generation (rm_Version target) (rm_ManifestDigest target) (j_IntentDigest snapshot) 0 "" "Ready"
    (set_ready now s ConditionTrue "Reconciled" "Exact runtime, node coverage, trust, gateways, and live bindings are observed ready" generation).

Definition ready (installation : WaycloakInstallation) (snapshot : journal) : IO A unit := setStatus installation (ready_status snapshot).

(** What a journal must be to belong to this installation. *)
Definition journal_of (installation : WaycloakInstallation) (record : ConfigMap) : res journal :=
  let data := map_get (cm_Data record) journalData in
  let uid := UID (wi_Meta installation) in
  if negb (immutable record) || negb (String.eqb (map_get (Annotations (cm_Meta record)) ownerKey) uid) ||
     negb (bool_decide (size (cm_Data record) = 1%nat)) || (journalLimit <? String.length data)%nat
  then Fail (ENew "installation journal is foreign or malformed")
  else match journal_Unmarshal data with
       | None => Fail (ENew "installation journal cannot be decoded")
       | Some snapshot =>
           let plan := ni_Plan (j_Snapshot snapshot) in
           if negb (String.eqb (j_InstallationUID snapshot) uid) || (j_Generation snapshot <? 1) || negb (regexpDigest (j_IntentDigest snapshot)) ||
              negb (String.eqb (ip_Namespace plan) (is_Namespace (wi_Spec installation))) ||
              negb (String.eqb (ip_Release plan) (is_Release (wi_Spec installation)))
           then Fail (ENew "installation journal does not match this installation identity")
           else Ok snapshot
       end.

Definition loadJournal (installation : WaycloakInstallation) : IO W (option (journal * ConfigMap)) :=
  got ← io_try (map_Get (rc_Namespace r) journalName);
  match got with
  | Fail err => if IsNotFound err then mret None else io_fail err
  | Ok record => snapshot ← io_lift (journal_of installation record); mret (Some (snapshot, record))
  end.

Definition owns (installation : WaycloakInstallation) (owner : ConfigMap) : bool :=
  immutable owner && String.eqb (map_get (cm_Data owner) "installationUID") (UID (wi_Meta installation)) &&
  String.eqb (map_get (cm_Data owner) "release") (is_Release (wi_Spec installation)).

Definition runtimeOwned (installation : WaycloakInstallation) : IO W bool :=
  got ← io_try (map_Get (is_Namespace (wi_Spec installation)) ownerName);
  match got with
  | Fail err => if IsNotFound err then mret false else io_fail err
  | Ok owner => if owns installation owner then mret true else io_fail (ENew "runtime belongs to another installation UID")
  end.

Definition owner_map (installation : WaycloakInstallation) : ConfigMap :=
  mkConfigMap (map_meta (is_Namespace (wi_Spec installation)) ownerName ∅) 0 (Some true)
    (list_to_map [("installationUID", UID (wi_Meta installation)); ("release", is_Release (wi_Spec installation))]).

Definition claimRuntime (installation : WaycloakInstallation) : IO W unit :=
  owned ← runtimeOwned installation;
  if owned : bool then mret tt else map_Create assigned (owner_map installation).

Definition journal_map (installation : WaycloakInstallation) (data : string) : ConfigMap :=
  mkConfigMap (map_meta (rc_Namespace r) journalName (list_to_map [(ownerKey, UID (wi_Meta installation)); (phaseKey, NativePhaseHold)])) 0
    (Some true) {[journalData := data]}.

(** Nothing executable has happened yet when the journal is written. *)
Definition open_journal (installation : WaycloakInstallation) (record : option ConfigMap) : IO W Result :=
  owned ← runtimeOwned installation;
  let spec := if owned : bool then with_control true (is_Suspend (wi_Spec installation)) (wi_Spec installation) else wi_Spec installation in
  prepared ← on_world (nb_Prepare spec);
  claimRuntime installation ;;
  let next := mkJournal (UID (wi_Meta installation)) (Generation (wi_Meta installation)) (intentDigest (wi_Spec installation)) prepared in
  let data := journal_json next in
  if (journalLimit <? String.length data)%nat then io_fail (ENew "installation journal exceeds size limit")
  else
    (match record with
     | Some record => map_Delete (rc_Namespace r) (Name (cm_Meta record)) (UID (cm_Meta record))
     | None => mret tt
     end) ;;
    map_Create assigned (journal_map installation data) ;;
    mret (mkResult Millisecond).

Definition advance_journal (installation : WaycloakInstallation) (snapshot : journal) (record : ConfigMap) : IO W Result :=
  let phase := cm_phase record in
  on_world (setStatus installation (active_status snapshot phase)) ;;
  next ← on_world (nb_Advance (UID (wi_Meta installation)) (j_Snapshot snapshot) phase);
  (if negb (String.eqb next phase) then map_Update (with_phase next record) else mret tt) ;;
  mret (mkResult Second).

Definition reconcile (installation : WaycloakInstallation) : IO W Result :=
  let intent := intentDigest (wi_Spec installation) in
  loaded ← loadJournal installation;
  match loaded with
  | None =>
      if is_Suspend (wi_Spec installation) then on_world (setStatus installation suspended_status) ;; mret NoRequeue
      else open_journal installation None
  | Some (snapshot, record) =>
      owned ← runtimeOwned installation;
      if negb owned then io_fail (ENew "active installation runtime ownership is missing")
      else if String.eqb (cm_phase record) NativePhaseComplete then
        if String.eqb (j_IntentDigest snapshot) intent then
          on_world (nb_Verify (j_Snapshot snapshot)) ;;
          on_world (ready installation snapshot) ;;
          mret (mkResult (30 * Second))
        else if is_Suspend (wi_Spec installation) then on_world (setStatus installation suspended_status) ;; mret NoRequeue
        else open_journal installation (Some record)
      else advance_journal installation snapshot record
  end.

Definition Reconcile (request : ObjectKey) : IO W Result :=
  if negb (String.eqb (key_Name request) "waycloak") || negb (str_empty (key_Namespace request)) then mret NoRequeue
  else
    got ← io_try (on_world (k8s_Get (T := WaycloakInstallation) request));
    match got with
    | Fail err => if IsNotFound err then mret NoRequeue else io_fail err
    | Ok installation =>
        if negb (not_deleting (wi_Meta installation)) then mret NoRequeue
        else
          result ← io_try (reconcile installation);
          match result with
          | Ok result => mret result
          | Fail err => on_world (setStatus installation (failed_status (String.substring 0 1024 (error_text err)))) ;; mret (mkResult (15 * Second))
          end
    end.

End Reconcile.

(** ** The protocol of the journal *)

Section Protocol.
Context `{InstallationJson} `{ConditionSetter} {A : Type} `{NativeBackend A} `{Clock A}.
Context `{Getter A WaycloakInstallation} `{StatusUpdater A WaycloakInstallation InstallationStatus}.
Context (error_text : error -> string) (assigned : gmap ObjectKey ConfigMap -> string) (r : Reconciler).

Notation W := (api ConfigMap * A)%type.
Notation store := (gmap ObjectKey ConfigMap).

Definition jkey : ObjectKey := mkObjectKey (rc_Namespace r) journalName.
Definition okey (installation : WaycloakInstallation) : ObjectKey := mkObjectKey (is_Namespace (wi_Spec installation)) ownerName.
Definition stored (uid : string) (o : ConfigMap) : ConfigMap := mkConfigMap (set_uid uid (cm_Meta o)) 1 (cm_Immutable o) (cm_Data o).
Definition bumped (o : ConfigMap) : ConfigMap := mkConfigMap (cm_Meta o) (cm_ResourceVersion o + 1) (cm_Immutable o) (cm_Data o).

(** Other clients leave the journal as it is, or remove it. *)
Definition leaves (change : store -> store) : Prop := forall m, change m !! jkey = m !! jkey \/ change m !! jkey = None.

(** What the controller does to the journal and the owner, for an installation:
    claim the runtime, open a journal where there is none, move an active one to
    a phase that the backend answered, remove a complete one whose intent is no
    longer that of the installation. *)
Inductive journal_step (Prepared : InstallationSpec -> NativeInstallPlan -> Prop) (Next : NativeInstallPlan -> string -> string -> Prop) : store -> store -> Prop :=
| js_other change m : leaves change -> journal_step Prepared Next m (change m)
| js_claim installation uid m : m !! okey installation = None ->
    journal_step Prepared Next m (<[okey installation := stored uid (owner_map installation)]> m)
| js_open installation adopt uid prepared m : m !! jkey = None ->
    Prepared (with_control adopt (is_Suspend (wi_Spec installation)) (wi_Spec installation)) prepared ->
    journal_step Prepared Next m (<[jkey := stored uid (journal_map r installation (journal_json
      (mkJournal (UID (wi_Meta installation)) (Generation (wi_Meta installation)) (intentDigest (wi_Spec installation)) prepared)))]> m)
| js_advance installation record snapshot next m : m !! jkey = Some record -> journal_of installation record = Ok snapshot ->
    cm_phase record <> NativePhaseComplete -> Next (j_Snapshot snapshot) (cm_phase record) next ->
    journal_step Prepared Next m (<[jkey := bumped (with_phase next record)]> m)
| js_close installation record snapshot m : m !! jkey = Some record -> journal_of installation record = Ok snapshot ->
    cm_phase record = NativePhaseComplete -> j_IntentDigest snapshot <> intentDigest (wi_Spec installation) ->
    journal_step Prepared Next m (delete jkey m).

(** The status says that the release is ready. *)
Definition claims_ready (status : InstallationStatus) : Prop := exists c, c ∈ ist_Conditions status /\ c_Type c = ConditionReady /\ c_Status c = ConditionTrue.

Section Steps.
Context (I : A -> Prop) (J : store -> Prop).
Context (Prepared : InstallationSpec -> NativeInstallPlan -> Prop) (Next : NativeInstallPlan -> string -> string -> Prop).
Context (Verified : NativeInstallPlan -> Prop).

(** A status may say that the release is ready only for the intent that was
    verified. *)
Definition honest (current : WaycloakInstallation) (status : InstallationStatus) : Prop :=
  NoDup (map c_Type (ist_Conditions (wi_Status current))) -> claims_ready status ->
  exists snapshot, Verified (j_Snapshot snapshot) /\ intentDigest (wi_Spec current) = j_IntentDigest snapshot /\
    ist_AppliedVersion status = rm_Version (ip_Target (ni_Plan (j_Snapshot snapshot))) /\
    ist_AppliedManifestDigest status = rm_ManifestDigest (ip_Target (ni_Plan (j_Snapshot snapshot))) /\
    ist_ReadyGeneration status = Generation (wi_Meta current).

Record installation_keeps : Prop := {
  ik_get key : keeps I (k8s_Get (T := WaycloakInstallation) key);
  ik_status current status : honest current status -> keeps I (k8s_UpdateStatus current status);
  ik_prepare spec w : I w -> wp (nb_Prepare spec) (fun res w' => I w' /\ forall prepared, res = Ok prepared -> Prepared spec prepared) w;
  ik_advance m installation record snapshot uid w : J m -> m !! jkey = Some record -> journal_of installation record = Ok snapshot -> I w ->
    wp (nb_Advance uid (j_Snapshot snapshot) (cm_phase record))
      (fun res w' => I w' /\ forall next, res = Ok next -> Next (j_Snapshot snapshot) (cm_phase record) next) w;
  ik_verify snapshot w : I w -> wp (nb_Verify snapshot) (fun res w' => I w' /\ (res = Ok tt -> Verified snapshot)) w;
  ik_keyed m record : J m -> m !! jkey = Some record -> key_of (cm_Meta record) = jkey;
  ik_step m m' : J m -> journal_step Prepared Next m m' -> J m'
}.
Context (Hkeeps : installation_keeps).

(** The stores and worlds that a pass goes through; of the entry of the journal
    something is known that its removal does not take away. *)
Definition shared (F : option ConfigMap -> Prop) (w : W) : Prop :=
  F None /\ J (api_objs w.1) /\ F (api_objs w.1 !! jkey) /\ Forall (fun c => leaves c.1) (api_env w.1) /\ I w.2.

Definition anything : option ConfigMap -> Prop := fun _ => True.
Definition only (record : ConfigMap) : option ConfigMap -> Prop := fun o => o = Some record \/ o = None.

Lemma keys_differ installation : okey installation <> jkey.
Proof. unfold okey, jkey. by intros [= _ ?]. Qed.

Lemma wp_maps {X} (act : IO (api ConfigMap) X) F Q (w : W) : shared F w ->
  (forall w1, shared F w1 -> wp act (fun res maps => Q res (maps, w1.2)) w1.1) -> (forall w1 e, shared F w1 -> Q (Fail e) w1) ->
  wp (on_maps (api_call act)) Q w.
Proof.
  intros (HN & HJ & HF & Henv & HI) Hact Hfail. unfold wp, on_maps, api_call.
  assert (forall maps e, api_enter w.1 = (maps, e) -> shared F (maps, w.2)) as Henter.
  { intros maps e. unfold api_enter. destruct (api_env w.1) as [|[change failure] rest] eqn:Ee; intros [= <- <-].
    - split_and!; [done|done|done|cbn; by rewrite Ee|done].
    - apply Forall_cons in Henv as [Hc Hrest]. split_and!; [done| | |done|done].
      + apply (ik_step Hkeeps _ _ HJ). by apply js_other.
      + specialize (Hc (api_objs w.1)). cbn in Hc |- *. destruct Hc as [-> | ->]; done. }
  destruct (api_enter w.1) as [maps [e|]] eqn:E; [by apply (Hfail (maps, w.2)), (Henter _ _ eq_refl)|].
  pose proof (Hact (maps, w.2) (Henter _ _ eq_refl)) as Hw. unfold wp in Hw. cbn in Hw. by destruct (act maps).
Qed.

(** The store after a step of the controller. *)
Lemma shared_step F G (maps : api ConfigMap) a m' : shared F (maps, a) -> journal_step Prepared Next (api_objs maps) m' -> G None -> G (m' !! jkey) ->
  shared G (set_objs m' maps, a).
Proof. intros (_ & HJ & _ & Henv & HI) Hstep HN HG. split_and!; [done|by apply (ik_step Hkeeps _ _ HJ)|done|done|done]. Qed.

Lemma shared_any F w : shared F w -> shared anything w.
Proof. intros (_ & HJ & _ & Henv & HI). by split_and!. Qed.

Lemma wp_backend {X} (m : IO A X) F (P : res X -> Prop) Q (w : W) : shared F w ->
  (forall a, I a -> wp m (fun res a' => I a' /\ P res) a) -> (forall res w', shared F w' -> P res -> Q res w') -> wp (on_world m) Q w.
Proof.
  intros (HN & HJ & HF & Henv & HI) Hm HQ. destruct w as [maps a]. apply wp_on_world. eapply wp_mono; [by apply Hm|].
  intros res a' [HI' HP]. apply HQ; [|done]. by split_and!.
Qed.

Lemma get_owner F namespace name Q (w : W) : shared F w -> (forall res w', shared F w' -> Q res w') -> wp (map_Get namespace name) Q w.
Proof.
  intros Hw HQ. unfold map_Get. apply (wp_maps _ F); [done| |by intros; apply HQ]. intros [maps a] Hw1. unfold wp. cbn. by apply HQ.
Qed.

Lemma owned_any F installation Q (w : W) : shared F w -> (forall res w', shared F w' -> Q res w') -> wp (runtimeOwned installation) Q w.
Proof.
  intros Hw HQ. unfold runtimeOwned. do 2 wp_step. apply (get_owner F); [done|]. intros [owner|e] w1 Hw1; cbn [after].
  - destruct (owns installation owner); wp_step; by apply HQ.
  - destruct (IsNotFound e); wp_step; by apply HQ.
Qed.

Lemma claim_any F installation Q (w : W) : shared F w -> (forall res w', shared F w' -> Q res w') -> wp (claimRuntime assigned installation) Q w.
Proof.
  intros Hw HQ. unfold claimRuntime. wp_step. apply (owned_any F); [done|]. intros [[|]|e] w1 Hw1; cbn [after]; [by wp_step; apply HQ| |by apply HQ].
  unfold map_Create. apply (wp_maps _ F); [done| |by intros; apply HQ]. intros [maps a] Hw2. unfold wp. cbn [fst snd].
  destruct (api_objs maps !! key_of (cm_Meta (owner_map installation))) as [o|] eqn:Eo; [by apply HQ|]. apply HQ.
  eapply shared_step; [exact Hw2| |apply Hw2|].
  - by apply (js_claim _ _ installation).
  - rewrite lookup_insert_ne; [apply Hw2|apply keys_differ].
Qed.

Lemma load_any installation Q (w : W) : shared anything w ->
  (forall snapshot record w', shared (only record) w' -> journal_of installation record = Ok snapshot -> (exists m, J m /\ m !! jkey = Some record) ->
     Q (Ok (Some (snapshot, record))) w') ->
  (forall res w', res = Ok None \/ (exists e, res = Fail e) -> shared anything w' -> Q res w') -> wp (loadJournal r installation) Q w.
Proof.
  intros Hw Hsome Hnone. unfold loadJournal. do 2 wp_step. unfold map_Get. apply (wp_maps _ anything); [done| |].
  - intros [maps a] Hw1. unfold wp at 1. cbn [fst snd after]. destruct (api_objs maps !! jkey) as [record|] eqn:Er; fold jkey; rewrite Er; cbn [after].
    + wp_step. wp_step. destruct (journal_of installation record) as [snapshot|e] eqn:Ej; cbn [after]; [|by apply Hnone; eauto].
      wp_step. apply Hsome; [|done|]; destruct Hw1 as (_ & HJ & _ & Henv & HI); [|by eauto]. split_and!; try done; [by right|by left].
    + destruct (IsNotFound _); wp_step; apply Hnone; eauto.
  - intros w1 e Hw1. cbn [after]. destruct (IsNotFound e); wp_step; apply Hnone; eauto.
Qed.

(** *** The statuses *)

Lemma not_ready_honest now current ready reason message generation rv av am ai ag ap ph : ready <> ConditionTrue ->
  honest current (mkInstallationStatus generation rv av am ai ag ap ph (set_ready now (wi_Status current) ready reason message generation)).
Proof.
  intros Hr Hnd (c & Hin & Ht & Hs). cbn in Hin. apply set_condition_in in Hin as [(_ & Hs' & _)|[Hne _]]; [|done|done].
  cbn in Hs'. congruence.
Qed.

Lemma ready_honest snapshot now current : Verified (j_Snapshot snapshot) -> ready_status snapshot now current <> wi_Status current ->
  honest current (ready_status snapshot now current).
Proof.
  intros Hv Hne Hnd _. unfold ready_status in *. cbv zeta in *. destruct (String.eqb _ _) eqn:Ed; cbn [negb] in *; [|done].
  apply String.eqb_eq in Ed. exists snapshot. by cbn.
Qed.

Lemma setStatus_keeps installation change a :
  (forall now current, change now current <> wi_Status current -> honest current (change now current)) -> I a ->
  wp (setStatus installation change) (fun _ a' => I a') a.
Proof.
  intros Hc HI. unfold setStatus. wp_step. eapply wp_mono; [apply wp_keeps; [apply (ik_get Hkeeps)|exact HI]|].
  intros [current|e] a1 HI1; cbn [after]; [|done]. destruct (negb _); [by wp_step|]. wp_now. destruct (bool_decide _) eqn:Eb; [by wp_step|].
  apply bool_decide_eq_false in Eb. wp_step. eapply wp_mono; [apply wp_keeps; [by apply (ik_status Hkeeps), Hc|exact HI1]|].
  by intros [[]|e] a2 HI2; cbn [after].
Qed.

Lemma wp_status F installation change Q (w : W) : shared F w ->
  (forall now current, change now current <> wi_Status current -> honest current (change now current)) ->
  (forall res w', shared F w' -> Q res w') -> wp (on_world (setStatus installation change)) Q w.
Proof.
  intros Hw Hc HQ. apply (wp_backend _ F (fun _ => True)); [done| |auto]. intros a HI. eapply wp_mono; [by apply setStatus_keeps|]. auto.
Qed.

(** *** The passes *)

Lemma create_journal installation adopt prepared Q (w : W) : shared anything w ->
  Prepared (with_control adopt (is_Suspend (wi_Spec installation)) (wi_Spec installation)) prepared ->
  (forall res w', shared anything w' -> Q res w') ->
  wp (map_Create assigned (journal_map r installation (journal_json
    (mkJournal (UID (wi_Meta installation)) (Generation (wi_Meta installation)) (intentDigest (wi_Spec installation)) prepared)))) Q w.
Proof.
  intros Hw Hp HQ. unfold map_Create. apply (wp_maps _ anything); [done| |by intros; apply HQ]. intros [maps a] Hw1. unfold wp. cbn [fst snd].
  destruct (api_objs maps !! key_of _) as [o|] eqn:Eo; [by apply HQ|]. apply HQ. eapply shared_step; [exact Hw1| |done|done].
  by apply (js_open _ _ installation adopt _ prepared).
Qed.

Lemma close_journal installation record snapshot Q (w : W) : shared (only record) w -> journal_of installation record = Ok snapshot ->
  key_of (cm_Meta record) = jkey -> cm_phase record = NativePhaseComplete -> j_IntentDigest snapshot <> intentDigest (wi_Spec installation) ->
  (forall res w', shared anything w' -> Q res w') -> wp (map_Delete (rc_Namespace r) (Name (cm_Meta record)) (UID (cm_Meta record))) Q w.
Proof.
  intros Hw Hj Hk Hc Hd HQ. unfold map_Delete. replace (mkObjectKey (rc_Namespace r) (Name (cm_Meta record))) with jkey.
  2: { unfold key_of, jkey in *. by injection Hk as _ ->. }
  apply (wp_maps _ (only record)); [done| |by intros w1 e Hw1%shared_any; apply HQ]. intros [maps a] Hw1. unfold wp. cbn [fst snd].
  destruct (api_objs maps !! jkey) as [o|] eqn:Eo; [|by apply HQ, (shared_any _ _ Hw1)].
  destruct (negb _); [by apply HQ, (shared_any _ _ Hw1)|]. apply HQ. eapply shared_step; [exact Hw1| |done|done].
  assert (o = record) as ->. { destruct Hw1 as (_ & _ & [He|He] & _); cbn in He; congruence. }
  by eapply (js_close _ _ installation).
Qed.

Lemma update_journal installation record snapshot next Q (w : W) : shared (only record) w -> journal_of installation record = Ok snapshot ->
  key_of (cm_Meta record) = jkey -> cm_phase record <> NativePhaseComplete -> Next (j_Snapshot snapshot) (cm_phase record) next ->
  (forall res w', shared anything w' -> Q res w') -> wp (map_Update (with_phase next record)) Q w.
Proof.
  intros Hw Hj Hk Hc Hn HQ. unfold map_Update. change (key_of (cm_Meta (with_phase next record))) with (key_of (cm_Meta record)). rewrite Hk.
  apply (wp_maps _ (only record)); [done| |by intros w1 e Hw1%shared_any; apply HQ]. intros [maps a] Hw1. unfold wp. cbn [fst snd].
  destruct (api_objs maps !! jkey) as [o|] eqn:Eo; [|by apply HQ, (shared_any _ _ Hw1)].
  destruct (_ || _); [by apply HQ, (shared_any _ _ Hw1)|]. destruct (_ && _); [by apply HQ, (shared_any _ _ Hw1)|]. apply HQ.
  eapply shared_step; [exact Hw1| |done|done].
  assert (o = record) as ->. { destruct Hw1 as (_ & _ & [He|He] & _); cbn in He; congruence. }
  by eapply (js_advance _ _ installation).
Qed.

Lemma spec_control spec : with_control (is_AdoptExisting spec) (is_Suspend spec) spec = spec.
Proof. by destruct spec. Qed.

Lemma open_shared installation record (w : W) : shared (from_option only anything record) w ->
  (forall o, record = Some o -> key_of (cm_Meta o) = jkey /\ cm_phase o = NativePhaseComplete /\
     exists snapshot, journal_of installation o = Ok snapshot /\ j_IntentDigest snapshot <> intentDigest (wi_Spec installation)) ->
  wp (open_journal assigned r installation record) (fun _ w' => shared anything w') w.
Proof.
  intros Hw Hrec. unfold open_journal. set (F := from_option only anything record) in *.
  wp_step. apply (owned_any F); [done|]. intros [owned|e] w1 Hw1; cbn [after]; [|by eapply shared_any].
  set (spec := if owned then _ else _).
  assert (exists adopt, spec = with_control adopt (is_Suspend (wi_Spec installation)) (wi_Spec installation)) as [adopt Hspec].
  { unfold spec. destruct owned; [by eexists|]. exists (is_AdoptExisting (wi_Spec installation)). by rewrite spec_control. }
  wp_step. apply (wp_backend _ F (fun res => forall prepared, res = Ok prepared -> Prepared spec prepared)); [done|apply (ik_prepare Hkeeps)|].
  intros [prepared|e] w2 Hw2 Hp; cbn [after]; [|by eapply shared_any]. specialize (Hp prepared eq_refl). rewrite Hspec in Hp.
  wp_step. apply (claim_any F); [done|]. intros [[]|e] w3 Hw3; cbn [after]; [|by eapply shared_any].
  cbv zeta. destruct (_ <? _)%nat; [wp_step; by eapply shared_any|].
  wp_step. apply (wp_mono _ (fun _ w' => shared anything w')).
  - destruct record as [record|]; [|wp_step; by eapply shared_any].
    destruct (Hrec record eq_refl) as (Hk & Hc & snapshot & Hj & Hd). by eapply close_journal.
  - intros [[]|e] w4 Hw4; cbn [after]; [|done]. wp_step. eapply (create_journal installation adopt); [done|done|].
    intros [[]|e] w5 Hw5; cbn [after]; [by wp_step|done].
Qed.

Lemma advance_shared installation snapshot record m (w : W) : shared (only record) w -> journal_of installation record = Ok snapshot ->
  J m -> m !! jkey = Some record -> cm_phase record <> NativePhaseComplete ->
  wp (advance_journal installation snapshot record) (fun _ w' => shared anything w') w.
Proof.
  intros Hw Hj HJ Hm Hc. pose proof (ik_keyed Hkeeps m record HJ Hm) as Hk. unfold advance_journal. cbv zeta.
  wp_step. apply (wp_status (only record)); [done|intros; by apply not_ready_honest|]. intros [[]|e] w1 Hw1; cbn [after]; [|by eapply shared_any].
  wp_step. apply (wp_backend _ (only record) (fun res => forall next, res = Ok next -> Next (j_Snapshot snapshot) (cm_phase record) next)); [done| |].
  { intros a HI. by apply (ik_advance Hkeeps m installation). }
  intros [next|e] w2 Hw2 Hn; cbn [after]; [|by eapply shared_any]. specialize (Hn next eq_refl).
  wp_step. apply (wp_mono _ (fun _ w' => shared anything w')).
  - destruct (negb _); [|wp_step; by eapply shared_any]. by eapply update_journal.
  - intros [[]|e] w3 Hw3; cbn [after]; [by wp_step|done].
Qed.

Lemma reconcile_shared installation (w : W) : shared anything w -> wp (reconcile assigned r installation) (fun _ w' => shared anything w') w.
Proof.
  intros Hw. unfold reconcile. cbv zeta.
  assert (forall F w, shared F w -> wp (on_world (setStatus installation suspended_status) ;; mret NoRequeue) (fun _ w' => shared anything w') w) as Hsuspend.
  { intros F w0 Hw0. wp_step. apply (wp_status F); [done|intros; by apply not_ready_honest|].
    intros [[]|e] w1 Hw1; cbn [after]; [wp_step|]; by eapply shared_any. }
  wp_step. apply load_any; [done| |].
  - intros snapshot record w1 Hw1 Hj (m & HJ & Hm). cbn [after]. wp_step. apply (owned_any (only record)); [done|].
    intros [owned|e] w2 Hw2; cbn [after]; [|by eapply shared_any]. destruct owned; cbn [negb]; [|wp_step; by eapply shared_any].
    destruct (String.eqb (cm_phase record) _) eqn:Ec; [apply String.eqb_eq in Ec|apply String.eqb_neq in Ec; by eapply advance_shared].
    destruct (String.eqb _ _) eqn:Ed.
    + wp_step. apply (wp_backend _ (only record) (fun res => res = Ok tt -> Verified (j_Snapshot snapshot))); [done|intros; by apply (ik_verify Hkeeps)|].
      intros [[]|e] w3 Hw3 Hv; cbn [after]; [|by eapply shared_any]. specialize (Hv eq_refl).
      wp_step. apply (wp_status (only record)); [done|intros; by apply ready_honest|].
      intros [[]|e] w4 Hw4; cbn [after]; [wp_step|]; by eapply shared_any.
    + apply String.eqb_neq in Ed. destruct (is_Suspend _); [by eapply Hsuspend|]. apply open_shared; [done|]. intros o [= <-].
      split; [by eapply (ik_keyed Hkeeps)|]. eauto.
  - intros res w1 [->|[e ->]] Hw1; cbn [after]; [|done]. destruct (is_Suspend _); [by eapply Hsuspend|]. by apply open_shared.
Qed.

Lemma Reconcile_shared request (w : W) : shared anything w -> wp (Reconcile error_text assigned r request) (fun _ w' => shared anything w') w.
Proof.
  intros Hw. unfold Reconcile. destruct (_ || _); [by wp_step|]. do 2 wp_step.
  apply (wp_backend _ anything (fun _ => True)); [done| |].
  { intros a HI. eapply wp_mono; [apply wp_keeps; [apply (ik_get Hkeeps)|exact HI]|]. auto. }
  intros [installation|e] w1 Hw1 _; [|destruct (IsNotFound e); by wp_step]. destruct (negb _); [by wp_step|].
  do 2 wp_step. eapply wp_mono; [by apply reconcile_shared|]. intros [result|e] w2 Hw2; [by wp_step|].
  wp_step. apply (wp_status anything); [done|intros; by apply not_ready_honest|]. intros [[]|e'] w3 Hw3; cbn [after]; [by wp_step|done].
Qed.

End Steps.
(** *** The controller refines the protocol *)

Section Refinement.
Context (I : A -> Prop).

Definition prepared_by (spec : InstallationSpec) (prepared : NativeInstallPlan) : Prop := answered I (nb_Prepare spec) (Ok prepared).
Definition moved_by (snapshot : NativeInstallPlan) (phase next : string) : Prop := exists uid, answered I (nb_Advance uid snapshot phase) (Ok next).
Definition verified_by (snapshot : NativeInstallPlan) : Prop := answered I (nb_Verify snapshot) (Ok tt).

Record requests_keep : Prop := {
  rk_get key : keeps I (k8s_Get (T := WaycloakInstallation) key);
  rk_status current status : honest verified_by current status -> keeps I (k8s_UpdateStatus current status);
  rk_prepare spec : keeps I (nb_Prepare spec);
  rk_advance uid snapshot phase : keeps I (nb_Advance uid snapshot phase);
  rk_verify snapshot : keeps I (nb_Verify snapshot)
}.

(** The journal is stored under its own key. *)
Definition keyed (m : store) : Prop := forall record, m !! jkey = Some record -> key_of (cm_Meta record) = jkey.

Lemma keyed_step P N m m' : keyed m -> journal_step P N m m' -> keyed m'.
Proof.
  intros Hm Hstep record Hr. destruct Hstep as [change m Hc|installation uid m Ho|installation adopt uid prepared m Hj _|installation old snapshot next m Hj _ _ _|].
  - destruct (Hc m) as [E|E]; rewrite E in Hr; [by apply Hm|done].
  - rewrite lookup_insert_ne in Hr by apply keys_differ. by apply Hm.
  - rewrite lookup_insert_eq in Hr. by injection Hr as <-.
  - rewrite lookup_insert_eq in Hr. injection Hr as <-. by apply (Hm old).
  - by rewrite lookup_delete_eq in Hr.
Qed.

Lemma refinement_keeps m0 : requests_keep ->
  installation_keeps I (fun m => rtc (journal_step prepared_by moved_by) m0 m /\ keyed m) prepared_by moved_by verified_by.
Proof.
  intros Hk. split.
  - apply (rk_get Hk).
  - apply (rk_status Hk).
  - intros spec w HI. eapply wp_asked; [apply (rk_prepare Hk)|done|]. intros res w' HI' Hr. split; [done|]. by intros prepared ->.
  - intros m installation record snapshot uid w _ _ _ HI. eapply wp_asked; [apply (rk_advance Hk)|done|]. intros res w' HI' Hr.
    split; [done|]. intros next ->. by exists uid.
  - intros snapshot w HI. eapply wp_asked; [apply (rk_verify Hk)|done|]. intros res w' HI' Hr. split; [done|]. by intros ->.
  - intros m record [_ Hm]. apply Hm.
  - intros m m' [Hh Hm] Hstep. split; [by eapply rtc_r|by eapply keyed_step].
Qed.


End Refinement.
End Protocol.

(** ** An installation that is asked for *)

Module ProtocolSample.

Definition absent : InstalledReleaseObservation := mkInstalledReleaseObservation None installStateAbsent "" 0 "" "" ∅ "" 0 "" "" "" "" "" ∅.
Definition target : ReleaseManifest := mkReleaseManifest "release.waycloak.io/v1" "v1.0.2" "" (mkArtifact "" "") None ∅ [] None.
Definition plan : InstallPlan :=
  mkInstallPlan "plan" "Install" absent ∅ "" "" "" "" "waycloak-system" "waycloak" "" target (mkArtifact "" "") "" None.
Definition snapshot : NativeInstallPlan := mkNativeInstallPlan plan "" "" "" "" "" (mkNodeInstallLayout "" "" "" "" ∅ ∅).
Definition spec : InstallationSpec := mkInstallationSpec "v1.0.2" "waycloak-system" "waycloak" "10.88.0.0/16" "amd64" "" false false.
Definition installation : WaycloakInstallation :=
  mkWaycloakInstallation (mkObjectMeta "" "waycloak" "installation-uid" 1 None ∅ ∅ [] []) spec (mkInstallationStatus 0 0 "" "" "" 0 "" "" []).

(** A backend that stages at once and then waits. *)
#[local] Instance backend : NativeBackend WaycloakInstallation := {|
  nb_Prepare _ := mret snapshot;
  nb_Advance _ _ phase := if String.eqb phase NativePhaseHold then mret NativePhaseStage else io_fail (ENew "runtime is not ready");
  nb_Verify _ := io_fail (ENew "runtime is not ready")
|}.
#[local] Instance stored_get : Getter WaycloakInstallation WaycloakInstallation := fun _ w => (Ok w, w).
#[local] Instance stored_status : StatusUpdater WaycloakInstallation WaycloakInstallation InstallationStatus := fun current status w =>
  (Ok tt, mkWaycloakInstallation (wi_Meta w) (wi_Spec w) status).
#[local] Instance stored_clock : Clock WaycloakInstallation := fun _ => 0.
#[local] Instance sample_journals : InstallationJson := {|
  spec_json := is_Version;
  journal_json _ := "journal";
  journal_Unmarshal data := if String.eqb data "journal" then Some (mkJournal "installation-uid" 1 (digest_of "v1.0.2") snapshot) else None
|}.
#[local] Program Instance sample_setter : ConditionSetter := {| SetStatusCondition now cs c := c :: filter (fun c' => c_Type c' <> c_Type c) cs |}.
Next Obligation.
  intros now cs c c' _ [-> | [Hne Hin]%list_elem_of_filter]%elem_of_cons; [by left|by right].
Qed.

Definition reconciler : Reconciler := mkReconciler "waycloak-install".
Definition round (w : api ConfigMap * WaycloakInstallation) : api ConfigMap * WaycloakInstallation :=
  (Reconcile (fun _ => "error") (fun _ => "map-uid") reconciler (mkObjectKey "" "waycloak") w).2.

(** The journal is removed by another client at the third request. *)
Definition intruder : (gmap ObjectKey ConfigMap -> gmap ObjectKey ConfigMap) * option error := (delete (jkey reconciler), None).
Definition quiet : (gmap ObjectKey ConfigMap -> gmap ObjectKey ConfigMap) * option error := (id, None).
Definition start : api ConfigMap * WaycloakInstallation := (mkApi ∅ [quiet; quiet; intruder] 0, installation).

Definition phase_of (w : api ConfigMap * WaycloakInstallation) : option string := cm_phase <$> api_objs w.1 !! jkey reconciler.

(** The journal is opened, and then moved. *)
Lemma journal_moves : phase_of (round start) = Some NativePhaseHold /\ phase_of (round (round start)) = Some NativePhaseStage /\
  phase_of (round (round (round start))) = Some NativePhaseStage.
Proof. by vm_compute. Qed.

Lemma backend_keeps : requests_keep (fun w => wi_Spec w = spec).
Proof. split; try by intros; intros w Hw. intros uid snapshot phase w Hw. unfold nb_Advance, backend. by case_match. Qed.


End ProtocolSample.
