(* ===== verification/InstallPath.v ===== *)
(** * The installation as a whole

    The backend of the installation controller (internal/installation/backend.go),
    which binds the phases of Transition to signed releases, and what the
    controller with this backend does to a cluster over any history of passes,
    failures and other clients. *)

From S2P Require Import Prelude Sha256 Netip Api Conditions Kube CniTypes CniInstall Release Transition Installation.

(** ** The backend *)

Record Operation := mkOperation { oper_InstallationUID : string; oper_PlanID : string; oper_Phase : string }.

(** Its cache of verified releases, and the operation that the runtime is told. *)
Record BackendState := mkBackendState { bs_verified : gmap string ReleaseManifest; bs_Operation : option Operation }.

(** The signed publication of a version; Masterminds/semver, which tells for two
    strict versions whether the first is less; the preparation of a plan and the
    check of its values against the chart. *)
Class ReleaseResolver (B : Type) := resolver_Resolve : string -> IO B ReleaseManifest.
Class Semver := semver_less : string -> string -> option bool.
Class PlanMaker (B : Type) := {
  PrepareNativeInstall : InstallationSpec -> ReleaseManifest -> IO B NativeInstallPlan;
  runtime_Validate : InstallPlan -> IO B unit
}.

(** [strings.TrimPrefix]. *)
Definition TrimPrefix (s p : string) : string := if HasPrefix s p then drop_string (String.length p) s else s.

Section Backend.
Context `{ReleaseJson} `{ReleaseObjects} `{GoQuote} `{Semver} {B : Type} `{Timer B} `{ReleaseResolver B} `{PlanMaker B}.
Context `{Getter B CustomResourceDefinition} `{Getter B Deployment} `{Getter B DaemonSet} `{Getter B VPNGatewayClass}
  `{Getter B Secret} `{Lister B Secret} `{Updater B DaemonSet} `{Lister B VPNWorkloadBinding}.
Context `{Lister B VPNGateway} `{Getter B VPNGateway} `{Lister B StatefulSet} `{Lister B RuntimePod} `{UidDeleter B RuntimePod}.
Context `{Lister B ClusterNode} `{UidDeleter B VPNGatewayClass} `{InstallChecks B} `{InstallRuntime B}.
Context (runtimeNamespace : string).

Notation A := (BackendState * B)%type.

(** At most two releases are remembered. *)
Definition remember (version : string) (manifest : ReleaseManifest) (st : BackendState) : BackendState :=
  mkBackendState (<[version := manifest]> (if (2 <=? size (bs_verified st))%nat then ∅ else bs_verified st)) (bs_Operation st).

Definition resolve (version : string) : IO A ReleaseManifest :=
  st ← get_state;
  match bs_verified st !! version with
  | Some manifest => mret manifest
  | None =>
      manifest ← on_world (resolver_Resolve version);
      match semver_less (TrimPrefix version "v") "1.0.2-rc.3" with
      | Some false => put_state (remember version manifest st) ;; mret manifest
      | _ => io_fail (ENew "release predates the terminating-namespace fail-closed fix")
      end
  end.

Definition Backend_Prepare (spec : InstallationSpec) : IO A NativeInstallPlan :=
  manifest ← resolve (is_Version spec);
  if negb (String.eqb (is_Namespace spec) runtimeNamespace)
  then io_fail (ENew "installation namespace differs from the controller's configured runtime namespace")
  else
    snapshot ← on_world (PrepareNativeInstall spec manifest);
    if String.eqb (is_Version spec) "v1.0.2-rc.3" && String.eqb (rel_ManifestDigest (ip_Source (ni_Plan snapshot))) (rm_ManifestDigest manifest)
    then io_fail (ENew "configuration-only transitions require the declarative lifecycle release or a successor")
    else on_world (runtime_Validate (ni_Plan snapshot)) ;; mret snapshot.

Definition Backend_Advance (uid : string) (snapshot : NativeInstallPlan) (phase : string) : IO A string :=
  let target := ip_Target (ni_Plan snapshot) in
  manifest ← resolve (rm_Version target);
  if negb (bool_decide (manifest = target)) then io_fail (ENew "journal target differs from the signed publication")
  else
    st ← get_state;
    put_state (mkBackendState (bs_verified st) (Some (mkOperation uid (ip_PlanID (ni_Plan snapshot)) phase))) ;;
    on_world (AdvanceNativeInstall snapshot phase).

Definition Backend_Verify (snapshot : NativeInstallPlan) : IO A unit :=
  let target := ip_Target (ni_Plan snapshot) in
  manifest ← resolve (rm_Version target);
  if negb (bool_decide (manifest = target)) then io_fail (ENew "completed target differs from signed publication")
  else on_world (VerifyNativeInstall snapshot).

Definition Backend_Native : NativeBackend A := {|
  nb_Prepare := Backend_Prepare;
  nb_Advance := Backend_Advance;
  nb_Verify := Backend_Verify
|}.

End Backend.

(** ** What holds over every history *)

Section History.
Context `{ReleaseJson} `{ReleaseObjects} `{GoQuote} `{Semver} {B : Type} `{Timer B} `{ReleaseResolver B} `{PlanMaker B}.
Context `{Getter B CustomResourceDefinition} `{Getter B Deployment} `{Getter B DaemonSet} `{Getter B VPNGatewayClass}
  `{Getter B Secret} `{Lister B Secret} `{Updater B DaemonSet} `{Lister B VPNWorkloadBinding}.
Context `{Lister B VPNGateway} `{Getter B VPNGateway} `{Lister B StatefulSet} `{Lister B RuntimePod} `{UidDeleter B RuntimePod}.
Context `{Lister B ClusterNode} `{UidDeleter B VPNGatewayClass} `{InstallChecks B} `{InstallRuntime B}.
Context `{InstallationJson} `{ConditionSetter} `{Clock B} `{Getter B WaycloakInstallation} `{StatusUpdater B WaycloakInstallation InstallationStatus}.
Context (runtimeNamespace : string) (error_text : error -> string) (assigned : gmap ObjectKey ConfigMap -> string) (r : Reconciler).

Notation A := (BackendState * B)%type.
Notation W := (api ConfigMap * A)%type.

#[local] Instance backend : NativeBackend A := Backend_Native runtimeNamespace.
#[local] Instance lifted_clock : Clock A := fun a => clock_now a.2.
#[local] Instance lifted_get : Getter A WaycloakInstallation := fun key => on_world (k8s_Get key).
#[local] Instance lifted_status : StatusUpdater A WaycloakInstallation InstallationStatus := fun current status => on_world (k8s_UpdateStatus current status).

Definition pass (request : ObjectKey) : IO W Result := Reconcile error_text assigned r request.

Context (I : B -> Prop).

(** The release is the signed publication of its version. *)
Definition signed (target : ReleaseManifest) : Prop := answered I (resolver_Resolve (rm_Version target)) (Ok target).

(** The release that the journal asks for is installed, and is a signed one. *)
Definition verified (snapshot : NativeInstallPlan) : Prop := signed (ip_Target (ni_Plan snapshot)) /\ installed_seen I snapshot.

(** What is asked of the cluster keeps the invariant; the requests of a
    transition only have to where its target is signed and they are allowed, and
    a status only where it is honest. *)
Record cluster_keeps : Prop := {
  ck_transition snapshot : signed (ip_Target (ni_Plan snapshot)) -> transition_keeps I snapshot;
  ck_resolve version : keeps I (resolver_Resolve version);
  ck_prepare spec manifest : keeps I (PrepareNativeInstall spec manifest);
  ck_validate plan : keeps I (runtime_Validate plan);
  ck_get key : keeps I (k8s_Get (T := WaycloakInstallation) key);
  ck_status current status : honest verified current status -> keeps I (k8s_UpdateStatus current status)
}.

(** Every journal of the store stands where the observations have brought it. *)
Definition journals_true (m : gmap ObjectKey ConfigMap) : Prop :=
  forall record, m !! jkey r = Some record -> key_of (cm_Meta record) = jkey r /\
    forall installation snapshot, journal_of installation record = Ok snapshot -> phase_seen I (j_Snapshot snapshot) (cm_phase record).

(** What the cache holds was resolved. *)
Definition cache_true (st : BackendState) : Prop := forall version manifest, bs_verified st !! version = Some manifest ->
  answered I (resolver_Resolve version) (Ok manifest).

Context (Hcluster : cluster_keeps).

Definition backend_ok (a : A) : Prop := I a.2 /\ cache_true a.1.

Lemma resolve_true version a : backend_ok a ->
  wp (resolve version) (fun res a' => backend_ok a' /\ forall manifest, res = Ok manifest -> answered I (resolver_Resolve version) (Ok manifest)) a.
Proof.
  destruct a as [st b]. intros [HI Hc]. unfold resolve. wp_step. apply wp_get_state. cbn [after].
  destruct (bs_verified st !! version) as [manifest|] eqn:Ev; [wp_step; split; [done|]; intros m [= <-]; by apply Hc|].
  wp_step. apply wp_on_world. eapply wp_asked; [apply (ck_resolve Hcluster)|exact HI|]. intros [manifest|e] b1 HI1 Hr; cbn [after]; [|by repeat split].
  destruct (semver_less _ _) as [[|]|]; [wp_step; by repeat split| |wp_step; by repeat split].
  wp_step. apply wp_put_state. cbn [after]. wp_step. split; [|by intros m [= <-]]. split; [done|]. intros v m. cbn.
  rewrite lookup_insert_Some. intros [[<- <-]|[_ Hm]]; [done|]. case_match; [by rewrite lookup_empty in Hm|by apply Hc].
Qed.

Lemma Prepare_ok spec a : backend_ok a -> wp (Backend_Prepare runtimeNamespace spec) (fun _ a' => backend_ok a') a.
Proof.
  intros Ha. unfold Backend_Prepare. wp_step. eapply wp_mono; [by apply resolve_true|]. intros [manifest|e] [st b] [[HI Hc] _]; cbn [after]; [|done].
  destruct (negb _); [by wp_step|]. wp_step. apply wp_on_world. eapply wp_mono; [apply wp_keeps; [apply (ck_prepare Hcluster)|exact HI]|].
  intros [snapshot|e] b1 HI1; cbn [after]; [|done]. destruct (_ && _); [by wp_step|]. wp_step. apply wp_on_world.
  eapply wp_mono; [apply wp_keeps; [apply (ck_validate Hcluster)|exact HI1]|]. by intros [[]|e] b2 HI2; cbn [after]; [wp_step|].
Qed.

(** A target that differs from its signed publication is not touched. *)
Lemma wp_signed {X} snapshot (use : IO A X) e (Q : res X -> A -> Prop) a : backend_ok a ->
  (forall a', backend_ok a' -> signed (ip_Target (ni_Plan snapshot)) -> wp use Q a') -> (forall e a', backend_ok a' -> Q (Fail e) a') ->
  wp (manifest ← resolve (rm_Version (ip_Target (ni_Plan snapshot)));
      if negb (bool_decide (manifest = ip_Target (ni_Plan snapshot))) then io_fail e else use) Q a.
Proof.
  intros Ha Huse Hfail. wp_step. eapply wp_mono; [by apply resolve_true|]. intros [manifest|e'] a1 [Ha1 Hm]; cbn [after]; [|by apply Hfail].
  destruct (bool_decide _) eqn:E; cbn [negb]; [|wp_step; by apply Hfail]. apply bool_decide_eq_true in E as ->. apply Huse; [done|]. by apply Hm.
Qed.

Lemma Advance_ok uid snapshot phase a : backend_ok a -> phase_seen I snapshot phase ->
  wp (Backend_Advance uid snapshot phase) (fun res a' => backend_ok a' /\ forall next, res = Ok next -> phase_seen I snapshot next) a.
Proof.
  intros Ha Hseen. unfold Backend_Advance. cbv zeta. apply wp_signed; [done| |by split]. clear a Ha. intros [st b] [HI Hc] Hsigned.
  wp_step. apply wp_get_state. cbn [after]. wp_step. apply wp_put_state. cbn [after]. apply wp_on_world.
  eapply wp_mono; [by apply (Advance_seen I snapshot (ck_transition Hcluster snapshot Hsigned) phase)|].
  intros res b' [HI' Hn]. split; [done|]. intros next Hok. by apply (Hn next).
Qed.

Lemma Verify_ok snapshot a : backend_ok a -> wp (Backend_Verify snapshot) (fun res a' => backend_ok a' /\ (res = Ok tt -> verified snapshot)) a.
Proof.
  intros Ha. unfold Backend_Verify. cbv zeta. apply wp_signed; [done| |by split]. clear a Ha. intros [st b] [HI Hc] Hsigned. apply wp_on_world.
  eapply wp_mono; [by apply (Verify_seen I snapshot (ck_transition Hcluster snapshot Hsigned))|]. intros res b' [HI' Hv]. split; [done|].
  intros Hok. split; auto.
Qed.

(** *** Journals stay true *)

Lemma hold_seen_nothing snapshot : phase_seen I snapshot NativePhaseHold.
Proof. split; [intros _; split_and!|]; intros Hr; vm_compute in Hr; lia. Qed.

Lemma journal_of_phase installation record next snapshot :
  journal_of installation (bumped (with_phase next record)) = Ok snapshot -> journal_of installation record = Ok snapshot.
Proof.
  unfold journal_of. cbn -[journalLimit regexpDigest]. unfold map_get at 1. rewrite lookup_insert_ne by done. done.
Qed.

Lemma journal_of_data installation record snapshot :
  journal_of installation record = Ok snapshot -> journal_Unmarshal (map_get (cm_Data record) journalData) = Some snapshot.
Proof.
  unfold journal_of. cbv zeta. destruct (_ || _); [done|]. destruct (journal_Unmarshal _) as [j|]; [|done]. destruct (_ || _); [done|].
  by intros [= <-].
Qed.
Lemma journal_of_same i j record s s' : journal_of i record = Ok s -> journal_of j record = Ok s' -> s = s'.
Proof. intros Hs%journal_of_data Hs'%journal_of_data. congruence. Qed.

Lemma phase_of_phase next record : cm_phase (bumped (with_phase next record)) = next.
Proof. unfold cm_phase, map_get. cbn. by rewrite lookup_insert_eq. Qed.

Lemma journals_step m m' :
  journals_true m -> journal_step r (fun _ _ => True) (fun snapshot _ next => phase_seen I snapshot next) m m' -> journals_true m'.
Proof.
  intros Hm Hstep record Hr. destruct Hstep as [change m Hc|installation uid m Ho|installation adopt uid prepared m Hj _|installation old snapshot next m Hj Ho Hp Hn|installation old snapshot m Hj Ho Hp Hd].
  - destruct (Hc m) as [E|E]; rewrite E in Hr; [by apply Hm|done].
  - rewrite lookup_insert_ne in Hr by apply keys_differ. by apply Hm.
  - rewrite lookup_insert_eq in Hr. injection Hr as <-. split; [done|]. intros i s _. apply hold_seen_nothing.
  - rewrite lookup_insert_eq in Hr. injection Hr as <-. destruct (Hm old Hj) as [Hk _]. split; [done|].
    intros i s Hs%journal_of_phase. rewrite phase_of_phase.
    by rewrite (journal_of_same _ _ _ _ _ Hs Ho).
  - by rewrite lookup_delete_eq in Hr.
Qed.

Lemma controller_keeps :
  installation_keeps r backend_ok journals_true (fun _ _ => True) (fun snapshot _ next => phase_seen I snapshot next) verified.
Proof.
  split.
  - intros key [st b] [HI Hc]. pose proof (ck_get Hcluster key b HI) as HI'. unfold k8s_Get, lifted_get, on_world. cbn in *. by destruct (k8s_Get key b).
  - intros current status Hh [st b] [HI Hc]. pose proof (ck_status Hcluster current status Hh b HI) as HI'.
    unfold k8s_UpdateStatus, lifted_status, on_world. cbn in *. by destruct (k8s_UpdateStatus current status b).
  - intros spec a Ha. eapply wp_mono; [by apply Prepare_ok|]. auto.
  - intros m installation record snapshot uid a Hm Hr Hj Ha. apply Advance_ok; [done|]. by apply (Hm record Hr) in Hj.
  - intros snapshot a Ha. by apply Verify_ok.
  - intros m record Hm Hr. by apply (Hm record Hr).
  - apply journals_step.
Qed.

(** ** Histories *)

(** One event: a pass for some request; a restart of the controller, which
    forgets its cache; whatever else happens to the cluster, and the requests and
    failures of other clients that come next, which leave the journal alone or
    remove it. *)
Inductive event : W -> W -> Prop :=
| ev_pass request w : event w (pass request w).2
| ev_restart maps st b : event (maps, (st, b)) (maps, (mkBackendState ∅ None, b))
| ev_cluster maps st b b' env : I b' -> Forall (fun c => leaves r c.1) env ->
    event (maps, (st, b)) (mkApi (api_objs maps) env (api_clock maps), (st, b')).

(** A cluster without a journal, a controller that has just started. *)
Definition fresh (w : W) : Prop := I w.2.2 /\ api_objs w.1 !! jkey r = None /\ api_env w.1 = [] /\ bs_verified w.2.1 = ∅.

Lemma history_shared w w' : shared r backend_ok journals_true anything w -> rtc event w w' -> shared r backend_ok journals_true anything w'.
Proof.
  intros Hw Hh. induction Hh as [|w w1 w2 He _ IH]; [done|]. apply IH. clear IH. destruct He as [request w|maps st b|maps st b b' env HI' Henv].
  - by apply (Reconcile_shared error_text assigned r backend_ok journals_true _ _ _ controller_keeps).
  - destruct Hw as (_ & HJ & _ & Henv & [HI Hc]). by split_and!.
  - destruct Hw as (_ & HJ & _ & _ & [HI Hc]). by split_and!.
Qed.


End History.

(** ** A first installation *)

Module InstallSample.

(** The cluster: what was applied, and the installation that is asked for.
    Nothing is deployed yet but the two secrets of the observations. *)
Record Site := mkSite { applied : list (InstallPlan * string); wanted : WaycloakInstallation }.

Definition named (namespace name uid : string) : ObjectMeta := mkObjectMeta namespace name uid 1 None ∅ ∅ [] [].
Definition digest : string := digest_of "artifact".
Definition artifact (name : string) : Artifact := mkArtifact ("registry.example/" +:+ name) digest.
Definition images : gmap string Artifact := list_to_map (map (fun name => (name, artifact name)) requiredImages).

#[local] Instance json : ReleaseJson := {| manifest_json := rm_Version; observation_json := rel_State; plan_json := ip_Operation |}.
#[local] Instance objects : ReleaseObjects := {| crd_json := cs_Rest; parseCABundle _ := Ok tt; validateServingIdentity _ := Ok tt |}.
#[local] Instance quote : GoQuote := fun s => s.
#[local] Instance semver : Semver := fun _ _ => Some false.

Definition release : ReleaseManifest :=
  mkReleaseManifest "release.waycloak.io/v1" "v1.0.2" (digest_of "v1.0.2") (artifact "chart") None images [BaselineProfile] None.
Definition absent : InstalledReleaseObservation :=
  mkInstalledReleaseObservation None installStateAbsent (digest_of installStateAbsent) 0 "" "" ∅ "" 0 "" "" "" "" "" ∅.
Definition crds : gmap string string := list_to_map (map (fun name => (name, digest_of name)) stateCRDNames).
Definition plan : InstallPlan :=
  mkInstallPlan (digest_of "Install") "Install" absent crds "" "10.88.0.0/16" "amd64" "" "waycloak-system" "waycloak" (digest_of "v1.0.2")
    release (artifact "chart") "" None.
Definition layout : NodeInstallLayout := mkNodeInstallLayout "/etc/cni/net.d/10" "/opt/cni/bin/waycloak" "/var/lib/waycloak/receipt" "" ∅ ∅.
Definition snapshot : NativeInstallPlan := mkNativeInstallPlan plan digest "ca-uid" "tls-uid" (digest_of "ca") (digest_of "crt") layout.

Definition ca : Secret := mkSecret (named "waycloak-system" "waycloak-observation-ca" "ca-uid") SecretTypeOpaque {["ca.crt" := "ca"]}.
Definition tls : Secret := mkSecret (named "waycloak-system" "waycloak-observation-tls" "tls-uid") SecretTypeTLS {["tls.crt" := "crt"]}.

Definition missing {T} : IO Site T := io_fail (EStatus ReasonNotFound).
#[local] Instance timer : Timer Site := {| Now _ := 0; Select _ _ := mret true |}.
#[local] Instance site_clock : Clock Site := fun _ => 0.
#[local] Instance get_crd : Getter Site CustomResourceDefinition := fun _ => missing.
#[local] Instance get_deployment : Getter Site Deployment := fun _ => missing.
#[local] Instance get_daemonset : Getter Site DaemonSet := fun _ => missing.
#[local] Instance get_class : Getter Site VPNGatewayClass := fun _ => missing.
#[local] Instance get_gateway : Getter Site VPNGateway := fun _ => missing.
#[local] Instance get_secret : Getter Site Secret := fun key =>
  if bool_decide (key = key_of (se_Meta ca)) then mret ca else if bool_decide (key = key_of (se_Meta tls)) then mret tls else missing.
#[local] Instance list_secrets : Lister Site Secret := fun _ => mret [ca; tls].
#[local] Instance list_any {T} : Lister Site T | 10 := fun _ => mret [].
#[local] Instance update_daemonset : Updater Site DaemonSet := fun _ => missing.
#[local] Instance delete_pod : UidDeleter Site RuntimePod := fun _ _ => missing.
#[local] Instance delete_class : UidDeleter Site VPNGatewayClass := fun _ _ => missing.
#[local] Instance checks : InstallChecks Site := {|
  ensureNoCertificateRotation _ _ := mret tt;
  ensureNoInstallRepair _ _ := mret tt;
  Preflight _ := mret (mkPreflightReport true digest);
  observePortForwardInstallIdentity _ _ _ := missing
|}.
#[local] Instance runtime : InstallRuntime Site := {|
  runtime_CRDIdentities _ := mret crds;
  runtime_Apply plan overrides := fun w => (Ok tt, mkSite (applied w ++ [(plan, overrides)]) (wanted w))
|}.
#[local] Instance resolver : ReleaseResolver Site := fun version => if String.eqb version "v1.0.2" then mret release else missing.
#[local] Instance maker : PlanMaker Site := {| PrepareNativeInstall _ _ := mret snapshot; runtime_Validate _ := mret tt |}.

Definition spec : InstallationSpec := mkInstallationSpec "v1.0.2" "waycloak-system" "waycloak" "10.88.0.0/16" "amd64" "" false false.
Definition installation : WaycloakInstallation :=
  mkWaycloakInstallation (named "" "waycloak" "installation-uid") spec (mkInstallationStatus 0 0 "" "" "" 0 "" "" []).
#[local] Instance get_installation : Getter Site WaycloakInstallation := fun _ w => (Ok (wanted w), w).
#[local] Instance set_installation : StatusUpdater Site WaycloakInstallation InstallationStatus := fun current status w =>
  (Ok tt, mkSite (applied w) (mkWaycloakInstallation (wi_Meta current) (wi_Spec current) status)).
#[local] Instance journals : InstallationJson := {|
  spec_json := is_Version;
  journal_json _ := "journal";
  journal_Unmarshal data := if String.eqb data "journal" then Some (mkJournal "installation-uid" 1 (digest_of "v1.0.2") snapshot) else None
|}.

#[local] Program Instance setter : ConditionSetter := {| SetStatusCondition now cs c := c :: filter (fun c' => c_Type c' <> c_Type c) cs |}.
Next Obligation.
  intros now cs c c' _ [-> | [Hne Hin]%list_elem_of_filter]%elem_of_cons; [by left|by right].
Qed.

Definition reconciler : Reconciler := mkReconciler "waycloak-install".
Definition round (w : api ConfigMap * (BackendState * Site)) : api ConfigMap * (BackendState * Site) :=
  (pass "waycloak-system" (fun _ => "error") (fun _ => "map-uid") reconciler (mkObjectKey "" "waycloak") w).2.

Definition start : api ConfigMap * (BackendState * Site) := (mkApi ∅ [] 0, (mkBackendState ∅ None, mkSite [] installation)).

(** The phase of the journal and what was applied after so many rounds. *)
Definition stands (rounds : nat) : option string * list string :=
  let w := Nat.iter rounds round start in
  (cm_phase <$> api_objs w.1 !! jkey reconciler, map snd (applied w.2.2)).

(** The controller comes first, without nodes and class; then the release. *)
Lemma install_runs :
  stands 1 = (Some NativePhaseHold, []) /\ stands 3 = (Some NativePhaseActivate, [controllerFirstBootstrapValues]) /\
  stands 4 = (Some NativePhaseVerify, [controllerFirstBootstrapValues; ""]) /\
  stands 5 = (Some NativePhaseVerify, [controllerFirstBootstrapValues; ""]).
Proof. by vm_compute. Qed.

Definition only_signed (w : Site) : Prop := Forall (fun entry => ip_Target entry.1 = release) (applied w).

Lemma signed_release target : signed only_signed target -> target = release.
Proof.
  intros (w & w' & _ & E). unfold resolver_Resolve, resolver in E. apply (f_equal fst) in E.
  destruct (String.eqb _ _); [|done]. by assert (Ok release = Ok target) as [= <-] by exact E.
Qed.

Lemma transition_keeps_signed snapshot : signed only_signed (ip_Target (ni_Plan snapshot)) -> transition_keeps only_signed snapshot.
Proof.
  intros Hs%signed_release. split; try by intros; intros w Hw.
  - intros key w Hw. unfold k8s_Get, get_secret. by repeat case_match.
  - intros applied overrides [-> _] w Hw. apply Forall_app. split; [done|]. by constructor.
Qed.

Lemma cluster_keeps_signed : cluster_keeps only_signed.
Proof.
  split; [exact transition_keeps_signed| |by intros; intros w Hw..].
  intros version w Hw. unfold resolver_Resolve, resolver. by case_match.
Qed.


End InstallSample.
